(* ===== verification/_CoqProject ===== *)
-Q . S2P
Prelude.v
PyValue.v
Sha256.v
Json.v
JsonFacts.v
UuidFacts.v
Effect.v
Bytes.v
KeyedArchive.v
MutationJournal.v
Evidence.v
TypedJournal.v
OperationWorld.v
PersistenceJournal.v
EnrollmentJournal.v
RenameJournal.v
DeleteJournal.v
SyncJournal.v
ExternalDeleteJournal.v
UserMapping.v
UserReadiness.v
ActivationJournal.v
MutationRegistry.v
UserPolicy.v
UserActivation.v
ActivationRuns.v
EnrollmentProtocol.v
AcmProtocol.v
AksState.v
BridgeWire.v
CatacombOracle.v
CatacombCodec.v
CatacombDecode.v
CatacombWrite.v
CatacombStore.v
StoreRecovery.v
CatacombProtocol.v
SaveWorld.v
SaveFacts.v
PersistenceOperation.v
PersistenceRuns.v
SingleSave.v
SingleSaveRuns.v
BridgeLease.v
CatacombBridge.v
CatacombBridgeRuns.v
EnrollmentBridge.v
EnrollmentOperation.v
EnrollmentRuns.v
EnrollmentStack.v
IdentityInventory.v
IdentityPlans.v
DeleteOperation.v
IdentityOperations.v
IdentityOperationRuns.v
ProcessIdentity.v
WorkerProtocol.v
WorkerChannel.v
Samples.v
JournalSamples.v
UserSamples.v
FileSamples.v
ProtocolSamples.v
CatacombSamples.v
IdentitySamples.v
OperationSamples.v
PersistenceSamples.v
BridgeSamples.v
EnrollmentSamples.v
EditSamples.v
