(* ===== verification/Prelude.v ===== *)
(** * A verification development for the T2 Touch ID tools

    The repository drives the fingerprint coprocessor of a T2 Mac from Linux.
    Every operation that changes the coprocessor or the host's copy of its
    data (enrolling, renaming and deleting a fingerprint, synchronising the
    host archives, activating a user) is preceded by an intent in an
    append-only journal, driven over a Bridge connection, and settled by
    readbacks; a registry of the journals decides whether a new operation may
    start.  The development models that core: the journals and the state
    machines their records are validated by, the users the operations are
    authorized for, the byte formats that are exchanged with the coprocessor,
    the archives and the store of its data on the host, and the operations
    that drive all of these, down to the lease of the connection.

    ** Layers and files

    Foundations:
    - [Prelude]: exceptions and the [result] type, the fold of a history, paths;
    - [PyValue]: the dynamic values the sources are written over, with Python's
      equality, dictionary access and [uuid.UUID];
    - [Sha256], [Json], [JsonFacts]: the digest, canonical [json.dumps] and
      [json.loads], and that loading inverts dumping;
    - [Effect]: the state-and-exception monad [act] of methods that mutate their
      object or a socket, with a weakest-precondition calculus;
    - [Bytes]: byte strings, [struct] formats, and the class [Wire] of a codec
      whose decoder accepts exactly the encoder's image;
    - [UuidFacts]: [uuid.UUID] reads back what [str] of a UUID writes;
    - [KeyedArchive]: the values of [plistlib] and the traversal of an object
      table;
    - [OperationWorld]: what the operations on a journal share - the class
      [Journalled] of their worlds, the surroundings of the process, and the
      checked append as an action.

    Journals ([src/src/t2_mutation_journal.py] and the typed journals on it):
    - [MutationJournal]: [reject_secrets], [validate_baseline],
      [validate_records], [append], [create], [read] on a journal file;
    - [Evidence]: the evidence checks the typed journals share;
    - [TypedJournal]: [validate_history], [read] and [append_checked] over the
      class [TypedJournal] that each typed journal instantiates;
    - [PersistenceJournal]: [PersistenceTracker] of
      [t2_enrollment_persistence_journal.py], the multi-batch save;
    - [EnrollmentJournal], [RenameJournal], [DeleteJournal], [SyncJournal],
      [ExternalDeleteJournal], [ActivationJournal]: the validators of
      [t2_enrollment_journal.py], [t2_identity_rename_journal.py],
      [t2_identity_delete_journal.py], [t2_catacomb_sync_journal.py],
      [t2_external_delete_reconcile.py], [t2_user_activation_journal.py], one
      definition [on_<milestone>] per branch of [validate_history];
    - [MutationRegistry]: [scan] and [blocks_new_mutation] of
      [t2_mutation_registry.py].

    Users:
    - [UserMapping]: [parse], [serialize], [resolve], [load] of
      [t2_user_mapping.py];
    - [UserReadiness]: [assess] of [t2_user_readiness.py];
    - [UserPolicy]: [authorize] and [require_bound_authority] of
      [t2_user_policy.py].

    Formats and protocols:
    - [EnrollmentProtocol]: the start request, the event decoders and the
      reducer [EnrollmentStateMachine] of [t2_enrollment_protocol.py];
    - [AcmProtocol]: the credential commands of [t2_acm_protocol.py];
    - [AksState]: the DER key-bag state of [t2_aks_state.py];
    - [BridgeWire]: frames, envelopes and the request loop of
      [t2_bridge_wire.py].

    The host's copy of the coprocessor's data:
    - [CatacombOracle], [CatacombCodec], [CatacombDecode], [CatacombWrite]: the
      independent reader of [t2_catacomb_oracle.py], the reader and writer of
      [t2_catacomb_codec.py], and the theorems on decoding and encoding;
    - [CatacombStore], [StoreRecovery]: the two-phase file transaction of
      [t2_catacomb_store.py] and its recovery from a crash at any call;
    - [CatacombProtocol]: components, listings, the save plan and commands of
      [t2_catacomb_protocol.py] and [t2_biolockout_protocol.py];
    - [IdentityInventory], [IdentityPlans]: the reconciliation of the archive
      with the live inventory and its consumers ([t2_identity_inventory.py],
      [t2_user_broker_inventory.py], [t2_fprint_projection.py],
      [t2_fprint_match_selection.py]), and the plans of
      [t2_identity_rename.py] and [t2_identity_delete.py].

    Operations:
    - [UserActivation], [ActivationRuns]: [run] of
      [t2_user_activation_operation.py] and [recover] of
      [t2_user_activation_recovery.py];
    - [EnrollmentOperation], [EnrollmentRuns]: the class of that name of
      [t2_enrollment_operation.py], over the interface [EnrollmentTransport];
    - [SaveWorld], [SaveFacts]: transport, host store, buffers and trace of a
      save, and what all saves have in common, whatever their journal
      ([SaveJournal]);
    - [PersistenceOperation], [PersistenceRuns]: [run] of
      [t2_enrollment_persistence_operation.py];
    - [SingleSave], [SingleSaveRuns], [IdentityOperations],
      [IdentityOperationRuns]: the save of one component and the two operations
      made of it, [run] of [t2_identity_rename_operation.py] and of
      [t2_identity_delete_persistence.py];
    - [DeleteOperation]: [run] of [t2_identity_delete_operation.py], over the
      interface [DeleteTransport].

    Adapters between the operations and the connection:
    - [BridgeLease]: the interface [Lease] of a connection, and
      [IdentityDeleteBridge] of [t2_identity_delete_bridge.py];
    - [CatacombBridge], [CatacombBridgeRuns]: the transports of a save of
      [t2_catacomb_bridge.py], [t2_biolockout_bridge.py] and the router of
      [t2_enrollment_persistence_bridge.py];
    - [EnrollmentBridge]: [EnrollmentBridgeTransport] of
      [t2_enrollment_bridge.py];
    - [EnrollmentStack]: the enrolment operation over that adapter, as
      [t2_enrollment_coordinator.py] puts them together.

    The fingerprint daemon and its workers:
    - [ProcessIdentity]: which process a pidfd denotes and as whom it runs, of
      [t2_dbus_identity.py] and [t2_polkit_grant.py], over the interface
      [Kernel];
    - [WorkerProtocol], [WorkerChannel]: the packets and the sends and receives
      of [t2_fprint_worker_protocol.py] and
      [t2_fprint_delete_worker_protocol.py].

    Concrete inputs: [Samples], [JournalSamples], [UserSamples],
    [FileSamples], [ProtocolSamples], [CatacombSamples],
    [IdentitySamples], [OperationSamples], [PersistenceSamples],
    [BridgeSamples], [EnrollmentSamples], [EditSamples] hold the runs on which the
    theorems with hypotheses are instantiated.

    ** What the theorems show

    - Journal files: appending extends the file with one chained record and
      changes nothing before it, whatever the system calls do; a guarded append
      detects a concurrent change; two journals of the same last digest are
      equal unless two of their own records collide; a checked append keeps the
      history valid and, absent I/O errors, completes.
    - State machines: each journal's records follow a phase graph; a command is
      never journalled after an outcome; a deletion is dispatched at most once;
      a save follows its script batch by batch; an activation ends and never
      repeats a step; a verified record lies behind a reboot; an unblocked
      registry means every journal is settled.
    - Users: the mapping file has one canonical form; resolution, readiness
      and authorization are characterised exactly by what they rest on, and a
      decision is consumed only for the operation it was made for.
    - Protocols: decoders accept exactly the encoder's image; the status
      domain of an enrolment is partitioned; an enrolment has one outcome; a
      request returns exactly when its own reply has come, with the callbacks
      before it, each acknowledged once.
    - Archives: the two readers agree; a written archive reads back, and every
      edit does what it says, as long as [plistlib] can encode the result within
      the codec's limit of 1 MiB; a reachability check accepts exactly the
      acyclic, fully reachable tables; a plan is the edit of exactly one
      resolved identity, and binding fresh secure data keeps it.
    - The store: whatever call of a transaction fails or is never made, a
      recovery whose calls succeed installs all of the new components or none;
      a torn staged file blocks it (a finding).
    - Operations: every command to the coprocessor and every change of the
      host store is made while the journal on disk ends with its intent, in
      the order of a script, at most once, and secret buffers are wiped,
      however the run ends; a run that returns has recorded the outcome it
      returns, and the evidence of that outcome was observed after the last
      command; a recovery observes, changes nothing and settles the journal by
      what it observed; an enrolment ends if its transport does not time out
      forever.
    - Adapters: whatever the lease answers, the commands that reach it are an
      initial part of the script of the protocol, and nothing follows an
      error; the router of an enrolment satisfies what the save expects of its
      transport; and the commands of an enrolment at the lease are a part of
      those whose intents are on disk.
    - Workers: every decoder of a packet accepts exactly the canonical text of
      a valid message; a request that is received with a pidfd is that of the
      verified process, and a refusal leaves no descriptor open - unless other
      ancillary data comes in front of it (a finding).

    ** Modelling choices

    - Values of unknown type are [PyValue.value]; an argument that is
      annotated and never checked has the annotated type.  [bool] is an [int]
      where Python's equality says so; [type(x) is int] is [is_int].  Floats
      do not occur in any accepted value and are left out: [loads] returns
      [None] on them.  Strings hold code points below 256.
    - A dictionary is a [gmap]; where the source iterates over one, it sorts
      the keys or the order is checked separately, except in decoders that
      keep an association list.
    - An exception is its class and message; [raise ... from] keeps the new one.
    - [flock] makes one append or one read of a journal file atomic; other
      processes act between them as an arbitrary function on the file: a
      checked append has three moments - before its first read, between that
      and the append ([others]), and between the append and the reading back
      ([settle]) - and an operation numbers the moments of its accesses
      [3 n], [3 n + 1], [3 n + 2] ([OperationWorld.surroundings]).  What a
      theorem says of the journal at the time of a call is about the journal as
      the operation last read it back; what other processes do to it from then
      on is seen at the next access.
    - The theorems on operations assume that other processes are [orderly]:
      from a file of complete lines they leave one of complete lines (without
      the final newline the next append would corrupt the journal, a finding),
      and they do not come between an append and the reading back that
      follows it (a record of theirs there would be reported as the
      operation's own last one).  The properties say so.
    - Results of [open], [fstat], [write], [fsync] are inputs.  [fsync] of a
      directory has no other effect than its result: what a crash may lose is
      decided by the order of the calls.
    - A socket is the list of segments it will deliver and what was sent; an
      empty segment is the end of the stream, and after the last segment the
      peer is silent and [recv] does not return, which is the exception
      [Blocked] that no handler of [BridgeWire] catches.  The loop of a request has no bound of
      its own, and neither has the number of callbacks it takes.
    - Transports, stores, leases, callbacks, encoders and read-backs are
      interfaces over states of their own, or functions of the calls made so
      far: nothing is assumed of what they answer, exceptions included, unless
      a theorem names it as a hypothesis.
    - What an operation did is a trace: each call with the journal file as it
      was when the call was made.
    - A [bytearray] of an operation is a reference into a heap that the
      callees share, so wiping is an effect on the object they handed out.
    - A crash of the store is a system call that is never made, an exception
      nobody catches; [os.path.lexists] alone answers [False] when its call
      fails (so that a recovery may overlook a transaction, a finding).
      Directory entries reach the disk in the order of the calls.
    - [plistlib], and whatever else is not part of the repository, is a
      parameter of the definitions that use it.
    - Python's recursion limit is not modelled: the traversal of an archive
      nests at most as deep as the table is long.
    - Fuel appears in [Json] (input length), [Sha256] (number of blocks),
      [dec] (the bits of the number), [AksState.decode_entries] (an entry has
      at least one byte) and [BridgeWire] (a turn of the loop takes the
      sixteen bytes of a header or waits for them), [KeyedArchive.visit] (the nesting
      of distinct objects is at most the length of the table),
      [CatacombStore.write_blocks] (every write takes at least one byte) and
      [EnrollmentOperation.event_loop] (the polls).  [JsonFacts] shows that it
      is enough for every dumped text; [decode_total], [request_never_out_of_turns],
      [require_reachable_exact] and [enrollment_terminates] that it does not
      run out.

    ** Not modelled

    Device and account-database access ([ioctl], D-Bus, [pkcheck], [pwd]), the
    sockets and threads behind the lease of a connection
    ([t2_bridge_connection.py], [t2_ipc_session.py]), process launching,
    command-line tools, the C sources, units and scripts: their behaviour is
    that of the system they call, and the decisions they take are those of the
    modelled modules.  The reconciliations and pipelines that collect
    inventories over a connection and feed the modelled operations, the editing
    of the mapping file, the plan builder of the external-delete
    reconciliation, the processes at both ends of a worker channel, and the
    message protocol of the user broker are not modelled.  The components of the manifest say it
    one by one. *)
From stdpp Require Export base tactics option list gmap strings sorting fin_maps.
From Stdlib Require Export ZArith Lia Ascii.

#[export] Set Warnings "-clear-no-such-hyp".

(** ** Exceptions and results

    A Python statement list that may [raise] is a term of type [result A]:
    [Ok a] is normal completion and [Raise e] the propagating exception.  The
    exception keeps the class, on which [except] clauses select, and the
    message. *)

Inductive exn_class :=
  | JournalError
  | PersistenceJournalError
  | EnrollmentJournalError
  | UserActivationJournalError
  | IdentityRenameJournalError
  | IdentityDeleteJournalError
  | CatacombSyncJournalError
  | ExternalDeleteReconcileError
  | MutationRegistryError
  | EnrollmentProtocolError
  | UserMappingError
  | UserReadinessError
  | UserPolicyError
  | UserActivationOperationError
  | UserActivationRecoveryError
  | ACMProtocolError
  | AKSStateError
  | AKSActivationTransportError
  | IdentityInventoryError
  | IdentityRenameError
  | IdentityDeleteError
  | CatacombProtocolError
  | CatacombCodecError
  | BioLockoutProtocolError
  | CatacombBridgeError
  | BioLockoutBridgeError
  | EnrollmentPersistenceBridgeError
  | EnrollmentBridgeError
  | IdentityDeleteBridgeError
  | UserBrokerProtocolError
  | UserBrokerPeerClosed
  | FprintWorkerProtocolError
  | FprintWorkerPeerClosed
  | FprintClaimError
  | EnrollmentOperationError
  | EnrollmentPreDispatchCancelled
  | PersistenceOperationError
  | EnrollmentReconciliationError
  | EnrollmentFinalizerError
  | PostRebootReconcilerError
  | IdentityRenameOperationError
  | IdentityRenameReconciliationError
  | IdentityRenameRecoveryError
  | IdentityDeleteOperationError
  | IdentityDeletePersistenceError
  | IdentityDeletePipelineError
  | IdentityDeleteReconciliationError
  | IdentityDeleteRecoveryError
  | OracleError
  | LocalCatacombError
  | CatacombStoreError
  | UserMappingAdminError
  | UserBrokerError
  | UserBrokerClientError
  | UserBrokerClientPeerClosed
  | UserBrokerDispatchError
  | UserBrokerInventoryError
  | UserReconciliationError
  | RecoveryAnchorError
  | BaselineError
  | FprintProjectionError
  | FprintMatchSelectionError
  | FprintDeleteWorkerProtocolError
  | FprintDeleteWorkerPeerClosed
  | FprintDeleteWorkerFailed
  | FprintDeletionRuntimeError
  | FprintEnrollmentRuntimeError
  | PolkitGrantError
  | DBusIdentityError
  | IPCSessionError
  | UnicodeError
  | OverflowError
  | StructError
  | EOFError
  | AssertionError
  (** No exception: the call has not returned. *)
  | Blocked
  | TypeError
  | ValueError
  | KeyError
  | AttributeError
  | IndexError
  | OSError.

#[export] Instance exn_class_eq_dec : EqDecision exn_class.
Proof. solve_decision. Defined.

Record exn := Exn { exn_cls : exn_class; exn_msg : string }.

#[export] Instance exn_eq_dec : EqDecision exn.
Proof. solve_decision. Defined.

(** [issubclass]: the typed journals derive their error from
    [t2_mutation_journal.JournalError], except the Catacomb synchronisation
    journal and the external-delete journal, which derive from
    [RuntimeError]. *)
Definition is_journal_error (c : exn_class) : bool :=
  match c with
  | JournalError | PersistenceJournalError | EnrollmentJournalError
  | UserActivationJournalError | IdentityRenameJournalError
  | IdentityDeleteJournalError => true
  | _ => false
  end.

Inductive result (A : Type) : Type :=
  | Ok (a : A)
  | Raise (e : exn).
Arguments Ok {A} a.
Arguments Raise {A} e.

#[export] Instance result_eq_dec `{EqDecision A} : EqDecision (result A).
Proof. solve_decision. Defined.

#[export] Instance result_ret : MRet result := λ A a, Ok a.
#[export] Instance result_bind : MBind result := λ A B f m,
  match m with Ok a => f a | Raise e => Raise e end.
#[export] Instance result_fmap : FMap result := λ A B f m,
  match m with Ok a => Ok (f a) | Raise e => Raise e end.

Declare Scope py_scope.
Delimit Scope py_scope with py.

Definition raise {A} (c : exn_class) (msg : string) : result A := Raise (Exn c msg).

(** [if b: raise c(msg)] *)
Definition fail_if (b : bool) (c : exn_class) (msg : string) : result unit :=
  if b then raise c msg else Ok tt.

(** [try: m / except classes as error: raise wrap(error)] *)
Definition except {A} (catches : exn_class → bool) (wrap : exn → exn) (m : result A) : result A :=
  match m with
  | Ok a => Ok a
  | Raise e => if catches (exn_cls e) then Raise (wrap e) else Raise e
  end.

(** The recurring clause
    [except journal.JournalError as error: raise c(str(error)) from error]. *)
Definition rewrap {A} (c : exn_class) : result A → result A :=
  except is_journal_error (λ e, Exn c (exn_msg e)).

Definition is_ok {A} (m : result A) : bool := match m with Ok _ => true | Raise _ => false end.

(** Short-circuit [or] and [and] of conditions whose evaluation may raise. *)
Definition or_else (a b : result bool) : result bool :=
  a ≫= λ v : bool, if v then Ok true else b.
Definition and_then (a b : result bool) : result bool :=
  a ≫= λ v : bool, if v then b else Ok false.

Notation "a ||! b" := (or_else a b) (at level 50, left associativity) : py_scope.
Notation "a &&! b" := (and_then a b) (at level 40, left associativity) : py_scope.
Open Scope py_scope.

(** Sequential checks over a list, [for x in xs: f(x)]. *)
Fixpoint for_each {A} (f : A → result unit) (xs : list A) : result unit :=
  match xs with
  | [] => Ok tt
  | x :: xs => _ ← f x; for_each f xs
  end.

(** [for x in xs: state = f(state, x)] with an exception leaving the loop. *)
Fixpoint fold_result {S A} (f : S → A → result S) (s : S) (xs : list A) : result S :=
  match xs with
  | [] => Ok s
  | x :: xs => s' ← f s x; fold_result f s' xs
  end.

(** ** Lemmas about [result] *)

Section result_lemmas.
Context {A B : Type}.

Lemma Ok_inj (a b : A) : Ok a = Ok b → a = b.
Proof. by intros [= ->]. Qed.

Lemma fmap_Ok (f : A → B) (m : result A) b : f <$> m = Ok b ↔ ∃ a, m = Ok a ∧ b = f a.
Proof. destruct m; simpl; naive_solver. Qed.

Lemma bind_Ok (m : result A) (f : A → result B) b :
  m ≫= f = Ok b ↔ ∃ a, m = Ok a ∧ f a = Ok b.
Proof. destruct m; naive_solver. Qed.

Lemma bind_Raise (m : result A) (f : A → result B) e :
  m ≫= f = Raise e ↔ m = Raise e ∨ ∃ a, m = Ok a ∧ f a = Raise e.
Proof. destruct m; naive_solver. Qed.

Lemma fail_if_Ok b c msg u : fail_if b c msg = Ok u ↔ b = false.
Proof. destruct b, u; naive_solver. Qed.

Lemma fail_if_Raise b c msg e : fail_if b c msg = Raise e ↔ b = true ∧ e = Exn c msg.
Proof. unfold fail_if, raise. destruct b; naive_solver. Qed.

Lemma except_Ok catches wrap (m : result A) a :
  except catches wrap m = Ok a ↔ m = Ok a.
Proof. destruct m as [|e]; simpl; [done|]. destruct (catches _); naive_solver. Qed.

Lemma rewrap_Ok c (m : result A) a : rewrap c m = Ok a ↔ m = Ok a.
Proof. apply except_Ok. Qed.

Lemma rewrap_Raise c (m : result A) e :
  rewrap c m = Raise e →
  (exn_cls e = c ∧ ∃ e0, m = Raise e0 ∧ is_journal_error (exn_cls e0) = true ∧ exn_msg e = exn_msg e0)
  ∨ (m = Raise e ∧ is_journal_error (exn_cls e) = false).
Proof.
  unfold rewrap, except. destruct m as [|e0]; [done|].
  destruct (is_journal_error (exn_cls e0)) eqn:Hj; intros [= <-]; [left|right]; eauto 6.
Qed.

Lemma or_else_false (a b : result bool) :
  or_else a b = Ok false ↔ a = Ok false ∧ b = Ok false.
Proof. destruct a as [[]|]; simpl; naive_solver. Qed.

Lemma and_then_true (a b : result bool) :
  and_then a b = Ok true ↔ a = Ok true ∧ b = Ok true.
Proof. destruct a as [[]|]; simpl; naive_solver. Qed.

Lemma is_ok_true (m : result A) : is_ok m = true ↔ ∃ a, m = Ok a.
Proof. destruct m; naive_solver. Qed.
End result_lemmas.

Lemma for_each_Ok {A} (f : A → result unit) xs u :
  for_each f xs = Ok u ↔ Forall (λ x, f x = Ok tt) xs.
Proof.
  destruct u. induction xs as [|x xs IH]; simpl; [naive_solver|].
  rewrite bind_Ok, Forall_cons, <-IH. split; [intros ([] & ? & ?)|intros []]; eauto.
Qed.

Section fold_result.
Context {S A : Type} (f : S → A → result S).

Lemma fold_result_app s xs ys :
  fold_result f s (xs ++ ys) = s' ← fold_result f s xs; fold_result f s' ys.
Proof.
  revert s. induction xs as [|x xs IH]; intros s; simpl; [done|].
  destruct (f s x); simpl; [apply IH|done].
Qed.

Lemma fold_result_snoc s xs x s' :
  fold_result f s (xs ++ [x]) = Ok s' ↔ ∃ s1, fold_result f s xs = Ok s1 ∧ f s1 x = Ok s'.
Proof.
  rewrite fold_result_app, bind_Ok. simpl.
  split; intros (s1 & H1 & H2); exists s1; split; try done.
  - apply bind_Ok in H2 as (? & ? & ?). by simplify_eq.
  - by rewrite H2.
Qed.

(** An invariant of the start state that every successful step preserves
    holds after a successful loop. *)
Lemma fold_result_inv (I : S → Prop) s xs s' :
  (∀ t x t', I t → f t x = Ok t' → I t') →
  I s → fold_result f s xs = Ok s' → I s'.
Proof.
  intros Hstep. revert s. induction xs as [|x xs IH]; intros s Hs; simpl.
  - by intros [= <-].
  - rewrite bind_Ok. intros (t & Ht & Hxs). eauto.
Qed.

(** The same for a relation between the start state and the current one. *)
Lemma fold_result_rel (R : S → S → Prop) `{!PreOrder R} s xs s' :
  (∀ t x t', f t x = Ok t' → R t t') →
  fold_result f s xs = Ok s' → R s s'.
Proof.
  intros Hstep. revert s. induction xs as [|x xs IH]; intros s; simpl.
  - by intros [= <-].
  - rewrite bind_Ok. intros (t & Ht & Hxs). etrans; eauto.
Qed.

(** A state that admits no step only runs the empty list. *)
Lemma fold_result_stuck s xs s' :
  (∀ x t, f s x ≠ Ok t) → fold_result f s xs = Ok s' → xs = [] ∧ s' = s.
Proof.
  intros Hs. destruct xs as [|x xs]; simpl; [by intros [= <-]|].
  rewrite bind_Ok. intros (t & Ht & _). by apply Hs in Ht.
Qed.
End fold_result.

(** ** Paths of labelled transitions *)

Section path.
Context {P : Type} (edge : P → string → P → Prop).

Inductive path : P → list string → P → Prop :=
  | path_nil p : path p [] p
  | path_cons p m q ms r : edge p m q → path q ms r → path p (m :: ms) r.

Lemma path_app p ms q ms' r : path p ms q → path q ms' r → path p (ms ++ ms') r.
Proof. induction 1; [done|]. intros. econstructor; eauto. Qed.

Lemma path_app_inv p ms ms' r : path p (ms ++ ms') r → ∃ q, path p ms q ∧ path q ms' r.
Proof.
  revert p. induction ms as [|m ms IH]; intros p Hp; [by exists p; split; [constructor|]|].
  inversion Hp as [|? ? q ? ? He Hq]; subst. destruct (IH _ Hq) as (q' & ? & ?).
  exists q'. split; [econstructor|]; eauto.
Qed.

Lemma path_lookup p ms r i m : path p ms r → ms !! i = Some m →
  ∃ q q', path p (take i ms) q ∧ edge q m q' ∧ path q' (drop (S i) ms) r.
Proof.
  intros Hp Hi. rewrite <-(take_drop_middle ms i m Hi) in Hp.
  apply path_app_inv in Hp as (q & H1 & H2). inversion H2; subst. eauto.
Qed.

(** A set of states closed under the edges is never left, and only labels
    of its own edges follow. *)
Lemma path_closed (C : P → Prop) (L : string → Prop) p ms r :
  (∀ p m q, C p → edge p m q → C q ∧ L m) → C p → path p ms r → C r ∧ Forall L ms.
Proof.
  intros Hclosed. induction 2 as [|p m q ms r He _ IH]; [by split|].
  destruct (Hclosed _ _ _ H He) as [Hq Hm]. destruct (IH Hq). split; [done|by constructor].
Qed.
End path.

(** ** Automation

    [ok_inv] decomposes every hypothesis that says a monadic term completed
    normally into the facts its checks established. *)

Create Rewrite HintDb py_ok.
#[export] Hint Rewrite @bind_Ok @fail_if_Ok @rewrap_Ok @except_Ok
  @or_else_false @and_then_true : py_ok.
Create HintDb py.

Ltac ok_step :=
  match goal with
  | H : Ok _ = Ok _ |- _ => apply Ok_inj in H
  | H : (_, _) = (_, _) |- _ => apply pair_equal_spec in H
  | H : Raise _ = Ok _ |- _ => discriminate H
  | H : raise _ _ = Ok _ |- _ => discriminate H
  | H : mret _ = Ok _ |- _ => unfold mret, result_ret in H
  | H : match ?x with pair _ _ => _ end = Ok _ |- _ => is_var x; destruct x
  | H : ∃ _, _ |- _ => destruct H
  | H : _ ∧ _ |- _ => destruct H
  | H : () |- _ => destruct H
  | H : mbind _ _ = Ok _ |- _ => apply bind_Ok in H
  | H : fmap _ _ = Ok _ |- _ => apply fmap_Ok in H
  | H : fail_if _ _ _ = Ok _ |- _ => apply fail_if_Ok in H
  | H : rewrap _ _ = Ok _ |- _ => apply rewrap_Ok in H
  | H : except _ _ _ = Ok _ |- _ => apply except_Ok in H
  | H : or_else _ _ = Ok false |- _ => apply or_else_false in H
  | H : and_then _ _ = Ok true |- _ => apply and_then_true in H
  | H : (_ || _)%bool = false |- _ => apply orb_false_iff in H
  | H : (_ && _)%bool = true |- _ => apply andb_true_iff in H
  | H : negb _ = false |- _ => apply negb_false_iff in H
  | H : negb _ = true |- _ => apply negb_true_iff in H
  | H : ?x = _ |- _ => is_var x; subst x
  | H : _ = ?x |- _ => is_var x; subst x
  end.
Ltac ok_inv := repeat ok_step.

(** Splits a dispatch [if c then _ else _] that completed normally. *)
Ltac dispatch H :=
  match type of H with
  | (if ?b then _ else _) = Ok _ => destruct b eqn:?; [|dispatch H]
  | raise _ _ = Ok _ => discriminate H
  | _ => idtac
  end.

(** ** Record updates

    [s <| f := v |>] replaces one field.  A record type declares its
    expansion [Mk (f s) (g s) ...] as an instance of [Settable], and the setter
    of a projection is found by abstracting that projection. *)

Class Settable (R : Type) := expand : R → R.
Class Setter {R E : Type} (getter : R → E) := set_field : E → R → R.

Ltac solve_setter :=
  match goal with
  | |- @Setter ?R ?E ?getter =>
      let inst := constr:(_ : Settable R) in
      let body := eval red in inst in
      let body := eval pattern getter in body in
      lazymatch body with
      | ?f _ => let setter := eval cbv beta in (λ (v : E) (r : R), f (λ _ : R, v) r) in exact setter
      end
  end.
#[export] Hint Extern 1 (Setter _) => solve_setter : typeclass_instances.
#[global] Arguments set_field {R E} getter {_} v r /.

Notation "s <| f := v |>" := (set_field f v s)
  (at level 1, f constr at level 0, left associativity, format "s  <| f  :=  v |>") : py_scope.
