(* ===== verification/PyValue.v ===== *)
(** * Python values

    The dynamic values the journals and protocols of the repository exchange:
    the JSON data model of the standard [json] module (without fractional
    numbers) and [bytes], with Python's equality, its type tests and the
    text routines of the standard library that validators use
    ([bytes.fromhex], [uuid.UUID], [int(_, 16)], [str.lower], [format]).

    A Python [str] is a Rocq [string] whose characters are its code points;
    the code points above 255 are not representable.  A [dict] is a finite map
    from strings. *)
From S2P Require Import Prelude.

Unset Elimination Schemes.
Inductive value : Type :=
  | VNone
  | VBool (b : bool)
  | VInt (z : Z)
  | VStr (s : string)
  | VBytes (s : string)
  | VList (l : list value)
  | VDict (d : gmap string value).
Set Elimination Schemes.

Section value_ind.
Variable P : value → Prop.
Hypothesis Hnone : P VNone.
Hypothesis Hbool : ∀ b, P (VBool b).
Hypothesis Hint : ∀ z, P (VInt z).
Hypothesis Hstr : ∀ s, P (VStr s).
Hypothesis Hbytes : ∀ s, P (VBytes s).
Hypothesis Hlist : ∀ l, Forall P l → P (VList l).
Hypothesis Hdict : ∀ d, map_Forall (λ _ x, P x) d → P (VDict d).

(** Size of a value, the measure of the induction. *)
Fixpoint vsize (v : value) : nat :=
  match v with
  | VList l => S (foldr (λ x n, vsize x + n)%nat 0 l)
  | VDict d => S (map_fold (λ _ x n, vsize x + n)%nat 0%nat d)
  | _ => 1
  end.

Lemma vsize_elem x l : x ∈ l → (vsize x ≤ foldr (λ x n, vsize x + n)%nat 0%nat l)%nat.
Proof. induction 1; simpl; lia. Qed.

Lemma vsize_lookup k x (d : gmap string value) :
  d !! k = Some x → (vsize x ≤ map_fold (λ _ x n, vsize x + n)%nat 0%nat d)%nat.
Proof.
  intros Hx. rewrite <-(insert_delete_id _ _ _ Hx).
  rewrite map_fold_insert_L; [lia|intros; lia|apply lookup_delete_eq].
Qed.

Lemma value_ind v : P v.
Proof.
  remember (vsize v) as n eqn:E. revert v E.
  induction (lt_wf n) as [n _ IH]; intros v ->.
  destruct v as [| | | | |l|d]; auto.
  - apply Hlist, Forall_forall. intros x Hx%vsize_elem.
    eapply IH; [|reflexivity]. simpl. lia.
  - apply Hdict. intros k x Hx%vsize_lookup.
    eapply IH; [|reflexivity]. simpl. lia.
Qed.
End value_ind.

(** ** Decidable equality *)

Fixpoint veqb (v w : value) : bool :=
  match v, w with
  | VNone, VNone => true
  | VBool a, VBool b => Bool.eqb a b
  | VInt a, VInt b => Z.eqb a b
  | VStr a, VStr b | VBytes a, VBytes b => String.eqb a b
  | VList a, VList b =>
      (fix go (a b : list value) : bool :=
         match a, b with
         | [], [] => true
         | x :: a, y :: b => veqb x y && go a b
         | _, _ => false
         end) a b
  | VDict a, VDict b =>
      map_fold (λ k x acc, acc && match b !! k with Some y => veqb x y | None => false end)
        true a
      && Nat.eqb (size a) (size b)
  | _, _ => false
  end.

Lemma map_fold_andb_true {V} (d : gmap string V) (f : string → V → bool) :
  map_fold (λ k x acc, acc && f k x) true d = true ↔ map_Forall (λ k x, f k x = true) d.
Proof.
  induction d as [|k x d Hk Hfirst IH] using map_first_key_ind; simpl.
  { rewrite map_fold_empty. split; [intros _; apply map_Forall_empty|done]. }
  rewrite map_fold_insert_first_key by done.
  rewrite andb_true_iff, IH, map_Forall_insert by done. tauto.
Qed.

Lemma veqb_eq v : ∀ w, veqb v w = true ↔ v = w.
Proof.
  induction v as [| | | | |l IH|d IH] using value_ind; intros [| | | | |l'|d']; simpl;
    try (split; [done|intros [=]]; fail); try done.
  - rewrite Bool.eqb_true_iff. naive_solver.
  - rewrite Z.eqb_eq. naive_solver.
  - rewrite String.eqb_eq. naive_solver.
  - rewrite String.eqb_eq. naive_solver.
  - revert l'. induction IH as [|x l Hx Hl IHl]; intros [|y l']; try (split; [done|intros [=]]); [done|].
    rewrite andb_true_iff, Hx. specialize (IHl l'). split.
    + intros [-> Hgo]. by apply IHl in Hgo as [= ->].
    + intros [= -> ->]. split; [done|]. by apply IHl.
  - rewrite andb_true_iff, map_fold_andb_true, Nat.eqb_eq. split.
    + intros [Hall Hsz]. f_equal.
      assert (d ⊆ d') as Hsub.
      { apply map_subseteq_spec. intros k x Hx. specialize (Hall k x Hx). simpl in Hall.
        destruct (d' !! k) as [y|] eqn:Hy; [|done]. by apply (IH k x Hx) in Hall as ->. }
      by apply map_subseteq_size_eq; [|rewrite Hsz].
    + intros [= <-]. split; [|done]. intros k x Hx. simpl. rewrite Hx. by apply (IH k x Hx).
Qed.

#[export] Instance value_eq_dec : EqDecision value.
Proof.
  intros v w. destruct (veqb v w) eqn:E.
  - left. by apply veqb_eq.
  - right. intros H%veqb_eq. congruence.
Defined.

(** ** Python equality and access

    [True == 1] and [False == 0] at every depth, so [==] on JSON data is
    equality after reading each Boolean as an integer. *)
Fixpoint py_norm (v : value) : value :=
  match v with
  | VBool b => VInt (Z.b2z b)
  | VList l => VList (map py_norm l)
  | VDict d => VDict (py_norm <$> d)
  | _ => v
  end.

Definition py_eq (v w : value) : bool := bool_decide (py_norm v = py_norm w).
Notation "v ==? w" := (py_eq v w) (at level 35, no associativity) : py_scope.
Notation "v !=? w" := (negb (py_eq v w)) (at level 35, no associativity) : py_scope.

(** [d.get(k)]: [None] when the key is absent.  [d[k]] is written the same way
    in positions where an exact-schema check precedes it ([exact_has]). *)
Definition get (v : value) (k : string) : value :=
  match v with
  | VDict d => default VNone (d !! k)
  | _ => VNone
  end.
Notation "v @[ k ]" := (get v k) (at level 1, left associativity, format "v @[ k ]") : py_scope.

(** [d[k]] where no schema check precedes it. *)
Definition item (v : value) (k : string) : result value :=
  match v with
  | VDict d => match d !! k with Some x => Ok x | None => raise KeyError k end
  | _ => raise TypeError "not subscriptable"
  end.

(** A dictionary display. *)
Definition dict (kvs : list (string * value)) : value := VDict (list_to_map kvs).

(** ** Type tests *)

Definition is_none (v : value) : bool := match v with VNone => true | _ => false end.
(** [v is True] and [v is False]. *)
Definition is_true (v : value) : bool := match v with VBool b => b | _ => false end.
Definition is_false (v : value) : bool := match v with VBool b => negb b | _ => false end.
Definition is_bool (v : value) : bool := match v with VBool _ => true | _ => false end.
Definition is_str (v : value) : bool := match v with VStr _ => true | _ => false end.
Definition is_list (v : value) : bool := match v with VList _ => true | _ => false end.
Definition is_dict (v : value) : bool := match v with VDict _ => true | _ => false end.
(** [isinstance(v, int) and not isinstance(v, bool)], also [type(v) is int]. *)
Definition is_int (v : value) : bool := match v with VInt _ => true | _ => false end.

(** [bool(v)]. *)
Definition truthy (v : value) : bool :=
  match v with
  | VNone => false
  | VBool b => b
  | VInt z => negb (z =? 0)%Z
  | VStr s | VBytes s => negb (String.eqb s "")
  | VList l => negb (Nat.eqb (length l) 0)
  | VDict d => negb (Nat.eqb (size d) 0)
  end.

(** Equality with a string constant. *)
Definition eq_str (v : value) (s : string) : bool := v ==? VStr s.

(** [v in {names}]: a list or a dict cannot be hashed and raises. *)
Definition in_names (v : value) (names : list string) : result bool :=
  match v with
  | VList _ | VDict _ => raise TypeError "unhashable type"
  | VStr s => Ok (bool_decide (s ∈ names))
  | _ => Ok false
  end.
Definition not_in_names (v : value) (names : list string) : result bool :=
  negb <$> in_names v names.

(** [set(v) == keys] for a dictionary [v]. *)
Definition has_keys (v : value) (keys : list string) : bool :=
  match v with
  | VDict d => bool_decide (dom d = list_to_set (C := gset string) keys)
  | _ => false
  end.

Definition int_value (v : value) : Z := match v with VInt z => z | _ => 0 end.
Definition str_value (v : value) : string := match v with VStr s => s | _ => "" end.
Definition list_value (v : value) : list value := match v with VList l => l | _ => [] end.

(** ** Lemmas *)

Lemma py_eq_true v w : v ==? w = true ↔ py_norm v = py_norm w.
Proof. apply bool_decide_eq_true. Qed.

Lemma py_eq_refl v : v ==? v = true.
Proof. by apply py_eq_true. Qed.

Lemma py_eq_sym v w : (v ==? w) = (w ==? v).
Proof. unfold py_eq. apply bool_decide_ext. naive_solver. Qed.

Lemma py_eq_trans v w x : v ==? w = true → w ==? x = true → v ==? x = true.
Proof. rewrite !py_eq_true. congruence. Qed.

Lemma py_eq_str_l v s : v ==? VStr s = true ↔ v = VStr s.
Proof. rewrite py_eq_true. destruct v; simpl; naive_solver. Qed.

Lemma eq_str_true v s : eq_str v s = true ↔ v = VStr s.
Proof. apply py_eq_str_l. Qed.

Lemma eq_str_same s : eq_str (VStr s) s = true.
Proof. by apply eq_str_true. Qed.

Lemma py_eq_strs s t : VStr s ==? VStr t = true ↔ s = t.
Proof. rewrite py_eq_str_l. naive_solver. Qed.

Lemma py_eq_ints a b : VInt a ==? VInt b = true ↔ a = b.
Proof. rewrite py_eq_true. simpl. naive_solver. Qed.

Lemma is_true_eq v : is_true v = true ↔ v = VBool true.
Proof. destruct v as [|[]| | | | |]; naive_solver. Qed.

Lemma is_false_eq v : is_false v = true ↔ v = VBool false.
Proof. destruct v as [|[]| | | | |]; naive_solver. Qed.

Lemma is_none_eq v : is_none v = true ↔ v = VNone.
Proof. destruct v; naive_solver. Qed.

Lemma in_names_true v names : in_names v names = Ok true ↔ ∃ s, v = VStr s ∧ s ∈ names.
Proof.
  destruct v; simpl; try naive_solver.
  case_bool_decide; naive_solver.
Qed.

Lemma not_in_names_false v names : not_in_names v names = Ok false ↔ ∃ s, v = VStr s ∧ s ∈ names.
Proof.
  rewrite <-in_names_true. unfold not_in_names.
  destruct (in_names v names) as [[]|]; naive_solver.
Qed.

Lemma get_dict (kvs : list (string * value)) k : (dict kvs)@[k] = default VNone (list_to_map (M := gmap string value) kvs !! k).
Proof. done. Qed.

(** After the schema test every scheduled key is present. *)
Lemma has_keys_lookup v keys k :
  has_keys v keys = true → k ∈ keys → ∃ d x, v = VDict d ∧ d !! k = Some x ∧ v@[k] = x.
Proof.
  destruct v as [| | | | | |d]; try done. simpl. rewrite bool_decide_eq_true. intros Hd Hk.
  assert (k ∈ dom d) as [x Hx]%elem_of_dom by (rewrite Hd; by apply elem_of_list_to_set).
  exists d, x. by rewrite Hx.
Qed.

Lemma has_keys_is_dict v keys : has_keys v keys = true → is_dict v = true.
Proof. by destruct v. Qed.

Lemma item_Ok v k x : item v k = Ok x → v@[k] = x.
Proof. destruct v as [| | | | | |d]; try done. simpl. destruct (d !! k); naive_solver. Qed.

Lemma item_get v k s : v@[k] = VStr s → item v k = Ok (VStr s).
Proof. destruct v as [| | | | | |d]; try done. simpl. destruct (d !! k); cbn; [unfold id; congruence|done]. Qed.

(** Extensionality of dictionaries through [get] on a closed schema. *)
Lemma has_keys_absent v keys k : has_keys v keys = true → k ∉ keys → v@[k] = VNone.
Proof.
  destruct v as [| | | | | |d]; try done. simpl. rewrite bool_decide_eq_true. intros Hd Hk.
  assert (d !! k = None) as ->; [|done].
  apply not_elem_of_dom. rewrite Hd. by rewrite elem_of_list_to_set.
Qed.

(** ** Text routines of the standard library *)

Definition code (c : ascii) : Z := Z.of_N (N_of_ascii c).
Definition chr (z : Z) : ascii := ascii_of_N (Z.to_N z).

(** [str.lower] on code points below 256. *)
Definition lower_char (c : ascii) : ascii :=
  let z := code c in
  if ((65 <=? z) && (z <=? 90) || (192 <=? z) && (z <=? 222) && negb (z =? 215))%Z
  then chr (z + 32) else c.
Fixpoint str_lower (s : string) : string :=
  match s with
  | "" => ""
  | String c s => String (lower_char c) (str_lower s)
  end.

Definition hex_digit (c : ascii) : option Z :=
  let z := code c in
  if ((48 <=? z) && (z <=? 57))%Z then Some (z - 48)%Z
  else if ((97 <=? z) && (z <=? 102))%Z then Some (z - 87)%Z
  else if ((65 <=? z) && (z <=? 70))%Z then Some (z - 55)%Z
  else None.

(** [Py_ISSPACE]. *)
Definition is_space (c : ascii) : bool :=
  let z := code c in ((z =? 32) || (9 <=? z) && (z <=? 13))%Z.

(** [bytes.fromhex]: pairs of hexadecimal digits, with white space allowed
    between the pairs. *)
Fixpoint bytes_fromhex (s : string) : option (list Z) :=
  match s with
  | "" => Some []
  | String c s1 =>
      if is_space c then bytes_fromhex s1
      else match hex_digit c, s1 with
           | Some h, String c2 s2 =>
               match hex_digit c2 with
               | Some l => (λ rest, (16 * h + l)%Z :: rest) <$> bytes_fromhex s2
               | None => None
               end
           | _, _ => None
           end
  end.

(** [value.replace(sub, '')] for a non-empty [sub]; [skip] counts characters
    of a match that are still to be dropped. *)
Fixpoint remove_go (sub : string) (skip : nat) (s : string) : string :=
  match s with
  | "" => ""
  | String c s1 =>
      match skip with
      | S k => remove_go sub k s1
      | O => if String.prefix sub s then remove_go sub (String.length sub - 1) s1
             else String c (remove_go sub 0 s1)
      end
  end.
Definition str_remove (sub s : string) : string := remove_go sub 0 s.

Fixpoint lstrip (p : ascii → bool) (s : string) : string :=
  match s with
  | String c s1 => if p c then lstrip p s1 else s
  | "" => ""
  end.
Fixpoint rstrip (p : ascii → bool) (s : string) : string :=
  match s with
  | "" => ""
  | String c s1 =>
      match rstrip p s1 with
      | "" => if p c then "" else String c ""
      | r => String c r
      end
  end.
Definition strip (p : ascii → bool) (s : string) : string := rstrip p (lstrip p s).

(** Digits of [int(_, 16)]: at least one, single underscores between them. *)
Fixpoint int16_digits (acc : Z) (after_digit : bool) (s : string) : option Z :=
  match s with
  | "" => if after_digit then Some acc else None
  | String c s1 =>
      if Ascii.eqb c "_" then (if after_digit then int16_digits acc false s1 else None)
      else match hex_digit c with
           | Some h => int16_digits (16 * acc + h)%Z true s1
           | None => None
           end
  end.
Definition int16_prefix (s : string) : option Z :=
  match s with
  | String "0" (String ("x" | "X") (String "_" s1)) => int16_digits 0 false s1
  | String "0" (String ("x" | "X") s1) => int16_digits 0 false s1
  | _ => int16_digits 0 false s
  end.
(** White space for [int]: the ASCII separators count as well. *)
Definition is_int_space (c : ascii) : bool :=
  let z := code c in
  (is_space c || (28 <=? z) && (z <=? 31) || (z =? 133) || (z =? 160))%Z.
Definition int16 (s : string) : option Z :=
  match strip is_int_space s with
  | String "-" s1 => Z.opp <$> int16_prefix s1
  | String "+" s1 => int16_prefix s1
  | s1 => int16_prefix s1
  end.

(** [uuid.UUID(value).int] for a string [value]. *)
Definition uuid_UUID (s : string) : option Z :=
  let hex := str_remove "-" (strip (λ c, Ascii.eqb c "{" || Ascii.eqb c "}")
                (str_remove "uuid:" (str_remove "urn:" s))) in
  if negb (Nat.eqb (String.length hex) 32) then None
  else match int16 hex with
       | Some z => if ((0 <=? z) && (z <? 2 ^ 128))%Z then Some z else None
       | None => None
       end.

(** The lower-case hexadecimal digit of the low nibble. *)
Definition hex_char (z : Z) : ascii :=
  let d := Z.land z 15 in chr (if (d <? 10)%Z then 48 + d else 87 + d)%Z.
(** ['%0nx' % z] for [0 <= z < 16^n]. *)
Fixpoint hex_fixed (n : nat) (z : Z) (acc : string) : string :=
  match n with
  | O => acc
  | S n => hex_fixed n (Z.shiftr z 4) (String (hex_char z) acc)
  end.

(** [str(uuid.UUID(int=z))]. *)
Definition uuid_str (z : Z) : string :=
  hex_fixed 8 (Z.shiftr z 96) (String "-"
    (hex_fixed 4 (Z.shiftr z 80) (String "-"
      (hex_fixed 4 (Z.shiftr z 64) (String "-"
        (hex_fixed 4 (Z.shiftr z 48) (String "-" (hex_fixed 12 z "")))))))).

(** ['{z:08x}'.format(z)] for a non-negative [z]: at least eight digits. *)
Definition hex_width (z : Z) : nat := Z.to_nat (Z.max 8 (Z.log2 z / 4 + 1)).
Definition hex08 (z : Z) : string := hex_fixed (hex_width z) z "".

(** [str.startswith]. *)
Definition startswith (v : value) (p : string) : bool :=
  match v with VStr s => String.prefix p s | _ => false end.

(** [str.endswith]. *)
Definition endswith (suffix s : string) : bool :=
  let n := String.length s in let m := String.length suffix in
  (m <=? n)%nat && String.eqb (String.substring (n - m) m s) suffix.

Example hex08_501 : hex08 501 = "000001f5".
Proof. reflexivity. Qed.
Example uuid_round : uuid_str <$> uuid_UUID "{6ba7b810-9dad-11d1-80b4-00c04fd430c8}"
  = Some "6ba7b810-9dad-11d1-80b4-00c04fd430c8".
Proof. reflexivity. Qed.
