(* ===== verification/Sha256.v ===== *)
(** * SHA-256

    [hashlib.sha256(_).hexdigest()] of the standard library (FIPS 180-4), as an
    executable function from byte strings to the 64-digit lower-case digest.
    Words are integers in [0, 2^32) and every addition wraps. *)
From S2P Require Import Prelude PyValue.

#[local] Open Scope Z_scope.

Definition w32 (z : Z) : Z := Z.land z 4294967295.
Definition rotr (n z : Z) : Z := Z.lor (Z.shiftr z n) (w32 (Z.shiftl z (32 - n))).
Definition not32 (z : Z) : Z := Z.lxor z 4294967295.

Definition round_constants : list Z :=
  [1116352408; 1899447441; 3049323471; 3921009573; 961987163; 1508970993; 2453635748; 2870763221;
   3624381080; 310598401; 607225278; 1426881987; 1925078388; 2162078206; 2614888103; 3248222580;
   3835390401; 4022224774; 264347078; 604807628; 770255983; 1249150122; 1555081692; 1996064986;
   2554220882; 2821834349; 2952996808; 3210313671; 3336571891; 3584528711; 113926993; 338241895;
   666307205; 773529912; 1294757372; 1396182291; 1695183700; 1986661051; 2177026350; 2456956037;
   2730485921; 2820302411; 3259730800; 3345764771; 3516065817; 3600352804; 4094571909; 275423344;
   430227734; 506948616; 659060556; 883997877; 958139571; 1322822218; 1537002063; 1747873779;
   1955562222; 2024104815; 2227730452; 2361852424; 2428436474; 2756734187; 3204031479; 3329325298].

Record hash_state := HS { ha : Z; hb : Z; hc : Z; hd : Z; he : Z; hf : Z; hg : Z; hh : Z }.

Definition initial_hash : hash_state :=
  HS 1779033703 3144134277 1013904242 2773480762 1359893119 2600822924 528734635 1541459225.

Definition sha_round (s : hash_state) (kw : Z * Z) : hash_state :=
  let '(HS a b c d e f g h) := s in
  let s1 := Z.lxor (rotr 6 e) (Z.lxor (rotr 11 e) (rotr 25 e)) in
  let ch := Z.lxor (Z.land e f) (Z.land (not32 e) g) in
  let t1 := w32 (h + s1 + ch + kw.1 + kw.2) in
  let s0 := Z.lxor (rotr 2 a) (Z.lxor (rotr 13 a) (rotr 22 a)) in
  let maj := Z.lxor (Z.land a b) (Z.lxor (Z.land a c) (Z.land b c)) in
  let t2 := w32 (s0 + maj) in
  HS (w32 (t1 + t2)) a b c (w32 (d + t1)) e f g.

(** The message schedule, kept as the last sixteen words, newest first. *)
Definition schedule_next (w : list Z) : Z :=
  match w with
  | [w1; w2; _; _; _; _; w7; _; _; _; _; _; _; _; w15; w16] =>
      let s0 := Z.lxor (rotr 7 w15) (Z.lxor (rotr 18 w15) (Z.shiftr w15 3)) in
      let s1 := Z.lxor (rotr 17 w2) (Z.lxor (rotr 19 w2) (Z.shiftr w2 10)) in
      w32 (w16 + s0 + w7 + s1)
  | _ => 0
  end.
Fixpoint schedule (n : nat) (w : list Z) : list Z :=
  match n with
  | O => []
  | S n => let x := schedule_next w in x :: schedule n (x :: take 15 w)
  end.

Definition add_state (s t : hash_state) : hash_state :=
  HS (w32 (ha s + ha t)) (w32 (hb s + hb t)) (w32 (hc s + hc t)) (w32 (hd s + hd t))
     (w32 (he s + he t)) (w32 (hf s + hf t)) (w32 (hg s + hg t)) (w32 (hh s + hh t)).

Definition compress (s : hash_state) (block : list Z) : hash_state :=
  let w := block ++ schedule 48 (rev block) in
  add_state s (foldl sha_round s (zip round_constants w)).

Fixpoint be_words (bs : list Z) : list Z :=
  match bs with
  | a :: b :: c :: d :: bs =>
      Z.lor (Z.shiftl a 24) (Z.lor (Z.shiftl b 16) (Z.lor (Z.shiftl c 8) d)) :: be_words bs
  | _ => []
  end.

Definition be_bytes (n : nat) (z : Z) : list Z :=
  map (λ i, Z.land (Z.shiftr z (8 * Z.of_nat i)) 255) (rev (seq 0 n)).

Fixpoint string_bytes (s : string) : list Z :=
  match s with "" => [] | String c s => code c :: string_bytes s end.

Definition sha_pad (bs : list Z) : list Z :=
  let n := Z.of_nat (length bs) in
  bs ++ [128] ++ replicate (Z.to_nat ((55 - n) mod 64)) 0 ++ be_bytes 8 (8 * n).

Fixpoint sha_blocks (fuel : nat) (s : hash_state) (ws : list Z) : hash_state :=
  match fuel, ws with
  | S fuel, _ :: _ => sha_blocks fuel (compress s (take 16 ws)) (drop 16 ws)
  | _, _ => s
  end.

Definition hex_word (z : Z) (acc : string) : string := hex_fixed 8 z acc.

Definition sha256_hex (s : string) : string :=
  let ws := be_words (sha_pad (string_bytes s)) in
  let '(HS a b c d e f g h) := sha_blocks (S (length ws)) initial_hash ws in
  hex_word a (hex_word b (hex_word c (hex_word d
    (hex_word e (hex_word f (hex_word g (hex_word h ""))))))).

(** The FIPS 180-4 test vectors. *)
Example sha256_empty :
  sha256_hex "" = "e3b0c44298fc1c149afbf4c8996fb92427ae41e4649b934ca495991b7852b855".
Proof. vm_compute. reflexivity. Qed.

Example sha256_abc :
  sha256_hex "abc" = "ba7816bf8f01cfea414140de5dae2223b00361a396177a9cb410ff61f20015ad".
Proof. vm_compute. reflexivity. Qed.

Example sha256_two_blocks :
  sha256_hex "abcdbcdecdefdefgefghfghighijhijkijkljklmklmnlmnomnopnopq"
  = "248d6a61d20638b8e5c026930c3e6039a33ce45964ff2167f6ecedd419db06c1".
Proof. vm_compute. reflexivity. Qed.

(** ** Shape of a digest *)

(** Lower-case hexadecimal text. *)
Definition hex_lower_char (c : ascii) : bool :=
  let z := code c in ((48 <=? z) && (z <=? 57) || (97 <=? z) && (z <=? 102))%Z.
Fixpoint all_chars (p : ascii → bool) (s : string) : bool :=
  match s with "" => true | String c s => p c && all_chars p s end.

Lemma hex_char_lower z : hex_lower_char (hex_char z) = true.
Proof.
  unfold hex_char.
  assert (0 <= Z.land z 15 < 16) as H.
  { change 15 with (Z.ones 4). rewrite Z.land_ones by lia. apply Z.mod_pos_bound. lia. }
  set (d := Z.land z 15) in *. clearbody d.
  assert (d = 0 ∨ d = 1 ∨ d = 2 ∨ d = 3 ∨ d = 4 ∨ d = 5 ∨ d = 6 ∨ d = 7 ∨ d = 8 ∨ d = 9
    ∨ d = 10 ∨ d = 11 ∨ d = 12 ∨ d = 13 ∨ d = 14 ∨ d = 15) by lia.
  naive_solver.
Qed.

Lemma hex_fixed_length n : ∀ z acc,
  String.length (hex_fixed n z acc) = (n + String.length acc)%nat.
Proof. induction n as [|n IH]; intros z acc; simpl; [done|]. rewrite IH. simpl. lia. Qed.

Lemma hex_fixed_lower n : ∀ z acc,
  all_chars hex_lower_char acc = true → all_chars hex_lower_char (hex_fixed n z acc) = true.
Proof.
  induction n as [|n IH]; intros z acc Hacc; simpl; [done|].
  apply IH. cbn [all_chars]. by rewrite hex_char_lower.
Qed.

Lemma sha256_hex_length s : String.length (sha256_hex s) = 64%nat.
Proof.
  unfold sha256_hex, hex_word. destruct (sha_blocks _ _ _).
  by rewrite !hex_fixed_length.
Qed.

Lemma sha256_hex_lower s : all_chars hex_lower_char (sha256_hex s) = true.
Proof.
  unfold sha256_hex, hex_word. destruct (sha_blocks _ _ _).
  by repeat apply hex_fixed_lower.
Qed.
