(* ===== verification/JsonFacts.v ===== *)
(** * [loads] inverts [dumps]

    The round-trip lemmas of the canonical JSON text: string literals,
    integers, arrays and objects, by induction on the value. *)
From S2P Require Import Prelude PyValue Sha256 Json.

#[local] Arguments String.append !_ _ : simpl nomatch.

(** ** Strings as character lists *)

Lemma str_app_assoc (a b c : string) : (a +:+ b) +:+ c = a +:+ (b +:+ c).
Proof. induction a as [|x a IH]; simpl; [done|]. by f_equal. Qed.

Lemma str_app_nil (a : string) : a +:+ "" = a.
Proof. induction a as [|x a IH]; simpl; [done|]. by f_equal. Qed.

Lemma str_length_app (a b : string) :
  String.length (a +:+ b) = (String.length a + String.length b)%nat.
Proof. induction a as [|x a IH]; simpl; [done|]. by f_equal. Qed.

Create Rewrite HintDb py_str.
#[export] Hint Rewrite str_app_assoc str_app_nil str_length_app : py_str.

Lemma str_cons_app c (a b : string) : String c a +:+ b = String c (a +:+ b).
Proof. done. Qed.

(** ** Literals *)

Lemma hex_fixed_app n : ∀ z acc r, hex_fixed n z acc +:+ r = hex_fixed n z (acc +:+ r).
Proof. induction n as [|n IH]; intros z acc r; simpl; [done|]. by rewrite IH. Qed.

Lemma escape_char_app c acc r : escape_char c acc +:+ r = escape_char c (acc +:+ r).
Proof.
  unfold escape_char. repeat case_match; simpl; try done.
Qed.

Lemma escape_string_app s : ∀ acc r, escape_string s acc +:+ r = escape_string s (acc +:+ r).
Proof.
  induction s as [|c s IH]; intros acc r; simpl; [done|].
  by rewrite escape_char_app, IH.
Qed.

Lemma quoted_app s acc r : quoted s acc +:+ r = quoted s (acc +:+ r).
Proof. unfold quoted. simpl. by rewrite escape_string_app. Qed.

Lemma parse_escape_char c r :
  parse_str (escape_char c r) = prod_map (String c) id <$> parse_str r.
Proof. destruct c as [[] [] [] [] [] [] [] []]; reflexivity. Qed.

Lemma parse_escape_string s acc :
  parse_str (escape_string s (String quote_char acc)) = Some (s, acc).
Proof. induction s as [|c s IH]; simpl; [done|]. by rewrite parse_escape_char, IH. Qed.

(** ** Integers *)

(** What may follow a number without extending it. *)
Definition delimited (r : string) : Prop :=
  match r with String c _ => is_digit c = false ∧ float_mark r = false | "" => True end.

Lemma digit_cases d : (0 <= d < 10)%Z →
  is_digit (chr (48 + d)) = true ∧ (code (chr (48 + d)) - 48)%Z = d
  ∧ (Ascii.eqb (chr (48 + d)) "0" = bool_decide (d = 0%Z)).
Proof.
  intros H.
  assert (d = 0 ∨ d = 1 ∨ d = 2 ∨ d = 3 ∨ d = 4 ∨ d = 5 ∨ d = 6 ∨ d = 7 ∨ d = 8 ∨ d = 9)%Z by lia.
  naive_solver.
Qed.

Lemma dec_digits_spec fuel : ∀ z acc, (0 <= z < 2 ^ Z.of_nat fuel)%Z → (fuel ≠ 0)%nat →
  (∃ p, ∀ a, parse_digits a (dec_digits fuel z acc) = parse_digits (a * p + z)%Z acc)
  ∧ ∃ c r, dec_digits fuel z acc = String c r ∧ is_digit c = true
      ∧ (z = 0%Z → r = acc) ∧ Ascii.eqb c "0" = bool_decide (z = 0%Z).
Proof.
  induction fuel as [|fuel IH]; intros z acc Hz Hf; [done|]. simpl.
  pose proof (Z.mod_pos_bound z 10 ltac:(lia)) as Hm.
  destruct (digit_cases _ Hm) as (Hd & Hc & H0).
  destruct (Z.ltb_spec z 10) as [Hlt|Hge].
  - rewrite (Z.mod_small z 10) in * by lia. split.
    + exists 10%Z. intros a. simpl. rewrite Hd, Hc. f_equal. lia.
    + eauto 10.
  - destruct (decide (fuel = 0%nat)) as [->|Hf']; [simpl in Hz; lia|].
    assert (0 < z / 10)%Z by (apply Z.div_str_pos; lia).
    assert (z / 10 < 2 ^ Z.of_nat fuel)%Z.
    { apply Z.div_lt_upper_bound; [lia|].
      rewrite Nat2Z.inj_succ, Z.pow_succ_r in Hz by lia. lia. }
    destruct (IH (z / 10)%Z (String (chr (48 + z mod 10)) acc)) as [[p Hp] (c & r & Hr & ? & ? & Hc0)];
      [lia|done|]. split.
    + exists (10 * p)%Z. intros a. rewrite Hp. simpl. rewrite Hd, Hc. f_equal.
      pose proof (Z.div_mod z 10 ltac:(lia)). nia.
    + exists c, r. repeat split; try done; [lia|]. rewrite Hc0. rewrite !bool_decide_eq_false_2 by lia. done.
Qed.

Lemma dec_digits_app fuel : ∀ z acc r, dec_digits fuel z acc +:+ r = dec_digits fuel z (acc +:+ r).
Proof.
  induction fuel as [|fuel IH]; intros z acc r; simpl; [done|].
  destruct (z <? 10)%Z; [done|]. by rewrite IH.
Qed.

Lemma dec_app z acc r : dec z acc +:+ r = dec z (acc +:+ r).
Proof. unfold dec. destruct (z <? 0)%Z; [rewrite str_cons_app|]; by rewrite dec_digits_app. Qed.

Lemma log2_fuel z : (0 <= z)%Z → (0 <= z < 2 ^ Z.of_nat (S (Z.to_nat (Z.log2 z))))%Z.
Proof.
  intros Hz. split; [done|]. rewrite Nat2Z.inj_succ, Z2Nat.id by apply Z.log2_nonneg.
  destruct (decide (z = 0%Z)) as [->|]; [done|]. apply Z.log2_spec. lia.
Qed.

Lemma parse_digits_delimited a r : delimited r → parse_digits a r = (a, r).
Proof. destruct r as [|c r]; simpl; [done|]. by intros [-> _]. Qed.

Lemma float_mark_delimited r : delimited r → float_mark r = false.
Proof. destruct r; simpl; naive_solver. Qed.

Lemma parse_nat_dec z r : (0 <= z)%Z → delimited r →
  parse_nat (dec_digits (S (Z.to_nat (Z.log2 z))) z r) = Some (z, r).
Proof.
  intros Hz Hr. pose proof (log2_fuel z Hz) as Hf.
  destruct (dec_digits_spec _ z r Hf) as [[p Hp] (c & r' & Heq & Hd & H0 & Hc)]; [lia|].
  unfold parse_nat. rewrite Heq, Hd. simpl negb. cbv iota. rewrite Hc, <-Heq.
  case_bool_decide as Hz0.
  - rewrite H0 by done. rewrite float_mark_delimited by done. by rewrite Hz0.
  - rewrite Hp, parse_digits_delimited by done. by rewrite float_mark_delimited by done.
Qed.

Lemma dec_digits_head z r : (0 <= z)%Z → ∃ c r',
  dec_digits (S (Z.to_nat (Z.log2 z))) z r = String c r' ∧ is_digit c = true.
Proof.
  intros Hz. destruct (dec_digits_spec _ z r (log2_fuel z Hz)) as [_ (c & r' & ? & ? & _)]; [lia|].
  eauto.
Qed.

Lemma parse_number_digit c r : is_digit c = true →
  parse_number (String c r) = prod_map VInt id <$> parse_nat (String c r).
Proof. destruct c as [[] [] [] [] [] [] [] []]; done. Qed.

Lemma parse_number_dec z r : delimited r → parse_number (dec z r) = Some (VInt z, r).
Proof.
  intros Hr. unfold dec. destruct (Z.ltb_spec z 0).
  - unfold parse_number. rewrite parse_nat_dec by (done || lia). simpl.
    by rewrite Z.opp_involutive.
  - destruct (dec_digits_head z r) as (c & r' & Heq & Hd); [lia|].
    rewrite Heq, parse_number_digit by done. rewrite <-Heq, parse_nat_dec by (done || lia). done.
Qed.

(** ** Heads of printed values *)

(** A printed value starts with a character that no white-space skipping and no
    closing bracket test consumes. *)
Definition value_head (c : ascii) : Prop :=
  is_json_space c = false ∧ Ascii.eqb c "]" = false ∧ Ascii.eqb c "}" = false.

Lemma digit_head c : is_digit c = true → value_head c.
Proof. destruct c as [[] [] [] [] [] [] [] []]; done. Qed.

Lemma dec_head z r : ∃ c r', dec z r = String c r' ∧ value_head c.
Proof.
  unfold dec. destruct (Z.ltb_spec z 0); [by eexists _, _|].
  destruct (dec_digits_head z r) as (c & r' & -> & Hd); [lia|]. eauto using digit_head.
Qed.

Lemma dumps_head v t : dumps v = Some t → ∃ c t', t = String c t' ∧ value_head c.
Proof.
  destruct v as [|[]|z|s|s|l|d]; simpl; try by (intros [= <-]; eexists _, _).
  - intros [= <-]. apply dec_head.
  - destruct (mapM dumps l); [|done]. simpl. intros [= <-]. by eexists _, _.
  - destruct (all_some (dumps <$> d)); [|done]. simpl. intros [= <-]. by eexists _, _.
Qed.

Lemma skip_ws_head c r : is_json_space c = false → skip_ws (String c r) = String c r.
Proof. intros H. unfold skip_ws. simpl. by rewrite H. Qed.

Lemma digit_case c : is_digit c = true →
  Ascii.eqb c quote_char = false ∧ Ascii.eqb c "[" = false ∧ Ascii.eqb c "{" = false
  ∧ Ascii.eqb c "n" = false ∧ Ascii.eqb c "t" = false ∧ Ascii.eqb c "f" = false.
Proof. destruct c as [[] [] [] [] [] [] [] []]; done. Qed.

Section hook.
Variable hook : list (string * value) → option value.
Hypothesis hook_dict : ∀ kvs, NoDup kvs.*1 → hook kvs = Some (VDict (dict_of_pairs kvs)).

Lemma parse_value_number fuel z r : delimited r →
  parse_value hook (S fuel) (dec z r) = Some (VInt z, r).
Proof.
  intros Hr. rewrite <-(parse_number_dec z r Hr). unfold dec.
  destruct (Z.ltb_spec z 0); [done|].
  destruct (dec_digits_head z r) as (c & r' & -> & Hd); [lia|].
  destruct (digit_case c Hd) as (H1&H2&H3&H4&H5&H6).
  cbn [parse_value]. by rewrite H1, H2, H3, H4, H5, H6.
Qed.

Lemma delimited_close c r : is_digit c = false → float_mark (String c "") = false →
  delimited (String c r).
Proof. done. Qed.

(** ** Arrays and objects *)

(** What the induction hypothesis says about one value. *)
Definition round_trips (v : value) : Prop := ∀ t r fuel,
  dumps v = Some t → delimited r → (String.length t < fuel)%nat →
  parse_value hook fuel (t +:+ r) = Some (v, r).

Lemma join_cons x y xs : join "," (x :: y :: xs) = x +:+ "," +:+ join "," (y :: xs).
Proof. done. Qed.

Lemma parse_elems_join l : ∀ ts r fuel,
  Forall round_trips l → mapM dumps l = Some ts → l ≠ [] →
  (String.length (join "," ts) + 1 < fuel)%nat →
  parse_elems hook fuel (join "," ts +:+ String "]" r) = Some (l, r).
Proof.
  induction l as [|v l IH]; intros ts r fuel Hl Hts Hne Hf; [done|].
  apply Forall_cons in Hl as [Hv Hl].
  apply mapM_Some_1 in Hts. apply Forall2_cons_inv_l in Hts as (t & ts' & Ht & Hts & ->).
  destruct fuel as [|fuel]; [lia|]. cbn [parse_elems].
  destruct l as [|w l].
  - apply Forall2_nil_inv_l in Hts as ->. simpl in *.
    rewrite (Hv t (String "]" r) fuel Ht) by (done || lia). done.
  - apply Forall2_cons_inv_l in Hts as (u & us & Hu & Hus & ->).
    rewrite join_cons in *. rewrite !str_app_assoc. rewrite !str_length_app in Hf.
    change (String.length ",") with 1%nat in Hf.
    rewrite (Hv t _ fuel Ht) by (done || lia).
    change ("," +:+ ?x) with (String "," x). rewrite skip_ws_head by done.
    destruct (dumps_head w u Hu) as (c & u' & Hcu & Hc & _).
    assert (∃ x, join "," (u :: us) = String c x) as [x Hx].
    { rewrite Hcu. destruct us; simpl; eauto. }
    assert (skip_ws (join "," (u :: us) +:+ String "]" r) = join "," (u :: us) +:+ String "]" r) as ->.
    { rewrite Hx. by apply skip_ws_head. }
    rewrite (IH (u :: us)); [done|done| |done|lia].
    apply mapM_Some_2. by constructor.
Qed.

(** The members of an object, paired with their texts. *)
Definition member_rel (kv : string * value) (kt : string * string) : Prop :=
  kv.1 = kt.1 ∧ dumps kv.2 = Some kt.2 ∧ round_trips kv.2.

Lemma member_text_app k t r :
  member_text (k, t) +:+ r = quoted k (String ":" (t +:+ r)).
Proof. unfold member_text. by rewrite quoted_app. Qed.

Lemma escape_string_length s : ∀ acc,
  (String.length acc ≤ String.length (escape_string s acc))%nat.
Proof.
  induction s as [|c s IH]; intros acc; simpl; [done|].
  etrans; [apply IH|]. unfold escape_char. repeat case_match; simpl; try lia.
Qed.

Lemma quoted_length s acc : (2 + String.length acc ≤ String.length (quoted s acc))%nat.
Proof.
  unfold quoted. simpl. pose proof (escape_string_length s (String quote_char acc)) as H.
  simpl in H. lia.
Qed.

Lemma member_text_length k t : (2 + String.length t < String.length (member_text (k, t)))%nat.
Proof. unfold member_text. pose proof (quoted_length k (String ":" t)) as H. simpl in *. lia. Qed.

Lemma parse_members_join kvs : ∀ kts r fuel,
  Forall2 member_rel kvs kts → kvs ≠ [] →
  (String.length (join "," (map member_text kts)) + 1 < fuel)%nat →
  parse_members hook fuel (join "," (map member_text kts) +:+ String "}" r) = Some (kvs, r).
Proof.
  induction kvs as [|[k v] kvs IH]; intros kts r fuel Hk Hne Hf; [done|].
  apply Forall2_cons_inv_l in Hk as ([k' t] & kts' & (Hkk & Ht & Hv) & Hkts & ->).
  simpl in Hkk, Ht, Hv. subst k'.
  destruct fuel as [|fuel]; [lia|]. cbn [map]. cbn [map] in Hf.
  pose proof (member_text_length k t) as Hlen.
  destruct (dumps_head v t Ht) as (c & t' & -> & Hc & _).
  destruct kvs as [|kv kvs].
  - apply Forall2_nil_inv_l in Hkts as ->. cbn [map join] in Hf |- *.
    rewrite member_text_app. unfold quoted. cbn [parse_members].
    rewrite Ascii.eqb_refl. simpl negb. cbv iota. rewrite parse_escape_string.
    rewrite !skip_ws_head by done. rewrite str_cons_app, skip_ws_head, <-str_cons_app by done.
    rewrite (Hv _ (String "}" r) fuel Ht) by (done || lia). done.
  - apply Forall2_cons_inv_l in Hkts as ([k2 t2] & kts & Hr2 & Hkts & ->).
    cbn [map] in *. rewrite join_cons in *. rewrite !str_app_assoc, member_text_app.
    rewrite !str_length_app in Hf. change (String.length ",") with 1%nat in Hf.
    unfold quoted. cbn [parse_members].
    rewrite Ascii.eqb_refl. simpl negb. cbv iota. rewrite parse_escape_string.
    rewrite !skip_ws_head by done. rewrite str_cons_app, skip_ws_head, <-str_cons_app by done.
    rewrite (Hv _ _ fuel Ht) by (done || lia).
    change ("," +:+ ?x) with (String "," x) in *. rewrite skip_ws_head by done.
    set (rest := join "," (member_text (k2, t2) :: map member_text kts)) in *.
    assert (∃ x, rest = String quote_char x) as [x Hx].
    { unfold rest, member_text, quoted. destruct kts; simpl; eauto. }
    assert (skip_ws (rest +:+ String "}" r) = rest +:+ String "}" r) as ->.
    { rewrite Hx. by apply skip_ws_head. }
    unfold rest. rewrite (IH ((k2, t2) :: kts)); [done| |done|].
    + by constructor.
    + cbn [map]. fold rest. lia.
Qed.

(** ** Dictionaries *)

Lemma dict_of_pairs_lookup kvs k : NoDup kvs.*1 →
  dict_of_pairs kvs !! k = (list_to_map kvs : gmap string value) !! k.
Proof.
  unfold dict_of_pairs. intros Hnd.
  assert (∀ d, foldl (λ d kv, <[kv.1:=kv.2]> d) d kvs = list_to_map kvs ∪ d) as ->; [|by rewrite (right_id_L ∅ (∪))].
  induction kvs as [|[k' v] kvs IH]; intros d.
  { change (d = ∅ ∪ d). by rewrite (left_id_L ∅ (∪)). }
  apply NoDup_cons in Hnd as [Hk Hnd]. simpl. rewrite (IH Hnd).
  rewrite <-insert_union_l. rewrite insert_union_r; [done|].
  by apply not_elem_of_list_to_map_1.
Qed.

(** The texts of a dictionary, in key order, with their values. *)
Lemma dict_members (d : gmap string value) (m : gmap string string) :
  all_some (dumps <$> d) = Some m → map_Forall (λ _, round_trips) d →
  ∃ kvs, Forall2 member_rel kvs (merge_sort key_le (map_to_list m))
    ∧ NoDup kvs.*1 ∧ dict_of_pairs kvs = d.
Proof.
  intros Hm Hd. unfold all_some in Hm. case_bool_decide as Hall; [|done].
  injection Hm as <-. set (m := omap id (dumps <$> d)) in *.
  assert (∀ k t, m !! k = Some t ↔ ∃ v, d !! k = Some v ∧ dumps v = Some t) as Hmd.
  { intros k t. unfold m. rewrite lookup_omap, lookup_fmap.
    destruct (d !! k) as [v|]; simpl; naive_solver. }
  assert (∀ k, m !! k = None → d !! k = None) as Hnone.
  { intros k. unfold m. rewrite lookup_omap, lookup_fmap. destruct (d !! k) as [v|] eqn:Hk; simpl; [|done].
    destruct (Hall k (dumps v)) as [t Ht]; [by rewrite lookup_fmap, Hk|]. by rewrite Ht. }
  set (kts := merge_sort key_le (map_to_list m)).
  assert (kts ≡ₚ map_to_list m) as Hperm by apply merge_sort_Permutation.
  assert (NoDup kts.*1) as Hnd by (rewrite Hperm; apply NoDup_fst_map_to_list).
  exists (map (λ kt, (kt.1, default VNone (d !! kt.1))) kts). split; [|split; [by rewrite <-list_fmap_compose|]].
  - assert (∀ kt, kt ∈ kts → m !! kt.1 = Some kt.2) as Hin.
    { intros [k t] Hk. rewrite Hperm in Hk. by apply elem_of_map_to_list in Hk. }
    clearbody kts. clear Hperm Hnd. induction kts as [|[k t] kts IH]; simpl; constructor.
    + destruct (proj1 (Hmd k t)) as (v & Hv & Ht); [apply (Hin (k, t)); left|].
      repeat split; simpl; rewrite Hv; [done|]. by apply (Hd k).
    + apply IH. intros kt Hkt. apply Hin. by right.
  - apply map_eq. intros k. rewrite dict_of_pairs_lookup.
    2:{ rewrite <-list_fmap_compose. exact Hnd. }
    destruct (m !! k) as [t|] eqn:Hk.
    + destruct (proj1 (Hmd k t) Hk) as (v & Hv & _). rewrite Hv.
      apply elem_of_list_to_map_1; [rewrite <-list_fmap_compose; exact Hnd|].
      apply list_elem_of_fmap. exists (k, t). simpl. rewrite Hv. split; [done|].
      rewrite Hperm. by apply elem_of_map_to_list.
    + rewrite (Hnone k Hk). apply not_elem_of_list_to_map_1.
      rewrite <-list_fmap_compose. intros (kt & -> & Hkt)%list_elem_of_fmap.
      destruct kt as [k t]. rewrite Hperm in Hkt. apply elem_of_map_to_list in Hkt. simpl in *. congruence.
Qed.

Lemma dumps_round_trips v : round_trips v.
Proof.
  induction v as [|b|z|s|s|l IH|d IH] using value_ind; intros t r fuel Ht Hr Hf;
    (destruct fuel as [|fuel]; [lia|]); simpl in Ht.
  - by injection Ht as <-.
  - by destruct b; injection Ht as <-.
  - injection Ht as <-. rewrite dec_app. by apply parse_value_number.
  - injection Ht as <-. rewrite quoted_app. unfold quoted. cbn [parse_value].
    by rewrite Ascii.eqb_refl, parse_escape_string.
  - done.
  - destruct (mapM dumps l) as [ts|] eqn:Hts; [|done]. simpl in Ht. injection Ht as <-.
    rewrite str_cons_app, str_app_assoc. simpl. change ("]" +:+ r) with (String "]" r).
    destruct l as [|v l]; [by injection Hts as <-|].
    simpl in Hf. rewrite str_length_app in Hf. change (String.length "]") with 1%nat in Hf.
    pose proof (parse_elems_join (v :: l) ts r fuel IH Hts ltac:(done) ltac:(lia)) as Hp.
    apply mapM_Some_1, Forall2_cons_inv_l in Hts as (u & us & Hu & _ & ->).
    destruct (dumps_head v u Hu) as (c & u' & -> & Hc & Hb & _).
    assert (∃ x, join "," (String c u' :: us) +:+ String "]" r = String c x) as [x Hx].
    { destruct us; simpl; eauto. }
    rewrite Hx in *. rewrite skip_ws_head by done. by rewrite Hb, Hp.
  - destruct (all_some (dumps <$> d)) as [m|] eqn:Hm; [|done]. simpl in Ht. injection Ht as <-.
    destruct (dict_members d m Hm IH) as (kvs & Hkvs & Hnd & Hd).
    unfold dict_text in *. set (kts := merge_sort key_le (map_to_list m)) in *.
    rewrite str_cons_app, str_app_assoc. simpl. change ("}" +:+ r) with (String "}" r).
    destruct kvs as [|kv kvs].
    { apply Forall2_nil_inv_l in Hkvs. rewrite Hkvs. simpl. rewrite hook_dict by done. by rewrite <-Hd. }
    simpl in Hf. rewrite str_length_app in Hf. change (String.length "}") with 1%nat in Hf.
    pose proof (parse_members_join (kv :: kvs) kts r fuel Hkvs ltac:(done) ltac:(lia)) as Hp.
    apply Forall2_cons_inv_l in Hkvs as ([k t] & kts' & _ & _ & Hkts).
    rewrite Hkts in *.
    assert (∃ x, join "," (map member_text ((k, t) :: kts')) +:+ String "}" r = String quote_char x) as [x Hx].
    { unfold member_text, quoted. destruct kts'; simpl; eauto. }
    rewrite Hx in *. rewrite skip_ws_head by done.
    change (Ascii.eqb quote_char "}") with false. cbv iota. rewrite Hp. cbn [mbind option_bind].
    rewrite (hook_dict _ Hnd). by rewrite <-Hd.
Qed.

(** ** The round trip *)

Lemma skip_ws_nl : skip_ws (String (chr 10) "") = "".
Proof. done. Qed.

Lemma loads_with_dumps_line v t : dumps v = Some t → loads_with hook (t +:+ String (chr 10) "") = Some v.
Proof.
  intros Ht. unfold loads_with. destruct (dumps_head v t Ht) as (c & t' & Heq & Hc & _).
  assert (skip_ws (t +:+ String (chr 10) "") = t +:+ String (chr 10) "") as ->.
  { rewrite Heq. by apply skip_ws_head. }
  rewrite (dumps_round_trips v t); [done|done|done|]. rewrite str_length_app. simpl. lia.
Qed.

Lemma loads_with_dumps_text v t : dumps v = Some t → loads_with hook t = Some v.
Proof.
  intros Ht. unfold loads_with. destruct (dumps_head v t Ht) as (c & t' & Heq & Hc & _).
  assert (skip_ws t = t) as -> by (rewrite Heq; by apply skip_ws_head).
  rewrite <-(str_app_nil t) at 2. rewrite (dumps_round_trips v t); [done|done|done|lia].
Qed.

End hook.

Lemma dict_hook_dict kvs : NoDup kvs.*1 → dict_hook kvs = Some (VDict (dict_of_pairs kvs)).
Proof. done. Qed.

Lemma loads_dumps_line v t : dumps v = Some t → loads (t +:+ String (chr 10) "") = Some v.
Proof. apply loads_with_dumps_line, dict_hook_dict. Qed.

Lemma loads_dumps_text v t : dumps v = Some t → loads t = Some v.
Proof. apply loads_with_dumps_text, dict_hook_dict. Qed.

(** Different values have different canonical texts. *)
Lemma dumps_inj v w t : dumps v = Some t → dumps w = Some t → v = w.
Proof. intros Hv%loads_dumps_text Hw%loads_dumps_text. congruence. Qed.

(** ** Canonical text is printable ASCII *)

Definition printable (c : ascii) : bool := (32 <=? code c)%Z && (code c <? 127)%Z.
#[local] Abbreviation printable_text := (all_chars printable).

Lemma printable_text_app a b : printable_text (a +:+ b) = printable_text a && printable_text b.
Proof. induction a as [|c a IH]; simpl; [done|]. by rewrite IH, andb_assoc. Qed.

Lemma printable_text_hex n : ∀ z acc, printable_text acc = true → printable_text (hex_fixed n z acc) = true.
Proof.
  induction n as [|n IH]; intros z acc H; simpl; [done|]. apply IH. cbn [all_chars].
  rewrite H, andb_true_r. unfold hex_char.
  assert (0 <= Z.land z 15 < 16)%Z as Hd.
  { change 15%Z with (Z.ones 4). rewrite Z.land_ones by lia. apply Z.mod_pos_bound. lia. }
  set (d := Z.land z 15) in *. clearbody d.
  assert (d = 0 ∨ d = 1 ∨ d = 2 ∨ d = 3 ∨ d = 4 ∨ d = 5 ∨ d = 6 ∨ d = 7 ∨ d = 8 ∨ d = 9
    ∨ d = 10 ∨ d = 11 ∨ d = 12 ∨ d = 13 ∨ d = 14 ∨ d = 15)%Z by lia.
  naive_solver.
Qed.

Lemma printable_text_escape s acc : printable_text acc = true → printable_text (escape_string s acc) = true.
Proof.
  intros Hacc. induction s as [|c s IH]; simpl; [done|]. revert IH.
  generalize (escape_string s acc) as x. intros x Hx.
  destruct c as [[] [] [] [] [] [] [] []]; exact Hx.
Qed.

Lemma printable_text_quoted s acc : printable_text acc = true → printable_text (quoted s acc) = true.
Proof. intros H. unfold quoted. simpl. by apply printable_text_escape. Qed.

Lemma printable_text_dec z acc : printable_text acc = true → printable_text (dec z acc) = true.
Proof.
  assert (∀ fuel z acc, printable_text acc = true → printable_text (dec_digits fuel z acc) = true) as H.
  { clear. induction fuel as [|fuel IH]; intros z acc H; simpl; [done|].
    destruct (digit_cases (z mod 10)) as (Hd & _); [apply Z.mod_pos_bound; lia|].
    assert (printable_text (String (chr (48 + z mod 10)) acc) = true).
    { cbn [all_chars]. rewrite H, andb_true_r.
      revert Hd. generalize (chr (48 + z mod 10)). by intros [[] [] [] [] [] [] [] []]. }
    destruct (z <? 10)%Z; auto. }
  intros Hacc. unfold dec. destruct (z <? 0)%Z; exact (H _ _ _ Hacc).
Qed.

Lemma printable_text_join ts : Forall (λ t, printable_text t = true) ts → printable_text (join "," ts) = true.
Proof.
  induction 1 as [|t ts Ht Hts IH]; [done|]. destruct ts as [|u ts]; [done|].
  rewrite join_cons, !printable_text_app, Ht, IH. done.
Qed.

Lemma dumps_printable v t : dumps v = Some t → printable_text t = true.
Proof.
  revert t. induction v as [|[]|z|s|s|l IH|d IH] using value_ind; intros t; simpl; try by intros [= <-].
  - intros [= <-]. by apply printable_text_dec.
  - intros [= <-]. by apply printable_text_quoted.
  - destruct (mapM dumps l) as [ts|] eqn:Hts; [|done]. simpl. intros [= <-]. simpl.
    rewrite printable_text_app, printable_text_join; [done|].
    apply mapM_Some_1 in Hts. clear -IH Hts. induction Hts; decompose_Forall_hyps; constructor; auto.
  - destruct (all_some (dumps <$> d)) as [m|] eqn:Hm; [|done]. simpl. intros [= <-]. simpl.
    rewrite printable_text_app, printable_text_join; [done|].
    apply Forall_forall. intros x ([k t] & -> & Hk)%list_elem_of_fmap.
    rewrite merge_sort_Permutation in Hk. apply elem_of_map_to_list in Hk.
    unfold member_text. apply printable_text_quoted. simpl.
    unfold all_some in Hm. case_bool_decide; [|done]. injection Hm as <-.
    rewrite lookup_omap, lookup_fmap in Hk.
    destruct (d !! k) as [v|] eqn:Hv; simpl in Hk; [|done].
    apply (IH k v Hv t). destruct (dumps v); simpl in Hk; congruence.
Qed.

Lemma printable_all (good : ascii → bool) t :
  (∀ c, printable c = true → good c = true) → printable_text t = true → all_chars good t = true.
Proof.
  intros Hgood. induction t as [|c t IH]; simpl; [done|]. intros [Hc Ht]%andb_true_iff. by rewrite Hgood, IH.
Qed.

Fixpoint no_newline (s : string) : bool :=
  match s with "" => true | String c s => negb (Ascii.eqb c (chr 10)) && no_newline s end.

Lemma no_newline_app a b : no_newline (a +:+ b) = no_newline a && no_newline b.
Proof. induction a as [|c a IH]; simpl; [done|]. by rewrite IH, andb_assoc. Qed.

Lemma dumps_no_newline v t : dumps v = Some t → no_newline t = true.
Proof.
  intros Ht%dumps_printable. induction t as [|c t IH]; simpl in *; [done|].
  apply andb_true_iff in Ht as [Hc Ht]. rewrite (IH Ht), andb_true_r.
  apply negb_true_iff, Ascii.eqb_neq. intros ->. discriminate Hc.
Qed.

(** ** What can be printed *)

Lemma dumps_dict_some d : map_Forall (λ _ x, is_Some (dumps x)) d → is_Some (dumps (VDict d)).
Proof.
  intros Hd. cbn [dumps]. unfold all_some. rewrite bool_decide_eq_true_2; [done|].
  intros k o Ho. rewrite lookup_fmap in Ho. destruct (d !! k) as [x|] eqn:Hx; [|done].
  injection Ho as <-. exact (Hd k x Hx).
Qed.

Lemma dumps_dict_list kvs : Forall (λ kv, is_Some (dumps kv.2)) kvs → is_Some (dumps (dict kvs)).
Proof.
  intros Hall. apply dumps_dict_some. intros k x Hx%elem_of_list_to_map_2.
  exact (proj1 (Forall_forall _ _) Hall (k, x) Hx).
Qed.

Lemma dumps_list_some l : Forall (λ x, is_Some (dumps x)) l → is_Some (dumps (VList l)).
Proof.
  intros Hl. cbn [dumps]. rewrite fmap_is_Some. by apply mapM_is_Some_2.
Qed.

(** ** Two texts on one line *)

Lemma dumps_dict_head d t : dumps (VDict d) = Some t → ∃ t', t = String "{" t'.
Proof.
  cbn [dumps]. destruct (all_some (dumps <$> d)); [|done].
  unfold dict_text. intros [= <-]. eauto.
Qed.

Lemma loads_two_texts v d t u :
  dumps v = Some t → dumps (VDict d) = Some u → loads (t +:+ (u +:+ String (chr 10) "")) = None.
Proof.
  intros Ht Hu. destruct (dumps_dict_head _ _ Hu) as [u' ->].
  destruct (dumps_head v t Ht) as (c & t' & Heq & Hc & _).
  set (r := String "{" u' +:+ String (chr 10) "").
  assert (skip_ws (t +:+ r) = t +:+ r) as E by (rewrite Heq; apply skip_ws_head; exact Hc).
  assert (parse_value dict_hook (S (String.length (t +:+ r))) (t +:+ r) = Some (v, r)) as P.
  { apply (dumps_round_trips dict_hook dict_hook_dict v t r _ Ht); [by split|]. rewrite str_length_app. lia. }
  unfold loads, loads_with. rewrite E, P. reflexivity.
Qed.

