(* ===== verification/UuidFacts.v ===== *)
(** * The text of a UUID

    [uuid.UUID] reads back what [str] of a UUID writes; the codecs that keep an
    identifier as text and write it as sixteen bytes rely on it. *)
From S2P Require Import Prelude PyValue Sha256.

#[local] Open Scope Z_scope.
#[local] Open Scope string_scope.

(** The characters of [str(uuid)]. *)
Definition uuid_char (c : ascii) : bool := hex_lower_char c || Ascii.eqb c "-".

Lemma all_chars_impl (p q : ascii → bool) s :
  (∀ c, p c = true → q c = true) → all_chars p s = true → all_chars q s = true.
Proof.
  intros H. induction s as [|c s IH]; simpl; [done|]. intros [? ?]%andb_true_iff.
  apply andb_true_iff. auto.
Qed.

Lemma hex_fixed_chars (p : ascii → bool) n : (∀ c, hex_lower_char c = true → p c = true) → ∀ z acc,
  all_chars p acc = true → all_chars p (hex_fixed n z acc) = true.
Proof.
  intros Hp. induction n as [|n IH]; intros z acc Hacc; simpl; [done|]. apply IH. simpl.
  by rewrite Hp, Hacc by apply hex_char_lower.
Qed.

Lemma uuid_str_chars z : all_chars uuid_char (uuid_str z) = true.
Proof.
  assert (Hp : ∀ c, hex_lower_char c = true → uuid_char c = true) by (unfold uuid_char; by intros c ->).
  assert (Hd : ∀ n z acc, all_chars uuid_char acc = true → all_chars uuid_char (String "-" (hex_fixed n z acc)) = true).
  { intros n y acc H. exact (hex_fixed_chars _ n Hp y acc H). }
  unfold uuid_str. apply hex_fixed_chars; [exact Hp|]. do 4 apply Hd. reflexivity.
Qed.

(** ** Clean-ups that have nothing to remove *)

Lemma remove_absent c sub s (p : ascii → bool) : p c = false → all_chars p s = true → str_remove (String c sub) s = s.
Proof.
  intros Hc. unfold str_remove. induction s as [|d s IH]; [done|]. cbn [all_chars remove_go String.prefix].
  intros [Hd Hs]%andb_true_iff. destruct (ascii_dec c d) as [->|]; [congruence|]. by rewrite IH.
Qed.

Lemma strip_absent (q : ascii → bool) s : all_chars (λ c, negb (q c)) s = true → strip q s = s.
Proof.
  intros H. assert (Hl : lstrip q s = s).
  { destruct s as [|c s]; [done|]. cbn [all_chars] in H. apply andb_true_iff in H as [H _].
    simpl. by destruct (q c). }
  unfold strip. rewrite Hl. clear Hl. induction s as [|c s IH]; [done|]. cbn [all_chars] in H.
  apply andb_true_iff in H as [Hc H]. simpl. rewrite IH by done. destruct s; [by destruct (q c)|done].
Qed.

Lemma remove_dash_hex n : ∀ z acc, str_remove "-" (hex_fixed n z acc) = hex_fixed n z (str_remove "-" acc).
Proof.
  induction n as [|n IH]; intros z acc; [done|]. cbn [hex_fixed]. rewrite IH. f_equal.
  unfold str_remove. cbn [remove_go String.prefix].
  destruct (ascii_dec "-" (hex_char z)) as [He|]; [|done].
  pose proof (hex_char_lower z) as H. by rewrite <-He in H.
Qed.

Lemma remove_dash_dash s : str_remove "-" (String "-" s) = str_remove "-" s.
Proof. unfold str_remove. cbn [remove_go String.prefix]. by destruct (ascii_dec "-" "-"), s. Qed.

Lemma hex_fixed_join m : ∀ n z acc,
  hex_fixed n (Z.shiftr z (4 * Z.of_nat m)) (hex_fixed m z acc) = hex_fixed (m + n) z acc.
Proof.
  induction m as [|m IH]; intros n z acc; simpl.
  - by rewrite Z.shiftr_0_r.
  - rewrite <-IH, Z.shiftr_shiftr by lia. do 2 f_equal. lia.
Qed.

Lemma uuid_hex z : str_remove "-" (uuid_str z) = hex_fixed 32 z "".
Proof.
  unfold uuid_str. repeat (rewrite remove_dash_hex, remove_dash_dash). rewrite remove_dash_hex.
  replace (Z.shiftr z 48) with (Z.shiftr z (4 * Z.of_nat 12)) by done. rewrite hex_fixed_join.
  replace (Z.shiftr z 64) with (Z.shiftr z (4 * Z.of_nat 16)) by done. rewrite hex_fixed_join.
  replace (Z.shiftr z 80) with (Z.shiftr z (4 * Z.of_nat 20)) by done. rewrite hex_fixed_join.
  replace (Z.shiftr z 96) with (Z.shiftr z (4 * Z.of_nat 24)) by done. by rewrite hex_fixed_join.
Qed.

(** ** The number *)

Lemma hex_char_digit z : hex_digit (hex_char z) = Some (z mod 16) ∧ Ascii.eqb (hex_char z) "_" = false.
Proof.
  unfold hex_char. change 15 with (Z.ones 4). rewrite Z.land_ones by lia. change (2 ^ 4) with 16.
  pose proof (Z.mod_pos_bound z 16 ltac:(lia)) as Hb.
  assert (H : z mod 16 ∈ seqZ 0 16) by (apply elem_of_seqZ; lia).
  repeat (apply elem_of_cons in H as [->|H]; [done|]). by apply not_elem_of_nil in H.
Qed.

Lemma int16_digits_hex n : ∀ acc b z r,
  int16_digits acc b (hex_fixed (S n) z r) = int16_digits (16 ^ Z.of_nat (S n) * acc + z mod 16 ^ Z.of_nat (S n)) true r.
Proof.
  induction n as [|n IH]; intros acc b z r.
  - cbn [hex_fixed int16_digits]. destruct (hex_char_digit z) as [-> ->]. f_equal.
  - change (hex_fixed (S (S n)) z r) with (hex_fixed (S n) (Z.shiftr z 4) (String (hex_char z) r)).
    rewrite IH. cbn [int16_digits]. destruct (hex_char_digit z) as [-> ->]. f_equal.
    rewrite Z.shiftr_div_pow2 by lia. change (2 ^ 4) with 16.
    rewrite (Nat2Z.inj_succ (S n)), Z.pow_succ_r by lia.
    rewrite (Z.rem_mul_r z 16) by (try apply Z.pow_pos_nonneg; lia). lia.
Qed.

Lemma int16_prefix_hex s : all_chars hex_lower_char s = true → int16_prefix s = int16_digits 0 false s.
Proof.
  destruct s as [|c s]; [done|]. cbn [all_chars]. intros [Hc Hs]%andb_true_iff.
  destruct c as [[] [] [] [] [] [] [] []]; try reflexivity.
  destruct s as [|d s]; [done|]. cbn [all_chars] in Hs. apply andb_true_iff in Hs as [Hd _].
  by destruct d as [[] [] [] [] [] [] [] []].
Qed.

Lemma int16_hex n z : int16 (hex_fixed (S n) z "") = Some (z mod 16 ^ Z.of_nat (S n)).
Proof.
  assert (Hs : all_chars hex_lower_char (hex_fixed (S n) z "") = true) by (by apply hex_fixed_chars).
  assert (Hd : int16_prefix (hex_fixed (S n) z "") = Some (z mod 16 ^ Z.of_nat (S n))).
  { rewrite int16_prefix_hex, int16_digits_hex by done. simpl. f_equal. lia. }
  unfold int16. rewrite strip_absent.
  - destruct (hex_fixed (S n) z "") as [|c s]; [done|]. cbn [all_chars] in Hs. apply andb_true_iff in Hs as [Hc _].
    by destruct c as [[] [] [] [] [] [] [] []].
  - revert Hs. apply all_chars_impl. intros c Hc. by destruct c as [[] [] [] [] [] [] [] []].
Qed.

Lemma uuid_round_trip z : 0 ≤ z < 2 ^ 128 → uuid_UUID (uuid_str z) = Some z.
Proof.
  intros Hz. unfold uuid_UUID. pose proof (uuid_str_chars z) as Hc.
  rewrite (remove_absent "u" "rn:" _ uuid_char) by done. rewrite (remove_absent "u" "uid:" _ uuid_char) by done.
  rewrite strip_absent.
  2: { revert Hc. apply all_chars_impl. intros c H. by destruct c as [[] [] [] [] [] [] [] []]. }
  rewrite uuid_hex, hex_fixed_length. cbn [String.length Nat.add Nat.eqb negb]. rewrite int16_hex.
  change (16 ^ Z.of_nat 32) with (2 ^ 128). rewrite Z.mod_small by lia.
  by destruct (Z.leb_spec 0 z), (Z.ltb_spec z (2 ^ 128)); try lia.
Qed.
