(* ===== verification/Effect.v ===== *)
(** * Exceptions over a mutable object

    A method that mutates its object and may raise is a term of [act S A]: it
    takes the object's state to a result and the state it leaves, so the
    state an exception leaves behind is part of the model. *)
From S2P Require Import Prelude.

Definition act (S A : Type) : Type := S → result A * S.

#[export] Instance act_ret S : MRet (act S) := λ A a s, (Ok a, s).
#[export] Instance act_bind S : MBind (act S) := λ A B f m s,
  match m s with
  | (Ok a, s) => f a s
  | (Raise e, s) => (Raise e, s)
  end.

(** [self], an assignment to it, a raise, and a pure call. *)
Definition self {S} : act S S := λ s, (Ok s, s).
Definition assign {S} (f : S → S) : act S unit := λ s, (Ok tt, f s).
Definition throw {S A} (c : exn_class) (msg : string) : act S A := λ s, (raise c msg, s).
Definition pure {S A} (m : result A) : act S A := λ s, (m, s).

(** [try: m / except classes as error: handler(error)] *)
Definition catch {S A} (catches : exn_class → bool) (m : act S A)
    (handler : exn → act S A) : act S A := λ s,
  match m s with
  | (Raise e, s) => if catches (exn_cls e) then handler e s else (Raise e, s)
  | r => r
  end.

(** [try: m finally: f] with an [f] that does not raise. *)
Definition finally {S A} (m : act S A) (f : S → S) : act S A := λ s,
  let '(r, s) := m s in (r, f s).

(** [if b: raise] *)
Definition throw_if {S} (b : bool) (c : exn_class) (msg : string) : act S unit :=
  if b then throw c msg else mret tt.

Section act.
Context {S A B : Type}.

Lemma act_bind_Ok (m : act S A) (f : A → act S B) s b s' :
  (m ≫= f) s = (Ok b, s') ↔ ∃ a s1, m s = (Ok a, s1) ∧ f a s1 = (Ok b, s').
Proof.
  unfold mbind, act_bind. destruct (m s) as [[a|e] s1]; naive_solver.
Qed.

Lemma act_bind_Raise (m : act S A) (f : A → act S B) s e s' :
  (m ≫= f) s = (Raise e, s') ↔
  m s = (Raise e, s') ∨ ∃ a s1, m s = (Ok a, s1) ∧ f a s1 = (Raise e, s').
Proof.
  unfold mbind, act_bind. destruct (m s) as [[a|e1] s1]; naive_solver.
Qed.

(** Running a sequence whose first step completes. *)
Lemma run_bind (m : act S A) (f : A → act S B) s a s1 :
  m s = (Ok a, s1) → (m ≫= f) s = f a s1.
Proof. unfold mbind, act_bind. by intros ->. Qed.

Lemma run_pure_bind (m : result A) (f : A → act S B) s a :
  m = Ok a → ((pure m : act S A) ≫= f) s = f a s.
Proof. by intros ->. Qed.

Lemma run_throw_if_bind (b : bool) c msg (f : unit → act S B) s :
  b = false → ((throw_if b c msg : act S unit) ≫= f) s = f tt s.
Proof. by intros ->. Qed.

Lemma throw_if_Ok b c msg (s s' : S) u :
  throw_if b c msg s = (Ok u, s') ↔ b = false ∧ s' = s.
Proof. destruct b, u; unfold throw_if, throw, raise, mret, act_ret; naive_solver. Qed.

Lemma throw_if_Raise b c msg (s s' : S) e :
  throw_if b c msg s = (Raise e, s') ↔ b = true ∧ e = Exn c msg ∧ s' = s.
Proof. destruct b; unfold throw_if, throw, raise, mret, act_ret; naive_solver. Qed.
End act.

(** ** The classes a pure function may raise *)

Definition raises {A} (C : exn_class → Prop) (m : result A) : Prop :=
  ∀ x, m = Raise x → C (exn_cls x).

Section raises.
Context {A B : Type} (C : exn_class → Prop).

Lemma raises_Ok (a : A) : raises C (Ok a).
Proof. by intros x. Qed.

Lemma raises_raise c msg : C c → raises C (raise c msg : result A).
Proof. by intros Hc x [= <-]. Qed.

Lemma raises_fail_if b c msg : (b = true → C c) → raises C (fail_if b c msg).
Proof. intros Hc x [? ->]%fail_if_Raise. auto. Qed.

Lemma raises_bind (m : result A) (f : A → result B) :
  raises C m → (∀ a, m = Ok a → raises C (f a)) → raises C (m ≫= f).
Proof. intros Hm Hf x [?|(a & Ha & ?)]%bind_Raise; [by apply Hm|by apply (Hf a Ha)]. Qed.

Lemma raises_if (b : bool) (m n : result A) :
  (b = true → raises C m) → (b = false → raises C n) → raises C (if b then m else n).
Proof. destruct b; auto. Qed.
End raises.

Lemma raises_weaken {A} (C D : exn_class → Prop) (m : result A) :
  raises C m → (∀ c, C c → D c) → raises D m.
Proof. intros Hm HCD x Hx. apply HCD. by apply Hm. Qed.

Ltac raises_step :=
  match goal with
  | |- raises _ (Ok _) => apply raises_Ok
  | |- raises _ (raise _ _) => apply raises_raise
  | |- raises _ (fail_if _ _ _) => apply raises_fail_if; intros ?
  | |- raises _ (mbind _ _) => apply raises_bind; [|intros ? ?]
  | |- raises _ (if _ then _ else _) => apply raises_if; intros ?
  | |- raises _ (match ?x with pair _ _ => _ end) => is_var x; destruct x
  end.
Ltac raises_run := repeat (raises_step; cbv beta).

(** ** Weakest preconditions

    [wp m Q E s]: from the state [s], [m] completes normally with [Q] or
    raises with [E].  There is no third case, so a proof of [wp] covers every
    outcome. *)
Definition wp {S A} (m : act S A) (Q : A → S → Prop) (E : exn → S → Prop) (s : S) : Prop :=
  match m s with (Ok a, s') => Q a s' | (Raise e, s') => E e s' end.

Section wp.
Context {S : Type}.
Implicit Types (s : S) (E : exn → S → Prop).

Lemma wp_bind {A B} (m : act S A) (f : A → act S B) (Q : B → S → Prop) E s :
  wp m (λ a, wp (f a) Q E) E s → wp (m ≫= f) Q E s.
Proof. unfold wp, mbind, act_bind. by destruct (m s) as [[a|e] s1]. Qed.

Lemma wp_weaken {A} (m : act S A) (Q Q' : A → S → Prop) (E E' : exn → S → Prop) s :
  wp m Q E s → (∀ a s, Q a s → Q' a s) → (∀ e s, E e s → E' e s) → wp m Q' E' s.
Proof. unfold wp. destruct (m s) as [[a|e] s1]; auto. Qed.

Lemma wp_ret {A} (a : A) (Q : A → S → Prop) E s : Q a s → wp (mret a) Q E s.
Proof. done. Qed.

Lemma wp_throw {A} c msg (Q : A → S → Prop) E s : E (Exn c msg) s → wp (throw c msg) Q E s.
Proof. done. Qed.

Lemma wp_assign (f : S → S) (Q : unit → S → Prop) E s : Q tt (f s) → wp (assign f) Q E s.
Proof. done. Qed.

Lemma wp_self (Q : S → S → Prop) E s : Q s s → wp self Q E s.
Proof. done. Qed.

Lemma wp_throw_if (b : bool) c msg (Q : unit → S → Prop) E s :
  (b = true → E (Exn c msg) s) → (b = false → Q tt s) → wp (throw_if b c msg : act S unit) Q E s.
Proof. destruct b; unfold wp, throw_if, throw, raise, mret, act_ret; auto. Qed.

Lemma wp_pure {A} (m : result A) (Q : A → S → Prop) E s :
  (∀ a, m = Ok a → Q a s) → (∀ e, m = Raise e → E e s) → wp (pure m : act S A) Q E s.
Proof. unfold wp, pure. destruct m; auto. Qed.

Lemma wp_catch {A} (catches : exn_class → bool) (m : act S A) (handler : exn → act S A) (Q : A → S → Prop) E s :
  wp m Q (λ e, if catches (exn_cls e) then wp (handler e) Q E else E e) s →
  wp (catch catches m handler) Q E s.
Proof.
  unfold wp, catch. destruct (m s) as [[a|e] s1]; [done|]. by destruct (catches _).
Qed.

Lemma wp_finally {A} (m : act S A) f (Q : A → S → Prop) E s :
  wp m (λ a s, Q a (f s)) (λ e s, E e (f s)) s → wp (finally m f) Q E s.
Proof. unfold wp, finally. by destruct (m s) as [[a|e] s1]. Qed.

Lemma wp_if {A} (b : bool) (m n : act S A) (Q : A → S → Prop) E s :
  (b = true → wp m Q E s) → (b = false → wp n Q E s) → wp (if b then m else n) Q E s.
Proof. destruct b; auto. Qed.

(** Reading a completed run. *)
Lemma wp_Ok {A} (m : act S A) (Q : A → S → Prop) E s a s' :
  wp m Q E s → m s = (Ok a, s') → Q a s'.
Proof. unfold wp. intros H Hm. by rewrite Hm in H. Qed.

Lemma wp_Raise {A} (m : act S A) (Q : A → S → Prop) E s e s' :
  wp m Q E s → m s = (Raise e, s') → E e s'.
Proof. unfold wp. intros H Hm. by rewrite Hm in H. Qed.
End wp.

Create HintDb wp.
#[export] Hint Resolve wp_ret wp_throw wp_assign wp_self : wp.

(** One step of symbolic execution. *)
Ltac wp_step :=
  match goal with
  | |- wp (mbind _ _) _ _ _ => apply wp_bind
  | |- wp (mret _) _ _ _ => apply wp_ret
  | |- wp (throw _ _) _ _ _ => apply wp_throw
  | |- wp (assign _) _ _ _ => apply wp_assign
  | |- wp self _ _ _ => apply wp_self
  | |- wp (throw_if _ _ _) _ _ _ => apply wp_throw_if; intros ?
  | |- wp (pure _) _ _ _ => apply wp_pure; intros ? ?
  | |- wp (catch _ _ _) _ _ _ => apply wp_catch
  | |- wp (finally _ _) _ _ _ => apply wp_finally
  | |- wp (if _ then _ else _) _ _ _ => apply wp_if; intros ?
  end.
Ltac wp_run := repeat (wp_step; cbv beta).
