(* ===== verification/Bytes.v ===== *)
(** * Byte strings and [struct]

    The [bytes] objects of the wire protocols as lists of bytes, the integer
    conversions of the standard library ([int.from_bytes]) and its [struct]
    module for the little-endian formats the repository uses.  A format gives
    the type of the tuple it packs, and packing and unpacking are inverse.

    A [Wire] instance states that a decoder is the exact inverse of an
    encoder; the lemmas of the class hold of every protocol that provides one. *)
From S2P Require Import Prelude PyValue Effect.

#[local] Open Scope Z_scope.

Abbreviation bytes := (list ascii).

Definition zeros (n : nat) : bytes := replicate n (chr 0).
(** [any(bs)] *)
Definition any_byte (bs : bytes) : bool := existsb (λ c, negb (code c =? 0)) bs.
(** [data[lo:hi]] *)
Definition slice (lo hi : nat) (bs : bytes) : bytes := take (hi - lo) (drop lo bs).
Definition text (s : string) : bytes := String.list_ascii_of_string s.

Lemma code_bounds c : 0 ≤ code c < 256.
Proof. unfold code. pose proof (N_ascii_bounded c). lia. Qed.

Lemma code_chr z : 0 ≤ z < 256 → code (chr z) = z.
Proof. intros H. unfold code, chr. rewrite N_ascii_embedding; lia. Qed.

Lemma chr_code c : chr (code c) = c.
Proof. unfold code, chr. by rewrite N2Z.id, ascii_N_embedding. Qed.

Lemma code_inj c d : code c = code d → c = d.
Proof. intros H. by rewrite <-(chr_code c), H, chr_code. Qed.

(** ** Integers of a fixed width *)

Fixpoint le_pack (w : nat) (z : Z) : bytes :=
  match w with
  | O => []
  | S w => chr (z mod 256) :: le_pack w (z / 256)
  end.

(** [int.from_bytes(bs, 'little')] *)
Fixpoint le_unpack (bs : bytes) : Z :=
  match bs with
  | [] => 0
  | c :: bs => code c + 256 * le_unpack bs
  end.

(** [int.from_bytes(bs, 'big')] *)
Definition be_unpack (bs : bytes) : Z := foldl (λ acc c, 256 * acc + code c) 0 bs.
Definition be_pack (n : nat) (z : Z) : bytes := rev (le_pack n z).

Definition width (w : nat) : Z := 256 ^ Z.of_nat w.

Lemma width_S w : width (S w) = 256 * width w.
Proof. unfold width. rewrite Nat2Z.inj_succ, Z.pow_succ_r; lia. Qed.

Lemma width_pos w : 0 < width w.
Proof. unfold width. apply Z.pow_pos_nonneg; lia. Qed.

Lemma length_le_pack w z : length (le_pack w z) = w.
Proof. revert z. induction w as [|w IH]; intros z; simpl; [done|]. by rewrite IH. Qed.

Lemma le_unpack_bounds bs : 0 ≤ le_unpack bs < width (length bs).
Proof.
  induction bs as [|c bs IH]; [done|]. simpl length. rewrite width_S. cbn [le_unpack].
  pose proof (code_bounds c). lia.
Qed.

Lemma le_unpack_pack w : ∀ z, 0 ≤ z < width w → le_unpack (le_pack w z) = z.
Proof.
  induction w as [|w IH]; intros z Hz; cbn [le_pack le_unpack].
  { unfold width in Hz. simpl in Hz. lia. }
  rewrite width_S in Hz. pose proof (Z.mod_pos_bound z 256). pose proof (Z.div_mod z 256).
  rewrite code_chr, IH by (try apply Z.mod_pos_bound; try split;
    try apply Z.div_pos; try apply Z.div_lt_upper_bound; lia). lia.
Qed.

Lemma le_pack_unpack bs : le_pack (length bs) (le_unpack bs) = bs.
Proof.
  induction bs as [|c bs IH]; [done|]. cbn [le_unpack length le_pack].
  pose proof (code_bounds c).
  rewrite (Z.mul_comm 256), Z.mod_add, Z.div_add, Z.mod_small, Z.div_small by lia.
  by rewrite chr_code, Z.add_0_l, IH.
Qed.

Lemma le_pack_zero w : le_pack w 0 = zeros w.
Proof. induction w as [|w IH]; [done|]. cbn [le_pack]. by rewrite Z.div_0_l, IH by lia. Qed.

Lemma be_unpack_snoc bs c : be_unpack (bs ++ [c]) = 256 * be_unpack bs + code c.
Proof. unfold be_unpack. by rewrite foldl_snoc. Qed.

Lemma be_unpack_bounds bs : 0 ≤ be_unpack bs < width (length bs).
Proof.
  induction bs as [|c bs IH] using rev_ind; [done|].
  rewrite be_unpack_snoc, length_app, Nat.add_1_r, width_S. pose proof (code_bounds c). lia.
Qed.

Lemma be_unpack_rev bs : be_unpack bs = le_unpack (rev bs).
Proof.
  induction bs as [|c bs IH] using rev_ind; [done|].
  rewrite be_unpack_snoc, rev_app_distr. cbn [rev app le_unpack]. lia.
Qed.

Lemma length_be_pack n z : length (be_pack n z) = n.
Proof. unfold be_pack. by rewrite length_rev, length_le_pack. Qed.

Lemma be_pack_unpack bs : be_pack (length bs) (be_unpack bs) = bs.
Proof.
  unfold be_pack. rewrite be_unpack_rev, <-(length_rev bs), le_pack_unpack. apply rev_involutive.
Qed.

Lemma be_unpack_pack n z : 0 ≤ z < width n → be_unpack (be_pack n z) = z.
Proof. intros H. unfold be_pack. rewrite be_unpack_rev, rev_involutive. by apply le_unpack_pack. Qed.

Lemma be_unpack_inj bs cs :
  length bs = length cs → be_unpack bs = be_unpack cs → bs = cs.
Proof.
  rewrite !be_unpack_rev. intros Hl He.
  rewrite <-(rev_involutive bs), <-(rev_involutive cs). f_equal.
  rewrite <-(le_pack_unpack (rev bs)), <-(le_pack_unpack (rev cs)), He.
  by rewrite !length_rev, Hl.
Qed.

(** ** [struct]

    [FUint w] is an unsigned little-endian integer of [w] bytes ([B], [H],
    [I], [Q] are the widths 1, 2, 4, 8), [FRaw n] is [ns] and [FPad n] is
    [nx]. *)

Inductive field := FUint (w : nat) | FRaw (n : nat) | FPad (n : nat).
Definition format := list field.

Definition B_ := FUint 1.
Definition H_ := FUint 2.
Definition I_ := FUint 4.
Definition Q_ := FUint 8.

Fixpoint tuple (f : format) : Type :=
  match f with
  | [] => unit
  | FUint _ :: f => Z * tuple f
  | FRaw _ :: f => bytes * tuple f
  | FPad _ :: f => tuple f
  end.

Fixpoint calcsize (f : format) : nat :=
  match f with
  | [] => 0
  | (FUint n | FRaw n | FPad n) :: f => n + calcsize f
  end.

(** [struct.pack]: an integer outside the width is a [struct.error]; an [s]
    field is truncated or filled with zeros. *)
Fixpoint pack (f : format) : tuple f → result bytes :=
  match f return tuple f → result bytes with
  | [] => λ _, Ok []
  | FUint w :: f => λ v,
      _ ← fail_if (negb ((0 <=? v.1) && (v.1 <? width w))) StructError "argument out of range";
      app (le_pack w v.1) <$> pack f v.2
  | FRaw n :: f => λ v, app (take n (v.1 ++ zeros n)) <$> pack f v.2
  | FPad n :: f => λ v, app (zeros n) <$> pack f v
  end.

(** The fields of a string of at least [calcsize f] bytes. *)
Fixpoint fields (f : format) (bs : bytes) : tuple f :=
  match f return tuple f with
  | [] => tt
  | FUint w :: f => (le_unpack (take w bs), fields f (drop w bs))
  | FRaw n :: f => (take n bs, fields f (drop n bs))
  | FPad n :: f => fields f (drop n bs)
  end.

(** [struct.unpack] and [struct.unpack_from]. *)
Definition unpack (f : format) (bs : bytes) : result (tuple f) :=
  _ ← fail_if (negb (length bs =? calcsize f)%nat) StructError "unpack requires an exact buffer";
  Ok (fields f bs).
Definition unpack_from (f : format) (bs : bytes) (offset : nat) : result (tuple f) :=
  _ ← fail_if (length bs <? offset + calcsize f)%nat StructError "unpack_from requires a buffer";
  Ok (fields f (drop offset bs)).

(** The tuples that [pack] accepts unchanged. *)
Fixpoint exact_tuple (f : format) : tuple f → Prop :=
  match f return tuple f → Prop with
  | [] => λ _, True
  | FUint w :: f => λ v, 0 ≤ v.1 < width w ∧ exact_tuple f v.2
  | FRaw n :: f => λ v, length v.1 = n ∧ exact_tuple f v.2
  | FPad n :: f => λ v, exact_tuple f v
  end.

(** The padding bytes of a packed string are zero. *)
Fixpoint zero_padding (f : format) (bs : bytes) : Prop :=
  match f with
  | [] => True
  | (FUint n | FRaw n) :: f => zero_padding f (drop n bs)
  | FPad n :: f => take n bs = zeros n ∧ zero_padding f (drop n bs)
  end.

Lemma pack_exact f : ∀ v, exact_tuple f v → ∃ bs, pack f v = Ok bs ∧ length bs = calcsize f.
Proof.
  induction f as [|[w|n|n] f IH]; simpl.
  - intros v _. by exists [].
  - intros [z v] [Hz Hv]. simpl in *. destruct (IH v Hv) as (bs & -> & Hl).
    assert ((0 <=? z) && (z <? width w) = true) as -> by lia. simpl.
    eexists. split; [done|]. rewrite length_app, length_le_pack. lia.
  - intros [b v] [Hb Hv]. simpl in *. destruct (IH v Hv) as (bs & -> & Hl). simpl.
    eexists. split; [done|]. rewrite length_app, length_take, length_app. unfold zeros.
    rewrite length_replicate. lia.
  - intros v Hv. destruct (IH v Hv) as (bs & -> & Hl). simpl. eexists. split; [done|].
    unfold zeros. rewrite length_app, length_replicate. lia.
Qed.

Lemma fields_pack f : ∀ v bs rest, exact_tuple f v → pack f v = Ok bs → fields f (bs ++ rest) = v.
Proof.
  induction f as [|[w|n|n] f IH]; simpl; intros v bs rest.
  - by destruct v.
  - destruct v as [z v]. simpl. intros [Hz Hv].
    assert ((0 <=? z) && (z <? width w) = true) as -> by lia. simpl.
    rewrite fmap_Ok. intros (cs & Hp & ->). rewrite <-app_assoc.
    rewrite take_app_length', drop_app_length' by by rewrite length_le_pack.
    by rewrite le_unpack_pack, (IH v) by done.
  - destruct v as [b v]. simpl. intros [Hb Hv]. rewrite fmap_Ok. intros (cs & Hp & ->).
    rewrite (take_app_length' b) by done.
    rewrite <-app_assoc, take_app_length', drop_app_length' by done. by rewrite (IH v).
  - intros Hv. rewrite fmap_Ok. intros (cs & Hp & ->). rewrite <-app_assoc.
    rewrite drop_app_length' by (unfold zeros; by rewrite length_replicate). by apply IH.
Qed.

Lemma fields_exact f : ∀ bs, (calcsize f ≤ length bs)%nat → exact_tuple f (fields f bs).
Proof.
  induction f as [|[w|n|n] f IH]; simpl; intros bs Hl; [done| | |].
  - split; [|apply IH; rewrite length_drop; lia].
    pose proof (le_unpack_bounds (take w bs)) as H.
    rewrite length_take, Nat.min_l in H by lia. done.
  - rewrite length_take. split; [lia|]. apply IH. rewrite length_drop. lia.
  - apply IH. rewrite length_drop. lia.
Qed.

Lemma pack_fields f : ∀ bs, (calcsize f ≤ length bs)%nat → zero_padding f bs →
  pack f (fields f bs) = Ok (take (calcsize f) bs).
Proof.
  induction f as [|[w|n|n] f IH]; simpl; intros bs Hl Hz; [done| | |].
  - pose proof (le_unpack_bounds (take w bs)) as H.
    rewrite length_take, Nat.min_l in H by lia.
    assert ((0 <=? le_unpack (take w bs)) && (le_unpack (take w bs) <? width w) = true) as -> by lia.
    rewrite IH by (try done; rewrite length_drop; lia). simpl. f_equal.
    rewrite <-(take_take_drop bs w). f_equal.
    rewrite <-(le_pack_unpack (take w bs)) at 2. by rewrite length_take, Nat.min_l by lia.
  - rewrite IH by (try done; rewrite length_drop; lia). simpl. f_equal.
    rewrite <-(take_take_drop bs n). by rewrite take_app_length' by (rewrite length_take; lia).
  - destruct Hz as [Hz1 Hz2]. rewrite IH by (try done; rewrite length_drop; lia). simpl. f_equal.
    by rewrite <-Hz1, take_take_drop.
Qed.

(** The packed string itself, for tuples in range. *)
Definition packed (f : format) (v : tuple f) : bytes :=
  match pack f v with Ok bs => bs | Raise _ => [] end.

Lemma pack_packed f v : exact_tuple f v → pack f v = Ok (packed f v).
Proof. intros Hv. unfold packed. by destruct (pack_exact f v Hv) as (bs & -> & _). Qed.

Lemma length_packed f v : exact_tuple f v → length (packed f v) = calcsize f.
Proof. intros Hv. unfold packed. by destruct (pack_exact f v Hv) as (bs & -> & Hl). Qed.

Lemma fields_packed f v rest : exact_tuple f v → fields f (packed f v ++ rest) = v.
Proof. intros Hv. apply fields_pack; [done|by apply pack_packed]. Qed.

Lemma packed_fields f bs : (calcsize f ≤ length bs)%nat → zero_padding f bs →
  packed f (fields f bs) = take (calcsize f) bs.
Proof. intros Hl Hz. unfold packed. by rewrite pack_fields. Qed.

Lemma unpack_Ok f bs v : unpack f bs = Ok v ↔ length bs = calcsize f ∧ v = fields f bs.
Proof.
  unfold unpack. rewrite bind_Ok. setoid_rewrite fail_if_Ok.
  rewrite <-Nat.eqb_eq. destruct (_ =? _)%nat; naive_solver.
Qed.

Lemma unpack_from_Ok f bs o v :
  unpack_from f bs o = Ok v ↔ (o + calcsize f ≤ length bs)%nat ∧ v = fields f (drop o bs).
Proof.
  unfold unpack_from. rewrite bind_Ok. setoid_rewrite fail_if_Ok.
  rewrite <-Nat.ltb_ge. destruct (_ <? _)%nat; naive_solver.
Qed.

Lemma unpack_raises C f bs : length bs = calcsize f → raises C (unpack f bs).
Proof. intros Hl. unfold unpack. apply Nat.eqb_eq in Hl as ->. by intros x. Qed.

Lemma unpack_from_raises C f bs o : (o + calcsize f ≤ length bs)%nat → raises C (unpack_from f bs o).
Proof. intros Hl. unfold unpack_from. apply Nat.ltb_ge in Hl as ->. by intros x. Qed.

(** [raises_run] continues through [struct] with these. *)
Ltac unpack_raises :=
  match goal with
  | |- raises _ (unpack ?f _) => apply (unpack_raises _ f)
  | |- raises _ (unpack_from ?f _ _) => apply (unpack_from_raises _ f)
  end.

(** ** Decoders that invert an encoder exactly *)

Class Wire {A} (valid : A → Prop) (enc : A → bytes) (dec : bytes → result A) := {
  wire_decode a : valid a → dec (enc a) = Ok a;
  wire_encode bs a : dec bs = Ok a → valid a ∧ enc a = bs }.

Section wire.
Context {A : Type} {valid : A → Prop} {enc : A → bytes} {dec : bytes → result A}.
Context `{!Wire valid enc dec}.

(** The accepted strings are the encodings of the valid values. *)
Lemma wire_accepts bs a : dec bs = Ok a ↔ valid a ∧ bs = enc a.
Proof.
  split.
  - intros Hd. destruct (wire_encode bs a Hd) as [? <-]. done.
  - intros [Hv ->]. by apply wire_decode.
Qed.

(** No two strings decode to the same value, and no two valid values have
    the same encoding. *)
Lemma wire_canonical bs cs a : dec bs = Ok a → dec cs = Ok a → bs = cs.
Proof. rewrite !wire_accepts. by intros [_ ->] [_ ->]. Qed.

Lemma wire_injective a b : valid a → valid b → enc a = enc b → a = b.
Proof.
  intros Ha Hb He. pose proof (wire_decode a Ha) as H1. rewrite He, (wire_decode b Hb) in H1.
  by simplify_eq.
Qed.
End wire.
