(* ===== verification/KeyedArchive.v ===== *)
(** * Keyed archives

    The values [plistlib] exchanges with the codecs of
    [src/src/t2_catacomb_codec.py] and [src/src/t2_catacomb_oracle.py], and
    the traversal both use to accept an [NSKeyedArchiver] object table: every
    object is reachable from the top dictionary and no object contains itself.
    A dictionary keeps its members in order; a [datetime] and [None] are only
    ever rejected.  Floats are the binary64 numbers of the Standard Library's
    specification. *)
From S2P Require Import Prelude PyValue Effect Bytes.
From Stdlib Require Export Floats.SpecFloat.

#[local] Open Scope Z_scope.
#[local] Set Warnings "-register-all".

Inductive plist :=
  | PNone
  | PBool (b : bool)
  | PInt (z : Z)
  | PFloat (f : spec_float)
  | PStr (s : string)
  | PBytes (b : bytes)
  | PDate
  | PUid (data : Z)
  | PList (l : list plist)
  | PDict (d : list (string * plist)).

Section plist_ind.
Context (P : plist → Prop) (Hleaf : ∀ v, match v with PList _ | PDict _ => False | _ => True end → P v)
  (Hlist : ∀ l, Forall P l → P (PList l)) (Hdict : ∀ d, Forall (λ kv, P kv.2) d → P (PDict d)).
Fixpoint plist_nested_ind (v : plist) : P v :=
  match v with
  | PList l => Hlist l ((fix go l := match l return Forall P l with
                                     | [] => Forall_nil_2 _
                                     | v :: l => Forall_cons_2 _ _ _ (plist_nested_ind v) (go l) end) l)
  | PDict d => Hdict d ((fix go d := match d return Forall (λ kv, P kv.2) d with
                                     | [] => Forall_nil_2 _
                                     | (k, v) :: d => Forall_cons_2 (λ kv, P kv.2) (k, v) d (plist_nested_ind v) (go d) end) d)
  | v => Hleaf v I
  end.
End plist_ind.

(** ** Python operations on these values *)

(** [len(value.encode("utf-8"))] for code points below 256. *)
Fixpoint utf8_length (s : string) : nat :=
  match s with
  | ""%string => 0%nat
  | String c s => ((if (code c <? 128)%Z then 1 else 2) + utf8_length s)%nat
  end.

(** [float(z)], exact to nearest, ties to even; infinite when Python raises
    [OverflowError]. *)
Definition float_of_int (z : Z) : spec_float := binary_normalize 53 1024 z 0 false.
Definition isfinite (f : spec_float) : bool :=
  match f with S754_zero _ | S754_finite _ _ _ => true | _ => false end.

(** [float(value)] of a finite number, [bad] for anything else.  [math.isfinite]
    of an integer beyond the range of floats raises. *)
Definition finite_number (bad : exn) (v : plist) : result spec_float :=
  match v with
  | PInt z => if isfinite (float_of_int z) then Ok (float_of_int z)
              else raise OverflowError "int too large to convert to float"
  | PFloat f => if isfinite f then Ok f else Raise bad
  | _ => Raise bad
  end.

(** [value == z] and [value == s]. *)
Definition eq_int (v : plist) (z : Z) : bool :=
  match v with
  | PInt n => n =? z
  | PBool b => (if b then 1 else 0) =? z
  | PFloat f => SFeqb f (float_of_int z)
  | _ => false
  end.
Definition eq_text (v : plist) (s : string) : bool :=
  match v with PStr t => String.eqb t s | _ => false end.
Fixpoint eq_texts (l : list plist) (names : list string) : bool :=
  match l, names with
  | [], [] => true
  | v :: l, s :: names => eq_text v s && eq_texts l names
  | _, _ => false
  end.

(** [value.get(key)], and [value[key]] of a key that is present. *)
Fixpoint member (d : list (string * plist)) (key : string) : plist :=
  match d with
  | [] => PNone
  | (k, v) :: d => if String.eqb k key then v else member d key
  end.
Definition keys_of (d : list (string * plist)) : gset string := list_to_set d.*1.
Definition keys_are (d : list (string * plist)) (keys : gset string) : bool := bool_decide (keys_of d = keys).

(** ** The object table *)

Section archive.
Context (objects : list plist).

(** [0 <= value.data < len(objects)] for a [plistlib.UID] *)
Definition ref_index (bad : exn) (v : plist) : result nat :=
  match v with
  | PUid data => if (0 <=? data) && (data <? Z.of_nat (length objects)) then Ok (Z.to_nat data) else Raise bad
  | _ => Raise bad
  end.

Definition object_at (i : nat) : plist := default PNone (objects !! i).

(** ** The traversal *)

Record walk := Walk { reached : gset nat; active : gset nat }.

(** [visit].  Each turn follows one reference more, into an object that is
    not active yet, so as many turns as there are objects are enough. *)
Fixpoint visit (bad cycle : exn) (fuel : nat) : plist → walk → result walk :=
  fix visit_value (v : plist) (w : walk) : result walk :=
    match v with
    | PUid _ =>
        index ← ref_index bad v;
        if (index =? 0)%nat then Ok w
        else if bool_decide (index ∈ active w) then Raise cycle
        else if bool_decide (index ∈ reached w) then Ok w
        else match fuel with
        | O => raise AssertionError "out of fuel"
        | S fuel =>
            w ← visit bad cycle fuel (object_at index) (Walk (reached w) ({[index]} ∪ active w));
            Ok (Walk ({[index]} ∪ reached w) (active w ∖ {[index]}))
        end
    | PDict d => (fix values d w := match d with
                                    | [] => Ok w
                                    | (_, child) :: d => w ← visit_value child w; values d w
                                    end) d w
    | PList l => (fix elements l w := match l with
                                      | [] => Ok w
                                      | child :: l => w ← visit_value child w; elements l w
                                      end) l w
    | _ => Ok w
    end.

Definition require_reachable (bad cycle unreachable : exn) (top : plist) : result unit :=
  w ← visit bad cycle (length objects) top (Walk ∅ ∅);
  if bool_decide (reached w = set_seq 1 (length objects - 1)) then Ok tt else Raise unreachable.

(** ** What it accepts *)

(** The references of a value. *)
Fixpoint uids (v : plist) : list Z :=
  match v with
  | PUid data => [data]
  | PList l => (fix elements l := match l with [] => [] | v :: l => uids v ++ elements l end) l
  | PDict d => (fix values d := match d with [] => [] | (_, v) :: d => uids v ++ values d end) d
  | _ => []
  end.

Definition in_range (v : plist) : Prop := ∀ z, z ∈ uids v → 0 ≤ z < Z.of_nat (length objects).
(** The objects a value refers to, the null object left out. *)
Definition refers (v : plist) (j : nat) : Prop := j ≠ 0%nat ∧ Z.of_nat j ∈ uids v.
Definition contains (i j : nat) : Prop := refers (object_at i) j.
Definition reachable (top : plist) (j : nat) : Prop := ∃ i, refers top i ∧ rtc contains i j.

Record archive_graph (top : plist) : Prop := {
  graph_top : in_range top;
  graph_range : ∀ j, reachable top j → in_range (object_at j);
  graph_acyclic : ∀ j, reachable top j → ¬ tc contains j j;
  graph_covers : ∀ j, (0 < j < length objects)%nat → reachable top j;
}.

(** ** Proof of the traversal *)

Lemma uids_list l : uids (PList l) = mjoin (uids <$> l).
Proof. induction l as [|v l IH]; [done|]. exact (f_equal (app (uids v)) IH). Qed.
Lemma uids_dict d : uids (PDict d) = mjoin (uids <$> d.*2).
Proof. induction d as [|[k v] d IH]; [done|]. exact (f_equal (app (uids v)) IH). Qed.

Lemma visit_list bad cycle fuel l w :
  visit bad cycle fuel (PList l) w = fold_result (λ w v, visit bad cycle fuel v w) w l.
Proof.
  destruct fuel; revert w; induction l as [|v l IH]; intros w; [done| |done|]; simpl;
    (destruct (_ v w) as [w'|]; [|done]); apply IH.
Qed.
Lemma visit_dict bad cycle fuel d w :
  visit bad cycle fuel (PDict d) w = fold_result (λ w v, visit bad cycle fuel v w) w d.*2.
Proof.
  destruct fuel; revert w; induction d as [|[k v] d IH]; intros w; [done| |done|]; simpl;
    (destruct (_ v w) as [w'|]; [|done]); apply IH.
Qed.
Lemma visit_leaf bad cycle fuel v w :
  match v with PUid _ | PList _ | PDict _ => False | _ => True end → visit bad cycle fuel v w = Ok w.
Proof. by destruct fuel, v. Qed.
Lemma uids_leaf v : match v with PUid _ | PList _ | PDict _ => False | _ => True end → uids v = [].
Proof. by destruct v. Qed.

(** What has been reached is complete: its references are in range, lead
    nowhere else, and never back. *)
Definition settled (R : gset nat) : Prop := ∀ i, i ∈ R →
  (0 < i < length objects)%nat ∧ in_range (object_at i) ∧ (∀ j, contains i j → j ∈ R) ∧ ¬ tc contains i i.

Lemma settled_rtc R i j : settled R → i ∈ R → rtc contains i j → j ∈ R.
Proof. intros HR Hi. induction 1 as [|x y z Hxy _ IH]; [done|]. apply IH. by apply (HR x Hi). Qed.

Lemma settled_add R i : settled R → i ∉ R → (0 < i < length objects)%nat → in_range (object_at i) →
  (∀ j, contains i j → j ∈ R) → settled ({[i]} ∪ R).
Proof.
  intros HR Hi Hlen Hin Hc j [->%elem_of_singleton|Hj]%elem_of_union.
  - split; [done|split; [done|split; [set_solver|]]]. intros Htc. apply Hi.
    inversion Htc as [? ? He|? k ? Hk Hrest]; subst; [by apply Hc|].
    apply (settled_rtc R k); [done|by apply Hc|by apply tc_rtc].
  - destruct (HR j Hj) as (? & ? & ? & ?). split; [done|split; [done|split; [set_solver|done]]].
Qed.

Lemma ref_index_Ok bad z i : ref_index bad (PUid z) = Ok i ↔ 0 ≤ z < Z.of_nat (length objects) ∧ i = Z.to_nat z.
Proof.
  simpl. destruct (Z.leb_spec 0 z), (Z.ltb_spec z (Z.of_nat (length objects))); simpl;
    (split; [intros Hr; first [discriminate Hr|injection Hr as <-; split; [lia|done]]|intros [? ->]; done || lia]).
Qed.

(** What a traversal of the values [vs] has done to [w]. *)
Record visited (vs : list plist) (w w' : walk) : Prop := {
  visited_active : active w' = active w;
  visited_more : reached w ⊆ reached w';
  visited_apart : reached w' ## active w';
  visited_settled : settled (reached w');
  visited_range : Forall in_range vs;
  visited_all : ∀ v j, v ∈ vs → refers v j → j ∈ reached w';
  visited_only : ∀ j, j ∈ reached w' → j ∈ reached w ∨ ∃ v, v ∈ vs ∧ reachable v j;
}.

Lemma visited_nil w : reached w ## active w → settled (reached w) → visited [] w w.
Proof. split; try done; [|by left]. by intros ? ? ?%not_elem_of_nil. Qed.

Lemma visited_cons v vs w1 w2 w3 : visited [v] w1 w2 → visited vs w2 w3 → visited (v :: vs) w1 w3.
Proof.
  intros [A1 M1 D1 S1 R1 L1 O1] [A2 M2 D2 S2 R2 L2 O2]. split; [congruence|set_solver|done|done|..].
  - constructor; [exact (proj1 (Forall_singleton _ _) R1)|done].
  - intros u j [->|Hu]%elem_of_cons Hj; [|by apply (L2 u)]. apply M2. apply (L1 v); [by left|done].
  - intros j [Hj|(u & Hu & ?)]%O2; [apply O1 in Hj as [?|(u & ->%list_elem_of_singleton & ?)]|].
    + by left.
    + right. exists v. split; [by left|done].
    + right. exists u. split; [by right|done].
Qed.

Lemma visited_fold (f : walk → plist → result walk) vs : ∀ w w',
  Forall (λ v, ∀ w w', f w v = Ok w' → reached w ## active w → settled (reached w) → visited [v] w w') vs →
  fold_result f w vs = Ok w' → reached w ## active w → settled (reached w) → visited vs w w'.
Proof.
  induction vs as [|v vs IH]; intros w w' Hf Hw Hd Hs; simpl in Hw.
  - injection Hw as <-. by apply visited_nil.
  - apply Forall_cons in Hf as [Hv Hvs]. apply bind_Ok in Hw as (w1 & H1 & H2).
    specialize (Hv _ _ H1 Hd Hs). apply (visited_cons _ _ _ w1); [done|].
    apply IH; [done|done|apply Hv..].
Qed.

(** Whatever the references of [v] are, only the sublists matter. *)
Lemma visited_same vs v w w' : uids v = mjoin (uids <$> vs) → visited vs w w' → visited [v] w w'.
Proof.
  intros Hu [A M D S R L O].
  assert (Href : ∀ z, z ∈ uids v ↔ ∃ u, u ∈ vs ∧ z ∈ uids u).
  { intros z. rewrite Hu, list_elem_of_join. setoid_rewrite list_elem_of_fmap. naive_solver. }
  split; try done.
  - apply Forall_singleton. intros z (u & Hu' & Hz)%Href. rewrite Forall_forall in R. by apply (R u).
  - intros ? j ->%list_elem_of_singleton [Hj (u & Hu' & Hz)%Href]. by apply (L u).
  - intros j [?|(u & Hu' & i & [Hi Hz] & Hrtc)]%O; [by left|right]. exists v. split; [by left|].
    exists i. split; [split; [done|]|done]. apply Href. eauto.
Qed.

Lemma visited_leaf v w : uids v = [] → reached w ## active w → settled (reached w) → visited [v] w w.
Proof. intros Hv ? ?. by apply (visited_same []); [|apply visited_nil]. Qed.

Lemma visit_uid bad cycle fuel z w :
  visit bad cycle fuel (PUid z) w =
    (index ← ref_index bad (PUid z);
     if (index =? 0)%nat then Ok w
     else if bool_decide (index ∈ active w) then Raise cycle
     else if bool_decide (index ∈ reached w) then Ok w
     else match fuel with
     | O => raise AssertionError "out of fuel"
     | S fuel =>
         w ← visit bad cycle fuel (object_at index) (Walk (reached w) ({[index]} ∪ active w));
         Ok (Walk ({[index]} ∪ reached w) (active w ∖ {[index]}))
     end).
Proof. by destruct fuel. Qed.

Lemma uid_refers bad z i : ref_index bad (PUid z) = Ok i →
  in_range (PUid z) ∧ ∀ j, refers (PUid z) j ↔ j ≠ 0%nat ∧ j = i.
Proof.
  intros [Hz ->]%ref_index_Ok. split; [by intros ? ->%list_elem_of_singleton|].
  intros j. unfold refers. simpl. rewrite list_elem_of_singleton. split; (intros [? ?]; split; [done|lia]).
Qed.

Lemma visited_uid z w : in_range (PUid z) → reached w ## active w → settled (reached w) →
  (∀ j, refers (PUid z) j → j ∈ reached w) → visited [PUid z] w w.
Proof.
  intros Hr Hd Hs Href. split; try done; [by apply Forall_singleton| |by left].
  intros ? j ->%list_elem_of_singleton. apply Href.
Qed.

Lemma visit_sound bad cycle fuel : ∀ v w w',
  visit bad cycle fuel v w = Ok w' → reached w ## active w → settled (reached w) → visited [v] w w'.
Proof.
  induction fuel as [|fuel IHf]; intros v; (induction v as [v Hl|l IH|d IH] using plist_nested_ind; intros w w' Hw Hd Hs;
    [|rewrite visit_list in Hw; apply (visited_same l); [apply uids_list|eapply (visited_fold (λ w v, visit bad cycle _ v w)); [exact IH|done..]]
     |rewrite visit_dict in Hw; apply (visited_same d.*2); [apply uids_dict|];
      eapply (visited_fold (λ w v, visit bad cycle _ v w)); [by apply Forall_fmap|done..]]).
  all: destruct v as [| | | | | | |z| |]; try (by destruct Hl);
    try (rewrite visit_leaf in Hw by done; injection Hw as <-; by apply visited_leaf).
  all: rewrite visit_uid in Hw; apply bind_Ok in Hw as (i & Hi & Hw); pose proof (uid_refers _ _ _ Hi) as [Hr Href];
    destruct (i =? 0)%nat eqn:Hi0;
      [injection Hw as <-; apply Nat.eqb_eq in Hi0; apply visited_uid; [done..|intros j [? ->]%Href; lia]|];
    apply Nat.eqb_neq in Hi0;
    destruct (bool_decide_reflect (i ∈ active w)) as [|Hact]; [done|];
    destruct (bool_decide_reflect (i ∈ reached w)) as [Hrch|Hrch];
      [injection Hw as <-; apply visited_uid; [done..|by intros j [? ->]%Href]|].
  { done. }
  apply bind_Ok in Hw as (w1 & Hv & [= <-]).
  apply IHf in Hv as [A M D S R L O]; simpl in *; [|set_solver|done]. rewrite A in *.
  assert (Hin : in_range (object_at i)) by exact (proj1 (Forall_singleton _ _) R).
  apply ref_index_Ok in Hi as [Hz ->].
  assert (Hself : reachable (PUid z) (Z.to_nat z)) by (exists (Z.to_nat z); split; [by apply Href|apply rtc_refl]).
  split; simpl.
  - set_solver.
  - set_solver.
  - set_solver.
  - apply settled_add; [done|set_solver|lia|done|]. intros j Hj. apply (L (object_at (Z.to_nat z))); [by left|done].
  - by apply Forall_singleton.
  - intros ? j ->%list_elem_of_singleton [_ ->]%Href. set_solver.
  - intros j [->%elem_of_singleton|[Hj|(u & ->%list_elem_of_singleton & k & Hk & Hkj)]%O]%elem_of_union; [| by left|].
    + right. exists (PUid z). split; [by left|done].
    + right. exists (PUid z). split; [by left|]. exists (Z.to_nat z). split; [by apply Href|].
      by apply (rtc_l _ _ k).
Qed.

(** The other direction: on a graph that is as it should be, nothing is
    raised and the turns are enough. *)
Definition sound_from (A : gset nat) (v : plist) : Prop :=
  in_range v
  ∧ (∀ j, reachable v j → in_range (object_at j) ∧ ¬ tc contains j j)
  ∧ (∀ a j, a ∈ A → refers v j → tc contains a j).

Definition below (A : gset nat) : Prop := ∀ i, i ∈ A → (0 < i < length objects)%nat.

Lemma below_size A : below A → (size A ≤ length objects - 1)%nat.
Proof.
  intros HA. rewrite <-(size_set_seq (C := gset nat) 1 (length objects - 1)). apply subseteq_size.
  intros i Hi%HA. apply elem_of_set_seq. lia.
Qed.

Lemma visit_fold_complete (f : walk → plist → result walk) A vs : ∀ w,
  (∀ v w w', f w v = Ok w' → reached w ## active w → settled (reached w) → visited [v] w w') →
  Forall (λ v, ∀ w, active w = A → reached w ## active w → settled (reached w) → ∃ w', f w v = Ok w') vs →
  active w = A → reached w ## active w → settled (reached w) → ∃ w', fold_result f w vs = Ok w'.
Proof.
  intros w Hsound. revert w. induction vs as [|v vs IH]; intros w Hf HA Hd Hs; simpl; [by exists w|].
  apply Forall_cons in Hf as [Hv Hvs]. destruct (Hv w HA Hd Hs) as [w1 H1]. rewrite H1. simpl.
  destruct (Hsound _ _ _ H1 Hd Hs) as [A1 _ D1 S1 _ _ _]. apply IH; [done|congruence|done|done].
Qed.

Lemma sound_from_part A v u : (∀ z, z ∈ uids u → z ∈ uids v) → sound_from A v → sound_from A u.
Proof.
  intros Hsub (H1 & H2 & H3). split; [|split].
  - intros z Hz. auto.
  - intros j (i & [? ?] & ?). apply H2. exists i. split; [split; auto|done].
  - intros a j Ha [? ?]. apply H3; [done|split; auto].
Qed.

Definition completes (bad cycle : exn) (fuel : nat) (v : plist) : Prop := ∀ w,
  reached w ## active w → settled (reached w) → below (active w) →
  (length objects ≤ fuel + size (active w))%nat → sound_from (active w) v → ∃ w', visit bad cycle fuel v w = Ok w'.

Lemma visit_children bad cycle fuel vs v w :
  uids v = mjoin (uids <$> vs) → Forall (completes bad cycle fuel) vs →
  reached w ## active w → settled (reached w) → below (active w) →
  (length objects ≤ fuel + size (active w))%nat → sound_from (active w) v →
  ∃ w', fold_result (λ w v, visit bad cycle fuel v w) w vs = Ok w'.
Proof.
  intros Hu Hvs Hd Hs Hb Hf Hv.
  apply (visit_fold_complete (λ w v, visit bad cycle fuel v w) (active w)); try done; [by intros; eapply visit_sound|].
  apply Forall_forall. intros u Hin w1 HA Hd1 Hs1. rewrite Forall_forall in Hvs. apply (Hvs u Hin w1 Hd1 Hs1); rewrite HA; try done.
  apply (sound_from_part _ v); [|done]. intros z Hz. rewrite Hu, list_elem_of_join. exists (uids u).
  split; [done|]. by apply list_elem_of_fmap_2.
Qed.

Lemma sound_from_uid A i v : sound_from A v → refers v i → sound_from ({[i]} ∪ A) (object_at i).
Proof.
  intros (H1 & H2 & H3) Hi.
  assert (Hri : reachable v i) by (exists i; split; [done|apply rtc_refl]).
  split; [by apply H2|split].
  - intros j (k & Hk & Hkj). apply H2. exists i. split; [done|]. by apply (rtc_l _ _ k).
  - intros a j [->%elem_of_singleton|Ha]%elem_of_union Hj; [by apply tc_once|].
    apply (tc_r _ i); [by apply H3|done].
Qed.

Lemma visit_complete bad cycle fuel : ∀ v, completes bad cycle fuel v.
Proof.
  induction fuel as [|fuel IHf]; intros v; (induction v as [v Hl|l IH|d IH] using plist_nested_ind;
    intros w Hd Hs Hb Hf Hv;
    [|rewrite visit_list; by apply (visit_children _ _ _ l (PList l)); [apply uids_list|..]
     |rewrite visit_dict; by apply (visit_children _ _ _ d.*2 (PDict d)); [apply uids_dict|apply Forall_fmap|..]]).
  all: destruct v as [| | | | | | |z| |]; try (by destruct Hl); try (rewrite visit_leaf by done; by eexists).
  all: destruct (proj1 Hv z) as [Hz Hz']; [by apply list_elem_of_singleton|].
  all: assert (Hi : ref_index bad (PUid z) = Ok (Z.to_nat z)) by (by apply ref_index_Ok);
    pose proof (uid_refers _ _ _ Hi) as [_ Href]; rewrite visit_uid, Hi; simpl.
  all: destruct (Nat.eqb_spec (Z.to_nat z) 0) as [|Hi0]; [by eexists|].
  all: assert (Hself : refers (PUid z) (Z.to_nat z)) by (by apply Href).
  all: destruct (bool_decide_reflect (Z.to_nat z ∈ active w)) as [Hact|Hact];
    [exfalso; apply (proj2 (proj1 (proj2 Hv) (Z.to_nat z) (ex_intro _ _ (conj Hself (rtc_refl _ _)))));
     by apply (proj2 (proj2 Hv))|].
  all: destruct (bool_decide_reflect (Z.to_nat z ∈ reached w)) as [Hrch|Hrch]; [by eexists|].
  all: assert (Hb' : below ({[Z.to_nat z]} ∪ active w))
    by (intros j [->%elem_of_singleton|?]%elem_of_union; [lia|by apply Hb]).
  all: pose proof (below_size _ Hb') as Hsz; rewrite size_union, size_singleton in Hsz by set_solver.
  - lia.
  - destruct (IHf (object_at (Z.to_nat z)) (Walk (reached w) ({[Z.to_nat z]} ∪ active w))) as [w' ->]; simpl;
      [set_solver|done|done|rewrite size_union, size_singleton by set_solver; lia|by apply (sound_from_uid _ _ (PUid z))|].
    by eexists.
Qed.

Lemma require_reachable_sound bad cycle unreachable top :
  require_reachable bad cycle unreachable top = Ok tt → archive_graph top.
Proof.
  unfold require_reachable. intros (w & Hw & Hc)%bind_Ok. destruct (bool_decide_reflect (reached w = set_seq 1 (length objects - 1))) as [Heq|]; [|done].
  apply visit_sound in Hw as [A M D S R L O]; simpl in *; [|set_solver|by intros i ?%not_elem_of_empty].
  assert (Hall : ∀ j, reachable top j → j ∈ reached w).
  { intros j (i & Hi & Hij). apply (settled_rtc _ i); [done|apply (L top); [by left|done]|done]. }
  split.
  + exact (proj1 (Forall_singleton _ _) R).
  + intros j Hj%Hall. by apply (S j).
  + intros j Hj%Hall. by apply (S j).
  + intros j Hj. destruct (O j) as [?%not_elem_of_empty|(v & ->%list_elem_of_singleton & ?)]; [|done|done].
    rewrite Heq. apply elem_of_set_seq. lia.
Qed.

Lemma require_reachable_complete bad cycle unreachable top :
  archive_graph top → require_reachable bad cycle unreachable top = Ok tt.
Proof.
  intros [Ht Hr Ha Hc]. unfold require_reachable.
  destruct (visit_complete bad cycle (length objects) top (Walk ∅ ∅)) as [w Hw]; simpl;
    [set_solver|by intros i ?%not_elem_of_empty|by intros i ?%not_elem_of_empty|lia| |].
  { split; [done|split; [by auto|by intros a j ?%not_elem_of_empty]]. }
  rewrite Hw. cbn [mbind result_bind].
  apply visit_sound in Hw as [A M D S R L O]; simpl in *; [|set_solver|by intros i ?%not_elem_of_empty].
  rewrite bool_decide_eq_true_2; [done|]. apply set_eq. intros j. rewrite elem_of_set_seq. split.
  + intros Hj%S. lia.
  + intros Hj. destruct (Hc j) as (i & Hi & Hij); [lia|].
    apply (settled_rtc _ i); [done|apply (L top); [by left|done]|done].
Qed.

(** C34: The traversal accepts an object table exactly when every reference met
    is in range, every object is reachable from the top dictionary, and no
    object contains itself, directly or through others. *)
Theorem require_reachable_exact bad cycle unreachable top :
  require_reachable bad cycle unreachable top = Ok tt ↔ archive_graph top.
Proof. split; [apply require_reachable_sound|apply require_reachable_complete]. Qed.
End archive.
