(* ===== verification/MutationJournal.v ===== *)
(** * The durable, append-only mutation journal ([src/src/t2_mutation_journal.py])

    Schema checks of evidence and of the reconciled baseline, the hash-chained
    record format, and the operations [append], [create] and [read] on a
    journal file.  The file system is explicit: the parent directory, the
    directory entry with the attributes [fstat] reports, and the result of
    every [os.write] and [os.fsync]. *)
From S2P Require Import Prelude PyValue Sha256 Json JsonFacts.

#[local] Open Scope Z_scope.

(** ** Constants *)

Definition FORMAT_VERSION : Z := 1.
Definition ALLOWED_KINDS : list string :=
  ["enroll"; "rename"; "delete-one"; "delete-batch"; "recovery";
   "sync-user-catacomb"; "reconcile-external-delete"].
Definition FORBIDDEN_KEY_PARTS : list string :=
  ["password"; "passcode"; "credential"; "secret"; "auth_token"].
Definition SAFE_SECURITY_METADATA_SUFFIXES : list string :=
  ["_verified"; "_digest"; "_hash"; "_present"].
Definition BASELINE_KEYS : list string :=
  ["baseline_version"; "caller_linux_uid"; "target_linux_uid"; "apple_uid";
   "account_uuid"; "bag_uuid"; "linux_boot_uuid"; "connection_generation";
   "bridge_boot_uuid"; "protocol_version"; "policy_decision";
   "identity_records"; "capacity"; "sep_catacomb"; "host_components";
   "master_enrollment_count"; "mapping_generation"; "backup_references";
   "double_collection_equal"; "password_fallback_verified"].

(** ** Values *)

Definition canonical (v : value) : result string :=
  match dumps v with
  | Some t => Ok t
  | None => raise JournalError "journal value is not canonical JSON"
  end.

(** [part in s]. *)
Fixpoint contains (part s : string) : bool :=
  String.prefix part s || match s with "" => false | String _ s => contains part s end.

(** [s.replace("-", "_")]. *)
Fixpoint dash_to_underscore (s : string) : string :=
  match s with
  | "" => ""
  | String c s => String (if Ascii.eqb c "-" then "_"%char else c) (dash_to_underscore s)
  end.

(** The key test of [reject_secrets]. *)
Definition secret_key (key : string) : bool :=
  let normalized := dash_to_underscore (str_lower key) in
  existsb (λ part, contains part normalized) FORBIDDEN_KEY_PARTS
  && negb (existsb (λ suffix, endswith suffix normalized) SAFE_SECURITY_METADATA_SUFFIXES).

(** Dictionary keys of the model are strings, so the non-string-key branch has
    no counterpart; items are visited in map order instead of insertion order,
    which only selects among several errors. *)
Fixpoint reject_secrets (v : value) (path : string) : result unit :=
  match v with
  | VDict d =>
      map_fold (λ key child acc,
        _ ← acc;
        _ ← fail_if (secret_key key) JournalError (path +:+ "." +:+ key +:+ " may contain secret material");
        reject_secrets child (path +:+ "." +:+ key)) (Ok tt) d
  | VList l =>
      (fix go (i : nat) (l : list value) : result unit :=
         match l with
         | [] => Ok tt
         | child :: l =>
             _ ← reject_secrets child (path +:+ "[" +:+ dec (Z.of_nat i) "]");
             go (S i) l
         end) O l
  | VBytes _ => raise JournalError (path +:+ " contains raw bytes")
  | _ => Ok tt
  end.

Definition record_hash (record_without_hash : value) : result string :=
  sha256_hex <$> canonical record_without_hash.

(** ** Field checks *)

Definition require_uuid (v : value) (field : string) : result unit :=
  match v with
  | VStr s =>
      match uuid_UUID s with
      | None => raise JournalError (field +:+ " is not a UUID")
      | Some parsed =>
          fail_if (negb (String.eqb (str_lower (uuid_str parsed)) (str_lower s)))
            JournalError (field +:+ " is not a canonical UUID")
      end
  | _ => raise JournalError (field +:+ " is not a UUID")
  end.

Definition require_sha256 (v : value) (field : string) : result unit :=
  match v with
  | VStr s =>
      _ ← fail_if (negb (String.length s =? 64)%nat) JournalError (field +:+ " is not a SHA-256 digest");
      match bytes_fromhex s with
      | Some _ => Ok tt
      | None => raise JournalError (field +:+ " is not a SHA-256 digest")
      end
  | _ => raise JournalError (field +:+ " is not a SHA-256 digest")
  end.

Definition require_nonnegative_int (v : value) (field : string) : result unit :=
  fail_if (negb (is_int v) || (int_value v <? 0)) JournalError
    (field +:+ " is not a non-negative integer").

(** ** The baseline schema *)

(** [f'{field}[{index}]']. *)
Definition indexed (field : string) (i : nat) : string :=
  field +:+ "[" +:+ dec (Z.of_nat i) "]".

(** [for index, item in enumerate(items)] threading the set built so far. *)
Fixpoint enumerate_fold {S A} (f : nat → S → A → result S) (i : nat) (s : S) (xs : list A) : result S :=
  match xs with
  | [] => Ok s
  | x :: xs => s' ← f i s x; enumerate_fold f (i + 1)%nat s' xs
  end.

Definition identity_key (identity : value) : Z * string :=
  (int_value (identity@["user_id"]), str_lower (str_value (identity@["uuid"]))).

Definition validate_identity (baseline : value) (index : nat) (seen : list (Z * string))
    (identity : value) : result (list (Z * string)) :=
  _ ← fail_if (negb (has_keys identity ["user_id"; "uuid"; "entity"])) JournalError
        (indexed "identity_records" index +:+ " has an invalid schema");
  _ ← require_nonnegative_int (identity@["user_id"]) (indexed "identity_records" index +:+ ".user_id");
  _ ← require_nonnegative_int (identity@["entity"]) (indexed "identity_records" index +:+ ".entity");
  _ ← require_uuid (identity@["uuid"]) (indexed "identity_records" index +:+ ".uuid");
  _ ← fail_if (bool_decide (identity_key identity ∈ seen)) JournalError
        "identity_records contains a duplicate";
  _ ← fail_if (identity@["user_id"] !=? baseline@["apple_uid"]) JournalError
        "identity record belongs to another Apple UID";
  Ok (identity_key identity :: seen).

Definition validate_identities (baseline : value) : result unit :=
  let identities := baseline@["identity_records"] in
  _ ← fail_if (negb (is_list identities)) JournalError "identity_records is not a list";
  _ ← enumerate_fold (validate_identity baseline) 0 [] (list_value identities);
  Ok tt.

Definition validate_capacity (baseline : value) : result unit :=
  let capacity := baseline@["capacity"] in
  _ ← fail_if (negb (has_keys capacity ["used"; "maximum"])) JournalError "capacity has an invalid schema";
  _ ← require_nonnegative_int (capacity@["used"]) "capacity.used";
  _ ← require_nonnegative_int (capacity@["maximum"]) "capacity.maximum";
  fail_if (negb (int_value (capacity@["used"]) =? Z.of_nat (length (list_value (baseline@["identity_records"]))))
           || (int_value (capacity@["maximum"]) <? int_value (capacity@["used"])))
    JournalError "capacity does not agree with identity inventory".

Definition validate_sep_catacomb (baseline : value) : result unit :=
  let sep := baseline@["sep_catacomb"] in
  _ ← fail_if (negb (has_keys sep ["present"; "uuid"; "hash"])) JournalError "sep_catacomb has an invalid schema";
  if is_true (sep@["present"]) then
    _ ← require_uuid (sep@["uuid"]) "sep_catacomb.uuid";
    require_sha256 (sep@["hash"]) "sep_catacomb.hash"
  else if is_false (sep@["present"]) then
    fail_if (negb (is_none (sep@["uuid"])) || negb (is_none (sep@["hash"]))) JournalError
      "absent SEP Catacomb has UUID/hash data"
  else raise JournalError "sep_catacomb.present is not boolean".

(** [f'user_{apple_uid:08x}.cat']. *)
Definition user_cat (apple_uid : value) : string := "user_" +:+ hex08 (int_value apple_uid) +:+ ".cat".

Definition component_name_set (baseline : value) : list string :=
  ["master.cat"; "biolockout.cat"; user_cat (baseline@["apple_uid"])].

Definition validate_component (baseline : value) (index : nat) (names : list string)
    (component : value) : result (list string) :=
  let field := indexed "host_components" index in
  _ ← fail_if (negb (has_keys component ["name"; "sha256"; "mode"; "uid"; "gid"])) JournalError
        (field +:+ " has an invalid schema");
  let name := component@["name"] in
  unexpected ← not_in_names name (component_name_set baseline);
  _ ← fail_if unexpected JournalError (field +:+ " has an unexpected name");
  _ ← fail_if (bool_decide (str_value name ∈ names)) JournalError "host_components contains a duplicate";
  _ ← require_sha256 (component@["sha256"]) (field +:+ ".sha256");
  _ ← for_each (λ f, require_nonnegative_int (component@[f]) (field +:+ "." +:+ f)) ["mode"; "uid"; "gid"];
  Ok (str_value name :: names).

Definition validate_components (baseline : value) : result unit :=
  let components := baseline@["host_components"] in
  _ ← fail_if (negb (is_list components)) JournalError "host_components is not a list";
  _ ← enumerate_fold (validate_component baseline) 0 [] (list_value components);
  Ok tt.

Definition validate_backup (index : nat) (_ : unit) (backup : value) : result unit :=
  let field := indexed "backup_references" index in
  _ ← fail_if (negb (has_keys backup ["reference"; "sha256"])) JournalError (field +:+ " has an invalid schema");
  _ ← fail_if (negb (is_str (backup@["reference"])) || negb (truthy (backup@["reference"]))) JournalError
        (field +:+ ".reference is invalid");
  require_sha256 (backup@["sha256"]) (field +:+ ".sha256").

Definition validate_backups (baseline : value) : result unit :=
  let backups := baseline@["backup_references"] in
  _ ← fail_if (negb (is_list backups) || negb (truthy backups)) JournalError
        "baseline has no verified backup references";
  enumerate_fold validate_backup 0 tt (list_value backups).

Definition validate_baseline (baseline : value) : result unit :=
  _ ← fail_if (negb (has_keys baseline BASELINE_KEYS)) JournalError "baseline fields do not match schema";
  _ ← fail_if (baseline@["baseline_version"] !=? VInt 1) JournalError "unsupported baseline version";
  _ ← for_each (λ field, require_nonnegative_int (baseline@[field]) field)
        ["caller_linux_uid"; "target_linux_uid"; "apple_uid"; "protocol_version"; "master_enrollment_count"];
  _ ← for_each (λ field, require_uuid (baseline@[field]) field)
        ["account_uuid"; "bag_uuid"; "linux_boot_uuid"; "connection_generation"];
  _ ← (if is_none (baseline@["bridge_boot_uuid"]) then Ok tt
       else require_uuid (baseline@["bridge_boot_uuid"]) "bridge_boot_uuid");
  _ ← fail_if (baseline@["policy_decision"] !=? VStr "authorized") JournalError
        "baseline policy decision is not authorized";
  _ ← fail_if (negb (is_true (baseline@["double_collection_equal"]))) JournalError
        "baseline was not reproduced by a second collection";
  _ ← fail_if (negb (is_bool (baseline@["password_fallback_verified"]))) JournalError
        "password fallback attestation is not Boolean";
  _ ← require_sha256 (baseline@["mapping_generation"]) "mapping_generation";
  _ ← validate_identities baseline;
  _ ← validate_capacity baseline;
  _ ← validate_sep_catacomb baseline;
  _ ← validate_components baseline;
  validate_backups baseline.

(** ** The record chain *)

Record chain_state := Chain {
  ch_records : list value;
  ch_previous_hash : value;
  ch_operation_id : value;
}.

(** [record.pop("record_hash", None)] leaves this dictionary. *)
Definition pop_hash (record : value) : value :=
  match record with VDict d => VDict (delete "record_hash" d) | v => v end.
Definition with_hash (record : value) (h : value) : value :=
  match record with VDict d => VDict (<["record_hash" := h]> d) | v => v end.

Definition seq_text (sequence : Z) : string := dec sequence "".

(** One iteration of the loop of [validate_records]; the sequence number is the
    number of records accepted so far. *)
Definition validate_line (st : chain_state) (line : string) : result chain_state :=
  let sequence := Z.of_nat (length (ch_records st)) in
  match loads line with
  | None => raise JournalError ("invalid journal JSON at sequence " +:+ seq_text sequence)
  | Some record0 =>
      _ ← fail_if (negb (is_dict record0)) JournalError
            ("journal record " +:+ seq_text sequence +:+ " is not an object");
      let supplied_hash := record0@["record_hash"] in
      let record := pop_hash record0 in
      _ ← fail_if (record@["format_version"] !=? VInt FORMAT_VERSION) JournalError
            ("unsupported journal format at sequence " +:+ seq_text sequence);
      _ ← fail_if (record@["sequence"] !=? VInt sequence) JournalError
            ("non-contiguous journal sequence at " +:+ seq_text sequence);
      _ ← fail_if (record@["previous_hash"] !=? ch_previous_hash st) JournalError
            ("broken journal hash chain at sequence " +:+ seq_text sequence);
      bad_hash ← Ok (negb (is_str supplied_hash)) ||!
                 ((λ h, negb (String.eqb (str_value supplied_hash) h)) <$> record_hash record);
      _ ← fail_if bad_hash JournalError ("invalid journal hash at sequence " +:+ seq_text sequence);
      let operation_id := if is_none (ch_operation_id st) then record@["operation_id"]
                          else ch_operation_id st in
      _ ← fail_if (record@["operation_id"] !=? operation_id) JournalError
            ("operation ID changed at sequence " +:+ seq_text sequence);
      Ok (Chain (ch_records st ++ [with_hash record supplied_hash]) supplied_hash operation_id)
  end.

Definition chain_start : chain_state := Chain [] VNone VNone.

Definition validate_records (lines : list string) : result (list value) :=
  st ← fold_result validate_line chain_start lines;
  Ok (ch_records st).

(** ** The journal file *)

(** [stream.readlines()]: the lines keep their newline; the last one may lack
    it. *)
Fixpoint readlines (s : string) : list string :=
  match s with
  | "" => []
  | String c s1 =>
      if Ascii.eqb c (chr 10) then String c "" :: readlines s1
      else match readlines s1 with
           | [] => [String c ""]
           | l :: ls => String c l :: ls
           end
  end.

(** What [os.fstat] reports of an entry, with its content. *)
Record file := File {
  f_content : string;
  f_regular : bool;
  f_uid : Z;
  f_nlink : Z;
  f_mode : Z;
}.
Record directory := Directory { d_isdir : bool; d_uid : Z; d_mode : Z }.

(** [Refused] is an entry that [os.open] with [O_NOFOLLOW] rejects. *)
Inductive entry := Absent | Present (f : file) | Refused.

Record fs := FS { fs_parent : option directory; fs_entry : entry }.

(** The results of the system calls of one append: each [os.write] returns a
    count or fails; an empty schedule writes everything at once. *)
Record io := IO { io_writes : list (option Z); io_fsync : bool; io_dirsync : bool }.
Definition io_ok : io := IO [] true true.

Definition set_content (f : file) (s : string) : file :=
  File s (f_regular f) (f_uid f) (f_nlink f) (f_mode f).
Definition set_mode (f : file) (m : Z) : file :=
  File (f_content f) (f_regular f) (f_uid f) (f_nlink f) m.

Definition group_or_other (mode : Z) : bool := negb (Z.land mode 63 =? 0).

Fixpoint str_drop (n : nat) (s : string) : string :=
  match n, s with S n, String _ s => str_drop n s | _, _ => s end.
Fixpoint str_take (n : nat) (s : string) : string :=
  match n, s with S n, String c s => String c (str_take n s) | _, _ => "" end.

(** The write loop: the text appended to the file, and how the loop ended. *)
Fixpoint write_loop (writes : list (option Z)) (payload : string) : string * result unit :=
  match payload with
  | "" => ("", Ok tt)
  | _ =>
      match writes with
      | [] => (payload, Ok tt)
      | None :: _ => ("", raise OSError "write")
      | Some count :: writes =>
          if (count <=? 0)%Z then ("", raise JournalError "journal append made no forward progress")
          else let n := Z.to_nat count in
               let '(done, r) := write_loop writes (str_drop n payload) in
               (str_take n payload +:+ done, r)
      end
  end.

(** [str.isascii] and [str.isalnum] on ASCII text. *)
Definition is_ascii (s : string) : bool := all_chars (λ c, code c <? 128) s.
Definition is_alnum_char (c : ascii) : bool :=
  let z := code c in
  ((48 <=? z) && (z <=? 57)) || ((65 <=? z) && (z <=? 90)) || ((97 <=? z) && (z <=? 122)).
Definition is_alnum (s : string) : bool := negb (String.eqb s "") && all_chars is_alnum_char s.

Definition valid_milestone (milestone : string) : bool :=
  negb (String.eqb milestone "") && is_ascii milestone && is_alnum (str_remove "_" milestone).

(** [expected_record_count] and [expected_previous_hash]: [None] is absent. *)
Definition check_guard (expected_count : option Z) (expected_hash : option value) : result unit :=
  _ ← fail_if (bool_decide (expected_count = None) && negb (bool_decide (expected_hash = None)))
        JournalError "guarded append hash requires an expected record count";
  fail_if (match expected_count with Some n => n <? 0 | None => false end) JournalError
    "expected record count is invalid".

Definition last_hash (records : list value) : value :=
  match last records with Some r => r@["record_hash"] | None => VNone end.

(** The unsigned record appended after [records]. *)
Definition next_record (operation_id milestone : string) (evidence : value)
    (records : list value) : value :=
  dict [("format_version", VInt FORMAT_VERSION);
        ("operation_id", VStr operation_id);
        ("sequence", VInt (Z.of_nat (length records)));
        ("previous_hash", last_hash records);
        ("milestone", VStr milestone);
        ("evidence", evidence)].

(** The checks made on the locked content, up to the payload to write. *)
Definition plan_append (content operation_id milestone : string) (evidence : value)
    (expected_count : option Z) (expected_hash : option value) : result (value * string) :=
  records ← validate_records (readlines content);
  _ ← fail_if (match expected_count with
               | Some n => negb (Z.of_nat (length records) =? n) | None => false end)
        JournalError "journal changed before the guarded append";
  _ ← fail_if (match expected_count with
               | Some _ => last_hash records !=? default VNone expected_hash | None => false end)
        JournalError "journal head changed before the guarded append";
  other ← match records with
          | first :: _ => (λ id, id !=? VStr operation_id) <$> item first "operation_id"
          | [] => Ok false
          end;
  _ ← fail_if other JournalError "journal belongs to another operation";
  let unsigned := next_record operation_id milestone evidence records in
  h ← record_hash unsigned;
  let record := with_hash unsigned (VStr h) in
  text ← canonical record;
  Ok (record, text +:+ String (chr 10) "").

(** The opened file, after [O_CREAT] and [O_EXCL]. *)
Definition open_append (euid : Z) (exclusive : bool) (e : entry) : result file :=
  match e with
  | Absent => Ok (File "" true euid 1 384)
  | Refused => raise OSError "open"
  | Present f => if exclusive then raise OSError "file exists" else Ok f
  end.

Definition check_parent (euid : Z) (d : directory) : result unit :=
  fail_if (negb (d_isdir d) || negb (d_uid d =? euid) || group_or_other (d_mode d)) JournalError
    "journal directory is not private and caller-owned".

Definition check_arguments (operation_id milestone : string) (evidence : value)
    (expected_count : option Z) (expected_hash : option value) : result unit :=
  _ ← check_guard expected_count expected_hash;
  _ ← fail_if (bool_decide (uuid_UUID operation_id = None)) JournalError "invalid operation UUID";
  _ ← fail_if (negb (valid_milestone milestone)) JournalError "invalid milestone name";
  reject_secrets evidence "entry".

(** [append]: the file system afterwards, and the appended record. *)
Definition append (euid : Z) (calls : io) (s : fs) (operation_id milestone : string)
    (evidence : value) (exclusive : bool) (expected_count : option Z)
    (expected_hash : option value) : fs * result value :=
  match check_arguments operation_id milestone evidence expected_count expected_hash with
  | Raise e => (s, Raise e)
  | Ok _ =>
      let parent := default (Directory true euid 448) (fs_parent s) in
      let s := FS (Some parent) (fs_entry s) in
      match check_parent euid parent with
      | Raise e => (s, Raise e)
      | Ok _ =>
          match open_append euid exclusive (fs_entry s) with
          | Raise e => (s, Raise e)
          | Ok f =>
              let opened := FS (Some parent) (Present f) in
              if negb (f_regular f) || negb (f_uid f =? euid) || negb (f_nlink f =? 1)
              then (opened, raise JournalError "journal is not a private caller-owned regular file")
              else
                let f := set_mode f 384 in
                match plan_append (f_content f) operation_id milestone evidence
                        expected_count expected_hash with
                | Raise e => (FS (Some parent) (Present f), Raise e)
                | Ok (record, payload) =>
                    let '(written, r) := write_loop (io_writes calls) payload in
                    let s := FS (Some parent) (Present (set_content f (f_content f +:+ written))) in
                    match r with
                    | Raise e => (s, Raise e)
                    | Ok _ => if io_fsync calls && io_dirsync calls then (s, Ok record)
                              else (s, raise OSError "fsync")
                    end
                end
          end
      end
  end.

(** [create]; [fresh] is the string of [uuid.uuid4()]. *)
Definition create (euid : Z) (calls : io) (fresh : string) (s : fs) (kind : string)
    (baseline : value) (operation_id : option string) : fs * result (string * value) :=
  let checks :=
    _ ← fail_if (bool_decide (kind ∉ ALLOWED_KINDS)) JournalError "unsupported mutation kind";
    _ ← fail_if (match fs_entry s with Present _ => true | _ => false end) JournalError
          "refusing to replace an existing journal";
    _ ← validate_baseline baseline;
    fail_if (String.eqb kind "enroll" && negb (is_true (baseline@["password_fallback_verified"])))
      JournalError "enrollment password fallback is not verified" in
  match checks with
  | Raise e => (s, Raise e)
  | Ok _ =>
      let operation_id := match operation_id with
                          | Some x => if String.eqb x "" then fresh else x | None => fresh end in
      let '(s, r) := append euid calls s operation_id "BASELINE_RECONCILED"
           (dict [("operation_kind", VStr kind); ("baseline", baseline)]) true None None in
      (s, (λ record, (operation_id, record)) <$> r)
  end.

Definition secure_regular_file (euid : Z) (e : entry) : bool :=
  match e with
  | Present f => f_regular f && (f_uid f =? euid) && (f_nlink f =? 1) && negb (group_or_other (f_mode f))
  | _ => false
  end.

Definition MAX_JOURNAL_BYTES : Z := 8 * 1024 * 1024.
Definition MAX_JOURNAL_RECORDS : Z := 4096.

Definition read (euid : Z) (e : entry) : result (list value) :=
  match e with
  | Absent | Refused => raise JournalError "cannot safely open mutation journal"
  | Present f =>
      _ ← fail_if (negb (f_regular f) || negb (f_uid f =? euid) || negb (f_nlink f =? 1)
                   || group_or_other (f_mode f)
                   || (MAX_JOURNAL_BYTES <? Z.of_nat (String.length (f_content f))))
            JournalError "mutation journal ownership, mode, or size is unsafe";
      let lines := readlines (f_content f) in
      _ ← fail_if (MAX_JOURNAL_RECORDS <? Z.of_nat (length lines)) JournalError
            "mutation journal has too many records";
      validate_records lines
  end.

(** ** Theorems: secret material *)

(** The values inside a value. *)
Inductive subvalue : value → value → Prop :=
  | sub_self v : subvalue v v
  | sub_list w x l : x ∈ l → subvalue w x → subvalue w (VList l)
  | sub_dict w k x d : d !! k = Some x → subvalue w x → subvalue w (VDict d).

(** No raw bytes and no secret key at the top of a value. *)
Definition harmless (w : value) : Prop :=
  match w with
  | VBytes _ => False
  | VDict d => map_Forall (λ k _, secret_key k = false) d
  | _ => True
  end.

Lemma reject_secrets_dict d path : reject_secrets (VDict d) path = Ok tt ↔
  map_Forall (λ key child, secret_key key = false
    ∧ reject_secrets child (path +:+ "." +:+ key) = Ok tt) d.
Proof.
  cbn [reject_secrets]. apply (map_fold_weak_ind (λ (r : result unit) m, r = Ok tt ↔
    map_Forall (λ key child, secret_key key = false
      ∧ reject_secrets child (path +:+ "." +:+ key) = Ok tt) m)).
  - split; [|done]. intros _ ? ?. by rewrite lookup_empty.
  - intros k x m r Hk IH. rewrite map_Forall_insert, <-IH by exact Hk.
    rewrite bind_Ok. setoid_rewrite bind_Ok. setoid_rewrite fail_if_Ok.
    split; [intros ([] & ? & [] & ? & ?)|intros ([? ?] & ?); exists tt; split; [|exists tt]]; auto.
Qed.

Lemma reject_secrets_list l path : reject_secrets (VList l) path = Ok tt ↔
  ∀ i x, l !! i = Some x → reject_secrets x (path +:+ "[" +:+ dec (Z.of_nat i) "]") = Ok tt.
Proof.
  cbn [reject_secrets].
  assert (∀ l i, (fix go (i : nat) (l : list value) : result unit :=
         match l with
         | [] => Ok tt
         | child :: l =>
             _ ← reject_secrets child (path +:+ "[" +:+ dec (Z.of_nat i) "]");
             go (S i) l
         end) i l = Ok tt ↔
     ∀ j x, l !! j = Some x → reject_secrets x (path +:+ "[" +:+ dec (Z.of_nat (i + j)) "]") = Ok tt) as Hgo.
  { clear l. induction l as [|y l IH]; intros i; [done|]. rewrite bind_Ok. split.
    - intros ([] & Hy & Hl) [|j] x; cbn; [intros [= <-]; by rewrite Nat.add_0_r|].
      rewrite IH in Hl. rewrite Nat.add_succ_r. apply Hl.
    - intros Hall. exists tt. split; [specialize (Hall O y eq_refl); by rewrite Nat.add_0_r in Hall|].
      apply IH. intros j x Hj. specialize (Hall (S j) x Hj). by rewrite Nat.add_succ_r in Hall. }
  apply Hgo.
Qed.

(** Accepted values have a canonical text. *)
Lemma reject_secrets_dumps v : ∀ path, reject_secrets v path = Ok tt → is_Some (dumps v).
Proof.
  induction v as [| b | z | s | s | l IH | d IH] using value_ind; intros path; try done.
  - by destruct b.
  - rewrite reject_secrets_list. intros Hl. cbn [dumps].
    assert (is_Some (mapM dumps l)) as [ts ->]; [|done].
    apply mapM_is_Some_2. rewrite Forall_lookup in IH |- *. intros i x Hi. exact (IH i x Hi _ (Hl i x Hi)).
  - rewrite reject_secrets_dict. intros Hd. cbn [dumps]. unfold all_some.
    rewrite bool_decide_eq_true_2; [done|]. intros k o Ho.
    rewrite lookup_fmap in Ho. destruct (d !! k) as [x|] eqn:Hx; [|done]. injection Ho as <-.
    exact (IH k x Hx _ (proj2 (Hd k x Hx))).
Qed.

(** [reject_secrets] is exact: it accepts a value if and only if no value
    nested anywhere inside it is raw bytes or has a key that may name secret
    material. *)
Theorem reject_secrets_exact v path :
  reject_secrets v path = Ok tt ↔ ∀ w, subvalue w v → harmless w.
Proof.
  revert path. induction v as [| b | z | s | s | l IH | d IH] using value_ind; intros path.
  1-4: by split; [intros _ w Hw; inversion Hw|].
  - split; [done|]. intros Hv. destruct (Hv _ (sub_self _)).
  - rewrite reject_secrets_list. rewrite Forall_lookup in IH. split.
    + intros Hl w Hw. inversion Hw as [|? x ? Hx Hsub|]; subst; [done|].
      apply list_elem_of_lookup in Hx as [i Hi]. exact (proj1 (IH i x Hi _) (Hl i x Hi) w Hsub).
    + intros Hv i x Hi. apply (IH i x Hi). intros w Hw. eapply Hv, sub_list, Hw.
      by eapply list_elem_of_lookup_2.
  - rewrite reject_secrets_dict. split.
    + intros Hd w Hw. inversion Hw as [| |? k x ? Hx Hsub]; subst.
      * intros k x Hx. exact (proj1 (Hd k x Hx)).
      * exact (proj1 (IH k x Hx _) (proj2 (Hd k x Hx)) w Hsub).
    + intros Hv k x Hx. split; [exact (Hv _ (sub_self _) k x Hx)|].
      apply (IH k x Hx). intros w Hw. eapply Hv, sub_dict, Hw. exact Hx.
Qed.

(** ** Theorems: the record chain *)

(** Conversion never has to compute a digest or a text in the proofs below. *)
#[local] Opaque sha256_hex dumps loads.

Lemma canonical_Ok v t : canonical v = Ok t ↔ dumps v = Some t.
Proof. unfold canonical. destruct (dumps v); naive_solver. Qed.

Lemma record_hash_Ok v h : record_hash v = Ok h ↔ ∃ t, dumps v = Some t ∧ h = sha256_hex t.
Proof.
  unfold record_hash, canonical. destruct (dumps v) as [t|]; simpl; naive_solver.
Qed.

Lemma pop_with_hash v h : v@["record_hash"] = VNone → is_dict v = true →
  (∀ d, v = VDict d → d !! "record_hash" = None) → pop_hash (with_hash v h) = v.
Proof.
  destruct v as [| | | | | |d]; try done. intros _ _ H. simpl.
  by rewrite delete_insert_id by eauto.
Qed.

Lemma with_hash_hash v h : is_dict v = true → (with_hash v h)@["record_hash"] = h.
Proof. destruct v as [| | | | | |d]; try done. intros _. simpl. by rewrite lookup_insert_eq. Qed.

Lemma with_hash_get v h k : k ≠ "record_hash" → (with_hash v h)@[k] = v@[k].
Proof. intros Hk. destruct v as [| | | | | |d]; try done. simpl. by rewrite lookup_insert_ne. Qed.

Lemma pop_hash_get v k : k ≠ "record_hash" → (pop_hash v)@[k] = v@[k].
Proof. intros Hk. destruct v as [| | | | | |d]; try done. simpl. by rewrite lookup_delete_ne. Qed.

(** What one accepted line contributes. *)
Record line_accepted (st : chain_state) (line : string) (u : value) (h : string) (st' : chain_state) : Prop := {
  la_dict : is_dict u = true;
  la_bare : pop_hash u = u;
  la_text : loads line = Some (with_hash u (VStr h));
  la_hash : ∃ t, dumps u = Some t ∧ h = sha256_hex t;
  la_sequence : u@["sequence"] ==? VInt (Z.of_nat (length (ch_records st))) = true;
  la_previous : u@["previous_hash"] ==? ch_previous_hash st = true;
  la_operation : u@["operation_id"] ==? ch_operation_id st' = true;
  la_operation_kept : ch_operation_id st' =
    (if is_none (ch_operation_id st) then u@["operation_id"] else ch_operation_id st);
  la_records : ch_records st' = ch_records st ++ [with_hash u (VStr h)];
  la_head : ch_previous_hash st' = VStr h;
}.

Lemma validate_line_Ok st line st' :
  validate_line st line = Ok st' → ∃ u h, line_accepted st line u h st'.
Proof.
  unfold validate_line. destruct (loads line) as [r|] eqn:Hload; [|done]. intros H.
  apply bind_Ok in H as (_ & Hd%fail_if_Ok%negb_false_iff & H).
  destruct r as [| | | | | |d]; try done. simpl in H.
  ok_inv.
  destruct (d !! "record_hash") as [hv|] eqn:Hh; simpl in *; [|done].
  destruct hv as [| | |hs| | |]; try done. simpl in *. ok_inv.
  match goal with H : record_hash _ = Ok ?x |- _ => rename H into Hrec; rename x into h end.
  match goal with H : false = negb _ |- _ =>
    symmetry in H; apply negb_false_iff, String.eqb_eq in H; subst hs end.
  exists (VDict (delete "record_hash" d)), h. split; simpl; try done.
  - by rewrite delete_delete_eq.
  - rewrite Hload. do 2 f_equal. by rewrite insert_delete_id.
  - exact (proj1 (record_hash_Ok _ _) Hrec).
Qed.

(** The loop state mirrors the accepted records. *)
Definition chain_inv (st : chain_state) : Prop :=
  ch_previous_hash st = last_hash (ch_records st)
  ∧ (ch_records st = [] → ch_operation_id st = VNone)
  ∧ (∀ first, head (ch_records st) = Some first → is_none (first@["operation_id"]) = false →
       ch_operation_id st = first@["operation_id"]).

Lemma chain_inv_start : chain_inv chain_start.
Proof. split_and!; [done|done|]. by intros first [=]. Qed.

Lemma last_hash_snoc rs r : last_hash (rs ++ [r]) = r@["record_hash"].
Proof. unfold last_hash. by rewrite last_snoc. Qed.

Lemma chain_inv_step st line st' : chain_inv st → validate_line st line = Ok st' → chain_inv st'.
Proof.
  intros (Hp & He & Hf) (u & h & L)%validate_line_Ok. split_and!.
  - rewrite (la_records _ _ _ _ _ L), last_hash_snoc, (la_head _ _ _ _ _ L).
    by rewrite with_hash_hash by apply L.
  - rewrite (la_records _ _ _ _ _ L). by destruct (ch_records st).
  - rewrite (la_records _ _ _ _ _ L), (la_operation_kept _ _ _ _ _ L).
    destruct (ch_records st) as [|r rs] eqn:Hr.
    + rewrite He by done. simpl. intros first [= <-]. by rewrite with_hash_get.
    + simpl. intros first [= <-] Hn. simpl in Hf. rewrite (Hf _ eq_refl Hn).
      by rewrite Hn.
Qed.

Lemma chain_inv_run lines st : fold_result validate_line chain_start lines = Ok st → chain_inv st.
Proof.
  intros H. eapply (fold_result_inv validate_line chain_inv); [|apply chain_inv_start|exact H].
  eauto using chain_inv_step.
Qed.

Lemma validate_records_snoc lines line rs :
  validate_records (lines ++ [line]) = Ok rs ↔
  ∃ st st', fold_result validate_line chain_start lines = Ok st
    ∧ validate_line st line = Ok st' ∧ rs = ch_records st'.
Proof.
  unfold validate_records. rewrite bind_Ok. split.
  - intros (st' & H & [= <-]). apply fold_result_snoc in H as (st & ? & ?). eauto.
  - intros (st & st' & H1 & H2 & ->). exists st'. split; [|done].
    apply fold_result_snoc. eauto.
Qed.

Lemma validate_records_nil : validate_records [] = Ok [].
Proof. done. Qed.

Lemma run_length lines st :
  fold_result validate_line chain_start lines = Ok st → length (ch_records st) = length lines.
Proof.
  revert st. induction lines as [|l lines IH] using rev_ind; intros st; [by intros [= <-]|].
  intros (st1 & H1 & (u & h & L)%validate_line_Ok)%fold_result_snoc.
  rewrite (la_records _ _ _ _ _ L), !length_app, (IH _ H1). done.
Qed.

(** Every accepted journal is one contiguous chain: record [i] carries format
    version 1 and sequence number [i], points to the hash of its predecessor
    and hashes its own canonical text. *)
Definition chained (rs : list value) : Prop := ∀ i r, rs !! i = Some r →
  ∃ u h t, r = with_hash u (VStr h) ∧ dumps u = Some t ∧ h = sha256_hex t
    ∧ is_dict u = true
    ∧ u@["sequence"] ==? VInt (Z.of_nat i) = true
    ∧ u@["previous_hash"] ==? last_hash (take i rs) = true
    ∧ pop_hash u = u.

Lemma chained_snoc st line st' :
  chained (ch_records st) → chain_inv st → validate_line st line = Ok st' → chained (ch_records st').
Proof.
  intros Hch (Hp & _) (u & h & L)%validate_line_Ok i r.
  rewrite (la_records _ _ _ _ _ L). intros Hi.
  destruct (decide (i < length (ch_records st))%nat) as [Hlt|Hge].
  - rewrite lookup_app_l in Hi by done. destruct (Hch i r Hi) as (u' & h' & t & ?).
    exists u', h', t. rewrite take_app_le by lia. done.
  - rewrite lookup_app_r in Hi by lia.
    apply list_lookup_singleton_Some in Hi as [Hi <-].
    assert (i = length (ch_records st)) as -> by lia.
    destruct (la_hash _ _ _ _ _ L) as (t & Ht & ->).
    exists u, (sha256_hex t), t. rewrite take_app_length.
    rewrite <-Hp. split_and!; try done; apply L.
Qed.

Lemma chained_run lines st : fold_result validate_line chain_start lines = Ok st → chained (ch_records st).
Proof.
  revert st. induction lines as [|line lines IH] using rev_ind; intros st.
  - by intros [= <-] [|i] r.
  - intros (st1 & H1 & H2)%fold_result_snoc. eauto using chained_snoc, chain_inv_run.
Qed.

Lemma chained_prefix rs r : chained (rs ++ [r]) → chained rs.
Proof.
  intros H i x Hi. destruct (H i x) as (u & h & t & ?); [by apply lookup_app_l_Some|].
  exists u, h, t. by rewrite take_app_le in * by (apply lookup_lt_Some in Hi; lia).
Qed.

Lemma last_hash_py_eq rs : chained rs → ∀ v, v ==? last_hash rs = true → v = last_hash rs.
Proof.
  intros Hc v. unfold last_hash. destruct rs as [|r rs _] using rev_ind; simpl.
  - rewrite py_eq_true. by destruct v.
  - rewrite last_snoc. destruct (Hc (length rs) r) as (u & h & t & -> & _ & _ & Hd & _).
    { by rewrite lookup_app_r, Nat.sub_diag by lia. }
    rewrite with_hash_hash by done. apply py_eq_str_l.
Qed.

(** [text] is the canonical text of record [i] without its hash, and the hash
    is that text's digest. *)
Definition hashed_at (rs : list value) (i : nat) (text : string) : Prop :=
  ∃ r, rs !! i = Some r ∧ dumps (pop_hash r) = Some text ∧ r@["record_hash"] = VStr (sha256_hex text).

(** Records of one number in two journals that are different texts with one
    digest. *)
Definition collision (rs rs' : list value) : Prop :=
  ∃ i text text', hashed_at rs i text ∧ hashed_at rs' i text'
    ∧ text ≠ text' ∧ sha256_hex text = sha256_hex text'.

Lemma hashed_at_app rs1 rs2 i x : hashed_at rs1 i x → hashed_at (rs1 ++ rs2) i x.
Proof. intros (u & Hi & Hu). exists u. split; [by apply lookup_app_l_Some|exact Hu]. Qed.
Lemma hashed_at_last rs u x : is_dict u = true → pop_hash u = u → dumps u = Some x →
  hashed_at (rs ++ [with_hash u (VStr (sha256_hex x))]) (length rs) x.
Proof.
  intros Hd Hb Hx. eexists. split; [by apply list_lookup_middle|]. split; [|by apply with_hash_hash].
  assert (pop_hash (with_hash u (VStr (sha256_hex x))) = pop_hash u) as ->; [|by rewrite Hb].
  destruct u; try done. cbn. by rewrite delete_insert_eq.
Qed.
Lemma collision_app rs rs' r r' : collision rs rs' → collision (rs ++ r) (rs' ++ r').
Proof. intros (i & x & y & Hx & Hy & Hne). exists i, x, y. eauto using hashed_at_app. Qed.

(** Two chains of equal length with the same head either agree everywhere or
    have different texts with one SHA-256 digest at one place. *)
Lemma chained_tamper_evident rs : ∀ rs', chained rs → chained rs' →
  length rs = length rs' → last_hash rs = last_hash rs' →
  rs = rs' ∨ collision rs rs'.
Proof.
  induction rs as [|r rs IH] using rev_ind; intros rs' Hc Hc' Hlen Hh.
  { left. by destruct rs'. }
  destruct rs' as [|r' rs' _] using rev_ind.
  { rewrite length_app in Hlen. simpl in Hlen. lia. }
  rewrite !last_hash_snoc in Hh. rewrite !length_app in Hlen. simpl in Hlen.
  destruct (Hc (length rs) r) as (u & h & t & -> & Ht & -> & Hd & _ & Hprev & Hbare).
  { by rewrite lookup_app_r, Nat.sub_diag by lia. }
  destruct (Hc' (length rs') r') as (u' & h' & t' & -> & Ht' & -> & Hd' & _ & Hprev' & Hbare').
  { by rewrite lookup_app_r, Nat.sub_diag by lia. }
  rewrite !with_hash_hash in Hh by done. injection Hh as Hh.
  rewrite !take_app_length in *.
  destruct (decide (t = t')) as [<-|Hne].
  2:{ right. exists (length rs), t, t'. split; [|split; [|done]].
      - by apply hashed_at_last.
      - replace (length rs) with (length rs') by lia. by apply hashed_at_last. }
  assert (u = u') as <- by eauto using dumps_inj.
  apply last_hash_py_eq in Hprev; [|by eapply chained_prefix].
  apply last_hash_py_eq in Hprev'; [|by eapply chained_prefix].
  destruct (IH rs') as [->|Hx]; eauto using chained_prefix; [lia|congruence|].
  right. by apply collision_app.
Qed.

Lemma journal_chain_agrees lines lines' st rs' :
  fold_result validate_line chain_start lines = Ok st → validate_records lines' = Ok rs' →
  length (ch_records st) = length rs' → last_hash (ch_records st) = last_hash rs' →
  ch_records st = rs' ∨ collision (ch_records st) rs'.
Proof.
  intros Hst H. unfold validate_records in H. apply bind_Ok in H as (st' & Hst' & <-%Ok_inj).
  apply chained_tamper_evident; eauto using chained_run.
Qed.

(** ** Theorems: appending *)

Fixpoint complete_lines (s : string) : bool :=
  match s with
  | "" => true
  | String c "" => Ascii.eqb c (chr 10)
  | String _ s => complete_lines s
  end.

Lemma readlines_cons c s : s ≠ "" → readlines (String c s) =
  if Ascii.eqb c (chr 10) then String c "" :: readlines s
  else match readlines s with [] => [String c ""] | l :: ls => String c l :: ls end.
Proof. done. Qed.

Lemma readlines_nonempty s : s ≠ "" → readlines s ≠ [].
Proof.
  destruct s as [|c s]; [done|]. intros _. simpl.
  destruct (Ascii.eqb _ _); [done|]. by destruct (readlines s).
Qed.

Lemma complete_lines_cons c s : complete_lines (String c s) = true →
  (s = "" ∧ c = chr 10) ∨ (s ≠ "" ∧ complete_lines s = true).
Proof.
  destruct s as [|c' s]; simpl; [|by right]. intros ->%Ascii.eqb_eq. by left.
Qed.

Lemma readlines_app a b : complete_lines a = true →
  readlines (a +:+ b) = readlines a ++ readlines b.
Proof.
  induction a as [|c a IH]; [done|]. intros Hc.
  rewrite str_cons_app. simpl. destruct (complete_lines_cons _ _ Hc) as [[-> ->]|[Hne Ha]].
  - done.
  - rewrite (IH Ha). destruct (Ascii.eqb _ _); [done|].
    pose proof (readlines_nonempty a Hne). by destruct (readlines a).
Qed.

Lemma readlines_line t : no_newline t = true →
  readlines (t +:+ String (chr 10) "") = [t +:+ String (chr 10) ""].
Proof.
  induction t as [|c t IH]; [done|]. rewrite str_cons_app. simpl.
  intros [Hc Ht]%andb_true_iff. rewrite negb_true_iff in Hc. by rewrite Hc, (IH Ht).
Qed.

Lemma complete_lines_app a b : complete_lines a = true → complete_lines b = true →
  complete_lines (a +:+ b) = true.
Proof.
  intros Ha Hb. induction a as [|c a IH]; [done|]. rewrite str_cons_app.
  destruct (complete_lines_cons _ _ Ha) as [[-> ->]|[Hne Ha']].
  - change ("" +:+ b) with b. simpl. by destruct b.
  - specialize (IH Ha'). destruct a as [|c' a]; [done|]. done.
Qed.

Lemma complete_lines_line t : complete_lines (t +:+ String (chr 10) "") = true.
Proof. induction t as [|c t IH]; [done|]. rewrite str_cons_app. simpl. destruct t; done. Qed.

Lemma next_record_dict op m ev rs : is_dict (next_record op m ev rs) = true.
Proof. done. Qed.

Lemma next_record_get op m ev rs :
  (next_record op m ev rs)@["format_version"] = VInt FORMAT_VERSION
  ∧ (next_record op m ev rs)@["operation_id"] = VStr op
  ∧ (next_record op m ev rs)@["sequence"] = VInt (Z.of_nat (length rs))
  ∧ (next_record op m ev rs)@["previous_hash"] = last_hash rs
  ∧ (next_record op m ev rs)@["milestone"] = VStr m
  ∧ (next_record op m ev rs)@["evidence"] = ev
  ∧ pop_hash (with_hash (next_record op m ev rs) VNone) = next_record op m ev rs.
Proof.
  unfold next_record, dict, get, FORMAT_VERSION. cbn [pop_hash with_hash].
  split_and!; reflexivity.
Qed.

Lemma pop_with_hash_next op m ev rs h :
  pop_hash (with_hash (next_record op m ev rs) h) = next_record op m ev rs.
Proof. unfold next_record, dict. cbn [pop_hash with_hash]. by rewrite delete_insert_id. Qed.

Lemma dumps_next_record op m ev rs : is_Some (dumps ev) → is_Some (dumps (last_hash rs)) →
  is_Some (dumps (next_record op m ev rs)).
Proof.
  intros He Hl. apply dumps_dict_list.
  repeat apply Forall_cons_2; cbn [snd]; first [assumption|cbn [dumps]; eexists; reflexivity|apply Forall_nil_2].
Qed.

Lemma dumps_with_hash v h : is_dict v = true → is_Some (dumps v) → is_Some (dumps (with_hash v (VStr h))).
Proof.
  destruct v as [| | | | | |d]; try done. intros _ [t Ht]. cbn [with_hash]. apply dumps_dict_some.
  intros k x Hx. destruct (decide (k = "record_hash")) as [->|Hk].
  - rewrite lookup_insert_eq in Hx. injection Hx as <-. cbn [dumps]. by eexists.
  - rewrite lookup_insert_ne in Hx by congruence. cbn [dumps] in Ht. unfold all_some in Ht.
    destruct (bool_decide _) eqn:Hd; [|done]. apply bool_decide_eq_true in Hd.
    apply (Hd k). by rewrite lookup_fmap, Hx.
Qed.

Lemma dumps_last_hash rs : chained rs → is_Some (dumps (last_hash rs)).
Proof.
  intros Hc. unfold last_hash. destruct rs as [|r rs _] using rev_ind; [cbn [last dumps]; by eexists|].
  rewrite last_snoc. destruct (Hc (length rs) r) as (u & h & t & -> & _ & _ & Hd & _).
  { by rewrite lookup_app_r, Nat.sub_diag by lia. }
  rewrite with_hash_hash by exact Hd. cbn [dumps]. by eexists.
Qed.

(** A guarded append whose guard holds and whose evidence is accepted always
    finds a line to write. *)
Lemma plan_append_succeeds content op m ev rs path :
  validate_records (readlines content) = Ok rs →
  (∀ first, head rs = Some first → first@["operation_id"] = VStr op) →
  reject_secrets ev path = Ok tt →
  ∃ record payload, plan_append content op m ev (Some (Z.of_nat (length rs))) (Some (last_hash rs))
    = Ok (record, payload).
Proof.
  intros Hrs Hop [te Hev]%reject_secrets_dumps. unfold plan_append. rewrite Hrs. cbn [mbind result_bind].
  rewrite Z.eqb_refl. cbn [negb fail_if default]. unfold id. rewrite py_eq_refl. cbn [negb fail_if].
  assert (∃ u, dumps (next_record op m ev rs) = Some u) as [t Ht].
  { apply dumps_next_record; [by eexists|]. apply dumps_last_hash.
    unfold validate_records in Hrs. apply bind_Ok in Hrs as (st & Hst & Hrs). apply Ok_inj in Hrs as <-.
    by eapply chained_run. }
  destruct (dumps_with_hash (next_record op m ev rs) (sha256_hex t) eq_refl) as [text Htext]; [by eexists|].
  exists (with_hash (next_record op m ev rs) (VStr (sha256_hex t))), (text +:+ String (chr 10) "").
  assert (match rs with first :: _ => (λ id, id !=? VStr op) <$> item first "operation_id" | [] => Ok false end
    = Ok false) as ->.
  { destruct rs as [|r rs']; [reflexivity|]. specialize (Hop r eq_refl).
    rewrite (item_get _ _ _ Hop). cbn. by rewrite py_eq_refl. }
  cbn [mbind result_bind fail_if].
  assert (record_hash (next_record op m ev rs) = Ok (sha256_hex t)) as -> by (apply record_hash_Ok; eauto).
  cbn [mbind result_bind]. assert (canonical (with_hash (next_record op m ev rs) (VStr (sha256_hex t))) = Ok text)
    as -> by (by apply canonical_Ok). reflexivity.
Qed.

#[local] Opaque next_record.

(** What a planned append writes and returns. *)
Lemma plan_append_Ok content op m ev n h record payload :
  plan_append content op m ev n h = Ok (record, payload) →
  ∃ rs t text, validate_records (readlines content) = Ok rs
    ∧ dumps (next_record op m ev rs) = Some t
    ∧ record = with_hash (next_record op m ev rs) (VStr (sha256_hex t))
    ∧ dumps record = Some text ∧ payload = text +:+ String (chr 10) ""
    ∧ (∀ first, head rs = Some first → first@["operation_id"] = VStr op)
    ∧ (∀ k, n = Some k → k = Z.of_nat (length rs) ∧ last_hash rs ==? default VNone h = true).
Proof.
  unfold plan_append. intros H. ok_inv. rename x into rs.
  match goal with H : record_hash _ = _ |- _ => apply record_hash_Ok in H as (t & Ht & ->) end.
  match goal with H : canonical _ = _ |- _ => apply canonical_Ok in H end.
  eexists rs, t, _. split_and!; [eassumption|eassumption|reflexivity|eassumption|reflexivity| |].
  - intros first Hf. destruct rs as [|r rs]; [done|]. injection Hf as ->.
    match goal with H : _ <$> item _ _ = _ |- _ => apply fmap_Ok in H as (id & Hi & Hid) end.
    apply item_Ok in Hi as ->. symmetry in Hid. by apply negb_false_iff, py_eq_str_l in Hid.
  - intros k ->. simpl in *. ok_inv. split; [lia|done].
Qed.

Lemma validate_line_next st op m ev t text :
  chain_inv st → (∀ first, head (ch_records st) = Some first → first@["operation_id"] = VStr op) →
  dumps (next_record op m ev (ch_records st)) = Some t →
  dumps (with_hash (next_record op m ev (ch_records st)) (VStr (sha256_hex t))) = Some text →
  validate_line st (text +:+ String (chr 10) "") =
    Ok (Chain (ch_records st ++ [with_hash (next_record op m ev (ch_records st)) (VStr (sha256_hex t))])
          (VStr (sha256_hex t)) (VStr op)).
Proof.
  intros (Hp & He & Hf) Hop Ht Htext. unfold validate_line.
  rewrite (loads_dumps_line _ _ Htext). rewrite pop_with_hash_next.
  set (u := next_record op m ev (ch_records st)) in *.
  destruct (next_record_get op m ev (ch_records st)) as (G1 & G2 & G3 & G4 & _). fold u in G1, G2, G3, G4.
  rewrite with_hash_hash by apply next_record_dict.
  assert (record_hash u = Ok (sha256_hex t)) as Hr by (apply record_hash_Ok; eauto).
  rewrite Hr, G1, G2, G3, G4, Hp, !py_eq_refl. simpl. rewrite String.eqb_refl. simpl.
  assert ((if is_none (ch_operation_id st) then VStr op else ch_operation_id st) = VStr op) as ->.
  { destruct (ch_records st) as [|r rs] eqn:Hrs; [by rewrite He|].
    specialize (Hop r eq_refl). specialize (Hf r eq_refl). rewrite Hop in Hf. by rewrite Hf. }
  by rewrite py_eq_refl.
Qed.

(** An append planned on complete lines leaves complete lines that validate to
    the old records followed by the appended one. *)
Lemma plan_append_validates content op m ev n h record payload :
  complete_lines content = true →
  plan_append content op m ev n h = Ok (record, payload) →
  ∃ rs, validate_records (readlines content) = Ok rs
    ∧ validate_records (readlines (content +:+ payload)) = Ok (rs ++ [record])
    ∧ complete_lines (content +:+ payload) = true.
Proof.
  intros Hc (rs & t & text & Hrs & Ht & -> & Htext & -> & Hop & _)%plan_append_Ok.
  exists rs. split; [exact Hrs|]. split; [|apply complete_lines_app; [exact Hc|apply complete_lines_line]].
  rewrite (readlines_app _ _ Hc), (readlines_line _ (dumps_no_newline _ _ Htext)).
  unfold validate_records in Hrs. apply bind_Ok in Hrs as (st & Hst & Hrs). apply Ok_inj in Hrs as <-.
  unfold validate_records. rewrite fold_result_app, Hst. cbn [mbind result_bind fold_result].
  by rewrite (validate_line_next st op m ev t text (chain_inv_run _ _ Hst) Hop Ht Htext).
Qed.

(** What the write loop leaves behind is a prefix of the payload, and all of it
    on success. *)
Lemma str_take_drop k s : str_take k s +:+ str_drop k s = s.
Proof. revert s. induction k as [|k IH]; intros [|c s]; try done. simpl. rewrite str_cons_app. by rewrite IH. Qed.

Lemma write_loop_prefix writes : ∀ payload, ∃ rest,
  payload = (write_loop writes payload).1 +:+ rest
  ∧ (is_ok (write_loop writes payload).2 = true → rest = "").
Proof.
  induction writes as [|w writes IH]; intros payload.
  - destruct payload as [|c p]; exists ""; simpl; by rewrite ?str_app_nil.
  - destruct payload as [|c p]; [by exists ""|]. destruct w as [count|]; cbn [write_loop].
    2:{ by exists (String c p). }
    destruct (count <=? 0); [by exists (String c p)|].
    destruct (IH (str_drop (Z.to_nat count) (String c p))) as (rest & Hr & Hok).
    destruct (write_loop writes (str_drop (Z.to_nat count) (String c p))) as [done r]. cbn [fst snd] in *.
    exists rest. split; [|done]. rewrite str_app_assoc, <-Hr. symmetry. apply str_take_drop.
Qed.

(** Content of the entry, empty when it does not exist. *)
Definition entry_content (e : entry) : string :=
  match e with Present f => f_content f | _ => "" end.

Ltac destruct_append :=
  unfold append;
  repeat (match goal with
  | |- context [match ?x with Raise _ => _ | Ok _ => _ end] => destruct x eqn:?
  | |- context [match ?x with Ok _ => _ | Raise _ => _ end] => destruct x eqn:?
  | |- context [if ?b then _ else _] => destruct b eqn:?
  | |- context [let '(_, _) := ?x in _] => destruct x eqn:?
  end; cbn [fst snd]).

(** The result of one append, by cases: either the content is unchanged, or
    the plan succeeded and a prefix of its payload was written. *)
Inductive append_effect (op m : string) (ev : value) (n : option Z) (h : option value)
    (before : string) : string → result value → Prop :=
  | effect_none e : append_effect op m ev n h before before (Raise e)
  | effect_write record payload written rest r :
      plan_append before op m ev n h = Ok (record, payload) →
      payload = written +:+ rest →
      (∀ x, r = Ok x → x = record ∧ rest = "") →
      append_effect op m ev n h before (before +:+ written) r.

Lemma open_append_content euid ex e f : open_append euid ex e = Ok f → f_content f = entry_content e.
Proof. destruct e as [|f'|]; simpl; [by intros [= <-]| |done]. destruct ex; [done|]. by intros [= <-]. Qed.

Lemma append_cases euid calls s op m ev ex n h :
  append_effect op m ev n h (entry_content (fs_entry s))
    (entry_content (fs_entry (append euid calls s op m ev ex n h).1))
    (append euid calls s op m ev ex n h).2.
Proof.
  unfold append.
  destruct (check_arguments op m ev n h); [|constructor]. cbn zeta. cbn [fs_entry].
  destruct (check_parent euid _); [|constructor].
  destruct (open_append euid ex (fs_entry s)) as [f|] eqn:Hf; [|constructor].
  apply open_append_content in Hf. rewrite <-Hf.
  destruct (_ || _ || _); [constructor|]. cbn [set_mode f_content].
  destruct (plan_append (f_content f) op m ev n h) as [[record payload]|] eqn:Hplan; [|constructor].
  destruct (write_loop_prefix (io_writes calls) payload) as (rest & Hrest & Hok).
  destruct (write_loop (io_writes calls) payload) as [written r]. cbn [fst snd] in *.
  destruct r as [u|e].
  - destruct (io_fsync calls && io_dirsync calls); cbn; eapply effect_write; eauto.
    + intros x [= <-]. eauto.
    + by intros x [=].
  - cbn. eapply effect_write; eauto. by intros x [=].
Qed.

Lemma append_Ok_parts euid calls s op m ev ex n h s' record :
  append euid calls s op m ev ex n h = (s', Ok record) →
  ∃ payload, plan_append (entry_content (fs_entry s)) op m ev n h = Ok (record, payload)
    ∧ entry_content (fs_entry s') = entry_content (fs_entry s) +:+ payload.
Proof.
  intros H. pose proof (append_cases euid calls s op m ev ex n h) as He. rewrite H in He.
  cbn [fst snd] in He. inversion He as [|record' payload written rest r Hplan Hpay Hr Hc].
  destruct (Hr record eq_refl) as [-> ->]. exists payload. split; [exact Hplan|].
  by rewrite Hpay, str_app_nil.
Qed.

Lemma append_reads_back euid calls s op m ev ex n h s' record :
  complete_lines (entry_content (fs_entry s)) = true →
  append euid calls s op m ev ex n h = (s', Ok record) →
  ∃ rs, validate_records (readlines (entry_content (fs_entry s))) = Ok rs
    ∧ validate_records (readlines (entry_content (fs_entry s'))) = Ok (rs ++ [record])
    ∧ complete_lines (entry_content (fs_entry s')) = true
    ∧ record@["operation_id"] = VStr op ∧ record@["milestone"] = VStr m ∧ record@["evidence"] = ev.
Proof.
  intros Hc (payload & Hplan & Hcontent)%append_Ok_parts.
  destruct (plan_append_validates _ _ _ _ _ _ _ _ Hc Hplan) as (rs & Hrs & Hnew & Hc').
  exists rs. rewrite Hcontent. split; [exact Hrs|]. split; [exact Hnew|]. split; [exact Hc'|].
  apply plan_append_Ok in Hplan as (rs' & t & text & _ & _ & -> & _).
  destruct (next_record_get op m ev rs') as (_ & G2 & _ & _ & G5 & G6 & _).
  rewrite !with_hash_get, G2, G5, G6 by discriminate. repeat split.
Qed.

(** A completed append is durable and readable: on a journal made of
    complete lines, the locked content afterwards is the old content followed
    by one more line, and reading it back yields exactly the old records and
    the returned record, which carries the requested milestone and evidence. *)
Theorem append_extends_journal euid calls s op m ev ex n h s' record :
  complete_lines (entry_content (fs_entry s)) = true →
  append euid calls s op m ev ex n h = (s', Ok record) →
  (∃ payload, entry_content (fs_entry s') = entry_content (fs_entry s) +:+ payload)
  ∧ ∃ rs, validate_records (readlines (entry_content (fs_entry s))) = Ok rs
    ∧ validate_records (readlines (entry_content (fs_entry s'))) = Ok (rs ++ [record])
    ∧ complete_lines (entry_content (fs_entry s')) = true
    ∧ record@["operation_id"] = VStr op ∧ record@["milestone"] = VStr m ∧ record@["evidence"] = ev.
Proof.
  intros Hc Ha. split; [|by eapply append_reads_back].
  destruct (append_Ok_parts _ _ _ _ _ _ _ _ _ _ _ Ha) as (payload & _ & Hcontent). by exists payload.
Qed.

(** Append-only: whatever the system calls return and wherever the
    operation stops, the journal afterwards still begins with its former
    content, and anything behind it is a prefix of the one planned line. *)
Theorem append_only euid calls s op m ev ex n h :
  ∃ suffix, entry_content (fs_entry (append euid calls s op m ev ex n h).1)
    = entry_content (fs_entry s) +:+ suffix
  ∧ (suffix = "" ∨ ∃ record payload rest,
       plan_append (entry_content (fs_entry s)) op m ev n h = Ok (record, payload)
       ∧ payload = suffix +:+ rest).
Proof.
  destruct (append_cases euid calls s op m ev ex n h) as [e|record payload written rest r Hplan Hpay _].
  - exists "". split; [symmetry; apply str_app_nil|by left].
  - exists written. split; [reflexivity|]. right. exists record, payload, rest. split; [exact Hplan|exact Hpay].
Qed.

(** Guarded append is optimistic concurrency control: when the journal no
    longer has the expected number of records, or its head hash differs from
    the expected one, nothing is written and an exception is raised. *)
Theorem guarded_append_detects_change euid calls s op m ev ex k h rs :
  validate_records (readlines (entry_content (fs_entry s))) = Ok rs →
  Z.of_nat (length rs) ≠ k ∨ last_hash rs !=? default VNone h = true →
  entry_content (fs_entry (append euid calls s op m ev ex (Some k) h).1) = entry_content (fs_entry s)
  ∧ is_ok (append euid calls s op m ev ex (Some k) h).2 = false.
Proof.
  intros Hrs Hdiff.
  destruct (append_cases euid calls s op m ev ex (Some k) h) as [e|record payload written rest r Hplan _ _];
    [done|].
  exfalso. apply plan_append_Ok in Hplan as (rs' & t & text & Hrs' & _ & _ & _ & _ & _ & Hguard).
  destruct (Hguard k eq_refl) as [Hk Hh]. assert (rs' = rs) as -> by congruence.
  destruct Hdiff as [Hne|Hne]; [by apply Hne|]. by rewrite Hh in Hne.
Qed.

(** A journal that reads back is one chain: record [i] has sequence number
    [i], names the hash of record [i-1] and carries the SHA-256 digest of its
    own canonical text. *)
Theorem read_yields_chain euid e rs :
  read euid e = Ok rs →
  chained rs ∧ (length rs ≤ 4096)%nat ∧ ∃ f, e = Present f ∧ f_uid f = euid ∧ f_nlink f = 1
    ∧ f_regular f = true ∧ Z.land (f_mode f) 63 = 0.
Proof.
  unfold read. destruct e as [|f|]; [done| |done]. intros H. unfold validate_records in H. ok_inv.
  match goal with H : fold_result _ _ _ = Ok ?x |- _ => rename H into Hrun; rename x into st end.
  split; [by eapply chained_run|]. split.
  - rewrite (run_length _ _ Hrun). unfold MAX_JOURNAL_RECORDS in *. lia.
  - exists f. unfold group_or_other in *. ok_inv.
    repeat match goal with H : negb _ = false |- _ => apply negb_false_iff in H end.
    repeat split; try done; lia.
Qed.

(** C40: Tamper evidence: two validated journals with the same number of records
    and the same head hash have the same records, unless at one place their
    records are different canonical texts with one SHA-256 digest. *)
Theorem journal_tamper_evident lines lines' rs rs' :
  validate_records lines = Ok rs → validate_records lines' = Ok rs' →
  length rs = length rs' → last_hash rs = last_hash rs' →
  rs = rs' ∨ collision rs rs'.
Proof.
  unfold validate_records at 1. intros (st & Hst & <-%Ok_inj)%bind_Ok. exact (journal_chain_agrees _ _ _ _ Hst).
Qed.


(** When every system call succeeds, an append that has a line to write writes
    all of it. *)
Lemma append_succeeds euid parent f op m ev n h record payload :
  check_arguments op m ev n h = Ok tt → check_parent euid (default (Directory true euid 448) parent) = Ok tt →
  f_regular f = true → f_uid f = euid → f_nlink f = 1 →
  plan_append (f_content f) op m ev n h = Ok (record, payload) →
  append euid io_ok (FS parent (Present f)) op m ev false n h =
    (FS (Some (default (Directory true euid 448) parent))
        (Present (set_content (set_mode f 384) (f_content f +:+ payload))), Ok record).
Proof.
  intros Ha Hp Hr Hu Hn Hplan. unfold append. rewrite Ha. cbn [fs_parent fs_entry]. rewrite Hp.
  cbn [open_append]. rewrite Hr, Hu, Hn, !Z.eqb_refl. cbn [negb orb]. cbn [set_mode f_content].
  rewrite Hplan. by destruct payload.
Qed.

Lemma read_Ok euid f rs : read euid (Present f) = Ok rs ↔
  f_regular f = true ∧ f_uid f = euid ∧ f_nlink f = 1 ∧ group_or_other (f_mode f) = false
  ∧ Z.of_nat (String.length (f_content f)) <= MAX_JOURNAL_BYTES
  ∧ Z.of_nat (length (readlines (f_content f))) <= MAX_JOURNAL_RECORDS
  ∧ validate_records (readlines (f_content f)) = Ok rs.
Proof.
  unfold read. cbn zeta. split.
  - intros H. ok_inv. rewrite Z.eqb_eq, Z.ltb_ge in *. by repeat split.
  - intros (-> & -> & -> & -> & Hs%Z.ltb_ge & Hl%Z.ltb_ge & Hr). rewrite Z.eqb_refl, Hs. cbn. by rewrite Hl.
Qed.

(** ** A line without its newline *)

Lemma with_hash_is_dict r h : is_dict r = true → ∃ d, with_hash r h = VDict d.
Proof. destruct r; try done. simpl. eauto. Qed.

(** When the last record of a journal lacks its final newline (a write
    interrupted one byte early), the journal still validates and the next
    append reports success, yet it joins two records on one line: every later
    read is refused. *)
Theorem append_after_missing_newline euid calls s op m ev ex n h s' record content v t :
  entry_content (fs_entry s) = content +:+ t →
  complete_lines content = true → dumps v = Some t →
  append euid calls s op m ev ex n h = (s', Ok record) →
  is_ok (validate_records (readlines (entry_content (fs_entry s)))) = true
  ∧ is_ok (validate_records (readlines (entry_content (fs_entry s')))) = false.
Proof.
  intros Hs Hc Ht (payload & Hplan & Hcontent)%append_Ok_parts.
  pose proof (plan_append_Ok _ _ _ _ _ _ _ _ Hplan) as (rs & x & text & Hrs & _ & Hrec & Htext & -> & _).
  split; [by rewrite Hrs|]. rewrite Hcontent, Hs, str_app_assoc, (readlines_app _ _ Hc).
  destruct (with_hash_is_dict (next_record op m ev rs) (VStr (sha256_hex x)) (next_record_dict _ _ _ _)) as [d Hd].
  rewrite Hrec, Hd in Htext.
  assert (readlines (t +:+ (text +:+ String (chr 10) "")) = [t +:+ (text +:+ String (chr 10) "")]) as ->.
  { rewrite <-str_app_assoc. apply readlines_line.
    by rewrite no_newline_app, (dumps_no_newline _ _ Ht), (dumps_no_newline _ _ Htext). }
  unfold validate_records. rewrite fold_result_app.
  destruct (fold_result validate_line chain_start (readlines content)) as [st|e]; [|done].
  cbn [mbind result_bind fold_result]. unfold validate_line.
  by rewrite (loads_two_texts _ _ _ _ Ht Htext).
Qed.

(** [require_sha256] is weaker than its error message: [bytes.fromhex]
    skips white space, so 64 blanks are accepted as a digest, and an accepted
    value need not be hexadecimal. *)
Theorem require_sha256_accepts_blanks field :
  require_sha256 (VStr "                                                                ") field = Ok tt.
Proof. reflexivity. Qed.

Lemma bytes_fromhex_lower n : ∀ x, all_chars hex_lower_char x = true → String.length x = (2 * n)%nat →
  ∃ l, bytes_fromhex x = Some l.
Proof.
  induction n as [|n IH]; intros x Hx Hl.
  - destruct x; [by eexists|done].
  - destruct x as [|a [|b x]]; simpl in Hl; try lia.
    cbn [all_chars] in Hx. apply andb_true_iff in Hx as [Ha [Hb Hx]%andb_true_iff].
    destruct (IH x Hx) as [l Hl']; [lia|].
    assert (is_space a = false ∧ is_Some (hex_digit a) ∧ is_Some (hex_digit b)) as (H1 & [? H2] & [? H3]).
    { clear -Ha Hb. destruct a as [[] [] [] [] [] [] [] []]; try discriminate Ha;
        destruct b as [[] [] [] [] [] [] [] []]; try discriminate Hb; (split_and!; [reflexivity|by eexists|by eexists]). }
    cbn [bytes_fromhex]. rewrite H1, H2, H3, Hl'. by eexists.
Qed.

Lemma sha256_text_accepted s field : String.length s = 64%nat → all_chars hex_lower_char s = true →
  require_sha256 (VStr s) field = Ok tt.
Proof.
  intros Hl Hc. unfold require_sha256. rewrite Hl. destruct (bytes_fromhex_lower 32 s Hc Hl) as [l Hx].
  cbn. by rewrite Hx.
Qed.

Lemma sha256_digest_accepted s field : require_sha256 (VStr (sha256_hex s)) field = Ok tt.
Proof. apply sha256_text_accepted; [apply sha256_hex_length|apply sha256_hex_lower]. Qed.

(** [require_sha256] accepts every digest that [record_hash] produces. *)
Theorem require_sha256_accepts_digests v h field :
  record_hash v = Ok h → require_sha256 (VStr h) field = Ok tt.
Proof. intros (t & _ & ->)%record_hash_Ok. apply sha256_digest_accepted. Qed.
