(* ===== verification/Evidence.v ===== *)
(** * Evidence checks shared by the typed journals

    Every typed journal module defines the same private helpers [_exact],
    [_uint], [_status], [_uuid] and [_sha256], which differ in the error they
    raise only; here the error class is a parameter. *)
From S2P Require Import Prelude PyValue Sha256 MutationJournal.

#[local] Open Scope Z_scope.

Section evidence.
Variable c : exn_class.

Definition reject (b : bool) (msg : string) : result unit := fail_if b c msg.

Definition exact (v : value) (keys : list string) (field : string) : result value :=
  _ ← reject (negb (has_keys v keys)) (field +:+ " evidence does not match its schema");
  Ok v.

Definition bounded_uint (v : value) (field : string) (maximum : Z) : result Z :=
  _ ← reject (negb (is_int v) || negb ((0 <=? int_value v) && (int_value v <=? maximum)))
        (field +:+ " is not a bounded unsigned integer");
  Ok (int_value v).

Definition bounded_status (v : value) (field : string) : result Z :=
  _ ← reject (negb (is_int v) || negb ((- 2 ^ 31 <=? int_value v) && (int_value v <? 2 ^ 32)))
        (field +:+ " is not a bounded status value");
  Ok (int_value v).

Definition checked_uuid (v : value) (field : string) : result unit := rewrap c (require_uuid v field).
Definition checked_sha256 (v : value) (field : string) : result unit := rewrap c (require_sha256 v field).

(** [for field in fields: if evidence[field] is not True: raise]. *)
Definition all_true (evidence : value) (before after : string) (fields : list string) : result unit :=
  for_each (λ f, reject (negb (is_true (evidence@[f]))) (before +:+ f +:+ after)) fields.

Definition all_sha256 (evidence : value) (fields : list string) : result unit :=
  for_each (λ f, checked_sha256 (evidence@[f]) f) fields.
Definition all_uuid (evidence : value) (fields : list string) : result unit :=
  for_each (λ f, checked_uuid (evidence@[f]) f) fields.
End evidence.

Definition UINT64_MAX : Z := 18446744073709551615.
Definition UINT32 : Z := 4294967295.

(** [v in (n1, n2, ...)]. *)
Definition in_ints (v : value) (zs : list Z) : bool := existsb (λ z, v ==? VInt z) zs.

(** [a is not None and x <= a]. *)
Definition not_after (x : Z) (a : option Z) : bool :=
  match a with Some a => x <=? a | None => false end.

(** [len(baseline["identity_records"])]. *)
Definition identity_count (baseline : value) : Z :=
  Z.of_nat (length (list_value (baseline@["identity_records"]))).

(** The baseline identities with a UUID and an entity. *)
Definition identities_with (baseline uuid entity : value) : list value :=
  filter (λ identity, (identity@["uuid"] ==? uuid) && (identity@["entity"] ==? entity) = true)
    (list_value (baseline@["identity_records"])).

(** Those that the evidence names. *)
Definition identity_matches (baseline evidence : value) : list value :=
  identities_with baseline (evidence@["identity_uuid"]) (evidence@["entity"]).

Definition recovery_actions : list string :=
  ["prepare-discarded"; "commit-rolled-forward"; "no-local-transaction"].

(** ** Lemmas *)

Section evidence_lemmas.
Variable c : exn_class.

Lemma exact_Ok v keys field e : exact c v keys field = Ok e ↔ e = v ∧ has_keys v keys = true.
Proof.
  unfold exact, reject. split; [intros H; ok_inv; by split|].
  intros [-> Hk]. by rewrite Hk.
Qed.

Lemma bounded_uint_Ok v field max z : bounded_uint c v field max = Ok z → v = VInt z ∧ 0 <= z <= max.
Proof.
  unfold bounded_uint, reject. intros H. ok_inv. destruct v as [| |z'| | | |]; try done. simpl in *.
  split; [done|]. lia.
Qed.

Lemma bounded_status_Ok v field z : bounded_status c v field = Ok z → v = VInt z ∧ - 2 ^ 31 <= z < 2 ^ 32.
Proof.
  unfold bounded_status, reject. intros H. ok_inv. destruct v as [| |z'| | | |]; try done. cbn in *.
  split; [done|]. lia.
Qed.

Lemma checked_sha256_digest s field : checked_sha256 c (VStr (sha256_hex s)) field = Ok tt.
Proof. unfold checked_sha256. by rewrite sha256_digest_accepted. Qed.

Lemma all_true_Ok ev a b fields u : all_true c ev a b fields = Ok u ↔
  Forall (λ f, ev@[f] = VBool true) fields.
Proof.
  unfold all_true. rewrite for_each_Ok. apply Forall_proper; [|done]. intros f.
  unfold reject. rewrite fail_if_Ok, negb_false_iff. apply is_true_eq.
Qed.

Lemma all_uuid_Ok ev fields u : all_uuid c ev fields = Ok u ↔
  Forall (λ f, require_uuid (ev@[f]) f = Ok tt) fields.
Proof.
  unfold all_uuid. rewrite for_each_Ok. apply Forall_proper; [|done]. intros f.
  unfold checked_uuid. apply rewrap_Ok.
Qed.
End evidence_lemmas.

(** Reads the facts off completed evidence checks. *)
Ltac evidence_inv :=
  repeat match goal with
  | H : exact _ _ _ _ = Ok _ |- _ => apply exact_Ok in H as [? ?]; subst
  | H : bounded_uint _ _ _ _ = Ok _ |- _ => apply bounded_uint_Ok in H as [? ?]
  | H : all_true _ _ _ _ _ = Ok _ |- _ => apply all_true_Ok in H
  | H : reject _ _ _ = Ok _ |- _ => unfold reject in H
  | H : bool_decide _ = true |- _ => apply bool_decide_eq_true in H
  | H : bool_decide _ = false |- _ => apply bool_decide_eq_false in H
  | _ => ok_step
  end.

(** ** Milestone dispatch *)

(** Turns a membership in a closed list into its cases. *)
Ltac list_cases H :=
  repeat (apply elem_of_cons in H; destruct H as [H|H]); [..|by apply elem_of_nil in H].

Ltac in_table :=
  lazymatch goal with
  | |- (?x, _) ∈ (?x, _) :: _ => apply list_elem_of_here
  | |- _ ∈ _ :: _ => apply list_elem_of_further; in_table
  end.

(** Walks a chain of comparisons of the milestone with constants in the goal
    [(if milestone == "A" then f else ...) = Ok _ → _], closing each branch
    with [tac]. *)
Ltac milestone_cases tac :=
  repeat match goal with
  | |- (if eq_str ?m ?k then _ else _) = Ok _ → _ =>
      let E := fresh in let H := fresh in destruct (eq_str m k) eqn:E;
      [apply eq_str_true in E; subst m; intros H; tac H|clear E]
  end.

Lemma str_value_str v s : str_value v = s → s ≠ "" → v = VStr s.
Proof. by destruct v; intros <-. Qed.
