(* ===== verification/TypedJournal.v ===== *)
(** * Typed journals over the durable mutation journal

    The enrolment, rename, delete and activation journals share one shape:
    [validate_history] folds a transition over the records of a validated
    chain, and [append_checked] validates the history extended by a candidate
    record before it performs the guarded append.  [TypedJournal] is what such
    a module provides, [TypedJournalLaws] what the shared theorems need, and
    each journal file gives its instance. *)
From S2P Require Import Prelude PyValue Sha256 Json JsonFacts MutationJournal.

#[local] Open Scope Z_scope.

Class TypedJournal (S H : Type) := {
  tj_class : exn_class;
  (** What the module calls itself in its messages, and its message for a
      journal without records. *)
  tj_label : string;
  tj_empty : string;
  (** The checks of the first record. *)
  tj_start : value → result S;
  (** The loop body. *)
  tj_step : S → value → result S;
  (** The check of the last record hash. *)
  tj_check_head : value → result unit;
  (** The history object: state, number of records, head hash. *)
  tj_history : S → Z → value → H;
  tj_operation_id : H → value;
  tj_record_count : H → Z;
  tj_head_hash : H → value;
}.

Section typed_journal.
Context {S H : Type} {J : TypedJournal S H}.

Definition validate_history (records : list value) : result H :=
  match records with
  | [] => raise tj_class tj_empty
  | first :: rest =>
      s0 ← tj_start first;
      s ← fold_result tj_step s0 rest;
      let head_hash := last_hash records in
      _ ← tj_check_head head_hash;
      Ok (tj_history s (Z.of_nat (length records)) head_hash)
  end.

Definition read_history (euid : Z) (e : entry) : result H :=
  records ← read euid e; validate_history records.

Definition zero_hash : string := "0000000000000000000000000000000000000000000000000000000000000000".

(** The candidate record of [append_checked]. *)
Definition candidate (operation_id milestone : string) (evidence : value) : value :=
  dict [("operation_id", VStr operation_id); ("milestone", VStr milestone);
        ("evidence", evidence); ("record_hash", VStr zero_hash)].

(** The part of [append_checked] before the append. *)
Definition check_candidate (euid : Z) (e : entry) (operation_id milestone : string) (evidence : value)
    : result H :=
  records ← read euid e;
  current ← validate_history records;
  _ ← fail_if (tj_operation_id current !=? VStr operation_id) tj_class
        ("operation ID does not match " +:+ tj_label +:+ " journal");
  _ ← validate_history (records ++ [candidate operation_id milestone evidence]);
  Ok current.

(** [append_checked].  The journal is locked only inside [read], [append] and the
    [read] that follows: [others] is whatever other processes do to the file
    between the first two, [settle] what they do between the last two. *)
Definition append_checked (euid : Z) (calls : io) (others settle : fs → fs) (s : fs)
    (operation_id milestone : string) (evidence : value) : fs * result H :=
  match check_candidate euid (fs_entry s) operation_id milestone evidence with
  | Raise e => (s, Raise e)
  | Ok current =>
      let '(s, r) := append euid calls (others s) operation_id milestone evidence false
           (Some (tj_record_count current)) (Some (tj_head_hash current)) in
      match r with
      | Raise e => (s, Raise e)
      | Ok _ => let s := settle s in (s, read_history euid (fs_entry s))
      end
  end.
End typed_journal.

(** Records that agree on what the typed journals look at. *)
Definition same_entry (r r' : value) : Prop :=
  r@["operation_id"] = r'@["operation_id"] ∧ r@["milestone"] = r'@["milestone"]
  ∧ r@["evidence"] = r'@["evidence"].

Class TypedJournalLaws (S H : Type) `{J : TypedJournal S H} := {
  (** A transition looks at the operation id, the milestone and the evidence. *)
  tj_start_ext r r' : same_entry r r' → tj_start r = tj_start r';
  tj_step_ext s r r' : same_entry r r' → tj_step s r = tj_step s r';
  tj_history_count s n h : tj_record_count (tj_history s n h) = n;
  tj_history_head s n h : tj_head_hash (tj_history s n h) = h;
  (** The operation id is that of the first record. *)
  tj_operation_start r s n h : tj_start r = Ok s → tj_operation_id (tj_history s n h) = r@["operation_id"];
  tj_operation_step s r s' n h : tj_step s r = Ok s' →
    tj_operation_id (tj_history s' n h) = tj_operation_id (tj_history s n h);
  (** A digest is an acceptable head. *)
  tj_head_digest x : tj_check_head (VStr (sha256_hex x)) = Ok tt;
}.

Section laws.
Context {S H : Type} {J : TypedJournal S H} {L : TypedJournalLaws S H}.

Lemma validate_history_Ok rs x : validate_history rs = Ok x ↔
  ∃ first rest s0 s, rs = first :: rest ∧ tj_start first = Ok s0 ∧ fold_result tj_step s0 rest = Ok s
    ∧ tj_check_head (last_hash rs) = Ok tt ∧ x = tj_history s (Z.of_nat (length rs)) (last_hash rs).
Proof.
  destruct rs as [|first rest]; [split; [done|by intros (?&?&?&?&?&?)]|].
  unfold validate_history. cbn zeta. split.
  - intros Hx. apply bind_Ok in Hx as (s0 & H0 & Hx). apply bind_Ok in Hx as (s & Hs & Hx).
    apply bind_Ok in Hx as ([] & Hh & Hx). apply Ok_inj in Hx as <-. eauto 10.
  - intros (f & r & s0 & s & [= <- <-] & H0 & Hs & Hh & ->). rewrite H0. cbn [mbind result_bind].
    rewrite Hs. cbn [mbind result_bind]. by rewrite Hh.
Qed.

Lemma validate_history_counts rs x : validate_history rs = Ok x →
  tj_record_count x = Z.of_nat (length rs) ∧ tj_head_hash x = last_hash rs.
Proof. intros (? & ? & ? & ? & _ & _ & _ & _ & ->)%validate_history_Ok. by rewrite tj_history_count, tj_history_head. Qed.

(** Extending a valid history depends on the new record only through what a
    transition looks at. *)
Lemma validate_history_snoc_ext rs r r' x : rs ≠ [] → same_entry r r' →
  tj_check_head (r'@["record_hash"]) = Ok tt →
  validate_history (rs ++ [r]) = Ok x → ∃ x', validate_history (rs ++ [r']) = Ok x'.
Proof.
  intros Hne He Hh (first & rest & s0 & s & Hrs & H0 & Hs & _ & _)%validate_history_Ok.
  destruct rs as [|first' rs]; [done|]. injection Hrs as -> <-.
  apply fold_result_snoc in Hs as (s1 & Hs1 & Hs2). rewrite (tj_step_ext _ _ _ He) in Hs2.
  eexists. apply validate_history_Ok. exists first, (rs ++ [r']), s0, s.
  split_and!; [done|done| |by rewrite last_hash_snoc|reflexivity].
  apply fold_result_snoc. eauto.
Qed.

(** A history whose state admits no transition on a record is not extended by
    it. *)
Lemma history_final rs x r : validate_history rs = Ok x →
  (∀ s n h s', x = tj_history s n h → tj_step s r ≠ Ok s') → is_ok (validate_history (rs ++ [r])) = false.
Proof.
  intros (first & rest & s0 & s & -> & H0 & Hs & _ & ->)%validate_history_Ok Hstuck.
  destruct (validate_history ((first :: rest) ++ [r])) as [y|] eqn:Hy; [|done]. exfalso.
  apply validate_history_Ok in Hy as (f & rest' & s1 & s2 & [= <- <-] & H1 & Hs' & _).
  assert (s1 = s0) as -> by congruence. apply fold_result_snoc in Hs' as (s3 & H3 & Hstep).
  assert (s3 = s) as -> by congruence. by apply (Hstuck s _ _ s2 eq_refl).
Qed.

(** The converse: a record that looks like a rejected one is rejected. *)
Lemma validate_history_snoc_rejected rs r r' : rs ≠ [] → same_entry r r' →
  tj_check_head (r@["record_hash"]) = Ok tt →
  is_ok (validate_history (rs ++ [r])) = false → is_ok (validate_history (rs ++ [r'])) = false.
Proof.
  intros Hne He Hh Hr. destruct (validate_history (rs ++ [r'])) as [x|] eqn:Hx; [|done].
  assert (same_entry r' r) as He' by (destruct He as (? & ? & ?); by repeat split).
  destruct (validate_history_snoc_ext rs r' r x Hne He' Hh Hx) as [y Hy]. by rewrite Hy in Hr.
Qed.

Lemma chained_head rs r : chained rs → last rs = Some r →
  ∃ t, r@["record_hash"] = VStr (sha256_hex t).
Proof.
  intros Hc Hr. rewrite last_lookup in Hr. destruct (Hc _ _ Hr) as (u & h & t & -> & _ & -> & Hd & _).
  exists t. by apply with_hash_hash.
Qed.
End laws.

#[local] Opaque next_record sha256_hex dumps loads.

Section theorems.
Context {S H : Type} {J : TypedJournal S H} {L : TypedJournalLaws S H}.

(** prefix closure: whenever a validated chain is an acceptable history,
    so is every non-empty prefix of it.  A process that stops between two
    records never leaves an unacceptable journal behind. *)
Theorem history_prefix_closed lines rs rs' x :
  validate_records lines = Ok (rs ++ rs') → rs ≠ [] →
  validate_history (rs ++ rs') = Ok x → ∃ x', validate_history rs = Ok x'.
Proof.
  intros Hl Hne (first & rest & s0 & s & Hrs & H0 & Hs & _ & _)%validate_history_Ok.
  destruct rs as [|f rs]; [done|]. injection Hrs as -> <-.
  rewrite fold_result_app in Hs. apply bind_Ok in Hs as (s1 & Hs1 & _).
  unfold validate_records in Hl. apply bind_Ok in Hl as (st & Hst & Hl). apply Ok_inj in Hl as Hst'.
  apply chained_run in Hst. rewrite Hst' in Hst.
  destruct (last (first :: rs)) as [r|] eqn:Hlast; [|by rewrite last_None in Hlast].
  assert (∃ t, r@["record_hash"] = VStr (sha256_hex t)) as [t Ht].
  { rewrite last_lookup in Hlast. apply lookup_app_l_Some with (l2 := rs') in Hlast.
    destruct (Hst _ _ Hlast) as (u & h & t & -> & _ & -> & Hd & _). exists t. by apply with_hash_hash. }
  eexists. apply validate_history_Ok. exists first, rs, s0, s1. split_and!; try done.
  unfold last_hash. by rewrite Hlast, Ht, tj_head_digest.
Qed.

Lemma check_candidate_Ok euid e op m ev x : check_candidate euid e op m ev = Ok x →
  ∃ rs y, read euid e = Ok rs ∧ validate_history rs = Ok x ∧ rs ≠ []
    ∧ validate_history (rs ++ [candidate op m ev]) = Ok y ∧ tj_operation_id x = VStr op.
Proof.
  unfold check_candidate. intros Hc.
  apply bind_Ok in Hc as (rs & Hrs & Hc). apply bind_Ok in Hc as (y & Hy & Hc).
  apply bind_Ok in Hc as (u & Hop & Hc). apply fail_if_Ok, negb_false_iff, py_eq_str_l in Hop.
  apply bind_Ok in Hc as (z & Hz & Hc). apply Ok_inj in Hc as <-.
  exists rs, z. split_and!; try assumption. intros ->. discriminate Hy.
Qed.

Lemma same_entry_next op m ev rs h : same_entry (candidate op m ev) (with_hash (next_record op m ev rs) h).
Proof.
  destruct (next_record_get op m ev rs) as (_ & G2 & _ & _ & G5 & G6 & _).
  unfold same_entry. rewrite !with_hash_get, G2, G5, G6 by discriminate. done.
Qed.

Lemma read_validates euid e rs : read euid e = Ok rs → validate_records (readlines (entry_content e)) = Ok rs.
Proof. unfold read. destruct e; try done. intros Hr. by ok_inv. Qed.

(** What a planned guarded append of a checked candidate leads to. *)
Lemma checked_plan_valid euid e content op m ev x record payload :
  complete_lines content = true →
  check_candidate euid e op m ev = Ok x →
  plan_append content op m ev (Some (tj_record_count x)) (Some (tj_head_hash x)) = Ok (record, payload) →
  (∃ rs y, validate_records (readlines content) = Ok rs
     ∧ validate_records (readlines (content +:+ payload)) = Ok (rs ++ [record])
     ∧ validate_history (rs ++ [record]) = Ok y)
  ∨ ∃ rs0 rs, read euid e = Ok rs0 ∧ validate_records (readlines content) = Ok rs ∧ collision rs0 rs.
Proof.
  intros Hc (rs0 & y & Hread & Hx & Hne & Hy & _)%check_candidate_Ok Hplan.
  destruct (plan_append_validates _ _ _ _ _ _ _ _ Hc Hplan) as (rs & Hrs & Hnew & _).
  pose proof (plan_append_Ok _ _ _ _ _ _ _ _ Hplan) as (rs1 & t & text & Hrs1 & Ht & Hrec & _ & _ & _ & Hguard).
  assert (rs1 = rs) as -> by congruence. destruct (Hguard _ eq_refl) as [Hlen Hhead]. cbn [default] in Hhead.
  destruct (validate_history_counts _ _ Hx) as [Hcount Hh]. rewrite Hh in Hhead. rewrite Hcount in Hlen.
  pose proof (read_validates _ _ _ Hread) as Hvalid.
  unfold validate_records in Hvalid. apply bind_Ok in Hvalid as (st0 & Hst0 & Hst0'). apply Ok_inj in Hst0' as <-.
  assert (last_hash rs = last_hash (ch_records st0)) as Hhead'.
  { apply last_hash_py_eq; [by eapply chained_run|exact Hhead]. }
  destruct (journal_chain_agrees _ _ _ _ Hst0 Hrs) as [Heq|Hcol]; [lia|congruence| |right; exists (ch_records st0), rs; exact (conj Hread (conj Hrs Hcol))].
  subst rs. left. exists (ch_records st0).
  destruct (validate_history_snoc_ext (ch_records st0) (candidate op m ev) record y) as [y' Hy']; try assumption.
  - rewrite Hrec. apply same_entry_next.
  - rewrite Hrec, with_hash_hash, tj_head_digest by apply next_record_dict. done.
  - eauto.
Qed.

(** C1: typed validity is an invariant of the file.  Let other processes change
    the file as they like, as long as the journal they leave before the append
    ends in a complete line, and let the system calls return anything: either
    [append_checked] raises and writes nothing; or the append it performs
    leaves a proper prefix of one line behind the content it found, and it
    raises; or the file right after that append is a valid chain that is again
    an acceptable history, one record longer; or the records checked and those
    extended are different texts with one SHA-256 digest at some place.  What
    is returned is the file as read after whatever other processes did to it
    behind the append. *)
Theorem append_checked_keeps_history euid calls others settle s op m ev s' r :
  complete_lines (entry_content (fs_entry (others s))) = true →
  append_checked euid calls others settle s op m ev = (s', r) →
  let before := entry_content (fs_entry (others s)) in
  (s' = s ∧ is_ok r = false)
  ∨ ∃ s1, let after := entry_content (fs_entry s1) in
     (s' = s1 ∧ is_ok r = false ∨ s' = settle s1 ∧ r = read_history euid (fs_entry s'))
     ∧ ((after = before ∧ s' = s1 ∧ is_ok r = false)
        ∨ (∃ written rest records, s' = s1 ∧ is_ok r = false ∧ after = before +:+ written ∧ rest ≠ ""
            ∧ validate_records (readlines (before +:+ (written +:+ rest))) = Ok records)
        ∨ (∃ rs record y, validate_records (readlines before) = Ok rs
            ∧ validate_records (readlines after) = Ok (rs ++ [record])
            ∧ validate_history (rs ++ [record]) = Ok y)
        ∨ ∃ rs0 rs, read euid (fs_entry s) = Ok rs0 ∧ validate_records (readlines before) = Ok rs
            ∧ collision rs0 rs).
Proof.
  intros Hc. cbn zeta. unfold append_checked.
  destruct (check_candidate euid (fs_entry s) op m ev) as [x|e] eqn:Hx; [|by intros [= <- <-]; left].
  pose proof (append_cases euid calls (others s) op m ev false
    (Some (tj_record_count x)) (Some (tj_head_hash x))) as He.
  destruct (append _ _ _ _ _ _ _ _ _) as [s1 r1]. cbn [fst snd] in He. intros Hr. right. exists s1.
  assert (s' = s1 ∧ is_ok r = false ∧ (∃ e, r1 = Raise e) ∨ s' = settle s1 ∧ r = read_history euid (fs_entry s') ∧ is_ok r1 = true)
    as Hend.
  { destruct r1 as [v|e]; injection Hr as <- <-; [by right|left]. eauto. }
  split; [destruct Hend as [(-> & ? & _)|(? & ? & _)]; auto|].
  inversion He as [e Hb Ha|record payload written rest r2 Hplan Hpay Hr2 Hb].
  { left. destruct Hend as [(? & ? & _)|(_ & _ & Hok)]; [done|]. by rewrite <-Ha in Hok. }
  subst r2. right.
  destruct (checked_plan_valid _ _ _ _ _ _ _ _ _ Hc Hx Hplan) as [(rs & y & Hrs & Hnew & Hy)|Hcol];
    [|by right; right].
  destruct (decide (rest = "")) as [->|Hrest].
  - right. left. rewrite str_app_nil in Hpay. rewrite <-Hpay. eauto 6.
  - left. destruct r1 as [v|e]; [by destruct (Hr2 v eq_refl)|].
    destruct Hend as [(? & ? & _)|(_ & _ & [=])].
    exists written, rest, (rs ++ [record]). rewrite <-Hpay. eauto.
Qed.

(** A checked append that returns has extended the journal by its record. *)
Lemma append_checked_appends euid calls others settle s op m ev s' y :
  complete_lines (entry_content (fs_entry (others s))) = true →
  (∀ s1, fs_entry (settle s1) = fs_entry s1) →
  append_checked euid calls others settle s op m ev = (s', Ok y) →
  complete_lines (entry_content (fs_entry s')) = true
  ∧ ∃ rs record, read euid (fs_entry s') = Ok (rs ++ [record]) ∧ rs ≠ []
      ∧ validate_history (rs ++ [record]) = Ok y ∧ same_entry record (candidate op m ev).
Proof.
  intros Hc Hquiet. unfold append_checked.
  destruct (check_candidate euid (fs_entry s) op m ev) as [x|e] eqn:Hx; [|by intros [= _ [=]]].
  destruct (append _ _ _ _ _ _ _ _ _) as [s1 [v|e]] eqn:Ha; [|by intros [= _ [=]]].
  cbv zeta. intros [= <- Hy]. rewrite Hquiet in *. unfold read_history in Hy. apply bind_Ok in Hy as (rs' & Hrs' & Hy).
  destruct (append_reads_back _ _ _ _ _ _ _ _ _ _ _ Hc Ha) as (rs & Hrs & Hnew & Hc' & Ho & Hm & He).
  pose proof (read_validates _ _ _ Hrs') as Hv. rewrite Hnew in Hv. injection Hv as <-.
  split; [done|]. exists rs, v. split; [done|]. split; [|split; [done|]].
  - intros ->. apply append_Ok_parts in Ha as (payload & Hplan & _).
    pose proof (plan_append_Ok _ _ _ _ _ _ _ _ Hplan) as (rs1 & t & text & Hrs1 & _ & _ & _ & _ & _ & Hguard).
    assert (rs1 = []) as -> by congruence. destruct (Hguard _ eq_refl) as [Hlen _].
    apply check_candidate_Ok in Hx as (rs0 & z & _ & Hx & Hne & _).
    destruct (validate_history_counts _ _ Hx) as [Hcount _]. rewrite Hcount in Hlen.
    destruct rs0; [done|]. cbn [length] in Hlen. lia.
  - unfold same_entry. rewrite Ho, Hm, He. done.
Qed.

Lemma history_operation rs x first : validate_history rs = Ok x → head rs = Some first →
  tj_operation_id x = first@["operation_id"].
Proof.
  intros (f & rest & s0 & s & -> & H0 & Hs & _ & ->)%validate_history_Ok [= ->].
  transitivity (tj_operation_id (tj_history s0 (Z.of_nat (length (first :: rest))) (last_hash (first :: rest)))).
  - revert Hs. generalize (last_hash (first :: rest)) (Z.of_nat (length (first :: rest))). intros h n Hs. clear H0.
    revert s0 Hs. induction rest as [|r rest IH]; intros s0 Hs; [by injection Hs as ->|].
    apply bind_Ok in Hs as (s1 & H1 & Hs). by rewrite (IH s1 Hs), (tj_operation_step _ _ _ _ _ H1).
  - by apply tj_operation_start.
Qed.

Lemma append_checked_runs euid parent f op m ev rs x y :
  read euid (Present f) = Ok rs → complete_lines (f_content f) = true →
  validate_history rs = Ok x → tj_operation_id x = VStr op →
  validate_history (rs ++ [candidate op m ev]) = Ok y →
  check_arguments op m ev (Some (Z.of_nat (length rs))) (Some (last_hash rs)) = Ok tt →
  check_parent euid (default (Directory true euid 448) parent) = Ok tt →
  Z.of_nat (length (readlines (f_content f))) < MAX_JOURNAL_RECORDS →
  (∀ record payload, plan_append (f_content f) op m ev (Some (Z.of_nat (length rs))) (Some (last_hash rs))
      = Ok (record, payload) →
    Z.of_nat (String.length (f_content f +:+ payload)) <= MAX_JOURNAL_BYTES) →
  ∃ s' record z, append_checked euid io_ok (λ s, s) (λ s, s) (FS parent (Present f)) op m ev = (s', Ok z)
    ∧ validate_history (rs ++ [record]) = Ok z
    ∧ validate_records (readlines (entry_content (fs_entry s'))) = Ok (rs ++ [record])
    ∧ same_entry record (candidate op m ev).
Proof.
  intros Hread Hc Hx Hop Hy Hargs Hparent Hrecords Hbytes.
  pose proof (read_validates _ _ _ Hread) as Hrs. cbn [entry_content] in Hrs.
  destruct (validate_history_counts _ _ Hx) as [Hcount Hhead].
  assert (∀ first, head rs = Some first → first@["operation_id"] = VStr op) as Hfirst.
  { intros first Hf. by rewrite <-(history_operation _ _ _ Hx Hf). }
  assert (reject_secrets ev "entry" = Ok tt) as Hev.
  { unfold check_arguments in Hargs. ok_inv. assumption. }
  destruct (plan_append_succeeds _ op m ev rs "entry" Hrs Hfirst Hev) as (record & payload & Hplan).
  destruct (plan_append_validates _ _ _ _ _ _ _ _ Hc Hplan) as (rs' & Hrs' & Hnew & _).
  assert (rs' = rs) as -> by congruence.
  pose proof (plan_append_Ok _ _ _ _ _ _ _ _ Hplan) as (rs1 & t & text & Hrs1 & _ & Hrec & Htext & Hpay & _).
  assert (rs1 = rs) as -> by congruence.
  assert (same_entry (candidate op m ev) record) as Hsame by (rewrite Hrec; apply same_entry_next).
  assert (tj_check_head (record@["record_hash"]) = Ok tt) as Hh.
  { rewrite Hrec, with_hash_hash by apply next_record_dict. apply tj_head_digest. }
  assert (rs ≠ []) as Hne by (by intros ->).
  destruct (validate_history_snoc_ext rs _ record y Hne Hsame Hh Hy) as [z Hz].
  pose proof (proj1 (read_Ok _ _ _) Hread) as (Q1 & Q2 & Q3 & Q4 & Q5 & Q6 & Q7).
  assert (check_candidate euid (Present f) op m ev = Ok x) as Hcheck.
  { unfold check_candidate. rewrite Hread. cbn [mbind result_bind]. rewrite Hx. cbn [mbind result_bind].
    rewrite Hop, py_eq_refl. cbn [negb fail_if mbind result_bind]. by rewrite Hy. }
  eexists _, record, z. split; [|split; [exact Hz|split]].
  - unfold append_checked. cbv zeta. cbn [fs_entry]. rewrite Hcheck, Hcount, Hhead.
    rewrite (append_succeeds euid parent f op m ev _ _ record payload Hargs Hparent Q1 Q2 Q3 Hplan).
    unfold read_history. cbn [fs_entry].
    assert (read euid (Present (set_content (set_mode f 384) (f_content f +:+ payload))) = Ok (rs ++ [record])) as ->.
    { apply read_Ok. cbn [set_content set_mode f_regular f_uid f_nlink f_mode f_content].
      split_and!; try assumption; [reflexivity|exact (Hbytes _ _ Hplan)|].
      rewrite (readlines_app _ _ Hc), length_app, Hpay.
      rewrite (readlines_line _ (dumps_no_newline _ _ Htext)). cbn [length]. lia. }
    cbn [mbind result_bind]. by rewrite Hz.
  - cbn [fs_entry entry_content set_content f_content]. exact Hnew.
  - destruct Hsame as (? & ? & ?). by repeat split.
Qed.

(** C2: completeness: on a private journal file of complete lines, when no
    other process interferes and the system calls succeed, [append_checked]
    returns the extended history for every transition that validates, as
    long as the file stays within the limits of [read].  No accepted
    transition is lost and the final re-reading never fails. *)
Theorem append_checked_completes euid parent f op m ev rs x y :
  read euid (Present f) = Ok rs → complete_lines (f_content f) = true →
  validate_history rs = Ok x → tj_operation_id x = VStr op →
  validate_history (rs ++ [candidate op m ev]) = Ok y →
  check_arguments op m ev (Some (Z.of_nat (length rs))) (Some (last_hash rs)) = Ok tt →
  check_parent euid (default (Directory true euid 448) parent) = Ok tt →
  Z.of_nat (length (readlines (f_content f))) < MAX_JOURNAL_RECORDS →
  (∀ record payload, plan_append (f_content f) op m ev (Some (Z.of_nat (length rs))) (Some (last_hash rs))
      = Ok (record, payload) →
    Z.of_nat (String.length (f_content f +:+ payload)) <= MAX_JOURNAL_BYTES) →
  ∃ s' record z, append_checked euid io_ok (λ s, s) (λ s, s) (FS parent (Present f)) op m ev = (s', Ok z)
    ∧ validate_history (rs ++ [record]) = Ok z
    ∧ validate_records (readlines (entry_content (fs_entry s'))) = Ok (rs ++ [record])
    ∧ tj_record_count z = tj_record_count x + 1
    ∧ same_entry record (candidate op m ev).
Proof.
  intros Hread Hc Hx Hop Hy Hargs Hparent Hrecords Hbytes.
  destruct (append_checked_runs euid parent f op m ev rs x y Hread Hc Hx Hop Hy Hargs Hparent Hrecords Hbytes)
    as (s' & record & z & Ha & Hz & Hv & Hsame).
  exists s', record, z. split; [exact Ha|split; [exact Hz|split; [exact Hv|split; [|exact Hsame]]]].
  destruct (validate_history_counts _ _ Hx) as [-> _], (validate_history_counts _ _ Hz) as [-> _].
  rewrite length_app. cbn [length]. lia.
Qed.

(** What an append leads to when the record is not validated first: a
    rejected transition becomes durable, and the journal with it unreadable. *)
Lemma unvalidated_append euid parent f op m ev rs h :
  read euid (Present f) = Ok rs → complete_lines (f_content f) = true →
  validate_history rs = Ok h → tj_operation_id h = VStr op →
  is_ok (validate_history (rs ++ [candidate op m ev])) = false →
  tj_check_head (VStr zero_hash) = Ok tt →
  check_arguments op m ev (Some (Z.of_nat (length rs))) (Some (last_hash rs)) = Ok tt →
  check_parent euid (default (Directory true euid 448) parent) = Ok tt →
  ∃ s' record,
    append euid io_ok (FS parent (Present f)) op m ev false (Some (tj_record_count h)) (Some (tj_head_hash h))
      = (s', Ok record)
    ∧ validate_records (readlines (entry_content (fs_entry s'))) = Ok (rs ++ [record])
    ∧ same_entry record (candidate op m ev)
    ∧ is_ok (validate_history (rs ++ [record])) = false
    ∧ is_ok (read_history euid (fs_entry s')) = false.
Proof.
  intros Hread Hc Hx Hop Hbad Hzero Hargs Hparent.
  pose proof (read_validates _ _ _ Hread) as Hrs. cbn [entry_content] in Hrs.
  pose proof (proj1 (read_Ok _ _ _) Hread) as (Q1 & Q2 & Q3 & _).
  destruct (validate_history_counts _ _ Hx) as [Hcount Hhead].
  assert (∀ first, head rs = Some first → first@["operation_id"] = VStr op) as Hfirst.
  { intros first Hf. by rewrite <-(history_operation _ _ _ Hx Hf). }
  assert (reject_secrets ev "entry" = Ok tt) as Hev.
  { unfold check_arguments in Hargs. ok_inv. assumption. }
  destruct (plan_append_succeeds _ op m ev rs "entry" Hrs Hfirst Hev) as (record & payload & Hplan).
  destruct (plan_append_validates _ _ _ _ _ _ _ _ Hc Hplan) as (rs' & Hrs' & Hnew & _).
  assert (rs' = rs) as -> by congruence.
  pose proof (plan_append_Ok _ _ _ _ _ _ _ _ Hplan) as (rs1 & t & text & Hrs1 & _ & Hrec & _).
  assert (rs1 = rs) as -> by congruence.
  assert (same_entry (candidate op m ev) record) as Hsame by (rewrite Hrec; apply same_entry_next).
  assert (is_ok (validate_history (rs ++ [record])) = false) as Hrej.
  { apply (validate_history_snoc_rejected rs (candidate op m ev)); [by intros ->|exact Hsame|exact Hzero|exact Hbad]. }
  rewrite Hcount, Hhead, (append_succeeds euid parent f op m ev _ _ record payload Hargs Hparent Q1 Q2 Q3 Hplan).
  eexists _, record. split; [reflexivity|]. split; [exact Hnew|].
  split; [destruct Hsame as (? & ? & ?); by repeat split|]. split; [exact Hrej|].
  cbn [fs_entry]. unfold read_history. set (f' := set_content _ _).
  destruct (read euid (Present f')) as [rs'|e] eqn:Hr'; [|done].
  apply read_validates in Hr'. change (validate_records (readlines (f_content f +:+ payload)) = Ok rs') in Hr'.
  rewrite Hnew in Hr'. apply Ok_inj in Hr' as <-. exact Hrej.
Qed.
End theorems.

(** ** Phases *)

Definition milestone_of (record : value) : string := str_value (record@["milestone"]).

Section phases.
Context {S H : Type} {J : TypedJournal S H} {P : Type}.
Variables (phase : S → P) (edge : P → string → P → Prop).
Hypothesis step_edge : ∀ s r s', tj_step s r = Ok s' → edge (phase s) (milestone_of r) (phase s').

(** A journal whose transitions move along the edges follows a path. *)
Lemma fold_path s rs s' : fold_result tj_step s rs = Ok s' →
  path edge (phase s) (map milestone_of rs) (phase s').
Proof.
  revert s. induction rs as [|r rs IH]; intros s; cbn; [intros [= ->]; constructor|].
  intros (s1 & H1 & Hs)%bind_Ok. econstructor; eauto.
Qed.

Context {L : TypedJournalLaws S H}.
Variables (initial : P) (reported : H → P).
Hypothesis start_phase : ∀ r s, tj_start r = Ok s → phase s = initial.
Hypothesis reported_phase : ∀ s n h, reported (tj_history s n h) = phase s.

(** An accepted history is a path from the initial phase to the reported
    one. *)
Lemma history_path first rest x : validate_history (first :: rest) = Ok x →
  path edge initial (map milestone_of rest) (reported x).
Proof.
  intros (f & r & s0 & s & [= <- <-] & H0 & Hs & _ & ->)%validate_history_Ok.
  rewrite reported_phase, <-(start_phase _ _ H0). by apply fold_path.
Qed.

(** The last record of an accepted history makes the last move. *)
Lemma history_last first rest x : validate_history (first :: rest) = Ok x →
  rest = [] ∧ reported x = initial
  ∨ ∃ rest' r s s', rest = rest' ++ [r] ∧ tj_step s r = Ok s' ∧ reported x = phase s'
      ∧ x = tj_history s' (Z.of_nat (length (first :: rest))) (last_hash (first :: rest)).
Proof.
  intros (f & r & s0 & s & [= <- <-] & H0 & Hs & _ & ->)%validate_history_Ok.
  rewrite reported_phase. destruct rest as [|r rest _] using rev_ind.
  - left. split; [done|]. injection Hs as ->. by apply start_phase in H0.
  - right. apply fold_result_snoc in Hs as (s1 & _ & H1). by exists rest, r, s1, s.
Qed.
End phases.
