(* ===== verification/OperationWorld.v ===== *)
(** * Operations over a journal

    What the operations that drive a device through a typed journal share:
    the surroundings of the process, the part of their world that holds the
    journal ([Journalled]), the checked append as an action of that world, and
    what is known of the file once it returned. *)
From S2P Require Import Prelude PyValue MutationJournal TypedJournal Effect.

#[local] Open Scope Z_scope.

(** What surrounds an operation: its effective user, what other processes do
    to the file and what the system calls of its [n]-th access return.  An
    access has three moments at which the file is not locked: [3 n] before it,
    [3 n + 1] between the reading and the appending of a checked append, and
    [3 n + 2] between its appending and its reading back. *)
Record surroundings := Surroundings {
  su_euid : Z;
  su_others : nat → fs → fs;
  su_calls : nat → io;
}.

(** [except BaseException]; every class of the model derives from
    [Exception], so this is [except Exception] as well. *)
Definition any_class (_ : exn_class) : bool := true.

(** Other processes write whole lines. *)
Definition keeps_lines (env : surroundings) : Prop := ∀ n s, complete_lines (entry_content (fs_entry s)) = true →
  complete_lines (entry_content (fs_entry (su_others env n s))) = true.

(** They leave the file alone between an append and the reading back that
    follows it in the same access. *)
Definition settled (env : surroundings) : Prop := ∀ n s,
  fs_entry (su_others env (3 * n + 2) s) = fs_entry s.

(** What the theorems about announced commands assume of other processes. *)
Definition orderly (env : surroundings) : Prop := keeps_lines env ∧ settled env.

(** The journal of a world: its file and the number of accesses so far. *)
Class Journalled (W : Type) := {
  journal_of : W → fs;
  accesses_of : W → nat;
  with_journal : fs → nat → W → W;
}.
Class JournalledLaws (W : Type) `{Journalled W} := {
  journal_of_with s n (w : W) : journal_of (with_journal s n w) = s;
}.

Section calls.
Context {W S H : Type} `{Journalled W} `{TypedJournal S H} (env : surroundings).

Definition seen (w : W) : fs := su_others env (3 * accesses_of w) (journal_of w).

(** A checked append; other processes also act inside it. *)
Definition append_call (operation_id milestone : string) (evidence : value) : act W H := λ w,
  let n := accesses_of w in
  let '(s, r) := append_checked (su_euid env) (su_calls env n) (su_others env (3 * n + 1))
                   (su_others env (3 * n + 2)) (seen w) operation_id milestone evidence in
  (r, with_journal s (Datatypes.S n) w).

Definition read_call : act W H := λ w,
  let s := seen w in (read_history (su_euid env) (fs_entry s), with_journal s (Datatypes.S (accesses_of w)) w).
End calls.

(** The file ends with a record of this milestone and evidence, and [h] is its
    history. *)
Definition ends_with {S H} `{TypedJournal S H} (euid : Z) (s : fs) (h : H) (op m : string) (ev : value) : Prop :=
  ∃ rs record, read euid (fs_entry s) = Ok (rs ++ [record]) ∧ rs ≠ []
    ∧ validate_history (rs ++ [record]) = Ok h ∧ same_entry record (candidate op m ev).

Definition whole (s : fs) : Prop := complete_lines (entry_content (fs_entry s)) = true.

Section laws.
Context {W S H : Type} `{JournalledLaws W} `{TypedJournalLaws S H} (env : surroundings) (lines : orderly env).

Lemma append_call_wp op m ev (w : W) : whole (journal_of w) →
  wp (append_call env op m ev)
    (λ (h : H) w', ∃ s n, w' = with_journal s n w ∧ whole s ∧ ends_with (su_euid env) s h op m ev)
    (λ _ w', ∃ s n, w' = with_journal s n w) w.
Proof.
  intros Hw. unfold wp, append_call. cbv zeta. destruct (append_checked _ _ _ _ _ _ _ _) as [s r] eqn:Ha.
  destruct r as [h|e]; [|by eexists _, _]. eexists s, _. split; [done|].
  apply append_checked_appends in Ha as (Hc & rs & record & Hr & Hne & Hv & Hs); [|apply lines, lines, Hw|apply lines].
  split; [exact Hc|]. by exists rs, record.
Qed.

Lemma read_call_wp (w : W) : whole (journal_of w) →
  wp (read_call env)
    (λ (h : H) w', ∃ s n, w' = with_journal s n w ∧ whole s ∧ read_history (su_euid env) (fs_entry s) = Ok h)
    (λ _ w', ∃ s n, w' = with_journal s n w) w.
Proof.
  intros Hw. unfold wp, read_call. cbv zeta. destruct (read_history _ _) as [h|e] eqn:Hr; [|by eexists _, _].
  eexists (seen env w), _. split; [done|]. split; [by apply lines|]. exact Hr.
Qed.

Lemma ends_with_reads euid s (h : H) op m ev : ends_with euid s h op m ev → read_history euid (fs_entry s) = Ok h.
Proof. intros (rs & record & Hr & _ & Hv & _). unfold read_history. by rewrite Hr. Qed.

(** The transition that accepted the last record. *)
Lemma ends_with_step euid s (h : H) op m ev : ends_with euid s h op m ev →
  ∃ record l0 l n d, tj_step l0 record = Ok l ∧ h = tj_history l n d
    ∧ record@["milestone"] = VStr m ∧ record@["evidence"] = ev.
Proof.
  intros (rs & record & _ & Hne & Hv & (_ & Hm & He)). destruct rs as [|first rest]; [done|].
  apply validate_history_Ok in Hv as (f & r & s0 & l & [= <- <-] & _ & Hs & _ & ->).
  apply fold_result_snoc in Hs as (l0 & _ & Hs). exists record, l0, l. eexists _, _.
  split; [exact Hs|]. split; [reflexivity|]. by split.
Qed.
End laws.

(** ** Whole lines *)

(** Every write completes, whatever else may fail. *)
Definition whole_writes (env : surroundings) : Prop := ∀ n payload, (write_loop (io_writes (su_calls env n)) payload).1 = payload.

Lemma append_whole euid calls s op m ev ex n h : (∀ payload, (write_loop (io_writes calls) payload).1 = payload) →
  whole s → whole (append euid calls s op m ev ex n h).1.
Proof.
  intros Hio Hs. unfold whole, append in *. destruct (check_arguments op m ev n h); [|exact Hs].
  cbn zeta. cbn [fs_entry]. destruct (check_parent euid _); [|exact Hs].
  destruct (open_append euid ex (fs_entry s)) as [f|] eqn:Hf; [|exact Hs]. apply open_append_content in Hf. rewrite <-Hf in Hs.
  destruct (_ || _ || _); [exact Hs|]. cbn [set_mode f_content].
  destruct (plan_append (f_content f) op m ev n h) as [[record payload]|] eqn:Hplan; [|exact Hs].
  apply plan_append_Ok in Hplan as (_ & _ & text & _ & _ & _ & _ & -> & _).
  specialize (Hio (text +:+ String (chr 10) "")). destruct (write_loop _ _) as [written r]. cbn [fst] in Hio. subst written.
  assert (complete_lines (f_content f +:+ (text +:+ String (chr 10) "")) = true) as Hnew
    by (apply complete_lines_app; [exact Hs|apply complete_lines_line]).
  destruct r; [destruct (_ && _)|]; exact Hnew.
Qed.

Section whole.
Context {W S H : Type} `{JournalledLaws W} `{TypedJournalLaws S H} (env : surroundings) (lines : orderly env).

(** What a checked append leaves, complete writes or not. *)
Lemma append_call_any_wp (V : Prop) op m ev (w : W) : (V → whole_writes env) → (V → whole (journal_of w)) →
  wp (append_call env op m ev)
    (λ (h : H) w', ∃ s n, w' = with_journal s n w ∧ (V → whole s ∧ ends_with (su_euid env) s h op m ev))
    (λ _ w', ∃ s n, w' = with_journal s n w ∧ (V → whole s)) w.
Proof.
  intros Hio Hw. unfold wp, append_call. cbv zeta. set (n := accesses_of w). set (others := su_others env (3 * n + 1)).
  set (settle := su_others env (3 * n + 2)).
  assert (V → whole (others (seen env w))) as Hother by (intros HV; apply lines, lines, Hw, HV).
  assert (V → whole (append_checked (su_euid env) (su_calls env n) others settle (seen env w) op m ev).1) as Hafter.
  { intros HV. unfold append_checked. destruct (check_candidate _ _ _ _ _) as [c|e]; [|by apply lines, Hw].
    assert (whole (append (su_euid env) (su_calls env n) (others (seen env w)) op m ev false
      (Some (tj_record_count c)) (Some (tj_head_hash c))).1) as Hs1 by (apply append_whole; auto; by apply Hio).
    destruct (append _ _ _ _ _ _ _ _ _) as [s1 [r|e]]; [apply lines|]; exact Hs1. }
  destruct (append_checked _ _ _ _ _ _ _ _) as [s r] eqn:Ha. cbn [fst] in Hafter. destruct r as [h|e].
  - eexists s, _. split; [done|]. intros HV. split; [by apply Hafter|].
    apply append_checked_appends in Ha as (_ & rs & record & Hr & Hne & Hv & Hs); [|by apply Hother|apply lines].
    by exists rs, record.
  - eexists s, _. split; [done|]. exact Hafter.
Qed.
End whole.
