(* ===== verification/PersistenceJournal.v ===== *)
(** * Catacomb persistence milestones
      ([src/src/t2_enrollment_persistence_journal.py])

    The tracker that rebuilds and validates one immutable multi-batch save
    sequence.  The Python object mutates its attributes; here [consume] returns
    the next tracker.  An exception discards the tracker, as every caller
    does. *)
From S2P Require Import Prelude PyValue Sha256 Json MutationJournal.

#[local] Open Scope Z_scope.

Inductive PersistencePhase :=
  | NOT_STARTED | COMPONENT_READY | PREPARE_INTENT | PREPARED | COMPLETE_INTENT
  | SECURE_BLOB_CAPTURED | HOST_STAGED | CONFIRM_INTENT | BATCH_COMMIT_INTENT
  | BATCH_COMMITTED | FINAL_CONFIRM_INTENT | ATTESTATION_READY | COMPLETE
  | P_OUTCOME_UNKNOWN.

#[export] Instance PersistencePhase_eq_dec : EqDecision PersistencePhase.
Proof. solve_decision. Defined.

Inductive plan_kind := Plan_enrollment | Plan_identity_metadata.

#[export] Instance plan_kind_eq_dec : EqDecision plan_kind.
Proof. solve_decision. Defined.

(** One planned component: its name and its descriptor digest. *)
Definition component : Type := string * string.

Record tracker := Tracker {
  pt_baseline : value;
  pt_plan_kind : plan_kind;
  pt_connection_generation : value;
  pt_phase : PersistencePhase;
  pt_batches : list (list component);
  pt_batch_index : option nat;
  pt_component_index : option nat;
  pt_captured_blob_sha256 : value;
  pt_expected_blob_length : Z;
  pt_staged : gmap string value;
  pt_reconciliation_snapshot_sha256 : value;
  pt_sep_host_generation_equal : bool;
  pt_independent_archive_readback : bool;
  pt_outcome_unknown_stage : value;
  pt_outcome_unknown_host_commit_possible : value;
}.

(** [PersistenceTracker(baseline, plan_kind=kind)]. *)
Definition new_tracker (baseline : value) (kind : plan_kind) : tracker :=
  Tracker baseline kind (baseline@["connection_generation"]) NOT_STARTED [] None None VNone 0 ∅
    VNone false false VNone VNone.

Record PersistenceHistory := PHistory {
  ph_phase : PersistencePhase;
  ph_batches : list (list component);
  ph_batch_index : option nat;
  ph_component_index : option nat;
  ph_staged_files : gmap string value;
  ph_reconciliation_snapshot_sha256 : value;
  ph_sep_host_generation_equal : bool;
  ph_independent_archive_readback : bool;
  ph_outcome_unknown_stage : value;
  ph_outcome_unknown_host_commit_possible : value;
}.

Definition snapshot (t : tracker) : PersistenceHistory :=
  PHistory (pt_phase t) (pt_batches t) (pt_batch_index t) (pt_component_index t) (pt_staged t)
    (pt_reconciliation_snapshot_sha256 t) (pt_sep_host_generation_equal t)
    (pt_independent_archive_readback t) (pt_outcome_unknown_stage t)
    (pt_outcome_unknown_host_commit_possible t).

(** ** Attribute updates *)

Definition set_phase (p : PersistencePhase) (t : tracker) : tracker :=
  Tracker (pt_baseline t) (pt_plan_kind t) (pt_connection_generation t) p (pt_batches t)
    (pt_batch_index t) (pt_component_index t) (pt_captured_blob_sha256 t) (pt_expected_blob_length t)
    (pt_staged t) (pt_reconciliation_snapshot_sha256 t) (pt_sep_host_generation_equal t)
    (pt_independent_archive_readback t) (pt_outcome_unknown_stage t)
    (pt_outcome_unknown_host_commit_possible t).
Definition set_generation (g : value) (t : tracker) : tracker :=
  Tracker (pt_baseline t) (pt_plan_kind t) g (pt_phase t) (pt_batches t)
    (pt_batch_index t) (pt_component_index t) (pt_captured_blob_sha256 t) (pt_expected_blob_length t)
    (pt_staged t) (pt_reconciliation_snapshot_sha256 t) (pt_sep_host_generation_equal t)
    (pt_independent_archive_readback t) (pt_outcome_unknown_stage t)
    (pt_outcome_unknown_host_commit_possible t).
Definition set_position (batches : list (list component)) (b c : nat) (staged : gmap string value)
    (t : tracker) : tracker :=
  Tracker (pt_baseline t) (pt_plan_kind t) (pt_connection_generation t) (pt_phase t) batches
    (Some b) (Some c) (pt_captured_blob_sha256 t) (pt_expected_blob_length t)
    staged (pt_reconciliation_snapshot_sha256 t) (pt_sep_host_generation_equal t)
    (pt_independent_archive_readback t) (pt_outcome_unknown_stage t)
    (pt_outcome_unknown_host_commit_possible t).
Definition set_blob (captured : value) (expected : Z) (t : tracker) : tracker :=
  Tracker (pt_baseline t) (pt_plan_kind t) (pt_connection_generation t) (pt_phase t) (pt_batches t)
    (pt_batch_index t) (pt_component_index t) captured expected
    (pt_staged t) (pt_reconciliation_snapshot_sha256 t) (pt_sep_host_generation_equal t)
    (pt_independent_archive_readback t) (pt_outcome_unknown_stage t)
    (pt_outcome_unknown_host_commit_possible t).
Definition set_staged (staged : gmap string value) (t : tracker) : tracker :=
  Tracker (pt_baseline t) (pt_plan_kind t) (pt_connection_generation t) (pt_phase t) (pt_batches t)
    (pt_batch_index t) (pt_component_index t) (pt_captured_blob_sha256 t) (pt_expected_blob_length t)
    staged (pt_reconciliation_snapshot_sha256 t) (pt_sep_host_generation_equal t)
    (pt_independent_archive_readback t) (pt_outcome_unknown_stage t)
    (pt_outcome_unknown_host_commit_possible t).
Definition set_unknown (stage host_commit : value) (t : tracker) : tracker :=
  Tracker (pt_baseline t) (pt_plan_kind t) (pt_connection_generation t) (pt_phase t) (pt_batches t)
    (pt_batch_index t) (pt_component_index t) (pt_captured_blob_sha256 t) (pt_expected_blob_length t)
    (pt_staged t) (pt_reconciliation_snapshot_sha256 t) (pt_sep_host_generation_equal t)
    (pt_independent_archive_readback t) stage host_commit.
Definition set_attested (h : value) (t : tracker) : tracker :=
  Tracker (pt_baseline t) (pt_plan_kind t) (pt_connection_generation t) (pt_phase t) (pt_batches t)
    (pt_batch_index t) (pt_component_index t) (pt_captured_blob_sha256 t) (pt_expected_blob_length t)
    (pt_staged t) h true true (pt_outcome_unknown_stage t)
    (pt_outcome_unknown_host_commit_possible t).

(** ** Evidence checks *)

Definition perr {A} (msg : string) : result A := raise PersistenceJournalError msg.
Definition preject (b : bool) (msg : string) : result unit := fail_if b PersistenceJournalError msg.

Definition p_exact (v : value) (keys : list string) (field : string) : result value :=
  _ ← preject (negb (has_keys v keys)) (field +:+ " evidence does not match its schema");
  Ok v.

Definition p_uint (v : value) (field : string) (maximum : Z) : result Z :=
  _ ← preject (negb (is_int v) || negb ((0 <=? int_value v) && (int_value v <=? maximum)))
        (field +:+ " is not a bounded unsigned integer");
  Ok (int_value v).
Definition UINT32_MAX : Z := 4294967295.

Definition p_sha256 (v : value) (field : string) : result unit :=
  rewrap PersistenceJournalError (require_sha256 v field).

Definition p_status_zero (v : value) (field : string) : result unit :=
  preject (negb (is_int v) || negb (int_value v =? 0)) (field +:+ " is not successful").

Definition p_allowed_names (apple_uid : value) : list string :=
  ["master.cat"; "biolockout.cat"; user_cat apple_uid].

Definition p_same_generation (t : tracker) (evidence : value) : result unit :=
  preject (evidence@["connection_generation"] !=? pt_connection_generation t)
    "Catacomb persistence connection generation changed".

(** [use_recovery_generation]. *)
Definition use_recovery_generation (t : tracker) (connection_generation : value) : result tracker :=
  _ ← preject (negb (bool_decide (pt_phase t = NOT_STARTED)))
        "Catacomb persistence generation changed after planning";
  _ ← rewrap PersistenceJournalError (require_uuid connection_generation "recovery connection generation");
  _ ← preject (connection_generation ==? (pt_baseline t)@["connection_generation"])
        "Catacomb recovery did not use a fresh connection generation";
  Ok (set_generation connection_generation t).

Definition current_batch (t : tracker) (b : nat) : result (list component) :=
  match pt_batches t !! b with Some x => Ok x | None => raise IndexError "batch" end.
Definition p_current (t : tracker) : result component :=
  match pt_batch_index t, pt_component_index t with
  | Some b, Some c =>
      batch ← current_batch t b;
      match batch !! c with Some x => Ok x | None => raise IndexError "component" end
  | _, _ => perr "Catacomb persistence has no component"
  end.

Definition index_is (i : option nat) (z : Z) : bool := bool_decide (Z.of_nat <$> i = Some z).

Definition component_keys : list string :=
  ["connection_generation"; "batch_index"; "component_index"; "name"; "descriptor_sha256"].

Definition component_evidence (t : tracker) (v : value) (milestone : string)
    (extra : list string) : result value :=
  evidence ← p_exact v (component_keys ++ extra) milestone;
  _ ← p_same_generation t evidence;
  batch_index ← p_uint (evidence@["batch_index"]) "batch index" UINT32_MAX;
  component_index ← p_uint (evidence@["component_index"]) "component index" UINT32_MAX;
  current ← p_current t;
  _ ← preject (negb (index_is (pt_batch_index t) batch_index)
               || negb (index_is (pt_component_index t) component_index)
               || (evidence@["name"] !=? VStr current.1)
               || (evidence@["descriptor_sha256"] !=? VStr current.2))
        "Catacomb persistence milestone targets another component";
  Ok evidence.

(** The list whose canonical text a batch digest covers. *)
Fixpoint staged_entries (staged : gmap string value) (batch : list component) : result (list value) :=
  match batch with
  | [] => Ok []
  | (name, _) :: batch =>
      match staged !! name with
      | None => raise KeyError name
      | Some digest =>
          rest ← staged_entries staged batch;
          Ok (dict [("name", VStr name); ("final_file_sha256", digest)] :: rest)
      end
  end.

Definition batch_evidence (t : tracker) (v : value) (milestone : string) : result value :=
  evidence ← p_exact v ["connection_generation"; "batch_index"; "staged_snapshot_sha256"] milestone;
  _ ← p_same_generation t evidence;
  batch_index ← p_uint (evidence@["batch_index"]) "batch index" UINT32_MAX;
  _ ← preject (negb (index_is (pt_batch_index t) batch_index)) "Catacomb batch index changed";
  _ ← p_sha256 (evidence@["staged_snapshot_sha256"]) "staged snapshot SHA-256";
  batch ← current_batch t (default O (pt_batch_index t));
  entries ← staged_entries (pt_staged t) batch;
  text ← canonical (VList entries);
  _ ← preject (evidence@["staged_snapshot_sha256"] !=? VStr (sha256_hex text))
        "staged Catacomb snapshot digest differs";
  Ok evidence.

(** ** The immutable plan *)

(** The names and the descriptor digests seen so far. *)
Record plan_acc := PlanAcc { pa_seen : list string; pa_descriptors : list string }.

(** [f"{milestone} batch {b} component {c}"]. *)
Definition component_label (milestone : string) (b c : nat) : string :=
  milestone +:+ " batch " +:+ dec (Z.of_nat b) (" component " +:+ dec (Z.of_nat c) "").

Definition plan_component (t : tracker) (label : string) (acc : plan_acc) (v : value)
    : result (component * plan_acc) :=
  component ← p_exact v ["name"; "descriptor_sha256"] label;
  let name := component@["name"] in
  bad ← not_in_names name (p_allowed_names ((pt_baseline t)@["apple_uid"]))
        ||! Ok (bool_decide (str_value name ∈ pa_seen acc));
  _ ← preject bad "Catacomb persistence component is invalid or duplicated";
  _ ← p_sha256 (component@["descriptor_sha256"]) "component descriptor SHA-256";
  let descriptor := str_value (component@["descriptor_sha256"]) in
  _ ← preject (bool_decide (descriptor ∈ pa_descriptors acc))
        "Catacomb component descriptor digest is duplicated";
  Ok ((str_value name, descriptor),
      PlanAcc (str_value name :: pa_seen acc) (descriptor :: pa_descriptors acc)).

Fixpoint plan_batch (t : tracker) (milestone : string) (b c : nat) (acc : plan_acc) (vs : list value)
    : result (list component * plan_acc) :=
  match vs with
  | [] => Ok ([], acc)
  | v :: vs =>
      '(x, acc) ← plan_component t (component_label milestone b c) acc v;
      '(xs, acc) ← plan_batch t milestone b (S c) acc vs;
      Ok (x :: xs, acc)
  end.

Definition names_of (batch : list component) : list string := batch.*1.

Fixpoint plan_batches (t : tracker) (milestone : string) (b : nat) (acc : plan_acc) (vs : list value)
    : result (list (list component) * plan_acc) :=
  match vs with
  | [] => Ok ([], acc)
  | v :: vs =>
      _ ← preject (negb (is_list v) || negb (truthy v)) "Catacomb persistence batch is empty";
      '(batch, acc) ← plan_batch t milestone b 0 acc (list_value v);
      _ ← preject (bool_decide ("master.cat" ∈ names_of batch)
                   && negb (bool_decide (last (names_of batch) = Some "master.cat")))
            "master Catacomb must be last in its batch";
      '(batches, acc) ← plan_batches t milestone (S b) acc vs;
      Ok (batch :: batches, acc)
  end.

(** The component order each kind of plan must have. *)
Definition check_plan_shape (t : tracker) (allow_biolockout_only : bool)
    (normalized : list (list component)) (seen : list string) : result unit :=
  let user_name := user_cat ((pt_baseline t)@["apple_uid"]) in
  let shape := map names_of normalized in
  _ ← match pt_plan_kind t with
      | Plan_identity_metadata =>
          preject (allow_biolockout_only || negb (bool_decide (shape = [[user_name]])))
            "identity metadata persistence must contain only its user Catacomb"
      | Plan_enrollment =>
          if allow_biolockout_only then
            preject (negb (bool_decide (shape = [["biolockout.cat"]])))
              "failure persistence must contain only bio-lockout Catacomb"
          else
            preject (negb (bool_decide ("master.cat" ∈ seen) && bool_decide (user_name ∈ seen)))
              "enrollment persistence omits the user or master Catacomb"
      end;
  let full := bool_decide (pt_plan_kind t = Plan_enrollment) && negb allow_biolockout_only in
  _ ← preject (full && negb (bool_decide (head shape = Some [user_name; "master.cat"])))
        "primary enrollment batch must contain user then master Catacomb";
  preject (full && (negb (length normalized =? 2)%nat
                    || negb (bool_decide (shape !! 1%nat = Some ["biolockout.cat"]))))
    "secondary enrollment batch must contain only bio-lockout Catacomb".

Definition on_plan (t : tracker) (v : value) (milestone : string) (allow_biolockout_only : bool)
    : result tracker :=
  _ ← preject (negb (bool_decide (pt_phase t = NOT_STARTED)))
        "Catacomb persistence plan is out of order";
  evidence ← p_exact v ["connection_generation"; "batches"] milestone;
  _ ← p_same_generation t evidence;
  let batches := evidence@["batches"] in
  let n := length (list_value batches) in
  _ ← preject (negb (is_list batches) || negb ((1 <=? n) && (n <=? 2))%nat)
        "Catacomb persistence batches are invalid";
  '(normalized, acc) ← plan_batches t milestone 0 (PlanAcc [] []) (list_value batches);
  _ ← check_plan_shape t allow_biolockout_only normalized (pa_seen acc);
  Ok (set_phase COMPONENT_READY (set_position normalized 0 0 (pt_staged t) t)).

(** ** One milestone *)

Definition require_phase (t : tracker) (p : PersistencePhase) (msg : string) : result unit :=
  preject (negb (bool_decide (pt_phase t = p))) msg.

Definition failure_stages : list string :=
  ["prepare"; "complete"; "encode"; "host-stage"; "early-confirm"; "host-commit";
   "final-confirm"; "readback"].
Definition failure_reasons : list string :=
  ["transport-error"; "journal-error"; "codec-error"; "host-store-error"; "readback-error"].

Definition on_early_confirm_recovered (t : tracker) (v : value) (milestone : string) : result tracker :=
  _ ← preject (negb (bool_decide (pt_phase t = P_OUTCOME_UNKNOWN))
               || negb (eq_str (pt_outcome_unknown_stage t) "early-confirm")
               || negb (is_false (pt_outcome_unknown_host_commit_possible t)))
        "early Catacomb confirm recovery is out of order";
  evidence ← p_exact v (component_keys ++ ["sep_component_clean"; "staged_file_sha256"]) milestone;
  let connection_generation := evidence@["connection_generation"] in
  _ ← rewrap PersistenceJournalError (require_uuid connection_generation "recovery connection generation");
  _ ← preject (connection_generation ==? pt_connection_generation t)
        "early confirm recovery reused the ambiguous connection";
  batch_index ← p_uint (evidence@["batch_index"]) "batch index" UINT32_MAX;
  component_index ← p_uint (evidence@["component_index"]) "component index" UINT32_MAX;
  current ← p_current t;
  _ ← preject (negb (index_is (pt_batch_index t) batch_index)
               || negb (index_is (pt_component_index t) component_index)
               || (evidence@["name"] !=? VStr current.1)
               || (evidence@["descriptor_sha256"] !=? VStr current.2)
               || negb (is_true (evidence@["sep_component_clean"]))
               || (evidence@["staged_file_sha256"] !=? default VNone (pt_staged t !! current.1)))
        "early confirm recovery evidence differs from the journal";
  let b := default O (pt_batch_index t) in
  let c := S (default O (pt_component_index t)) in
  batch ← current_batch t b;
  _ ← preject (length batch <=? c)%nat "early confirm recovery has no following component";
  Ok (set_phase COMPONENT_READY (set_unknown VNone VNone (set_blob VNone 0
       (set_position (pt_batches t) b c (pt_staged t) (set_generation connection_generation t))))).

Definition on_outcome_unknown (t : tracker) (v : value) (milestone : string) : result tracker :=
  _ ← preject (bool_decide (pt_phase t ∈ [COMPONENT_READY; COMPLETE; P_OUTCOME_UNKNOWN]))
        "persistence outcome-unknown marker is out of order";
  evidence ← component_evidence t v milestone ["stage"; "reason"; "sep_mutation_possible"; "host_commit_possible"];
  bad_stage ← not_in_names (evidence@["stage"]) failure_stages;
  _ ← preject bad_stage "persistence failure stage is invalid";
  bad_reason ← not_in_names (evidence@["reason"]) failure_reasons;
  _ ← preject bad_reason "persistence failure reason is invalid";
  _ ← preject (negb (is_true (evidence@["sep_mutation_possible"]))
               || negb (is_bool (evidence@["host_commit_possible"])))
        "persistence ambiguity flags are invalid";
  Ok (set_phase P_OUTCOME_UNKNOWN
       (set_unknown (evidence@["stage"]) (evidence@["host_commit_possible"]) t)).

Definition on_prepare_intent (t : tracker) (v : value) (milestone : string) : result tracker :=
  _ ← require_phase t COMPONENT_READY "Catacomb prepare intent is out of order";
  _ ← component_evidence t v milestone [];
  Ok (set_phase PREPARE_INTENT t).

Definition MAX_BLOB : Z := 1024 * 1024.

Definition on_prepared (t : tracker) (v : value) (milestone : string) : result tracker :=
  _ ← require_phase t PREPARE_INTENT "Catacomb prepare observation is out of order";
  evidence ← component_evidence t v milestone ["status"; "expected_blob_length"];
  _ ← p_status_zero (evidence@["status"]) "Catacomb prepare status";
  expected ← p_uint (evidence@["expected_blob_length"]) "expected secure blob length" MAX_BLOB;
  _ ← preject (expected =? 0) "expected secure blob is empty";
  Ok (set_phase PREPARED (set_blob (pt_captured_blob_sha256 t) expected t)).

Definition on_complete_intent (t : tracker) (v : value) (milestone : string) : result tracker :=
  _ ← require_phase t PREPARED "Catacomb complete intent is out of order";
  _ ← component_evidence t v milestone [];
  Ok (set_phase COMPLETE_INTENT t).

Definition on_secure_blob_captured (t : tracker) (v : value) (milestone : string) : result tracker :=
  _ ← require_phase t COMPLETE_INTENT "secure blob observation is out of order";
  evidence ← component_evidence t v milestone ["status"; "blob_length"; "secure_blob_sha256"];
  _ ← p_status_zero (evidence@["status"]) "Catacomb complete status";
  blob_length ← p_uint (evidence@["blob_length"]) "secure blob length" MAX_BLOB;
  current ← p_current t;
  _ ← preject (negb (if String.eqb current.1 "biolockout.cat"
                     then (16 <=? blob_length) && (blob_length <=? pt_expected_blob_length t)
                     else blob_length =? pt_expected_blob_length t))
        "secure blob length differs from prepare response";
  _ ← p_sha256 (evidence@["secure_blob_sha256"]) "secure blob SHA-256";
  Ok (set_phase SECURE_BLOB_CAPTURED
       (set_blob (evidence@["secure_blob_sha256"]) (pt_expected_blob_length t) t)).

Definition on_host_staged (t : tracker) (v : value) (milestone : string) : result tracker :=
  _ ← require_phase t SECURE_BLOB_CAPTURED "host staging observation is out of order";
  evidence ← component_evidence t v milestone ["secure_blob_sha256"; "final_file_sha256"];
  _ ← p_sha256 (evidence@["secure_blob_sha256"]) "secure blob SHA-256";
  _ ← p_sha256 (evidence@["final_file_sha256"]) "final file SHA-256";
  _ ← preject (evidence@["secure_blob_sha256"] !=? pt_captured_blob_sha256 t)
        "staged host file uses another secure blob";
  current ← p_current t;
  Ok (set_phase HOST_STAGED
       (set_staged (<[current.1 := evidence@["final_file_sha256"]]> (pt_staged t)) t)).

(** [self.component_index == len(self.batches[self.batch_index]) - 1]. *)
Definition final_component (t : tracker) : result bool :=
  batch ← current_batch t (default O (pt_batch_index t));
  Ok (bool_decide (S <$> pt_component_index t = Some (length batch))).

Definition on_confirm_intent (t : tracker) (v : value) (milestone : string) (final : bool) : result tracker :=
  _ ← preject (negb (bool_decide (pt_phase t = HOST_STAGED)) || final)
        "early Catacomb confirm intent is out of order";
  _ ← component_evidence t v milestone [];
  Ok (set_phase CONFIRM_INTENT t).

Definition on_confirmed (t : tracker) (v : value) (milestone : string) : result tracker :=
  _ ← require_phase t CONFIRM_INTENT "early Catacomb confirm is out of order";
  evidence ← component_evidence t v milestone ["status"];
  _ ← p_status_zero (evidence@["status"]) "Catacomb confirm status";
  Ok (set_phase COMPONENT_READY (set_blob VNone 0
       (set_position (pt_batches t) (default O (pt_batch_index t)) (S (default O (pt_component_index t)))
         (pt_staged t) t))).

Definition on_batch_commit_intent (t : tracker) (v : value) (milestone : string) (final : bool) : result tracker :=
  _ ← preject (negb (bool_decide (pt_phase t = HOST_STAGED)) || negb final)
        "host batch commit intent is out of order";
  _ ← batch_evidence t v milestone;
  Ok (set_phase BATCH_COMMIT_INTENT t).

Definition on_batch_committed (t : tracker) (v : value) (milestone : string) : result tracker :=
  _ ← require_phase t BATCH_COMMIT_INTENT "host batch commit is out of order";
  _ ← batch_evidence t v milestone;
  Ok (set_phase BATCH_COMMITTED t).

Definition on_final_confirm_intent (t : tracker) (v : value) (milestone : string) : result tracker :=
  _ ← require_phase t BATCH_COMMITTED "final Catacomb confirm intent is out of order";
  _ ← component_evidence t v milestone [];
  Ok (set_phase FINAL_CONFIRM_INTENT t).

Definition on_final_confirmed (t : tracker) (v : value) (milestone : string) : result tracker :=
  _ ← require_phase t FINAL_CONFIRM_INTENT "final Catacomb confirm is out of order";
  evidence ← component_evidence t v milestone ["status"];
  _ ← p_status_zero (evidence@["status"]) "final Catacomb confirm status";
  let t := set_blob VNone 0 t in
  let b := S (default O (pt_batch_index t)) in
  if (b <? length (pt_batches t))%nat
  then Ok (set_phase COMPONENT_READY (set_position (pt_batches t) b 0 ∅ t))
  else Ok (set_phase ATTESTATION_READY t).

Definition on_attested (t : tracker) (v : value) (milestone : string) : result tracker :=
  _ ← require_phase t ATTESTATION_READY "persistence attestation is out of order";
  evidence ← p_exact v ["connection_generation"; "batch_count"; "reconciliation_snapshot_sha256";
                        "sep_host_generation_equal"; "independent_archive_readback"] milestone;
  _ ← p_same_generation t evidence;
  batch_count ← p_uint (evidence@["batch_count"]) "batch count" UINT32_MAX;
  _ ← preject (negb (batch_count =? Z.of_nat (length (pt_batches t)))) "persistence batch count changed";
  _ ← p_sha256 (evidence@["reconciliation_snapshot_sha256"]) "reconciliation snapshot SHA-256";
  _ ← preject (negb (is_true (evidence@["sep_host_generation_equal"]))
               || negb (is_true (evidence@["independent_archive_readback"])))
        "persistence attestation is incomplete";
  Ok (set_phase COMPLETE (set_attested (evidence@["reconciliation_snapshot_sha256"]) t)).

(** The milestones that need an immutable plan. *)
Definition consume_planned (t : tracker) (milestone : string) (v : value) : result tracker :=
  _ ← preject (bool_decide (pt_phase t = NOT_STARTED)) "Catacomb persistence has no immutable plan";
  if String.eqb milestone "CATACOMB_PERSISTENCE_OUTCOME_UNKNOWN" then on_outcome_unknown t v milestone
  else if String.eqb milestone "CATACOMB_PREPARE_INTENT" then on_prepare_intent t v milestone
  else if String.eqb milestone "CATACOMB_PREPARED" then on_prepared t v milestone
  else if String.eqb milestone "CATACOMB_COMPLETE_INTENT" then on_complete_intent t v milestone
  else if String.eqb milestone "CATACOMB_SECURE_BLOB_CAPTURED" then on_secure_blob_captured t v milestone
  else if String.eqb milestone "CATACOMB_HOST_STAGED" then on_host_staged t v milestone
  else
    final ← final_component t;
    if String.eqb milestone "CATACOMB_CONFIRM_INTENT" then on_confirm_intent t v milestone final
    else if String.eqb milestone "CATACOMB_CONFIRMED" then on_confirmed t v milestone
    else if String.eqb milestone "CATACOMB_HOST_BATCH_COMMIT_INTENT" then on_batch_commit_intent t v milestone final
    else if String.eqb milestone "CATACOMB_HOST_BATCH_COMMITTED" then on_batch_committed t v milestone
    else if String.eqb milestone "CATACOMB_FINAL_CONFIRM_INTENT" then on_final_confirm_intent t v milestone
    else if String.eqb milestone "CATACOMB_FINAL_CONFIRMED" then on_final_confirmed t v milestone
    else if String.eqb milestone "CATACOMB_PERSISTENCE_ATTESTED" then on_attested t v milestone
    else perr "unsupported Catacomb persistence milestone".

(** [consume]: [false] leaves a milestone of another family alone. *)
Definition consume (t : tracker) (milestone v : value) (allow_biolockout_only : bool)
    : result (bool * tracker) :=
  if negb (startswith milestone "CATACOMB_") then Ok (false, t)
  else
    let m := str_value milestone in
    t' ← (if String.eqb m "CATACOMB_EARLY_CONFIRM_RECOVERED" then on_early_confirm_recovered t v m
          else if String.eqb m "CATACOMB_PERSISTENCE_PLAN" then on_plan t v m allow_biolockout_only
          else consume_planned t m v);
    Ok (true, t').

(** ** The abstract state machine

    What a tracker promises: a phase and a position in the plan, moved by one
    milestone at a time.  Evidence is abstracted away. *)

Record position := Pos {
  po_phase : PersistencePhase;
  po_batches : list (list component);
  po_batch : option nat;
  po_component : option nat;
}.

Definition position_of (t : tracker) : position :=
  Pos (pt_phase t) (pt_batches t) (pt_batch_index t) (pt_component_index t).

(** Moves that change the phase only. *)
Inductive plain_move : PersistencePhase → string → PersistencePhase → Prop :=
  | mv_prepare_intent : plain_move COMPONENT_READY "CATACOMB_PREPARE_INTENT" PREPARE_INTENT
  | mv_prepared : plain_move PREPARE_INTENT "CATACOMB_PREPARED" PREPARED
  | mv_complete_intent : plain_move PREPARED "CATACOMB_COMPLETE_INTENT" COMPLETE_INTENT
  | mv_captured : plain_move COMPLETE_INTENT "CATACOMB_SECURE_BLOB_CAPTURED" SECURE_BLOB_CAPTURED
  | mv_staged : plain_move SECURE_BLOB_CAPTURED "CATACOMB_HOST_STAGED" HOST_STAGED
  | mv_committed : plain_move BATCH_COMMIT_INTENT "CATACOMB_HOST_BATCH_COMMITTED" BATCH_COMMITTED
  | mv_final_intent : plain_move BATCH_COMMITTED "CATACOMB_FINAL_CONFIRM_INTENT" FINAL_CONFIRM_INTENT
  | mv_attested : plain_move ATTESTATION_READY "CATACOMB_PERSISTENCE_ATTESTED" COMPLETE.

Definition plan_ok (batches : list (list component)) : Prop :=
  (1 ≤ length batches ≤ 2)%nat ∧ Forall (λ batch, batch ≠ []) batches
  ∧ NoDup (concat (map names_of batches)).

Inductive pstep : position → string → position → Prop :=
  | ps_plan batches :
      plan_ok batches →
      pstep (Pos NOT_STARTED [] None None) "CATACOMB_PERSISTENCE_PLAN"
            (Pos COMPONENT_READY batches (Some O) (Some O))
  | ps_plain p m q bs b c : plain_move p m q → pstep (Pos p bs b c) m (Pos q bs b c)
  | ps_confirm_intent bs b c batch :
      bs !! b = Some batch → S c ≠ length batch →
      pstep (Pos HOST_STAGED bs (Some b) (Some c)) "CATACOMB_CONFIRM_INTENT"
            (Pos CONFIRM_INTENT bs (Some b) (Some c))
  | ps_confirmed bs b c :
      pstep (Pos CONFIRM_INTENT bs (Some b) (Some c)) "CATACOMB_CONFIRMED"
            (Pos COMPONENT_READY bs (Some b) (Some (S c)))
  | ps_commit_intent bs b c batch :
      bs !! b = Some batch → S c = length batch →
      pstep (Pos HOST_STAGED bs (Some b) (Some c)) "CATACOMB_HOST_BATCH_COMMIT_INTENT"
            (Pos BATCH_COMMIT_INTENT bs (Some b) (Some c))
  | ps_next_batch bs b c :
      (S b < length bs)%nat →
      pstep (Pos FINAL_CONFIRM_INTENT bs (Some b) (Some c)) "CATACOMB_FINAL_CONFIRMED"
            (Pos COMPONENT_READY bs (Some (S b)) (Some O))
  | ps_last_batch bs b c :
      (length bs ≤ S b)%nat →
      pstep (Pos FINAL_CONFIRM_INTENT bs (Some b) (Some c)) "CATACOMB_FINAL_CONFIRMED"
            (Pos ATTESTATION_READY bs (Some b) (Some c))
  | ps_unknown p bs b c :
      p ∉ [NOT_STARTED; COMPONENT_READY; COMPLETE; P_OUTCOME_UNKNOWN] →
      pstep (Pos p bs b c) "CATACOMB_PERSISTENCE_OUTCOME_UNKNOWN" (Pos P_OUTCOME_UNKNOWN bs b c)
  | ps_recovered bs b c batch :
      bs !! b = Some batch → (S c < length batch)%nat →
      pstep (Pos P_OUTCOME_UNKNOWN bs (Some b) (Some c)) "CATACOMB_EARLY_CONFIRM_RECOVERED"
            (Pos COMPONENT_READY bs (Some b) (Some (S c))).

(** Reachable positions. *)
Inductive preachable : position → Prop :=
  | pr_start : preachable (Pos NOT_STARTED [] None None)
  | pr_step p m q : preachable p → pstep p m q → preachable q.

(** ** The position invariant *)

(** Phases reached only at the last component of a batch. *)
Definition at_end (p : PersistencePhase) : bool :=
  bool_decide (p ∈ [BATCH_COMMIT_INTENT; BATCH_COMMITTED; FINAL_CONFIRM_INTENT]).

Definition position_wf (p : position) : Prop :=
  match po_batch p, po_component p with
  | None, None => po_phase p = NOT_STARTED ∧ po_batches p = []
  | Some b, Some c =>
      po_phase p ≠ NOT_STARTED ∧ plan_ok (po_batches p)
      ∧ ∃ batch, po_batches p !! b = Some batch ∧ (c < length batch)%nat
        ∧ (at_end (po_phase p) = true → S c = length batch)
        ∧ (po_phase p = CONFIRM_INTENT → S c < length batch)%nat
        ∧ (po_phase p ∈ [ATTESTATION_READY; COMPLETE] → S b = length (po_batches p) ∧ S c = length batch)
  | _, _ => False
  end.

Lemma pstep_wf p m q : position_wf p → pstep p m q → position_wf q.
Proof.
  intros Hwf Hstep. destruct Hstep as
    [bs Hplan|p m q bs b c Hm|bs b c batch Hb Hc|bs b c|bs b c batch Hb Hc|bs b c Hb|bs b c Hb|p bs b c Hp|bs b c batch Hb Hc];
    unfold position_wf in *; cbn [po_phase po_batches po_batch po_component] in *.
  - split; [done|]. split; [done|]. destruct Hplan as ([? ?] & Hne & _).
    destruct bs as [|batch bs]; [simpl in *; lia|]. apply Forall_cons in Hne as [Hne _].
    exists batch. destruct batch; [done|]. simpl. split_and!; try done; [lia|].
    by rewrite !elem_of_cons, elem_of_nil; intros [|[|]].
  - destruct b as [b|], c as [c|]; try done; [|by destruct Hwf as [-> _]; inversion Hm].
    destruct Hwf as (Hn & Hplan & batch & Hb & Hc & He & Hi & Ha).
    assert (q ≠ NOT_STARTED) by (by inversion Hm). split; [done|]. split; [done|].
    exists batch. split; [done|]. split; [done|]. inversion Hm; subst; split_and!; try done;
      try (intros [?|[?|[]%elem_of_nil]%elem_of_cons]%elem_of_cons; done); try (intros _; by apply He);
      intros _; apply Ha; set_solver.
  - destruct Hwf as (_ & Hplan & batch' & Hb' & Hc' & _). assert (batch' = batch) as -> by congruence.
    split; [done|]. split; [done|]. exists batch. split_and!; try done; [lia|set_solver].
  - destruct Hwf as (_ & Hplan & batch & Hb & Hc & _ & Hi & _).
    split; [done|]. split; [done|]. exists batch. split_and!; try done; [auto|set_solver].
  - destruct Hwf as (_ & Hplan & batch' & Hb' & Hc' & _). assert (batch' = batch) as -> by congruence.
    split; [done|]. split; [done|]. exists batch. split_and!; try done. set_solver.
  - destruct Hwf as (_ & Hplan & _). split; [done|]. split; [done|].
    destruct (lookup_lt_is_Some_2 bs (S b) Hb) as [batch Hbatch]. exists batch.
    destruct Hplan as (_ & Hne & _). pose proof (Forall_lookup_1 _ _ _ _ Hne Hbatch).
    destruct batch; [done|]. simpl. split_and!; try done; [lia|set_solver].
  - destruct Hwf as (_ & Hplan & batch & Hbatch & Hc & He & _). split; [done|]. split; [done|].
    exists batch. split_and!; try done. intros _. split; [|by apply He].
    apply lookup_lt_Some in Hbatch. lia.
  - destruct b as [b|], c as [c|]; try done; [|destruct Hwf as [-> _]; set_solver].
    destruct Hwf as (_ & Hplan & batch & Hbatch & Hc & _). split; [done|]. split; [done|].
    exists batch. split_and!; try done. set_solver.
  - destruct Hwf as (_ & Hplan & batch' & Hb' & Hc' & _). assert (batch' = batch) as -> by congruence.
    split; [done|]. split; [done|]. exists batch. split_and!; try done. set_solver.
Qed.

Lemma preachable_wf p : preachable p → position_wf p.
Proof. induction 1; [done|]. eauto using pstep_wf. Qed.

(** ** Inversion of the evidence checks *)

Lemma p_exact_Ok v keys field e : p_exact v keys field = Ok e → e = v ∧ has_keys v keys = true.
Proof. unfold p_exact, preject. intros H. by ok_inv. Qed.

Lemma p_uint_Ok v field max z : p_uint v field max = Ok z → v = VInt z ∧ 0 <= z <= max.
Proof.
  unfold p_uint, preject. intros H. ok_inv. destruct v as [| |z'| | | |]; try done. simpl in *.
  split; [done|]. lia.
Qed.

Lemma require_phase_Ok t p msg u : require_phase t p msg = Ok u → pt_phase t = p.
Proof. unfold require_phase, preject. intros H. ok_inv. by apply bool_decide_eq_true in H. Qed.

(** A tracker that points at a planned component. *)
Definition points_at (t : tracker) (b c : nat) (batch : list component) (x : component) : Prop :=
  pt_batch_index t = Some b ∧ pt_component_index t = Some c
  ∧ pt_batches t !! b = Some batch ∧ batch !! c = Some x.

Lemma p_current_Ok t x : p_current t = Ok x → ∃ b c batch, points_at t b c batch x.
Proof.
  unfold p_current, current_batch, points_at.
  destruct (pt_batch_index t) as [b|]; [|done]. destruct (pt_component_index t) as [c|]; [|done].
  destruct (pt_batches t !! b) as [batch|] eqn:Hb; [|done]. simpl.
  destruct (batch !! c) as [y|] eqn:Hc; [|done]. intros [= <-]. by exists b, c, batch.
Qed.

Lemma component_evidence_Ok t v m extra e :
  component_evidence t v m extra = Ok e →
  e = v ∧ has_keys v (component_keys ++ extra) = true
  ∧ (v@["connection_generation"] ==? pt_connection_generation t) = true
  ∧ ∃ b c batch x, points_at t b c batch x
    ∧ v@["name"] = VStr x.1 ∧ v@["descriptor_sha256"] = VStr x.2.
Proof.
  unfold component_evidence, p_same_generation, preject. intros H. ok_inv.
  match goal with H : p_exact _ _ _ = Ok _ |- _ => apply p_exact_Ok in H as [-> Hk] end.
  match goal with H : p_current _ = Ok ?x |- _ => apply p_current_Ok in H as (b & c & batch & Hp); rename x into y end.
  repeat match goal with H : _ ==? VStr _ = true |- _ => apply py_eq_str_l in H end.
  split_and!; try assumption; [reflexivity|]. exists b, c, batch, y. auto.
Qed.

Lemma index_is_Some i z : index_is i z = true → ∃ n, i = Some n ∧ z = Z.of_nat n.
Proof. unfold index_is. rewrite bool_decide_eq_true. destruct i; simpl; naive_solver. Qed.

Lemma batch_evidence_Ok t v m e :
  batch_evidence t v m = Ok e →
  ∃ b batch entries text, pt_batch_index t = Some b ∧ pt_batches t !! b = Some batch
    ∧ staged_entries (pt_staged t) batch = Ok entries
    ∧ dumps (VList entries) = Some text
    ∧ v@["staged_snapshot_sha256"] = VStr (sha256_hex text).
Proof.
  unfold batch_evidence, preject, current_batch. intros H. ok_inv.
  match goal with H : p_exact _ _ _ = Ok _ |- _ => apply p_exact_Ok in H as [-> Hk] end.
  match goal with H : index_is _ _ = true |- _ => apply index_is_Some in H as (b & Hb & _) end.
  rewrite Hb in *. simpl in *.
  destruct (pt_batches t !! b) as [batch|] eqn:Hbatch; [|done]. ok_inv.
  repeat match goal with H : _ ==? VStr _ = true |- _ => apply py_eq_str_l in H end.
  match goal with H : canonical _ = Ok _ |- _ => apply canonical_Ok in H end. eauto 10.
Qed.

(** Planned names are pairwise distinct. *)
Lemma plan_component_Ok t label acc v x acc' :
  plan_component t label acc v = Ok (x, acc') →
  pa_seen acc' = x.1 :: pa_seen acc ∧ ¬ (x.1 ∈ pa_seen acc)
  ∧ x.1 ∈ p_allowed_names ((pt_baseline t)@["apple_uid"]).
Proof.
  unfold plan_component, preject. intros H. ok_inv. simpl.
  match goal with H : not_in_names _ _ = Ok false |- _ => apply not_in_names_false in H as (s & Hs & Hin) end.
  match goal with H : p_exact _ _ _ = Ok _ |- _ => apply p_exact_Ok in H as [-> Hk] end.
  rewrite Hs in *. simpl in *. ok_inv. split; [reflexivity|]. split; [|exact Hin].
  eapply bool_decide_eq_false_1. eassumption.
Qed.

Lemma plan_batch_Ok t m b : ∀ vs c acc xs acc',
  plan_batch t m b c acc vs = Ok (xs, acc') →
  length xs = length vs ∧ pa_seen acc' = reverse (names_of xs) ++ pa_seen acc
  ∧ (NoDup (pa_seen acc) → NoDup (pa_seen acc')).
Proof.
  induction vs as [|v vs IH]; intros c acc xs acc'; simpl; [by intros [= <- <-]|].
  intros H. ok_inv.
  match goal with H : plan_component _ _ _ _ = _ |- _ => apply plan_component_Ok in H as (Q1 & Q2 & _) end.
  match goal with H : plan_batch _ _ _ _ _ _ = _ |- _ => apply IH in H as (Q3 & Q4 & Q5) end.
  split; [simpl; lia|]. split.
  - unfold names_of in *. rewrite Q4, Q1. simpl. by rewrite reverse_cons, <-(assoc_L (++)).
  - intros Hn. apply Q5. rewrite Q1. by constructor.
Qed.

Lemma plan_batches_Ok t m : ∀ vs b acc bs acc',
  plan_batches t m b acc vs = Ok (bs, acc') →
  length bs = length vs ∧ Forall (λ batch, batch ≠ []) bs
  ∧ pa_seen acc' = reverse (concat (map names_of bs)) ++ pa_seen acc
  ∧ (NoDup (pa_seen acc) → NoDup (pa_seen acc')).
Proof.
  induction vs as [|v vs IH]; intros b acc bs acc'; simpl.
  { by intros [= <- <-]. }
  unfold preject. intros H. ok_inv.
  match goal with H : plan_batch _ _ _ _ _ _ = _ |- _ => apply plan_batch_Ok in H as (Q1 & Q2 & Q3) end.
  match goal with H : plan_batches _ _ _ _ _ = _ |- _ => apply IH in H as (Q4 & Q5 & Q6 & Q7) end.
  split_and!; [simpl; lia| | |auto].
  - constructor; [|done]. intros ->. by destruct v as [| | | | |[|? ?]|].
  - rewrite Q6, Q2. simpl. by rewrite reverse_app, (assoc_L (++)).
Qed.

Lemma on_plan_Ok t v m a t' : on_plan t v m a = Ok t' →
  pt_phase t = NOT_STARTED ∧ (v@["connection_generation"] ==? pt_connection_generation t) = true
  ∧ ∃ bs, plan_ok bs ∧ t' = set_phase COMPONENT_READY (set_position bs 0 0 (pt_staged t) t).
Proof.
  unfold on_plan, p_same_generation, preject. intros H. ok_inv.
  match goal with H : p_exact _ _ _ = Ok _ |- _ => apply p_exact_Ok in H as [-> Hk] end.
  match goal with H : bool_decide (_ = NOT_STARTED) = true |- _ => apply bool_decide_eq_true in H end.
  match goal with H : plan_batches _ _ _ _ _ = _ |- _ => apply plan_batches_Ok in H as (Q1 & Q2 & Q3 & Q4) end.
  split_and!; [done|done|]. eexists. split; [|reflexivity]. split_and!; [..|done|].
  - match goal with H : (1 <=? _)%nat = true |- _ => apply Nat.leb_le in H end. lia.
  - match goal with H : (_ <=? 2)%nat = true |- _ => apply Nat.leb_le in H end. lia.
  - specialize (Q4 ltac:(constructor)). rewrite Q3, app_nil_r in Q4. simpl in Q4.
    by rewrite reverse_Permutation in Q4.
Qed.

(** ** Refinement of the abstract machine *)

Ltac handler_evidence :=
  repeat match goal with
  | H : component_evidence _ _ _ _ = Ok _ |- _ =>
      apply component_evidence_Ok in H as (? & ? & ? & ? & ? & ? & ? & (? & ? & ? & ?) & ? & ?); subst
  | H : require_phase _ _ _ = Ok _ |- _ => apply require_phase_Ok in H
  | H : p_current _ = Ok _ |- _ => apply p_current_Ok in H as (? & ? & ? & ? & ? & ? & ?)
  end.

(** Opens one handler that completed: its guards and evidence become facts. *)
Ltac open_handler f :=
  unfold f, preject; intros H; ok_inv; handler_evidence;
  repeat match goal with
  | H : bool_decide _ = true |- _ => apply bool_decide_eq_true in H
  | H : bool_decide _ = false |- _ => apply bool_decide_eq_false in H
  end;
  unfold position_of; cbn [pt_phase pt_batches pt_batch_index pt_component_index
    set_phase set_blob set_staged set_unknown set_attested set_position set_generation].
Ltac plain_handler f :=
  open_handler f;
  match goal with H : pt_phase _ = _ |- _ => rewrite H end; apply ps_plain; constructor.

Section handlers.
Variables (t t' : tracker) (v : value) (m : string).

Lemma on_prepare_intent_step : on_prepare_intent t v m = Ok t' →
  pstep (position_of t) "CATACOMB_PREPARE_INTENT" (position_of t').
Proof. plain_handler on_prepare_intent. Qed.
Lemma on_prepared_step : on_prepared t v m = Ok t' →
  pstep (position_of t) "CATACOMB_PREPARED" (position_of t').
Proof. plain_handler on_prepared. Qed.
Lemma on_complete_intent_step : on_complete_intent t v m = Ok t' →
  pstep (position_of t) "CATACOMB_COMPLETE_INTENT" (position_of t').
Proof. plain_handler on_complete_intent. Qed.
Lemma on_secure_blob_captured_step : on_secure_blob_captured t v m = Ok t' →
  pstep (position_of t) "CATACOMB_SECURE_BLOB_CAPTURED" (position_of t').
Proof. plain_handler on_secure_blob_captured. Qed.
Lemma on_host_staged_step : on_host_staged t v m = Ok t' →
  pstep (position_of t) "CATACOMB_HOST_STAGED" (position_of t').
Proof. plain_handler on_host_staged. Qed.
Lemma on_batch_committed_step : on_batch_committed t v m = Ok t' →
  pstep (position_of t) "CATACOMB_HOST_BATCH_COMMITTED" (position_of t').
Proof. plain_handler on_batch_committed. Qed.
Lemma on_final_confirm_intent_step : on_final_confirm_intent t v m = Ok t' →
  pstep (position_of t) "CATACOMB_FINAL_CONFIRM_INTENT" (position_of t').
Proof. plain_handler on_final_confirm_intent. Qed.
Lemma on_attested_step : on_attested t v m = Ok t' →
  pstep (position_of t) "CATACOMB_PERSISTENCE_ATTESTED" (position_of t').
Proof. plain_handler on_attested. Qed.

Lemma final_component_Ok final : final_component t = Ok final →
  ∃ batch, pt_batches t !! default O (pt_batch_index t) = Some batch
  ∧ final = bool_decide (S <$> pt_component_index t = Some (length batch)).
Proof.
  unfold final_component, current_batch. intros H. ok_inv.
  destruct (pt_batches t !! _); [|done]. ok_inv. eauto.
Qed.

Lemma on_confirm_intent_step final : final_component t = Ok final →
  on_confirm_intent t v m final = Ok t' →
  pstep (position_of t) "CATACOMB_CONFIRM_INTENT" (position_of t').
Proof.
  intros (batch & Hb & ->)%final_component_Ok. open_handler on_confirm_intent.
  repeat match goal with H : pt_batch_index t = _ |- _ => rewrite H in *; clear H
    | H : pt_component_index t = _ |- _ => rewrite H in *; clear H
    | H : pt_phase t = _ |- _ => rewrite H in * end.
  simpl in *. eapply ps_confirm_intent; [eassumption|]. congruence.
Qed.

Lemma on_confirmed_step : on_confirmed t v m = Ok t' →
  pstep (position_of t) "CATACOMB_CONFIRMED" (position_of t').
Proof.
  open_handler on_confirmed.
  repeat match goal with H : pt_batch_index t = _ |- _ => rewrite H; clear H
    | H : pt_component_index t = _ |- _ => rewrite H; clear H
    | H : pt_phase t = _ |- _ => rewrite H end. constructor.
Qed.

Lemma on_batch_commit_intent_step final : final_component t = Ok final →
  on_batch_commit_intent t v m final = Ok t' →
  pstep (position_of t) "CATACOMB_HOST_BATCH_COMMIT_INTENT" (position_of t').
Proof.
  intros (batch & Hb & ->)%final_component_Ok. open_handler on_batch_commit_intent.
  match goal with H : batch_evidence _ _ _ = Ok _ |- _ => apply batch_evidence_Ok in H as (b & batch' & _ & _ & Hbi & Hb' & _) end.
  match goal with H : S <$> _ = Some _ |- _ => rename H into Hci end.
  match goal with H : pt_phase t = _ |- _ => rewrite H end. rewrite Hbi in *. simpl in *.
  destruct (pt_component_index t) as [c|]; [|done]. simpl in Hci. injection Hci as Hci.
  by apply (ps_commit_intent _ _ _ batch).
Qed.

Lemma on_final_confirmed_step : on_final_confirmed t v m = Ok t' →
  pstep (position_of t) "CATACOMB_FINAL_CONFIRMED" (position_of t').
Proof.
  open_handler on_final_confirmed.
  repeat match goal with H : (if _ then _ else _) = Ok _ |- _ => rename H into Hres end.
  cbn [pt_batch_index pt_batches set_blob] in *.
  match goal with H : pt_batch_index t = Some _ |- _ => rename H into Hbi end.
  match goal with H : pt_component_index t = Some _ |- _ => rename H into Hci end.
  match goal with H : pt_phase t = _ |- _ => rename H into Hph end.
  rewrite Hbi in Hres. simpl default in Hres. unfold id in Hres.
  destruct (Nat.ltb_spec (S x0) (length (pt_batches t))); ok_inv; cbn; rewrite ?Hbi, ?Hci, ?Hph.
  - by apply ps_next_batch.
  - by apply ps_last_batch.
Qed.
End handlers.

Lemma on_outcome_unknown_step t v m t' : on_outcome_unknown t v m = Ok t' → pt_phase t ≠ NOT_STARTED →
  pstep (position_of t) "CATACOMB_PERSISTENCE_OUTCOME_UNKNOWN" (position_of t').
Proof.
  open_handler on_outcome_unknown. intros Hn. apply ps_unknown. set_solver.
Qed.

Lemma on_early_confirm_recovered_step t v m t' : on_early_confirm_recovered t v m = Ok t' →
  pstep (position_of t) "CATACOMB_EARLY_CONFIRM_RECOVERED" (position_of t').
Proof.
  open_handler on_early_confirm_recovered.
  match goal with H : pt_batch_index t = Some _ |- _ => rename H into Hbi end.
  match goal with H : pt_component_index t = Some _ |- _ => rename H into Hci end.
  match goal with H : pt_phase t = _ |- _ => rewrite H end.
  rewrite Hbi, Hci in *. unfold current_batch in *. simpl in *.
  match goal with H : match pt_batches t !! ?b with _ => _ end = Ok _ |- _ =>
    destruct (pt_batches t !! b) as [batch|] eqn:Hb; [|discriminate] end. ok_inv.
  match goal with H : (_ <=? _)%nat = false |- _ => apply Nat.leb_gt in H end.
  eapply ps_recovered; [eassumption|]. lia.
Qed.

(** Every milestone the tracker consumes is a step of the abstract machine
    from a well-formed position. *)
Lemma consume_planned_refines t m v t' :
  consume_planned t m v = Ok t' → pstep (position_of t) m (position_of t').
Proof.
  unfold consume_planned, preject. intros H. ok_inv.
  match goal with H : bool_decide (_ = NOT_STARTED) = false |- _ => apply bool_decide_eq_false in H as Hstarted end.
  match goal with H : (if String.eqb _ _ then _ else _) = Ok _ |- _ => revert H end.
  repeat match goal with
  | |- (if String.eqb ?a ?b then _ else _) = Ok _ → _ => destruct (String.eqb_spec a b) as [->|_]
  end; eauto using on_outcome_unknown_step, on_prepare_intent_step, on_prepared_step,
    on_complete_intent_step, on_secure_blob_captured_step, on_host_staged_step.
  intros (final & Hf & Hcase)%bind_Ok. revert Hcase.
  repeat match goal with
  | |- (if String.eqb ?a ?b then _ else _) = Ok _ → _ => destruct (String.eqb_spec a b) as [->|_]
  end; eauto using on_confirm_intent_step, on_confirmed_step, on_batch_commit_intent_step,
    on_batch_committed_step, on_final_confirm_intent_step, on_final_confirmed_step, on_attested_step.
  done.
Qed.

Lemma consume_refines t m v a t' :
  position_wf (position_of t) →
  consume t m v a = Ok (true, t') → pstep (position_of t) (str_value m) (position_of t').
Proof.
  intros Hwf. unfold consume. destruct (startswith m "CATACOMB_"); [|done]. cbn [negb].
  intros H. ok_inv.
  match goal with H : (if String.eqb _ _ then _ else _) = Ok _ |- _ => revert H end.
  destruct (String.eqb_spec (str_value m) "CATACOMB_EARLY_CONFIRM_RECOVERED") as [->|_];
    [apply on_early_confirm_recovered_step|].
  destruct (String.eqb_spec (str_value m) "CATACOMB_PERSISTENCE_PLAN") as [->|_];
    [|apply consume_planned_refines].
  intros (Hp & _ & bs & Hbs & ->)%on_plan_Ok. unfold position_of in *. cbn in *.
  unfold position_wf in Hwf. cbn in Hwf.
  destruct (pt_batch_index t), (pt_component_index t); try done; [naive_solver|].
  destruct Hwf as [_ ->]. rewrite Hp. by constructor.
Qed.

Lemma new_tracker_wf baseline kind : position_wf (position_of (new_tracker baseline kind)).
Proof. done. Qed.

Lemma consume_wf t m v a b t' :
  position_wf (position_of t) → consume t m v a = Ok (b, t') → position_wf (position_of t').
Proof.
  intros Hwf H. destruct b; [by eapply pstep_wf, consume_refines|].
  revert H. unfold consume. destruct (startswith m "CATACOMB_"); cbn [negb].
  - by intros (? & _ & [=])%bind_Ok.
  - by intros [= <-].
Qed.

Lemma use_recovery_generation_wf t g t' :
  position_wf (position_of t) → use_recovery_generation t g = Ok t' → position_wf (position_of t').
Proof. intros Hwf H. unfold use_recovery_generation, preject in H. by ok_inv. Qed.

(** ** Runs of the tracker *)

(** One consumed record: milestone, evidence and the caller's
    [allow_biolockout_only]. *)
Definition event : Type := value * value * bool.

Definition consume_event (t : tracker) (ev : event) : result tracker :=
  r ← consume t ev.1.1 ev.1.2 ev.2; Ok r.2.

Definition consume_all (t : tracker) (events : list event) : result tracker :=
  fold_result consume_event t events.

(** The milestones of a save sequence, in order. *)
Definition staging_script : list string :=
  ["CATACOMB_PREPARE_INTENT"; "CATACOMB_PREPARED"; "CATACOMB_COMPLETE_INTENT";
   "CATACOMB_SECURE_BLOB_CAPTURED"; "CATACOMB_HOST_STAGED"].
Definition early_script : list string :=
  staging_script ++ ["CATACOMB_CONFIRM_INTENT"; "CATACOMB_CONFIRMED"].
Definition final_script : list string :=
  staging_script ++ ["CATACOMB_HOST_BATCH_COMMIT_INTENT"; "CATACOMB_HOST_BATCH_COMMITTED";
    "CATACOMB_FINAL_CONFIRM_INTENT"; "CATACOMB_FINAL_CONFIRMED"].

Definition early_scripts (n : nat) : list string := concat (replicate n early_script).
Definition batch_script (batch : list component) : list string :=
  early_scripts (length batch - 1) ++ final_script.
Definition batches_script (batches : list (list component)) : list string :=
  concat (map batch_script batches).
Definition save_script (batches : list (list component)) : list string :=
  "CATACOMB_PERSISTENCE_PLAN" :: batches_script batches ++ ["CATACOMB_PERSISTENCE_ATTESTED"].

(** What the component under way has recorded. *)
Definition component_prefix (p : PersistencePhase) : list string :=
  match p with
  | PREPARE_INTENT => take 1 staging_script
  | PREPARED => take 2 staging_script
  | COMPLETE_INTENT => take 3 staging_script
  | SECURE_BLOB_CAPTURED => take 4 staging_script
  | HOST_STAGED => staging_script
  | CONFIRM_INTENT => take 6 early_script
  | BATCH_COMMIT_INTENT => take 6 final_script
  | BATCH_COMMITTED => take 7 final_script
  | FINAL_CONFIRM_INTENT => take 8 final_script
  | _ => []
  end.

(** What a position reached without an ambiguity has recorded. *)
Definition recorded (p : position) : list string :=
  match po_phase p with
  | NOT_STARTED => []
  | P_OUTCOME_UNKNOWN => []
  | ATTESTATION_READY => "CATACOMB_PERSISTENCE_PLAN" :: batches_script (po_batches p)
  | COMPLETE => save_script (po_batches p)
  | phase =>
      "CATACOMB_PERSISTENCE_PLAN" ::
        batches_script (take (default O (po_batch p)) (po_batches p))
        ++ early_scripts (default O (po_component p)) ++ component_prefix phase
  end.

(** Sequences of abstract steps. *)
Inductive psteps : position → list string → position → Prop :=
  | pss_nil p : psteps p [] p
  | pss_snoc p ms q m r : psteps p ms q → pstep q m r → psteps p (ms ++ [m]) r.

Lemma psteps_wf p ms q : position_wf p → psteps p ms q → position_wf q.
Proof. intros Hp. induction 1; eauto using pstep_wf. Qed.

Lemma psteps_cons p m q ms r : pstep p m q → psteps q ms r → psteps p (m :: ms) r.
Proof.
  intros Hp. induction 1 as [|q ms r m' s _ IH Hs].
  - apply (pss_snoc p [] p m); [constructor|exact Hp].
  - apply (pss_snoc p (m :: ms) r m' s); [exact (IH Hp)|exact Hs].
Qed.

Lemma batches_script_take_S b bs batch : bs !! b = Some batch →
  batches_script (take (S b) bs) = batches_script (take b bs) ++ batch_script batch.
Proof.
  intros Hb. rewrite (take_S_r _ _ _ Hb). unfold batches_script.
  rewrite map_app, concat_app. simpl. by rewrite app_nil_r.
Qed.

Lemma early_scripts_S n : early_scripts (S n) = early_scripts n ++ early_script.
Proof.
  unfold early_scripts. by rewrite replicate_S_end, concat_app.
Qed.

(** The milestones that report or resolve an ambiguity. *)
Definition ambiguity : list string :=
  ["CATACOMB_PERSISTENCE_OUTCOME_UNKNOWN"; "CATACOMB_EARLY_CONFIRM_RECOVERED"].

Lemma recorded_step p m q :
  position_wf p → pstep p m q → m ∉ ambiguity → recorded q = recorded p ++ [m].
Proof.
  intros Hwf Hstep Hm.
  destruct Hstep as
    [bs Hplan|p m q bs b c Hpm|bs b c batch Hb Hc|bs b c|bs b c batch Hb Hc|bs b c Hb|bs b c Hb|p bs b c Hp|bs b c batch Hb Hc].
  - done.
  - destruct Hpm; cbn -[batches_script early_scripts]; rewrite <-?(assoc_L (++)); done.
  - cbn -[batches_script early_scripts]. by rewrite <-?(assoc_L (++)).
  - cbn -[batches_script early_scripts]. rewrite early_scripts_S, app_nil_r.
    rewrite <-?(assoc_L (++)). done.
  - cbn -[batches_script early_scripts]. by rewrite <-?(assoc_L (++)).
  - unfold position_wf in Hwf. cbn in Hwf. destruct Hwf as (_ & _ & batch & Hbatch & Hc & He & _).
    specialize (He eq_refl). unfold recorded. cbn -[batches_script early_scripts take].
    rewrite (batches_script_take_S _ _ _ Hbatch). unfold batch_script at 1.
    replace (length batch - 1)%nat with c by lia. by rewrite <-!(assoc_L (++)).
  - unfold position_wf in Hwf. cbn in Hwf. destruct Hwf as (_ & _ & batch & Hbatch & Hc & He & _).
    specialize (He eq_refl). unfold recorded. cbn -[batches_script early_scripts take].
    apply lookup_lt_Some in Hbatch as Hlt.
    rewrite <-(take_ge bs (S b) Hb) at 1.
    rewrite (batches_script_take_S _ _ _ Hbatch). unfold batch_script at 1.
    replace (length batch - 1)%nat with c by lia. by rewrite <-!(assoc_L (++)).
  - exfalso. apply Hm. set_solver.
  - exfalso. apply Hm. set_solver.
Qed.

Lemma psteps_recorded p ms q :
  position_wf p → psteps p ms q → Forall (λ m, m ∉ ambiguity) ms → recorded q = recorded p ++ ms.
Proof.
  intros Hwf. induction 1 as [p|p ms q m r Hpq IH Hqr]; intros Hms.
  - by rewrite app_nil_r.
  - apply Forall_app in Hms as [Hms Hm].
    apply Forall_cons_1 in Hm as [Hm _].
    specialize (IH Hwf Hms). pose proof (psteps_wf _ _ _ Hwf Hpq) as Hq.
    by rewrite (recorded_step q m r Hq Hqr Hm), IH, (assoc_L (++)).
Qed.

(** The milestones of this family among the events. *)
Definition own_milestones (events : list event) : list string :=
  map (λ ev, str_value ev.1.1) (filter (λ ev, startswith ev.1.1 "CATACOMB_" = true) events).

Lemma consume_all_psteps t events t' :
  position_wf (position_of t) → consume_all t events = Ok t' →
  psteps (position_of t) (own_milestones events) (position_of t').
Proof.
  revert t. induction events as [|[[m v] a] events IH]; intros t Hwf; simpl.
  - intros [= <-]. constructor.
  - intros (t1 & H1 & Hrest)%bind_Ok. unfold consume_event in H1. simpl in H1.
    apply bind_Ok in H1 as ([b t2] & Hc & [= <-]).
    pose proof (consume_wf _ _ _ _ _ _ Hwf Hc) as Hwf2. simpl in *.
    unfold own_milestones. rewrite filter_cons. simpl.
    destruct b.
    + pose proof (consume_refines _ _ _ _ _ Hwf Hc) as Hs.
      rewrite decide_True; [simpl; eapply psteps_cons; [exact Hs|exact (IH _ Hwf2 Hrest)]|].
      unfold consume in Hc. destruct (startswith m "CATACOMB_"); [reflexivity|discriminate].
    + unfold consume in Hc. destruct (startswith m "CATACOMB_"); cbn [negb] in Hc.
      * apply bind_Ok in Hc as (? & _ & ?). discriminate.
      * injection Hc as <-. rewrite decide_False; [exact (IH _ Hwf2 Hrest)|discriminate].
Qed.

(** C21: a save sequence that a tracker accepts to the end, without an ambiguous
    component, recorded exactly the milestones of its plan: for every batch and
    component in order prepare, complete, capture and stage, an early confirm
    after every component but the last of its batch, one host commit and one
    final confirm per batch, and one attestation. *)
Theorem complete_save_follows_script (baseline : value) (kind : plan_kind) (events : list event) (t : tracker)
    (Hrun : consume_all (new_tracker baseline kind) events = Ok t)
    (Hdone : pt_phase t = COMPLETE)
    (Hclear : Forall (λ m, m ∉ ambiguity) (own_milestones events)) :
  own_milestones events = save_script (pt_batches t) ∧ plan_ok (pt_batches t).
Proof.
  pose proof (new_tracker_wf baseline kind) as Hwf.
  apply consume_all_psteps in Hrun as Hs; [|exact Hwf].
  pose proof (psteps_recorded _ _ _ Hwf Hs Hclear) as Hrec.
  pose proof (psteps_wf _ _ _ Hwf Hs) as Hend.
  unfold recorded in Hrec at 1. cbn in Hrec. rewrite Hdone in Hrec. split; [by rewrite <-Hrec|].
  unfold position_wf, position_of in Hend. cbn in Hend. rewrite Hdone in Hend.
  destruct (pt_batch_index t), (pt_component_index t); try done; naive_solver.
Qed.

(** the tracker refines the abstract save machine: whatever records it
    accepts from a fresh tracker form a path of [pstep], and the place it
    reaches is well formed (an immutable plan of one or two non-empty batches
    without repeated components, indices inside the plan, host commits only at
    the last component of a batch, attestation only after the last batch). *)
Theorem tracker_refines_machine (baseline : value) (kind : plan_kind) (events : list event) (t : tracker)
    (Hrun : consume_all (new_tracker baseline kind) events = Ok t) :
  psteps (Pos NOT_STARTED [] None None) (own_milestones events) (position_of t)
  ∧ position_wf (position_of t).
Proof.
  pose proof (new_tracker_wf baseline kind) as Hwf.
  pose proof (consume_all_psteps _ _ _ Hwf Hrun) as Hs.
  split; [exact Hs|exact (psteps_wf _ _ _ Hwf Hs)].
Qed.

Lemma staged_entries_Ok staged batch entries : staged_entries staged batch = Ok entries →
  Forall2 (λ x e, ∃ digest, staged !! x.1 = Some digest
                  ∧ e = dict [("name", VStr x.1); ("final_file_sha256", digest)]) batch entries.
Proof.
  revert entries. induction batch as [|[name descriptor] batch IH]; intros entries; cbn.
  - intros [= <-]. constructor.
  - destruct (staged !! name) as [digest|] eqn:Hs; [|done].
    intros (rest & Hrest & [= <-])%bind_Ok. constructor; [|exact (IH _ Hrest)].
    exists digest. split; [exact Hs|reflexivity].
Qed.

Lemma consume_own t m v a b t' : consume t (VStr m) v a = Ok (b, t') → startswith (VStr m) "CATACOMB_" = true →
  m ≠ "CATACOMB_EARLY_CONFIRM_RECOVERED" → m ≠ "CATACOMB_PERSISTENCE_PLAN" →
  consume_planned t m v = Ok t'.
Proof.
  intros H Hs H1 H2. unfold consume in H. rewrite Hs in H. cbn in H.
  apply bind_Ok in H as (t1 & H & [= <- <-]).
  destruct (String.eqb_spec m "CATACOMB_EARLY_CONFIRM_RECOVERED"); [done|].
  destruct (String.eqb_spec m "CATACOMB_PERSISTENCE_PLAN"); [done|]. exact H.
Qed.

(** a host batch is committed only under a digest of its whole staged
    content: an accepted commit milestone means every component of the current
    batch has a staged final file, and the evidence carries the SHA-256 of the
    canonical list of those files in plan order. *)
Theorem commit_covers_staged_batch (t : tracker) (m : string) (v : value) (a b : bool) (t' : tracker)
    (Hm : m ∈ ["CATACOMB_HOST_BATCH_COMMIT_INTENT"; "CATACOMB_HOST_BATCH_COMMITTED"])
    (Hrun : consume t (VStr m) v a = Ok (b, t')) :
  ∃ i batch entries text,
    pt_batch_index t = Some i ∧ pt_batches t !! i = Some batch
    ∧ Forall2 (λ x e, ∃ digest, pt_staged t !! x.1 = Some digest
                 ∧ e = dict [("name", VStr x.1); ("final_file_sha256", digest)]) batch entries
    ∧ dumps (VList entries) = Some text
    ∧ v@["staged_snapshot_sha256"] = VStr (sha256_hex text).
Proof.
  assert (∃ e, batch_evidence t v m = Ok e) as [e He].
  { apply elem_of_cons in Hm as [->|Hm]; [|apply list_elem_of_singleton in Hm as ->];
      apply consume_own in Hrun; try done; unfold consume_planned in Hrun; cbn in Hrun;
      unfold on_batch_commit_intent, on_batch_committed in Hrun; ok_inv; eexists; eassumption. }
  apply batch_evidence_Ok in He as (i & batch & entries & text & Hi & Hb & Hs & Hd & Hv).
  exists i, batch, entries, text. split_and!; try assumption. exact (staged_entries_Ok _ _ _ Hs).
Qed.

(** a finished save accepts no further milestone of the family. *)
Theorem complete_save_is_final (baseline : value) (kind : plan_kind) (events : list event) (t : tracker)
    (Hrun : consume_all (new_tracker baseline kind) events = Ok t) (Hdone : pt_phase t = COMPLETE)
    (m v : value) (a : bool) (t' : tracker) :
  consume t m v a ≠ Ok (true, t').
Proof.
  intros Hc. pose proof (new_tracker_wf baseline kind) as Hwf.
  pose proof (psteps_wf _ _ _ Hwf (consume_all_psteps _ _ _ Hwf Hrun)) as Hend.
  apply consume_refines in Hc; [|exact Hend].
  unfold position_of in Hc at 1. rewrite Hdone in Hc. inversion Hc as [|? ? ? ? ? ? Hp| | | | | |? ? ? ? Hp|]; subst.
  - inversion Hp.
  - apply Hp. set_solver.
Qed.
