(* ===== verification/EnrollmentJournal.v ===== *)
(** * Enrolment journal ([src/src/t2_enrollment_journal.py])

    The typed transition rules of one enrolment, one definition per milestone
    in the order of the code, the history object, and the lease check made
    before the start command.  Section [handlers] fixes the reconciled
    baseline of the first record. *)
From S2P Require Import Prelude PyValue Sha256 Json MutationJournal Evidence TypedJournal PersistenceJournal.

#[local] Open Scope Z_scope.

Definition SERVICE_STATUS : Z := 3825172481.
Definition SERVICE_ENROLLMENT_RESULT : Z := 3825172483.

Inductive EnrollmentPhase :=
  | E_BASELINE | E_ABORTED_BEFORE_START | E_START_INTENT | E_ACTIVE | E_CONTINUE_INTENT
  | E_CANCEL_INTENT | E_CANCEL_REQUESTED | E_TERMINAL_WITNESS | E_TERMINAL_IDENTITY
  | E_TERMINAL_FAILURE | E_PERSISTING | E_PERSISTENCE_READY | E_RECONCILED
  | E_POST_REBOOT_VERIFIED | E_OUTCOME_UNKNOWN.

#[export] Instance EnrollmentPhase_eq_dec : EqDecision EnrollmentPhase.
Proof. solve_decision. Defined.

(** The local variables of the loop. *)
Record enroll_state := EState {
  e_phase : EnrollmentPhase;
  e_last_event : option Z;
  e_pending_event : option Z;
  e_terminal_identity : value;
  e_terminal_status : value;
  e_persistence : tracker;
  e_reconciled_snapshot : value;
  e_post_reboot_boot : value;
  e_unknown_stage : value;
  e_persistence_generation : value;
}.
#[export] Instance enroll_state_settable : Settable enroll_state := λ s,
  EState (e_phase s) (e_last_event s) (e_pending_event s) (e_terminal_identity s) (e_terminal_status s)
    (e_persistence s) (e_reconciled_snapshot s) (e_post_reboot_boot s) (e_unknown_stage s)
    (e_persistence_generation s).

Definition enroll_start_state (baseline : value) : enroll_state :=
  EState E_BASELINE None None VNone VNone (new_tracker baseline Plan_enrollment) VNone VNone VNone
    (baseline@["connection_generation"]).

Record EnrollmentHistory := EHistory {
  eh_operation_id : value;
  eh_phase : EnrollmentPhase;
  eh_baseline : value;
  eh_last_event_sequence : option Z;
  eh_pending_event_sequence : option Z;
  eh_record_count : Z;
  eh_head_hash : value;
  eh_terminal_identity_uuid : value;
  eh_terminal_status : value;
  eh_persistence : PersistenceHistory;
  eh_reconciled_snapshot_sha256 : value;
  eh_post_reboot_linux_boot_uuid : value;
  eh_outcome_unknown_stage : value;
  eh_persistence_connection_generation : value;
}.

#[local] Abbreviation eerr := EnrollmentJournalError.
#[local] Abbreviation refuse := (reject EnrollmentJournalError).

(** [phase not in (...)]. *)
Definition e_not_in (s : enroll_state) (ps : list EnrollmentPhase) : bool :=
  negb (bool_decide (e_phase s ∈ ps)).

Definition e_readback_keys : list string :=
  ["connection_generation"; "user_id"; "identity_uuid"; "source"; "single_identity_added";
   "host_unchanged"; "sep_catacomb_advanced"; "per_user_global_equal"; "mapping_generation"].
Definition e_readback_flags : list string :=
  ["single_identity_added"; "host_unchanged"; "sep_catacomb_advanced"; "per_user_global_equal"].
Definition e_reconcile_keys : list string :=
  ["connection_generation"; "snapshot_sha256"; "identity_uuid"; "identity_present";
   "host_sep_identity_equal"; "catacomb_reconciled"; "bindings_preserved"; "mapping_generation";
   "capacity_used"; "capacity_maximum"; "master_enrollment_count"].
Definition e_reconcile_flags : list string :=
  ["host_sep_identity_equal"; "catacomb_reconciled"; "bindings_preserved"].

Section handlers.
Variable baseline : value.

Definition e_same_generation (evidence : value) : result unit :=
  refuse (evidence@["connection_generation"] !=? baseline@["connection_generation"])
    "enrollment connection generation changed".

Definition on_aborted_before_start (s : enroll_state) (v : value) (m : string) : result enroll_state :=
  _ ← refuse (e_not_in s [E_BASELINE]) "pre-dispatch enrollment abort is out of order";
  evidence ← exact eerr v ["connection_generation"; "reason"; "mutation_possible"] m;
  _ ← e_same_generation evidence;
  _ ← refuse ((evidence@["reason"] !=? VStr "safety-guard-unavailable")
              || negb (is_false (evidence@["mutation_possible"])))
        "pre-dispatch enrollment abort evidence is invalid";
  Ok (s <| e_phase := E_ABORTED_BEFORE_START |>).

Definition on_start_intent (s : enroll_state) (v : value) (m : string) : result enroll_state :=
  _ ← refuse (e_not_in s [E_BASELINE]) "enrollment start intent is out of order";
  evidence ← exact eerr v ["apple_uid"; "protocol_version"; "connection_generation";
                           "request_length"; "request_sha256"] m;
  _ ← refuse ((evidence@["apple_uid"] !=? baseline@["apple_uid"])
              || (evidence@["protocol_version"] !=? baseline@["protocol_version"])
              || (evidence@["request_length"] !=?
                    VInt (if baseline@["protocol_version"] ==? VInt 1 then 48 else 68)))
        "start intent disagrees with baseline";
  _ ← e_same_generation evidence;
  _ ← checked_sha256 eerr (evidence@["request_sha256"]) "request_sha256";
  Ok (s <| e_phase := E_START_INTENT |>).

Definition on_start_observed (s : enroll_state) (v : value) (m : string) : result enroll_state :=
  _ ← refuse (e_not_in s [E_START_INTENT]) "enrollment start observation is out of order";
  evidence ← exact eerr v ["status"] m;
  status ← bounded_status eerr (evidence@["status"]) "start status";
  _ ← refuse (negb (status =? 0)) "accepted enrollment start status is not zero";
  Ok (s <| e_phase := E_ACTIVE |>).

Definition on_start_rejected (s : enroll_state) (v : value) (m : string) : result enroll_state :=
  _ ← refuse (e_not_in s [E_START_INTENT]) "enrollment start rejection is out of order";
  evidence ← exact eerr v ["status"] m;
  status ← bounded_status eerr (evidence@["status"]) "start status";
  _ ← refuse (status =? 0) "rejected enrollment start has status zero";
  Ok (s <| e_terminal_status := evidence@["status"] |> <| e_phase := E_TERMINAL_FAILURE |>).

Definition on_continue_intent (s : enroll_state) (v : value) (m : string) : result enroll_state :=
  _ ← refuse (e_not_in s [E_ACTIVE]) "enrollment continue intent is out of order";
  evidence ← exact eerr v ["connection_generation"; "event_sequence"; "event_ordinal"; "event_sha256"] m;
  _ ← e_same_generation evidence;
  sequence ← bounded_uint eerr (evidence@["event_sequence"]) "event sequence" UINT64_MAX;
  ordinal ← bounded_uint eerr (evidence@["event_ordinal"]) "event ordinal" UINT64_MAX;
  _ ← refuse (negb (ordinal =? 70) && negb ((100 <=? ordinal) && (ordinal <=? 355)))
        "continue intent does not follow a continue event";
  _ ← refuse (not_after sequence (e_last_event s)) "continue event sequence is not increasing";
  _ ← checked_sha256 eerr (evidence@["event_sha256"]) "event_sha256";
  Ok (s <| e_pending_event := Some sequence |> <| e_phase := E_CONTINUE_INTENT |>).

Definition on_continue_observed (s : enroll_state) (v : value) (m : string) : result enroll_state :=
  _ ← refuse (e_not_in s [E_CONTINUE_INTENT]) "enrollment continue observation is out of order";
  let legacy := has_keys v ["event_sequence"; "status"] in
  evidence ← (if legacy then Ok v
              else exact eerr v ["event_sequence"; "status"; "return_status_authoritative"] m);
  sequence ← bounded_uint eerr (evidence@["event_sequence"]) "event sequence" UINT64_MAX;
  status ← bounded_status eerr (evidence@["status"]) "continue status";
  _ ← refuse (negb (bool_decide (e_pending_event s = Some sequence)))
        "continue observation disagrees with its intent";
  _ ← (if legacy then refuse (negb (status =? 0)) "legacy continue observation has nonzero status"
       else refuse (negb (is_false (evidence@["return_status_authoritative"])))
              "continue return status was incorrectly treated as authoritative");
  Ok (s <| e_last_event := e_pending_event s |> <| e_pending_event := None |> <| e_phase := E_ACTIVE |>).

Definition on_cancel_intent (s : enroll_state) (v : value) (m : string) : result enroll_state :=
  _ ← refuse (e_not_in s [E_ACTIVE]) "enrollment cancel intent is out of order";
  evidence ← exact eerr v ["connection_generation"; "reason"] m;
  _ ← e_same_generation evidence;
  _ ← refuse (evidence@["reason"] !=? VStr "caller-requested") "unsupported enrollment cancel reason";
  Ok (s <| e_phase := E_CANCEL_INTENT |>).

Definition on_cancel_dispatch_observed (s : enroll_state) (v : value) (m : string) : result enroll_state :=
  _ ← refuse (e_not_in s [E_CANCEL_INTENT]) "cancel dispatch observation is out of order";
  evidence ← exact eerr v ["status"] m;
  status ← bounded_status eerr (evidence@["status"]) "cancel status";
  _ ← refuse (negb (status =? 0)) "accepted cancel dispatch status is not zero";
  Ok (s <| e_phase := E_CANCEL_REQUESTED |>).

Definition on_terminal_identity (s : enroll_state) (v : value) (m : string) : result enroll_state :=
  _ ← refuse (e_not_in s [E_ACTIVE; E_CANCEL_REQUESTED]) "terminal identity is out of order";
  evidence ← exact eerr v ["connection_generation"; "event_sequence"; "envelope_type"; "event_version";
                           "user_id"; "identity_uuid"] m;
  _ ← e_same_generation evidence;
  sequence ← bounded_uint eerr (evidence@["event_sequence"]) "event sequence" UINT64_MAX;
  _ ← refuse (not_after sequence (e_last_event s)) "terminal event sequence is not increasing";
  _ ← refuse ((evidence@["envelope_type"] !=? VInt SERVICE_ENROLLMENT_RESULT)
              || negb (in_ints (evidence@["event_version"]) [1; 2])
              || (evidence@["user_id"] !=? baseline@["apple_uid"]))
        "terminal identity framing is invalid";
  _ ← checked_uuid eerr (evidence@["identity_uuid"]) "identity_uuid";
  Ok (s <| e_terminal_identity := evidence@["identity_uuid"] |> <| e_last_event := Some sequence |>
        <| e_phase := E_TERMINAL_IDENTITY |>).

Definition on_terminal_witness (s : enroll_state) (v : value) (m : string) : result enroll_state :=
  _ ← refuse (e_not_in s [E_ACTIVE; E_CANCEL_REQUESTED]) "terminal result witness is out of order";
  evidence ← exact eerr v ["connection_generation"; "event_sequence"; "envelope_type"; "event_version";
                           "payload_length"; "event_sha256"; "embedded_user_matches"] m;
  _ ← e_same_generation evidence;
  sequence ← bounded_uint eerr (evidence@["event_sequence"]) "event sequence" UINT64_MAX;
  _ ← refuse (not_after sequence (e_last_event s)) "terminal event sequence is not increasing";
  version ← bounded_uint eerr (evidence@["event_version"]) "event version" 2;
  payload_length ← bounded_uint eerr (evidence@["payload_length"]) "payload length" (1024 * 1024);
  let length_valid := if version =? 1 then payload_length =? 20
                      else (version =? 2) && (40 <=? payload_length) in
  _ ← refuse ((evidence@["envelope_type"] !=? VInt SERVICE_ENROLLMENT_RESULT)
              || negb ((version =? 1) || (version =? 2))
              || negb length_valid
              || negb (is_false (evidence@["embedded_user_matches"])))
        "terminal result witness framing is invalid";
  _ ← checked_sha256 eerr (evidence@["event_sha256"]) "event_sha256";
  Ok (s <| e_last_event := Some sequence |> <| e_phase := E_TERMINAL_WITNESS |>).

Definition on_witness_readback (s : enroll_state) (v : value) (m : string) : result enroll_state :=
  _ ← refuse (e_not_in s [E_TERMINAL_WITNESS]) "witness identity read-back is out of order";
  evidence ← exact eerr v e_readback_keys m;
  _ ← e_same_generation evidence;
  _ ← checked_uuid eerr (evidence@["identity_uuid"]) "identity_uuid";
  _ ← checked_sha256 eerr (evidence@["mapping_generation"]) "mapping_generation";
  _ ← refuse ((evidence@["user_id"] !=? baseline@["apple_uid"])
              || (evidence@["source"] !=? VStr "stable-readback")
              || (evidence@["mapping_generation"] !=? baseline@["mapping_generation"]))
        "witness identity read-back binding is invalid";
  _ ← all_true eerr evidence "witness identity read-back field " " is not true" e_readback_flags;
  Ok (s <| e_terminal_identity := evidence@["identity_uuid"] |> <| e_phase := E_TERMINAL_IDENTITY |>).

Definition on_terminal_failure (s : enroll_state) (v : value) (m : string) : result enroll_state :=
  _ ← refuse (e_not_in s [E_ACTIVE; E_CANCEL_REQUESTED]) "terminal failure is out of order";
  evidence ← exact eerr v ["connection_generation"; "event_sequence"; "envelope_type"; "status"] m;
  _ ← e_same_generation evidence;
  sequence ← bounded_uint eerr (evidence@["event_sequence"]) "event sequence" UINT64_MAX;
  _ ← refuse (not_after sequence (e_last_event s)) "terminal event sequence is not increasing";
  _ ← refuse ((evidence@["envelope_type"] !=? VInt SERVICE_STATUS)
              || negb (in_ints (evidence@["status"]) [66; 67; 68]))
        "terminal failure status is invalid";
  Ok (s <| e_last_event := Some sequence |> <| e_terminal_status := evidence@["status"] |>
        <| e_phase := E_TERMINAL_FAILURE |>).

Definition on_failure_readback (s : enroll_state) (v : value) (m : string) : result enroll_state :=
  _ ← refuse (e_not_in s [E_TERMINAL_FAILURE]) "post-failure identity read-back is out of order";
  evidence ← exact eerr v ["connection_generation"; "user_id"; "identity_uuid"; "source"] m;
  _ ← e_same_generation evidence;
  _ ← refuse ((evidence@["user_id"] !=? baseline@["apple_uid"])
              || (evidence@["source"] !=? VStr "stable-readback"))
        "post-failure identity read-back is invalid";
  _ ← checked_uuid eerr (evidence@["identity_uuid"]) "identity_uuid";
  Ok (s <| e_terminal_identity := evidence@["identity_uuid"] |> <| e_phase := E_TERMINAL_IDENTITY |>).

Definition on_recovery_readback (s : enroll_state) (v : value) (m : string) : result enroll_state :=
  _ ← refuse (e_not_in s [E_OUTCOME_UNKNOWN] || (e_unknown_stage s !=? VStr "terminal"))
        "terminal identity recovery is out of order";
  evidence ← exact eerr v e_readback_keys m;
  _ ← checked_uuid eerr (evidence@["connection_generation"]) "recovery connection generation";
  _ ← checked_uuid eerr (evidence@["identity_uuid"]) "identity_uuid";
  _ ← checked_sha256 eerr (evidence@["mapping_generation"]) "mapping_generation";
  _ ← refuse ((evidence@["connection_generation"] ==? baseline@["connection_generation"])
              || (evidence@["user_id"] !=? baseline@["apple_uid"])
              || (evidence@["source"] !=? VStr "stable-readback")
              || (evidence@["mapping_generation"] !=? baseline@["mapping_generation"]))
        "terminal identity recovery binding is invalid";
  _ ← all_true eerr evidence "terminal identity recovery field " " is not true" e_readback_flags;
  let generation := evidence@["connection_generation"] in
  persistence ← use_recovery_generation (e_persistence s) generation;
  Ok (s <| e_terminal_identity := evidence@["identity_uuid"] |>
        <| e_persistence_generation := generation |> <| e_persistence := persistence |>
        <| e_phase := E_TERMINAL_IDENTITY |>).

(** A milestone of the save sequence. *)
Definition on_catacomb (s : enroll_state) (v milestone : value) : result enroll_state :=
  let identity_persistence := negb (is_none (e_terminal_identity s)) in
  let failure_biolockout := is_none (e_terminal_identity s) && negb (is_none (e_terminal_status s)) in
  let early := eq_str milestone "CATACOMB_EARLY_CONFIRM_RECOVERED"
               && bool_decide (e_phase s = E_OUTCOME_UNKNOWN) && identity_persistence in
  _ ← refuse ((negb identity_persistence && negb failure_biolockout)
              || (negb early && e_not_in s [E_TERMINAL_IDENTITY; E_TERMINAL_FAILURE; E_PERSISTING]))
        "Catacomb persistence has no terminal identity or failure";
  '(_, persistence) ← except (λ c, bool_decide (c = PersistenceJournalError))
                        (λ e, Exn EnrollmentJournalError (exn_msg e))
                        (consume (e_persistence s) milestone v failure_biolockout);
  let generation := if early then v@["connection_generation"] else e_persistence_generation s in
  let phase := if bool_decide (pt_phase persistence = COMPLETE) then E_PERSISTENCE_READY
               else if bool_decide (pt_phase persistence = P_OUTCOME_UNKNOWN) then E_OUTCOME_UNKNOWN
               else if early then E_TERMINAL_IDENTITY else E_PERSISTING in
  Ok (s <| e_persistence := persistence |> <| e_persistence_generation := generation |>
        <| e_phase := phase |>).

Definition on_reconciled (s : enroll_state) (v : value) (m : string) : result enroll_state :=
  _ ← refuse (e_not_in s [E_PERSISTENCE_READY; E_TERMINAL_FAILURE]) "E3 reconciliation is out of order";
  evidence ← exact eerr v e_reconcile_keys m;
  _ ← refuse (evidence@["connection_generation"] !=? e_persistence_generation s)
        "E3 used another persistence connection generation";
  _ ← checked_sha256 eerr (evidence@["snapshot_sha256"]) "snapshot_sha256";
  _ ← checked_sha256 eerr (evidence@["mapping_generation"]) "mapping_generation";
  _ ← refuse (evidence@["mapping_generation"] !=? baseline@["mapping_generation"]) "mapping changed before E3";
  _ ← all_true eerr evidence "E3 field " " is not true" e_reconcile_flags;
  used ← bounded_uint eerr (evidence@["capacity_used"]) "capacity used" UINT32;
  maximum ← bounded_uint eerr (evidence@["capacity_maximum"]) "capacity maximum" UINT32;
  _ ← bounded_uint eerr (evidence@["master_enrollment_count"]) "master enrollment count" UINT32;
  let capacity := baseline@["capacity"] in
  _ ← refuse ((maximum <? used) || negb (maximum =? int_value (capacity@["maximum"])))
        "E3 capacity is inconsistent";
  _ ← (if bool_decide (e_phase s = E_PERSISTENCE_READY) && negb (is_none (e_terminal_identity s)) then
         _ ← checked_uuid eerr (evidence@["identity_uuid"]) "identity_uuid";
         refuse ((evidence@["identity_uuid"] !=? e_terminal_identity s)
                 || negb (is_true (evidence@["identity_present"]))
                 || negb (used =? int_value (capacity@["used"]) + 1))
           "E3 identity or capacity does not match E2"
       else
         refuse (negb (is_none (evidence@["identity_uuid"]))
                 || negb (is_false (evidence@["identity_present"]))
                 || negb (used =? int_value (capacity@["used"])))
           "failure reconciliation observed an unexpected identity");
  Ok (s <| e_reconciled_snapshot := evidence@["snapshot_sha256"] |> <| e_phase := E_RECONCILED |>).

Definition on_recovery_reconciled (s : enroll_state) (v : value) (m : string) : result enroll_state :=
  _ ← refuse (e_not_in s [E_OUTCOME_UNKNOWN]) "outcome-unknown recovery reconciliation is out of order";
  evidence ← exact eerr v e_reconcile_keys m;
  _ ← checked_uuid eerr (evidence@["connection_generation"]) "recovery connection generation";
  _ ← refuse (evidence@["connection_generation"] ==? baseline@["connection_generation"])
        "outcome-unknown recovery did not use a fresh Bridge generation";
  _ ← checked_sha256 eerr (evidence@["snapshot_sha256"]) "snapshot_sha256";
  _ ← checked_sha256 eerr (evidence@["mapping_generation"]) "mapping_generation";
  _ ← refuse (evidence@["mapping_generation"] !=? baseline@["mapping_generation"])
        "mapping changed before recovery reconciliation";
  _ ← all_true eerr evidence "recovery reconciliation field " " is not true" e_reconcile_flags;
  used ← bounded_uint eerr (evidence@["capacity_used"]) "capacity used" UINT32;
  maximum ← bounded_uint eerr (evidence@["capacity_maximum"]) "capacity maximum" UINT32;
  _ ← bounded_uint eerr (evidence@["master_enrollment_count"]) "master enrollment count" UINT32;
  let capacity := baseline@["capacity"] in
  let base_used := int_value (capacity@["used"]) in
  let wrong_maximum := negb (maximum =? int_value (capacity@["maximum"])) in
  _ ← (if String.eqb m "E3_PERSISTENCE_READBACK_RECOVERED" then
         refuse (negb (bool_decide (pt_phase (e_persistence s) = P_OUTCOME_UNKNOWN))
                 || negb (eq_str (pt_outcome_unknown_stage (e_persistence s)) "readback")
                 || negb (is_true (pt_outcome_unknown_host_commit_possible (e_persistence s)))
                 || is_none (e_terminal_identity s)
                 || (evidence@["identity_uuid"] !=? e_terminal_identity s)
                 || negb (is_true (evidence@["identity_present"]))
                 || negb (used =? (if is_false ((baseline@["sep_catacomb"])@["present"])
                                   then base_used else base_used + 1))
                 || wrong_maximum)
           "persistence readback recovery evidence is inconsistent"
       else
         refuse (negb (is_none (evidence@["identity_uuid"]))
                 || negb (is_false (evidence@["identity_present"]))
                 || negb (used =? base_used)
                 || wrong_maximum)
           "outcome-unknown recovery observed a persistent identity delta");
  Ok (s <| e_reconciled_snapshot := evidence@["snapshot_sha256"] |> <| e_phase := E_RECONCILED |>).

Definition on_post_reboot_verified (s : enroll_state) (v : value) (m : string) : result enroll_state :=
  _ ← refuse (e_not_in s [E_RECONCILED] || is_none (e_terminal_identity s)) "E4 verification is out of order";
  evidence ← exact eerr v ["linux_boot_uuid"; "connection_generation"; "bridge_boot_uuid";
    "protocol_version"; "mapping_generation"; "account_uuid"; "bag_uuid"; "identity_uuid";
    "snapshot_sha256"; "double_collection_equal"; "host_sep_identity_equal"; "bindings_preserved";
    "keybag_runtime_revalidated"] m;
  _ ← all_uuid eerr evidence ["linux_boot_uuid"; "connection_generation"; "account_uuid"; "bag_uuid";
                              "identity_uuid"];
  _ ← (if is_none (evidence@["bridge_boot_uuid"]) then Ok tt
       else checked_uuid eerr (evidence@["bridge_boot_uuid"]) "bridge_boot_uuid");
  _ ← checked_sha256 eerr (evidence@["mapping_generation"]) "mapping_generation";
  _ ← checked_sha256 eerr (evidence@["snapshot_sha256"]) "snapshot_sha256";
  _ ← refuse ((evidence@["linux_boot_uuid"] ==? baseline@["linux_boot_uuid"])
              || (evidence@["connection_generation"] ==? baseline@["connection_generation"]))
        "E4 did not cross a boot and connection boundary";
  _ ← refuse ((evidence@["protocol_version"] !=? baseline@["protocol_version"])
              || (evidence@["mapping_generation"] !=? baseline@["mapping_generation"])
              || (evidence@["account_uuid"] !=? baseline@["account_uuid"])
              || (evidence@["bag_uuid"] !=? baseline@["bag_uuid"])
              || (evidence@["identity_uuid"] !=? e_terminal_identity s)
              || (evidence@["snapshot_sha256"] !=? e_reconciled_snapshot s))
        "E4 state differs from reconciled E3";
  _ ← all_true eerr evidence "E4 field " " is not true"
        ["double_collection_equal"; "host_sep_identity_equal"; "bindings_preserved";
         "keybag_runtime_revalidated"];
  Ok (s <| e_post_reboot_boot := evidence@["linux_boot_uuid"] |> <| e_phase := E_POST_REBOOT_VERIFIED |>).

Definition on_enroll_outcome_unknown (s : enroll_state) (v : value) (m : string) : result enroll_state :=
  _ ← refuse (e_not_in s [E_START_INTENT; E_ACTIVE; E_CONTINUE_INTENT; E_CANCEL_INTENT;
                          E_CANCEL_REQUESTED; E_TERMINAL_WITNESS; E_PERSISTING])
        "outcome-unknown marker is out of order";
  evidence ← exact eerr v ["connection_generation"; "stage"; "reason"; "mutation_possible"] m;
  _ ← e_same_generation evidence;
  let interruption := bool_decide (e_phase s = E_PERSISTING) in
  let stages := if interruption then ["local-prepare-discarded"; "local-commit-rolled-forward"]
                else ["start"; "active"; "continue"; "cancel"; "terminal"] in
  let reasons := if interruption then ["process-interrupted"]
                 else ["transport-error"; "connection-lost"; "journal-error"; "protocol-error"] in
  let stage_valid := is_str (evidence@["stage"]) && bool_decide (str_value (evidence@["stage"]) ∈ stages) in
  let reason_valid := is_str (evidence@["reason"])
                      && bool_decide (str_value (evidence@["reason"]) ∈ reasons) in
  _ ← refuse (negb stage_valid || negb reason_valid || negb (is_true (evidence@["mutation_possible"])))
        "outcome-unknown evidence is invalid";
  Ok (s <| e_unknown_stage := evidence@["stage"] |> <| e_phase := E_OUTCOME_UNKNOWN |>).

(** The milestones that the loop body compares one by one before it looks at
    the Catacomb family, and those after it. *)
Definition enroll_early_dispatch (s : enroll_state) (milestone v : value)
    : option (result enroll_state) :=
  let m := str_value milestone in
  if eq_str milestone "ENROLL_ABORTED_BEFORE_START" then Some (on_aborted_before_start s v m)
  else if eq_str milestone "ENROLL_START_INTENT" then Some (on_start_intent s v m)
  else if eq_str milestone "ENROLL_START_OBSERVED" then Some (on_start_observed s v m)
  else if eq_str milestone "ENROLL_START_REJECTED" then Some (on_start_rejected s v m)
  else if eq_str milestone "ENROLL_CONTINUE_INTENT" then Some (on_continue_intent s v m)
  else if eq_str milestone "ENROLL_CONTINUE_OBSERVED" then Some (on_continue_observed s v m)
  else if eq_str milestone "ENROLL_CANCEL_INTENT" then Some (on_cancel_intent s v m)
  else if eq_str milestone "ENROLL_CANCEL_DISPATCH_OBSERVED" then Some (on_cancel_dispatch_observed s v m)
  else if eq_str milestone "E2_TERMINAL_IDENTITY_OBSERVED" then Some (on_terminal_identity s v m)
  else if eq_str milestone "E2_TERMINAL_RESULT_WITNESSED" then Some (on_terminal_witness s v m)
  else if eq_str milestone "E2_WITNESS_IDENTITY_READBACK_OBSERVED" then Some (on_witness_readback s v m)
  else if eq_str milestone "ENROLL_TERMINAL_FAILURE_OBSERVED" then Some (on_terminal_failure s v m)
  else if eq_str milestone "E2_IDENTITY_READBACK_OBSERVED" then Some (on_failure_readback s v m)
  else if eq_str milestone "E2_RECOVERY_IDENTITY_READBACK_OBSERVED" then Some (on_recovery_readback s v m)
  else None.

Definition enroll_late_dispatch (s : enroll_state) (milestone v : value) : result enroll_state :=
  let m := str_value milestone in
  if startswith milestone "CATACOMB_" then on_catacomb s v milestone
  else if eq_str milestone "E3_RECONCILED" then on_reconciled s v m
  else
    recovery ← in_names milestone ["E3_RECOVERY_NO_CHANGE_RECONCILED"; "E3_PERSISTENCE_READBACK_RECOVERED"];
    if recovery : bool then on_recovery_reconciled s v m
    else if eq_str milestone "E4_POST_REBOOT_VERIFIED" then on_post_reboot_verified s v m
    else if eq_str milestone "ENROLL_OUTCOME_UNKNOWN" then on_enroll_outcome_unknown s v m
    else raise eerr "unsupported enrollment milestone".

Definition enroll_dispatch (s : enroll_state) (milestone v : value) : result enroll_state :=
  match enroll_early_dispatch s milestone v with
  | Some r => r
  | None => enroll_late_dispatch s milestone v
  end.
End handlers.

(** ** The history fold *)

(** The loop carries the operation id and the baseline unchanged. *)
Record enroll_loop := ELoop { el_operation_id : value; el_baseline : value; el_state : enroll_state }.

Definition enroll_start (first : value) : result enroll_loop :=
  _ ← refuse (first@["milestone"] !=? VStr "BASELINE_RECONCILED")
        "enrollment journal has no reconciled baseline";
  initial ← exact eerr (first@["evidence"]) ["operation_kind"; "baseline"] "baseline";
  _ ← refuse (initial@["operation_kind"] !=? VStr "enroll") "journal is not an enrollment operation";
  let baseline := initial@["baseline"] in
  _ ← rewrap eerr (validate_baseline baseline);
  _ ← refuse (negb (is_true (baseline@["password_fallback_verified"])))
        "enrollment password fallback is not verified";
  _ ← checked_uuid eerr (first@["operation_id"]) "operation_id";
  Ok (ELoop (first@["operation_id"]) baseline (enroll_start_state baseline)).

Definition enroll_step (l : enroll_loop) (record : value) : result enroll_loop :=
  _ ← refuse (record@["operation_id"] !=? el_operation_id l)
        "operation ID changed inside enrollment journal";
  s ← enroll_dispatch (el_baseline l) (el_state l) (record@["milestone"]) (record@["evidence"]);
  Ok (ELoop (el_operation_id l) (el_baseline l) s).

Definition enroll_history (l : enroll_loop) (count : Z) (head : value) : EnrollmentHistory :=
  let s := el_state l in
  EHistory (el_operation_id l) (e_phase s) (el_baseline l) (e_last_event s) (e_pending_event s) count head
    (e_terminal_identity s) (e_terminal_status s) (snapshot (e_persistence s)) (e_reconciled_snapshot s)
    (e_post_reboot_boot s) (e_unknown_stage s) (e_persistence_generation s).

#[export] Instance enrollment_journal : TypedJournal enroll_loop EnrollmentHistory := {
  tj_class := EnrollmentJournalError;
  tj_label := "enrollment";
  tj_empty := "enrollment journal is empty";
  tj_start := enroll_start;
  tj_step := enroll_step;
  tj_check_head h := checked_sha256 eerr h "journal head hash";
  tj_history := enroll_history;
  tj_operation_id := eh_operation_id;
  tj_record_count := eh_record_count;
  tj_head_hash := eh_head_hash;
}.

(** [require_start_ready]. *)
Definition require_start_ready (history : EnrollmentHistory)
    (linux_boot_uuid connection_generation mapping_generation : string)
    (caller_linux_uid target_linux_uid protocol_version : Z) : result unit :=
  _ ← refuse (negb (bool_decide (eh_phase history = E_BASELINE))) "journal is not at the E0 baseline";
  let baseline := eh_baseline history in
  _ ← refuse (baseline@["linux_boot_uuid"] !=? VStr linux_boot_uuid) "baseline belongs to another Linux boot";
  _ ← refuse (baseline@["connection_generation"] !=? VStr connection_generation)
        "baseline was not collected on the enrollment connection";
  _ ← refuse (baseline@["mapping_generation"] !=? VStr mapping_generation)
        "protected mapping changed after baseline";
  _ ← refuse ((baseline@["caller_linux_uid"] !=? VInt caller_linux_uid)
              || (baseline@["target_linux_uid"] !=? VInt target_linux_uid))
        "Linux caller or target differs from baseline";
  _ ← refuse ((baseline@["protocol_version"] !=? VInt protocol_version)
              || negb ((protocol_version =? 1) || (protocol_version =? 2)))
        "biometric protocol differs from baseline";
  let capacity := baseline@["capacity"] in
  refuse (int_value (capacity@["maximum"]) <=? int_value (capacity@["used"]))
    "enrollment capacity is exhausted".

(** [read] and [append_checked] of this journal. *)
Definition enroll_read (euid : Z) (e : entry) : result EnrollmentHistory := read_history (J := enrollment_journal) euid e.
Definition enroll_append_checked (euid : Z) (calls : io) (others settle : fs → fs) (s : fs)
    (operation_id milestone : string) (evidence : value) : fs * result EnrollmentHistory :=
  append_checked (J := enrollment_journal) euid calls others settle s operation_id milestone evidence.

#[export] Instance enrollment_laws : TypedJournalLaws enroll_loop EnrollmentHistory.
Proof.
  split.
  - intros r r' (Ho & Hm & He). unfold tj_start; cbn. unfold enroll_start. by rewrite Ho, Hm, He.
  - intros s r r' (Ho & Hm & He). unfold tj_step; cbn. unfold enroll_step. by rewrite Ho, Hm, He.
  - done.
  - done.
  - intros r s n h Hs. cbn in *. unfold enroll_start in Hs. evidence_inv. done.
  - intros s r s' n h Hs. cbn in *. unfold enroll_step in Hs. evidence_inv. done.
  - intros x. cbn. apply checked_sha256_digest.
Qed.

(** ** The phase graph *)

(** The moves of the enrolment outside the save sequence. *)
Definition enroll_moves : list (EnrollmentPhase * string * EnrollmentPhase) :=
  [(E_BASELINE, "ENROLL_ABORTED_BEFORE_START", E_ABORTED_BEFORE_START);
   (E_BASELINE, "ENROLL_START_INTENT", E_START_INTENT);
   (E_START_INTENT, "ENROLL_START_OBSERVED", E_ACTIVE);
   (E_START_INTENT, "ENROLL_START_REJECTED", E_TERMINAL_FAILURE);
   (E_ACTIVE, "ENROLL_CONTINUE_INTENT", E_CONTINUE_INTENT);
   (E_CONTINUE_INTENT, "ENROLL_CONTINUE_OBSERVED", E_ACTIVE);
   (E_ACTIVE, "ENROLL_CANCEL_INTENT", E_CANCEL_INTENT);
   (E_CANCEL_INTENT, "ENROLL_CANCEL_DISPATCH_OBSERVED", E_CANCEL_REQUESTED);
   (E_ACTIVE, "E2_TERMINAL_IDENTITY_OBSERVED", E_TERMINAL_IDENTITY);
   (E_CANCEL_REQUESTED, "E2_TERMINAL_IDENTITY_OBSERVED", E_TERMINAL_IDENTITY);
   (E_ACTIVE, "E2_TERMINAL_RESULT_WITNESSED", E_TERMINAL_WITNESS);
   (E_CANCEL_REQUESTED, "E2_TERMINAL_RESULT_WITNESSED", E_TERMINAL_WITNESS);
   (E_TERMINAL_WITNESS, "E2_WITNESS_IDENTITY_READBACK_OBSERVED", E_TERMINAL_IDENTITY);
   (E_ACTIVE, "ENROLL_TERMINAL_FAILURE_OBSERVED", E_TERMINAL_FAILURE);
   (E_CANCEL_REQUESTED, "ENROLL_TERMINAL_FAILURE_OBSERVED", E_TERMINAL_FAILURE);
   (E_TERMINAL_FAILURE, "E2_IDENTITY_READBACK_OBSERVED", E_TERMINAL_IDENTITY);
   (E_OUTCOME_UNKNOWN, "E2_RECOVERY_IDENTITY_READBACK_OBSERVED", E_TERMINAL_IDENTITY);
   (E_PERSISTENCE_READY, "E3_RECONCILED", E_RECONCILED);
   (E_TERMINAL_FAILURE, "E3_RECONCILED", E_RECONCILED);
   (E_OUTCOME_UNKNOWN, "E3_RECOVERY_NO_CHANGE_RECONCILED", E_RECONCILED);
   (E_OUTCOME_UNKNOWN, "E3_PERSISTENCE_READBACK_RECOVERED", E_RECONCILED);
   (E_RECONCILED, "E4_POST_REBOOT_VERIFIED", E_POST_REBOOT_VERIFIED)]
  ++ map (λ p, (p, "ENROLL_OUTCOME_UNKNOWN", E_OUTCOME_UNKNOWN))
       [E_START_INTENT; E_ACTIVE; E_CONTINUE_INTENT; E_CANCEL_INTENT; E_CANCEL_REQUESTED;
        E_TERMINAL_WITNESS; E_PERSISTING].

Inductive enroll_edge : EnrollmentPhase → string → EnrollmentPhase → Prop :=
  | edge_move p m q : (p, m, q) ∈ enroll_moves → enroll_edge p m q
  | edge_save p m q :
      String.prefix "CATACOMB_" m = true →
      p ∈ [E_TERMINAL_IDENTITY; E_TERMINAL_FAILURE; E_PERSISTING] →
      q ∈ [E_PERSISTING; E_PERSISTENCE_READY; E_OUTCOME_UNKNOWN] → enroll_edge p m q
  | edge_early q :
      q ∈ [E_TERMINAL_IDENTITY; E_PERSISTENCE_READY; E_OUTCOME_UNKNOWN] →
      enroll_edge E_OUTCOME_UNKNOWN "CATACOMB_EARLY_CONFIRM_RECOVERED" q.

Lemma e_not_in_false s ps : e_not_in s ps = false → e_phase s ∈ ps.
Proof. unfold e_not_in. rewrite negb_false_iff. apply bool_decide_eq_true_1. Qed.

Ltac enroll_inv := evidence_inv; repeat match goal with
  | H : e_not_in _ _ = false |- _ => apply e_not_in_false in H
  end.

(** A completed handler of one milestone makes a listed move. *)
Ltac enroll_move_tac :=
  enroll_inv; cbn [e_phase set_field]; apply edge_move;
  match goal with H : e_phase _ ∈ _ |- _ => list_cases H; rewrite H end;
  by apply (bool_decide_unpack _).

Lemma on_catacomb_edge s v m s' : startswith m "CATACOMB_" = true → on_catacomb s v m = Ok s' →
  enroll_edge (e_phase s) (str_value m) (e_phase s').
Proof.
  unfold on_catacomb. intros Hm H. evidence_inv. cbn [e_phase set_field].
  destruct m as [| | |m| | |]; try discriminate Hm.
  match goal with H : negb _ && e_not_in _ _ = false |- _ => rename H into Hphase; apply andb_false_iff in Hphase end.
  destruct (eq_str (VStr m) "CATACOMB_EARLY_CONFIRM_RECOVERED" && bool_decide (e_phase s = E_OUTCOME_UNKNOWN)
    && negb (is_none (e_terminal_identity s))) eqn:Hearly.
  - apply andb_true_iff in Hearly as [[Hn%eq_str_true Hu%bool_decide_eq_true]%andb_true_iff _].
    injection Hn as ->. rewrite Hu. apply edge_early.
    repeat case_match; by apply (bool_decide_unpack _).
  - destruct Hphase as [[=]|Hphase%e_not_in_false]. apply edge_save; [exact Hm|exact Hphase|].
    repeat case_match; by apply (bool_decide_unpack _).
Qed.

(** The handlers outside the save sequence, by milestone. *)
Definition enroll_handlers (b : value) : list (string * (enroll_state → value → string → result enroll_state)) :=
  [("ENROLL_ABORTED_BEFORE_START", on_aborted_before_start b);
   ("ENROLL_START_INTENT", on_start_intent b);
   ("ENROLL_START_OBSERVED", on_start_observed);
   ("ENROLL_START_REJECTED", on_start_rejected);
   ("ENROLL_CONTINUE_INTENT", on_continue_intent b);
   ("ENROLL_CONTINUE_OBSERVED", on_continue_observed);
   ("ENROLL_CANCEL_INTENT", on_cancel_intent b);
   ("ENROLL_CANCEL_DISPATCH_OBSERVED", on_cancel_dispatch_observed);
   ("E2_TERMINAL_IDENTITY_OBSERVED", on_terminal_identity b);
   ("E2_TERMINAL_RESULT_WITNESSED", on_terminal_witness b);
   ("E2_WITNESS_IDENTITY_READBACK_OBSERVED", on_witness_readback b);
   ("ENROLL_TERMINAL_FAILURE_OBSERVED", on_terminal_failure b);
   ("E2_IDENTITY_READBACK_OBSERVED", on_failure_readback b);
   ("E2_RECOVERY_IDENTITY_READBACK_OBSERVED", on_recovery_readback b);
   ("E3_RECONCILED", on_reconciled b);
   ("E3_RECOVERY_NO_CHANGE_RECONCILED", on_recovery_reconciled b);
   ("E3_PERSISTENCE_READBACK_RECOVERED", on_recovery_reconciled b);
   ("E4_POST_REBOOT_VERIFIED", on_post_reboot_verified b);
   ("ENROLL_OUTCOME_UNKNOWN", on_enroll_outcome_unknown b)].

Inductive enroll_handled (b : value) (s : enroll_state) (v : value) (s' : enroll_state) : value → Prop :=
  | handled_by m h : (m, h) ∈ enroll_handlers b → h s v m = Ok s' → enroll_handled b s v s' (VStr m)
  | handled_save m : String.prefix "CATACOMB_" m = true → on_catacomb s v (VStr m) = Ok s' →
      enroll_handled b s v s' (VStr m).

Lemma enroll_dispatch_handled b s m v s' : enroll_dispatch b s m v = Ok s' → enroll_handled b s v s' m.
Proof.
  unfold enroll_dispatch, enroll_early_dispatch. cbv zeta.
  repeat match goal with
  | |- context [if eq_str ?m ?k then _ else _] =>
      let E := fresh in destruct (eq_str m k) eqn:E;
      [apply eq_str_true in E; subst m; intros H; eapply handled_by; [|exact H]; unfold enroll_handlers; in_table|clear E]
  end.
  unfold enroll_late_dispatch. cbv zeta. destruct (startswith m "CATACOMB_") eqn:Hm.
  { destruct m as [| | |m| | |]; try discriminate Hm. intros H. by apply handled_save. }
  destruct (eq_str m "E3_RECONCILED") eqn:E.
  { apply eq_str_true in E as ->. intros H. eapply handled_by; [|exact H]; unfold enroll_handlers; in_table. }
  intros (r & Hr & H)%bind_Ok. destruct r.
  { apply in_names_true in Hr as (x & -> & Hx). list_cases Hx; subst x;
      (eapply handled_by; [|exact H]); unfold enroll_handlers; in_table. }
  revert H.
  repeat match goal with
  | |- context [if eq_str ?m ?k then _ else _] =>
      let E := fresh in destruct (eq_str m k) eqn:E;
      [apply eq_str_true in E; subst m; intros H; eapply handled_by; [|exact H]; unfold enroll_handlers; in_table|clear E]
  end.
  discriminate.
Qed.

Lemma enroll_dispatch_edge b s m v s' : enroll_dispatch b s m v = Ok s' →
  enroll_edge (e_phase s) (str_value m) (e_phase s').
Proof.
  intros [m' h Hin H|m' Hm H]%enroll_dispatch_handled; [|by apply on_catacomb_edge in H].
  cbn [str_value]. unfold enroll_handlers in Hin.
  list_cases Hin; injection Hin as -> ->;
    match type of H with ?f _ _ _ _ = _ => unfold f in H | ?f _ _ _ = _ => unfold f in H end;
    enroll_move_tac.
Qed.

Lemma enroll_step_edge l r l' : enroll_step l r = Ok l' →
  enroll_edge (e_phase (el_state l)) (milestone_of r) (e_phase (el_state l')).
Proof. unfold enroll_step. intros H. evidence_inv. cbn. eapply enroll_dispatch_edge; eassumption. Qed.

Lemma enroll_start_Ok first l : enroll_start first = Ok l →
  ∃ baseline, l = ELoop (first@["operation_id"]) baseline (enroll_start_state baseline)
    ∧ baseline = (first@["evidence"])@["baseline"] ∧ validate_baseline baseline = Ok tt
    ∧ baseline@["password_fallback_verified"] = VBool true.
Proof.
  unfold enroll_start. cbv zeta. intros H. evidence_inv. eexists. split_and!; [reflexivity|reflexivity|done|].
  by apply is_true_eq.
Qed.

(** The fold behind an accepted history. *)
Lemma enroll_history_fold first rest h : validate_history (first :: rest) = Ok h →
  ∃ baseline l, fold_result enroll_step (ELoop (first@["operation_id"]) baseline (enroll_start_state baseline)) rest = Ok l
    ∧ h = enroll_history l (Z.of_nat (length (first :: rest))) (last_hash (first :: rest)).
Proof.
  intros (f & r & s0 & l & [= <- <-] & H0 & Hs & _ & ->)%validate_history_Ok. cbn in H0, Hs.
  apply enroll_start_Ok in H0 as (b & -> & _). by exists b, l.
Qed.

Lemma enroll_fold_path l rest l' : fold_result enroll_step l rest = Ok l' →
  path enroll_edge (e_phase (el_state l)) (map milestone_of rest) (e_phase (el_state l')).
Proof.
  intros H. apply (fold_path (J := enrollment_journal) (λ l, e_phase (el_state l)) enroll_edge); [|exact H].
  apply enroll_step_edge.
Qed.

Lemma never_baseline p m q : enroll_edge p m q → q ≠ E_BASELINE.
Proof.
  intros [p' m' q' Hin|p' m' q' _ _ Hq|q' Hq]; [|by intros ->; list_cases Hq..].
  unfold enroll_moves in Hin. cbn [map app] in Hin. by list_cases Hin; injection Hin as -> -> ->.
Qed.

Lemma start_from_baseline p q : enroll_edge p "ENROLL_START_INTENT" q → p = E_BASELINE.
Proof.
  intros He. inversion He as [p' m' q' Hin|p' m' q' Hm|]; [|done]. subst.
  unfold enroll_moves in Hin. cbn [map app] in Hin. by list_cases Hin; simplify_eq.
Qed.

Lemma enrollment_path first rest h : validate_history (first :: rest) = Ok h →
  path enroll_edge E_BASELINE (map milestone_of rest) (eh_phase h).
Proof. by intros (b & l & Hl%enroll_fold_path & ->)%enroll_history_fold. Qed.

(** an accepted enrolment journal is a path of the phase graph from the
    reconciled baseline to the phase it reports, labelled with its milestones
    in order: no milestone is accepted out of phase.  In particular the intent
    to start is the first record after the baseline or does not occur. *)
Theorem enrollment_follows_phase_graph first rest h :
  validate_history (first :: rest) = Ok h →
  path enroll_edge E_BASELINE (map milestone_of rest) (eh_phase h)
  ∧ ∀ i, map milestone_of rest !! i = Some "ENROLL_START_INTENT" → i = O.
Proof.
  intros Hp%enrollment_path. split; [exact Hp|]. intros [|i] Hi; [done|]. exfalso.
  destruct (path_lookup _ _ _ _ _ _ Hp Hi) as (q & q' & Hq & He & _).
  destruct rest as [|r rest]; [done|]. cbn [map firstn] in Hq. inversion Hq as [|? ? p1 ? ? H1 H2]; subst.
  destruct (path_closed enroll_edge (λ p, p ≠ E_BASELINE) (λ _, True) p1 (take i (map milestone_of rest)) q) as [Hb _];
    [by intros p m p' _ He'; split; [eapply never_baseline|]|by eapply never_baseline|exact H2|].
  apply Hb. by apply start_from_baseline in He.
Qed.

(** The milestones before a command is sent to the SEP, and those after which
    the outcome of the enrolment is settled or lost. *)
Definition command_intents : list string :=
  ["ENROLL_START_INTENT"; "ENROLL_CONTINUE_INTENT"; "ENROLL_CANCEL_INTENT"].
Definition closing_milestones : list string :=
  ["ENROLL_ABORTED_BEFORE_START"; "ENROLL_START_REJECTED"; "E2_TERMINAL_IDENTITY_OBSERVED";
   "E2_TERMINAL_RESULT_WITNESSED"; "ENROLL_TERMINAL_FAILURE_OBSERVED"; "ENROLL_OUTCOME_UNKNOWN"].

(** Phases in which no command can follow. *)
Definition command_free (p : EnrollmentPhase) : Prop :=
  p ∉ [E_BASELINE; E_START_INTENT; E_ACTIVE; E_CONTINUE_INTENT; E_CANCEL_INTENT; E_CANCEL_REQUESTED].

Lemma command_free_closed p m q : command_free p → enroll_edge p m q → command_free q ∧ m ∉ command_intents.
Proof.
  intros Hp He. destruct He as [p m q Hin|p m q Hm Hin Hq|q Hq].
  - unfold enroll_moves in Hin. cbn [map app] in Hin.
    list_cases Hin; injection Hin as -> -> ->; try (by destruct Hp; apply (bool_decide_unpack _));
      split; by apply (bool_decide_unpack _).
  - split; [list_cases Hq; subst; by apply (bool_decide_unpack _)|].
    intros Hc. list_cases Hc; by subst m.
  - split; [list_cases Hq; subst; by apply (bool_decide_unpack _)|by apply (bool_decide_unpack _)].
Qed.

Lemma closing_edge p m q : enroll_edge p m q → m ∈ closing_milestones → command_free q ∧ m ∉ command_intents.
Proof.
  intros He Hc. split; [|by intros Hi; list_cases Hi; subst m; list_cases Hc].
  destruct He as [p m q Hin|p m q Hm Hin Hq|q Hq].
  - unfold enroll_moves in Hin. cbn [map app] in Hin.
    list_cases Hin; injection Hin as -> -> ->; try (by apply (bool_decide_unpack _));
      exfalso; revert Hc; by apply (bool_decide_unpack _).
  - by list_cases Hc; subst m.
  - by list_cases Hc.
Qed.

(** no command after the outcome is settled: in an accepted journal every
    intent to send a start, continue or cancel command precedes the record
    that settles the enrolment (abort, rejection, terminal event, or lost
    outcome), so a resumed process never re-sends a command. *)
Theorem no_command_after_outcome first rest h i j mi mj :
  validate_history (first :: rest) = Ok h →
  map milestone_of rest !! i = Some mi → mi ∈ closing_milestones →
  map milestone_of rest !! j = Some mj → mj ∈ command_intents →
  (j < i)%nat.
Proof.
  intros Hh%enrollment_path Hi Hmi Hj Hmj.
  destruct (path_lookup _ _ _ _ _ _ Hh Hi) as (q & q' & _ & He & Hrest).
  destruct (closing_edge _ _ _ He Hmi) as [Hq Hne].
  destruct (path_closed enroll_edge command_free (λ m, m ∉ command_intents) _ _ _ command_free_closed Hq Hrest)
    as [_ Hall].
  destruct (lt_eq_lt_dec j i) as [[?|<-]|Hlt]; [done|congruence|].
  exfalso. apply (proj1 (Forall_lookup _ _) Hall (j - S i)%nat mj); [|exact Hmj].
  rewrite lookup_drop. by replace (S i + (j - S i))%nat with j by lia.
Qed.

(** ** Event sequence numbers *)

Definition event_milestones : list string :=
  ["ENROLL_CONTINUE_INTENT"; "E2_TERMINAL_IDENTITY_OBSERVED"; "E2_TERMINAL_RESULT_WITNESSED";
   "ENROLL_TERMINAL_FAILURE_OBSERVED"].

(** The sequence number of the Bridge event a record reports. *)
Definition event_sequence (record : value) : option Z :=
  if bool_decide (milestone_of record ∈ event_milestones)
  then Some (int_value ((record@["evidence"])@["event_sequence"])) else None.

(** The newest event number the state remembers. *)
Definition newest_event (s : enroll_state) : option Z :=
  if bool_decide (e_phase s = E_CONTINUE_INTENT) then e_pending_event s else e_last_event s.

Definition event_sources : list EnrollmentPhase := [E_ACTIVE; E_CANCEL_REQUESTED].

(** What one transition does to the newest event. *)
Lemma enroll_step_event l r l' : enroll_step l r = Ok l' →
  match event_sequence r with
  | Some x => e_phase (el_state l) ∈ event_sources ∧ not_after x (e_last_event (el_state l)) = false
              ∧ newest_event (el_state l') = Some x
  | None => command_free (e_phase (el_state l')) ∨ newest_event (el_state l') = newest_event (el_state l)
  end.
Proof.
  unfold enroll_step. intros H. evidence_inv.
  match goal with H : enroll_dispatch _ _ ?m ?v = Ok ?s' |- _ => rename H into Hd; rename s' into s1 end.
  cbn [el_state]. unfold event_sequence, milestone_of. revert Hd.
  generalize (el_state l) as s. generalize (r@["evidence"]) as v. generalize (r@["milestone"]) as m.
  intros m v s [m' h Hin Hh|m' Hm Hh]%enroll_dispatch_handled; cbn [str_value].
  - unfold enroll_handlers in Hin.
    list_cases Hin; injection Hin as -> ->;
      match type of Hh with ?f _ _ _ _ = _ => unfold f in Hh | ?f _ _ _ = _ => unfold f in Hh end;
      match goal with |- context [bool_decide (?a ∈ ?b)] =>
        let x := eval vm_compute in (bool_decide (a ∈ b)) in
        change (bool_decide (a ∈ b)) with x end; cbv iota;
      enroll_inv; unfold newest_event; cbn [e_phase e_pending_event e_last_event set_field];
      try match goal with H : ?v@["event_sequence"] = VInt _ |- _ => rewrite H; cbn [int_value] end;
      match goal with H : e_phase _ ∈ _ |- _ => list_cases H; rewrite H end;
      first [right; reflexivity|left; by apply (bool_decide_unpack _)|repeat split; by apply (bool_decide_unpack _)|split; [by apply (bool_decide_unpack _)|by split]].
  - rewrite bool_decide_eq_false_2; [|by intros Hx; list_cases Hx; subst m'].
    apply on_catacomb_edge in Hh as He; [|exact Hm]. unfold on_catacomb in Hh. evidence_inv.
    unfold newest_event. cbn [e_phase e_pending_event e_last_event set_field] in *.
    assert (e_phase s ≠ E_CONTINUE_INTENT) as Hs.
    { intros Hs. rewrite Hs in He. inversion He as [p1 m1 q1 Hin|p1 m1 q1 _ Hin _|]; subst; [|by list_cases Hin].
      unfold enroll_moves in Hin. cbn [map app] in Hin.
      list_cases Hin; try discriminate Hin; injection Hin as Em _; rewrite Em in Hm; discriminate Hm. }
    right. rewrite (bool_decide_eq_false_2 _ Hs), bool_decide_eq_false_2; [done|]. by repeat case_match.
Qed.

Lemma increasing_snoc xs x : StronglySorted Z.lt xs → not_after x (last xs) = false →
  StronglySorted Z.lt (xs ++ [x]).
Proof.
  intros Hs Hx. apply StronglySorted_app_2; [|done|by repeat constructor].
  intros y w Hy Hw. apply list_elem_of_singleton in Hw as ->. destruct xs as [|z xs _] using rev_ind; [by apply elem_of_nil in Hy|].
  rewrite last_snoc in Hx. cbn in Hx. apply Z.leb_gt in Hx.
  apply elem_of_app in Hy as [Hy|Hy]; [|by apply list_elem_of_singleton in Hy as ->].
  assert (y < z); [|lia]. eapply StronglySorted_app_1_elem_of; [exact Hs|exact Hy|by apply list_elem_of_singleton].
Qed.

(** the Bridge events that an accepted journal reports have strictly
    increasing sequence numbers: no event is reported twice, replayed or
    reported out of order. *)
Theorem enrollment_events_increase first rest h :
  validate_history (first :: rest) = Ok h → StronglySorted Z.lt (omap event_sequence rest).
Proof.
  intros (b & l & Hl & _)%enroll_history_fold.
  apply proj1 with (B := command_free (e_phase (el_state l)) ∨ last (omap event_sequence rest) = newest_event (el_state l)).
  revert l Hl. induction rest as [|r rest IH] using rev_ind; intros l Hl.
  - injection Hl as <-. split; [constructor|by right].
  - apply fold_result_snoc in Hl as (l1 & H1 & Hstep). destruct (IH _ H1) as [Hs Hlast].
    rewrite omap_app. cbn [omap list_omap].
    pose proof (enroll_step_event _ _ _ Hstep) as He. destruct (event_sequence r) as [x|].
    + destruct He as (Hp & Hx & Hn). rewrite last_snoc, Hn. split; [|by right].
      destruct Hlast as [Hfree|Hlast]; [by list_cases Hp; rewrite Hp in Hfree; destruct Hfree; apply (bool_decide_unpack _)|].
      apply increasing_snoc; [exact Hs|]. rewrite Hlast. unfold newest_event.
      rewrite bool_decide_eq_false_2; [exact Hx|]. intros Hc. rewrite Hc in Hp. by list_cases Hp.
    + rewrite app_nil_r. split; [exact Hs|]. destruct He as [He|He]; [by left|].
      destruct Hlast as [Hfree|Hlast]; [left|right; by rewrite He].
      exact (proj1 (command_free_closed _ _ _ Hfree (enroll_step_edge _ _ _ Hstep))).
Qed.

(** ** Post-reboot verification *)

Lemma verified_edge p m : enroll_edge p m E_POST_REBOOT_VERIFIED → m = "E4_POST_REBOOT_VERIFIED".
Proof.
  intros He. inversion He as [p' m' q' Hin|p' m' q' _ _ Hq|q' Hq]; subst; [|by list_cases Hq..].
  unfold enroll_moves in Hin. cbn [map app] in Hin. by list_cases Hin; simplify_eq.
Qed.

(** an enrolment reported as verified after the reboot ends with an E4
    record taken on another Linux boot and another Bridge connection than the
    baseline, for the identity the terminal evidence named, on the snapshot
    that E3 reconciled, with the mapping, account, key bag and protocol of the
    baseline. *)
Theorem verified_enrollment_crossed_reboot first rest h :
  validate_history (first :: rest) = Ok h → eh_phase h = E_POST_REBOOT_VERIFIED →
  ∃ rest' r, rest = rest' ++ [r] ∧ r@["milestone"] = VStr "E4_POST_REBOOT_VERIFIED"
    ∧ let ev := r@["evidence"] in let b := eh_baseline h in
      ev@["linux_boot_uuid"] ==? b@["linux_boot_uuid"] = false
      ∧ ev@["connection_generation"] ==? b@["connection_generation"] = false
      ∧ eh_terminal_identity_uuid h ≠ VNone
      ∧ ev@["identity_uuid"] ==? eh_terminal_identity_uuid h = true
      ∧ ev@["snapshot_sha256"] ==? eh_reconciled_snapshot_sha256 h = true
      ∧ Forall (λ k, ev@[k] ==? b@[k] = true)
          ["protocol_version"; "mapping_generation"; "account_uuid"; "bag_uuid"]
      ∧ eh_post_reboot_linux_boot_uuid h = ev@["linux_boot_uuid"].
Proof.
  intros (b & l & Hl & ->)%enroll_history_fold Hp. cbn in Hp.
  destruct rest as [|r rest _] using rev_ind; [by injection Hl as <-|].
  apply fold_result_snoc in Hl as (l1 & _ & Hstep). exists rest, r. split; [reflexivity|].
  pose proof (enroll_step_edge _ _ _ Hstep) as He. rewrite Hp in He. apply verified_edge in He.
  apply str_value_str in He; [|done]. split; [exact He|]. clear Hp.
  unfold enroll_step in Hstep. rewrite He in Hstep. evidence_inv.
  match goal with H : enroll_dispatch _ _ _ _ = Ok _ |- _ =>
    change (on_post_reboot_verified (el_baseline l1) (el_state l1) (r@["evidence"]) "E4_POST_REBOOT_VERIFIED" = Ok x) in H;
    unfold on_post_reboot_verified in H end.
  enroll_inv. cbn. split_and!; try assumption; try reflexivity.
  - match goal with H : is_none _ = false |- _ => intros Hn; rewrite Hn in H; discriminate H end.
  - repeat constructor; assumption.
Qed.
