(* ===== verification/RenameJournal.v ===== *)
(** * Identity-rename journal ([src/src/t2_identity_rename_journal.py])

    The transition rules of one identity-label change: the intent binds one
    identity of the baseline, the label is persisted as a one-component save,
    reconciled and verified after a reboot; an interrupted rename recovers to
    the old or the new label. *)
From S2P Require Import Prelude PyValue Sha256 Json MutationJournal Evidence TypedJournal PersistenceJournal.

#[local] Open Scope Z_scope.

Inductive IdentityRenamePhase :=
  | R_BASELINE | R_INTENT | R_ABORTED | R_PERSISTING | R_PERSISTENCE_READY | R_RECONCILED
  | R_POST_REBOOT_VERIFIED | R_OUTCOME_UNKNOWN.

#[export] Instance IdentityRenamePhase_eq_dec : EqDecision IdentityRenamePhase.
Proof. solve_decision. Defined.

Record rename_state := RState {
  r_phase : IdentityRenamePhase;
  r_target_uuid : value;
  r_target_entity : value;
  r_old_name_hash : value;
  r_new_name_hash : value;
  r_reconciled_hash : value;
  r_recovery_action : value;
  r_persistence : tracker;
}.
#[export] Instance rename_state_settable : Settable rename_state := λ s,
  RState (r_phase s) (r_target_uuid s) (r_target_entity s) (r_old_name_hash s) (r_new_name_hash s)
    (r_reconciled_hash s) (r_recovery_action s) (r_persistence s).

Definition rename_start_state (baseline : value) : rename_state :=
  RState R_BASELINE VNone VNone VNone VNone VNone VNone (new_tracker baseline Plan_identity_metadata).

Record IdentityRenameHistory := RHistory {
  rh_operation_id : value;
  rh_phase : IdentityRenamePhase;
  rh_baseline : value;
  rh_target_identity_uuid : value;
  rh_target_entity : value;
  rh_previous_name_sha256 : value;
  rh_new_name_sha256 : value;
  rh_persistence : PersistenceHistory;
  rh_reconciled_snapshot_sha256 : value;
  rh_recovery_action : value;
  rh_record_count : Z;
  rh_head_hash : value;
}.

#[local] Abbreviation rerr := IdentityRenameJournalError.
#[local] Abbreviation refuse := (reject IdentityRenameJournalError).

Definition r_not_in (s : rename_state) (ps : list IdentityRenamePhase) : bool :=
  negb (bool_decide (r_phase s ∈ ps)).

Section handlers.
Variable baseline : value.

Definition on_rename_intent (s : rename_state) (v : value) (m : string) : result rename_state :=
  _ ← refuse (r_not_in s [R_BASELINE]) "rename intent is out of order";
  evidence ← exact rerr v ["connection_generation"; "user_id"; "identity_uuid"; "entity";
                           "previous_name_sha256"; "new_name_sha256"; "mapping_generation"] m;
  _ ← checked_uuid rerr (evidence@["identity_uuid"]) "identity UUID";
  _ ← checked_sha256 rerr (evidence@["previous_name_sha256"]) "previous name SHA-256";
  _ ← checked_sha256 rerr (evidence@["new_name_sha256"]) "new name SHA-256";
  _ ← checked_sha256 rerr (evidence@["mapping_generation"]) "mapping generation";
  _ ← refuse ((evidence@["connection_generation"] !=? baseline@["connection_generation"])
              || (evidence@["user_id"] !=? baseline@["apple_uid"])
              || (evidence@["mapping_generation"] !=? baseline@["mapping_generation"])
              || negb (is_int (evidence@["entity"]))
              || (int_value (evidence@["entity"]) <? 0)
              || (evidence@["previous_name_sha256"] ==? evidence@["new_name_sha256"]))
        "rename intent binding is invalid";
  _ ← refuse (negb (length (identity_matches baseline evidence) =? 1)%nat)
        "rename target is not in the baseline";
  Ok (s <| r_target_uuid := evidence@["identity_uuid"] |> <| r_target_entity := evidence@["entity"] |>
        <| r_old_name_hash := evidence@["previous_name_sha256"] |>
        <| r_new_name_hash := evidence@["new_name_sha256"] |> <| r_phase := R_INTENT |>).

Definition on_rename_aborted (s : rename_state) (v : value) (m : string) : result rename_state :=
  _ ← refuse (r_not_in s [R_PERSISTING]
              || negb (bool_decide (pt_phase (r_persistence s) = COMPONENT_READY)))
        "rename abort is out of order";
  evidence ← exact rerr v ["reason"; "mutation_possible"] m;
  _ ← refuse ((evidence@["reason"] !=? VStr "host-store-unavailable")
              || negb (is_false (evidence@["mutation_possible"])))
        "rename abort evidence is invalid";
  Ok (s <| r_phase := R_ABORTED |>).

Definition on_rename_catacomb (s : rename_state) (v milestone : value) : result rename_state :=
  _ ← refuse (r_not_in s [R_INTENT; R_PERSISTING]) "rename persistence is out of order";
  '(_, persistence) ← except (λ c, bool_decide (c = PersistenceJournalError))
                        (λ e, Exn IdentityRenameJournalError (exn_msg e))
                        (consume (r_persistence s) milestone v false);
  Ok (s <| r_persistence := persistence |>
        <| r_phase := if bool_decide (pt_phase persistence = COMPLETE) then R_PERSISTENCE_READY
                      else if bool_decide (pt_phase persistence = P_OUTCOME_UNKNOWN) then R_OUTCOME_UNKNOWN
                      else R_PERSISTING |>).

Definition on_rename_reconciled (s : rename_state) (v : value) (m : string) : result rename_state :=
  _ ← refuse (r_not_in s [R_PERSISTENCE_READY]) "rename reconciliation is out of order";
  evidence ← exact rerr v ["connection_generation"; "identity_uuid"; "new_name_sha256";
    "snapshot_sha256"; "mapping_generation"; "identity_count"; "identity_set_unchanged";
    "label_updated"; "local_live_equal"] m;
  _ ← checked_uuid rerr (evidence@["identity_uuid"]) "identity UUID";
  _ ← all_sha256 rerr evidence ["new_name_sha256"; "snapshot_sha256"; "mapping_generation"];
  _ ← refuse ((evidence@["connection_generation"] !=? baseline@["connection_generation"])
              || (evidence@["identity_uuid"] !=? r_target_uuid s)
              || (evidence@["new_name_sha256"] !=? r_new_name_hash s)
              || (evidence@["mapping_generation"] !=? baseline@["mapping_generation"])
              || (evidence@["identity_count"] !=? VInt (identity_count baseline))
              || negb (is_true (evidence@["identity_set_unchanged"]))
              || negb (is_true (evidence@["label_updated"]))
              || negb (is_true (evidence@["local_live_equal"])))
        "rename reconciliation is invalid";
  Ok (s <| r_reconciled_hash := evidence@["snapshot_sha256"] |> <| r_phase := R_RECONCILED |>).

Definition on_rename_recovery_intent (s : rename_state) (v : value) (m : string) : result rename_state :=
  _ ← refuse (r_not_in s [R_INTENT; R_PERSISTING; R_PERSISTENCE_READY; R_OUTCOME_UNKNOWN]
              || negb (is_none (r_recovery_action s)))
        "rename recovery intent is out of order";
  evidence ← exact rerr v ["action"; "mapping_generation"; "host_commit_possible"; "mutation_possible"] m;
  let action := evidence@["action"] in
  bad ← not_in_names action recovery_actions;
  _ ← refuse bad "rename recovery action is invalid";
  _ ← checked_sha256 rerr (evidence@["mapping_generation"]) "mapping generation";
  _ ← refuse ((evidence@["mapping_generation"] !=? baseline@["mapping_generation"])
              || negb (is_true (evidence@["mutation_possible"]))
              || (evidence@["host_commit_possible"] !=? VBool (action !=? VStr "prepare-discarded")))
        "rename recovery binding is invalid";
  Ok (s <| r_recovery_action := action |> <| r_phase := R_OUTCOME_UNKNOWN |>).

Definition on_rename_recovered (s : rename_state) (v : value) (m : string) : result rename_state :=
  _ ← refuse (r_not_in s [R_OUTCOME_UNKNOWN] || is_none (r_recovery_action s) || is_none (r_target_uuid s))
        "rename recovery reconciliation is out of order";
  evidence ← exact rerr v ["connection_generation"; "identity_uuid"; "name_sha256"; "snapshot_sha256";
    "mapping_generation"; "identity_count"; "identity_set_unchanged"; "local_live_equal"; "sep_clean";
    "host_reconciled"; "recovery_action"] m;
  _ ← all_uuid rerr evidence ["connection_generation"; "identity_uuid"];
  _ ← all_sha256 rerr evidence ["name_sha256"; "snapshot_sha256"; "mapping_generation"];
  let committed := endswith "COMMITTED" m in
  let expected_name := if committed then r_new_name_hash s else r_old_name_hash s in
  _ ← refuse ((evidence@["connection_generation"] ==? baseline@["connection_generation"])
              || (evidence@["identity_uuid"] !=? r_target_uuid s)
              || (evidence@["name_sha256"] !=? expected_name)
              || (evidence@["mapping_generation"] !=? baseline@["mapping_generation"])
              || (evidence@["identity_count"] !=? VInt (identity_count baseline))
              || negb (is_true (evidence@["identity_set_unchanged"]))
              || negb (is_true (evidence@["local_live_equal"]))
              || negb (is_true (evidence@["sep_clean"]))
              || negb (is_true (evidence@["host_reconciled"]))
              || (evidence@["recovery_action"] !=? r_recovery_action s))
        "rename recovery reconciliation is invalid";
  _ ← refuse (negb committed && eq_str (r_recovery_action s) "commit-rolled-forward")
        "rolled-forward rename cannot reconcile as unchanged";
  Ok (s <| r_reconciled_hash := evidence@["snapshot_sha256"] |>
        <| r_phase := if committed then R_RECONCILED else R_ABORTED |>).

Definition on_rename_verified (s : rename_state) (v : value) (m : string) : result rename_state :=
  _ ← refuse (r_not_in s [R_RECONCILED]) "rename post-reboot proof is out of order";
  evidence ← exact rerr v ["linux_boot_uuid"; "connection_generation"; "identity_uuid"; "new_name_sha256";
    "snapshot_sha256"; "mapping_generation"; "identity_set_unchanged"; "label_preserved";
    "local_live_equal"] m;
  _ ← all_uuid rerr evidence ["linux_boot_uuid"; "connection_generation"; "identity_uuid"];
  _ ← all_sha256 rerr evidence ["new_name_sha256"; "snapshot_sha256"; "mapping_generation"];
  _ ← refuse ((evidence@["linux_boot_uuid"] ==? baseline@["linux_boot_uuid"])
              || (evidence@["connection_generation"] ==? baseline@["connection_generation"])
              || (evidence@["identity_uuid"] !=? r_target_uuid s)
              || (evidence@["new_name_sha256"] !=? r_new_name_hash s)
              || (evidence@["snapshot_sha256"] !=? r_reconciled_hash s)
              || (evidence@["mapping_generation"] !=? baseline@["mapping_generation"])
              || negb (is_true (evidence@["identity_set_unchanged"]))
              || negb (is_true (evidence@["label_preserved"]))
              || negb (is_true (evidence@["local_live_equal"])))
        "rename post-reboot proof is invalid";
  Ok (s <| r_phase := R_POST_REBOOT_VERIFIED |>).

Definition rename_dispatch (s : rename_state) (milestone v : value) : result rename_state :=
  let m := str_value milestone in
  if eq_str milestone "RENAME_INTENT" then on_rename_intent s v m
  else if eq_str milestone "RENAME_ABORTED_BEFORE_PERSISTENCE" then on_rename_aborted s v m
  else if startswith milestone "CATACOMB_" then on_rename_catacomb s v milestone
  else if eq_str milestone "RENAME_RECONCILED" then on_rename_reconciled s v m
  else if eq_str milestone "RENAME_RECOVERY_INTENT" then on_rename_recovery_intent s v m
  else
    recovery ← in_names milestone ["RENAME_RECOVERY_RECONCILED_NO_CHANGE"; "RENAME_RECOVERY_RECONCILED_COMMITTED"];
    if recovery : bool then on_rename_recovered s v m
    else if eq_str milestone "RENAME_POST_REBOOT_VERIFIED" then on_rename_verified s v m
    else raise rerr "unsupported rename milestone".
End handlers.

Record rename_loop := RLoop { rl_operation_id : value; rl_baseline : value; rl_state : rename_state }.

Definition rename_start (first : value) : result rename_loop :=
  _ ← refuse (first@["milestone"] !=? VStr "BASELINE_RECONCILED") "rename journal has no baseline";
  initial ← exact rerr (first@["evidence"]) ["operation_kind"; "baseline"] "baseline";
  _ ← refuse (initial@["operation_kind"] !=? VStr "rename") "journal is not an identity rename";
  let baseline := initial@["baseline"] in
  _ ← rewrap rerr (validate_baseline baseline);
  _ ← checked_uuid rerr (first@["operation_id"]) "operation ID";
  Ok (RLoop (first@["operation_id"]) baseline (rename_start_state baseline)).

Definition rename_step (l : rename_loop) (record : value) : result rename_loop :=
  _ ← refuse (record@["operation_id"] !=? rl_operation_id l) "operation ID changed inside rename journal";
  s ← rename_dispatch (rl_baseline l) (rl_state l) (record@["milestone"]) (record@["evidence"]);
  Ok (RLoop (rl_operation_id l) (rl_baseline l) s).

Definition rename_history (l : rename_loop) (count : Z) (head : value) : IdentityRenameHistory :=
  let s := rl_state l in
  RHistory (rl_operation_id l) (r_phase s) (rl_baseline l) (r_target_uuid s) (r_target_entity s)
    (r_old_name_hash s) (r_new_name_hash s) (snapshot (r_persistence s)) (r_reconciled_hash s)
    (r_recovery_action s) count head.

#[export] Instance rename_journal : TypedJournal rename_loop IdentityRenameHistory := {
  tj_class := IdentityRenameJournalError;
  tj_label := "rename";
  tj_empty := "rename journal is empty";
  tj_start := rename_start;
  tj_step := rename_step;
  tj_check_head h := checked_sha256 rerr h "journal head hash";
  tj_history := rename_history;
  tj_operation_id := rh_operation_id;
  tj_record_count := rh_record_count;
  tj_head_hash := rh_head_hash;
}.

(** [read] and [append_checked] of this journal. *)
Definition rename_read (euid : Z) (e : entry) : result IdentityRenameHistory := read_history (J := rename_journal) euid e.
Definition rename_append_checked (euid : Z) (calls : io) (others settle : fs → fs) (s : fs)
    (operation_id milestone : string) (evidence : value) : fs * result IdentityRenameHistory :=
  append_checked (J := rename_journal) euid calls others settle s operation_id milestone evidence.

#[export] Instance rename_laws : TypedJournalLaws rename_loop IdentityRenameHistory.
Proof.
  split.
  - intros r r' (Ho & Hm & He). unfold tj_start; cbn. unfold rename_start. by rewrite Ho, Hm, He.
  - intros s r r' (Ho & Hm & He). unfold tj_step; cbn. unfold rename_step. by rewrite Ho, Hm, He.
  - done.
  - done.
  - intros r s n h Hs. cbn in *. unfold rename_start in Hs. evidence_inv. done.
  - intros s r s' n h Hs. cbn in *. unfold rename_step in Hs. evidence_inv. done.
  - intros x. cbn. apply checked_sha256_digest.
Qed.

(** ** The phase graph *)

Definition rename_moves : list (IdentityRenamePhase * string * IdentityRenamePhase) :=
  [(R_BASELINE, "RENAME_INTENT", R_INTENT);
   (R_PERSISTING, "RENAME_ABORTED_BEFORE_PERSISTENCE", R_ABORTED);
   (R_PERSISTENCE_READY, "RENAME_RECONCILED", R_RECONCILED);
   (R_INTENT, "RENAME_RECOVERY_INTENT", R_OUTCOME_UNKNOWN);
   (R_PERSISTING, "RENAME_RECOVERY_INTENT", R_OUTCOME_UNKNOWN);
   (R_PERSISTENCE_READY, "RENAME_RECOVERY_INTENT", R_OUTCOME_UNKNOWN);
   (R_OUTCOME_UNKNOWN, "RENAME_RECOVERY_INTENT", R_OUTCOME_UNKNOWN);
   (R_OUTCOME_UNKNOWN, "RENAME_RECOVERY_RECONCILED_NO_CHANGE", R_ABORTED);
   (R_OUTCOME_UNKNOWN, "RENAME_RECOVERY_RECONCILED_COMMITTED", R_RECONCILED);
   (R_RECONCILED, "RENAME_POST_REBOOT_VERIFIED", R_POST_REBOOT_VERIFIED)].

Inductive rename_edge : IdentityRenamePhase → string → IdentityRenamePhase → Prop :=
  | redge_move p m q : (p, m, q) ∈ rename_moves → rename_edge p m q
  | redge_save p m q :
      String.prefix "CATACOMB_" m = true → p ∈ [R_INTENT; R_PERSISTING] →
      q ∈ [R_PERSISTING; R_PERSISTENCE_READY; R_OUTCOME_UNKNOWN] → rename_edge p m q.

(** The handlers outside the save sequence, by milestone. *)
Definition rename_handlers (b : value) : list (string * (rename_state → value → string → result rename_state)) :=
  [("RENAME_INTENT", on_rename_intent b);
   ("RENAME_ABORTED_BEFORE_PERSISTENCE", on_rename_aborted);
   ("RENAME_RECONCILED", on_rename_reconciled b);
   ("RENAME_RECOVERY_INTENT", on_rename_recovery_intent b);
   ("RENAME_RECOVERY_RECONCILED_NO_CHANGE", on_rename_recovered b);
   ("RENAME_RECOVERY_RECONCILED_COMMITTED", on_rename_recovered b);
   ("RENAME_POST_REBOOT_VERIFIED", on_rename_verified b)].

Inductive rename_handled (b : value) (s : rename_state) (v : value) (s' : rename_state) : value → Prop :=
  | rhandled_by m h : (m, h) ∈ rename_handlers b → h s v m = Ok s' → rename_handled b s v s' (VStr m)
  | rhandled_save m : String.prefix "CATACOMB_" m = true → on_rename_catacomb s v (VStr m) = Ok s' →
      rename_handled b s v s' (VStr m).

Lemma rename_dispatch_handled b s m v s' : rename_dispatch b s m v = Ok s' → rename_handled b s v s' m.
Proof.
  unfold rename_dispatch. cbv zeta.
  milestone_cases ltac:(fun H => eapply rhandled_by; [|exact H]; unfold rename_handlers; in_table).
  destruct (startswith m "CATACOMB_") eqn:Hm.
  { destruct m as [| | |m| | |]; try discriminate Hm. intros H. by apply rhandled_save. }
  milestone_cases ltac:(fun H => eapply rhandled_by; [|exact H]; unfold rename_handlers; in_table).
  intros (r & Hr & H)%bind_Ok. destruct r.
  { apply in_names_true in Hr as (x & -> & Hx). list_cases Hx; subst x;
      (eapply rhandled_by; [|exact H]); unfold rename_handlers; in_table. }
  revert H.
  milestone_cases ltac:(fun H => eapply rhandled_by; [|exact H]; unfold rename_handlers; in_table).
  discriminate.
Qed.

Lemma r_not_in_false s ps : r_not_in s ps = false → r_phase s ∈ ps.
Proof. unfold r_not_in. rewrite negb_false_iff. apply bool_decide_eq_true_1. Qed.

Ltac rename_inv := evidence_inv; repeat match goal with
  | H : r_not_in _ _ = false |- _ => apply r_not_in_false in H
  end.

Lemma rename_dispatch_edge b s m v s' : rename_dispatch b s m v = Ok s' →
  rename_edge (r_phase s) (str_value m) (r_phase s').
Proof.
  intros [m' h Hin H|m' Hm H]%rename_dispatch_handled; cbn [str_value].
  - unfold rename_handlers in Hin.
    list_cases Hin; injection Hin as -> ->;
      match type of H with ?f _ _ _ _ = _ => unfold f in H | ?f _ _ _ = _ => unfold f in H end;
      rename_inv; cbn [r_phase set_field]; apply redge_move;
      match goal with H : r_phase _ ∈ _ |- _ => list_cases H; rewrite H end;
      by apply (bool_decide_unpack _).
  - unfold on_rename_catacomb in H. rename_inv. apply redge_save; [exact Hm|assumption|].
    cbn [r_phase set_field]. repeat case_match; by apply (bool_decide_unpack _).
Qed.

Lemma rename_step_edge l r l' : rename_step l r = Ok l' →
  rename_edge (r_phase (rl_state l)) (milestone_of r) (r_phase (rl_state l')).
Proof. unfold rename_step. intros H. evidence_inv. cbn. eapply rename_dispatch_edge; eassumption. Qed.

Lemma rename_start_phase r s : rename_start r = Ok s → r_phase (rl_state s) = R_BASELINE.
Proof. unfold rename_start. cbv zeta. intros H. by evidence_inv. Qed.

(** an accepted rename journal is a path of the rename phase graph from
    the baseline to the phase it reports. *)
Theorem rename_follows_phase_graph first rest h :
  validate_history (first :: rest) = Ok h →
  path rename_edge R_BASELINE (map milestone_of rest) (rh_phase h).
Proof.
  apply (history_path (J := rename_journal) (λ l, r_phase (rl_state l)) rename_edge rename_step_edge R_BASELINE rh_phase);
    [exact rename_start_phase|done].
Qed.

Lemma rename_final_edge p m q : rename_edge p m q → q ∈ [R_ABORTED; R_RECONCILED] →
  (m, q) ∈ [("RENAME_ABORTED_BEFORE_PERSISTENCE", R_ABORTED); ("RENAME_RECONCILED", R_RECONCILED);
            ("RENAME_RECOVERY_RECONCILED_NO_CHANGE", R_ABORTED);
            ("RENAME_RECOVERY_RECONCILED_COMMITTED", R_RECONCILED)].
Proof.
  intros [p' m' q' Hin|p' m' q' _ _ Hq'] Hq; [|by list_cases Hq; subst; list_cases Hq'].
  unfold rename_moves in Hin. list_cases Hin; injection Hin as -> -> ->;
    first [by list_cases Hq|by apply (bool_decide_unpack _)].
Qed.

(** the label a settled rename leaves is the one its journal proves.  A
    reconciled rename ends with a record that read back the new name; an
    aborted one ends with a record made before anything was persisted, or with
    a recovery that read back the old name over a fresh connection and did not
    roll a host commit forward. *)
Theorem rename_settles_label first rest h :
  validate_history (first :: rest) = Ok h → rh_phase h ∈ [R_ABORTED; R_RECONCILED] →
  ∃ rest' r, rest = rest' ++ [r] ∧ let ev := r@["evidence"] in
    (rh_phase h = R_RECONCILED
       ∧ ((milestone_of r = "RENAME_RECONCILED" ∧ ev@["new_name_sha256"] ==? rh_new_name_sha256 h = true)
          ∨ (milestone_of r = "RENAME_RECOVERY_RECONCILED_COMMITTED"
             ∧ ev@["name_sha256"] ==? rh_new_name_sha256 h = true)))
    ∨ (rh_phase h = R_ABORTED
       ∧ ((milestone_of r = "RENAME_ABORTED_BEFORE_PERSISTENCE" ∧ ev@["mutation_possible"] = VBool false)
          ∨ (milestone_of r = "RENAME_RECOVERY_RECONCILED_NO_CHANGE"
             ∧ ev@["name_sha256"] ==? rh_previous_name_sha256 h = true
             ∧ ev@["connection_generation"] ==? (rh_baseline h)@["connection_generation"] = false
             ∧ rh_recovery_action h ≠ VStr "commit-rolled-forward"))).
Proof.
  intros Hh Hq.
  destruct (history_last (J := rename_journal) (λ l, r_phase (rl_state l)) R_BASELINE rh_phase rename_start_phase (λ _ _ _, eq_refl)
    _ _ _ Hh) as [[_ Hb]|(rest' & r & l & l' & -> & Hs & Hp & ->)].
  { rewrite Hb in Hq. by list_cases Hq. }
  exists rest', r. split; [reflexivity|]. cbv zeta.
  pose proof (rename_step_edge _ _ _ Hs) as He. rewrite Hp in Hq |- *.
  apply (rename_final_edge _ _ _ He) in Hq as Hm. cbn in Hs. unfold rename_step in Hs. evidence_inv.
  match goal with H : rename_dispatch _ _ _ _ = Ok ?s' |- _ => rename H into Hd; rename s' into s1 end.
  cbn [rl_state] in *. unfold milestone_of in *. clear Hq Hp He.
  list_cases Hm; apply pair_equal_spec in Hm as [Em Eq]; rewrite Em, Eq; apply str_value_str in Em; try done;
    rewrite Em in Hd.
  - right. split; [reflexivity|]. left. split; [reflexivity|]. change (on_rename_aborted (rl_state l) (r@["evidence"]) "RENAME_ABORTED_BEFORE_PERSISTENCE" = Ok s1) in Hd; unfold on_rename_aborted in Hd. rename_inv.
    by apply is_false_eq.
  - left. split; [reflexivity|]. left. split; [reflexivity|]. change (on_rename_reconciled (rl_baseline l) (rl_state l) (r@["evidence"]) "RENAME_RECONCILED" = Ok s1) in Hd; unfold on_rename_reconciled in Hd. rename_inv. assumption.
  - right. split; [reflexivity|]. right. split; [reflexivity|]. change (on_rename_recovered (rl_baseline l) (rl_state l) (r@["evidence"]) "RENAME_RECOVERY_RECONCILED_NO_CHANGE" = Ok s1) in Hd;
      unfold on_rename_recovered in Hd. rename_inv.
    cbn in *. split_and!; try assumption. intros Ha. rewrite Ha in *. done.
  - left. split; [reflexivity|]. right. split; [reflexivity|]. change (on_rename_recovered (rl_baseline l) (rl_state l) (r@["evidence"]) "RENAME_RECOVERY_RECONCILED_COMMITTED" = Ok s1) in Hd;
      unfold on_rename_recovered in Hd. rename_inv.
    cbn in *. assumption.
Qed.
