(* ===== verification/DeleteJournal.v ===== *)
(** * Identity-delete journal ([src/src/t2_identity_delete_journal.py])

    The transition rules of one SEP-first deletion: the command is dispatched
    once under a durable intent, its effect is established by read-back, the
    survivors are persisted, reconciled and verified after a reboot; an
    interrupted deletion recovers forward or to the unchanged baseline. *)
From S2P Require Import Prelude PyValue Sha256 Json MutationJournal Evidence TypedJournal PersistenceJournal.

#[local] Open Scope Z_scope.

Inductive IdentityDeletePhase :=
  | D_BASELINE | D_INTENT | D_DISPATCH_INTENT | D_COMMAND_OBSERVED | D_SEP_DELETED | D_ABORTED
  | D_PERSISTING | D_PERSISTENCE_READY | D_RECONCILED | D_POST_REBOOT_VERIFIED | D_OUTCOME_UNKNOWN.

#[export] Instance IdentityDeletePhase_eq_dec : EqDecision IdentityDeletePhase.
Proof. solve_decision. Defined.

Record delete_state := DState {
  d_phase : IdentityDeletePhase;
  d_target_uuid : value;
  d_target_entity : value;
  d_target_name_hash : value;
  d_request_hash : value;
  d_survivor_hash : value;
  d_command_status : value;
  d_reconciled_hash : value;
  d_reconciled_generation : value;
  d_reconciled_boot : value;
  d_outcome_stage : value;
  d_recovery_action : value;
  d_recovery_boot : value;
  d_generation : value;
  d_persistence : tracker;
}.
#[export] Instance delete_state_settable : Settable delete_state := λ s,
  DState (d_phase s) (d_target_uuid s) (d_target_entity s) (d_target_name_hash s) (d_request_hash s)
    (d_survivor_hash s) (d_command_status s) (d_reconciled_hash s) (d_reconciled_generation s)
    (d_reconciled_boot s) (d_outcome_stage s) (d_recovery_action s) (d_recovery_boot s)
    (d_generation s) (d_persistence s).

Definition delete_start_state (baseline : value) : delete_state :=
  DState D_BASELINE VNone VNone VNone VNone VNone VNone VNone VNone VNone VNone VNone VNone
    (baseline@["connection_generation"]) (new_tracker baseline Plan_identity_metadata).

Record IdentityDeleteHistory := DHistory {
  dh_operation_id : value;
  dh_phase : IdentityDeletePhase;
  dh_baseline : value;
  dh_target_identity_uuid : value;
  dh_target_entity : value;
  dh_target_name_sha256 : value;
  dh_request_sha256 : value;
  dh_survivor_snapshot_sha256 : value;
  dh_command_status : value;
  dh_persistence : PersistenceHistory;
  dh_reconciled_snapshot_sha256 : value;
  dh_reconciled_connection_generation : value;
  dh_reconciled_linux_boot_uuid : value;
  dh_outcome_unknown_stage : value;
  dh_recovery_action : value;
  dh_recovery_linux_boot_uuid : value;
  dh_persistence_connection_generation : value;
  dh_record_count : Z;
  dh_head_hash : value;
}.

#[local] Abbreviation derr := IdentityDeleteJournalError.
#[local] Abbreviation refuse := (reject IdentityDeleteJournalError).

Definition d_not_in (s : delete_state) (ps : list IdentityDeletePhase) : bool :=
  negb (bool_decide (d_phase s ∈ ps)).

(** [any(evidence[field] is not True for field in fields)]. *)
Definition any_not_true (evidence : value) (fields : list string) : bool :=
  existsb (λ f, negb (is_true (evidence@[f]))) fields.

(** [set(dict(persistence.snapshot().staged_files)) == {user_name}]. *)
Definition staged_only_user (baseline : value) (t : tracker) : bool :=
  bool_decide (dom (ph_staged_files (snapshot t)) = {[ user_cat (baseline@["apple_uid"]) ]} :> gset string).

Section handlers.
Variable baseline : value.

Definition on_delete_intent (s : delete_state) (v : value) (m : string) : result delete_state :=
  _ ← refuse (d_not_in s [D_BASELINE]) "delete intent is out of order";
  evidence ← exact derr v ["connection_generation"; "user_id"; "identity_uuid"; "entity";
    "target_name_sha256"; "request_sha256"; "request_length"; "survivor_snapshot_sha256";
    "survivor_count"; "mapping_generation"] m;
  _ ← checked_uuid derr (evidence@["identity_uuid"]) "identity UUID";
  _ ← all_sha256 derr evidence ["target_name_sha256"; "request_sha256"; "survivor_snapshot_sha256";
                                "mapping_generation"];
  _ ← refuse ((identity_count baseline <=? 1)
              || negb (length (identity_matches baseline evidence) =? 1)%nat
              || (evidence@["connection_generation"] !=? baseline@["connection_generation"])
              || (evidence@["user_id"] !=? baseline@["apple_uid"])
              || (evidence@["request_length"] !=? VInt 20)
              || (evidence@["survivor_count"] !=? VInt (identity_count baseline - 1))
              || (evidence@["mapping_generation"] !=? baseline@["mapping_generation"]))
        "delete intent binding is invalid";
  Ok (s <| d_target_uuid := evidence@["identity_uuid"] |> <| d_target_entity := evidence@["entity"] |>
        <| d_target_name_hash := evidence@["target_name_sha256"] |>
        <| d_request_hash := evidence@["request_sha256"] |>
        <| d_survivor_hash := evidence@["survivor_snapshot_sha256"] |> <| d_phase := D_INTENT |>).

Definition on_delete_dispatch_intent (s : delete_state) (v : value) (m : string) : result delete_state :=
  _ ← refuse (d_not_in s [D_INTENT]) "delete dispatch intent is out of order";
  evidence ← exact derr v ["connection_generation"; "identity_uuid"; "request_sha256"; "command";
                           "protocol_version"] m;
  _ ← refuse ((evidence@["connection_generation"] !=? baseline@["connection_generation"])
              || (evidence@["identity_uuid"] !=? d_target_uuid s)
              || (evidence@["request_sha256"] !=? d_request_hash s)
              || (evidence@["command"] !=? VInt 13)
              || (evidence@["protocol_version"] !=? VInt 0))
        "delete dispatch binding is invalid";
  Ok (s <| d_phase := D_DISPATCH_INTENT |>).

Definition on_delete_command_observed (s : delete_state) (v : value) (m : string) : result delete_state :=
  _ ← refuse (d_not_in s [D_DISPATCH_INTENT]) "delete command result is out of order";
  evidence ← exact derr v ["connection_generation"; "identity_uuid"; "status"; "output_length";
                           "service_event_count"] m;
  let status := evidence@["status"] in
  _ ← refuse ((evidence@["connection_generation"] !=? baseline@["connection_generation"])
              || (evidence@["identity_uuid"] !=? d_target_uuid s)
              || negb (is_int status)
              || negb ((- 2 ^ 31 <=? int_value status) && (int_value status <? 2 ^ 32))
              || (evidence@["output_length"] !=? VInt 0)
              || (evidence@["service_event_count"] !=? VInt 0))
        "delete command result is invalid";
  Ok (s <| d_command_status := status |> <| d_phase := D_COMMAND_OBSERVED |>).

Definition on_delete_sep_absence (s : delete_state) (v : value) (m : string) : result delete_state :=
  _ ← refuse (d_not_in s [D_COMMAND_OBSERVED]) "SEP deletion evidence is out of order";
  evidence ← exact derr v ["connection_generation"; "identity_uuid"; "survivor_snapshot_sha256";
    "survivor_count"; "stable_double_read"; "per_user_global_equal"; "target_absent"] m;
  _ ← checked_sha256 derr (evidence@["survivor_snapshot_sha256"]) "survivor snapshot";
  _ ← refuse ((evidence@["connection_generation"] !=? baseline@["connection_generation"])
              || (evidence@["identity_uuid"] !=? d_target_uuid s)
              || (evidence@["survivor_snapshot_sha256"] !=? d_survivor_hash s)
              || (evidence@["survivor_count"] !=? VInt (identity_count baseline - 1))
              || any_not_true evidence ["stable_double_read"; "per_user_global_equal"; "target_absent"])
        "SEP deletion evidence is invalid";
  Ok (s <| d_phase := D_SEP_DELETED |>).

Definition on_delete_not_performed (s : delete_state) (v : value) (m : string) : result delete_state :=
  _ ← refuse (d_not_in s [D_COMMAND_OBSERVED]) "delete abort evidence is out of order";
  evidence ← exact derr v ["connection_generation"; "identity_uuid"; "command_failed"; "target_present";
    "baseline_identity_set_equal"; "sep_catacomb_unchanged"; "stable_double_read"] m;
  _ ← refuse ((d_command_status s ==? VInt 0)
              || (evidence@["connection_generation"] !=? baseline@["connection_generation"])
              || (evidence@["identity_uuid"] !=? d_target_uuid s)
              || any_not_true evidence ["command_failed"; "target_present"; "baseline_identity_set_equal";
                                        "sep_catacomb_unchanged"; "stable_double_read"])
        "delete abort evidence is invalid";
  Ok (s <| d_phase := D_ABORTED |>).

Definition on_delete_outcome_unknown (s : delete_state) (v : value) (m : string) : result delete_state :=
  _ ← refuse (d_not_in s [D_DISPATCH_INTENT; D_COMMAND_OBSERVED; D_SEP_DELETED; D_PERSISTING;
                          D_PERSISTENCE_READY]) "delete ambiguity is out of order";
  evidence ← exact derr v ["connection_generation"; "stage"; "reason"; "mutation_possible"] m;
  bad ← Ok (evidence@["connection_generation"] !=? d_generation s)
        ||! not_in_names (evidence@["stage"]) ["dispatch"; "readback"; "persistence"; "reconciliation"]
        ||! not_in_names (evidence@["reason"])
              ["transport-error"; "protocol-error"; "inventory-error"; "host-store-error";
               "readback-error"; "process-interrupted"]
        ||! Ok (negb (is_true (evidence@["mutation_possible"])));
  _ ← refuse bad "delete ambiguity evidence is invalid";
  Ok (s <| d_outcome_stage := evidence@["stage"] |> <| d_phase := D_OUTCOME_UNKNOWN |>).

Definition on_delete_recovery_intent (s : delete_state) (v : value) (m : string) : result delete_state :=
  let first_recovery := is_none (d_recovery_action s)
    && bool_decide (d_phase s ∈ [D_INTENT; D_DISPATCH_INTENT; D_COMMAND_OBSERVED; D_SEP_DELETED;
                                 D_PERSISTING; D_PERSISTENCE_READY; D_OUTCOME_UNKNOWN]) in
  let forward_retry := negb (is_none (d_recovery_action s))
    && bool_decide (d_phase s = D_OUTCOME_UNKNOWN)
    && (d_generation s !=? baseline@["connection_generation"]) in
  _ ← refuse (negb (first_recovery || forward_retry)) "delete recovery intent is out of order";
  evidence ← exact derr v ["action"; "linux_boot_uuid"; "mapping_generation"; "host_commit_possible";
                           "mutation_possible"] m;
  let action := evidence@["action"] in
  bad ← not_in_names action recovery_actions;
  _ ← refuse bad "delete recovery action is invalid";
  _ ← checked_sha256 derr (evidence@["mapping_generation"]) "mapping generation";
  _ ← checked_uuid derr (evidence@["linux_boot_uuid"]) "recovery Linux boot UUID";
  _ ← refuse ((evidence@["mapping_generation"] !=? baseline@["mapping_generation"])
              || negb (is_true (evidence@["mutation_possible"]))
              || (evidence@["host_commit_possible"] !=? VBool (action !=? VStr "prepare-discarded")))
        "delete recovery binding is invalid";
  Ok (s <| d_recovery_action := action |> <| d_recovery_boot := evidence@["linux_boot_uuid"] |>
        <| d_phase := D_OUTCOME_UNKNOWN |>).

Definition on_delete_recovery_absence (s : delete_state) (v : value) (m : string) : result delete_state :=
  _ ← refuse (d_not_in s [D_OUTCOME_UNKNOWN] || is_none (d_recovery_action s) || is_none (d_target_uuid s))
        "delete forward recovery is out of order";
  evidence ← exact derr v ["connection_generation"; "identity_uuid"; "survivor_snapshot_sha256";
    "survivor_count"; "mapping_generation"; "target_absent"; "local_archive_state"; "host_archive_state";
    "sep_user_needs_save"; "sep_master_clean"; "stable_double_read"; "recovery_action"] m;
  _ ← all_uuid derr evidence ["connection_generation"; "identity_uuid"];
  _ ← all_sha256 derr evidence ["survivor_snapshot_sha256"; "mapping_generation"];
  let archive_state := evidence@["local_archive_state"] in
  let staged_ok := staged_only_user baseline (d_persistence s) in
  let forward_persistence := (d_generation s !=? baseline@["connection_generation"]) && staged_ok in
  bad ← Ok ((evidence@["connection_generation"] ==? baseline@["connection_generation"])
            || (evidence@["identity_uuid"] !=? d_target_uuid s)
            || (evidence@["survivor_snapshot_sha256"] !=? d_survivor_hash s)
            || (evidence@["survivor_count"] !=? VInt (identity_count baseline - 1))
            || (evidence@["mapping_generation"] !=? baseline@["mapping_generation"])
            || (evidence@["recovery_action"] !=? d_recovery_action s))
        ||! not_in_names archive_state ["baseline"; "survivors"]
        ||! Ok ((evidence@["host_archive_state"] !=? archive_state)
                || (eq_str archive_state "baseline"
                    && eq_str (d_recovery_action s) "commit-rolled-forward")
                || (eq_str archive_state "survivors"
                    && ((eq_str (d_recovery_action s) "prepare-discarded" && negb forward_persistence)
                        || negb staged_ok))
                || any_not_true evidence ["target_absent"; "sep_user_needs_save"; "sep_master_clean";
                                          "stable_double_read"]);
  _ ← refuse bad "delete forward recovery evidence is invalid";
  let generation := evidence@["connection_generation"] in
  persistence ← except (λ c, bool_decide (c = PersistenceJournalError))
                  (λ e, Exn IdentityDeleteJournalError (exn_msg e))
                  (use_recovery_generation (new_tracker baseline Plan_identity_metadata) generation);
  Ok (s <| d_persistence := persistence |> <| d_generation := generation |>
        <| d_outcome_stage := VNone |> <| d_phase := D_SEP_DELETED |>).

Definition on_delete_recovered (s : delete_state) (v : value) (m : string) : result delete_state :=
  _ ← refuse (d_not_in s [D_OUTCOME_UNKNOWN] || is_none (d_recovery_action s) || is_none (d_target_uuid s))
        "delete recovery reconciliation is out of order";
  evidence ← exact derr v ["connection_generation"; "identity_uuid"; "snapshot_sha256";
    "mapping_generation"; "identity_count"; "target_absent"; "local_live_equal"; "host_reconciled";
    "sep_clean"; "recovery_action"] m;
  _ ← all_uuid derr evidence ["connection_generation"; "identity_uuid"];
  _ ← all_sha256 derr evidence ["snapshot_sha256"; "mapping_generation"];
  let committed := endswith "COMMITTED" m in
  _ ← refuse ((evidence@["connection_generation"] ==? baseline@["connection_generation"])
              || (evidence@["identity_uuid"] !=? d_target_uuid s)
              || (evidence@["mapping_generation"] !=? baseline@["mapping_generation"])
              || (evidence@["identity_count"] !=?
                    VInt (identity_count baseline - (if committed then 1 else 0)))
              || negb (bool_decide (evidence@["target_absent"] = VBool committed))
              || any_not_true evidence ["local_live_equal"; "host_reconciled"; "sep_clean"]
              || (evidence@["recovery_action"] !=? d_recovery_action s)
              || (committed && negb (staged_only_user baseline (d_persistence s))))
        "delete recovery reconciliation is invalid";
  _ ← refuse (negb committed && eq_str (d_recovery_action s) "commit-rolled-forward")
        "rolled-forward delete cannot reconcile as unchanged";
  Ok (s <| d_reconciled_hash := if committed then evidence@["snapshot_sha256"] else VNone |>
        <| d_reconciled_generation := if committed then evidence@["connection_generation"] else VNone |>
        <| d_reconciled_boot := if committed then d_recovery_boot s else VNone |>
        <| d_phase := if committed then D_RECONCILED else D_ABORTED |>).

Definition on_delete_catacomb (s : delete_state) (v milestone : value) : result delete_state :=
  _ ← refuse (d_not_in s [D_SEP_DELETED; D_PERSISTING]) "delete persistence is out of order";
  '(_, persistence) ← except (λ c, bool_decide (c = PersistenceJournalError))
                        (λ e, Exn IdentityDeleteJournalError (exn_msg e))
                        (consume (d_persistence s) milestone v false);
  let s := s <| d_persistence := persistence |> in
  Ok (if bool_decide (pt_phase persistence = COMPLETE) then s <| d_phase := D_PERSISTENCE_READY |>
      else if bool_decide (pt_phase persistence = P_OUTCOME_UNKNOWN) then
        s <| d_outcome_stage := ph_outcome_unknown_stage (snapshot persistence) |>
          <| d_phase := D_OUTCOME_UNKNOWN |>
      else s <| d_phase := D_PERSISTING |>).

Definition on_delete_reconciled (s : delete_state) (v : value) (m : string) : result delete_state :=
  _ ← refuse (d_not_in s [D_PERSISTENCE_READY]) "delete reconciliation is out of order";
  evidence ← exact derr v ["connection_generation"; "identity_uuid"; "survivor_snapshot_sha256";
    "snapshot_sha256"; "mapping_generation"; "identity_count"; "target_absent"; "local_live_equal";
    "host_reconciled"; "sep_clean"] m;
  _ ← checked_uuid derr (evidence@["identity_uuid"]) "identity UUID";
  _ ← all_sha256 derr evidence ["survivor_snapshot_sha256"; "snapshot_sha256"; "mapping_generation"];
  _ ← refuse ((evidence@["connection_generation"] !=? d_generation s)
              || (evidence@["identity_uuid"] !=? d_target_uuid s)
              || (evidence@["survivor_snapshot_sha256"] !=? d_survivor_hash s)
              || (evidence@["mapping_generation"] !=? baseline@["mapping_generation"])
              || (evidence@["identity_count"] !=? VInt (identity_count baseline - 1))
              || any_not_true evidence ["target_absent"; "local_live_equal"; "host_reconciled"; "sep_clean"])
        "delete reconciliation is invalid";
  Ok (s <| d_reconciled_hash := evidence@["snapshot_sha256"] |>
        <| d_reconciled_generation := evidence@["connection_generation"] |>
        <| d_reconciled_boot := if truthy (d_recovery_boot s) then d_recovery_boot s
                                else baseline@["linux_boot_uuid"] |>
        <| d_phase := D_RECONCILED |>).

Definition on_delete_verified (s : delete_state) (v : value) (m : string) : result delete_state :=
  _ ← refuse (d_not_in s [D_RECONCILED]) "delete post-reboot proof is out of order";
  evidence ← exact derr v ["linux_boot_uuid"; "connection_generation"; "identity_uuid";
    "survivor_snapshot_sha256"; "snapshot_sha256"; "mapping_generation"; "target_absent";
    "local_live_equal"; "sep_clean"] m;
  _ ← all_uuid derr evidence ["linux_boot_uuid"; "connection_generation"; "identity_uuid"];
  _ ← all_sha256 derr evidence ["survivor_snapshot_sha256"; "snapshot_sha256"; "mapping_generation"];
  _ ← refuse ((evidence@["linux_boot_uuid"] ==? d_reconciled_boot s)
              || (evidence@["connection_generation"] ==? d_reconciled_generation s)
              || (evidence@["identity_uuid"] !=? d_target_uuid s)
              || (evidence@["survivor_snapshot_sha256"] !=? d_survivor_hash s)
              || (evidence@["snapshot_sha256"] !=? d_reconciled_hash s)
              || (evidence@["mapping_generation"] !=? baseline@["mapping_generation"])
              || any_not_true evidence ["target_absent"; "local_live_equal"; "sep_clean"])
        "delete post-reboot proof is invalid";
  Ok (s <| d_phase := D_POST_REBOOT_VERIFIED |>).

Definition delete_dispatch (s : delete_state) (milestone v : value) : result delete_state :=
  let m := str_value milestone in
  if eq_str milestone "DELETE_INTENT" then on_delete_intent s v m
  else if eq_str milestone "DELETE_DISPATCH_INTENT" then on_delete_dispatch_intent s v m
  else if eq_str milestone "DELETE_COMMAND_OBSERVED" then on_delete_command_observed s v m
  else if eq_str milestone "DELETE_SEP_ABSENCE_OBSERVED" then on_delete_sep_absence s v m
  else if eq_str milestone "DELETE_NOT_PERFORMED" then on_delete_not_performed s v m
  else if eq_str milestone "DELETE_OUTCOME_UNKNOWN" then on_delete_outcome_unknown s v m
  else if eq_str milestone "DELETE_RECOVERY_INTENT" then on_delete_recovery_intent s v m
  else if eq_str milestone "DELETE_RECOVERY_SEP_ABSENCE_OBSERVED" then on_delete_recovery_absence s v m
  else
    recovery ← in_names milestone ["DELETE_RECOVERY_RECONCILED_NO_CHANGE"; "DELETE_RECOVERY_RECONCILED_COMMITTED"];
    if recovery : bool then on_delete_recovered s v m
    else if startswith milestone "CATACOMB_" then on_delete_catacomb s v milestone
    else if eq_str milestone "DELETE_RECONCILED" then on_delete_reconciled s v m
    else if eq_str milestone "DELETE_POST_REBOOT_VERIFIED" then on_delete_verified s v m
    else raise derr "unsupported delete milestone".
End handlers.

Record delete_loop := DLoop { dl_operation_id : value; dl_baseline : value; dl_state : delete_state }.

Definition delete_start (first : value) : result delete_loop :=
  _ ← refuse (first@["milestone"] !=? VStr "BASELINE_RECONCILED") "delete journal has no baseline";
  initial ← exact derr (first@["evidence"]) ["operation_kind"; "baseline"] "baseline";
  _ ← refuse (initial@["operation_kind"] !=? VStr "delete-one") "journal is not a single identity deletion";
  let baseline := initial@["baseline"] in
  _ ← rewrap derr (validate_baseline baseline);
  _ ← checked_uuid derr (first@["operation_id"]) "operation ID";
  Ok (DLoop (first@["operation_id"]) baseline (delete_start_state baseline)).

Definition delete_step (l : delete_loop) (record : value) : result delete_loop :=
  _ ← refuse (record@["operation_id"] !=? dl_operation_id l) "operation ID changed inside delete journal";
  s ← delete_dispatch (dl_baseline l) (dl_state l) (record@["milestone"]) (record@["evidence"]);
  Ok (DLoop (dl_operation_id l) (dl_baseline l) s).

Definition delete_history (l : delete_loop) (count : Z) (head : value) : IdentityDeleteHistory :=
  let s := dl_state l in
  DHistory (dl_operation_id l) (d_phase s) (dl_baseline l) (d_target_uuid s) (d_target_entity s)
    (d_target_name_hash s) (d_request_hash s) (d_survivor_hash s) (d_command_status s)
    (snapshot (d_persistence s)) (d_reconciled_hash s) (d_reconciled_generation s) (d_reconciled_boot s)
    (d_outcome_stage s) (d_recovery_action s) (d_recovery_boot s) (d_generation s) count head.

#[export] Instance delete_journal : TypedJournal delete_loop IdentityDeleteHistory := {
  tj_class := IdentityDeleteJournalError;
  tj_label := "delete";
  tj_empty := "delete journal is empty";
  tj_start := delete_start;
  tj_step := delete_step;
  tj_check_head h := checked_sha256 derr h "journal head hash";
  tj_history := delete_history;
  tj_operation_id := dh_operation_id;
  tj_record_count := dh_record_count;
  tj_head_hash := dh_head_hash;
}.

(** [read] and [append_checked] of this journal. *)
Definition delete_read (euid : Z) (e : entry) : result IdentityDeleteHistory := read_history (J := delete_journal) euid e.
Definition delete_append_checked (euid : Z) (calls : io) (others settle : fs → fs) (s : fs)
    (operation_id milestone : string) (evidence : value) : fs * result IdentityDeleteHistory :=
  append_checked (J := delete_journal) euid calls others settle s operation_id milestone evidence.

#[export] Instance delete_laws : TypedJournalLaws delete_loop IdentityDeleteHistory.
Proof.
  split.
  - intros r r' (Ho & Hm & He). unfold tj_start; cbn. unfold delete_start. by rewrite Ho, Hm, He.
  - intros s r r' (Ho & Hm & He). unfold tj_step; cbn. unfold delete_step. by rewrite Ho, Hm, He.
  - done.
  - done.
  - intros r s n h Hs. cbn in *. unfold delete_start in Hs. evidence_inv. done.
  - intros s r s' n h Hs. cbn in *. unfold delete_step in Hs. evidence_inv. done.
  - intros x. cbn. apply checked_sha256_digest.
Qed.

(** ** The phase graph *)

Definition delete_moves : list (IdentityDeletePhase * string * IdentityDeletePhase) :=
  [(D_BASELINE, "DELETE_INTENT", D_INTENT);
   (D_INTENT, "DELETE_DISPATCH_INTENT", D_DISPATCH_INTENT);
   (D_DISPATCH_INTENT, "DELETE_COMMAND_OBSERVED", D_COMMAND_OBSERVED);
   (D_COMMAND_OBSERVED, "DELETE_SEP_ABSENCE_OBSERVED", D_SEP_DELETED);
   (D_COMMAND_OBSERVED, "DELETE_NOT_PERFORMED", D_ABORTED);
   (D_OUTCOME_UNKNOWN, "DELETE_RECOVERY_SEP_ABSENCE_OBSERVED", D_SEP_DELETED);
   (D_OUTCOME_UNKNOWN, "DELETE_RECOVERY_RECONCILED_NO_CHANGE", D_ABORTED);
   (D_OUTCOME_UNKNOWN, "DELETE_RECOVERY_RECONCILED_COMMITTED", D_RECONCILED);
   (D_PERSISTENCE_READY, "DELETE_RECONCILED", D_RECONCILED);
   (D_RECONCILED, "DELETE_POST_REBOOT_VERIFIED", D_POST_REBOOT_VERIFIED)]
  ++ map (λ p, (p, "DELETE_OUTCOME_UNKNOWN", D_OUTCOME_UNKNOWN))
       [D_DISPATCH_INTENT; D_COMMAND_OBSERVED; D_SEP_DELETED; D_PERSISTING; D_PERSISTENCE_READY]
  ++ map (λ p, (p, "DELETE_RECOVERY_INTENT", D_OUTCOME_UNKNOWN))
       [D_INTENT; D_DISPATCH_INTENT; D_COMMAND_OBSERVED; D_SEP_DELETED; D_PERSISTING; D_PERSISTENCE_READY;
        D_OUTCOME_UNKNOWN].

Inductive delete_edge : IdentityDeletePhase → string → IdentityDeletePhase → Prop :=
  | dedge_move p m q : (p, m, q) ∈ delete_moves → delete_edge p m q
  | dedge_save p m q :
      String.prefix "CATACOMB_" m = true → p ∈ [D_SEP_DELETED; D_PERSISTING] →
      q ∈ [D_PERSISTING; D_PERSISTENCE_READY; D_OUTCOME_UNKNOWN] → delete_edge p m q.

Definition delete_handlers (b : value) : list (string * (delete_state → value → string → result delete_state)) :=
  [("DELETE_INTENT", on_delete_intent b);
   ("DELETE_DISPATCH_INTENT", on_delete_dispatch_intent b);
   ("DELETE_COMMAND_OBSERVED", on_delete_command_observed b);
   ("DELETE_SEP_ABSENCE_OBSERVED", on_delete_sep_absence b);
   ("DELETE_NOT_PERFORMED", on_delete_not_performed b);
   ("DELETE_OUTCOME_UNKNOWN", on_delete_outcome_unknown);
   ("DELETE_RECOVERY_INTENT", on_delete_recovery_intent b);
   ("DELETE_RECOVERY_SEP_ABSENCE_OBSERVED", on_delete_recovery_absence b);
   ("DELETE_RECOVERY_RECONCILED_NO_CHANGE", on_delete_recovered b);
   ("DELETE_RECOVERY_RECONCILED_COMMITTED", on_delete_recovered b);
   ("DELETE_RECONCILED", on_delete_reconciled b);
   ("DELETE_POST_REBOOT_VERIFIED", on_delete_verified b)].

Inductive delete_handled (b : value) (s : delete_state) (v : value) (s' : delete_state) : value → Prop :=
  | dhandled_by m h : (m, h) ∈ delete_handlers b → h s v m = Ok s' → delete_handled b s v s' (VStr m)
  | dhandled_save m : String.prefix "CATACOMB_" m = true → on_delete_catacomb s v (VStr m) = Ok s' →
      delete_handled b s v s' (VStr m).

Lemma delete_dispatch_handled b s m v s' : delete_dispatch b s m v = Ok s' → delete_handled b s v s' m.
Proof.
  unfold delete_dispatch. cbv zeta.
  milestone_cases ltac:(fun H => eapply dhandled_by; [|exact H]; unfold delete_handlers; in_table).
  intros (r & Hr & H)%bind_Ok. destruct r.
  { apply in_names_true in Hr as (x & -> & Hx). list_cases Hx; subst x;
      (eapply dhandled_by; [|exact H]); unfold delete_handlers; in_table. }
  destruct (startswith m "CATACOMB_") eqn:Hm.
  { destruct m as [| | |m| | |]; try discriminate Hm. by apply dhandled_save. }
  revert H.
  milestone_cases ltac:(fun H => eapply dhandled_by; [|exact H]; unfold delete_handlers; in_table).
  discriminate.
Qed.

Lemma d_not_in_false s ps : d_not_in s ps = false → d_phase s ∈ ps.
Proof. unfold d_not_in. rewrite negb_false_iff. apply bool_decide_eq_true_1. Qed.

Ltac delete_inv := evidence_inv; repeat match goal with
  | H : d_not_in _ _ = false |- _ => apply d_not_in_false in H
  end.

(** Opens the completed handler in [H]. *)
Ltac open_delete H :=
  match type of H with ?f _ _ _ _ = _ => unfold f in H | ?f _ _ _ = _ => unfold f in H end;
  cbv zeta in H; delete_inv; cbn [d_phase set_field].

Lemma on_delete_recovery_intent_phase b s v m s' : on_delete_recovery_intent b s v m = Ok s' →
  d_phase s ∈ [D_INTENT; D_DISPATCH_INTENT; D_COMMAND_OBSERVED; D_SEP_DELETED; D_PERSISTING;
               D_PERSISTENCE_READY; D_OUTCOME_UNKNOWN].
Proof.
  unfold on_delete_recovery_intent. cbv zeta. intros H.
  apply bind_Ok in H as (u & H & _). unfold reject in H. apply fail_if_Ok, negb_false_iff, orb_true_iff in H.
  destruct H as [[_ H]%andb_true_iff|[[_ H]%andb_true_iff _]%andb_true_iff]; apply bool_decide_eq_true in H.
  - exact H.
  - rewrite H. by apply (bool_decide_unpack _).
Qed.

Lemma on_delete_catacomb_phase s v m s' : on_delete_catacomb s v m = Ok s' →
  d_phase s ∈ [D_SEP_DELETED; D_PERSISTING] ∧ d_phase s' ∈ [D_PERSISTING; D_PERSISTENCE_READY; D_OUTCOME_UNKNOWN].
Proof.
  unfold on_delete_catacomb. cbv zeta. intros H. delete_inv. split; [assumption|].
  repeat case_match; by apply (bool_decide_unpack _).
Qed.

Lemma delete_dispatch_edge b s m v s' : delete_dispatch b s m v = Ok s' →
  delete_edge (d_phase s) (str_value m) (d_phase s').
Proof.
  intros [m' h Hin H|m' Hm H]%delete_dispatch_handled; cbn [str_value].
  - unfold delete_handlers in Hin.
    list_cases Hin; injection Hin as -> ->;
      try (apply on_delete_recovery_intent_phase in H as Hp);
      open_delete H; apply dedge_move;
      match goal with H : d_phase _ ∈ _ |- _ => list_cases H; rewrite H end;
      by apply (bool_decide_unpack _).
  - apply on_delete_catacomb_phase in H as [? ?]. by apply dedge_save.
Qed.

Lemma delete_step_edge l r l' : delete_step l r = Ok l' →
  delete_edge (d_phase (dl_state l)) (milestone_of r) (d_phase (dl_state l')).
Proof. unfold delete_step. intros H. evidence_inv. cbn. eapply delete_dispatch_edge; eassumption. Qed.

Lemma delete_start_phase r s : delete_start r = Ok s → d_phase (dl_state s) = D_BASELINE.
Proof. unfold delete_start. cbv zeta. intros H. by evidence_inv. Qed.

Lemma delete_path first rest h : validate_history (first :: rest) = Ok h →
  path delete_edge D_BASELINE (map milestone_of rest) (dh_phase h).
Proof.
  apply (history_path (J := delete_journal) (λ l, d_phase (dl_state l)) delete_edge delete_step_edge
    D_BASELINE dh_phase); [exact delete_start_phase|done].
Qed.

Lemma delete_edge_into p m q : delete_edge p m q → q ≠ D_BASELINE ∧ (q = D_INTENT → p = D_BASELINE)
  ∧ (m = "DELETE_DISPATCH_INTENT" → p = D_INTENT).
Proof.
  intros [p' m' q' Hin|p' m' q' Hm _ Hq].
  - unfold delete_moves in Hin. cbn [map app] in Hin. list_cases Hin; injection Hin as -> -> ->; done.
  - split_and!; [by intros ->; list_cases Hq|by intros ->; list_cases Hq|by intros ->].
Qed.

(** C23: an accepted delete journal is a path of the delete phase graph, and
    the intent to send the delete command to the SEP occurs at most once,
    directly after the delete intent: whatever fails, is recovered or retried,
    the command is never dispatched again. *)
Theorem delete_dispatched_once first rest h :
  validate_history (first :: rest) = Ok h →
  path delete_edge D_BASELINE (map milestone_of rest) (dh_phase h)
  ∧ ∀ i, map milestone_of rest !! i = Some "DELETE_DISPATCH_INTENT" →
      i = 1%nat ∧ map milestone_of rest !! O = Some "DELETE_INTENT".
Proof.
  intros Hp%delete_path. split; [exact Hp|]. intros i Hi.
  destruct (path_lookup _ _ _ _ _ _ Hp Hi) as (q & q' & Hq & He & _).
  apply delete_edge_into in He as (_ & _ & He). specialize (He eq_refl) as ->.
  generalize dependent (map milestone_of rest). intros ms Hp Hi Hq.
  destruct i as [|i]; [by inversion Hq|]. destruct ms as [|m ms]; [done|]. cbn [firstn] in Hq.
  inversion Hq as [|? ? p1 ? ? H1 H2]; subst. apply delete_edge_into in H1 as H1'.
  assert (∀ p q, p ≠ D_BASELINE → path delete_edge p (take i ms) q → q = D_INTENT → take i ms = []) as Hback.
  { intros p0 q0 Hp0 H Hq0. destruct (take i ms) as [|x xs _] eqn:Ht using rev_ind; [done|].
    apply path_app_inv in H as (q2 & H3 & H4). inversion H4 as [|? ? ? ? ? He Hn]; subst. inversion Hn; subst.
    apply delete_edge_into in He as (_ & He & _). specialize (He eq_refl) as ->.
    destruct (path_closed delete_edge (λ p, p ≠ D_BASELINE) (λ _, True) p0 xs D_BASELINE) as [Hb _];
      [by intros a b c _ Hab; split; [apply delete_edge_into in Hab as [? _]|]|exact Hp0|exact H3|by destruct Hb]. }
  specialize (Hback p1 D_INTENT (proj1 H1') H2 eq_refl). rewrite Hback in H2. inversion H2; subst.
  destruct i as [|i]; [|by destruct ms].
  split; [reflexivity|]. cbn. f_equal.
  inversion H1 as [a b c Hin|a b c _ Hin _]; subst; [|by list_cases Hin].
  unfold delete_moves in Hin. cbn [map app] in Hin. by list_cases Hin; simplify_eq.
Qed.

(** ** The target *)

Definition delete_target_inv (b : value) (s : delete_state) : Prop :=
  d_phase s = D_BASELINE
  ∨ (1 < identity_count b ∧ length (identities_with b (d_target_uuid s) (d_target_entity s)) = 1%nat).

(** Only the delete intent sets the target. *)
Lemma delete_handlers_keep_target b m h s v s' : (m, h) ∈ drop 1 (delete_handlers b) → h s v m = Ok s' →
  d_target_uuid s' = d_target_uuid s ∧ d_target_entity s' = d_target_entity s.
Proof.
  intros Hin H. cbn [drop delete_handlers] in Hin.
  list_cases Hin; injection Hin as -> ->; open_delete H; split; reflexivity.
Qed.

Lemma on_delete_intent_target b s v m s' : on_delete_intent b s v m = Ok s' → delete_target_inv b s'.
Proof.
  unfold on_delete_intent. intros H. delete_inv. right. split; [by apply Z.leb_gt|by apply Nat.eqb_eq].
Qed.

Lemma delete_target_kept b s m v s' : delete_dispatch b s m v = Ok s' → delete_target_inv b s →
  delete_target_inv b s'.
Proof.
  intros Hd Hinv. pose proof (delete_dispatch_edge _ _ _ _ _ Hd) as He.
  revert He. apply delete_dispatch_handled in Hd as [m' h Hin H|m' Hm H]; intros He; cbn [str_value] in He.
  - apply elem_of_cons in Hin as [Hin|Hin]; [injection Hin as -> ->; by eapply on_delete_intent_target|].
    destruct Hinv as [Hb|Hinv].
    + exfalso. rewrite Hb in He. inversion He as [a b' c Hi|a b' c _ Hi _]; subst; [|by list_cases Hi].
      assert (m' = "DELETE_INTENT") as ->.
      { unfold delete_moves in Hi. cbn [map app] in Hi. by list_cases Hi; simplify_eq. }
      by list_cases Hin.
    + right. by destruct (delete_handlers_keep_target b m' h s v s' Hin H) as [-> ->].
  - destruct Hinv as [Hb|Hinv].
    { apply on_delete_catacomb_phase in H as [Hp _]. rewrite Hb in Hp. by list_cases Hp. }
    unfold on_delete_catacomb in H. cbv zeta in H. delete_inv. right. by repeat case_match.
Qed.

(** a deletion never targets the last identity: as soon as an accepted
    delete journal has left its baseline, the baseline holds at least two
    identities and exactly one of them has the UUID and the entity of the
    target. *)
Theorem delete_targets_one_of_many first rest h :
  validate_history (first :: rest) = Ok h → dh_phase h ≠ D_BASELINE →
  1 < identity_count (dh_baseline h)
  ∧ length (identities_with (dh_baseline h) (dh_target_identity_uuid h) (dh_target_entity h)) = 1%nat.
Proof.
  intros (f & r & s0 & l & [= <- <-] & H0 & Hs & _ & ->)%validate_history_Ok Hp. cbn in H0, Hs, Hp |- *.
  assert (delete_target_inv (dl_baseline l) (dl_state l)) as [Hb|Hinv]; [|done|exact Hinv].
  clear Hp. revert Hs. apply (fold_result_inv delete_step (λ l, delete_target_inv (dl_baseline l) (dl_state l))).
  - intros l1 r l2 Hinv H. unfold delete_step in H. delete_inv. cbn. by eapply delete_target_kept.
  - left. by apply delete_start_phase in H0.
Qed.

Lemma delete_verified_edge p m : delete_edge p m D_POST_REBOOT_VERIFIED → m = "DELETE_POST_REBOOT_VERIFIED".
Proof.
  intros He. inversion He as [p' m' q' Hin|p' m' q' _ _ Hq]; subst; [|by list_cases Hq].
  unfold delete_moves in Hin. cbn [map app] in Hin. by list_cases Hin; simplify_eq.
Qed.

(** a deletion reported as verified ends with a record taken on another
    boot and another connection than those on which it was reconciled (the
    recovery's when it was recovered), that sees the target absent on the
    reconciled snapshot. *)
Theorem verified_delete_crossed_reboot first rest h :
  validate_history (first :: rest) = Ok h → dh_phase h = D_POST_REBOOT_VERIFIED →
  ∃ rest' r, rest = rest' ++ [r] ∧ r@["milestone"] = VStr "DELETE_POST_REBOOT_VERIFIED"
    ∧ let ev := r@["evidence"] in
      ev@["linux_boot_uuid"] ==? dh_reconciled_linux_boot_uuid h = false
      ∧ ev@["connection_generation"] ==? dh_reconciled_connection_generation h = false
      ∧ ev@["identity_uuid"] ==? dh_target_identity_uuid h = true
      ∧ ev@["survivor_snapshot_sha256"] ==? dh_survivor_snapshot_sha256 h = true
      ∧ ev@["snapshot_sha256"] ==? dh_reconciled_snapshot_sha256 h = true
      ∧ ev@["target_absent"] = VBool true.
Proof.
  intros Hh Hp.
  destruct (history_last (J := delete_journal) (λ l, d_phase (dl_state l)) D_BASELINE dh_phase delete_start_phase
    (λ _ _ _, eq_refl) _ _ _ Hh) as [[_ Hb]|(rest' & r & l & l' & -> & Hs & Hp' & ->)]; [congruence|].
  exists rest', r. split; [reflexivity|]. pose proof (delete_step_edge _ _ _ Hs) as He.
  rewrite Hp' in Hp. rewrite Hp in He. apply delete_verified_edge, str_value_str in He; [|done].
  split; [exact He|]. cbn in Hs. unfold delete_step in Hs. rewrite He in Hs. clear Hp Hp' Hh. evidence_inv.
  match goal with H : delete_dispatch _ _ _ _ = Ok ?x |- _ =>
    change (on_delete_verified (dl_baseline l) (dl_state l) (r@["evidence"]) "DELETE_POST_REBOOT_VERIFIED" = Ok x) in H;
    unfold on_delete_verified in H end.
  delete_inv. cbn in *. split_and!; try assumption.
  evidence_inv. by apply is_true_eq.
Qed.
