(* ===== verification/SyncJournal.v ===== *)
(** * Catacomb synchronisation journal ([src/src/t2_catacomb_sync_journal.py])

    The journal of persisting an already-dirty user Catacomb: one host commit
    under one intent, at most one recovery over a fresh connection.  Unlike the
    other typed journals its [append_checked] appends first and validates the
    result afterwards. *)
From S2P Require Import Prelude PyValue Sha256 Json MutationJournal Evidence TypedJournal.

#[local] Open Scope Z_scope.

Inductive CatacombSyncPhase :=
  | S_BASELINE | S_INTENT | S_HOST_COMMITTED | S_RECONCILED | S_ABORTED | S_OUTCOME_UNKNOWN.

#[export] Instance CatacombSyncPhase_eq_dec : EqDecision CatacombSyncPhase.
Proof. solve_decision. Defined.

(** [intent] and [host_commit] are [VNone] or the evidence of their record. *)
Record sync_state := SState {
  s_phase : CatacombSyncPhase;
  s_intent : value;
  s_host_commit : value;
  s_recovery_attempted : bool;
}.
#[export] Instance sync_state_settable : Settable sync_state := λ s,
  SState (s_phase s) (s_intent s) (s_host_commit s) (s_recovery_attempted s).

Definition sync_start_state : sync_state := SState S_BASELINE VNone VNone false.

Record CatacombSyncHistory := SHistory {
  sh_operation_id : value;
  sh_phase : CatacombSyncPhase;
  sh_baseline : value;
  sh_record_count : Z;
  sh_head_hash : value;
  sh_intent : value;
  sh_host_commit : value;
  sh_recovery_attempted : bool;
}.

#[local] Abbreviation serr := CatacombSyncJournalError.
#[local] Abbreviation refuse := (reject CatacombSyncJournalError).

Definition sync_sha (v : value) (field : string) : result unit := checked_sha256 serr v field.
Definition sync_uuid (v : value) (field : string) : result unit := checked_uuid serr v field.
Definition sync_shas (item : value) (fields : list string) : result unit :=
  for_each (λ f, sync_sha (item@[f]) f) fields.

Definition sync_intent_fields : list string :=
  ["mapping_generation"; "descriptor_snapshot_sha256"; "initial_component_snapshot_sha256";
   "initial_sep_catacomb_hash"; "identity_snapshot_sha256"].

Section handlers.
Variable baseline : value.

Definition on_sync_intent (s : sync_state) (item : value) : result sync_state :=
  _ ← refuse (negb (has_keys item ("connection_generation" :: sync_intent_fields)))
        "Catacomb sync intent is invalid";
  _ ← sync_uuid (item@["connection_generation"]) "connection generation";
  _ ← sync_shas item sync_intent_fields;
  _ ← refuse ((item@["connection_generation"] !=? baseline@["connection_generation"])
              || (item@["mapping_generation"] !=? baseline@["mapping_generation"]))
        "Catacomb sync intent binding changed";
  Ok (s <| s_intent := item |> <| s_phase := S_INTENT |>).

Definition on_sync_host_committed (s : sync_state) (item : value) : result sync_state :=
  _ ← refuse (negb (has_keys item ["connection_generation"; "final_component_snapshot_sha256";
                                   "secure_blob_snapshot_sha256"]))
        "Catacomb sync host commit is invalid";
  _ ← sync_uuid (item@["connection_generation"]) "connection generation";
  _ ← sync_sha (item@["final_component_snapshot_sha256"]) "final component snapshot";
  _ ← sync_sha (item@["secure_blob_snapshot_sha256"]) "secure blob snapshot";
  _ ← refuse (is_none (s_intent s)
              || (item@["connection_generation"] !=? (s_intent s)@["connection_generation"]))
        "Catacomb sync host binding changed";
  Ok (s <| s_host_commit := item |> <| s_phase := S_HOST_COMMITTED |>).

Definition on_sync_reconciled (s : sync_state) (item : value) : result sync_state :=
  _ ← refuse (negb (has_keys item ["connection_generation"; "final_component_snapshot_sha256";
      "final_sep_catacomb_hash"; "identity_snapshot_sha256"; "sep_clean"; "local_live_equal"]))
        "Catacomb sync proof is invalid";
  _ ← sync_uuid (item@["connection_generation"]) "connection generation";
  _ ← sync_shas item ["final_component_snapshot_sha256"; "final_sep_catacomb_hash"; "identity_snapshot_sha256"];
  _ ← refuse (negb (is_true (item@["sep_clean"])) || negb (is_true (item@["local_live_equal"])))
        "Catacomb sync proof is incomplete";
  _ ← refuse (is_none (s_intent s) || is_none (s_host_commit s)
              || (item@["connection_generation"] !=? (s_intent s)@["connection_generation"])
              || (item@["final_component_snapshot_sha256"] !=?
                    (s_host_commit s)@["final_component_snapshot_sha256"])
              || (item@["identity_snapshot_sha256"] !=? (s_intent s)@["identity_snapshot_sha256"]))
        "Catacomb sync proof binding changed";
  Ok (s <| s_phase := S_RECONCILED |>).

(** [not isinstance(v, str) or not v]. *)
Definition empty_or_not_str (v : value) : bool := negb (is_str v) || negb (truthy v).

Definition on_sync_aborted (s : sync_state) (item : value) : result sync_state :=
  _ ← refuse (negb (has_keys item ["reason"; "mutation_possible"])
              || empty_or_not_str (item@["reason"])
              || negb (is_false (item@["mutation_possible"])))
        "Catacomb sync abort is invalid";
  Ok (s <| s_phase := S_ABORTED |>).

Definition on_sync_outcome_unknown (s : sync_state) (item : value) : result sync_state :=
  _ ← refuse (negb (has_keys item ["stage"; "reason"; "mutation_possible"; "host_commit_possible"])
              || empty_or_not_str (item@["stage"]) || empty_or_not_str (item@["reason"])
              || negb (is_true (item@["mutation_possible"]))
              || negb (is_bool (item@["host_commit_possible"])))
        "Catacomb sync ambiguity is invalid";
  Ok (s <| s_phase := S_OUTCOME_UNKNOWN |>).

(** The connection of a recovery is neither the baseline's nor the intent's. *)
Definition stale_connection (s : sync_state) (item : value) : bool :=
  (item@["connection_generation"] ==? baseline@["connection_generation"])
  || (item@["connection_generation"] ==? (s_intent s)@["connection_generation"]).

Definition on_sync_recovery_intent (s : sync_state) (item : value) : result sync_state :=
  let fields := sync_intent_fields ++ ["prior_final_component_snapshot_sha256"] in
  _ ← refuse (negb (has_keys item ("connection_generation" :: fields)))
        "Catacomb sync recovery intent is invalid";
  _ ← sync_uuid (item@["connection_generation"]) "connection generation";
  _ ← sync_shas item fields;
  let committed := (s_host_commit s)@["final_component_snapshot_sha256"] in
  _ ← refuse (is_none (s_intent s) || is_none (s_host_commit s) || stale_connection s item
              || (item@["mapping_generation"] !=? baseline@["mapping_generation"])
              || (item@["identity_snapshot_sha256"] !=? (s_intent s)@["identity_snapshot_sha256"])
              || (item@["initial_component_snapshot_sha256"] !=? committed)
              || (item@["prior_final_component_snapshot_sha256"] !=? committed))
        "Catacomb sync recovery binding changed";
  Ok (s <| s_intent := item |> <| s_host_commit := VNone |> <| s_recovery_attempted := true |>
        <| s_phase := S_INTENT |>).

Definition on_sync_recovered_clean (s : sync_state) (item : value) : result sync_state :=
  _ ← refuse (negb (has_keys item ["connection_generation"; "final_component_snapshot_sha256";
      "identity_snapshot_sha256"; "final_sep_catacomb_hash"; "sep_clean"; "local_live_equal"]))
        "Catacomb sync clean recovery is invalid";
  _ ← sync_uuid (item@["connection_generation"]) "connection generation";
  _ ← sync_shas item ["final_component_snapshot_sha256"; "identity_snapshot_sha256"; "final_sep_catacomb_hash"];
  _ ← refuse (is_none (s_intent s) || is_none (s_host_commit s) || stale_connection s item
              || (item@["final_component_snapshot_sha256"] !=?
                    (s_host_commit s)@["final_component_snapshot_sha256"])
              || (item@["identity_snapshot_sha256"] !=? (s_intent s)@["identity_snapshot_sha256"])
              || negb (is_true (item@["sep_clean"])) || negb (is_true (item@["local_live_equal"])))
        "Catacomb sync clean recovery binding changed";
  Ok (s <| s_recovery_attempted := true |> <| s_phase := S_RECONCILED |>).

(** The loop body for record [index]. *)
Definition sync_dispatch (index : Z) (s : sync_state) (milestone item : value) : result sync_state :=
  let in_phase p := bool_decide (s_phase s = p) in
  _ ← refuse (negb (is_dict item)) "Catacomb sync evidence is invalid";
  if eq_str milestone "CATACOMB_SYNC_INTENT" && in_phase S_BASELINE then on_sync_intent s item
  else if eq_str milestone "CATACOMB_SYNC_HOST_COMMITTED" && in_phase S_INTENT then on_sync_host_committed s item
  else if eq_str milestone "CATACOMB_SYNC_RECONCILED" && in_phase S_HOST_COMMITTED then on_sync_reconciled s item
  else if eq_str milestone "CATACOMB_SYNC_ABORTED_BEFORE_DISPATCH" && in_phase S_INTENT then on_sync_aborted s item
  else if eq_str milestone "CATACOMB_SYNC_OUTCOME_UNKNOWN" && (in_phase S_INTENT || in_phase S_HOST_COMMITTED)
    then on_sync_outcome_unknown s item
  else if eq_str milestone "CATACOMB_SYNC_RECOVERY_INTENT" && in_phase S_OUTCOME_UNKNOWN
          && negb (s_recovery_attempted s) then on_sync_recovery_intent s item
  else if eq_str milestone "CATACOMB_SYNC_RECOVERED_CLEAN" && in_phase S_OUTCOME_UNKNOWN
          && negb (s_recovery_attempted s) then on_sync_recovered_clean s item
  else raise serr ("Catacomb sync milestone is out of order at record " +:+ dec index "").
End handlers.

Record sync_loop := SLoop {
  sl_operation_id : value;
  sl_baseline : value;
  sl_index : Z;
  sl_state : sync_state;
}.

Definition sync_start (first : value) : result sync_loop :=
  let evidence := first@["evidence"] in
  _ ← refuse ((first@["milestone"] !=? VStr "BASELINE_RECONCILED")
              || negb (has_keys evidence ["operation_kind"; "baseline"])
              || (evidence@["operation_kind"] !=? VStr "sync-user-catacomb"))
        "Catacomb sync baseline is invalid";
  _ ← except is_journal_error (λ _, Exn serr "Catacomb sync baseline is invalid")
        (validate_baseline (evidence@["baseline"]));
  Ok (SLoop (first@["operation_id"]) (evidence@["baseline"]) 1 sync_start_state).

Definition sync_step (l : sync_loop) (record : value) : result sync_loop :=
  s ← sync_dispatch (sl_baseline l) (sl_index l) (sl_state l) (record@["milestone"]) (record@["evidence"]);
  Ok (SLoop (sl_operation_id l) (sl_baseline l) (sl_index l + 1) s).

Definition sync_history (l : sync_loop) (count : Z) (head : value) : CatacombSyncHistory :=
  let s := sl_state l in
  SHistory (sl_operation_id l) (s_phase s) (sl_baseline l) count head (s_intent s) (s_host_commit s)
    (s_recovery_attempted s).

#[export] Instance sync_journal : TypedJournal sync_loop CatacombSyncHistory := {
  tj_class := CatacombSyncJournalError;
  tj_label := "Catacomb sync";
  tj_empty := "Catacomb sync journal is empty";
  tj_start := sync_start;
  tj_step := sync_step;
  tj_check_head h := fail_if (is_none h) KeyError "record_hash";
  tj_history := sync_history;
  tj_operation_id := sh_operation_id;
  tj_record_count := sh_record_count;
  tj_head_hash := sh_head_hash;
}.

#[export] Instance sync_laws : TypedJournalLaws sync_loop CatacombSyncHistory.
Proof.
  split.
  - intros r r' (Ho & Hm & He). unfold tj_start; cbn. unfold sync_start. by rewrite Ho, Hm, He.
  - intros s r r' (Ho & Hm & He). unfold tj_step; cbn. unfold sync_step. by rewrite Hm, He.
  - done.
  - done.
  - intros r s n h Hs. cbn in *. unfold sync_start in Hs. cbv zeta in Hs. evidence_inv. done.
  - intros s r s' n h Hs. cbn in *. unfold sync_step in Hs. evidence_inv. done.
  - intros x. done.
Qed.

Definition sync_read (euid : Z) (e : entry) : result CatacombSyncHistory :=
  except is_journal_error (λ _, Exn serr "Catacomb sync journal is invalid") (read_history euid e).

(** [append_checked] of this journal: the record is appended under the guard of
    the history read before, and validated when the file is read back. *)
Definition sync_append_checked (euid : Z) (calls : io) (others settle : fs → fs) (s : fs)
    (operation_id milestone : string) (evidence : value) : fs * result CatacombSyncHistory :=
  match (before ← sync_read euid (fs_entry s);
         _ ← refuse (sh_operation_id before !=? VStr operation_id) "Catacomb sync operation ID changed";
         Ok before) with
  | Raise e => (s, Raise e)
  | Ok before =>
      let '(s, r) := append euid calls (others s) operation_id milestone evidence false
           (Some (sh_record_count before)) (Some (sh_head_hash before)) in
      let s := if is_ok r then settle s else s in
      (s, except is_journal_error (λ _, Exn serr "Catacomb sync append failed")
            (_ ← r; sync_read euid (fs_entry s)))
  end.

(** ** The phase graph

    The phase together with the flag that a recovery was attempted. *)

Definition sync_place (l : sync_loop) : CatacombSyncPhase * bool :=
  (s_phase (sl_state l), s_recovery_attempted (sl_state l)).

Inductive sync_edge : CatacombSyncPhase * bool → string → CatacombSyncPhase * bool → Prop :=
  | sync_begin a : sync_edge (S_BASELINE, a) "CATACOMB_SYNC_INTENT" (S_INTENT, a)
  | sync_commit a : sync_edge (S_INTENT, a) "CATACOMB_SYNC_HOST_COMMITTED" (S_HOST_COMMITTED, a)
  | sync_proof a : sync_edge (S_HOST_COMMITTED, a) "CATACOMB_SYNC_RECONCILED" (S_RECONCILED, a)
  | sync_abort a : sync_edge (S_INTENT, a) "CATACOMB_SYNC_ABORTED_BEFORE_DISPATCH" (S_ABORTED, a)
  | sync_lost p a : p ∈ [S_INTENT; S_HOST_COMMITTED] →
      sync_edge (p, a) "CATACOMB_SYNC_OUTCOME_UNKNOWN" (S_OUTCOME_UNKNOWN, a)
  | sync_retry : sync_edge (S_OUTCOME_UNKNOWN, false) "CATACOMB_SYNC_RECOVERY_INTENT" (S_INTENT, true)
  | sync_clean : sync_edge (S_OUTCOME_UNKNOWN, false) "CATACOMB_SYNC_RECOVERED_CLEAN" (S_RECONCILED, true).

Lemma sync_step_edge l r l' : sync_step l r = Ok l' → sync_edge (sync_place l) (milestone_of r) (sync_place l').
Proof.
  unfold sync_step, milestone_of. intros H. apply bind_Ok in H as (s' & H & Hl). apply Ok_inj in Hl as <-.
  unfold sync_dispatch in H. cbv zeta in H. apply bind_Ok in H as (_ & _ & H). unfold sync_place in *.
  cbn [sl_state]. destruct (sl_state l) as [p intent commit attempted]. cbn [s_phase s_recovery_attempted] in *.
  destruct (r@["milestone"]) as [| | |m| | |]; try discriminate H.
  revert H. cbn [str_value].
  repeat match goal with
  | |- (if eq_str (VStr m) ?k && ?b then _ else _) = Ok _ → _ =>
      let E := fresh in destruct (eq_str (VStr m) k && b) eqn:E;
      [apply andb_true_iff in E as [E ?]; apply eq_str_true in E; injection E as ->; intros H|clear E]
  | |- (if (eq_str (VStr m) ?k && ?b) && ?c then _ else _) = Ok _ → _ =>
      let E := fresh in destruct ((eq_str (VStr m) k && b) && c) eqn:E;
      [apply andb_true_iff in E as [E ?]; apply andb_true_iff in E as [E ?];
       apply eq_str_true in E; injection E as ->; intros H|clear E]
  end; try discriminate;
  unfold on_sync_intent, on_sync_host_committed, on_sync_reconciled,
    on_sync_aborted, on_sync_outcome_unknown, on_sync_recovery_intent, on_sync_recovered_clean in H;
  cbv zeta in H;
  repeat match goal with H : (_ || _)%bool = true |- _ => apply orb_true_iff in H; destruct H end;
  evidence_inv; cbn [s_phase s_recovery_attempted set_field]; constructor; by apply (bool_decide_unpack _).
Qed.

Lemma sync_start_place r l : sync_start r = Ok l → sync_place l = (S_BASELINE, false).
Proof. unfold sync_start. cbv zeta. intros H. by evidence_inv. Qed.

Definition sync_recoveries : list string := ["CATACOMB_SYNC_RECOVERY_INTENT"; "CATACOMB_SYNC_RECOVERED_CLEAN"].

Lemma sync_attempted_closed p m q : p.2 = true → sync_edge p m q → q.2 = true ∧ m ∉ sync_recoveries.
Proof. intros Hp He. destruct He; cbn in *; try discriminate Hp; (split; [exact Hp|by apply (bool_decide_unpack _)]). Qed.

Lemma sync_recovery_edge p m q : sync_edge p m q → m ∈ sync_recoveries → q.2 = true.
Proof. intros He Hm. destruct He; try done; by list_cases Hm. Qed.

(** an accepted synchronisation journal follows its phase graph and
    attempts at most one recovery: two recovery records are the same one. *)
Theorem sync_recovers_at_most_once first rest h :
  validate_history (first :: rest) = Ok h →
  path sync_edge (S_BASELINE, false) (map milestone_of rest) (sh_phase h, sh_recovery_attempted h)
  ∧ ∀ i j mi mj, map milestone_of rest !! i = Some mi → mi ∈ sync_recoveries →
      map milestone_of rest !! j = Some mj → mj ∈ sync_recoveries → i = j.
Proof.
  intros Hh.
  assert (path sync_edge (S_BASELINE, false) (map milestone_of rest) (sh_phase h, sh_recovery_attempted h)) as Hp.
  { revert Hh. apply (history_path (J := sync_journal) sync_place sync_edge sync_step_edge (S_BASELINE, false)
      (λ h, (sh_phase h, sh_recovery_attempted h)) sync_start_place). done. }
  split; [exact Hp|].
  assert (∀ i j mi mj, map milestone_of rest !! i = Some mi → mi ∈ sync_recoveries →
      map milestone_of rest !! j = Some mj → mj ∈ sync_recoveries → (j ≤ i)%nat) as Hle.
  { intros i j mi mj Hi Hmi Hj Hmj. destruct (decide (j ≤ i)%nat) as [?|Hlt]; [done|]. exfalso.
    destruct (path_lookup _ _ _ _ _ _ Hp Hi) as (q & q' & _ & He & Hrest).
    destruct (path_closed sync_edge (λ p, p.2 = true) (λ m, m ∉ sync_recoveries) _ _ _ sync_attempted_closed
      (sync_recovery_edge _ _ _ He Hmi) Hrest) as [_ Hall].
    apply (proj1 (Forall_lookup _ _) Hall (j - S i)%nat mj); [|exact Hmj].
    rewrite lookup_drop. by replace (S i + (j - S i))%nat with j by lia. }
  intros i j mi mj Hi Hmi Hj Hmj. pose proof (Hle _ _ _ _ Hi Hmi Hj Hmj). pose proof (Hle _ _ _ _ Hj Hmj Hi Hmi). lia.
Qed.

(** ** Dead ends *)

Lemma sync_stuck l r : s_phase (sl_state l) = S_OUTCOME_UNKNOWN →
  s_host_commit (sl_state l) = VNone ∨ s_recovery_attempted (sl_state l) = true →
  is_ok (sync_step l r) = false.
Proof.
  intros Hp Hstuck. destruct (sync_step l r) as [l'|e] eqn:H; [|done]. exfalso.
  pose proof (sync_step_edge _ _ _ H) as He. unfold sync_place in He. rewrite Hp in He.
  unfold sync_step in H. apply bind_Ok in H as (s' & Hd & _).
  destruct Hstuck as [Hc|Ha]; [|rewrite Ha in He; inversion He as [| | | |p a Hin| |]; subst; by list_cases Hin].
  inversion He as [| | | |p a Hin|Ha Hm|Ha Hm]; [by list_cases Hin|..];
    symmetry in Hm; apply str_value_str in Hm; try done; rewrite Hm in Hd;
    unfold sync_dispatch in Hd; cbv zeta in Hd; apply bind_Ok in Hd as (_ & _ & Hd); rewrite Hp in Hd;
    rewrite <-Ha in Hd.
  - change (on_sync_recovery_intent (sl_baseline l) (sl_state l) (r@["evidence"]) = Ok s') in Hd.
    unfold on_sync_recovery_intent in Hd. rewrite Hc in Hd. evidence_inv. discriminate.
  - change (on_sync_recovered_clean (sl_baseline l) (sl_state l) (r@["evidence"]) = Ok s') in Hd.
    unfold on_sync_recovered_clean in Hd. rewrite Hc in Hd. evidence_inv. discriminate.
Qed.

(** a synchronisation whose outcome became unknown before its host commit
    was recorded, or after its one recovery, can never be continued: no record
    whatsoever extends its journal. *)
Theorem sync_unknown_dead_end rs h r :
  validate_history rs = Ok h → sh_phase h = S_OUTCOME_UNKNOWN →
  sh_host_commit h = VNone ∨ sh_recovery_attempted h = true →
  is_ok (validate_history (rs ++ [r])) = false.
Proof.
  intros Hh Hp Hstuck. apply (history_final (J := sync_journal) rs h r Hh). intros l n hd l' -> H.
  pose proof (sync_stuck l r Hp Hstuck) as Hf. cbn in H. by rewrite H in Hf.
Qed.

(** ** Appending before validating *)

(** the synchronisation journal is written before it is validated: on a
    private, valid journal and with succeeding system calls,
    [sync_append_checked] of a transition that validation rejects raises an
    exception only after the record is durable, so the journal itself is
    rejected from then on. *)
Theorem sync_append_writes_before_validating euid parent f op m ev rs h :
  read euid (Present f) = Ok rs → complete_lines (f_content f) = true →
  validate_history rs = Ok h → sh_operation_id h = VStr op →
  is_ok (validate_history (rs ++ [candidate op m ev])) = false →
  check_arguments op m ev (Some (Z.of_nat (length rs))) (Some (last_hash rs)) = Ok tt →
  check_parent euid (default (Directory true euid 448) parent) = Ok tt →
  let '(s', r) := sync_append_checked euid io_ok (λ s, s) (λ s, s) (FS parent (Present f)) op m ev in
  is_ok r = false ∧ ∃ record,
    validate_records (readlines (entry_content (fs_entry s'))) = Ok (rs ++ [record])
    ∧ same_entry record (candidate op m ev)
    ∧ is_ok (validate_history (rs ++ [record])) = false.
Proof.
  intros Hread Hc Hx Hop Hbad Hargs Hparent.
  destruct (unvalidated_append (J := sync_journal) euid parent f op m ev rs h Hread Hc Hx Hop Hbad eq_refl Hargs Hparent)
    as (s' & record & Happ & Hnew & Hsame & Hrej & Hr).
  unfold sync_append_checked. cbn [fs_entry].
  assert (sync_read euid (Present f) = Ok h) as -> by (unfold sync_read, read_history; rewrite Hread; cbn; by rewrite Hx).
  cbn [mbind result_bind]. rewrite Hop, py_eq_refl. unfold reject. cbn [negb fail_if mbind result_bind].
  change (sh_record_count h) with (tj_record_count h). change (sh_head_hash h) with (tj_head_hash h).
  rewrite Happ. cbn [mbind result_bind is_ok]. split; [|by exists record].
  unfold sync_read. destruct (read_history euid (fs_entry s')) as [|e]; [discriminate Hr|].
  unfold except. by repeat case_match.
Qed.
