(* ===== verification/ExternalDeleteJournal.v ===== *)
(** * External-delete journal ([src/src/t2_external_delete_reconcile.py], history part)

    The journal of removing from the Linux Catacomb one identity that the SEP no
    longer holds.  No record of it may claim a SEP mutation.  Its
    [append_checked], like that of the synchronisation journal, appends first
    and validates when the file is read back. *)
From S2P Require Import Prelude PyValue Sha256 Json MutationJournal Evidence TypedJournal.

#[local] Open Scope Z_scope.

Inductive ExternalDeletePhase := X_BASELINE | X_INTENT | X_HOST_COMMITTED | X_RECONCILED | X_ABORTED | X_OUTCOME_UNKNOWN.

#[export] Instance ExternalDeletePhase_eq_dec : EqDecision ExternalDeletePhase.
Proof. solve_decision. Defined.

Record external_state := XState { x_phase : ExternalDeletePhase; x_intent : value }.
#[export] Instance external_state_settable : Settable external_state := λ s, XState (x_phase s) (x_intent s).

Definition external_start_state : external_state := XState X_BASELINE VNone.

Record ExternalDeleteHistory := XHistory {
  xh_operation_id : value;
  xh_phase : ExternalDeletePhase;
  xh_baseline : value;
  xh_intent : value;
  xh_record_count : Z;
  xh_head_hash : value;
}.

#[local] Abbreviation xerr := ExternalDeleteReconcileError.
#[local] Abbreviation refuse := (reject ExternalDeleteReconcileError).

(** [_exact] *)
Definition x_exact (v : value) (keys : list string) (field : string) : result value :=
  _ ← refuse (negb (has_keys v keys)) (field +:+ " evidence is invalid");
  Ok v.
(** [_require_hash] *)
Definition x_require_hash (v : value) (field : string) : result unit := rewrap xerr (require_sha256 v field).

Definition external_baseline_fields : list string :=
  ["operation_kind"; "apple_uid"; "linux_boot_uuid"; "connection_generation"; "mapping_generation";
   "local_identity_count"; "live_identity_count"; "stale_identity_uuid"; "stale_entity"; "stale_name_sha256";
   "local_snapshot_sha256"; "live_snapshot_sha256"; "survivor_snapshot_sha256"; "before_user_sha256";
   "other_components_snapshot_sha256"; "backup_reference"; "backup_snapshot_sha256"; "sep_mutation_performed"].

Record external_loop := XLoop { xl_operation_id : value; xl_baseline : value; xl_state : external_state }.

Definition external_start (first : value) : result external_loop :=
  _ ← refuse (first@["milestone"] !=? VStr "EXTERNAL_DELETE_BASELINE") "external-delete journal has no baseline";
  _ ← checked_uuid xerr (first@["operation_id"]) "operation ID";
  baseline ← x_exact (first@["evidence"]) external_baseline_fields "baseline";
  _ ← all_uuid xerr baseline ["linux_boot_uuid"; "connection_generation"; "stale_identity_uuid"; "backup_reference"];
  _ ← all_sha256 xerr baseline ["mapping_generation"; "stale_name_sha256"; "local_snapshot_sha256";
        "live_snapshot_sha256"; "survivor_snapshot_sha256"; "before_user_sha256";
        "other_components_snapshot_sha256"; "backup_snapshot_sha256"];
  _ ← refuse ((baseline@["operation_kind"] !=? VStr "reconcile-external-delete")
              || negb (is_int (baseline@["apple_uid"])) || negb (is_int (baseline@["stale_entity"]))
              || negb (is_int (baseline@["local_identity_count"])) || negb (is_int (baseline@["live_identity_count"]))
              || (int_value (baseline@["live_identity_count"]) <? 1)
              || (baseline@["local_identity_count"] !=? VInt (int_value (baseline@["live_identity_count"]) + 1))
              || negb (is_false (baseline@["sep_mutation_performed"])))
        "external-delete baseline binding is invalid";
  Ok (XLoop (first@["operation_id"]) baseline external_start_state).

Definition x_not_in (s : external_state) (ps : list ExternalDeletePhase) : bool :=
  negb (bool_decide (x_phase s ∈ ps)).

Section handlers.
Variable baseline : value.

Definition on_external_intent (s : external_state) (v : value) : result external_state :=
  _ ← refuse (x_not_in s [X_BASELINE]) "external-delete intent is out of order";
  intent ← x_exact v ["connection_generation"; "staged_user_sha256"; "survivor_snapshot_sha256"; "identity_count";
                      "sep_mutation_performed"] "intent";
  _ ← x_require_hash (intent@["staged_user_sha256"]) "staged user component";
  _ ← refuse ((intent@["connection_generation"] !=? baseline@["connection_generation"])
              || (intent@["survivor_snapshot_sha256"] !=? baseline@["survivor_snapshot_sha256"])
              || (intent@["identity_count"] !=? baseline@["live_identity_count"])
              || negb (is_false (intent@["sep_mutation_performed"])))
        "external-delete intent binding changed";
  Ok (s <| x_intent := intent |> <| x_phase := X_INTENT |>).

Definition on_external_host_committed (s : external_state) (v : value) : result external_state :=
  _ ← refuse (x_not_in s [X_INTENT; X_OUTCOME_UNKNOWN]) "external-delete commit is out of order";
  v ← x_exact v ["staged_user_sha256"; "recovery_action"; "sep_mutation_performed"] "host commit";
  changed ← (Ok (is_none (x_intent s) || (v@["staged_user_sha256"] !=? (x_intent s)@["staged_user_sha256"]))
             ||! not_in_names (v@["recovery_action"]) ["direct"; "commit-rolled-forward"]
             ||! Ok (negb (is_false (v@["sep_mutation_performed"]))));
  _ ← refuse changed "external-delete commit binding changed";
  Ok (s <| x_phase := X_HOST_COMMITTED |>).

Definition on_external_reconciled (s : external_state) (v : value) : result external_state :=
  _ ← refuse (x_not_in s [X_HOST_COMMITTED]) "external-delete proof is out of order";
  v ← x_exact v ["connection_generation"; "staged_user_sha256"; "identity_count"; "local_live_equal"; "target_absent";
                 "other_components_unchanged"; "sep_mutation_performed"] "reconciliation";
  _ ← checked_uuid xerr (v@["connection_generation"]) "reconciled connection generation";
  _ ← refuse (is_none (x_intent s) || (v@["staged_user_sha256"] !=? (x_intent s)@["staged_user_sha256"])
              || (v@["identity_count"] !=? baseline@["live_identity_count"])
              || negb (is_true (v@["local_live_equal"])) || negb (is_true (v@["target_absent"]))
              || negb (is_true (v@["other_components_unchanged"]))
              || negb (is_false (v@["sep_mutation_performed"])))
        "external-delete proof is incomplete";
  Ok (s <| x_phase := X_RECONCILED |>).

Definition on_external_aborted (s : external_state) (v : value) : result external_state :=
  _ ← refuse (x_not_in s [X_BASELINE; X_INTENT; X_OUTCOME_UNKNOWN]) "external-delete abort is out of order";
  v ← x_exact v ["reason"; "host_commit_possible"; "sep_mutation_performed"] "abort";
  invalid ← (not_in_names (v@["reason"]) ["before-host-stage"; "prepare-discarded"]
             ||! Ok (negb (is_false (v@["host_commit_possible"]))
                     || negb (is_false (v@["sep_mutation_performed"]))));
  _ ← refuse invalid "external-delete abort is invalid";
  Ok (s <| x_phase := X_ABORTED |>).

Definition on_external_outcome_unknown (s : external_state) (v : value) : result external_state :=
  _ ← refuse (x_not_in s [X_INTENT; X_HOST_COMMITTED]) "external-delete ambiguity is out of order";
  v ← x_exact v ["stage"; "host_commit_possible"; "sep_mutation_performed"] "ambiguity";
  invalid ← (not_in_names (v@["stage"]) ["host-stage"; "host-commit"; "readback"]
             ||! Ok (negb (is_bool (v@["host_commit_possible"]))
                     || negb (is_false (v@["sep_mutation_performed"]))));
  _ ← refuse invalid "external-delete ambiguity is invalid";
  Ok (s <| x_phase := X_OUTCOME_UNKNOWN |>).

Definition external_dispatch (s : external_state) (milestone v : value) : result external_state :=
  if eq_str milestone "EXTERNAL_DELETE_INTENT" then on_external_intent s v
  else if eq_str milestone "EXTERNAL_DELETE_HOST_COMMITTED" then on_external_host_committed s v
  else if eq_str milestone "EXTERNAL_DELETE_RECONCILED" then on_external_reconciled s v
  else if eq_str milestone "EXTERNAL_DELETE_ABORTED" then on_external_aborted s v
  else if eq_str milestone "EXTERNAL_DELETE_OUTCOME_UNKNOWN" then on_external_outcome_unknown s v
  else raise xerr "unknown external-delete milestone".
End handlers.

Definition external_step (l : external_loop) (record : value) : result external_loop :=
  _ ← refuse (record@["operation_id"] !=? xl_operation_id l) "external-delete operation ID changed";
  s ← external_dispatch (xl_baseline l) (xl_state l) (record@["milestone"]) (record@["evidence"]);
  Ok (XLoop (xl_operation_id l) (xl_baseline l) s).

Definition external_history (l : external_loop) (count : Z) (head : value) : ExternalDeleteHistory :=
  XHistory (xl_operation_id l) (x_phase (xl_state l)) (xl_baseline l) (x_intent (xl_state l)) count head.

#[export] Instance external_journal : TypedJournal external_loop ExternalDeleteHistory := {
  tj_class := ExternalDeleteReconcileError;
  tj_label := "external-delete";
  tj_empty := "external-delete journal has no baseline";
  tj_start := external_start;
  tj_step := external_step;
  tj_check_head h := fail_if (is_none h) KeyError "record_hash";
  tj_history := external_history;
  tj_operation_id := xh_operation_id;
  tj_record_count := xh_record_count;
  tj_head_hash := xh_head_hash;
}.

#[export] Instance external_laws : TypedJournalLaws external_loop ExternalDeleteHistory.
Proof.
  split.
  - intros r r' (Ho & Hm & He). unfold tj_start; cbn. unfold external_start. by rewrite Ho, Hm, He.
  - intros s r r' (Ho & Hm & He). unfold tj_step; cbn. unfold external_step. by rewrite Ho, Hm, He.
  - done.
  - done.
  - intros r s n h Hs. cbn in *. unfold external_start in Hs. do 6 (apply bind_Ok in Hs as (? & _ & Hs)).
    by apply Ok_inj in Hs as <-.
  - intros s r s' n h Hs. cbn in *. unfold external_step in Hs. evidence_inv. done.
  - done.
Qed.

Definition external_read (euid : Z) (e : entry) : result ExternalDeleteHistory :=
  read_history (J := external_journal) euid e.

(** [create_journal] *)
Definition external_create (euid : Z) (calls : io) (settle : fs → fs) (s : fs) (operation_id : string)
    (evidence : value) : fs * result ExternalDeleteHistory :=
  let '(s, r) := append euid calls s operation_id "EXTERNAL_DELETE_BASELINE" evidence true None None in
  match r with
  | Raise e => (s, Raise e)
  | Ok _ => let s := settle s in (s, external_read euid (fs_entry s))
  end.

(** [append_checked] *)
Definition external_append_checked (euid : Z) (calls : io) (others settle : fs → fs) (s : fs)
    (operation_id milestone : string) (evidence : value) : fs * result ExternalDeleteHistory :=
  match (history ← external_read euid (fs_entry s);
         _ ← refuse (xh_operation_id history !=? VStr operation_id) "external-delete operation ID changed";
         Ok history) with
  | Raise e => (s, Raise e)
  | Ok history =>
      let '(s, r) := append euid calls (others s) operation_id milestone evidence false
           (Some (xh_record_count history)) (Some (xh_head_hash history)) in
      match r with
      | Raise e => (s, Raise e)
      | Ok _ => let s := settle s in (s, external_read euid (fs_entry s))
      end
  end.

(** ** The phase graph *)

Lemma x_exact_Ok v keys field e : x_exact v keys field = Ok e ↔ e = v ∧ has_keys v keys = true.
Proof. unfold x_exact, reject. split; [intros H; ok_inv; by split|]. intros [-> Hk]. by rewrite Hk. Qed.

Lemma x_not_in_false s ps : x_not_in s ps = false → x_phase s ∈ ps.
Proof. unfold x_not_in. rewrite negb_false_iff. apply bool_decide_eq_true_1. Qed.

Ltac external_inv := repeat (evidence_inv; match goal with
  | H : x_exact _ _ _ = Ok _ |- _ => apply x_exact_Ok in H as [? ?]; subst
  | H : x_not_in _ _ = false |- _ => apply x_not_in_false in H
  | H : is_false _ = true |- _ => apply is_false_eq in H
  end); evidence_inv.

Inductive external_edge : ExternalDeletePhase → string → ExternalDeletePhase → Prop :=
  | xedge_intent : external_edge X_BASELINE "EXTERNAL_DELETE_INTENT" X_INTENT
  | xedge_commit p : p ∈ [X_INTENT; X_OUTCOME_UNKNOWN] →
      external_edge p "EXTERNAL_DELETE_HOST_COMMITTED" X_HOST_COMMITTED
  | xedge_proof : external_edge X_HOST_COMMITTED "EXTERNAL_DELETE_RECONCILED" X_RECONCILED
  | xedge_abort p : p ∈ [X_BASELINE; X_INTENT; X_OUTCOME_UNKNOWN] →
      external_edge p "EXTERNAL_DELETE_ABORTED" X_ABORTED
  | xedge_lost p : p ∈ [X_INTENT; X_HOST_COMMITTED] →
      external_edge p "EXTERNAL_DELETE_OUTCOME_UNKNOWN" X_OUTCOME_UNKNOWN.

(** The handlers by milestone. *)
Definition external_handlers (b : value) : list (string * (external_state → value → result external_state)) :=
  [("EXTERNAL_DELETE_INTENT", on_external_intent b);
   ("EXTERNAL_DELETE_HOST_COMMITTED", on_external_host_committed);
   ("EXTERNAL_DELETE_RECONCILED", on_external_reconciled b);
   ("EXTERNAL_DELETE_ABORTED", on_external_aborted);
   ("EXTERNAL_DELETE_OUTCOME_UNKNOWN", on_external_outcome_unknown)].

Lemma external_dispatch_handled b s m v s' : external_dispatch b s m v = Ok s' →
  ∃ k h, m = VStr k ∧ (k, h) ∈ external_handlers b ∧ h s v = Ok s'.
Proof.
  unfold external_dispatch.
  milestone_cases ltac:(fun H => eexists _, _; split; [reflexivity|]; split; [|exact H]; unfold external_handlers; in_table).
  discriminate.
Qed.

Ltac external_handler Hin H :=
  unfold external_handlers in Hin; list_cases Hin; injection Hin as -> ->;
  match type of H with ?f _ _ _ = _ => unfold f in H | ?f _ _ = _ => unfold f in H end.

(** The intent is written once and kept, and every handler refuses evidence
    that claims a SEP mutation. *)
Lemma external_handler_facts b k h s v s' : (k, h) ∈ external_handlers b → h s v = Ok s' →
  external_edge (x_phase s) k (x_phase s') ∧ v@["sep_mutation_performed"] = VBool false
  ∧ (x_phase s' ∈ [X_HOST_COMMITTED; X_RECONCILED] →
       v@["staged_user_sha256"] ==? (x_intent s')@["staged_user_sha256"] = true)
  ∧ x_intent s' = (if String.eqb k "EXTERNAL_DELETE_INTENT" then v else x_intent s).
Proof.
  intros Hin H. external_handler Hin H; external_inv; cbn [x_phase x_intent set_field String.eqb];
    (split; [|split; [assumption|split; [|reflexivity]]]);
    try (match goal with H : x_phase _ ∈ [?p] |- external_edge _ _ _ => list_cases H; rewrite H end);
    try (by constructor); intros Hq; first [assumption|by list_cases Hq].
Qed.

Lemma external_step_inv l r l' : external_step l r = Ok l' →
  xl_baseline l' = xl_baseline l ∧ ∃ k h, r@["milestone"] = VStr k ∧ (k, h) ∈ external_handlers (xl_baseline l)
    ∧ h (xl_state l) (r@["evidence"]) = Ok (xl_state l').
Proof.
  unfold external_step. intros H. apply bind_Ok in H as (u & _ & H). apply bind_Ok in H as (s & Hd & H).
  apply Ok_inj in H as <-. split; [done|]. by apply external_dispatch_handled.
Qed.

Lemma external_step_edge l r l' : external_step l r = Ok l' →
  external_edge (x_phase (xl_state l)) (milestone_of r) (x_phase (xl_state l')).
Proof.
  intros (_ & k & h & Hm & Hin & H)%external_step_inv. unfold milestone_of. rewrite Hm. cbn [str_value].
  by eapply external_handler_facts.
Qed.

Lemma external_start_facts r s : external_start r = Ok s →
  x_phase (xl_state s) = X_BASELINE ∧ xl_baseline s = r@["evidence"]
  ∧ (r@["evidence"])@["sep_mutation_performed"] = VBool false
  ∧ ∃ n, 1 <= n ∧ (r@["evidence"])@["live_identity_count"] = VInt n
      ∧ (r@["evidence"])@["local_identity_count"] = VInt (n + 1).
Proof.
  unfold external_start. intros H. do 2 (apply bind_Ok in H as (? & _ & H)).
  apply bind_Ok in H as (b & Hb & H). apply x_exact_Ok in Hb as [-> _].
  do 2 (apply bind_Ok in H as (? & _ & H)). apply bind_Ok in H as (u & Hc & H).
  apply Ok_inj in H as <-. unfold reject in Hc. apply fail_if_Ok in Hc.
  split; [done|]. split; [done|]. ok_inv.
  destruct ((r@["evidence"])@["live_identity_count"]) as [| |n| | | |]; try done.
  destruct ((r@["evidence"])@["local_identity_count"]) as [| |k| | | |]; try done.
  split; [by apply is_false_eq|]. exists n. cbn [int_value] in *.
  repeat match goal with H : _ ==? VInt _ = true |- _ => apply py_eq_ints in H as -> end.
  split_and!; [lia|done|done].
Qed.

(** the reconciliation of an external deletion follows its phase graph,
    never claims to have touched the SEP in any record, and starts from an
    inventory with exactly one local identity too many. *)
Theorem external_delete_never_mutates first rest h :
  validate_history (first :: rest) = Ok h →
  path external_edge X_BASELINE (map milestone_of rest) (xh_phase h)
  ∧ (∀ r, r ∈ first :: rest → (r@["evidence"])@["sep_mutation_performed"] = VBool false)
  ∧ ∃ n, 1 <= n ∧ (xh_baseline h)@["live_identity_count"] = VInt n
      ∧ (xh_baseline h)@["local_identity_count"] = VInt (n + 1).
Proof.
  intros Hh. split.
  { revert Hh. apply (history_path (J := external_journal) (λ l, x_phase (xl_state l)) external_edge
      external_step_edge X_BASELINE xh_phase); [|done]. by intros ? ? [? _]%external_start_facts. }
  apply validate_history_Ok in Hh as (f & rs & s0 & s & [= <- <-] & H0 & Hs & _ & ->).
  cbn [tj_start tj_step tj_history external_journal external_history xh_baseline] in *.
  apply external_start_facts in H0 as (_ & Hb & Hf & Hn). rewrite <-Hb in Hn. clear Hb.
  revert s0 Hn Hs. induction rest as [|r rest IH]; intros s0 Hn Hs; cbn [fold_result] in Hs.
  - injection Hs as ->. split; [|done]. by intros r ->%list_elem_of_singleton.
  - apply bind_Ok in Hs as (s1 & H1 & Hs). apply external_step_inv in H1 as (Hb & k & h & _ & Hin & H1).
    rewrite <-Hb in Hn. destruct (IH s1 Hn Hs) as [Hall Hc]. split; [|done].
    intros x [->|[->|Hx]%elem_of_cons]%elem_of_cons; [done| |apply Hall; by right].
    by eapply external_handler_facts.
Qed.

(** a host commit and the final proof name the component that the intent
    announced, and the proof also reads back the expected number of identities
    with the stale one absent and the other components unchanged. *)
Theorem external_delete_proved first rest h :
  validate_history (first :: rest) = Ok h → xh_phase h = X_RECONCILED →
  ∃ rest' r, rest = rest' ++ [r] ∧ milestone_of r = "EXTERNAL_DELETE_RECONCILED" ∧ let ev := r@["evidence"] in
    ev@["staged_user_sha256"] ==? (xh_intent h)@["staged_user_sha256"] = true
    ∧ ev@["identity_count"] ==? (xh_baseline h)@["live_identity_count"] = true
    ∧ Forall (λ k, ev@[k] = VBool true) ["local_live_equal"; "target_absent"; "other_components_unchanged"].
Proof.
  intros Hh Hq.
  destruct (history_last (J := external_journal) (λ l, x_phase (xl_state l)) X_BASELINE xh_phase
    (λ r s H, proj1 (external_start_facts r s H)) (λ _ _ _, eq_refl) _ _ _ Hh)
    as [[_ Hb]|(rest' & r & l & l' & -> & Hs & Hp & ->)]; [congruence|].
  exists rest', r. split; [reflexivity|]. cbn [tj_step external_journal] in Hs.
  apply external_step_inv in Hs as (Hb & k & hd & Hm & Hin & H). unfold milestone_of. rewrite Hm.
  cbn [str_value tj_history external_journal external_history xh_baseline xh_intent xh_phase] in *. rewrite Hb in *.
  clear Hm Hh Hp. generalize dependent (xl_state l'). intros s1 Hq H. cbv zeta.
  external_handler Hin H; external_inv; cbn [x_phase set_field] in *; try discriminate Hq.
  split; [reflexivity|]. split; [assumption|]. split; [assumption|].
  repeat apply Forall_cons_2; try apply Forall_nil_2; by apply is_true_eq.
Qed.

(** what the journal does not exclude: after an ambiguous outcome it accepts
    an abort that declares a host commit impossible, whether or not a host
    commit was recorded before. *)
Theorem external_abort_always_accepted rs h r :
  validate_history rs = Ok h → xh_phase h = X_OUTCOME_UNKNOWN →
  same_entry r (dict [("operation_id", xh_operation_id h); ("milestone", VStr "EXTERNAL_DELETE_ABORTED");
    ("evidence", dict [("reason", VStr "prepare-discarded"); ("host_commit_possible", VBool false);
                       ("sep_mutation_performed", VBool false)])]) →
  r@["record_hash"] ≠ VNone →
  ∃ h', validate_history (rs ++ [r]) = Ok h' ∧ xh_phase h' = X_ABORTED.
Proof.
  intros (f & rest & s0 & s & -> & H0 & Hs & _ & ->)%validate_history_Ok Hq Hr Hh.
  cbn [tj_start tj_step tj_history external_journal external_history xh_operation_id xh_phase] in *.
  exists (external_history (XLoop (xl_operation_id s) (xl_baseline s) ((xl_state s) <| x_phase := X_ABORTED |>))
    (Z.of_nat (length ((f :: rest) ++ [r]))) (last_hash ((f :: rest) ++ [r]))). split; [|done].
  apply validate_history_Ok. exists f, (rest ++ [r]), s0. eexists. split_and!; [done|exact H0| | |reflexivity].
  - apply fold_result_snoc. exists s. split; [exact Hs|]. cbn [tj_step external_journal].
    destruct Hr as (Ho & Hm & He). unfold external_step. rewrite Ho, Hm, He.
    change (get (dict _) "operation_id") with (xl_operation_id s). rewrite py_eq_refl.
    unfold reject. cbn [negb fail_if mbind result_bind].
    change (external_dispatch (xl_baseline s) (xl_state s) _ _) with
      (on_external_aborted (xl_state s) (dict [("reason", VStr "prepare-discarded"); ("host_commit_possible", VBool false);
                       ("sep_mutation_performed", VBool false)])).
    unfold on_external_aborted, x_not_in. rewrite Hq. reflexivity.
  - rewrite last_hash_snoc. cbn [tj_check_head external_journal]. by destruct (r@["record_hash"]).
Qed.

(** the external-delete journal is written before it is validated: on a
    private, valid journal and with succeeding system calls, [append_checked]
    of a transition that validation rejects raises only after the record is
    durable, and no later reading of the journal succeeds. *)
Theorem external_append_writes_before_validating euid parent f op m ev rs h :
  read euid (Present f) = Ok rs → complete_lines (f_content f) = true →
  validate_history rs = Ok h → xh_operation_id h = VStr op →
  is_ok (validate_history (rs ++ [candidate op m ev])) = false →
  check_arguments op m ev (Some (Z.of_nat (length rs))) (Some (last_hash rs)) = Ok tt →
  check_parent euid (default (Directory true euid 448) parent) = Ok tt →
  let '(s', r) := external_append_checked euid io_ok (λ s, s) (λ s, s) (FS parent (Present f)) op m ev in
  is_ok r = false ∧ is_ok (external_read euid (fs_entry s')) = false
  ∧ ∃ record, validate_records (readlines (entry_content (fs_entry s'))) = Ok (rs ++ [record])
      ∧ same_entry record (candidate op m ev).
Proof.
  intros Hread Hc Hx Hop Hbad Hargs Hparent.
  destruct (unvalidated_append (J := external_journal) euid parent f op m ev rs h Hread Hc Hx Hop Hbad eq_refl Hargs Hparent)
    as (s' & record & Happ & Hnew & Hsame & _ & Hr).
  unfold external_append_checked. cbn [fs_entry].
  assert (external_read euid (Present f) = Ok h) as -> by (unfold external_read, read_history; rewrite Hread; exact Hx).
  cbn [mbind result_bind]. rewrite Hop, py_eq_refl. unfold reject. cbn [negb fail_if mbind result_bind].
  change (xh_record_count h) with (tj_record_count h). change (xh_head_hash h) with (tj_head_hash h).
  rewrite Happ. cbv zeta. split; [exact Hr|]. split; [exact Hr|]. by exists record.
Qed.
