(* ===== verification/UserMapping.v ===== *)
(** * User mappings ([src/src/t2_user_mapping.py])

    The protected document that binds Linux users to Apple users: parsing,
    resolution of a target, canonical serialisation, and the guarded reading of
    the file. *)
From S2P Require Import Prelude PyValue Sha256 Json JsonFacts.

#[local] Open Scope Z_scope.

Definition SCHEMA_VERSION : Z := 1.
Definition MAX_FILE_SIZE : Z := 1024 * 1024.
Definition MAX_MAPPINGS : Z := 64.
Definition UINT32_MAX : Z := 2 ^ 32 - 1.
Definition INT32_MAX : Z := 2 ^ 31 - 1.
Definition CAPABILITIES : list string := ["verify"; "enroll"; "identity-management"].
Definition UNLOCK_MODES : list string := ["password-on-demand"; "host-encrypted-credential"].

#[local] Abbreviation merr := UserMappingError.
#[local] Abbreviation refuse b msg := (fail_if b UserMappingError msg).

(** [_unsigned] *)
Definition m_unsigned (v : value) (label : string) (minimum : Z) : result Z :=
  _ ← refuse (negb (is_int v) || negb ((minimum <=? int_value v) && (int_value v <? UINT32_MAX)))
        (label +:+ " is outside the permitted numeric range");
  Ok (int_value v).

(** [_sha256] *)
Definition m_sha256 (v : value) (label : string) : result string :=
  _ ← refuse (negb (is_str v) || negb (Nat.eqb (String.length (str_value v)) 64)
              || negb (all_chars hex_lower_char (str_value v)))
        (label +:+ " is not a lowercase SHA-256 digest");
  Ok (str_value v).

(** [_canonical_uuid] *)
Definition canonical_uuid (v : value) (label : string) : result string :=
  match v with
  | VStr s =>
      match uuid_UUID s with
      | Some parsed =>
          _ ← refuse ((parsed =? 0) || negb (String.eqb (uuid_str parsed) s))
                (label +:+ " is not a canonical nonzero UUID");
          Ok s
      | None => raise merr (label +:+ " is not a canonical UUID")
      end
  | _ => raise merr (label +:+ " is not a canonical UUID")
  end.

(** [PurePosixPath(s)]: the root and the components other than [.]. *)
Fixpoint split_slash (s : string) : list string :=
  match s with
  | "" => [""]
  | String c s1 =>
      if Ascii.eqb c "/" then "" :: split_slash s1
      else match split_slash s1 with
           | p :: ps => String c p :: ps
           | [] => [String c ""]
           end
  end.
Definition posix_root (s : string) : string :=
  if negb (String.prefix "/" s) then ""
  else if String.prefix "//" s && negb (String.prefix "///" s) then "//" else "/".
Definition pure_posix_path (s : string) : string * list string :=
  (posix_root s, filter (λ p, p ≠ "" ∧ p ≠ ".") (split_slash s)).

Definition KEYBAG_ROOT : list string := ["var"; "lib"; "t2-touchid"; "users"].

(** [_keybag_path] *)
Definition keybag_path (v : value) (linux_uid : Z) : result string :=
  _ ← refuse (negb (is_str v)
              || negb (bool_decide (pure_posix_path (str_value v)
                                    = ("/", KEYBAG_ROOT ++ [dec linux_uid ""; "user.kb"]))))
        "keybag path must use the target UID's private canonical location";
  Ok (str_value v).

Record UserMapping := Mapping {
  um_linux_uid : Z;
  um_linux_account_generation : string;
  um_apple_uid : Z;
  um_account_uuid : string;
  um_bag_uuid : string;
  um_keybag_path : string;
  um_keybag_sha256 : string;
  um_unlock_mode : string;
  um_capabilities : gset string;
  um_enabled : bool;
}.

#[export] Instance UserMapping_eq_dec : EqDecision UserMapping.
Proof. solve_decision. Defined.

Definition special_bag_alias (m : UserMapping) : Z := - um_apple_uid m.

Definition permits (m : UserMapping) (capability : string) : result bool :=
  _ ← refuse (negb (bool_decide (capability ∈ CAPABILITIES))) "requested capability is unknown";
  Ok (um_enabled m && bool_decide (capability ∈ um_capabilities m)).

Record UserMappingSet := MappingSet {
  ums_generation : string;
  ums_mappings : list UserMapping;
}.

Definition resolve (s : UserMappingSet) (linux_uid : value) (capability : string) : result UserMapping :=
  uid ← m_unsigned linux_uid "target Linux UID" 1;
  _ ← refuse (negb (bool_decide (capability ∈ CAPABILITIES))) "requested capability is unknown";
  match filter (λ m, um_linux_uid m = uid) (ums_mappings s) with
  | [m] =>
      p ← permits m capability;
      _ ← refuse (negb p) "target mapping does not permit this capability";
      Ok m
  | _ => raise merr "target Linux UID has no unique protected mapping"
  end.

Definition count_mappings (p : UserMapping → bool) (s : UserMappingSet) : value :=
  VInt (Z.of_nat (length (filter (λ m, p m = true) (ums_mappings s)))).

Definition redacted_summary (s : UserMappingSet) : value :=
  dict [("schema_version", VInt SCHEMA_VERSION);
        ("mapping_count", VInt (Z.of_nat (length (ums_mappings s))));
        ("enabled_mapping_count", count_mappings um_enabled s);
        ("password_on_demand_count",
          count_mappings (λ m, String.eqb (um_unlock_mode m) "password-on-demand") s);
        ("host_encrypted_credential_count",
          count_mappings (λ m, String.eqb (um_unlock_mode m) "host-encrypted-credential") s);
        ("identifiers_redacted", VBool true)].

(** [sorted] on strings compares code points. *)
Definition sorted_strings (l : list string) : list string := merge_sort String.le l.

Definition MAPPING_FIELDS : list string :=
  ["linux_uid"; "linux_account_generation"; "apple_uid"; "account_uuid"; "bag_uuid"; "keybag_path";
   "keybag_sha256"; "unlock_mode"; "capabilities"; "enabled"].

(** [_parse_mapping] *)
Definition parse_mapping (v : value) : result UserMapping :=
  _ ← refuse (negb (has_keys v MAPPING_FIELDS)) "mapping entry fields are incomplete or unsupported";
  linux_uid ← m_unsigned (v@["linux_uid"]) "Linux UID" 1;
  apple_uid ← m_unsigned (v@["apple_uid"]) "Apple UID" 10;
  _ ← refuse (INT32_MAX <? apple_uid) "Apple UID cannot form a signed AKS alias";
  let unlock_mode := v@["unlock_mode"] in
  _ ← refuse (negb (is_str unlock_mode) || negb (bool_decide (str_value unlock_mode ∈ UNLOCK_MODES)))
        "unlock mode is unsupported";
  let capabilities := map str_value (list_value (v@["capabilities"])) in
  _ ← refuse (negb (is_list (v@["capabilities"])) || negb (forallb is_str (list_value (v@["capabilities"])))
              || negb (bool_decide (NoDup capabilities))
              || negb (bool_decide (capabilities = sorted_strings capabilities))
              || negb (bool_decide (Forall (λ c, c ∈ CAPABILITIES) capabilities)))
        "capabilities must be a sorted unique supported list";
  _ ← refuse (negb (is_bool (v@["enabled"]))) "mapping enabled state must be Boolean";
  generation ← m_sha256 (v@["linux_account_generation"]) "Linux account generation";
  account_uuid ← canonical_uuid (v@["account_uuid"]) "Apple account UUID";
  bag_uuid ← canonical_uuid (v@["bag_uuid"]) "AKS bag UUID";
  path ← keybag_path (v@["keybag_path"]) linux_uid;
  keybag_sha256 ← m_sha256 (v@["keybag_sha256"]) "keybag digest";
  Ok (Mapping linux_uid generation apple_uid account_uuid bag_uuid path keybag_sha256
        (str_value unlock_mode) (list_to_set capabilities) (is_true (v@["enabled"]))).

(** [_object_without_duplicate_keys] *)
Definition object_without_duplicate_keys (pairs : list (string * value)) : option value :=
  if bool_decide (NoDup pairs.*1) then dict_hook pairs else None.

(** [tuple(_parse_mapping(item) for item in items)] *)
Fixpoint parse_mappings (items : list value) : result (list UserMapping) :=
  match items with
  | [] => Ok []
  | item :: items => m ← parse_mapping item; ms ← parse_mappings items; Ok (m :: ms)
  end.

Definition duplicate_message (label : string) : string := label +:+ " is mapped more than once".

(** [parse].  A byte above 127 that is valid UTF-8 can only occur in a string of
    the document; every string is a key, a digest, a UUID, a path or an
    enumerated word, so the document is refused with one message or another:
    the model refuses it when decoding. *)
Definition parse (data : string) : result UserMappingSet :=
  _ ← refuse (negb (0 <? Z.of_nat (String.length data))
              || negb (Z.of_nat (String.length data) <=? MAX_FILE_SIZE)) "mapping file size is invalid";
  match loads_with object_without_duplicate_keys data with
  | None => raise merr "mapping file is not strict UTF-8 JSON"
  | Some document =>
      _ ← refuse (negb (has_keys document ["schema_version"; "mappings"])
                  || (document@["schema_version"] !=? VInt SCHEMA_VERSION)
                  || negb (is_int (document@["schema_version"]))
                  || negb (is_list (document@["mappings"]))
                  || (MAX_MAPPINGS <? Z.of_nat (length (list_value (document@["mappings"])))))
            "mapping document schema is unsupported";
      mappings ← parse_mappings (list_value (document@["mappings"]));
      _ ← refuse (negb (bool_decide (NoDup (map um_linux_uid mappings)))) (duplicate_message "Linux UID");
      _ ← refuse (negb (bool_decide (NoDup (map um_apple_uid mappings)))) (duplicate_message "Apple UID");
      _ ← refuse (negb (bool_decide (NoDup (map um_account_uuid mappings)))) (duplicate_message "Apple account UUID");
      _ ← refuse (negb (bool_decide (NoDup (map um_bag_uuid mappings)))) (duplicate_message "AKS bag UUID");
      _ ← refuse (negb (bool_decide (NoDup (map um_keybag_path mappings)))) (duplicate_message "keybag path");
      Ok (MappingSet (sha256_hex data) mappings)
  end.

Definition uid_le (a b : UserMapping) : Prop := um_linux_uid a <= um_linux_uid b.
#[export] Instance uid_le_dec a b : Decision (uid_le a b).
Proof. unfold uid_le. apply _. Defined.
Definition ordered (mappings : list UserMapping) : list UserMapping := merge_sort uid_le mappings.

(** One entry of the document that [serialize] writes. *)
Definition entry_of (m : UserMapping) : value :=
  dict [("linux_uid", VInt (um_linux_uid m));
        ("linux_account_generation", VStr (um_linux_account_generation m));
        ("apple_uid", VInt (um_apple_uid m));
        ("account_uuid", VStr (um_account_uuid m));
        ("bag_uuid", VStr (um_bag_uuid m));
        ("keybag_path", VStr (um_keybag_path m));
        ("keybag_sha256", VStr (um_keybag_sha256 m));
        ("unlock_mode", VStr (um_unlock_mode m));
        ("capabilities", VList (map VStr (sorted_strings (elements (um_capabilities m)))));
        ("enabled", VBool (um_enabled m))].
Definition document_of (ms : list UserMapping) : value :=
  dict [("schema_version", VInt SCHEMA_VERSION); ("mappings", VList (map entry_of ms))].

Definition serialize (mappings : list UserMapping) : result string :=
  match dumps (document_of (ordered mappings)) with
  | None => raise merr "mapping serialization failed"
  | Some text =>
      let encoded := text +:+ String (chr 10) "" in
      parsed ← parse encoded;
      _ ← refuse (negb (bool_decide (ums_mappings parsed = ordered mappings)))
            "mapping serialization did not round trip";
      Ok encoded
  end.

(** ** Reading the protected file *)

(** [os.stat_result] *)
Record stat_result := Stat {
  st_dev : Z; st_ino : Z; st_mode : Z; st_uid : Z; st_gid : Z; st_nlink : Z; st_size : Z;
  st_mtime_ns : Z; st_ctime_ns : Z;
}.

Definition S_ISREG (mode : Z) : bool := Z.land mode 61440 =? 32768.

(** [_secure_file] *)
Definition secure_file (info : stat_result) : bool :=
  S_ISREG (st_mode info) && (st_uid info =? 0) && (st_nlink info =? 1)
  && (Z.land (st_mode info) 63 =? 0) && (0 <? st_size info) && (st_size info <=? MAX_FILE_SIZE).

(** [_same_file] *)
Definition same_file (before after : stat_result) : bool :=
  (st_dev before =? st_dev after) && (st_ino before =? st_ino after) && (st_mode before =? st_mode after)
  && (st_uid before =? st_uid after) && (st_gid before =? st_gid after) && (st_nlink before =? st_nlink after)
  && (st_size before =? st_size after) && (st_mtime_ns before =? st_mtime_ns after)
  && (st_ctime_ns before =? st_ctime_ns after).

(** What the system calls of one load return: [None] is an [OSError], and the
    reads past the end of the list return no more bytes. *)
Record descriptor_calls := Descriptor {
  dc_before : option stat_result;
  dc_seek : bool;
  dc_reads : list (option string);
  dc_after : option stat_result;
}.

Definition os_error {A} (o : option A) : result A :=
  match o with Some a => Ok a | None => raise OSError "" end.

(** The read loop. *)
Fixpoint read_blocks (reads : list (option string)) (data : string) : result string :=
  if MAX_FILE_SIZE <? Z.of_nat (String.length data) then Ok data
  else match reads with
       | [] => Ok data
       | None :: _ => raise OSError ""
       | Some "" :: _ => Ok data
       | Some block :: reads => read_blocks reads (data +:+ block)
       end.

Definition from_os_error (m : result UserMappingSet) : result UserMappingSet :=
  except (λ c, bool_decide (c = OSError)) (λ _, Exn merr "mapping file cannot be read safely") m.

(** [_load_descriptor] for an open descriptor. *)
Definition load_descriptor (calls : descriptor_calls) : result UserMappingSet :=
  from_os_error (
    before ← os_error (dc_before calls);
    _ ← refuse (negb (secure_file before)) "mapping file is not private and root-owned";
    _ ← os_error (if dc_seek calls then Some tt else None);
    data ← read_blocks (dc_reads calls) "";
    after ← os_error (dc_after calls);
    _ ← refuse (negb (Z.of_nat (String.length data) =? st_size before) || negb (same_file before after))
          "mapping file changed while it was being read";
    parse data).

(** [SAFE_BASENAME.fullmatch] *)
Definition basename_char (c : ascii) : bool :=
  let z := code c in
  (65 <=? z) && (z <=? 90) || (97 <=? z) && (z <=? 122) || (48 <=? z) && (z <=? 57)
  || (z =? 95) || (z =? 46) || (z =? 45).
Definition safe_basename (name : string) : bool :=
  (1 <=? String.length name)%nat && (String.length name <=? 128)%nat && all_chars basename_char name.

(** [load] of a path, whose [open] may fail. *)
Definition load (opened : option descriptor_calls) : result UserMappingSet :=
  from_os_error (calls ← os_error opened; load_descriptor calls).

(** [load_at] *)
Definition load_at (directory_descriptor : Z) (name : string) (opened : option descriptor_calls)
    : result UserMappingSet :=
  _ ← refuse ((directory_descriptor <? 0) || negb (safe_basename name)
              || String.eqb name "." || String.eqb name "..") "mapping location is invalid";
  load opened.

(** ** Facts about parsing *)

Lemma m_unsigned_Ok v l m z : m_unsigned v l m = Ok z ↔ v = VInt z ∧ m <= z < UINT32_MAX.
Proof.
  unfold m_unsigned. split.
  - intros H. ok_inv. destruct v as [| |z'| | | |]; try done. cbn [int_value] in *. split; [done|lia].
  - intros [-> Hz]. cbn [is_int int_value negb orb].
    replace ((m <=? z) && (z <? UINT32_MAX)) with true by lia. done.
Qed.

Definition sha256_text (s : string) : Prop :=
  String.length s = 64%nat ∧ all_chars hex_lower_char s = true.
Definition uuid_text (s : string) : Prop :=
  ∃ z, uuid_UUID s = Some z ∧ z ≠ 0 ∧ uuid_str z = s.
Definition keybag_of (uid : Z) (s : string) : Prop :=
  pure_posix_path s = ("/", KEYBAG_ROOT ++ [dec uid ""; "user.kb"]).

Lemma m_sha256_Ok v l s : m_sha256 v l = Ok s ↔ v = VStr s ∧ sha256_text s.
Proof.
  unfold m_sha256, sha256_text. split.
  - intros H. ok_inv. destruct v as [| | |s'| | |]; try done. cbn [str_value] in *.
    by rewrite <-Nat.eqb_eq.
  - intros (-> & Hl & Hc). cbn [is_str str_value]. by rewrite Hl, Hc.
Qed.

Lemma canonical_uuid_Ok v l s : canonical_uuid v l = Ok s ↔ v = VStr s ∧ uuid_text s.
Proof.
  unfold canonical_uuid, uuid_text. split.
  - destruct v as [| | |s'| | |]; try done. destruct (uuid_UUID s') as [p|] eqn:Hp; [|done].
    intros H. ok_inv. split; [done|]. exists p. split; [done|].
    by rewrite <-Z.eqb_neq, <-String.eqb_eq.
  - intros (-> & z & -> & Hz & ->). rewrite String.eqb_refl. apply Z.eqb_neq in Hz. by rewrite Hz.
Qed.

Lemma keybag_path_Ok v u s : keybag_path v u = Ok s ↔ v = VStr s ∧ keybag_of u s.
Proof.
  unfold keybag_path, keybag_of. split.
  - intros H. ok_inv. destruct v as [| | |s'| | |]; try done. cbn [str_value] in *.
    split; [done|]. by eapply bool_decide_eq_true_1.
  - intros [-> Hp]. cbn [is_str str_value]. by rewrite (bool_decide_eq_true_2 _ Hp).
Qed.

Lemma sorted_strings_unique l (s : gset string) :
  NoDup l → l = sorted_strings l → list_to_set l = s → sorted_strings (elements s) = l.
Proof.
  intros Hnd Hl <-. transitivity (sorted_strings l); [|done]. unfold sorted_strings.
  apply (StronglySorted_unique String.le); [apply StronglySorted_merge_sort; apply _..|].
  rewrite !merge_sort_Permutation. by apply elements_list_to_set.
Qed.

Lemma list_map_str_value l : forallb is_str l = true → map VStr (map str_value l) = l.
Proof.
  induction l as [|v l IH]; [done|]. cbn. intros [Hv Hl]%andb_true_iff. rewrite IH by done.
  by destruct v.
Qed.

Lemma str_values_map l : map str_value (map VStr l) = l.
Proof. rewrite map_map. apply map_id. Qed.

Lemma forallb_str_map l : forallb is_str (map VStr l) = true.
Proof. by induction l. Qed.

(** What a mapping accepted by [parse_mapping] satisfies. *)
Record mapping_wf (m : UserMapping) : Prop := {
  mw_linux_uid : 1 <= um_linux_uid m < UINT32_MAX;
  mw_apple_uid : 10 <= um_apple_uid m <= INT32_MAX;
  mw_account_generation : sha256_text (um_linux_account_generation m);
  mw_account_uuid : uuid_text (um_account_uuid m);
  mw_bag_uuid : uuid_text (um_bag_uuid m);
  mw_keybag_path : keybag_of (um_linux_uid m) (um_keybag_path m);
  mw_keybag_sha256 : sha256_text (um_keybag_sha256 m);
  mw_unlock_mode : um_unlock_mode m ∈ UNLOCK_MODES;
  mw_capabilities : ∀ c, c ∈ um_capabilities m → c ∈ CAPABILITIES;
}.

Lemma parse_mapping_wf v m : parse_mapping v = Ok m → mapping_wf m.
Proof.
  unfold parse_mapping. intros H. ok_inv.
  repeat match goal with
  | H : m_unsigned _ _ _ = Ok _ |- _ => apply m_unsigned_Ok in H as [_ H]
  | H : m_sha256 _ _ = Ok _ |- _ => apply m_sha256_Ok in H as [_ H]
  | H : canonical_uuid _ _ = Ok _ |- _ => apply canonical_uuid_Ok in H as [_ H]
  | H : keybag_path _ _ = Ok _ |- _ => apply keybag_path_Ok in H as [_ H]
  | H : bool_decide _ = true |- _ => apply bool_decide_eq_true in H
  | H : (_ <? _) = false |- _ => apply Z.ltb_ge in H
  end.
  constructor; cbn; try done.
  - lia.
  - intros c Hc. apply elem_of_list_to_set in Hc. by eapply Forall_forall in Hc; [|eassumption].
Qed.

(** The fields of a canonical entry. *)
Lemma entry_fields m : let v := entry_of m in
  has_keys v MAPPING_FIELDS = true
  ∧ v@["linux_uid"] = VInt (um_linux_uid m) ∧ v@["apple_uid"] = VInt (um_apple_uid m)
  ∧ v@["linux_account_generation"] = VStr (um_linux_account_generation m)
  ∧ v@["account_uuid"] = VStr (um_account_uuid m) ∧ v@["bag_uuid"] = VStr (um_bag_uuid m)
  ∧ v@["keybag_path"] = VStr (um_keybag_path m) ∧ v@["keybag_sha256"] = VStr (um_keybag_sha256 m)
  ∧ v@["unlock_mode"] = VStr (um_unlock_mode m)
  ∧ v@["capabilities"] = VList (map VStr (sorted_strings (elements (um_capabilities m))))
  ∧ v@["enabled"] = VBool (um_enabled m).
Proof.
  by split_and!.
Qed.

(** A well-formed mapping is read back from its canonical entry. *)
Lemma parse_entry_of m : mapping_wf m → parse_mapping (entry_of m) = Ok m.
Proof.
  intros [Hu Ha Hg Hau Hb Hp Hk Hm Hc].
  destruct (entry_fields m) as (Ek & E1 & E2 & E3 & E4 & E5 & E6 & E7 & E8 & E9 & E10).
  set (caps := sorted_strings (elements (um_capabilities m))) in *.
  assert (caps ≡ₚ elements (um_capabilities m)) as Hperm by apply merge_sort_Permutation.
  assert (list_to_set caps = um_capabilities m) as Hset.
  { apply set_eq. intros c. by rewrite elem_of_list_to_set, Hperm, elem_of_elements. }
  assert (sorted_strings caps = caps) as Hsort.
  { unfold caps, sorted_strings. apply (StronglySorted_unique String.le);
      [apply StronglySorted_merge_sort; apply _..|]. apply merge_sort_Permutation. }
  unfold parse_mapping. rewrite Ek, E1, E2, E3, E4, E5, E6, E7, E8, E9, E10.
  rewrite (proj2 (m_unsigned_Ok _ _ _ _) (conj eq_refl Hu)).
  assert (10 <= um_apple_uid m < UINT32_MAX) as Ha' by (unfold UINT32_MAX, INT32_MAX in *; lia).
  rewrite (proj2 (m_unsigned_Ok _ _ _ _) (conj eq_refl Ha')).
  rewrite (proj2 (m_sha256_Ok _ _ _) (conj eq_refl Hg)), (proj2 (m_sha256_Ok _ _ _) (conj eq_refl Hk)).
  rewrite (proj2 (canonical_uuid_Ok _ _ _) (conj eq_refl Hau)), (proj2 (canonical_uuid_Ok _ _ _) (conj eq_refl Hb)).
  cbn [list_value str_value is_str is_list is_bool negb orb mbind result_bind fail_if].
  rewrite str_values_map, forallb_str_map, Hsort, Hset.
  rewrite (proj2 (Z.ltb_ge _ _) (proj2 Ha)), (bool_decide_eq_true_2 _ Hm).
  rewrite (bool_decide_eq_true_2 (NoDup caps)), (bool_decide_eq_true_2 (caps = caps)) by
    (try done; rewrite Hperm; apply NoDup_elements).
  rewrite (bool_decide_eq_true_2 (Forall _ _)) by
    (apply Forall_forall; intros c; rewrite Hperm, elem_of_elements; apply Hc).
  cbn [negb orb mbind result_bind fail_if].
  rewrite (proj2 (keybag_path_Ok _ _ _) (conj eq_refl Hp)). cbn [mbind result_bind].
  destruct m as [? ? ? ? ? ? ? ? ? []]; reflexivity.
Qed.

(** the mappings that [_parse_mapping] can return are exactly the
    well-formed ones. *)
Theorem parse_mapping_image m : (∃ v, parse_mapping v = Ok m) ↔ mapping_wf m.
Proof.
  split; [intros [v H]; by eapply parse_mapping_wf|].
  intros H. exists (entry_of m). by apply parse_entry_of.
Qed.

(** ** Documents *)

Lemma parse_mappings_Ok items ms : parse_mappings items = Ok ms → Forall mapping_wf ms ∧ length ms = length items.
Proof.
  revert ms. induction items as [|v items IH]; intros ms; cbn.
  - intros [= <-]. by split.
  - intros H. ok_inv. apply IH in H0 as [? Hl]. split; [constructor; [by eapply parse_mapping_wf|done]|].
    cbn. by rewrite Hl.
Qed.

Lemma parse_mappings_entries ms : Forall mapping_wf ms → parse_mappings (map entry_of ms) = Ok ms.
Proof.
  induction 1 as [|m ms Hm _ IH]; [done|]. cbn [map parse_mappings]. rewrite (parse_entry_of _ Hm).
  cbn [mbind result_bind]. by rewrite IH.
Qed.

(** What a parsed document guarantees about its mappings. *)
Record mappings_ok (ms : list UserMapping) : Prop := {
  mo_wf : Forall mapping_wf ms;
  mo_count : Z.of_nat (length ms) <= MAX_MAPPINGS;
  mo_linux_uid : NoDup (map um_linux_uid ms);
  mo_apple_uid : NoDup (map um_apple_uid ms);
  mo_account_uuid : NoDup (map um_account_uuid ms);
  mo_bag_uuid : NoDup (map um_bag_uuid ms);
  mo_keybag_path : NoDup (map um_keybag_path ms);
}.

#[export] Instance mappings_ok_perm : Proper ((≡ₚ) ==> iff) mappings_ok.
Proof.
  assert (∀ ms ms', ms ≡ₚ ms' → mappings_ok ms → mappings_ok ms') as Hp.
  { intros ms ms' E [H1 H2 H3 H4 H5 H6 H7]. constructor; try (by rewrite <-E). }  intros ms ms' E. split; [by apply Hp|by apply Hp, symmetry].
Qed.

#[local] Opaque sha256_hex dumps loads_with.

Lemma parse_Ok data s : parse data = Ok s →
  mappings_ok (ums_mappings s) ∧ ums_generation s = sha256_hex data
  ∧ 0 < Z.of_nat (String.length data) <= MAX_FILE_SIZE.
Proof.
  unfold parse. intros H. apply bind_Ok in H as (u & Hsize & H). apply fail_if_Ok in Hsize.
  destruct (loads_with _ _) as [document|]; [|done]. ok_inv.
  repeat match goal with
  | H : bool_decide _ = true |- _ => apply bool_decide_eq_true in H
  | H : parse_mappings _ = Ok _ |- _ => apply parse_mappings_Ok in H as [? ?]
  end. cbn [ums_mappings ums_generation]. split; [|split; [done|lia]].
  constructor; try done. lia.
Qed.

(** a target is resolved to the one mapping of its Linux user, exactly
    when that mapping is enabled and grants the requested capability; the
    capability itself must be a known one.  No document makes a user ambiguous. *)
Theorem resolve_exact data s uid capability m :
  parse data = Ok s →
  resolve s uid capability = Ok m ↔
    m ∈ ums_mappings s ∧ uid = VInt (um_linux_uid m) ∧ um_enabled m = true
    ∧ capability ∈ um_capabilities m.
Proof.
  intros [[Hwf _ Hnd _ _ _ _] _]%parse_Ok. unfold resolve. split.
  - intros H. apply bind_Ok in H as (z & Hz & H). apply m_unsigned_Ok in Hz as [-> Hz].
    apply bind_Ok in H as (u & Hcap & H).
    destruct (filter _ _) as [|m' [|? ?]] eqn:Hf; try done.
    assert (m' ∈ filter (λ m, um_linux_uid m = z) (ums_mappings s)) as [<- Hin]%list_elem_of_filter
      by (rewrite Hf; apply list_elem_of_here).
    unfold permits in H. ok_inv. split_and!; try done. by eapply bool_decide_eq_true_1.
  - intros (Hin & -> & He & Hc). pose proof (proj1 (Forall_forall _ _) Hwf _ Hin) as Hm.
    rewrite (proj2 (m_unsigned_Ok _ _ _ _) (conj eq_refl (mw_linux_uid _ Hm))). cbn [mbind result_bind].
    pose proof (mw_capabilities _ Hm _ Hc) as Hk. rewrite (bool_decide_eq_true_2 _ Hk).
    cbn [negb fail_if mbind result_bind].
    assert (filter (λ x, um_linux_uid x = um_linux_uid m) (ums_mappings s) = [m]) as ->.
    { clear Hwf. revert Hin Hnd. induction (ums_mappings s) as [|x ms IH]; [by intros ?%elem_of_nil|].
      cbn [map]. intros Hin [Hx Hnd]%NoDup_cons. rewrite filter_cons.
      apply elem_of_cons in Hin as [<-|Hin].
      - rewrite decide_True by done. f_equal. destruct (filter _ ms) as [|y l] eqn:E; [done|].
        assert (y ∈ filter (λ x, um_linux_uid x = um_linux_uid m) ms) as [Heq Hy]%list_elem_of_filter
          by (rewrite E; apply list_elem_of_here).
        exfalso. apply Hx. rewrite <-Heq. by apply list_elem_of_fmap_2.
      - rewrite decide_False; [by apply IH|]. intros Heq. apply Hx. rewrite Heq. by apply list_elem_of_fmap_2. }
    unfold permits. rewrite (bool_decide_eq_true_2 _ Hk), He, (bool_decide_eq_true_2 _ Hc). reflexivity.
Qed.

(** ** The canonical document *)

#[export] Instance uid_le_trans : Transitive uid_le.
Proof. intros x y z. unfold uid_le. lia. Qed.
#[export] Instance uid_le_total : Total uid_le.
Proof. intros x y. unfold uid_le. lia. Qed.

Lemma ordered_perm ms : ordered ms ≡ₚ ms.
Proof. apply merge_sort_Permutation. Qed.

(** With distinct Linux users the order is determined by the set. *)
Lemma ordered_unique ms ms' : NoDup (map um_linux_uid ms) → ms ≡ₚ ms' → ordered ms = ordered ms'.
Proof.
  intros Hnd E.
  assert (∀ l, Sorted.StronglySorted uid_le (ordered l)) as Hs.
  { intros l. apply (StronglySorted_merge_sort uid_le). }
  pose proof (Hs ms) as H1. pose proof (Hs ms') as H2.
  assert (ordered ms ≡ₚ ordered ms') as E' by by rewrite !ordered_perm.
  assert (NoDup (map um_linux_uid (ordered ms))) as Hnd' by by rewrite ordered_perm.
  clear Hs Hnd E. revert H1 H2 E' Hnd'. generalize (ordered ms), (ordered ms'). clear ms ms'.
  intros l. induction l as [|x l IH]; intros [|y l'] H1 H2 E Hnd; [done|..].
  { by apply Permutation_nil in E. } { by symmetry in E; apply Permutation_nil in E. }
  apply Sorted.StronglySorted_inv in H1 as [H1 Hx]. apply Sorted.StronglySorted_inv in H2 as [H2 Hy].
  assert (x = y) as <-.
  { assert (um_linux_uid x = um_linux_uid y) as Heq.
    { assert (x ∈ y :: l') as [->|Hxin]%elem_of_cons by (rewrite <-E; apply list_elem_of_here); [done|].
      assert (y ∈ x :: l) as [->|Hyin]%elem_of_cons by (rewrite E; apply list_elem_of_here); [done|].
      pose proof (proj1 (Forall_forall _ _) Hx _ Hyin). pose proof (proj1 (Forall_forall _ _) Hy _ Hxin).
      unfold uid_le in *. lia. }
    assert (y ∈ x :: l) as [->|Hyin]%elem_of_cons by (rewrite E; apply list_elem_of_here); [done|].
    cbn [map] in Hnd. apply NoDup_cons in Hnd as [Hn _]. exfalso. apply Hn. rewrite Heq. by apply list_elem_of_fmap_2. }
  f_equal. apply IH; [done|done|by eapply Permutation_cons_inv|]. cbn [map] in Hnd. by apply NoDup_cons in Hnd as [_ ?].
Qed.

Lemma object_without_duplicate_keys_dict kvs : NoDup kvs.*1 →
  object_without_duplicate_keys kvs = Some (VDict (dict_of_pairs kvs)).
Proof. intros H. unfold object_without_duplicate_keys. by rewrite bool_decide_eq_true_2. Qed.

Lemma dumps_entry m : is_Some (dumps (entry_of m)).
Proof.
  apply dumps_dict_list.
  repeat apply Forall_cons_2; cbn [snd]; try apply Forall_nil_2; try (cbn [dumps]; eexists; reflexivity).
  - apply dumps_list_some, Forall_forall. intros x (c & -> & _)%list_elem_of_fmap. cbn [dumps]. by eexists.
  - destruct (um_enabled m); cbn [dumps]; by eexists.
Qed.

Lemma dumps_document ms : is_Some (dumps (document_of ms)).
Proof.
  apply dumps_dict_list. repeat apply Forall_cons_2; cbn [snd]; [cbn [dumps]; by eexists| |apply Forall_nil_2].
  apply dumps_list_some, Forall_forall. intros x (m & -> & _)%list_elem_of_fmap. apply dumps_entry.
Qed.

(** The file that [serialize] writes for a list of mappings. *)
Definition mapping_file (ms : list UserMapping) : string :=
  default "" (dumps (document_of (ordered ms))) +:+ String (chr 10) "".

Lemma parse_mapping_file ms : mappings_ok ms → Z.of_nat (String.length (mapping_file ms)) <= MAX_FILE_SIZE →
  parse (mapping_file ms) = Ok (MappingSet (sha256_hex (mapping_file ms)) (ordered ms)).
Proof.
  intros Hok Hsize. assert (mappings_ok (ordered ms)) as [Hwf Hc N1 N2 N3 N4 N5] by by rewrite ordered_perm.
  unfold parse. destruct (dumps_document (ordered ms)) as [text Ht].
  assert (mapping_file ms = text +:+ String (chr 10) "") as Hf by (unfold mapping_file; by rewrite Ht).
  assert (0 < Z.of_nat (String.length (mapping_file ms))) as Hpos.
  { rewrite Hf, str_length_app. cbn. lia. }
  replace (0 <? _) with true by lia. replace (_ <=? MAX_FILE_SIZE) with true by lia. cbn [negb orb fail_if mbind result_bind].
  rewrite Hf at 1.
  rewrite (loads_with_dumps_line _ object_without_duplicate_keys_dict _ _ Ht).
  assert (has_keys (document_of (ordered ms)) ["schema_version"; "mappings"] = true
    ∧ (document_of (ordered ms))@["schema_version"] = VInt SCHEMA_VERSION
    ∧ (document_of (ordered ms))@["mappings"] = VList (map entry_of (ordered ms))) as (-> & -> & ->) by by split_and!.
  rewrite py_eq_refl. cbn [negb orb is_int is_list list_value]. rewrite length_map.
  replace (MAX_MAPPINGS <? _) with false by lia. cbn [fail_if mbind result_bind].
  rewrite (parse_mappings_entries _ Hwf). cbn [mbind result_bind].
  by rewrite !bool_decide_eq_true_2.
Qed.

(** administrator documents are canonical and lossless.  For the mappings
    of any accepted document, in any order, [serialize] succeeds whenever the
    result fits the size limit, its text depends on the set of mappings alone,
    and parsing it gives the same mappings in the order of their Linux users. *)
Theorem serialize_canonical data s ms :
  parse data = Ok s → ms ≡ₚ ums_mappings s →
  Z.of_nat (String.length (mapping_file (ums_mappings s))) <= MAX_FILE_SIZE →
  serialize ms = Ok (mapping_file (ums_mappings s))
  ∧ ∃ s', parse (mapping_file (ums_mappings s)) = Ok s' ∧ ums_mappings s' ≡ₚ ums_mappings s
      ∧ Sorted.StronglySorted uid_le (ums_mappings s').
Proof.
  intros (Hok & _ & _)%parse_Ok E Hsize.
  assert (ordered ms = ordered (ums_mappings s)) as Ho.
  { symmetry. apply ordered_unique; [by destruct Hok|by symmetry]. }
  pose proof (parse_mapping_file _ Hok Hsize) as Hp. split.
  - unfold serialize. rewrite Ho. destruct (dumps_document (ordered (ums_mappings s))) as [text Ht].
    rewrite Ht. cbv zeta.
    assert (text +:+ String (chr 10) "" = mapping_file (ums_mappings s)) as ->
      by (unfold mapping_file; by rewrite Ht).
    rewrite Hp. cbn [mbind result_bind ums_mappings]. by rewrite bool_decide_eq_true_2.
  - eexists. split; [exact Hp|]. cbn [ums_mappings]. split; [apply ordered_perm|].
    apply (StronglySorted_merge_sort uid_le).
Qed.

(** ** Loading *)

(** a mapping set is loaded only from a file that, before and after it was
    read, was one and the same private regular file of the superuser with one
    link, and only from exactly the bytes its size announces; every system
    error is reported as a mapping error. *)
Theorem load_descriptor_stable calls s :
  load_descriptor calls = Ok s →
  ∃ before data, dc_before calls = Some before ∧ dc_after calls = Some before
    ∧ secure_file before = true ∧ read_blocks (dc_reads calls) "" = Ok data
    ∧ Z.of_nat (String.length data) = st_size before ∧ parse data = Ok s.
Proof.
  unfold load_descriptor, from_os_error. intros H. apply except_Ok in H.
  apply bind_Ok in H as (before & Hb & H). apply bind_Ok in H as (u1 & Hs & H).
  apply fail_if_Ok, negb_false_iff in Hs.
  apply bind_Ok in H as (u2 & _ & H). apply bind_Ok in H as (data & Hd & H).
  apply bind_Ok in H as (after & Ha & H). apply bind_Ok in H as (u3 & Hc & H).
  apply fail_if_Ok, orb_false_iff in Hc as [Hl Hsame]. apply negb_false_iff in Hl, Hsame.
  assert (before = after) as <-.
  { destruct before, after. unfold same_file in Hsame. cbn in Hsame. f_equal; lia. }
  assert (∀ A (o : option A) a, os_error o = Ok a → o = Some a) as Hos by (intros A [x|] y; [by intros [= ->]|done]).
  exists before, data. split_and!; auto. lia.
Qed.
