(* ===== verification/UserReadiness.v ===== *)
(** * User readiness ([src/src/t2_user_readiness.py])

    The classifier that decides, from evidence about the keybag, the Catacomb
    and the live alias of an Apple user, whether biometric work may start. *)
From S2P Require Import Prelude PyValue Sha256 UserMapping.

#[local] Open Scope Z_scope.

Definition DEVICE_LOCKED : Z := Z.shiftl 1 0.
Definition PASSCODE_LOCKOUT : Z := Z.shiftl 1 1.
Definition BIO_LOCKOUT : Z := Z.shiftl 1 2.
Definition UNLOCK_TOKEN_PRESENT : Z := Z.shiftl 1 3.
Definition BEFORE_FIRST_UNLOCK : Z := Z.shiftl 1 4.
Definition PASSCODE_VALIDATED : Z := Z.shiftl 1 5.
Definition IDENTIFICATION_LOCKOUT : Z := Z.shiftl 1 6.
Definition CATACOMB_CORRUPTED : Z := Z.shiftl 1 7.
Definition APPLE_PAY_TOKEN_PRESENT : Z := Z.shiftl 1 9.
Definition REMOTE_UNLOCKED : Z := Z.shiftl 1 10.
Definition KNOWN_LOCK_STATE_BITS : Z :=
  Z.lor DEVICE_LOCKED (Z.lor PASSCODE_LOCKOUT (Z.lor BIO_LOCKOUT (Z.lor UNLOCK_TOKEN_PRESENT
    (Z.lor BEFORE_FIRST_UNLOCK (Z.lor PASSCODE_VALIDATED (Z.lor IDENTIFICATION_LOCKOUT
    (Z.lor CATACOMB_CORRUPTED (Z.lor APPLE_PAY_TOKEN_PRESENT REMOTE_UNLOCKED)))))))).

(** The fields hold whatever the caller collected; [validate_evidence] checks
    their types. *)
Record PersistentEvidence := Persistent {
  pe_linux_account_generation : value;
  pe_keybag_sha256 : value;
  pe_catacomb_user_id : value;
  pe_account_uuid : value;
  pe_bag_uuid : value;
  pe_catacomb_reconciled : value;
}.

Record AliasEvidence := Alias {
  ae_present : value;
  ae_special_alias : value;
  ae_bag_uuid : value;
  ae_lock_state : value;
  ae_account_uuid : value;
}.

Record ReadinessDecision := Decide {
  rd_state : string;
  rd_next_step : string;
  rd_operation_permitted : bool;
  rd_match_ready : bool;
  rd_quarantine : bool;
}.

(** [ReadinessDecision.redacted] *)
Definition redacted (d : ReadinessDecision) : value :=
  dict [("schema_version", VInt 1); ("state", VStr (rd_state d)); ("next_step", VStr (rd_next_step d));
        ("operation_permitted", VBool (rd_operation_permitted d)); ("match_ready", VBool (rd_match_ready d));
        ("quarantine", VBool (rd_quarantine d)); ("identifiers_redacted", VBool true)].

(** [_decision]: an unready state, optionally in quarantine. *)
Definition unready (state next_step : string) (quarantine : bool) : ReadinessDecision :=
  Decide state next_step false false quarantine.

#[local] Abbreviation rderr := UserReadinessError.
#[local] Abbreviation refuse b msg := (fail_if b UserReadinessError msg).

(** [except t2_user_mapping.UserMappingError as error: raise
    UserReadinessError(str(error))] *)
Definition as_readiness {A} (m : result A) : result A :=
  except (λ c, bool_decide (c = UserMappingError)) (λ e, Exn rderr (exn_msg e)) m.

(** [_validate_evidence] *)
Definition validate_evidence (persistent : PersistentEvidence) (alias : AliasEvidence) : result unit :=
  _ ← as_readiness (m_sha256 (pe_linux_account_generation persistent) "Linux account generation");
  _ ← as_readiness (m_sha256 (pe_keybag_sha256 persistent) "keybag digest");
  _ ← as_readiness (m_unsigned (pe_catacomb_user_id persistent) "Catacomb Apple UID" 10);
  _ ← as_readiness (canonical_uuid (pe_account_uuid persistent) "Catacomb account UUID");
  _ ← as_readiness (canonical_uuid (pe_bag_uuid persistent) "Catacomb bag UUID");
  _ ← refuse (negb (is_bool (pe_catacomb_reconciled persistent))) "Catacomb reconciliation state must be Boolean";
  _ ← refuse (negb (is_bool (ae_present alias))) "alias presence state must be Boolean";
  if negb (is_true (ae_present alias)) then
    refuse (existsb (λ v, negb (is_none v))
              [ae_special_alias alias; ae_bag_uuid alias; ae_lock_state alias; ae_account_uuid alias])
      "absent alias contains contradictory evidence"
  else
    _ ← refuse (negb (is_int (ae_special_alias alias)) || (0 <=? int_value (ae_special_alias alias))
                || negb (is_str (ae_bag_uuid alias)) || negb (is_str (ae_account_uuid alias))
                || negb (is_int (ae_lock_state alias))
                || negb ((0 <=? int_value (ae_lock_state alias)) && (int_value (ae_lock_state alias) <=? 65535)))
          "present alias evidence is incomplete or invalid";
    _ ← as_readiness (canonical_uuid (ae_bag_uuid alias) "live bag UUID");
    _ ← as_readiness (canonical_uuid (ae_account_uuid alias) "live Apple account UUID");
    Ok tt.

(** [lock_state & bits] as a condition. *)
Definition has_bits (lock_state bits : Z) : bool := negb (Z.land lock_state bits =? 0).

(** The tail of [assess] for a present and bound alias. *)
Definition assess_lock_state (lock_state : Z) : ReadinessDecision :=
  if has_bits lock_state (Z.lnot KNOWN_LOCK_STATE_BITS) then unready "unknown-lock-state" "quarantine" true
  else if has_bits lock_state CATACOMB_CORRUPTED then unready "catacomb-corrupted" "quarantine" true
  else if has_bits lock_state (Z.lor PASSCODE_LOCKOUT (Z.lor BIO_LOCKOUT IDENTIFICATION_LOCKOUT))
    then unready "keybag-lockout" "password-recovery-required" false
  else if has_bits lock_state BEFORE_FIRST_UNLOCK then unready "before-first-unlock" "password-unlock-required" false
  else if has_bits lock_state DEVICE_LOCKED then unready "device-locked" "password-unlock-required" false
  else Decide "ready" "none" true true false.

Definition assess (selected : UserMapping) (capability : string) (persistent : PersistentEvidence)
    (alias : AliasEvidence) : result ReadinessDecision :=
  _ ← validate_evidence persistent alias;
  permitted ← as_readiness (permits selected capability);
  if negb permitted then Ok (unready "capability-denied" "request-authorized-policy-change" false)
  else if (pe_linux_account_generation persistent !=? VStr (um_linux_account_generation selected))
          || (pe_keybag_sha256 persistent !=? VStr (um_keybag_sha256 selected))
          || (pe_catacomb_user_id persistent !=? VInt (um_apple_uid selected))
          || (pe_account_uuid persistent !=? VStr (um_account_uuid selected))
          || (pe_bag_uuid persistent !=? VStr (um_bag_uuid selected))
          || negb (truthy (pe_catacomb_reconciled persistent))
       then Ok (unready "persistent-binding-mismatch" "quarantine" true)
  else if negb (truthy (ae_present alias)) then Ok (unready "alias-absent" "activate-and-reconcile-alias" false)
  else if (ae_special_alias alias !=? VInt (special_bag_alias selected))
          || (ae_bag_uuid alias !=? VStr (um_bag_uuid selected))
          || (ae_account_uuid alias !=? VStr (um_account_uuid selected))
       then Ok (unready "alias-binding-mismatch" "quarantine" true)
  else Ok (assess_lock_state (int_value (ae_lock_state alias))).

(** ** The decision *)

(** The evidence on file is that of the mapping. *)
Definition persistent_bound (m : UserMapping) (p : PersistentEvidence) : Prop :=
  pe_linux_account_generation p = VStr (um_linux_account_generation m)
  ∧ pe_keybag_sha256 p = VStr (um_keybag_sha256 m) ∧ pe_catacomb_user_id p = VInt (um_apple_uid m)
  ∧ pe_account_uuid p = VStr (um_account_uuid m) ∧ pe_bag_uuid p = VStr (um_bag_uuid m)
  ∧ pe_catacomb_reconciled p = VBool true.

(** The live alias is that of the mapping, in lock state [z]. *)
Definition alias_bound (m : UserMapping) (a : AliasEvidence) (z : Z) : Prop :=
  ae_present a = VBool true ∧ ae_special_alias a = VInt (- um_apple_uid m)
  ∧ ae_bag_uuid a = VStr (um_bag_uuid m) ∧ ae_account_uuid a = VStr (um_account_uuid m)
  ∧ ae_lock_state a = VInt z.

(** The only bits of a lock state in which fingers may be matched: an unlock
    token, a validated passcode, an Apple Pay token and a remote unlock. *)
Definition benign_bits : Z :=
  Z.lor UNLOCK_TOKEN_PRESENT (Z.lor PASSCODE_VALIDATED (Z.lor APPLE_PAY_TOKEN_PRESENT REMOTE_UNLOCKED)).

Lemma has_bits_false z b : has_bits z b = false ↔ ∀ i, 0 <= i → Z.testbit z i && Z.testbit b i = false.
Proof.
  unfold has_bits. rewrite negb_false_iff, Z.eqb_eq. split.
  - intros H i Hi. by rewrite <-Z.land_spec, H, Z.bits_0.
  - intros H. apply Z.bits_inj'. intros i Hi. rewrite Z.land_spec, Z.bits_0. by apply H.
Qed.

Lemma has_bits_lor z a b : has_bits z (Z.lor a b) = has_bits z a || has_bits z b.
Proof.
  destruct (has_bits z a || has_bits z b) eqn:E.
  - apply not_false_is_true. intros H. rewrite has_bits_false in H.
    apply orb_true_iff in E as [E|E]; apply not_false_iff_true in E; apply E, has_bits_false; intros i Hi;
      specialize (H i Hi); rewrite Z.lor_spec in H;
      destruct (Z.testbit z i), (Z.testbit a i), (Z.testbit b i); done.
  - apply orb_false_iff in E as [Ea Eb]. rewrite has_bits_false in *. intros i Hi. rewrite Z.lor_spec.
    specialize (Ea i Hi). specialize (Eb i Hi).
    destruct (Z.testbit z i), (Z.testbit a i), (Z.testbit b i); done.
Qed.

Lemma benign_blocked : Z.lnot benign_bits =
  Z.lor (Z.lnot KNOWN_LOCK_STATE_BITS) (Z.lor CATACOMB_CORRUPTED
    (Z.lor (Z.lor PASSCODE_LOCKOUT (Z.lor BIO_LOCKOUT IDENTIFICATION_LOCKOUT))
      (Z.lor BEFORE_FIRST_UNLOCK DEVICE_LOCKED))).
Proof. reflexivity. Qed.

Lemma lock_state_ready z : rd_match_ready (assess_lock_state z) = true ↔ has_bits z (Z.lnot benign_bits) = false.
Proof.
  unfold assess_lock_state. rewrite benign_blocked.
  rewrite (has_bits_lor _ (Z.lnot _)).
  rewrite (has_bits_lor z CATACOMB_CORRUPTED), (has_bits_lor z (Z.lor PASSCODE_LOCKOUT _)),
    (has_bits_lor z BEFORE_FIRST_UNLOCK).
  repeat case_match; cbn; naive_solver.
Qed.

(** Every check of the classifier fails with its own class. *)
Definition readiness_errors {A} (m : result A) : Prop := ∀ e, m = Raise e → exn_cls e = rderr.

Lemma as_readiness_errors {A} (m : result A) :
  (∀ e, m = Raise e → exn_cls e = UserMappingError) → readiness_errors (as_readiness m).
Proof.
  intros Hm e. unfold as_readiness, except. destruct m as [|e']; [done|]. rewrite (Hm e' eq_refl).
  by intros [= <-].
Qed.

Lemma readiness_errors_bind {A B} (m : result A) (f : A → result B) :
  readiness_errors m → (∀ a, readiness_errors (f a)) → readiness_errors (m ≫= f).
Proof. intros Hm Hf e [H|(a & _ & H)]%bind_Raise; [by apply Hm|by eapply Hf]. Qed.

Lemma readiness_errors_refuse b msg : readiness_errors (fail_if b rderr msg).
Proof. by intros e [_ ->]%fail_if_Raise. Qed.

Lemma readiness_errors_sha256 v l : readiness_errors (as_readiness (m_sha256 v l)).
Proof. apply as_readiness_errors. intros e. unfold m_sha256. by intros [[_ ->]%fail_if_Raise|(? & _ & ?)]%bind_Raise. Qed.
Lemma readiness_errors_unsigned v l z : readiness_errors (as_readiness (m_unsigned v l z)).
Proof. apply as_readiness_errors. intros e. unfold m_unsigned. by intros [[_ ->]%fail_if_Raise|(? & _ & ?)]%bind_Raise. Qed.
Lemma readiness_errors_uuid v l : readiness_errors (as_readiness (canonical_uuid v l)).
Proof.
  apply as_readiness_errors. intros e. unfold canonical_uuid, raise.
  destruct v as [| | |s| | |]; [by intros [= <-]..| |by intros [= <-]|by intros [= <-]|by intros [= <-]].
  generalize (uuid_UUID s). intros [z|]; [|by intros [= <-]]. by intros [[_ ->]%fail_if_Raise|(? & _ & ?)]%bind_Raise.
Qed.
Lemma readiness_errors_permits m c : readiness_errors (as_readiness (permits m c)).
Proof. apply as_readiness_errors. intros e. unfold permits. by intros [[_ ->]%fail_if_Raise|(? & _ & ?)]%bind_Raise. Qed.

#[export] Hint Resolve readiness_errors_refuse readiness_errors_sha256 readiness_errors_unsigned
  readiness_errors_uuid readiness_errors_permits : py.

Lemma validate_evidence_errors p a : readiness_errors (validate_evidence p a).
Proof.
  unfold validate_evidence. repeat (apply readiness_errors_bind; [by auto with py|intros ?]).
  destruct (negb _); [by auto with py|]. repeat (apply readiness_errors_bind; [by auto with py|intros ?]). done.
Qed.

(** The cases of [assess], with what each decision rests on. *)
Inductive assessed (m : UserMapping) (capability : string) (p : PersistentEvidence) (a : AliasEvidence)
    : ReadinessDecision → Prop :=
  | assessed_denied : um_enabled m = false ∨ capability ∉ um_capabilities m →
      assessed m capability p a (unready "capability-denied" "request-authorized-policy-change" false)
  | assessed_persistent : um_enabled m = true → capability ∈ um_capabilities m → ¬ persistent_bound m p →
      assessed m capability p a (unready "persistent-binding-mismatch" "quarantine" true)
  | assessed_absent : um_enabled m = true → capability ∈ um_capabilities m → persistent_bound m p →
      ae_present a = VBool false →
      assessed m capability p a (unready "alias-absent" "activate-and-reconcile-alias" false)
  | assessed_alias : um_enabled m = true → capability ∈ um_capabilities m → persistent_bound m p →
      ae_present a = VBool true → (∀ z, ¬ alias_bound m a z) →
      assessed m capability p a (unready "alias-binding-mismatch" "quarantine" true)
  | assessed_locked z : um_enabled m = true → capability ∈ um_capabilities m → persistent_bound m p →
      alias_bound m a z → 0 <= z <= 65535 → assessed m capability p a (assess_lock_state z).

(** What the type checks of the evidence leave. *)
Record evidence_wf (p : PersistentEvidence) (a : AliasEvidence) : Prop := {
  ew_reconciled : ∃ b, pe_catacomb_reconciled p = VBool b;
  ew_user_id : ∃ z, pe_catacomb_user_id p = VInt z;
  ew_alias : ae_present a = VBool false
     ∨ ae_present a = VBool true ∧ (∃ z, ae_special_alias a = VInt z)
       ∧ ∃ z, ae_lock_state a = VInt z ∧ 0 <= z <= 65535;
}.

Lemma validate_evidence_wf p a u : validate_evidence p a = Ok u → evidence_wf p a.
Proof.
  unfold validate_evidence. intros H. do 2 (apply bind_Ok in H as (? & _ & H)).
  apply bind_Ok in H as (n & Hn & H). apply except_Ok, m_unsigned_Ok in Hn as [Hn _].
  do 2 (apply bind_Ok in H as (? & _ & H)).
  apply bind_Ok in H as (? & Hr & H). apply fail_if_Ok, negb_false_iff in Hr.
  apply bind_Ok in H as (? & Hp & H). apply fail_if_Ok, negb_false_iff in Hp.
  split; [by destruct (pe_catacomb_reconciled p) as [|b| | | | |]; [|exists b|..]|by exists n|].
  destruct (ae_present a) as [|[]| | | | |]; try done; [right|by left]. split; [done|].
  cbn [is_true negb] in H. apply bind_Ok in H as (? & Hz & _). apply fail_if_Ok in Hz. ok_inv.
  destruct (ae_special_alias a) as [| |y| | | |]; try done.
  destruct (ae_lock_state a) as [| |z| | | |]; try done. split; [by exists y|]. exists z. cbn in *. split; [done|lia].
Qed.

Lemma assess_cases m capability p a d : assess m capability p a = Ok d → assessed m capability p a d.
Proof.
  unfold assess. intros H. apply bind_Ok in H as (u & Hv & H). apply bind_Ok in H as (permitted & Hp & H).
  apply validate_evidence_wf in Hv as [[r Hr] [n Hn] Halias].
  apply except_Ok in Hp. unfold permits in Hp. apply bind_Ok in Hp as (? & _ & Hp).
  apply Ok_inj in Hp as <-.
  destruct (um_enabled m && bool_decide (capability ∈ um_capabilities m)) eqn:Hc; cbn [negb] in H.
  2: { apply Ok_inj in H as <-. apply assessed_denied. apply andb_false_iff in Hc as [?|?%bool_decide_eq_false]; auto. }
  apply andb_true_iff in Hc as [He Hc%bool_decide_eq_true].
  match type of H with (if ?b then _ else _) = _ => destruct b eqn:Hb end.
  { apply Ok_inj in H as <-. apply assessed_persistent; try done. intros (E1 & E2 & E3 & E4 & E5 & E6).
    by rewrite E1, E2, E3, E4, E5, E6, !py_eq_refl in Hb. }
  assert (persistent_bound m p) as Hbound.
  { unfold persistent_bound. rewrite Hn, Hr in *. destruct r; [|by rewrite orb_true_r in Hb].
    ok_inv. repeat match goal with
    | H : _ ==? VStr _ = true |- _ => apply py_eq_str_l in H
    | H : _ ==? VInt _ = true |- _ => apply py_eq_ints in H
    end. split_and!; congruence. }
  destruct Halias as [Ha|(Ha & [y Hy] & z & Hz & Hrange)]; rewrite Ha in H; cbn [truthy negb] in H.
  { apply Ok_inj in H as <-. by apply assessed_absent. }
  match type of H with (if ?b then _ else _) = _ => destruct b eqn:Hb2 end; apply Ok_inj in H as <-.
  - apply assessed_alias; try done. intros z' (_ & E1 & E2 & E3 & _).
    by rewrite E1, E2, E3, !py_eq_refl in Hb2.
  - rewrite Hz. cbn [int_value]. apply assessed_locked; try done. unfold alias_bound. rewrite Hy in *. clear Hb. ok_inv.
    repeat match goal with
    | H : _ ==? VStr _ = true |- _ => apply py_eq_str_l in H
    | H : _ ==? VInt _ = true |- _ => apply py_eq_ints in H
    end. unfold special_bag_alias in *. split_and!; congruence.
Qed.

(** C24: fingers may be matched exactly when the mapping is enabled and grants
    the capability, the evidence on file and the live alias are those of the
    mapping, and the lock state has no bit set other than those for an unlock
    token, a validated passcode, an Apple Pay token or a remote unlock.  The
    operation is permitted under the same condition, and never in quarantine. *)
Theorem match_ready_exact m capability p a d :
  assess m capability p a = Ok d →
  (rd_match_ready d = true ↔
     um_enabled m = true ∧ capability ∈ um_capabilities m ∧ persistent_bound m p
     ∧ ∃ z, alias_bound m a z ∧ has_bits z (Z.lnot benign_bits) = false)
  ∧ rd_operation_permitted d = rd_match_ready d
  ∧ (rd_quarantine d = true → rd_match_ready d = false).
Proof.
  intros H%assess_cases. destruct H as [Hd|He Hc Hn|He Hc Hb Ha|He Hc Hb Ha Hn|z He Hc Hb Ha Hz];
    cbn [unready rd_match_ready rd_operation_permitted rd_quarantine].
  - split; [|done]. split; [done|]. intros (He & Hc & _). destruct Hd as [Hd|Hd]; [congruence|done].
  - split; [|done]. split; [done|]. by intros (_ & _ & Hb & _).
  - split; [|done]. split; [done|]. intros (_ & _ & _ & z & (Hp & _) & _). congruence.
  - split; [|done]. split; [done|]. intros (_ & _ & _ & z & Hz & _). by destruct (Hn z).
  - split; [|by unfold assess_lock_state; repeat case_match].
    rewrite lock_state_ready. split; [intros Hr; split_and!; try done; by exists z|].
    intros (_ & _ & _ & z' & (_ & _ & _ & _ & Hz') & Hbits). destruct Ha as (_ & _ & _ & _ & Hl). congruence.
Qed.

(** a user is quarantined exactly when a granted request meets evidence
    that contradicts the mapping - on file or in the live alias - or an unknown
    or corrupt lock state. *)
Theorem quarantine_exact m capability p a d :
  assess m capability p a = Ok d →
  (rd_quarantine d = true ↔
     um_enabled m = true ∧ capability ∈ um_capabilities m
     ∧ (¬ persistent_bound m p
        ∨ ae_present a = VBool true ∧ ∀ z, alias_bound m a z →
            has_bits z (Z.lnot KNOWN_LOCK_STATE_BITS) || has_bits z CATACOMB_CORRUPTED = true)).
Proof.
  intros H%assess_cases. destruct H as [Hd|He Hc Hn|He Hc Hb Ha|He Hc Hb Ha Hn|z He Hc Hb Ha Hz];
    cbn [unready rd_quarantine].
  - split; [done|]. intros (He & Hc & _). destruct Hd as [Hd|Hd]; [congruence|done].
  - split; [|done]. intros _. split_and!; auto.
  - split; [done|]. intros (_ & _ & [?|[? _]]); [done|congruence].
  - split; [|done]. intros _. split_and!; [done..|]. right. split; [done|]. intros z Hz. by destruct (Hn z).
  - transitivity (has_bits z (Z.lnot KNOWN_LOCK_STATE_BITS) || has_bits z CATACOMB_CORRUPTED = true).
    { unfold assess_lock_state. repeat case_match; done. }
    split.
    + intros Hq. split_and!; [done..|]. right. split; [by destruct Ha|].
      intros z' (_ & _ & _ & _ & Hz'). destruct Ha as (_ & _ & _ & _ & Hl).
      by replace z' with z by congruence.
    + intros (_ & _ & [?|[_ Hq]]); [done|]. by apply Hq.
Qed.

(** [assess] fails only with its own error class, and answers exactly when
    the evidence has the right types and the capability is a known one. *)
Theorem assess_errors m capability p a :
  readiness_errors (assess m capability p a)
  ∧ is_ok (assess m capability p a) = is_ok (validate_evidence p a) && bool_decide (capability ∈ CAPABILITIES).
Proof.
  split.
  - unfold assess. apply readiness_errors_bind; [apply validate_evidence_errors|intros ?].
    apply readiness_errors_bind; [by auto with py|intros ?]. intros e. by repeat case_match.
  - unfold assess. destruct (validate_evidence p a) as [u|e]; [|done]. cbn [mbind result_bind is_ok andb].
    unfold permits. destruct (bool_decide (capability ∈ CAPABILITIES)); [|done].
    cbn [negb fail_if mbind result_bind as_readiness except]. by repeat case_match.
Qed.

(** What an actionable state establishes, for the activation journal. *)
Lemma actionable_bound m capability p a d :
  assess m capability p a = Ok d → rd_state d ∈ ["alias-absent"; "device-locked"; "before-first-unlock"] →
  um_enabled m = true ∧ capability ∈ um_capabilities m ∧ persistent_bound m p
  ∧ (rd_state d = "alias-absent" ∧ ae_present a = VBool false
     ∨ rd_state d ≠ "alias-absent" ∧ ae_present a = VBool true ∧ ∃ z, alias_bound m a z).
Proof.
  intros H%assess_cases Hs. destruct H as [Hd|He Hc Hn|He Hc Hb Ha|He Hc Hb Ha Hn|z He Hc Hb Ha Hz];
    cbn [unready rd_state] in *; try (exfalso; revert Hs; apply (bool_decide_unpack _); exact I).
  - split_and!; auto.
  - split_and!; try done. right. split; [|split; [by destruct Ha|by exists z]].
    unfold assess_lock_state. repeat case_match; done.
Qed.
