(* ===== verification/ActivationJournal.v ===== *)
(** * User-activation journal ([src/src/t2_user_activation_journal.py])

    The transition rules of one runtime activation of an Apple-user alias: load
    the keybag, bind the alias, unlock it, with an outcome read back after each
    command; an ambiguous outcome is resolved by one observation in a later
    runtime generation, which performs no mutation. *)
From S2P Require Import Prelude PyValue Sha256 Json MutationJournal Evidence TypedJournal UserMapping UserReadiness.

#[local] Open Scope Z_scope.

Inductive UserActivationPhase :=
  | U_BASELINE | U_LOAD_INTENT | U_HANDLE_OBSERVED | U_BIND_INTENT | U_ALIAS_OBSERVED | U_UNLOCK_INTENT
  | U_READY | U_STOPPED | U_OUTCOME_UNKNOWN | U_RECOVERED_READY | U_RECOVERED_NOT_READY
  | U_RECOVERY_BLOCKED | U_QUARANTINED.

#[export] Instance UserActivationPhase_eq_dec : EqDecision UserActivationPhase.
Proof. solve_decision. Defined.

Record activation_state := AState {
  a_phase : UserActivationPhase;
  a_temporary_handle : option Z;
  a_terminal_stage : value;
  a_terminal_reason : value;
  a_terminal_from_phase : option UserActivationPhase;
}.
#[export] Instance activation_state_settable : Settable activation_state := λ s,
  AState (a_phase s) (a_temporary_handle s) (a_terminal_stage s) (a_terminal_reason s) (a_terminal_from_phase s).

Definition activation_start_state : activation_state := AState U_BASELINE None VNone VNone None.

Record UserActivationHistory := AHistory {
  ah_operation_id : value;
  ah_phase : UserActivationPhase;
  ah_baseline : value;
  ah_temporary_handle : option Z;
  ah_terminal_stage : value;
  ah_terminal_reason : value;
  ah_terminal_from_phase : option UserActivationPhase;
  ah_record_count : Z;
  ah_head_hash : value;
}.

#[local] Abbreviation aerr := UserActivationJournalError.
#[local] Abbreviation refuse := (reject UserActivationJournalError).

(** [_uint] and [_status] of this module. *)
Definition a_uint (v : value) (field : string) (minimum : Z) : result Z :=
  _ ← refuse (negb (is_int v) || negb ((minimum <=? int_value v) && (int_value v <=? UINT32)))
        (field +:+ " is not a bounded integer");
  Ok (int_value v).
Definition a_status (v : value) (field : string) : result unit :=
  if is_none v then Ok tt
  else refuse (negb (is_int v) || negb ((- 2 ^ 31 <=? int_value v) && (int_value v <? 2 ^ 32)))
         (field +:+ " is not a bounded status").

Definition actionable_states : list string := ["alias-absent"; "device-locked"; "before-first-unlock"].

(** [_validate_baseline] *)
Definition validate_activation_baseline (v : value) : result value :=
  baseline ← exact aerr v ["mapping_generation"; "linux_boot_uuid"; "runtime_generation"; "target_linux_uid";
    "apple_uid"; "account_uuid"; "bag_uuid"; "keybag_sha256"; "special_alias"; "capability"; "initial_state";
    "alias_preexisting"] "activation baseline";
  _ ← all_sha256 aerr baseline ["mapping_generation"; "keybag_sha256"];
  _ ← all_uuid aerr baseline ["linux_boot_uuid"; "runtime_generation"; "account_uuid"; "bag_uuid"];
  _ ← a_uint (baseline@["target_linux_uid"]) "target Linux UID" 1;
  apple_uid ← a_uint (baseline@["apple_uid"]) "Apple UID" 10;
  _ ← refuse (baseline@["special_alias"] !=? VInt (- apple_uid)) "special alias is not derived from Apple UID";
  unsupported ← not_in_names (baseline@["capability"]) CAPABILITIES;
  _ ← refuse unsupported "activation capability is unsupported";
  idle ← not_in_names (baseline@["initial_state"]) actionable_states;
  _ ← refuse idle "activation baseline is not actionable";
  _ ← refuse (negb (is_bool (baseline@["alias_preexisting"]))
              || (baseline@["alias_preexisting"] !=? VBool (negb (eq_str (baseline@["initial_state"]) "alias-absent"))))
        "activation alias provenance is inconsistent";
  Ok baseline.

Definition a_not_in (s : activation_state) (ps : list UserActivationPhase) : bool :=
  negb (bool_decide (a_phase s ∈ ps)).

(** [stages[phase]] *)
Definition stop_stages (p : UserActivationPhase) : list string :=
  match p with
  | U_LOAD_INTENT => ["load"; "handle"]
  | U_HANDLE_OBSERVED => ["handle"; "bind"]
  | U_BIND_INTENT => ["bind"; "readback"]
  | U_ALIAS_OBSERVED => ["bind"; "unlock"; "readback"]
  | U_UNLOCK_INTENT => ["unlock"; "readback"]
  | _ => []
  end.

Section handlers.
Variable baseline : value.

(** [evidence[field] != baseline[field]]. *)
Definition unbound (evidence : value) (field : string) : bool := evidence@[field] !=? baseline@[field].

Definition on_load_intent (s : activation_state) (v : value) (m : string) : result activation_state :=
  _ ← refuse (a_not_in s [U_BASELINE] || truthy (baseline@["alias_preexisting"])) "keybag load intent is out of order";
  evidence ← exact aerr v ["runtime_generation"; "keybag_sha256"; "mutation_possible"] m;
  _ ← refuse (unbound evidence "runtime_generation" || unbound evidence "keybag_sha256"
              || negb (is_true (evidence@["mutation_possible"]))) "keybag load intent is not bound";
  Ok (s <| a_phase := U_LOAD_INTENT |>).

Definition on_handle_observed (s : activation_state) (v : value) (m : string) : result activation_state :=
  _ ← refuse (a_not_in s [U_LOAD_INTENT]) "keybag handle observation is out of order";
  evidence ← exact aerr v ["runtime_generation"; "handle"; "bag_uuid_matches"] m;
  handle ← a_uint (evidence@["handle"]) "temporary handle" 1;
  _ ← refuse (unbound evidence "runtime_generation" || negb (is_true (evidence@["bag_uuid_matches"])))
        "loaded handle did not reconcile";
  Ok (s <| a_temporary_handle := Some handle |> <| a_phase := U_HANDLE_OBSERVED |>).

(** [evidence["handle"] != temporary_handle] *)
Definition handle_value (s : activation_state) : value :=
  match a_temporary_handle s with Some h => VInt h | None => VNone end.

Definition on_bind_intent (s : activation_state) (v : value) (m : string) : result activation_state :=
  _ ← refuse (a_not_in s [U_HANDLE_OBSERVED]) "alias bind intent is out of order";
  evidence ← exact aerr v ["runtime_generation"; "handle"; "special_alias"; "mutation_possible"] m;
  _ ← refuse (unbound evidence "runtime_generation" || (evidence@["handle"] !=? handle_value s)
              || unbound evidence "special_alias" || negb (is_true (evidence@["mutation_possible"])))
        "alias bind intent is not bound";
  Ok (s <| a_phase := U_BIND_INTENT |>).

(** The result of a command: not both raised and with a status. *)
Definition bad_command (evidence : value) : bool :=
  negb (is_bool (evidence@["command_raised"]))
  || (truthy (evidence@["command_raised"]) && negb (is_none (evidence@["command_status"]))).

Definition on_alias_observed (s : activation_state) (v : value) (m : string) : result activation_state :=
  _ ← refuse (a_not_in s [U_BIND_INTENT]) "alias observation is out of order";
  evidence ← exact aerr v ["runtime_generation"; "special_alias"; "bag_uuid_matches"; "account_uuid_matches";
    "command_status"; "command_raised"] m;
  _ ← a_status (evidence@["command_status"]) "alias command status";
  _ ← refuse (unbound evidence "runtime_generation" || unbound evidence "special_alias"
              || negb (is_true (evidence@["bag_uuid_matches"])) || negb (is_true (evidence@["account_uuid_matches"]))
              || bad_command evidence) "alias observation did not reconcile";
  Ok (s <| a_phase := U_ALIAS_OBSERVED |>).

Definition on_unlock_intent (s : activation_state) (v : value) (m : string) : result activation_state :=
  _ ← refuse (a_not_in s [U_BASELINE; U_ALIAS_OBSERVED]) "alias unlock intent is out of order";
  _ ← refuse (bool_decide (a_phase s = U_BASELINE) && negb (truthy (baseline@["alias_preexisting"])))
        "absent alias cannot be unlocked";
  evidence ← exact aerr v ["runtime_generation"; "special_alias"; "mutation_possible"] m;
  _ ← refuse (unbound evidence "runtime_generation" || unbound evidence "special_alias"
              || negb (is_true (evidence@["mutation_possible"]))) "alias unlock intent is not bound";
  Ok (s <| a_phase := U_UNLOCK_INTENT |>).

Definition on_ready (s : activation_state) (v : value) (m : string) : result activation_state :=
  _ ← refuse (a_not_in s [U_ALIAS_OBSERVED; U_UNLOCK_INTENT]) "ready observation is out of order";
  evidence ← exact aerr v ["runtime_generation"; "special_alias"; "bag_uuid_matches"; "account_uuid_matches";
    "readiness_state"; "source"; "command_status"; "command_raised"] m;
  _ ← a_status (evidence@["command_status"]) "unlock command status";
  let source := if bool_decide (a_phase s = U_ALIAS_OBSERVED) then "bind-readback" else "unlock-readback" in
  _ ← refuse (unbound evidence "runtime_generation" || unbound evidence "special_alias"
              || negb (is_true (evidence@["bag_uuid_matches"])) || negb (is_true (evidence@["account_uuid_matches"]))
              || (evidence@["readiness_state"] !=? VStr "ready") || (evidence@["source"] !=? VStr source)
              || bad_command evidence) "ready observation is invalid";
  Ok (s <| a_phase := U_READY |>).

Definition on_stopped (s : activation_state) (v : value) (m : string) : result activation_state :=
  _ ← refuse (a_not_in s [U_LOAD_INTENT; U_HANDLE_OBSERVED; U_BIND_INTENT; U_ALIAS_OBSERVED; U_UNLOCK_INTENT])
        "activation stop is out of order";
  evidence ← exact aerr v ["runtime_generation"; "stage"; "reason"; "mutation_possible"] m;
  invalid ← (Ok (unbound evidence "runtime_generation")
             ||! not_in_names (evidence@["stage"]) (stop_stages (a_phase s))
             ||! Ok (negb (is_str (evidence@["reason"])) || negb (truthy (evidence@["reason"]))
                     || negb (is_true (evidence@["mutation_possible"]))));
  _ ← refuse invalid "activation stop evidence is invalid";
  Ok (s <| a_terminal_stage := evidence@["stage"] |> <| a_terminal_reason := evidence@["reason"] |>
        <| a_terminal_from_phase := Some (a_phase s) |>
        <| a_phase := if String.eqb m "USER_ACTIVATION_STOPPED" then U_STOPPED else U_OUTCOME_UNKNOWN |>).

(** The four observations as they must be for a resolution. *)
Definition observed_all (evidence : value) (present bag account ready : bool) : bool :=
  let obs b := if b : bool then is_true else is_false in
  obs present (evidence@["alias_present"]) && obs bag (evidence@["bag_uuid_matches"])
  && obs account (evidence@["account_uuid_matches"]) && obs ready (evidence@["match_ready"]).

Definition recovery_phase (evidence : value) : result UserActivationPhase :=
  let resolution := evidence@["resolution"] in
  let state := evidence@["readiness_state"] in
  if eq_str resolution "ready" then
    _ ← refuse ((state !=? VStr "ready") || negb (observed_all evidence true true true true))
          "ready recovery is invalid";
    Ok U_RECOVERED_READY
  else if eq_str resolution "not-ready" then
    invalid ← (not_in_names state ["device-locked"; "before-first-unlock"; "keybag-lockout"]
               ||! Ok (negb (observed_all evidence true true true false)));
    _ ← refuse invalid "not-ready recovery is invalid";
    Ok U_RECOVERED_NOT_READY
  else if eq_str resolution "blocked" then
    _ ← refuse ((state !=? VStr "alias-absent") || negb (observed_all evidence false false false false))
          "blocked recovery is invalid";
    Ok U_RECOVERY_BLOCKED
  else if eq_str resolution "quarantine" then
    _ ← refuse (negb (is_str state) || negb (truthy state) || truthy (evidence@["match_ready"]))
          "quarantine recovery is invalid";
    Ok U_QUARANTINED
  else raise aerr "activation recovery resolution is unknown".

Definition on_activation_recovery (s : activation_state) (v : value) (m : string) : result activation_state :=
  _ ← refuse (a_not_in s [U_OUTCOME_UNKNOWN]) "activation recovery is out of order";
  evidence ← exact aerr v ["runtime_generation"; "resolution"; "readiness_state"; "alias_present";
    "bag_uuid_matches"; "account_uuid_matches"; "match_ready"; "mutation_performed"] m;
  _ ← checked_uuid aerr (evidence@["runtime_generation"]) "recovery runtime generation";
  _ ← refuse ((evidence@["runtime_generation"] ==? baseline@["runtime_generation"])
              || negb (is_bool (evidence@["alias_present"])) || negb (is_bool (evidence@["bag_uuid_matches"]))
              || negb (is_bool (evidence@["account_uuid_matches"])) || negb (is_bool (evidence@["match_ready"]))
              || negb (is_false (evidence@["mutation_performed"]))) "activation recovery evidence is invalid";
  phase ← recovery_phase evidence;
  Ok (s <| a_phase := phase |>).

Definition activation_dispatch (s : activation_state) (milestone v : value) : result activation_state :=
  let m := str_value milestone in
  if eq_str milestone "USER_KEYBAG_LOAD_INTENT" then on_load_intent s v m
  else if eq_str milestone "USER_KEYBAG_HANDLE_OBSERVED" then on_handle_observed s v m
  else if eq_str milestone "USER_ALIAS_BIND_INTENT" then on_bind_intent s v m
  else if eq_str milestone "USER_ALIAS_OBSERVED" then on_alias_observed s v m
  else if eq_str milestone "USER_ALIAS_UNLOCK_INTENT" then on_unlock_intent s v m
  else if eq_str milestone "USER_ACTIVATION_READY" then on_ready s v m
  else
    stop ← in_names milestone ["USER_ACTIVATION_STOPPED"; "USER_ACTIVATION_OUTCOME_UNKNOWN"];
    if stop : bool then on_stopped s v m
    else if eq_str milestone "USER_ACTIVATION_RECOVERY_OBSERVED" then on_activation_recovery s v m
    else raise aerr "unknown activation journal milestone".
End handlers.

Record activation_loop := ALoop { al_operation_id : value; al_baseline : value; al_state : activation_state }.

Definition activation_start (first : value) : result activation_loop :=
  _ ← refuse (first@["milestone"] !=? VStr "USER_ACTIVATION_BASELINE") "activation journal has no baseline";
  initial ← exact aerr (first@["evidence"]) ["operation_kind"; "baseline"] "baseline";
  _ ← refuse (initial@["operation_kind"] !=? VStr "user-activation") "journal is not a user activation";
  baseline ← validate_activation_baseline (initial@["baseline"]);
  _ ← checked_uuid aerr (first@["operation_id"]) "operation ID";
  Ok (ALoop (first@["operation_id"]) baseline activation_start_state).

Definition activation_step (l : activation_loop) (record : value) : result activation_loop :=
  _ ← refuse (record@["operation_id"] !=? al_operation_id l) "operation ID changed in activation journal";
  s ← activation_dispatch (al_baseline l) (al_state l) (record@["milestone"]) (record@["evidence"]);
  Ok (ALoop (al_operation_id l) (al_baseline l) s).

Definition activation_history (l : activation_loop) (count : Z) (head : value) : UserActivationHistory :=
  let s := al_state l in
  AHistory (al_operation_id l) (a_phase s) (al_baseline l) (a_temporary_handle s) (a_terminal_stage s)
    (a_terminal_reason s) (a_terminal_from_phase s) count head.

(** The last hash is reported unchecked. *)
#[export] Instance activation_journal : TypedJournal activation_loop UserActivationHistory := {
  tj_class := UserActivationJournalError;
  tj_label := "activation";
  tj_empty := "activation journal is empty";
  tj_start := activation_start;
  tj_step := activation_step;
  tj_check_head _ := Ok tt;
  tj_history := activation_history;
  tj_operation_id := ah_operation_id;
  tj_record_count := ah_record_count;
  tj_head_hash := ah_head_hash;
}.

#[export] Instance activation_laws : TypedJournalLaws activation_loop UserActivationHistory.
Proof.
  split.
  - intros r r' (Ho & Hm & He). unfold tj_start; cbn. unfold activation_start. by rewrite Ho, Hm, He.
  - intros s r r' (Ho & Hm & He). unfold tj_step; cbn. unfold activation_step. by rewrite Ho, Hm, He.
  - done.
  - done.
  - intros r s n h Hs. cbn in *. unfold activation_start in Hs. evidence_inv. done.
  - intros s r s' n h Hs. cbn in *. unfold activation_step in Hs. evidence_inv. done.
  - done.
Qed.

(** [read] and [append_checked] of this journal. *)
Definition activation_read (euid : Z) (e : entry) : result UserActivationHistory :=
  read_history (J := activation_journal) euid e.
Definition activation_append_checked (euid : Z) (calls : io) (others settle : fs → fs) (s : fs)
    (operation_id milestone : string) (evidence : value) : fs * result UserActivationHistory :=
  append_checked (J := activation_journal) euid calls others settle s operation_id milestone evidence.

(** The baseline that [create] journals. *)
Definition activation_baseline (mapping_set : UserMappingSet) (selected : UserMapping) (capability : string)
    (decision : ReadinessDecision) (alias : AliasEvidence) (linux_boot_uuid runtime_generation : string) : value :=
  dict [("mapping_generation", VStr (ums_generation mapping_set));
        ("linux_boot_uuid", VStr linux_boot_uuid);
        ("runtime_generation", VStr runtime_generation);
        ("target_linux_uid", VInt (um_linux_uid selected));
        ("apple_uid", VInt (um_apple_uid selected));
        ("account_uuid", VStr (um_account_uuid selected));
        ("bag_uuid", VStr (um_bag_uuid selected));
        ("keybag_sha256", VStr (um_keybag_sha256 selected));
        ("special_alias", VInt (special_bag_alias selected));
        ("capability", VStr capability);
        ("initial_state", VStr (rd_state decision));
        ("alias_preexisting", ae_present alias)].

(** The part of [create] before the journal is touched; [fresh] is the string
    of [uuid.uuid4()]. *)
Definition activation_plan (mapping_set : UserMappingSet) (selected : UserMapping) (capability : string)
    (persistent : PersistentEvidence) (alias : AliasEvidence) (linux_boot_uuid runtime_generation : string)
    (operation_id : option string) (fresh : string) : result (string * value) :=
  decision ← assess selected capability persistent alias;
  _ ← refuse (negb (bool_decide (rd_state decision ∈ actionable_states))) "mapping is not safely actionable";
  _ ← refuse (negb (bool_decide (selected ∈ ums_mappings mapping_set)) || String.eqb (ums_generation mapping_set) "")
        "selected mapping is not in the mapping set";
  let baseline := activation_baseline mapping_set selected capability decision alias linux_boot_uuid runtime_generation in
  _ ← validate_activation_baseline baseline;
  let operation_id := match operation_id with
                      | Some x => if String.eqb x "" then fresh else x | None => fresh end in
  _ ← checked_uuid aerr (VStr operation_id) "operation ID";
  Ok (operation_id, baseline).

(** [create] *)
Definition activation_create (euid : Z) (calls : io) (settle : fs → fs) (s : fs) (mapping_set : UserMappingSet)
    (selected : UserMapping) (capability : string) (persistent : PersistentEvidence) (alias : AliasEvidence)
    (linux_boot_uuid runtime_generation : string) (operation_id : option string) (fresh : string)
    : fs * result UserActivationHistory :=
  match activation_plan mapping_set selected capability persistent alias linux_boot_uuid runtime_generation
          operation_id fresh with
  | Raise e => (s, Raise e)
  | Ok (operation_id, baseline) =>
      let '(s, r) := append euid calls s operation_id "USER_ACTIVATION_BASELINE"
           (dict [("operation_kind", VStr "user-activation"); ("baseline", baseline)]) true None None in
      match r with
      | Raise e => (s, Raise e)
      | Ok _ => let s := settle s in (s, activation_read euid (fs_entry s))
      end
  end.

(** ** The phase graph *)

Definition activation_moves : list (UserActivationPhase * string * UserActivationPhase) :=
  [(U_BASELINE, "USER_KEYBAG_LOAD_INTENT", U_LOAD_INTENT);
   (U_LOAD_INTENT, "USER_KEYBAG_HANDLE_OBSERVED", U_HANDLE_OBSERVED);
   (U_HANDLE_OBSERVED, "USER_ALIAS_BIND_INTENT", U_BIND_INTENT);
   (U_BIND_INTENT, "USER_ALIAS_OBSERVED", U_ALIAS_OBSERVED);
   (U_BASELINE, "USER_ALIAS_UNLOCK_INTENT", U_UNLOCK_INTENT);
   (U_ALIAS_OBSERVED, "USER_ALIAS_UNLOCK_INTENT", U_UNLOCK_INTENT);
   (U_ALIAS_OBSERVED, "USER_ACTIVATION_READY", U_READY);
   (U_UNLOCK_INTENT, "USER_ACTIVATION_READY", U_READY)].

Inductive activation_edge : UserActivationPhase → string → UserActivationPhase → Prop :=
  | aedge_move p m q : (p, m, q) ∈ activation_moves → activation_edge p m q
  | aedge_stop p : p ∈ [U_LOAD_INTENT; U_HANDLE_OBSERVED; U_BIND_INTENT; U_ALIAS_OBSERVED; U_UNLOCK_INTENT] →
      activation_edge p "USER_ACTIVATION_STOPPED" U_STOPPED
  | aedge_unknown p : p ∈ [U_LOAD_INTENT; U_HANDLE_OBSERVED; U_BIND_INTENT; U_ALIAS_OBSERVED; U_UNLOCK_INTENT] →
      activation_edge p "USER_ACTIVATION_OUTCOME_UNKNOWN" U_OUTCOME_UNKNOWN
  | aedge_recovery q : q ∈ [U_RECOVERED_READY; U_RECOVERED_NOT_READY; U_RECOVERY_BLOCKED; U_QUARANTINED] →
      activation_edge U_OUTCOME_UNKNOWN "USER_ACTIVATION_RECOVERY_OBSERVED" q.

(** The handlers by milestone. *)
Definition activation_handlers (b : value)
    : list (string * (activation_state → value → string → result activation_state)) :=
  [("USER_KEYBAG_LOAD_INTENT", on_load_intent b);
   ("USER_KEYBAG_HANDLE_OBSERVED", on_handle_observed b);
   ("USER_ALIAS_BIND_INTENT", on_bind_intent b);
   ("USER_ALIAS_OBSERVED", on_alias_observed b);
   ("USER_ALIAS_UNLOCK_INTENT", on_unlock_intent b);
   ("USER_ACTIVATION_READY", on_ready b);
   ("USER_ACTIVATION_STOPPED", on_stopped b);
   ("USER_ACTIVATION_OUTCOME_UNKNOWN", on_stopped b);
   ("USER_ACTIVATION_RECOVERY_OBSERVED", on_activation_recovery b)].

Lemma activation_dispatch_handled b s m v s' : activation_dispatch b s m v = Ok s' →
  ∃ k h, m = VStr k ∧ (k, h) ∈ activation_handlers b ∧ h s v k = Ok s'.
Proof.
  unfold activation_dispatch. cbv zeta.
  milestone_cases ltac:(fun H => eexists _, _; split; [reflexivity|]; split; [|exact H]; unfold activation_handlers; in_table).
  intros (r & Hr & H)%bind_Ok. destruct r.
  { apply in_names_true in Hr as (x & -> & Hx). list_cases Hx; subst x;
      (eexists _, _; split; [reflexivity|]; split; [|exact H]); unfold activation_handlers; in_table. }
  revert H.
  milestone_cases ltac:(fun H => eexists _, _; split; [reflexivity|]; split; [|exact H]; unfold activation_handlers; in_table).
  discriminate.
Qed.

Lemma a_not_in_false s ps : a_not_in s ps = false → a_phase s ∈ ps.
Proof. unfold a_not_in. rewrite negb_false_iff. apply bool_decide_eq_true_1. Qed.

Ltac activation_inv := evidence_inv; repeat match goal with
  | H : a_not_in _ _ = false |- _ => apply a_not_in_false in H
  end.

Lemma recovery_phase_Ok ev p : recovery_phase ev = Ok p →
  p ∈ [U_RECOVERED_READY; U_RECOVERED_NOT_READY; U_RECOVERY_BLOCKED; U_QUARANTINED]
  ∧ (p = U_RECOVERED_READY → ev@["readiness_state"] = VStr "ready" ∧ observed_all ev true true true true = true).
Proof.
  unfold recovery_phase. cbv zeta. intros H.
  repeat (match type of H with (if ?b then _ else _) = _ => destruct b end); try discriminate H;
    evidence_inv; (split; [by apply (bool_decide_unpack _)|]); try discriminate.
  intros _. split; [by apply py_eq_str_l|done].
Qed.

Definition ARECOVERY : string := "USER_ACTIVATION_RECOVERY_OBSERVED".

(** Opens the handler selected by a member of the table. *)
Ltac activation_handler Hin H :=
  unfold activation_handlers in Hin; list_cases Hin; injection Hin as -> ->;
  match type of H with ?f _ _ _ _ = _ => unfold f in H end; cbv zeta in H.

Lemma activation_handler_edge b k h s v s' :
  (k, h) ∈ activation_handlers b → h s v k = Ok s' → activation_edge (a_phase s) k (a_phase s').
Proof.
  intros Hin H. activation_handler Hin H; activation_inv;
    try (match goal with H : recovery_phase _ = Ok _ |- _ => apply recovery_phase_Ok in H as [? _] end;
         match goal with H : a_phase _ ∈ [_] |- _ => list_cases H; rewrite H end; by apply aedge_recovery);
    cbn [a_phase set_field String.eqb];
    first [by apply aedge_stop|by apply aedge_unknown|apply aedge_move];
    match goal with H : a_phase _ ∈ _ |- _ => list_cases H; rewrite H end; by apply (bool_decide_unpack _).
Qed.

(** The runtime generation of each kind of record. *)
Lemma activation_handler_runtime b k h s v s' :
  (k, h) ∈ activation_handlers b → h s v k = Ok s' →
  v@["runtime_generation"] ==? b@["runtime_generation"] = negb (String.eqb k ARECOVERY).
Proof.
  intros Hin H. activation_handler Hin H; activation_inv; unfold unbound in *;
    repeat match goal with H : negb (_ ==? _) = false |- _ => apply negb_false_iff in H end; try assumption.
Qed.

Lemma activation_step_inv l r l' : activation_step l r = Ok l' →
  al_baseline l' = al_baseline l ∧ ∃ k h, r@["milestone"] = VStr k ∧ (k, h) ∈ activation_handlers (al_baseline l)
    ∧ h (al_state l) (r@["evidence"]) k = Ok (al_state l').
Proof.
  unfold activation_step. intros H. apply bind_Ok in H as (u & _ & H). apply bind_Ok in H as (s & Hd & H).
  apply Ok_inj in H as <-. split; [done|]. cbn [al_state]. by apply activation_dispatch_handled.
Qed.

Lemma activation_step_edge l r l' : activation_step l r = Ok l' →
  activation_edge (a_phase (al_state l)) (milestone_of r) (a_phase (al_state l')).
Proof.
  intros (_ & k & h & Hm & Hin & H)%activation_step_inv. unfold milestone_of. rewrite Hm. cbn [str_value].
  by eapply activation_handler_edge.
Qed.

Lemma activation_start_phase r s : activation_start r = Ok s → a_phase (al_state s) = U_BASELINE.
Proof. unfold activation_start. intros H. by evidence_inv. Qed.

(** Each move makes progress. *)
Definition activation_rank (p : UserActivationPhase) : nat :=
  match p with
  | U_BASELINE => 0 | U_LOAD_INTENT => 1 | U_HANDLE_OBSERVED => 2 | U_BIND_INTENT => 3 | U_ALIAS_OBSERVED => 4
  | U_UNLOCK_INTENT => 5 | U_READY | U_STOPPED | U_OUTCOME_UNKNOWN => 6
  | U_RECOVERED_READY | U_RECOVERED_NOT_READY | U_RECOVERY_BLOCKED | U_QUARANTINED => 7
  end.

(** The rank that a milestone leads to. *)
Definition milestone_rank (m : string) : nat :=
  if String.eqb m "USER_KEYBAG_LOAD_INTENT" then 1
  else if String.eqb m "USER_KEYBAG_HANDLE_OBSERVED" then 2
  else if String.eqb m "USER_ALIAS_BIND_INTENT" then 3
  else if String.eqb m "USER_ALIAS_OBSERVED" then 4
  else if String.eqb m "USER_ALIAS_UNLOCK_INTENT" then 5
  else if String.eqb m ARECOVERY then 7 else 6.

Lemma activation_edge_rank p m q : activation_edge p m q →
  (activation_rank p < activation_rank q ≤ 7)%nat ∧ activation_rank q = milestone_rank m.
Proof.
  intros [p' m' q' Hin|p' Hp|p' Hp|q' Hq].
  - unfold activation_moves in Hin. list_cases Hin; injection Hin as -> -> ->; cbn; (split; [lia|reflexivity]).
  - list_cases Hp; subst; cbn; (split; [lia|reflexivity]).
  - list_cases Hp; subst; cbn; (split; [lia|reflexivity]).
  - list_cases Hq; subst; cbn; (split; [lia|reflexivity]).
Qed.

Lemma activation_path_ranks p ms q : path activation_edge p ms q →
  Sorted.StronglySorted lt (map milestone_rank ms)
  ∧ Forall (λ m, activation_rank p < milestone_rank m ≤ activation_rank q)%nat ms
  ∧ (activation_rank p + length ms ≤ activation_rank q)%nat.
Proof.
  induction 1 as [p|p m q ms r He _ (IH1 & IH2 & IH3)].
  - cbn [map length]. split_and!; [constructor|constructor|lia].
  - apply activation_edge_rank in He as [Hr Hm]. split_and!.
    + cbn [map]. constructor; [done|]. apply Forall_fmap. eapply Forall_impl; [exact IH2|]. cbn. intros x Hx. lia.
    + constructor; [lia|]. eapply Forall_impl; [exact IH2|]. cbn. intros x Hx. lia.
    + cbn [length]. lia.
Qed.

Lemma increasing_NoDup (l : list nat) : Sorted.StronglySorted lt l → NoDup l.
Proof.
  induction 1 as [|x l1 Hs IH Hx]; [constructor|]. apply NoDup_cons. split; [|done].
  intros Hin. pose proof (proj1 (Forall_forall _ _) Hx _ Hin). lia.
Qed.

(** an accepted activation journal is a path of the activation phase graph
    from the baseline to the phase it reports; it holds at most eight records
    and no milestone twice, so no keybag load, alias bind or unlock is ever
    journalled a second time. *)
Theorem activation_never_repeats first rest h :
  validate_history (first :: rest) = Ok h →
  path activation_edge U_BASELINE (map milestone_of rest) (ah_phase h)
  ∧ NoDup (map milestone_of rest) ∧ (length (first :: rest) ≤ 8)%nat.
Proof.
  intros Hh.
  assert (path activation_edge U_BASELINE (map milestone_of rest) (ah_phase h)) as Hp.
  { revert Hh. apply (history_path (J := activation_journal) (λ l, a_phase (al_state l)) activation_edge
      activation_step_edge U_BASELINE ah_phase activation_start_phase). done. }
  split; [exact Hp|]. apply activation_path_ranks in Hp as (Hs & Ha & Hl). split.
  - apply NoDup_fmap_1 with (f := milestone_rank). by apply increasing_NoDup.
  - rewrite length_map in Hl. cbn [length activation_rank] in *.
    assert (activation_rank (ah_phase h) ≤ 7)%nat by (by destruct (ah_phase h); cbn; lia). lia.
Qed.

Lemma activation_run_records l rs l' : fold_result activation_step l rs = Ok l' →
  al_baseline l' = al_baseline l
  ∧ Forall (λ r, (r@["evidence"])@["runtime_generation"] ==? (al_baseline l)@["runtime_generation"]
                 = negb (eq_str (r@["milestone"]) ARECOVERY)) rs.
Proof.
  revert l. induction rs as [|r rs IH]; intros l; cbn [fold_result]; [intros [= ->]; by split|].
  intros (l1 & H1 & Hs)%bind_Ok. apply activation_step_inv in H1 as (Hb & k & h & Hm & Hin & Hh).
  apply IH in Hs as [Hb' Hall]. rewrite Hb in *. split; [done|]. constructor; [|done].
  rewrite Hm. unfold eq_str.
  assert (VStr k ==? VStr ARECOVERY = String.eqb k ARECOVERY) as ->.
  { destruct (String.eqb_spec k ARECOVERY) as [->|Hk]; [apply py_eq_refl|].
    apply not_true_is_false. intros E%py_eq_strs. done. }
  by eapply activation_handler_runtime.
Qed.

(** everything an activation journal records before a recovery belongs to
    the runtime generation of its baseline, and its recovery was observed in
    another one: a stale process never continues, and the running one never
    recovers itself. *)
Theorem activation_runtime_bound first rest h r :
  validate_history (first :: rest) = Ok h → r ∈ rest →
  ((r@["evidence"])@["runtime_generation"] ==? (ah_baseline h)@["runtime_generation"] = true
   ↔ r@["milestone"] ≠ VStr ARECOVERY).
Proof.
  intros (f & rs & s0 & s & [= <- <-] & _ & Hs & _ & ->)%validate_history_Ok Hr.
  apply activation_run_records in Hs as [Hb Hall]. cbn [tj_history activation_journal activation_history ah_baseline].
  rewrite Hb. rewrite (proj1 (Forall_forall _ _) Hall r Hr), negb_true_iff.
  rewrite <-not_true_iff_false, eq_str_true. done.
Qed.

(** a user is reported ready, at once or after a recovery, only on a last
    record in which the live alias is that of the baseline - keybag and account
    matched and the state is ready - and the recovered one is fit for matching. *)
Theorem activation_ready_proved first rest h :
  validate_history (first :: rest) = Ok h → ah_phase h ∈ [U_READY; U_RECOVERED_READY] →
  ∃ rest' r, rest = rest' ++ [r] ∧ let ev := r@["evidence"] in
    ev@["bag_uuid_matches"] = VBool true ∧ ev@["account_uuid_matches"] = VBool true
    ∧ ev@["readiness_state"] = VStr "ready"
    ∧ (ah_phase h = U_READY → milestone_of r = "USER_ACTIVATION_READY"
         ∧ ev@["special_alias"] ==? (ah_baseline h)@["special_alias"] = true)
    ∧ (ah_phase h = U_RECOVERED_READY → milestone_of r = ARECOVERY ∧ ev@["match_ready"] = VBool true
         ∧ ev@["mutation_performed"] = VBool false).
Proof.
  intros Hh Hq.
  destruct (history_last (J := activation_journal) (λ l, a_phase (al_state l)) U_BASELINE ah_phase
    activation_start_phase (λ _ _ _, eq_refl) _ _ _ Hh) as [[_ Hb]|(rest' & r & l & l' & -> & Hs & Hp & ->)].
  { rewrite Hb in Hq. by list_cases Hq. }
  exists rest', r. split; [reflexivity|]. cbv zeta. cbn [tj_step activation_journal] in Hs.
  apply activation_step_inv in Hs as (Hb & k & hd & Hm & Hin & H). unfold milestone_of. rewrite Hm.
  cbn [str_value tj_history activation_journal activation_history ah_baseline ah_phase] in *. rewrite Hb in *.
  clear Hm Hh Hp. set (b := al_baseline l) in *. set (ev := r@["evidence"]) in *.
  generalize dependent (al_state l'). intros s1 Hq H. clearbody ev.
  activation_handler Hin H; activation_inv; cbn [a_phase set_field] in *;
    try (exfalso; revert Hq; apply (bool_decide_unpack _); exact I).
  - repeat match goal with
    | H : is_true _ = true |- _ => apply is_true_eq in H
    | H : negb (_ ==? VStr _) = false |- _ => apply negb_false_iff, py_eq_str_l in H
    | H : _ ==? VStr _ = true |- _ => apply py_eq_str_l in H
    | H : unbound _ _ _ = false |- _ => apply negb_false_iff in H
    end.
    split_and!; try assumption; [intros _; by split|discriminate].
  - match goal with H : recovery_phase _ = Ok _ |- _ => apply recovery_phase_Ok in H as [? Hready] end.
    list_cases Hq; subst; [match goal with H : U_READY ∈ _ |- _ => by list_cases H end|]. destruct (Hready eq_refl) as [Hst Hob].
    unfold observed_all in Hob. cbv zeta in Hob. ok_inv.
    repeat match goal with
    | H : is_true _ = true |- _ => apply is_true_eq in H
    | H : is_false _ = true |- _ => apply is_false_eq in H
    end.
    split_and!; try assumption; [discriminate|intros _; by split_and!].
Qed.

(** ** Creation *)

Lemma uuid_text_checked s field : uuid_text s → checked_uuid aerr (VStr s) field = Ok tt.
Proof.
  intros (z & Hz & _ & Hs). unfold checked_uuid, require_uuid. rewrite Hz, Hs, String.eqb_refl. done.
Qed.

Lemma sha256_text_checked s field : sha256_text s → checked_sha256 aerr (VStr s) field = Ok tt.
Proof. intros [Hl Hc]. unfold checked_sha256. by rewrite sha256_text_accepted. Qed.

(** The fields of a journalled baseline. *)
Lemma activation_baseline_fields ms m c d a boot runtime :
  let b := activation_baseline ms m c d a boot runtime in
  has_keys b ["mapping_generation"; "linux_boot_uuid"; "runtime_generation"; "target_linux_uid";
    "apple_uid"; "account_uuid"; "bag_uuid"; "keybag_sha256"; "special_alias"; "capability"; "initial_state";
    "alias_preexisting"] = true
  ∧ b@["mapping_generation"] = VStr (ums_generation ms) ∧ b@["keybag_sha256"] = VStr (um_keybag_sha256 m)
  ∧ b@["linux_boot_uuid"] = VStr boot ∧ b@["runtime_generation"] = VStr runtime
  ∧ b@["account_uuid"] = VStr (um_account_uuid m) ∧ b@["bag_uuid"] = VStr (um_bag_uuid m)
  ∧ b@["target_linux_uid"] = VInt (um_linux_uid m) ∧ b@["apple_uid"] = VInt (um_apple_uid m)
  ∧ b@["special_alias"] = VInt (- um_apple_uid m) ∧ b@["capability"] = VStr c
  ∧ b@["initial_state"] = VStr (rd_state d) ∧ b@["alias_preexisting"] = ae_present a.
Proof. by split_and!. Qed.

Lemma a_uint_VInt z field lo : lo <= z <= UINT32 → a_uint (VInt z) field lo = Ok z.
Proof. intros Hz. unfold a_uint. cbn [is_int int_value negb orb]. by replace ((lo <=? z) && (z <=? UINT32)) with true by lia. Qed.

Lemma activation_baseline_valid ms m c p a d boot runtime :
  sha256_text (ums_generation ms) → mapping_wf m → assess m c p a = Ok d → rd_state d ∈ actionable_states →
  require_uuid (VStr boot) "linux_boot_uuid" = Ok tt → require_uuid (VStr runtime) "runtime_generation" = Ok tt →
  let b := activation_baseline ms m c d a boot runtime in validate_activation_baseline b = Ok b.
Proof.
  intros Hg [Hu Ha _ Hau Hb _ Hk _ Hcaps] Hd Hs Hboot Hrun. cbv zeta.
  destruct (actionable_bound _ _ _ _ _ Hd Hs) as (_ & Hc & _ & Hpre). apply Hcaps in Hc.
  destruct (activation_baseline_fields ms m c d a boot runtime)
    as (Ek & E1 & E2 & E3 & E4 & E5 & E6 & E7 & E8 & E9 & E10 & E11 & E12).
  set (b := activation_baseline ms m c d a boot runtime) in *. clearbody b.
  unfold validate_activation_baseline. rewrite (proj2 (exact_Ok aerr b _ _ b) (conj eq_refl Ek)).
  cbn [mbind result_bind all_sha256 all_uuid for_each]. rewrite E1, E2, E3, E4, E5, E6, E7, E8, E9, E10, E11, E12.
  rewrite !sha256_text_checked, !uuid_text_checked by assumption.
  unfold checked_uuid at 1 2. rewrite Hboot, Hrun. cbn [rewrap except mbind result_bind].
  unfold UINT32_MAX, INT32_MAX in *. rewrite !a_uint_VInt by (unfold UINT32; lia). cbn [mbind result_bind].
  rewrite py_eq_refl. unfold not_in_names. cbn [in_names fmap result_fmap].
  rewrite (bool_decide_eq_true_2 (c ∈ _) Hc), (bool_decide_eq_true_2 (rd_state d ∈ _) Hs).
  destruct Hpre as [[-> ->]|(Hne & -> & _)]; [reflexivity|].
  cbn. replace (eq_str (VStr (rd_state d)) "alias-absent") with false; [reflexivity|].
  symmetry. apply not_true_is_false. by intros [= ?]%eq_str_true.
Qed.

(** planning an activation never trips over its own baseline.  For a
    mapping of a parsed document, with valid boot, runtime and operation ids,
    it succeeds exactly when the readiness evidence is actionable; the
    journalled baseline is then valid and binds the mapping and its document. *)
Theorem activation_plan_exact data ms m c p a boot runtime op fresh :
  parse data = Ok ms → m ∈ ums_mappings ms →
  require_uuid (VStr boot) "linux_boot_uuid" = Ok tt → require_uuid (VStr runtime) "runtime_generation" = Ok tt →
  require_uuid (VStr op) "operation ID" = Ok tt →
  is_ok (activation_plan ms m c p a boot runtime (Some op) fresh)
    = match assess m c p a with Ok d => bool_decide (rd_state d ∈ actionable_states) | Raise _ => false end
  ∧ ∀ d, assess m c p a = Ok d → rd_state d ∈ actionable_states →
      let b := activation_baseline ms m c d a boot runtime in
      activation_plan ms m c p a boot runtime (Some op) fresh = Ok (op, b) ∧ validate_activation_baseline b = Ok b.
Proof.
  intros Hp Hm Hboot Hrun Hop. apply parse_Ok in Hp as (Hok & Hgen & _).
  assert (sha256_text (ums_generation ms)) as Hg.
  { rewrite Hgen. split; [apply sha256_hex_length|apply sha256_hex_lower]. }
  pose proof (proj1 (Forall_forall _ _) (mo_wf _ Hok) _ Hm) as Hwf.
  assert (String.eqb op "" = false) as Hne by (apply not_true_is_false; intros ->%String.eqb_eq; discriminate Hop).
  assert (∀ d, assess m c p a = Ok d → rd_state d ∈ actionable_states →
      let b := activation_baseline ms m c d a boot runtime in
      activation_plan ms m c p a boot runtime (Some op) fresh = Ok (op, b) ∧ validate_activation_baseline b = Ok b) as Hplan.
  { intros d Hd Hs. pose proof (activation_baseline_valid ms m c p a d boot runtime Hg Hwf Hd Hs Hboot Hrun) as Hb.
    cbv zeta in *. split; [|exact Hb]. unfold activation_plan. rewrite Hd. cbn [mbind result_bind].
    rewrite (bool_decide_eq_true_2 _ Hs), (bool_decide_eq_true_2 _ Hm).
    assert (String.eqb (ums_generation ms) "" = false) as -> by (apply not_true_is_false; intros E%String.eqb_eq; by rewrite E in Hg; destruct Hg).
    unfold reject at 1 2. cbn [negb orb fail_if mbind result_bind]. rewrite Hb, Hne. cbn [mbind result_bind].
    unfold checked_uuid. by rewrite Hop. }
  split; [|exact Hplan].
  destruct (assess m c p a) as [d|e] eqn:Hd; [|unfold activation_plan; by rewrite Hd].
  case_bool_decide as Hs; [destruct (Hplan d eq_refl Hs) as [-> _]; done|].
  unfold activation_plan. rewrite Hd. cbn [mbind result_bind]. by rewrite (bool_decide_eq_false_2 _ Hs).
Qed.
