(* ===== verification/MutationRegistry.v ===== *)
(** * Mutation registry ([src/src/t2_mutation_registry.py])

    The scan of the private journal directory that decides whether a new
    mutation may begin: every file must be a secure journal that its own typed
    state machine accepts, and a journal that is not settled blocks. *)
From S2P Require Import Prelude PyValue Sha256 Json MutationJournal Evidence TypedJournal PersistenceJournal.
From S2P Require Import EnrollmentJournal RenameJournal DeleteJournal SyncJournal ExternalDeleteJournal.

#[local] Open Scope Z_scope.

Record MutationEntry := Entry {
  me_kind : string;
  me_phase : string;
  me_blocks_new_mutation : bool;
  me_post_reboot_pending : bool;
}.

#[local] Abbreviation gerr := MutationRegistryError.
#[local] Abbreviation refuse b msg := (fail_if b MutationRegistryError msg).

(** The [value] of each phase. *)
Definition enrollment_phase_value (p : EnrollmentPhase) : string :=
  match p with
  | E_BASELINE => "baseline-reconciled"
  | E_ABORTED_BEFORE_START => "aborted-before-start"
  | E_START_INTENT => "start-intent"
  | E_ACTIVE => "active"
  | E_CONTINUE_INTENT => "continue-intent"
  | E_CANCEL_INTENT => "cancel-intent"
  | E_CANCEL_REQUESTED => "cancel-requested"
  | E_TERMINAL_WITNESS => "terminal-result-witness"
  | E_TERMINAL_IDENTITY => "terminal-identity"
  | E_TERMINAL_FAILURE => "terminal-failure"
  | E_PERSISTING => "persisting"
  | E_PERSISTENCE_READY => "persistence-ready"
  | E_RECONCILED => "reconciled"
  | E_POST_REBOOT_VERIFIED => "post-reboot-verified"
  | E_OUTCOME_UNKNOWN => "outcome-unknown"
  end.
Definition rename_phase_value (p : IdentityRenamePhase) : string :=
  match p with
  | R_BASELINE => "baseline-reconciled"
  | R_INTENT => "rename-intent"
  | R_ABORTED => "aborted-before-persistence"
  | R_PERSISTING => "persisting"
  | R_PERSISTENCE_READY => "persistence-ready"
  | R_RECONCILED => "reconciled"
  | R_POST_REBOOT_VERIFIED => "post-reboot-verified"
  | R_OUTCOME_UNKNOWN => "outcome-unknown"
  end.
Definition delete_phase_value (p : IdentityDeletePhase) : string :=
  match p with
  | D_BASELINE => "baseline-reconciled"
  | D_INTENT => "delete-intent"
  | D_DISPATCH_INTENT => "delete-dispatch-intent"
  | D_COMMAND_OBSERVED => "delete-command-observed"
  | D_SEP_DELETED => "sep-deletion-observed"
  | D_ABORTED => "aborted-not-deleted"
  | D_PERSISTING => "persisting"
  | D_PERSISTENCE_READY => "persistence-ready"
  | D_RECONCILED => "reconciled"
  | D_POST_REBOOT_VERIFIED => "post-reboot-verified"
  | D_OUTCOME_UNKNOWN => "outcome-unknown"
  end.
Definition sync_phase_value (p : CatacombSyncPhase) : string :=
  match p with
  | S_BASELINE => "baseline"
  | S_INTENT => "intent"
  | S_HOST_COMMITTED => "host-committed"
  | S_RECONCILED => "reconciled"
  | S_ABORTED => "aborted"
  | S_OUTCOME_UNKNOWN => "outcome-unknown"
  end.
Definition external_phase_value (p : ExternalDeletePhase) : string :=
  match p with
  | X_BASELINE => "external-delete-baseline"
  | X_INTENT => "external-delete-intent"
  | X_HOST_COMMITTED => "external-delete-host-committed"
  | X_RECONCILED => "external-delete-reconciled"
  | X_ABORTED => "external-delete-aborted"
  | X_OUTCOME_UNKNOWN => "external-delete-outcome-unknown"
  end.

(** [_private_directory] *)
Definition private_directory (euid : Z) (d : directory) : result unit :=
  refuse (negb (d_isdir d) || negb (d_uid d =? euid) || group_or_other (d_mode d))
    "mutation journal directory is unsafe".

(** [except c as error: raise MutationRegistryError(msg) from error] *)
Definition as_registry {A} (c : exn_class) (msg : string) (m : result A) : result A :=
  except (λ c', bool_decide (c' = c)) (λ _, Exn gerr msg) m.

Definition enrollment_complete (h : EnrollmentHistory) : bool :=
  bool_decide (eh_phase h ∈ [E_BASELINE; E_ABORTED_BEFORE_START; E_POST_REBOOT_VERIFIED])
  || (bool_decide (eh_phase h = E_RECONCILED) && is_none (eh_terminal_identity_uuid h)).

Definition enrollment_entry (records : list value) : result MutationEntry :=
  history ← as_registry EnrollmentJournalError "enrollment journal is invalid"
              (validate_history (J := enrollment_journal) records);
  let post_reboot := bool_decide (eh_phase history = E_RECONCILED)
                     && negb (is_none (eh_terminal_identity_uuid history)) in
  Ok (Entry "enroll" (enrollment_phase_value (eh_phase history)) (negb (enrollment_complete history)) post_reboot).

Definition rename_entry (records : list value) : result MutationEntry :=
  history ← as_registry IdentityRenameJournalError "rename journal is invalid"
              (validate_history (J := rename_journal) records);
  let complete := bool_decide (rh_phase history ∈ [R_ABORTED; R_POST_REBOOT_VERIFIED]) in
  Ok (Entry "rename" (rename_phase_value (rh_phase history)) (negb complete)
        (bool_decide (rh_phase history = R_RECONCILED))).

Definition delete_entry (records : list value) : result MutationEntry :=
  history ← as_registry IdentityDeleteJournalError "single-delete journal is invalid"
              (validate_history (J := delete_journal) records);
  let complete := bool_decide (dh_phase history ∈ [D_BASELINE; D_ABORTED; D_POST_REBOOT_VERIFIED]) in
  Ok (Entry "delete-one" (delete_phase_value (dh_phase history)) (negb complete)
        (bool_decide (dh_phase history = D_RECONCILED))).

Definition catacomb_sync_entry (records : list value) : result MutationEntry :=
  history ← as_registry CatacombSyncJournalError "Catacomb sync journal is invalid"
              (validate_history (J := sync_journal) records);
  let complete := bool_decide (sh_phase history ∈ [S_RECONCILED; S_ABORTED]) in
  Ok (Entry "sync-user-catacomb" (sync_phase_value (sh_phase history)) (negb complete) false).

Definition external_delete_entry (records : list value) : result MutationEntry :=
  history ← as_registry ExternalDeleteReconcileError "external-delete reconciliation journal is invalid"
              (validate_history (J := external_journal) records);
  let complete := bool_decide (xh_phase history ∈ [X_BASELINE; X_RECONCILED; X_ABORTED]) in
  Ok (Entry "reconcile-external-delete" (external_phase_value (xh_phase history)) (negb complete) false).

(** [re.fullmatch]: in the template an [h] stands for a lower-case hexadecimal
    digit and any other character for itself. *)
Fixpoint matches (template s : string) : bool :=
  match template, s with
  | "", "" => true
  | String t template, String c s =>
      (if Ascii.eqb t "h" then hex_lower_char c else Ascii.eqb t c) && matches template s
  | _, _ => false
  end.
Definition journal_name (name : string) : bool := matches "hhhhhhhh-hhhh-hhhh-hhhh-hhhhhhhhhhhh.jsonl" name.

(** [records[0]["evidence"]["operation_kind"]], [None] when there is none. *)
Definition kind_of (records : list value) : value :=
  match records with
  | first :: _ => (first@["evidence"])@["operation_kind"]
  | [] => VNone
  end.

(** The entry of one journal, by its kind. *)
Definition route (records : list value) : result MutationEntry :=
  let kind := kind_of records in
  if eq_str kind "enroll" then enrollment_entry records
  else if eq_str kind "rename" then rename_entry records
  else if eq_str kind "delete-one" then delete_entry records
  else if eq_str kind "sync-user-catacomb" then catacomb_sync_entry records
  else if eq_str kind "reconcile-external-delete" then external_delete_entry records
  else
    unrouted ← in_names kind ["delete-batch"; "recovery"];
    if unrouted : bool then Ok (Entry (str_value kind) "unrouted" true false)
    else raise gerr "mutation journal kind is unsupported".

(** The loop body for one directory entry. *)
Definition scan_file (euid : Z) (file : string * entry) : result MutationEntry :=
  _ ← refuse (negb (journal_name file.1) || negb (secure_regular_file euid file.2))
        "mutation journal entry is unsafe";
  records ← except is_journal_error (λ _, Exn gerr "mutation journal is invalid") (read euid file.2);
  _ ← refuse (Nat.eqb (length records) 0) "mutation journal is empty";
  route records.

(** [sorted(root.iterdir(), key=lambda value: value.name)] *)
Definition name_le (a b : string * entry) : Prop := String.le a.1 b.1.
#[export] Instance name_le_dec a b : Decision (name_le a b).
Proof. unfold name_le. apply _. Defined.
Definition by_name (files : list (string * entry)) : list (string * entry) := merge_sort name_le files.

Fixpoint scan_files (euid : Z) (files : list (string * entry)) : result (list MutationEntry) :=
  match files with
  | [] => Ok []
  | file :: files => e ← scan_file euid file; es ← scan_files euid files; Ok (e :: es)
  end.

(** [scan] of a directory with its entries in any order. *)
Definition scan (euid : Z) (root : directory) (files : list (string * entry)) : result (list MutationEntry) :=
  _ ← private_directory euid root;
  scan_files euid (by_name files).

Definition blocks_new_mutation (euid : Z) (root : directory) (files : list (string * entry))
    (excluding_kind : option string) : result bool :=
  entries ← scan euid root files;
  Ok (existsb (λ e, me_blocks_new_mutation e
        && match excluding_kind with None => true | Some k => negb (String.eqb (me_kind e) k) end) entries).

(** ** Settled journals *)

(** Whether the typed module that owns a kind accepts a journal. *)
Definition accepted (records : list value) : bool :=
  let kind := kind_of records in
  if eq_str kind "enroll" then is_ok (validate_history (J := enrollment_journal) records)
  else if eq_str kind "rename" then is_ok (validate_history (J := rename_journal) records)
  else if eq_str kind "delete-one" then is_ok (validate_history (J := delete_journal) records)
  else if eq_str kind "sync-user-catacomb" then is_ok (validate_history (J := sync_journal) records)
  else if eq_str kind "reconcile-external-delete" then is_ok (validate_history (J := external_journal) records)
  else false.

(** A journal that never got past its baseline, or that no record extends. *)
Definition settled (records : list value) : Prop :=
  length records = 1%nat ∨ (∀ r, accepted (records ++ [r]) = false).

Section settled.
Context {S H P : Type} `{J : TypedJournal S H, L : !TypedJournalLaws S H}.
Variables (phase : S → P) (edge : P → string → P → Prop) (initial : P) (reported : H → P).
Hypothesis step_edge : ∀ s r s', tj_step s r = Ok s' → edge (phase s) (milestone_of r) (phase s').
Hypothesis start_phase : ∀ r s, tj_start r = Ok s → phase s = initial.
Hypothesis reported_phase : ∀ s n h, reported (tj_history s n h) = phase s.

(** No edge leads back to the baseline, so a journal in it is not started. *)
Lemma unstarted records x : (∀ p m, ¬ edge p m initial) →
  validate_history records = Ok x → reported x = initial → length records = 1%nat.
Proof.
  intros Hno Hx Hp. destruct records as [|first rest]; [done|].
  destruct (history_last phase initial reported start_phase reported_phase _ _ _ Hx)
    as [[-> _]|(rest' & r & s & s' & _ & Hs & Hq & _)]; [done|].
  destruct (Hno (phase s) (milestone_of r)). rewrite <-Hp, Hq. by apply step_edge.
Qed.

(** A journal in a phase without edges is final. *)
Lemma final_phase records x r : (∀ m q, ¬ edge (reported x) m q) →
  validate_history records = Ok x → is_ok (validate_history (records ++ [r])) = false.
Proof.
  intros Hno Hx. apply (history_final _ _ _ Hx). intros s n h s' -> Hs.
  apply step_edge in Hs. rewrite reported_phase in Hno. by eapply Hno.
Qed.
End settled.

Lemma enroll_start_phase r s : enroll_start r = Ok s → e_phase (el_state s) = E_BASELINE.
Proof. by intros (b & -> & _)%enroll_start_Ok. Qed.

Lemma enroll_edge_source p m q : enroll_edge p m q →
  (p ∉ [E_ABORTED_BEFORE_START; E_POST_REBOOT_VERIFIED])
  ∧ (p = E_RECONCILED → m = "E4_POST_REBOOT_VERIFIED") ∧ q ≠ E_BASELINE.
Proof.
  intros He. split; [|split; [|by eapply never_baseline]].
  - destruct He as [p m q Hin|p m q _ Hp _|q _]; [|list_cases Hp; subst; by apply (bool_decide_unpack _)|by apply (bool_decide_unpack _)].
    unfold enroll_moves in Hin. cbn [map app] in Hin. list_cases Hin; injection Hin as -> -> ->; by apply (bool_decide_unpack _).
  - intros ->. inversion He as [p' m' q' Hin|p' m' q' _ Hp _|]; subst; [|by list_cases Hp].
    unfold enroll_moves in Hin. cbn [map app] in Hin. by list_cases Hin; simplify_eq.
Qed.

Lemma enrollment_settled records h : validate_history (J := enrollment_journal) records = Ok h →
  enrollment_complete h = true →
  length records = 1%nat ∨ (∀ r, is_ok (validate_history (J := enrollment_journal) (records ++ [r])) = false).
Proof.
  intros Hh Hc. unfold enrollment_complete in Hc. apply orb_true_iff in Hc as [Hc%bool_decide_eq_true|Hc].
  - apply elem_of_cons in Hc as [Hp|Hc].
    + left. apply (unstarted (J := enrollment_journal) (λ l, e_phase (el_state l)) enroll_edge E_BASELINE eh_phase
        enroll_step_edge enroll_start_phase (λ _ _ _, eq_refl) records h); [|done..].
      intros p m He. by apply enroll_edge_source in He as (_ & _ & ?).
    + right. intros r. apply (final_phase (J := enrollment_journal) (λ l, e_phase (el_state l)) enroll_edge eh_phase
        enroll_step_edge (λ _ _ _, eq_refl) records h r); [|done].
      intros m q He. by apply enroll_edge_source in He as (He & _).
  - right. intros r. apply andb_true_iff in Hc as [Hp%bool_decide_eq_true Hn].
    apply (history_final (J := enrollment_journal) records h r Hh). intros l n hd l' -> Hs.
    cbn [tj_history tj_step enrollment_journal enroll_history eh_phase eh_terminal_identity_uuid] in *.
    pose proof (enroll_step_edge _ _ _ Hs) as (_ & He & _)%enroll_edge_source. specialize (He Hp).
    apply str_value_str in He; [|done]. unfold enroll_step in Hs. rewrite He in Hs. evidence_inv.
    match goal with H : enroll_dispatch _ _ _ _ = Ok ?x |- _ =>
      change (on_post_reboot_verified (el_baseline l) (el_state l) (r@["evidence"]) "E4_POST_REBOOT_VERIFIED" = Ok x) in H;
      unfold on_post_reboot_verified in H; apply bind_Ok in H as (? & H & _) end.
    unfold reject in *. rewrite Hn, orb_true_r in *. discriminate.
Qed.

Lemma rename_edge_source p m q : rename_edge p m q → p ∉ [R_ABORTED; R_POST_REBOOT_VERIFIED].
Proof.
  intros [p' m' q' Hin|p' m' q' _ Hp _].
  - unfold rename_moves in Hin. list_cases Hin; injection Hin as -> -> ->; by apply (bool_decide_unpack _).
  - list_cases Hp; subst; by apply (bool_decide_unpack _).
Qed.

Lemma delete_edge_source p m q : delete_edge p m q →
  (p ∉ [D_ABORTED; D_POST_REBOOT_VERIFIED]) ∧ q ≠ D_BASELINE.
Proof.
  intros [p' m' q' Hin|p' m' q' _ Hp Hq].
  - unfold delete_moves in Hin. cbn [map app] in Hin.
    list_cases Hin; injection Hin as -> -> ->; (split; [by apply (bool_decide_unpack _)|done]).
  - split; [list_cases Hp; subst; by apply (bool_decide_unpack _)|by list_cases Hq; subst].
Qed.

Lemma sync_edge_source p m q : sync_edge p m q → p.1 ∉ [S_RECONCILED; S_ABORTED].
Proof.
  intros [a|a|a|a|p' a Hp| |]; try (by apply (bool_decide_unpack _)).
  list_cases Hp; subst; by apply (bool_decide_unpack _).
Qed.

Lemma external_edge_source p m q : external_edge p m q → (p ∉ [X_RECONCILED; X_ABORTED]) ∧ q ≠ X_BASELINE.
Proof.
  intros [|p' Hp| |p' Hp|p' Hp]; (split; [|done]); try (by apply (bool_decide_unpack _));
    list_cases Hp; subst; by apply (bool_decide_unpack _).
Qed.

(** ** Entries *)

Lemma as_registry_Ok {A} c msg (m : result A) a : as_registry c msg m = Ok a ↔ m = Ok a.
Proof. apply except_Ok. Qed.

Lemma kind_of_snoc records r : records ≠ [] → kind_of (records ++ [r]) = kind_of records.
Proof. by destruct records. Qed.

Lemma accepted_kind records r : records ≠ [] → accepted (records ++ [r]) =
  (let kind := kind_of records in
  if eq_str kind "enroll" then is_ok (validate_history (J := enrollment_journal) (records ++ [r]))
  else if eq_str kind "rename" then is_ok (validate_history (J := rename_journal) (records ++ [r]))
  else if eq_str kind "delete-one" then is_ok (validate_history (J := delete_journal) (records ++ [r]))
  else if eq_str kind "sync-user-catacomb" then is_ok (validate_history (J := sync_journal) (records ++ [r]))
  else if eq_str kind "reconcile-external-delete" then is_ok (validate_history (J := external_journal) (records ++ [r]))
  else false).
Proof. intros Hne. unfold accepted. by rewrite kind_of_snoc. Qed.

(** What the entry of a journal says about it. *)
Record routed (records : list value) (e : MutationEntry) : Prop := {
  ro_kind : kind_of records = VStr (me_kind e);
  ro_accepted : accepted records = true ∨ me_kind e ∈ ["delete-batch"; "recovery"];
  ro_pending : me_post_reboot_pending e = true → me_blocks_new_mutation e = true;
  ro_unrouted : me_kind e ∈ ["delete-batch"; "recovery"] → me_blocks_new_mutation e = true;
  ro_settled : me_blocks_new_mutation e = false → accepted records = true ∧ settled records;
}.

Lemma routed_typed {S T} (J : TypedJournal S T) records k phase complete post h :
  kind_of records = VStr k → k ∉ ["delete-batch"; "recovery"] →
  accepted records = is_ok (validate_history (J := J) records) →
  (∀ r, accepted (records ++ [r]) = is_ok (validate_history (J := J) (records ++ [r]))) →
  validate_history (J := J) records = Ok h →
  (post = true → complete = false) →
  (complete = true → length records = 1%nat ∨ (∀ r, is_ok (validate_history (J := J) (records ++ [r])) = false)) →
  routed records (Entry k phase (negb complete) post).
Proof.
  intros Hk Hn Ha Ha' Hh Hpost Hset. assert (accepted records = true) as Hacc by (by rewrite Ha, Hh).
  split; cbn [me_kind me_blocks_new_mutation me_post_reboot_pending]; [done|by left|by intros ->%Hpost|done|].
  intros Hc%negb_false_iff. split; [done|]. destruct (Hset Hc) as [?|Hr]; [by left|right].
  intros r. by rewrite Ha'.
Qed.

(** Decides the comparisons of a known kind. *)
Ltac kind_tac Hk Hne :=
  match goal with
  | |- kind_of _ = _ => exact Hk
  | |- _ ∉ _ => by apply (bool_decide_unpack _)
  | |- accepted _ = _ => unfold accepted; by rewrite Hk
  | |- ∀ r, accepted _ = _ => intros r; by rewrite (accepted_kind _ _ Hne), Hk
  | |- validate_history _ = Ok _ => eassumption
  | _ => idtac
  end.

Lemma route_Ok records e : records ≠ [] → route records = Ok e → routed records e.
Proof.
  intros Hne. unfold route. cbv zeta.
  destruct (eq_str (kind_of records) "enroll") eqn:E1.
  { apply eq_str_true in E1 as Hk. unfold enrollment_entry. intros (h & Hh%as_registry_Ok & H)%bind_Ok.
    apply Ok_inj in H as <-. apply (routed_typed enrollment_journal _ _ _ _ _ h); kind_tac Hk Hne.
    - intros [Hp Hn]%andb_true_iff. unfold enrollment_complete. apply bool_decide_eq_true in Hp.
      apply negb_true_iff in Hn. rewrite Hp, Hn. reflexivity.
    - intros Hc. by apply (enrollment_settled records h). }
  destruct (eq_str (kind_of records) "rename") eqn:E2.
  { apply eq_str_true in E2 as Hk. unfold rename_entry. intros (h & Hh%as_registry_Ok & H)%bind_Ok.
    apply Ok_inj in H as <-. apply (routed_typed rename_journal _ _ _ _ _ h); kind_tac Hk Hne.
    - intros Hp%bool_decide_eq_true. by rewrite Hp.
    - intros Hc%bool_decide_eq_true. right. intros r.
      apply (final_phase (J := rename_journal) (λ l, r_phase (rl_state l)) rename_edge rh_phase
        rename_step_edge (λ _ _ _, eq_refl) records h r); [|done].
      intros m q He. by apply rename_edge_source in He. }
  destruct (eq_str (kind_of records) "delete-one") eqn:E3.
  { apply eq_str_true in E3 as Hk. unfold delete_entry. intros (h & Hh%as_registry_Ok & H)%bind_Ok.
    apply Ok_inj in H as <-. apply (routed_typed delete_journal _ _ _ _ _ h); kind_tac Hk Hne.
    - intros Hp%bool_decide_eq_true. by rewrite Hp.
    - intros Hc%bool_decide_eq_true. apply elem_of_cons in Hc as [Hp|Hc]; [left|right; intros r].
      + apply (unstarted (J := delete_journal) (λ l, d_phase (dl_state l)) delete_edge D_BASELINE dh_phase
          delete_step_edge delete_start_phase (λ _ _ _, eq_refl) records h); [|done..].
        intros p m He. by apply delete_edge_source in He as [_ ?].
      + apply (final_phase (J := delete_journal) (λ l, d_phase (dl_state l)) delete_edge dh_phase
          delete_step_edge (λ _ _ _, eq_refl) records h r); [|done].
        intros m q He. by apply delete_edge_source in He as [He _]. }
  destruct (eq_str (kind_of records) "sync-user-catacomb") eqn:E4.
  { apply eq_str_true in E4 as Hk. unfold catacomb_sync_entry. intros (h & Hh%as_registry_Ok & H)%bind_Ok.
    apply Ok_inj in H as <-. apply (routed_typed sync_journal _ _ _ _ _ h); kind_tac Hk Hne; [done|].
    intros Hc%bool_decide_eq_true. right. intros r.
    apply (final_phase (J := sync_journal) sync_place sync_edge (λ h, (sh_phase h, sh_recovery_attempted h))
      sync_step_edge (λ _ _ _, eq_refl) records h r); [|done].
    intros m q He. by apply sync_edge_source in He. }
  destruct (eq_str (kind_of records) "reconcile-external-delete") eqn:E5.
  { apply eq_str_true in E5 as Hk. unfold external_delete_entry. intros (h & Hh%as_registry_Ok & H)%bind_Ok.
    apply Ok_inj in H as <-. apply (routed_typed external_journal _ _ _ _ _ h); kind_tac Hk Hne; [done|].
    intros Hc%bool_decide_eq_true. apply elem_of_cons in Hc as [Hp|Hc]; [left|right; intros r].
    - apply (unstarted (J := external_journal) (λ l, x_phase (xl_state l)) external_edge X_BASELINE xh_phase
        external_step_edge (λ r s H, proj1 (external_start_facts r s H)) (λ _ _ _, eq_refl) records h); [|done..].
      intros p m He. by apply external_edge_source in He as [_ ?].
    - apply (final_phase (J := external_journal) (λ l, x_phase (xl_state l)) external_edge xh_phase
        external_step_edge (λ _ _ _, eq_refl) records h r); [|done].
      intros m q He. by apply external_edge_source in He as [He _]. }
  intros (u & Hu & H)%bind_Ok. destruct u; [|done]. apply in_names_true in Hu as (k & Hk & Hin).
  apply Ok_inj in H as <-. rewrite Hk. by split; [..|right|done|done|].
Qed.

(** ** The scan *)

Lemma scan_files_Ok euid files es : scan_files euid files = Ok es ↔
  Forall2 (λ file e, scan_file euid file = Ok e) files es.
Proof.
  revert es. induction files as [|file files IH]; intros es; cbn [scan_files].
  - split; [intros [= <-]; constructor|]. by intros ->%Forall2_nil_inv_l.
  - split.
    + intros (e & He & (es' & Hes & [= <-])%bind_Ok)%bind_Ok. constructor; [done|by apply IH].
    + intros (e & es' & He & Hes%IH & ->)%Forall2_cons_inv_l. rewrite He. cbn [mbind result_bind]. by rewrite Hes.
Qed.

#[export] Instance name_le_trans : Transitive name_le.
Proof. intros a b c. unfold name_le. apply transitivity. Qed.
#[export] Instance name_le_total : Total name_le.
Proof. intros a b. unfold name_le. apply (total String.le). Qed.

(** With distinct names the order of the scan does not depend on the order in
    which the directory lists its entries. *)
Lemma by_name_unique files files' : NoDup files.*1 → files ≡ₚ files' → by_name files = by_name files'.
Proof.
  intros Hnd E. unfold by_name.
  apply (StronglySorted_unique_strong name_le).
  - intros [n e] [n' e'] H1 H2 L1 L2. unfold name_le in L1, L2. cbn in L1, L2.
    assert (n = n') as <- by (by apply (anti_symm String.le)). f_equal.
    rewrite merge_sort_Permutation in H1, H2. rewrite <-E in H2.
    apply list_elem_of_lookup in H1 as [i Hi]. apply list_elem_of_lookup in H2 as [j Hj].
    assert (i = j) as ->.
    { eapply NoDup_lookup; [exact Hnd| |]; rewrite list_lookup_fmap; [by rewrite Hi|by rewrite Hj]. }
    congruence.
  - apply (StronglySorted_merge_sort name_le).
  - apply (StronglySorted_merge_sort name_le).
  - by rewrite !merge_sort_Permutation.
Qed.

(** the decision to block does not depend on the order in which the
    directory lists its files. *)
Theorem registry_order_independent euid root files files' excluding :
  NoDup files.*1 → files ≡ₚ files' →
  scan euid root files = scan euid root files'
  ∧ blocks_new_mutation euid root files excluding = blocks_new_mutation euid root files' excluding.
Proof.
  intros Hnd E. assert (scan euid root files = scan euid root files') as Hs.
  { unfold scan. by rewrite (by_name_unique _ _ Hnd E). }
  split; [exact Hs|]. unfold blocks_new_mutation. by rewrite Hs.
Qed.

Lemma scan_file_Ok euid file e : scan_file euid file = Ok e →
  journal_name file.1 = true ∧ secure_regular_file euid file.2 = true
  ∧ ∃ rs, read euid file.2 = Ok rs ∧ rs ≠ [] ∧ routed rs e.
Proof.
  unfold scan_file. intros (u & Hsafe & H)%bind_Ok. apply fail_if_Ok, orb_false_iff in Hsafe as [Hn Hs].
  apply negb_false_iff in Hn, Hs. apply bind_Ok in H as (rs & Hr & H). apply except_Ok in Hr.
  apply bind_Ok in H as (u' & He & H). apply fail_if_Ok, Nat.eqb_neq in He.
  split; [done|]. split; [done|]. exists rs. assert (rs ≠ []) as Hne by (by intros ->).
  split; [done|]. split; [done|]. by apply route_Ok.
Qed.

Lemma scan_Ok_entry euid root files es file : scan euid root files = Ok es → file ∈ files →
  ∃ e, e ∈ es ∧ scan_file euid file = Ok e.
Proof.
  unfold scan. intros (u & _ & H)%bind_Ok Hin. apply scan_files_Ok in H.
  assert (file ∈ by_name files) as [i Hi]%list_elem_of_lookup by (unfold by_name; by rewrite merge_sort_Permutation).
  destruct (Forall2_lookup_l _ _ _ _ _ H Hi) as (e & He & Hs). exists e. split; [|done].
  by eapply list_elem_of_lookup_2.
Qed.

(** the registry fails closed.  When it answers at all, the directory is
    private and every entry is a private, well-named journal file whose hash
    chain is intact and which the typed journal of its kind accepts, or is of a
    kind without one, which blocks. *)
Theorem registry_fails_closed euid root files es :
  scan euid root files = Ok es →
  d_isdir root = true ∧ d_uid root = euid ∧ group_or_other (d_mode root) = false
  ∧ length es = length files
  ∧ ∀ file, file ∈ files → journal_name file.1 = true ∧ secure_regular_file euid file.2 = true
      ∧ ∃ rs e, read euid file.2 = Ok rs ∧ e ∈ es ∧ kind_of rs = VStr (me_kind e)
          ∧ (accepted rs = true ∨ me_kind e ∈ ["delete-batch"; "recovery"] ∧ me_blocks_new_mutation e = true).
Proof.
  intros H. pose proof H as H0. unfold scan in H0. apply bind_Ok in H0 as (u & Hd & Hs).
  apply fail_if_Ok in Hd. ok_inv. apply scan_files_Ok, Forall2_length in Hs. unfold by_name in Hs.
  rewrite (Permutation_length (merge_sort_Permutation name_le files)) in Hs.
  split; [done|]. split; [lia|]. split; [done|]. split; [done|].
  intros file Hin. destruct (scan_Ok_entry _ _ _ _ _ H Hin) as (e & He & Hf).
  apply scan_file_Ok in Hf as (Hn & Hsec & rs & Hr & _ & Hro). split; [done|]. split; [done|].
  exists rs, e. split; [done|]. split; [done|]. split; [by apply ro_kind|].
  destruct (ro_accepted _ _ Hro) as [?|Hk]; [by left|right]. split; [done|by apply (ro_unrouted _ _ Hro)].
Qed.

(** C22: a new mutation is let through only when nothing is in flight: every
    journal of the directory - except those of the excluded kind - is accepted,
    and either holds only its baseline or cannot be extended by any record. *)
Theorem unblocked_registry_settled euid root files excluding :
  blocks_new_mutation euid root files excluding = Ok false →
  ∀ file, file ∈ files → ∃ rs, read euid file.2 = Ok rs
    ∧ ((∃ k, excluding = Some k ∧ kind_of rs = VStr k) ∨ accepted rs = true ∧ settled rs).
Proof.
  unfold blocks_new_mutation. intros (es & Hs & H)%bind_Ok file Hin. apply Ok_inj in H.
  destruct (scan_Ok_entry _ _ _ _ _ Hs Hin) as (e & He & Hf).
  apply scan_file_Ok in Hf as (_ & _ & rs & Hr & _ & Hro). exists rs. split; [done|].
  destruct (me_blocks_new_mutation e) eqn:Hb; [left|right; by apply (ro_settled _ _ Hro)].
  assert (∀ x, x ∈ es → (me_blocks_new_mutation x
    && match excluding with None => true | Some k => negb (String.eqb (me_kind x) k) end)%bool = false) as Hall.
  { clear -H. induction es as [|y es IH]; [by intros x ?%elem_of_nil|]. cbn [existsb] in H.
    apply orb_false_iff in H as [Hy Hes]. intros x [->|Hx]%elem_of_cons; auto. }
  specialize (Hall e He). rewrite Hb in Hall. cbn [andb] in Hall.
  destruct excluding as [k|]; [|done]. exists k. split; [done|].
  apply negb_false_iff, String.eqb_eq in Hall. rewrite (ro_kind _ _ Hro). by rewrite Hall.
Qed.

(** a mutation that awaits its verification after the reboot blocks every
    new one. *)
Theorem post_reboot_pending_blocks euid root files es e :
  scan euid root files = Ok es → e ∈ es → me_post_reboot_pending e = true →
  blocks_new_mutation euid root files None = Ok true.
Proof.
  intros Hs He Hp. unfold blocks_new_mutation. rewrite Hs. cbn [mbind result_bind]. f_equal.
  apply existsb_exists. exists e. split; [by apply list_elem_of_In|]. rewrite andb_true_r.
  unfold scan in Hs. apply bind_Ok in Hs as (u & _ & Hs). apply scan_files_Ok in Hs.
  apply list_elem_of_lookup in He as [i Hi].
  destruct (Forall2_lookup_r _ _ _ _ _ Hs Hi) as (file & _ & Hf).
  apply scan_file_Ok in Hf as (_ & _ & rs & _ & _ & Hro). by apply (ro_pending _ _ Hro).
Qed.
