(* ===== verification/UserPolicy.v ===== *)
(** * User policy ([src/src/t2_user_policy.py])

    The authorization boundary between a caller and the mapped user a request
    targets.  Evidence, requests and grants hold whatever the broker was given;
    the validators check their types. *)
From S2P Require Import Prelude PyValue Sha256 UserMapping UserReadiness.

#[local] Open Scope Z_scope.

Definition MAX_POLICY_LIFETIME_NS : Z := 5 * 60 * 1000000000.
Definition ACTIVATE_ACTION : string := "org.t2linux.touchid.activate-user".

Record OperationPolicy := Policy { op_capability : string; op_action : string; op_mutation : bool }.

Definition OPERATION_POLICIES (operation : string) : option OperationPolicy :=
  list_to_map (M := gmap string OperationPolicy)
    [("verify", Policy "verify" "org.t2linux.touchid.verify" false);
     ("inventory", Policy "verify" "org.t2linux.touchid.inventory" false);
     ("enroll", Policy "enroll" "org.t2linux.touchid.enroll" true);
     ("rename", Policy "identity-management" "org.t2linux.touchid.identity-management" true);
     ("delete-one", Policy "identity-management" "org.t2linux.touchid.identity-management" true)]
  !! operation.

Record CallerEvidence := Caller {
  ce_linux_uid : value;
  ce_linux_account_generation : value;
  ce_authenticated : value;
  ce_active_local_session : value;
}.

Record OperationRequest := OpRequest {
  or_operation : string;
  or_target_linux_uid : value;
  or_operation_id : value;
  or_linux_boot_uuid : value;
  or_runtime_generation : value;
  or_observed_monotonic_ns : value;
  or_modification_allowed : value;
}.

Record PolicyGrant := Grant {
  pg_authorization_id : value;
  pg_action : value;
  pg_caller_linux_uid : value;
  pg_linux_account_generation : value;
  pg_target_linux_uid : value;
  pg_mapping_generation : value;
  pg_operation_id : value;
  pg_linux_boot_uuid : value;
  pg_runtime_generation : value;
  pg_issued_monotonic_ns : value;
  pg_expires_monotonic_ns : value;
  pg_authorized : value;
}.

Record PolicyBinding := Binding {
  pb_mapping_generation : value;
  pb_linux_account_generation : value;
  pb_operation_id : value;
  pb_linux_boot_uuid : value;
  pb_runtime_generation : value;
  pb_expires_monotonic_ns : value;
  pb_caller_linux_uid : value;
  pb_target_linux_uid : value;
  pb_capability : string;
  pb_operation_authorization_id : value;
  pb_activation_authorization_id : value;
}.

Record UserPolicyDecision := PolicyDecision {
  pd_state : string;
  pd_operation : string;
  pd_policy_action : string;
  pd_operation_permitted : bool;
  pd_activation_required : bool;
  pd_activation_permitted : bool;
  pd_readiness_state : option string;
  pd_quarantine : bool;
  pd_selected_mapping : option UserMapping;
  pd_binding : option PolicyBinding;
}.

(** [UserPolicyDecision.redacted] *)
Definition policy_redacted (d : UserPolicyDecision) : value :=
  dict [("schema_version", VInt 1); ("state", VStr (pd_state d)); ("operation", VStr (pd_operation d));
        ("policy_action", VStr (pd_policy_action d)); ("operation_permitted", VBool (pd_operation_permitted d));
        ("activation_required", VBool (pd_activation_required d));
        ("activation_permitted", VBool (pd_activation_permitted d));
        ("readiness_state", match pd_readiness_state d with Some s => VStr s | None => VNone end);
        ("quarantine", VBool (pd_quarantine d)); ("identifiers_redacted", VBool true)].

#[local] Abbreviation perr := UserPolicyError.
#[local] Abbreviation refuse b msg := (fail_if b UserPolicyError msg).

(** [_canonical_uuid] *)
Definition policy_uuid (v : value) (label : string) : result string :=
  match v with
  | VStr s =>
      match uuid_UUID s with
      | Some parsed =>
          _ ← refuse ((parsed =? 0) || negb (String.eqb (uuid_str parsed) s))
                (label +:+ " is not a canonical nonzero UUID");
          Ok s
      | None => raise perr (label +:+ " is not a canonical UUID")
      end
  | _ => raise perr (label +:+ " is not a canonical UUID")
  end.

(** [except t2_user_mapping.UserMappingError as error: raise
    UserPolicyError(str(error))] *)
Definition as_policy {A} (m : result A) : result A :=
  except (λ c, bool_decide (c = UserMappingError)) (λ e, Exn perr (exn_msg e)) m.

Definition policy_uid (v : value) (label : string) : result Z := as_policy (m_unsigned v label 1).
Definition policy_digest (v : value) (label : string) : result string := as_policy (m_sha256 v label).
Definition policy_monotonic (v : value) (label : string) : result Z :=
  _ ← refuse (negb (is_int v) || (int_value v <? 0) || (Z.shiftl 1 63 <=? int_value v))
        (label +:+ " is outside the monotonic-time range");
  Ok (int_value v).

Definition validate_caller (caller : CallerEvidence) : result unit :=
  _ ← policy_uid (ce_linux_uid caller) "caller Linux UID";
  _ ← policy_digest (ce_linux_account_generation caller) "caller account generation";
  refuse (negb (is_bool (ce_authenticated caller)) || negb (is_bool (ce_active_local_session caller)))
    "caller authentication state must be Boolean".

Definition validate_request (request : OperationRequest) : result OperationPolicy :=
  match OPERATION_POLICIES (or_operation request) with
  | None => raise perr "operation is unsupported"
  | Some policy =>
      _ ← policy_uid (or_target_linux_uid request) "target Linux UID";
      _ ← policy_uuid (or_operation_id request) "operation ID";
      _ ← policy_uuid (or_linux_boot_uuid request) "Linux boot UUID";
      _ ← policy_uuid (or_runtime_generation request) "runtime generation";
      _ ← policy_monotonic (or_observed_monotonic_ns request) "observation time";
      _ ← refuse (negb (is_bool (or_modification_allowed request))) "modification policy must be Boolean";
      Ok policy
  end.

Definition validate_grant (grant : PolicyGrant) (request : OperationRequest) : result unit :=
  _ ← policy_uuid (pg_authorization_id grant) "authorization ID";
  _ ← refuse (negb (is_str (pg_action grant)) || String.eqb (str_value (pg_action grant)) "")
        "policy action is invalid";
  _ ← policy_uid (pg_caller_linux_uid grant) "grant caller Linux UID";
  _ ← policy_digest (pg_linux_account_generation grant) "grant account generation";
  _ ← policy_uid (pg_target_linux_uid grant) "grant target Linux UID";
  _ ← policy_digest (pg_mapping_generation grant) "grant mapping generation";
  _ ← policy_uuid (pg_operation_id grant) "grant operation ID";
  _ ← policy_uuid (pg_linux_boot_uuid grant) "grant Linux boot UUID";
  _ ← policy_uuid (pg_runtime_generation grant) "grant runtime generation";
  issued ← policy_monotonic (pg_issued_monotonic_ns grant) "grant issue time";
  expires ← policy_monotonic (pg_expires_monotonic_ns grant) "grant expiry time";
  _ ← refuse ((expires <=? issued) || (MAX_POLICY_LIFETIME_NS <? expires - issued)
              || negb ((issued <=? int_value (or_observed_monotonic_ns request))
                       && (int_value (or_observed_monotonic_ns request) <=? expires)))
        "policy grant is expired, premature, or overlong";
  refuse (negb (is_bool (pg_authorized grant))) "policy grant decision must be Boolean".

Definition grant_bound (grant : PolicyGrant) (action : string) (caller : CallerEvidence)
    (request : OperationRequest) (mapping_generation : string) : bool :=
  (pg_action grant ==? VStr action)
  && (pg_caller_linux_uid grant ==? ce_linux_uid caller)
  && (pg_linux_account_generation grant ==? ce_linux_account_generation caller)
  && (pg_target_linux_uid grant ==? or_target_linux_uid request)
  && (pg_mapping_generation grant ==? VStr mapping_generation)
  && (pg_operation_id grant ==? or_operation_id request)
  && (pg_linux_boot_uuid grant ==? or_linux_boot_uuid request)
  && (pg_runtime_generation grant ==? or_runtime_generation request).

(** [_decision] with its defaults, the common denial. *)
Definition decision (request : OperationRequest) (policy : OperationPolicy) (state : string)
    (selected : option UserMapping) (readiness_state : option string)
    (permitted activation_required activation_permitted quarantine : bool)
    (binding : option PolicyBinding) : UserPolicyDecision :=
  PolicyDecision state (or_operation request) (op_action policy) permitted activation_required
    activation_permitted readiness_state quarantine selected binding.
Definition denied (request : OperationRequest) (policy : OperationPolicy) (state : string)
    (selected : option UserMapping) (readiness_state : option string) : UserPolicyDecision :=
  decision request policy state selected readiness_state false false false false None.
Definition quarantined (request : OperationRequest) (policy : OperationPolicy) (state : string)
    (readiness_state : option string) : UserPolicyDecision :=
  decision request policy state None readiness_state false false false true None.

Definition binding_of (mapping_set : UserMappingSet) (request : OperationRequest) (caller : CallerEvidence)
    (policy : OperationPolicy) (operation_grant : PolicyGrant) (activation_grant : option PolicyGrant)
    : PolicyBinding :=
  Binding (VStr (ums_generation mapping_set)) (ce_linux_account_generation caller)
    (or_operation_id request) (or_linux_boot_uuid request) (or_runtime_generation request)
    (match activation_grant with
     | Some g => VInt (int_value (pg_expires_monotonic_ns operation_grant)
                       `min` int_value (pg_expires_monotonic_ns g))
     | None => pg_expires_monotonic_ns operation_grant
     end)
    (ce_linux_uid caller) (or_target_linux_uid request) (op_capability policy)
    (pg_authorization_id operation_grant)
    (match activation_grant with Some g => pg_authorization_id g | None => VNone end).

Definition NOT_ACTIVE_STATES : list string := ["alias-absent"; "device-locked"; "before-first-unlock"].

(** The activation branch of [authorize]. *)
Definition authorize_activation (mapping_set : UserMappingSet) (request : OperationRequest)
    (caller : CallerEvidence) (policy : OperationPolicy) (selected : UserMapping)
    (readiness : ReadinessDecision) (operation_grant : PolicyGrant)
    (activation_grant : option PolicyGrant) : result UserPolicyDecision :=
  match activation_grant with
  | None => Ok (decision request policy "activation-authorization-required" (Some selected)
                  (Some (rd_state readiness)) false true false false None)
  | Some g =>
      _ ← validate_grant g request;
      if negb (grant_bound g ACTIVATE_ACTION caller request (ums_generation mapping_set)) then
        Ok (denied request policy "activation-authorization-binding-mismatch" None (Some (rd_state readiness)))
      else if negb (truthy (pg_authorized g)) then
        Ok (denied request policy "activation-policy-denied" None (Some (rd_state readiness)))
      else
        Ok (decision request policy "activation-authorized" (Some selected) (Some (rd_state readiness))
              false true true false
              (Some (binding_of mapping_set request caller policy operation_grant (Some g))))
  end.

(** The decision on the target's readiness. *)
Definition authorize_readiness (mapping_set : UserMappingSet) (request : OperationRequest)
    (caller : CallerEvidence) (policy : OperationPolicy) (selected : UserMapping)
    (readiness : ReadinessDecision) (operation_grant : PolicyGrant)
    (activation_grant : option PolicyGrant) : result UserPolicyDecision :=
  if rd_quarantine readiness then
    Ok (quarantined request policy "target-quarantined" (Some (rd_state readiness)))
  else if String.eqb (rd_state readiness) "ready" then
    Ok (decision request policy "authorized" (Some selected) (Some (rd_state readiness)) true false false false
          (Some (binding_of mapping_set request caller policy operation_grant None)))
  else if bool_decide (rd_state readiness ∈ NOT_ACTIVE_STATES) then
    authorize_activation mapping_set request caller policy selected readiness operation_grant activation_grant
  else Ok (denied request policy "target-not-ready" (Some selected) (Some (rd_state readiness))).

(** [except t2_user_readiness.UserReadinessError] *)
Definition policy_assess (selected : UserMapping) (capability : string) (persistent : PersistentEvidence)
    (alias : AliasEvidence) : result ReadinessDecision :=
  except (λ c, bool_decide (c = UserReadinessError))
    (λ _, Exn perr "target readiness evidence is invalid") (assess selected capability persistent alias).

Definition authorize (mapping_set : UserMappingSet) (request : OperationRequest) (caller : CallerEvidence)
    (persistent : PersistentEvidence) (alias : AliasEvidence) (operation_grant : option PolicyGrant)
    (activation_grant : option PolicyGrant) : result UserPolicyDecision :=
  policy ← validate_request request;
  _ ← validate_caller caller;
  if ce_linux_uid caller !=? or_target_linux_uid request then
    Ok (denied request policy "delegation-disabled" None None)
  else if negb (truthy (ce_authenticated caller)) || negb (truthy (ce_active_local_session caller)) then
    Ok (denied request policy "caller-session-denied" None None)
  else match resolve mapping_set (or_target_linux_uid request) (op_capability policy) with
  | Raise e =>
      if bool_decide (exn_cls e = UserMappingError)
      then Ok (denied request policy "mapping-or-capability-denied" None None) else Raise e
  | Ok selected =>
      if ce_linux_account_generation caller !=? VStr (um_linux_account_generation selected) then
        Ok (quarantined request policy "caller-account-generation-mismatch" None)
      else match operation_grant with
      | None => Ok (denied request policy "operation-authorization-required" (Some selected) None)
      | Some g =>
          _ ← validate_grant g request;
          if negb (grant_bound g (op_action policy) caller request (ums_generation mapping_set)) then
            Ok (denied request policy "operation-authorization-binding-mismatch" None None)
          else if negb (truthy (pg_authorized g)) then
            Ok (denied request policy "operation-policy-denied" None None)
          else if op_mutation policy && negb (truthy (or_modification_allowed request)) then
            Ok (denied request policy "fingerprint-modification-disabled" (Some selected) None)
          else
            readiness ← policy_assess selected (op_capability policy) persistent alias;
            authorize_readiness mapping_set request caller policy selected readiness g activation_grant
      end
  end.

(** The shape checks of [require_bound_authority]. *)
Definition validate_binding (binding : PolicyBinding) : result unit :=
  _ ← policy_digest (pb_mapping_generation binding) "binding mapping generation";
  _ ← policy_digest (pb_linux_account_generation binding) "binding account generation";
  _ ← policy_uuid (pb_operation_id binding) "binding operation ID";
  _ ← policy_uuid (pb_linux_boot_uuid binding) "binding Linux boot UUID";
  _ ← policy_uuid (pb_runtime_generation binding) "binding runtime generation";
  expiry ← policy_monotonic (pb_expires_monotonic_ns binding) "binding expiry time";
  _ ← refuse (expiry =? 0) "binding expiry time is invalid";
  _ ← policy_uid (pb_caller_linux_uid binding) "binding caller Linux UID";
  _ ← policy_uid (pb_target_linux_uid binding) "binding target Linux UID";
  _ ← policy_uuid (pb_operation_authorization_id binding) "binding operation authorization ID";
  if is_none (pb_activation_authorization_id binding) then Ok tt
  else _ ← policy_uuid (pb_activation_authorization_id binding) "binding activation authorization ID";
       Ok tt.

(** The comparison of a decision with the operation that consumes it. *)
Definition authority_stale (d : UserPolicyDecision) (binding : PolicyBinding) (mapping_set : UserMappingSet)
    (selected : UserMapping) (capability linux_boot_uuid runtime_generation : value) (observed : Z)
    (activation : bool) : bool :=
  let expected_state := if activation then "activation-authorized" else "authorized" in
  negb (String.eqb (pd_state d) expected_state)
  || negb (bool_decide (pd_selected_mapping d = Some selected))
  || match OPERATION_POLICIES (pd_operation d) with
     | None => true
     | Some p => negb (String.eqb (pd_policy_action d) (op_action p))
                 || negb (String.eqb (pb_capability binding) (op_capability p))
     end
  || (pb_mapping_generation binding !=? VStr (ums_generation mapping_set))
  || (pb_linux_account_generation binding !=? VStr (um_linux_account_generation selected))
  || (pb_linux_boot_uuid binding !=? linux_boot_uuid)
  || (pb_runtime_generation binding !=? runtime_generation)
  || (int_value (pb_expires_monotonic_ns binding) <? observed)
  || (pb_target_linux_uid binding !=? VInt (um_linux_uid selected))
  || (pb_caller_linux_uid binding !=? VInt (um_linux_uid selected))
  || (VStr (pb_capability binding) !=? capability)
  || negb (bool_decide (selected ∈ ums_mappings mapping_set))
  || activation && (negb (pd_activation_permitted d) || pd_operation_permitted d)
  || negb activation && (negb (pd_operation_permitted d) || pd_activation_permitted d)
  || activation && is_none (pb_activation_authorization_id binding).

Definition require_bound_authority (d : UserPolicyDecision) (mapping_set : UserMappingSet)
    (selected : UserMapping) (capability linux_boot_uuid runtime_generation observed_monotonic_ns : value)
    (activation : bool) : result value :=
  _ ← policy_uuid linux_boot_uuid "Linux boot UUID";
  _ ← policy_uuid runtime_generation "runtime generation";
  observed ← policy_monotonic observed_monotonic_ns "authority consumption time";
  match pd_binding d with
  | None => raise perr "policy decision has no typed binding"
  | Some binding =>
      _ ← except (λ c, bool_decide (c = UserPolicyError))
            (λ _, Exn perr "policy decision binding is malformed") (validate_binding binding);
      _ ← refuse (authority_stale d binding mapping_set selected capability linux_boot_uuid
                    runtime_generation observed activation)
            "policy decision is not bound to this operation";
      Ok (pb_operation_id binding)
  end.

(** ** What a decision rests on *)

(** A validated grant for this action, caller, request and mapping file. *)
Record granted (g : PolicyGrant) (action : string) (caller : CallerEvidence) (request : OperationRequest)
    (generation : string) : Prop := {
  gr_valid : validate_grant g request = Ok tt;
  gr_action : pg_action g = VStr action;
  gr_caller : pg_caller_linux_uid g = ce_linux_uid caller;
  gr_account : pg_linux_account_generation g = ce_linux_account_generation caller;
  gr_target : pg_target_linux_uid g = or_target_linux_uid request;
  gr_mapping : pg_mapping_generation g = VStr generation;
  gr_operation : pg_operation_id g = or_operation_id request;
  gr_boot : pg_linux_boot_uuid g = or_linux_boot_uuid request;
  gr_runtime : pg_runtime_generation g = or_runtime_generation request;
  gr_authorized : pg_authorized g = VBool true;
}.

(** Everything [authorize] establishes before it looks at the target's
    readiness [rd]. *)
Record eligible (ms : UserMappingSet) (r : OperationRequest) (c : CallerEvidence) (p : PersistentEvidence)
    (a : AliasEvidence) (og : option PolicyGrant) (policy : OperationPolicy) (m : UserMapping)
    (g : PolicyGrant) (rd : ReadinessDecision) : Prop := {
  el_request : validate_request r = Ok policy;
  el_caller : validate_caller c = Ok tt;
  el_self : ce_linux_uid c = or_target_linux_uid r;
  el_authenticated : ce_authenticated c = VBool true;
  el_session : ce_active_local_session c = VBool true;
  el_mapping : resolve ms (or_target_linux_uid r) (op_capability policy) = Ok m;
  el_account : ce_linux_account_generation c = VStr (um_linux_account_generation m);
  el_presented : og = Some g;
  el_granted : granted g (op_action policy) c r (ums_generation ms);
  el_mutation : op_mutation policy = true → or_modification_allowed r = VBool true;
  el_assessed : assess m (op_capability policy) p a = Ok rd;
}.

(** ** The validators *)

Lemma policy_uuid_Ok v l s : policy_uuid v l = Ok s ↔ v = VStr s ∧ uuid_text s.
Proof.
  unfold policy_uuid, uuid_text. split.
  - destruct v as [| | |s'| | |]; try done. destruct (uuid_UUID s') as [p|] eqn:Hp; [|done].
    intros H. ok_inv. split; [done|]. exists p. split; [done|].
    by rewrite <-Z.eqb_neq, <-String.eqb_eq.
  - intros (-> & z & -> & Hz & ->). rewrite String.eqb_refl. apply Z.eqb_neq in Hz. by rewrite Hz.
Qed.

Lemma policy_uid_Ok v l z : policy_uid v l = Ok z ↔ v = VInt z ∧ 1 <= z < UINT32_MAX.
Proof. unfold policy_uid, as_policy. by rewrite except_Ok, m_unsigned_Ok. Qed.

Lemma policy_digest_Ok v l s : policy_digest v l = Ok s ↔ v = VStr s ∧ sha256_text s.
Proof. unfold policy_digest, as_policy. by rewrite except_Ok, m_sha256_Ok. Qed.

Lemma policy_monotonic_Ok v l z : policy_monotonic v l = Ok z ↔ v = VInt z ∧ 0 <= z < 2 ^ 63.
Proof.
  unfold policy_monotonic. change (Z.shiftl 1 63) with (2 ^ 63). split.
  - intros H. ok_inv. destruct v; try done. cbn [int_value] in *. split; [done|lia].
  - intros [-> Hz]. cbn [is_int int_value negb orb].
    replace (z <? 0) with false by lia. by replace (2 ^ 63 <=? z) with false by lia.
Qed.

Lemma is_bool_Ok v : is_bool v = true → ∃ b, v = VBool b.
Proof. destruct v; try done. eauto. Qed.

Lemma validate_caller_Ok c u : validate_caller c = Ok u → ∃ uid gen auth session,
  c = Caller (VInt uid) (VStr gen) (VBool auth) (VBool session) ∧ 1 <= uid < UINT32_MAX ∧ sha256_text gen.
Proof.
  unfold validate_caller. intros H. apply bind_Ok in H as (uid & [Hu W1]%policy_uid_Ok & H).
  apply bind_Ok in H as (gen & [Hg W2]%policy_digest_Ok & H). apply fail_if_Ok in H.
  apply orb_false_iff in H as [Ha%negb_false_iff%is_bool_Ok Hs%negb_false_iff%is_bool_Ok].
  destruct c, Ha as [auth Ha], Hs as [session Hs]. simpl in *. subst. by exists uid, gen, auth, session.
Qed.

Lemma validate_request_Ok r policy : validate_request r = Ok policy → ∃ target id boot rt now modify,
  r = OpRequest (or_operation r) (VInt target) (VStr id) (VStr boot) (VStr rt) (VInt now) (VBool modify)
  ∧ OPERATION_POLICIES (or_operation r) = Some policy
  ∧ 1 <= target < UINT32_MAX ∧ uuid_text id ∧ uuid_text boot ∧ uuid_text rt.
Proof.
  unfold validate_request. destruct (OPERATION_POLICIES (or_operation r)) as [q|] eqn:Hq; [|done].
  intros H. apply bind_Ok in H as (target & [Ht W3]%policy_uid_Ok & H).
  apply bind_Ok in H as (id & [Hi W4]%policy_uuid_Ok & H).
  apply bind_Ok in H as (boot & [Hb W5]%policy_uuid_Ok & H).
  apply bind_Ok in H as (rt & [Hr W6]%policy_uuid_Ok & H).
  apply bind_Ok in H as (now & [Hn W7]%policy_monotonic_Ok & H).
  apply bind_Ok in H as (u0 & Hm%fail_if_Ok%negb_false_iff%is_bool_Ok & H). apply Ok_inj in H as ->.
  destruct r, Hm as [modify Hm]. simpl in *. subst. by exists target, id, boot, rt, now, modify.
Qed.

Lemma validate_grant_Ok g r u : validate_grant g r = Ok u →
  ∃ auth action uid gen target mgen id boot rt issued expires decided,
  g = Grant (VStr auth) (VStr action) (VInt uid) (VStr gen) (VInt target) (VStr mgen) (VStr id) (VStr boot)
        (VStr rt) (VInt issued) (VInt expires) (VBool decided)
  ∧ uuid_text auth ∧ sha256_text mgen ∧ 0 <= issued ∧ issued < expires < 2 ^ 63
  ∧ expires - issued <= MAX_POLICY_LIFETIME_NS
  ∧ issued <= int_value (or_observed_monotonic_ns r) <= expires.
Proof.
  unfold validate_grant. intros H.
  apply bind_Ok in H as (auth & [Ea W8]%policy_uuid_Ok & H).
  apply bind_Ok in H as (u0 & Hact%fail_if_Ok & H). apply orb_false_iff in Hact as [Hact%negb_false_iff _].
  apply bind_Ok in H as (uid & [Eu W9]%policy_uid_Ok & H).
  apply bind_Ok in H as (gen & [Eg W10]%policy_digest_Ok & H).
  apply bind_Ok in H as (target & [Et W11]%policy_uid_Ok & H).
  apply bind_Ok in H as (mgen & [Em W12]%policy_digest_Ok & H).
  apply bind_Ok in H as (id & [Ei W13]%policy_uuid_Ok & H).
  apply bind_Ok in H as (boot & [Eb W14]%policy_uuid_Ok & H).
  apply bind_Ok in H as (rt & [Er W15]%policy_uuid_Ok & H).
  apply bind_Ok in H as (issued & [Es W16]%policy_monotonic_Ok & H).
  apply bind_Ok in H as (expires & [Ee W17]%policy_monotonic_Ok & H).
  apply bind_Ok in H as (u1 & Htime%fail_if_Ok & H). apply fail_if_Ok, negb_false_iff, is_bool_Ok in H as [b Hb].
  destruct g. simpl in *. subst. destruct pg_action0 as [| | |action| | |]; try done.
  exists auth, action, uid, gen, target, mgen, id, boot, rt, issued, expires, b.
  split_and!; try done; lia.
Qed.

(** Comparisons of validated fields are equalities. *)
Ltac py_eqs :=
  repeat match goal with
  | H : (_ && _)%bool = true |- _ => apply andb_true_iff in H as [? ?]
  | H : (_ || _)%bool = false |- _ => apply orb_false_iff in H as [? ?]
  | H : negb _ = false |- _ => apply negb_false_iff in H
  | H : negb _ = true |- _ => apply negb_true_iff in H
  | H : VStr _ ==? VStr _ = true |- _ => apply py_eq_strs in H
  | H : VInt _ ==? VInt _ = true |- _ => apply py_eq_ints in H
  end.

(** On validated values, the binding check and the decision of a grant are
    the [granted] predicate. *)
Lemma granted_iff g action c r generation policy uc :
  validate_request r = Ok policy → validate_caller c = Ok uc → validate_grant g r = Ok tt →
  granted g action c r generation ↔
  grant_bound g action c r generation = true ∧ truthy (pg_authorized g) = true.
Proof.
  intros (target & id & boot & rt & now & modify & -> & _)%validate_request_Ok
    (uid & gen & auth & session & -> & _)%validate_caller_Ok Hg.
  split.
  - intros [? E1 E2 E3 E4 E5 E6 E7 E8 E9]. unfold grant_bound.
    by rewrite E1, E2, E3, E4, E5, E6, E7, E8, E9, !py_eq_refl.
  - pose proof Hg as Hg'.
    apply validate_grant_Ok in Hg' as (? & ? & ? & ? & ? & ? & ? & ? & ? & ? & ? & b & -> & _).
    unfold grant_bound. simpl. intros [Hb Ht]. py_eqs. subst. by split.
Qed.

Lemma resolve_in ms uid capability m : resolve ms (VInt uid) capability = Ok m →
  m ∈ ums_mappings ms ∧ um_linux_uid m = uid.
Proof.
  unfold resolve. intros H. apply bind_Ok in H as (z & [[= <-] _]%m_unsigned_Ok & H).
  apply bind_Ok in H as (? & _ & H).
  destruct (filter _ _) as [|m' [|? ?]] eqn:Hf; try done.
  assert (m' ∈ filter (λ m, um_linux_uid m = uid) (ums_mappings ms)) as [Hu Hin]%list_elem_of_filter
    by (rewrite Hf; apply list_elem_of_here).
  apply bind_Ok in H as (? & _ & H). apply bind_Ok in H as (? & _ & H). by apply Ok_inj in H as <-.
Qed.

Lemma policy_assess_Ok m capability p a rd :
  policy_assess m capability p a = Ok rd ↔ assess m capability p a = Ok rd.
Proof. apply except_Ok. Qed.

(** The denials: no authority of either kind. *)
Definition powerless (d : UserPolicyDecision) : Prop :=
  pd_operation_permitted d = false ∧ pd_activation_permitted d = false ∧ pd_binding d = None.

(** [authorize] denies, or reaches the readiness of an eligible target. *)
Lemma authorize_cases ms r c p a og ag d : authorize ms r c p a og ag = Ok d →
  powerless d ∧ (∀ policy m g rd, ¬ eligible ms r c p a og policy m g rd)
  ∨ ∃ policy m g rd, eligible ms r c p a og policy m g rd
      ∧ authorize_readiness ms r c policy m rd g ag = Ok d.
Proof.
  unfold authorize. intros H. apply bind_Ok in H as (policy & Hr & H).
  apply bind_Ok in H as ([] & Hc & H).
  pose proof (validate_request_Ok _ _ Hr) as (target & id & boot & rt & now & modify & Er & _).
  pose proof (validate_caller_Ok _ _ Hc) as (uid & gen & auth & session & Ec & _).
  destruct (ce_linux_uid c !=? or_target_linux_uid r) eqn:Hself.
  { apply Ok_inj in H as <-. left. split; [done|]. intros ???? E. by rewrite (el_self _ _ _ _ _ _ _ _ _ _ E), py_eq_refl in Hself. }
  destruct (negb _ || _) eqn:Hsess in H.
  { apply Ok_inj in H as <-. left. split; [done|]. intros ???? [? ? ? E1 E2]. by rewrite E1, E2 in Hsess. }
  destruct (resolve _ _ _) as [m|e] eqn:Hm.
  2: { destruct (bool_decide _); [|done]. apply Ok_inj in H as <-. left. split; [done|].
       intros ???? [E0 ? ? ? ? E1]. congruence. }
  destruct (_ !=? VStr _) eqn:Hgen in H.
  { apply Ok_inj in H as <-. left. split; [done|]. intros ???? [E0 ? ? ? ? E1 E2].
    rewrite Hr in E0. apply Ok_inj in E0 as <-. rewrite Hm in E1. apply Ok_inj in E1 as <-.
    by rewrite E2, py_eq_refl in Hgen. }
  destruct og as [g|].
  2: { apply Ok_inj in H as <-. left. split; [done|]. by intros ???? [? ? ? ? ? ? ? E]. }
  apply bind_Ok in H as ([] & Hg & H). pose proof (λ act, granted_iff g act c r (ums_generation ms) policy _ Hr Hc Hg) as Hiff.
  destruct (negb (grant_bound _ _ _ _ _)) eqn:Hb in H.
  { apply Ok_inj in H as <-. left. split; [done|]. intros ???? [E0 ? ? ? ? ? ? [= <-] E].
    rewrite Hr in E0. apply Ok_inj in E0 as <-. apply Hiff in E as [E _]. by rewrite E in Hb. }
  destruct (negb (truthy (pg_authorized g))) eqn:Hd in H.
  { apply Ok_inj in H as <-. left. split; [done|]. intros ???? [E0 ? ? ? ? ? ? [= <-] E].
    rewrite Hr in E0. apply Ok_inj in E0 as <-. apply Hiff in E as [_ E]. by rewrite E in Hd. }
  destruct (op_mutation policy && _) eqn:Hmod in H.
  { apply Ok_inj in H as <-. left. split; [done|]. intros ???? [E0 ? ? ? ? ? ? _ _ E].
    rewrite Hr in E0. apply Ok_inj in E0 as <-. apply andb_true_iff in Hmod as [Hmod Hn]. by rewrite (E Hmod) in Hn. }
  apply bind_Ok in H as (rd & Hrd%policy_assess_Ok & H). right. exists policy, m, g, rd. split; [|done].
  clear Hiff. split; try done.
  - rewrite Ec, Er in Hself |- *. simpl in *. py_eqs. by subst.
  - rewrite Ec in Hsess |- *. simpl in *. by destruct auth, session.
  - rewrite Ec in Hsess |- *. simpl in *. by destruct auth, session.
  - rewrite Ec in Hgen |- *. simpl in *. py_eqs. by subst.
  - apply (granted_iff _ _ _ _ _ _ _ Hr Hc Hg). by py_eqs.
  - intros Hmut. rewrite Hmut in Hmod. rewrite Er in Hmod |- *. simpl in *. by destruct modify.
Qed.

(** ** The readiness of an eligible target *)

Lemma assess_not_quarantined m capability p a rd : assess m capability p a = Ok rd →
  rd_state rd = "ready" ∨ rd_state rd ∈ NOT_ACTIVE_STATES → rd_quarantine rd = false.
Proof.
  intros H%assess_cases Hs. destruct H as [| |? ? ? ?| |z ? ? ? ? ?]; simpl in *; try done;
    try (exfalso; revert Hs; apply (bool_decide_unpack _); exact I).
  revert Hs. unfold assess_lock_state, NOT_ACTIVE_STATES. repeat case_match; simpl; try done;
    intros Hs; exfalso; revert Hs; apply (bool_decide_unpack _); exact I.
Qed.

(** What an eligible target's readiness gives. *)
Lemma authorize_readiness_cases ms r c policy m rd g ag d capability p a :
  assess m capability p a = Ok rd → validate_request r = Ok policy → validate_caller c = Ok tt →
  authorize_readiness ms r c policy m rd g ag = Ok d →
  (rd_state rd = "ready" ∧ d = decision r policy "authorized" (Some m) (Some (rd_state rd)) true false false
     false (Some (binding_of ms r c policy g None)))
  ∨ (rd_state rd ∈ NOT_ACTIVE_STATES ∧ ∃ g2, ag = Some g2
     ∧ granted g2 ACTIVATE_ACTION c r (ums_generation ms)
     ∧ d = decision r policy "activation-authorized" (Some m) (Some (rd_state rd)) false true true
         false (Some (binding_of ms r c policy g (Some g2))))
  ∨ (powerless d ∧ rd_state rd ≠ "ready"
     ∧ (rd_state rd ∈ NOT_ACTIVE_STATES → ∀ g2, ag = Some g2 → ¬ granted g2 ACTIVATE_ACTION c r (ums_generation ms))).
Proof.
  intros Ha Hr Hc. pose proof (assess_not_quarantined _ _ _ _ _ Ha) as Hq.
  unfold authorize_readiness. destruct (rd_quarantine rd).
  { intros [= <-]. right; right. split; [done|]. split; [naive_solver|]. intros Hin. naive_solver. }
  destruct (String.eqb_spec (rd_state rd) "ready") as [Hs|Hs]; [intros [= <-]; by left|].
  destruct (bool_decide_reflect (rd_state rd ∈ NOT_ACTIVE_STATES)) as [Hin|Hin].
  2: { intros [= <-]. right; right. by split_and!. }
  unfold authorize_activation. destruct ag as [g2|].
  2: { intros [= <-]. right; right. by split_and!. }
  intros H. apply bind_Ok in H as ([] & Hg & H).
  pose proof (granted_iff g2 ACTIVATE_ACTION c r (ums_generation ms) policy _ Hr Hc Hg) as Hiff.
  destruct (grant_bound _ _ _ _ _) eqn:Hb; simpl in H.
  2: { apply Ok_inj in H as <-. right; right. split_and!; [done..|]. intros _ ? [= <-]. naive_solver. }
  destruct (truthy _) eqn:Ht; simpl in H; apply Ok_inj in H as <-.
  - right; left. split; [done|]. exists g2. split_and!; try done. by apply Hiff.
  - right; right. split_and!; [done..|]. intros _ ? [= <-]. naive_solver.
Qed.

Lemma eligible_functional ms r c p a og policy m g rd policy' m' g' rd' :
  eligible ms r c p a og policy m g rd → eligible ms r c p a og policy' m' g' rd' →
  policy = policy' ∧ m = m' ∧ g = g' ∧ rd = rd'.
Proof.
  intros [E1 _ _ _ _ E2 _ E3 _ _ E4] [F1 _ _ _ _ F2 _ F3 _ _ F4].
  rewrite E1 in F1. apply Ok_inj in F1 as <-. rewrite E2 in F2. apply Ok_inj in F2 as <-.
  rewrite E4 in F4. apply Ok_inj in F4 as <-. by simplify_eq.
Qed.

(** C25: [authorize] permits an operation exactly when the authenticated caller
    in an active local session asks for its own account, the mapping file
    resolves that account with the operation's capability and the same account
    generation, a fresh grant for this very action, request and mapping file
    was given, modification is allowed if the operation mutates, and the
    target is ready; it permits an activation exactly when all this holds, the
    alias is absent or locked instead, and a separate activation grant was
    given.  Never both. *)
Theorem authorize_exact ms r c p a og ag d :
  authorize ms r c p a og ag = Ok d →
  (pd_operation_permitted d = true ↔
     ∃ policy m g rd, eligible ms r c p a og policy m g rd ∧ rd_state rd = "ready")
  ∧ (pd_activation_permitted d = true ↔
     ∃ policy m g rd g2, eligible ms r c p a og policy m g rd ∧ rd_state rd ∈ NOT_ACTIVE_STATES
       ∧ ag = Some g2 ∧ granted g2 ACTIVATE_ACTION c r (ums_generation ms))
  ∧ (pd_operation_permitted d && pd_activation_permitted d = false).
Proof.
  intros H. destruct (authorize_cases _ _ _ _ _ _ _ _ H) as [[(E1 & E2 & _) Hno]|(policy & m & g & rd & He & Hrd)].
  { rewrite E1, E2. split; [|split; [|done]]; (split; [done|]).
    - intros (? & ? & ? & ? & He & _). by apply Hno in He.
    - intros (? & ? & ? & ? & ? & He & _). by apply Hno in He. }
  destruct (authorize_readiness_cases _ _ _ _ _ _ _ _ _ _ _ _ (el_assessed _ _ _ _ _ _ _ _ _ _ He)
    (el_request _ _ _ _ _ _ _ _ _ _ He) (el_caller _ _ _ _ _ _ _ _ _ _ He) Hrd)
    as [[Hs ->]|[(Hs & g2 & -> & Hg2 & ->)|((E1 & E2 & _) & Hn & Hact)]].
  - simpl. split; [|split; [|done]]; (split; [try done|try done]); [intros _; by exists policy, m, g, rd|].
    intros (? & ? & ? & ? & ? & He' & Hin & _).
    destruct (eligible_functional _ _ _ _ _ _ _ _ _ _ _ _ _ _ He He') as (_ & _ & _ & <-).
    rewrite Hs in Hin. exfalso. revert Hin. apply (bool_decide_unpack _). exact I.
  - simpl. split; [|split; [|done]]; (split; [try done|try done]); [|intros _; by exists policy, m, g, rd, g2].
    intros (? & ? & ? & ? & He' & Hready).
    destruct (eligible_functional _ _ _ _ _ _ _ _ _ _ _ _ _ _ He He') as (_ & _ & _ & <-).
    rewrite Hready in Hs. exfalso. revert Hs. apply (bool_decide_unpack _). exact I.
  - rewrite E1, E2. split; [|split; [|done]]; (split; [done|]).
    + intros (? & ? & ? & ? & He' & Hready).
      by destruct (eligible_functional _ _ _ _ _ _ _ _ _ _ _ _ _ _ He He') as (_ & _ & _ & <-).
    + intros (? & ? & ? & ? & g2 & He' & Hin & Hag & Hg2).
      destruct (eligible_functional _ _ _ _ _ _ _ _ _ _ _ _ _ _ He He') as (_ & _ & _ & <-).
      by destruct (Hact Hin g2 Hag).
Qed.

(** ** Consuming a decision *)

(** The expiry of a binding is that of its earliest grant. *)
Lemma binding_expiry ms r c policy g ag action :
  granted g action c r (ums_generation ms) →
  (∀ g2, ag = Some g2 → granted g2 ACTIVATE_ACTION c r (ums_generation ms)) →
  ∃ e, pb_expires_monotonic_ns (binding_of ms r c policy g ag) = VInt e ∧ 0 < e < 2 ^ 63
    ∧ ∀ t, t <= e ↔ t <= int_value (pg_expires_monotonic_ns g)
                    ∧ ∀ g2, ag = Some g2 → t <= int_value (pg_expires_monotonic_ns g2).
Proof.
  intros [Hv _ _ _ _ _ _ _ _ _] Hag.
  apply validate_grant_Ok in Hv as (? & ? & ? & ? & ? & ? & ? & ? & ? & issued & expires & ? & -> & _ & _ & ? & ? & _).
  destruct ag as [g2|]; simpl.
  - destruct (Hag g2 eq_refl) as [Hv _ _ _ _ _ _ _ _ _].
    apply validate_grant_Ok in Hv as (? & ? & ? & ? & ? & ? & ? & ? & ? & issued2 & expires2 & ? & -> & _ & _ & ? & ? & _).
    simpl. exists (expires `min` expires2). split; [done|]. split; [lia|]. intros t. split.
    + intros Ht. split; [lia|]. intros ? [= <-]. simpl. lia.
    + intros [Ht1 Ht2]. specialize (Ht2 _ eq_refl). simpl in Ht2. lia.
  - exists expires. split; [done|]. split; [lia|]. intros t. naive_solver.
Qed.

Lemma validate_binding_of ms r c policy g ag action :
  validate_request r = Ok policy → validate_caller c = Ok tt →
  granted g action c r (ums_generation ms) →
  (∀ g2, ag = Some g2 → granted g2 ACTIVATE_ACTION c r (ums_generation ms)) →
  validate_binding (binding_of ms r c policy g ag) = Ok tt.
Proof.
  intros Hr Hc Hg Hag. destruct (binding_expiry _ _ _ policy _ _ _ Hg Hag) as (e & He & Hrange & _).
  apply validate_request_Ok in Hr as (target & id & boot & rt & now & modify & Er & _ & Wt & Wi & Wb & Wr).
  apply validate_caller_Ok in Hc as (uid & gen & auth & session & Ec & Wu & Wg).
  pose proof (gr_mapping _ _ _ _ _ Hg) as Hmap. pose proof (gr_valid _ _ _ _ _ Hg) as Hv.
  apply validate_grant_Ok in Hv as (? & ? & ? & ? & ? & mgen & ? & ? & ? & ? & ? & ? & Eg & Wa & Wm & _).
  rewrite Eg in Hmap. simpl in Hmap. injection Hmap as ->.
  unfold validate_binding. rewrite He. unfold binding_of. cbn [pb_mapping_generation
    pb_linux_account_generation pb_operation_id pb_linux_boot_uuid pb_runtime_generation pb_caller_linux_uid
    pb_target_linux_uid pb_operation_authorization_id pb_activation_authorization_id].
  rewrite Ec, Er, Eg. cbn [ce_linux_account_generation or_operation_id or_linux_boot_uuid
    or_runtime_generation ce_linux_uid or_target_linux_uid pg_authorization_id].
  rewrite (proj2 (policy_digest_Ok _ _ _) (conj eq_refl Wm)).
  rewrite (proj2 (policy_digest_Ok _ _ _) (conj eq_refl Wg)).
  rewrite (proj2 (policy_uuid_Ok _ _ _) (conj eq_refl Wi)), (proj2 (policy_uuid_Ok _ _ _) (conj eq_refl Wb)),
    (proj2 (policy_uuid_Ok _ _ _) (conj eq_refl Wr)).
  rewrite (proj2 (policy_monotonic_Ok (VInt e) _ e)) by (split; [done|lia]).
  cbn [mbind result_bind]. assert ((e =? 0) = false) as -> by lia. cbn [fail_if mbind result_bind].
  rewrite (proj2 (policy_uid_Ok _ _ _) (conj eq_refl Wu)), (proj2 (policy_uid_Ok _ _ _) (conj eq_refl Wt)).
  rewrite (proj2 (policy_uuid_Ok _ _ _) (conj eq_refl Wa)). cbn [mbind result_bind].
  destruct ag as [g2|]; [|done]. pose proof (gr_valid _ _ _ _ _ (Hag g2 eq_refl)) as Hv2.
  apply validate_grant_Ok in Hv2 as (? & ? & ? & ? & ? & ? & ? & ? & ? & ? & ? & ? & -> & Wa2 & _).
  cbn [pg_authorization_id is_none]. by rewrite (proj2 (policy_uuid_Ok _ _ _) (conj eq_refl Wa2)).
Qed.

(** The comparison at consumption, for a decision [authorize] made. *)
Lemma authority_stale_exact ms r c policy m g ag rs (act : bool) ms' sel cap boot rt t :
  OPERATION_POLICIES (or_operation r) = Some policy →
  ce_linux_uid c = VInt (um_linux_uid m) → or_target_linux_uid r = VInt (um_linux_uid m) →
  ce_linux_account_generation c = VStr (um_linux_account_generation m) →
  (match ag with Some _ => true | None => false end) = act → (∀ g2, ag = Some g2 → is_none (pg_authorization_id g2) = false) →
  let b := binding_of ms r c policy g ag in
  authority_stale (decision r policy (if act then "activation-authorized" else "authorized") (Some m) rs
      (negb act) act act false (Some b)) b ms' sel (VStr cap) (VStr boot) (VStr rt) t act = false
  ↔ m = sel ∧ sel ∈ ums_mappings ms' ∧ ums_generation ms = ums_generation ms'
    ∧ op_capability policy = cap ∧ or_linux_boot_uuid r = VStr boot ∧ or_runtime_generation r = VStr rt
    ∧ t <= int_value (pb_expires_monotonic_ns b).
Proof.
  intros Hp Hc Hr Hg Hact Hid b. unfold authority_stale, decision. cbn [pd_state pd_selected_mapping
    pd_operation pd_policy_action pd_activation_permitted pd_operation_permitted].
  rewrite String.eqb_refl, Hp, !String.eqb_refl.
  generalize (int_value (pb_expires_monotonic_ns b)). intros e. unfold b.
  cbn [binding_of pb_capability pb_mapping_generation pb_linux_account_generation pb_linux_boot_uuid
    pb_runtime_generation pb_target_linux_uid pb_caller_linux_uid pb_activation_authorization_id].
  rewrite ?String.eqb_refl, Hc, Hr, Hg.
  assert (act && is_none (match ag with Some g2 => pg_authorization_id g2 | None => VNone end) = false) as ->.
  { destruct ag as [g2|]; simpl in Hact; subst act; [|done]. by apply Hid. }
  rewrite !orb_false_iff, !negb_false_iff, !bool_decide_eq_true, !py_eq_strs, !py_eq_ints, !py_eq_str_l, Z.ltb_ge.
  split; [naive_solver|]. intros (-> & ? & ? & ? & ? & ? & ?). by destruct act; split_and!.
Qed.

(** What consumption checks, for a decision with a binding. *)
Lemma require_bound_authority_Ok d b ms' sel cap boot rt now act id :
  pd_binding d = Some b → validate_binding b = Ok tt →
  require_bound_authority d ms' sel cap boot rt now act = Ok id ↔
  id = pb_operation_id b ∧ ∃ boot' rt' t, boot = VStr boot' ∧ uuid_text boot' ∧ rt = VStr rt' ∧ uuid_text rt'
    ∧ now = VInt t ∧ 0 <= t < 2 ^ 63 ∧ authority_stale d b ms' sel cap boot rt t act = false.
Proof.
  intros Hd Hb. unfold require_bound_authority. rewrite Hd, Hb. split.
  - intros H. apply bind_Ok in H as (boot' & [-> W1]%policy_uuid_Ok & H).
    apply bind_Ok in H as (rt' & [-> W2]%policy_uuid_Ok & H).
    apply bind_Ok in H as (t & [-> W3]%policy_monotonic_Ok & H). cbn [except mbind result_bind] in H.
    apply bind_Ok in H as (u & Hs%fail_if_Ok & H). apply Ok_inj in H as <-. split; [done|].
    by exists boot', rt', t.
  - intros (-> & boot' & rt' & t & -> & W1 & -> & W2 & -> & W3 & Hs).
    rewrite (proj2 (policy_uuid_Ok _ _ _) (conj eq_refl W1)), (proj2 (policy_uuid_Ok _ _ _) (conj eq_refl W2)).
    rewrite (proj2 (policy_monotonic_Ok (VInt t) _ t)) by done.
    cbn [except mbind result_bind]. by rewrite Hs.
Qed.

(** A decision of the other kind is not consumed. *)
Lemma authority_stale_state d b ms' sel cap boot rt t (act : bool) :
  pd_state d ≠ (if act then "activation-authorized" else "authorized") →
  authority_stale d b ms' sel cap boot rt t act = true.
Proof. intros H. unfold authority_stale. apply String.eqb_neq in H. by rewrite H. Qed.

Lemma require_bound_authority_state d ms' sel cap boot rt now (act : bool) id :
  require_bound_authority d ms' sel cap boot rt now act = Ok id →
  pd_state d = (if act then "activation-authorized" else "authorized") ∧ pd_binding d ≠ None.
Proof.
  unfold require_bound_authority. intros H. apply bind_Ok in H as (u1 & _ & H).
  apply bind_Ok in H as (u2 & _ & H). apply bind_Ok in H as (t & _ & H).
  destruct (pd_binding d) as [b|]; [|done]. split; [|done].
  apply bind_Ok in H as (u3 & _ & H). apply bind_Ok in H as (u4 & Hs%fail_if_Ok & _).
  destruct (decide (pd_state d = if act then "activation-authorized" else "authorized")) as [|Hn]; [done|].
  by rewrite (authority_stale_state _ _ _ _ _ _ _ _ _ Hn) in Hs.
Qed.

Lemma eligible_shape ms r c p a og policy m g rd : eligible ms r c p a og policy m g rd →
  OPERATION_POLICIES (or_operation r) = Some policy ∧ ce_linux_uid c = VInt (um_linux_uid m)
  ∧ or_target_linux_uid r = VInt (um_linux_uid m) ∧ m ∈ ums_mappings ms
  ∧ (∃ boot, or_linux_boot_uuid r = VStr boot ∧ uuid_text boot)
  ∧ (∃ rt, or_runtime_generation r = VStr rt ∧ uuid_text rt).
Proof.
  intros He. pose proof (el_self _ _ _ _ _ _ _ _ _ _ He) as Hself. rewrite Hself.
  pose proof (el_mapping _ _ _ _ _ _ _ _ _ _ He) as Hm.
  destruct (validate_request_Ok _ _ (el_request _ _ _ _ _ _ _ _ _ _ He))
    as (target & id & boot & rt & now & modify & Er & Hp & _ & _ & Wb & Wr).
  rewrite Er in Hm |- *. simpl in *. apply resolve_in in Hm as [Hin <-].
  split_and!; try done; by eexists.
Qed.

Lemma grant_identified g action c r generation :
  granted g action c r generation → is_none (pg_authorization_id g) = false.
Proof.
  intros [Hv _ _ _ _ _ _ _ _ _].
  by apply validate_grant_Ok in Hv as (? & ? & ? & ? & ? & ? & ? & ? & ? & ? & ? & ? & -> & _).
Qed.

(** Consumption of a permission of kind [k]. *)
Lemma consume_authorized ms r c p a og policy m g rd ag (k : bool) ms' sel cap boot rt now id :
  eligible ms r c p a og policy m g rd →
  (match ag with Some _ => true | None => false end) = k →
  (∀ g2, ag = Some g2 → granted g2 ACTIVATE_ACTION c r (ums_generation ms)) →
  require_bound_authority
    (decision r policy (if k then "activation-authorized" else "authorized") (Some m) (Some (rd_state rd))
       (negb k) k k false (Some (binding_of ms r c policy g ag))) ms' sel (VStr cap) boot rt now k = Ok id ↔
  id = or_operation_id r ∧ m = sel ∧ sel ∈ ums_mappings ms' ∧ ums_generation ms = ums_generation ms'
  ∧ op_capability policy = cap ∧ or_linux_boot_uuid r = boot ∧ or_runtime_generation r = rt
  ∧ ∃ t, now = VInt t ∧ 0 <= t < 2 ^ 63 ∧ t <= int_value (pg_expires_monotonic_ns g)
      ∧ ∀ g2, ag = Some g2 → t <= int_value (pg_expires_monotonic_ns g2).
Proof.
  intros He Hk Hag.
  destruct (eligible_shape _ _ _ _ _ _ _ _ _ _ He) as (Hp & Hu & Ht & Hin & (boot0 & Hboot & Wboot) & (rt0 & Hrt & Wrt)).
  pose proof He as [Hr Hc _ _ _ _ Hgen _ Hg _ _].
  destruct (binding_expiry _ _ _ policy _ _ _ Hg Hag) as (e & Hexp & _ & Hmin).
  rewrite require_bound_authority_Ok; [|reflexivity|by eapply validate_binding_of].
  assert (∀ g2, ag = Some g2 → is_none (pg_authorization_id g2) = false) as Hid.
  { intros g2 Hg2. by eapply grant_identified, Hag. }
  pose proof (λ boot rt t, authority_stale_exact ms r c policy m g ag (Some (rd_state rd)) k ms' sel cap
    boot rt t Hp Hu Ht Hgen Hk Hid) as Hstale. cbv zeta in Hstale.
  cbn [binding_of pb_operation_id].
  split.
  - intros (-> & boot' & rt' & t & -> & W1 & -> & W2 & -> & W3 & Hs).
    apply Hstale in Hs as (-> & ? & ? & ? & ? & ? & Hle). rewrite Hexp in Hle. apply Hmin in Hle as [? ?].
    split_and!; try done. by exists t.
  - intros (-> & -> & ? & ? & ? & <- & <- & t & -> & ? & Hle). split; [done|].
    exists boot0, rt0, t. split_and!; try done; try lia. rewrite Hboot, Hrt. apply Hstale. rewrite Hexp. split_and!; try done. exact (proj2 (Hmin t) Hle).
Qed.

(** C26: A decision of [authorize] is consumed exactly by the operation it was
    made for: consumption succeeds if and only if the decision permits that
    kind of operation, the mapping file still has the same digest and still
    contains the selected mapping, the capability, the Linux boot and the
    runtime are those of the request, and none of the grants has expired.  It
    then yields the operation identifier of the request. *)
Theorem authority_consumed_exactly ms r c p a og ag d ms' sel cap boot rt now act id :
  authorize ms r c p a og ag = Ok d →
  require_bound_authority d ms' sel (VStr cap) boot rt now act = Ok id ↔
  (if act then pd_activation_permitted d else pd_operation_permitted d) = true
  ∧ id = or_operation_id r ∧ pd_selected_mapping d = Some sel ∧ sel ∈ ums_mappings ms'
  ∧ ums_generation ms = ums_generation ms'
  ∧ (∃ policy, OPERATION_POLICIES (or_operation r) = Some policy ∧ op_capability policy = cap)
  ∧ or_linux_boot_uuid r = boot ∧ or_runtime_generation r = rt
  ∧ ∃ t, now = VInt t ∧ 0 <= t < 2 ^ 63
      ∧ (∀ g, og = Some g → t <= int_value (pg_expires_monotonic_ns g))
      ∧ (act = true → ∀ g, ag = Some g → t <= int_value (pg_expires_monotonic_ns g)).
Proof.
  intros H. destruct (authorize_cases _ _ _ _ _ _ _ _ H) as [[(E1 & E2 & E3) _]|(policy & m & g & rd & He & Hrd)].
  { rewrite E1, E2. split; [|destruct act; naive_solver].
    intros [_ Hb]%require_bound_authority_state. by rewrite E3 in Hb. }
  pose proof He as [Hr Hc _ _ _ _ _ Hog _ _ Ha].
  destruct (eligible_shape _ _ _ _ _ _ _ _ _ _ He) as (Hp & _). rewrite Hp, Hog.
  destruct (authorize_readiness_cases _ _ _ _ _ _ _ _ _ _ _ _ Ha Hr Hc Hrd)
    as [[Hs ->]|[(Hs & g2 & -> & Hg2 & ->)|((E1 & E2 & E3) & _)]].
  - destruct act.
    + split; [|by intros [? _]]. by intros [? _]%require_bound_authority_state.
    + pose proof (consume_authorized ms r c p a og policy m g rd None false ms' sel cap boot rt now id He eq_refl) as Hiff.
      cbn [negb] in Hiff. rewrite Hiff by done. simpl. naive_solver.
  - destruct act.
    + pose proof (consume_authorized ms r c p a og policy m g rd (Some g2) true ms' sel cap boot rt now id He eq_refl) as Hiff.
      cbn [negb] in Hiff. rewrite Hiff by (by intros ? [= <-]). simpl. naive_solver.
    + split; [|by intros [? _]]. by intros [? _]%require_bound_authority_state.
  - rewrite E1, E2. split; [|destruct act; naive_solver].
    intros [_ Hb]%require_bound_authority_state. by rewrite E3 in Hb.
Qed.
