(* ===== verification/UserActivation.v ===== *)
(** * User activation and its recovery
    ([src/src/t2_user_activation_operation.py],
    [src/src/t2_user_activation_recovery.py])

    The operation that makes one mapped Apple user ready: it consumes the
    authorization, looks at the alias, and loads the keybag, binds the alias
    and unlocks it as far as needed, journalling an intent before and an
    observation after every command.  The recovery of an operation with an
    unknown outcome looks once, in a later runtime, and changes nothing.

    The transport and the observer are parameters: what they answer may depend
    on every call made so far. *)
From S2P Require Import Prelude PyValue Sha256 Json MutationJournal Evidence TypedJournal UserMapping UserReadiness.
From S2P Require Import ActivationJournal UserPolicy Effect Bytes OperationWorld.

#[local] Open Scope Z_scope.

(** ** The world an operation runs in *)

(** The calls made to the transport. *)
Inductive device_call :=
  | CObserve (special_alias : Z)
  | CLoad (keybag_path : string)
  | CBagUuid (handle : Z)
  | CBind (handle special_alias : Z)
  | CUnlock (special_alias : Z) (password : bytes).

(** What a Python callable returns: an awaitable, or a plain value. *)
Inductive returned (A : Type) := Awaitable | Returned (a : A).
Arguments Awaitable {A}.
Arguments Returned {A} a.

(** [UserActivationTransport]; the answers depend on the calls made before.
    [observe_alias] may return something that is no [AliasEvidence]. *)
Record transport := Transport {
  tr_runtime_generation : value;
  tr_observe_alias : list device_call → Z → result (returned (option AliasEvidence));
  tr_load_keybag : list device_call → string → result (returned value);
  tr_bag_uuid : list device_call → Z → result (returned value);
  tr_bind_alias : list device_call → Z → Z → result (returned value);
  tr_unlock_alias : list device_call → Z → bytes → result (returned value);
}.

(** The journal file, the number of journal accesses so far, the calls made,
    each with the journal file as it was, and the content of the password
    buffer. *)
Record world := World {
  w_fs : fs;
  w_accesses : nat;
  w_trace : list (device_call * fs);
  w_password : bytes;
}.
#[export] Instance world_settable : Settable world := λ w,
  World (w_fs w) (w_accesses w) (w_trace w) (w_password w).

Record UserActivationOperationResult := OperationResult {
  or_outcome : string;
  or_mutation_performed : bool;
  or_reconciliation_required : bool;
}.

#[local] Abbreviation operr msg := (throw UserActivationOperationError msg).

Section operation.
Context (env : surroundings).

(** A journal call; other processes also act inside it. *)
Definition accessed (w : world) : fs := su_others env (3 * w_accesses w) (w_fs w).
Definition journal_append (operation_id milestone : string) (evidence : value) : act world UserActivationHistory :=
  λ w, let n := w_accesses w in
       let '(s, r) := activation_append_checked (su_euid env) (su_calls env n) (su_others env (3 * n + 1))
                        (su_others env (3 * n + 2)) (accessed w) operation_id milestone evidence in
       (r, w <| w_fs := s |> <| w_accesses := S n |>).
Definition journal_create (mapping_set : UserMappingSet) (selected : UserMapping) (capability : string)
    (persistent : PersistentEvidence) (alias : AliasEvidence) (linux_boot_uuid runtime_generation : string)
    (operation_id : option string) (fresh : string) : act world UserActivationHistory :=
  λ w, let n := w_accesses w in
       let '(s, r) := activation_create (su_euid env) (su_calls env n) (su_others env (3 * n + 2)) (accessed w)
                        mapping_set selected capability persistent alias linux_boot_uuid runtime_generation operation_id fresh in
       (r, w <| w_fs := s |> <| w_accesses := S n |>).
Definition journal_read : act world UserActivationHistory :=
  λ w, let s := accessed w in
       (activation_read (su_euid env) (fs_entry s), w <| w_fs := s |> <| w_accesses := S (w_accesses w) |>).

(** A call to the transport: it is recorded, and answered. *)
Definition transport_call {A} (c : device_call) (answer : list device_call → result A) : act world A :=
  λ w, (answer (map fst (w_trace w)), w <| w_trace := w_trace w ++ [(c, w_fs w)] |>).

(** [_sync] *)
Definition sync {A} (v : returned A) (label : string) : act world A :=
  match v with
  | Awaitable => operr (label +:+ " must be synchronous")
  | Returned a => mret a
  end.

(** [_status]; [type(value) is int] leaves out the Booleans. *)
Definition status (v : returned value) (label : string) : act world Z :=
  v ← sync v label;
  match v with
  | VInt z => if (- 2 ^ 31 <=? z) && (z <? 2 ^ 32) then mret z
              else operr (label +:+ " returned an invalid status")
  | _ => operr (label +:+ " returned an invalid status")
  end.

Section run.
Context (tr : transport) (operation_id runtime_generation : string).

(** [_terminal]: one attempt to journal the end, then the error. *)
Definition terminal {A} (stage reason : string) (unknown : bool) : act world A :=
  _ ← catch any_class
        (_ ← journal_append operation_id
               (if unknown then "USER_ACTIVATION_OUTCOME_UNKNOWN" else "USER_ACTIVATION_STOPPED")
               (dict [("runtime_generation", VStr runtime_generation); ("stage", VStr stage);
                      ("reason", VStr reason); ("mutation_possible", VBool true)]);
         mret tt)
        (λ _, mret tt);
  operr ("user activation stopped at " +:+ stage +:+ "; "
         +:+ (if unknown then "reconciliation is required" else "operation stopped")).

(** [_append_after_mutation] *)
Definition append_after_mutation (milestone : string) (evidence : value) (stage : string)
    : act world UserActivationHistory :=
  catch any_class (journal_append operation_id milestone evidence) (λ _, terminal stage "journal-error" true).
End run.

(** [_observe] *)
Definition observe (tr : transport) (special_alias : Z) : act world AliasEvidence :=
  answer ← transport_call (CObserve special_alias) (λ past, tr_observe_alias tr past special_alias);
  a ← sync answer "alias observation";
  match a with
  | Some a => mret a
  | None => operr "alias observation returned the wrong type"
  end.

(** [_command_and_readback] *)
Definition command_and_readback (command : act world (returned value)) (read_back : act world AliasEvidence)
    : act world (value * bool * AliasEvidence) :=
  '(st, raised) ← catch any_class
      (v ← command; z ← status v "activation command"; mret (VInt z, false))
      (λ _, mret (VNone, true));
  a ← read_back;
  mret (st, raised, a).

(** The argument [password]: [None], a [bytearray] - its bytes are in the
    world - or something else. *)
Inductive password_argument := NoPassword | Wipeable | OtherStorage.
Definition is_wipeable (p : password_argument) : bool := match p with Wipeable => true | _ => false end.

Section stages.
Context (tr : transport) (selected : UserMapping) (capability : string) (persistent : PersistentEvidence)
  (operation_id runtime_generation : string).

#[local] Abbreviation terminal := (terminal operation_id runtime_generation).
#[local] Abbreviation append_after_mutation := (append_after_mutation operation_id runtime_generation).
#[local] Abbreviation alias := (special_bag_alias selected).
Definition bound (fields : list (string * value)) : value := dict (("runtime_generation", VStr runtime_generation) :: fields).

(** [assess] of what was read back, an exception being terminal. *)
Definition assess_read_back (observed : AliasEvidence) (reason : string) : act world ReadinessDecision :=
  catch any_class (pure (assess selected capability persistent observed)) (λ _, terminal "readback" reason true).

Definition load_keybag : act world Z :=
  _ ← journal_append operation_id "USER_KEYBAG_LOAD_INTENT"
        (bound [("keybag_sha256", VStr (um_keybag_sha256 selected)); ("mutation_possible", VBool true)]);
  handle ← catch any_class
    (v ← transport_call (CLoad (um_keybag_path selected)) (λ past, tr_load_keybag tr past (um_keybag_path selected));
     v ← sync v "keybag load";
     match v with
     | VInt z => if (1 <=? z) && (z <=? 0xFFFFFFFF) then mret z
                 else operr "keybag load returned an invalid handle"
     | _ => operr "keybag load returned an invalid handle"
     end)
    (λ _, terminal "load" "handle-unavailable" true);
  observed ← catch any_class
    (v ← transport_call (CBagUuid handle) (λ past, tr_bag_uuid tr past handle);
     sync v "loaded keybag UUID observation")
    (λ _, terminal "handle" "bag-observation-failed" true);
  _ ← (if observed !=? VStr (um_bag_uuid selected) then terminal "handle" "bag-binding-mismatch" false
       else mret tt);
  _ ← append_after_mutation "USER_KEYBAG_HANDLE_OBSERVED"
        (bound [("handle", VInt handle); ("bag_uuid_matches", VBool true)]) "handle";
  mret handle.

(** The evidence of a reconciled alias, and of a ready one. *)
Definition alias_evidence (st : value) (raised : bool) : value :=
  bound [("special_alias", VInt alias); ("bag_uuid_matches", VBool true); ("account_uuid_matches", VBool true);
         ("command_status", st); ("command_raised", VBool raised)].
Definition ready_evidence (source : string) (st : value) (raised : bool) : value :=
  bound [("special_alias", VInt alias); ("bag_uuid_matches", VBool true); ("account_uuid_matches", VBool true);
         ("readiness_state", VStr "ready"); ("source", VStr source);
         ("command_status", st); ("command_raised", VBool raised)].

(** The states in which the alias that was just bound is not the user's. *)
Definition unbound_states : list string :=
  ["alias-absent"; "alias-binding-mismatch"; "persistent-binding-mismatch"; "unknown-lock-state";
   "catacomb-corrupted"].

(** From the handle to a bound alias; the result says whether it is ready. *)
Definition bind_alias (handle : Z) : act world bool :=
  _ ← append_after_mutation "USER_ALIAS_BIND_INTENT"
        (bound [("handle", VInt handle); ("special_alias", VInt alias); ("mutation_possible", VBool true)]) "bind";
  '(st, raised, after) ← catch any_class
      (command_and_readback
         (transport_call (CBind handle alias) (λ past, tr_bind_alias tr past handle alias))
         (observe tr alias))
      (λ _, terminal "readback" "alias-observation-failed" true);
  decision ← assess_read_back after "alias-evidence-invalid";
  let state := rd_state decision in
  _ ← (if bool_decide (state ∈ unbound_states)
       then terminal "bind" state (String.eqb state "alias-absent") else mret tt);
  _ ← append_after_mutation "USER_ALIAS_OBSERVED" (alias_evidence st raised) "readback";
  if String.eqb state "ready" then
    _ ← append_after_mutation "USER_ACTIVATION_READY" (ready_evidence "bind-readback" st raised) "readback";
    mret true
  else if negb (bool_decide (state ∈ ["device-locked"; "before-first-unlock"]))
       then terminal "bind" state false
  else mret false.

Definition unlock_alias (mutation_performed : bool) : act world unit :=
  let unlock_intent := bound [("special_alias", VInt alias); ("mutation_possible", VBool true)] in
  _ ← (if mutation_performed : bool
       then append_after_mutation "USER_ALIAS_UNLOCK_INTENT" unlock_intent "unlock"
       else journal_append operation_id "USER_ALIAS_UNLOCK_INTENT" unlock_intent);
  '(st, raised, after) ← catch any_class
      (w ← self;
       command_and_readback
         (transport_call (CUnlock alias (w_password w)) (λ past, tr_unlock_alias tr past alias (w_password w)))
         (observe tr alias))
      (λ _, terminal "readback" "unlock-observation-failed" true);
  decision ← assess_read_back after "unlock-evidence-invalid";
  let state := rd_state decision in
  _ ← (if negb (String.eqb state "ready")
       then terminal "unlock" state (bool_decide (state ∈ ["alias-absent"; "unknown-lock-state"])) else mret tt);
  _ ← append_after_mutation "USER_ACTIVATION_READY" (ready_evidence "unlock-readback" st raised) "readback";
  mret tt.
End stages.

(** [run]; [clock] is the result of the call of the clock and [fresh] the
    string of [uuid.uuid4()]. *)
Definition authorized_run (tr : transport) (mapping_set : UserMappingSet) (selected : UserMapping)
    (capability : string) (persistent : PersistentEvidence) (password : password_argument)
    (authorization : UserPolicyDecision) (linux_boot_uuid : string) (clock : result value) (fresh : string)
    : act world UserActivationOperationResult :=
  match tr_runtime_generation tr with
  | VStr runtime_generation =>
      authority_time ← catch any_class (pure clock)
        (λ _, operr "authorization consumption time is unavailable");
      let activation_authorized := String.eqb (pd_state authorization) "activation-authorized" in
      authorized_operation_id ← catch (λ c, bool_decide (c = UserPolicyError))
        (pure (require_bound_authority authorization mapping_set selected (VStr capability) (VStr linux_boot_uuid)
                 (VStr runtime_generation) authority_time activation_authorized))
        (λ _, operr "activation lacks exact caller and policy authority");
      w ← self;
      _ ← throw_if (is_wipeable password
                    && negb ((1 <=? length (w_password w)) && (length (w_password w) <=? 1024))%nat)
            UserActivationOperationError "activation password storage has an invalid size";
      '(before, decision) ← catch any_class
        (before ← observe tr (special_bag_alias selected);
         decision ← pure (assess selected capability persistent before);
         mret (before, decision))
        (λ _, operr "activation preflight could not establish target readiness");
      if String.eqb (rd_state decision) "ready" then mret (OperationResult "already-ready" false false)
      else
        _ ← throw_if (negb activation_authorized) UserActivationOperationError
              "target became not-ready without separate activation authority";
        _ ← throw_if (negb (is_wipeable password)) UserActivationOperationError
              "activation requires a nonempty password in wipeable storage";
        history ← catch (λ c, bool_decide (c = UserActivationJournalError))
          (journal_create mapping_set selected capability persistent before linux_boot_uuid runtime_generation
             (Some (str_value authorized_operation_id)) fresh)
          (λ _, operr "activation preflight is not safely actionable");
        let operation_id := str_value (ah_operation_id history) in
        if String.eqb (rd_state decision) "alias-absent" then
          handle ← load_keybag tr selected operation_id runtime_generation;
          ready ← bind_alias tr selected capability persistent operation_id runtime_generation handle;
          if ready : bool then mret (OperationResult "ready" true false)
          else
            _ ← unlock_alias tr selected capability persistent operation_id runtime_generation true;
            mret (OperationResult "ready" true false)
        else
          _ ← unlock_alias tr selected capability persistent operation_id runtime_generation false;
          mret (OperationResult "ready" true false)
  | _ => operr "runtime generation is invalid"
  end.

(** [password[:] = zeros], in the [finally] of [run]. *)
Definition erase (password : password_argument) (w : world) : world :=
  if is_wipeable password then w <| w_password := zeros (length (w_password w)) |> else w.

Definition run (tr : transport) (mapping_set : UserMappingSet) (selected : UserMapping)
    (capability : string) (persistent : PersistentEvidence) (password : password_argument)
    (authorization : UserPolicyDecision) (linux_boot_uuid : string) (clock : result value) (fresh : string)
    : act world UserActivationOperationResult :=
  match password with
  | OtherStorage => operr "activation password must use wipeable storage"
  | _ =>
      finally
        (authorized_run tr mapping_set selected capability persistent password authorization linux_boot_uuid
           clock fresh)
        (erase password)
  end.

(** ** Recovery *)

Record UserActivationRecoveryResult := RecoveryResult {
  rr_resolution : string;
  rr_readiness_state : string;
}.

(** [_mapping_matches]: [selected.permits] may raise. *)
Definition mapping_matches (history : UserActivationHistory) (mapping_set : UserMappingSet)
    (selected : UserMapping) : result bool :=
  let b := ah_baseline history in
  (Ok ((b@["mapping_generation"] ==? VStr (ums_generation mapping_set))
       && bool_decide (selected ∈ ums_mappings mapping_set)
       && (b@["target_linux_uid"] ==? VInt (um_linux_uid selected))
       && (b@["apple_uid"] ==? VInt (um_apple_uid selected))
       && (b@["account_uuid"] ==? VStr (um_account_uuid selected))
       && (b@["bag_uuid"] ==? VStr (um_bag_uuid selected))
       && (b@["keybag_sha256"] ==? VStr (um_keybag_sha256 selected))
       && (b@["special_alias"] ==? VInt (special_bag_alias selected)))
   &&! permits selected (str_value (b@["capability"]))).

Definition early_phase (p : option UserActivationPhase) : bool :=
  match p with Some U_LOAD_INTENT | Some U_HANDLE_OBSERVED => true | _ => false end.

(** What one observation resolves an unknown outcome to. *)
Definition resolution_of (early : bool) (state : string) : string :=
  if String.eqb state "alias-absent" then "blocked"
  else if bool_decide (state ∈ ["persistent-binding-mismatch"; "alias-binding-mismatch"; "unknown-lock-state";
                                "catacomb-corrupted"; "capability-denied"]) then "quarantine"
  else if early then "quarantine"
  else if String.eqb state "ready" then "ready"
  else if bool_decide (state ∈ ["device-locked"; "before-first-unlock"; "keybag-lockout"]) then "not-ready"
  else "quarantine".

(** The record of a recovery. *)
Definition recovery_evidence (runtime_generation : value) (selected : UserMapping) (observed : AliasEvidence)
    (resolution state : string) : value :=
  dict [("runtime_generation", runtime_generation); ("resolution", VStr resolution);
        ("readiness_state", VStr state); ("alias_present", ae_present observed);
        ("bag_uuid_matches", VBool (truthy (ae_present observed) && (ae_bag_uuid observed ==? VStr (um_bag_uuid selected))));
        ("account_uuid_matches",
          VBool (truthy (ae_present observed) && (ae_account_uuid observed ==? VStr (um_account_uuid selected))));
        ("match_ready", VBool (String.eqb resolution "ready")); ("mutation_performed", VBool false)].

(** [recover]; the observer is a transport of which only the observation is
    used. *)
Definition recover (observer : transport) (mapping_set : UserMappingSet) (selected : UserMapping)
    (persistent : PersistentEvidence) : act world UserActivationRecoveryResult :=
  history ← journal_read;
  match ah_phase history, ah_terminal_from_phase history with
  | U_OUTCOME_UNKNOWN, Some from =>
      let baseline := ah_baseline history in
      _ ← catch is_journal_error
            (pure (require_uuid (tr_runtime_generation observer) "recovery runtime generation"))
            (λ e, throw UserActivationRecoveryError (exn_msg e));
      _ ← throw_if (tr_runtime_generation observer ==? baseline@["runtime_generation"])
            UserActivationRecoveryError "activation recovery requires a fresh runtime generation";
      matches ← catch (λ c, bool_decide (c = UserMappingError)) (pure (mapping_matches history mapping_set selected))
            (λ e, throw UserActivationRecoveryError (exn_msg e));
      _ ← throw_if (negb matches) UserActivationRecoveryError "protected mapping changed since activation intent";
      '(observed, decision) ← catch (λ c, negb (bool_decide (c = UserActivationRecoveryError)))
        (answer ← transport_call (CObserve (special_bag_alias selected))
                    (λ past, tr_observe_alias observer past (special_bag_alias selected));
         observed ← match answer with
                    | Awaitable => throw UserActivationRecoveryError "activation recovery observation must be synchronous"
                    | Returned None => throw UserActivationRecoveryError "activation recovery observation has the wrong type"
                    | Returned (Some a) => mret a
                    end;
         decision ← pure (assess selected (str_value (baseline@["capability"])) persistent observed);
         mret (observed, decision))
        (λ _, throw UserActivationRecoveryError "activation recovery could not obtain trustworthy read-back");
      let state := rd_state decision in
      let resolution := resolution_of (early_phase (Some from)) state in
      _ ← journal_append (str_value (ah_operation_id history)) "USER_ACTIVATION_RECOVERY_OBSERVED"
            (recovery_evidence (tr_runtime_generation observer) selected observed resolution state);
      mret (RecoveryResult resolution state)
  | _, _ => throw UserActivationRecoveryError "activation journal is not an outcome-unknown recovery candidate"
  end.
End operation.
