(* ===== verification/ActivationRuns.v ===== *)
(** * Theorems on user activation and its recovery

    Invariants of a run of [UserActivation.run], proved with the weakest
    preconditions of [Effect]: what the journal on disk said when a command
    was sent, which commands were sent, what a result proves; and that a
    recovery only looks, and always settles the journal. *)
From S2P Require Import Prelude PyValue Sha256 Json MutationJournal Evidence TypedJournal UserMapping UserReadiness.
From S2P Require Import ActivationJournal UserPolicy Effect Bytes OperationWorld UserActivation.

#[local] Open Scope Z_scope.

(** ** What the journal says when a command is sent *)

(** The commands that change the state of the keybags. *)
Definition mutating (c : device_call) : bool := match c with CLoad _ | CBind _ _ | CUnlock _ _ => true | _ => false end.

(** The last record of an activation journal is this milestone, accepted with
    this evidence. *)
Definition last_move (h : UserActivationHistory) (m : string) (ev : value) : Prop :=
  ∃ s s' hd, (m, hd) ∈ activation_handlers (ah_baseline h) ∧ hd s ev m = Ok s'
    ∧ ah_phase h = a_phase s' ∧ ah_temporary_handle h = a_temporary_handle s'.

Lemma activation_last_move rs record h op m ev : rs ≠ [] →
  validate_history (J := activation_journal) (rs ++ [record]) = Ok h → same_entry record (candidate op m ev) →
  last_move h m ev ∧ ah_operation_id h = VStr op.
Proof.
  intros Hne Hh (Ho & Hm & He).
  change (record@["operation_id"] = VStr op) in Ho. change (record@["milestone"] = VStr m) in Hm.
  change (record@["evidence"] = ev) in He. destruct rs as [|first rest]; [done|].
  apply validate_history_Ok in Hh as (f & r & s0 & s & [= <- <-] & _ & Hs & _ & ->).
  apply fold_result_snoc in Hs as (l & _ & Hs). cbn [tj_step activation_journal] in Hs.
  change (ah_operation_id _) with (al_operation_id s).
  assert (al_operation_id s = record@["operation_id"]) as ->.
  { unfold activation_step in Hs. apply bind_Ok in Hs as (u & Hop & Hs). apply bind_Ok in Hs as (t & _ & Hs).
    apply Ok_inj in Hs as <-. apply fail_if_Ok, negb_false_iff in Hop. cbn [al_operation_id].
    rewrite Ho in Hop |- *. rewrite py_eq_sym in Hop. by apply py_eq_str_l in Hop. }
  split; [|done].
  apply activation_step_inv in Hs as (Hb & k & hd & Hk & Hin & Hd). rewrite He in Hd. rewrite Hm in Hk.
  injection Hk as <-. exists (al_state l), (al_state s), hd.
  change (ah_baseline _) with (al_baseline s). rewrite Hb. done.
Qed.

(** What the three intents bind. *)
Definition journalled_intent (runtime : string) (selected : UserMapping) (h : UserActivationHistory) (c : device_call) : Prop :=
  let b := ah_baseline h in
  b@["runtime_generation"] = VStr runtime
  ∧ match c with
    | CLoad path => ah_phase h = U_LOAD_INTENT ∧ path = um_keybag_path selected
        ∧ b@["keybag_sha256"] = VStr (um_keybag_sha256 selected)
    | CBind handle alias => ah_phase h = U_BIND_INTENT ∧ ah_temporary_handle h = Some handle
        ∧ alias = special_bag_alias selected ∧ VInt alias ==? b@["special_alias"] = true
    | CUnlock alias _ => ah_phase h = U_UNLOCK_INTENT
        ∧ alias = special_bag_alias selected ∧ VInt alias ==? b@["special_alias"] = true
    | _ => True
    end.

Lemma bound_agrees b runtime fields k (v : value) : (bound runtime fields)@[k] = v →
  unbound b (bound runtime fields) k = false → v ==? b@[k] = true.
Proof. intros <- H. by apply negb_false_iff in H. Qed.

Lemma bound_text b runtime fields k (s : string) : (bound runtime fields)@[k] = VStr s →
  unbound b (bound runtime fields) k = false → b@[k] = VStr s.
Proof. intros Hk H. apply (bound_agrees _ _ _ _ _ Hk) in H. rewrite py_eq_sym in H. by apply py_eq_str_l in H. Qed.

(** Opens the handler of the last record. *)
Ltac handler_inv Hin Hd :=
  unfold activation_handlers in Hin; list_cases Hin; try discriminate Hin; injection Hin as ->;
  match type of Hd with ?f _ _ _ _ = _ => unfold f in Hd end; cbv zeta in Hd; activation_inv.

Lemma load_intended runtime selected h :
  last_move h "USER_KEYBAG_LOAD_INTENT"
    (bound runtime [("keybag_sha256", VStr (um_keybag_sha256 selected)); ("mutation_possible", VBool true)]) →
  journalled_intent runtime selected h (CLoad (um_keybag_path selected)).
Proof.
  intros (s & s' & hd & Hin & Hd & Hp & Ht). handler_inv Hin Hd. unfold journalled_intent. cbv zeta. rewrite Hp.
  split; [by eapply bound_text; [|eassumption]|]. split; [done|]. split; [done|]. by eapply bound_text; [|eassumption].
Qed.

Lemma bind_intended runtime selected h handle :
  last_move h "USER_ALIAS_BIND_INTENT"
    (bound runtime [("handle", VInt handle); ("special_alias", VInt (special_bag_alias selected));
                    ("mutation_possible", VBool true)]) →
  journalled_intent runtime selected h (CBind handle (special_bag_alias selected)).
Proof.
  intros (s & s' & hd & Hin & Hd & Hp & Ht). handler_inv Hin Hd. unfold journalled_intent. cbv zeta. rewrite Hp, Ht.
  split; [by eapply bound_text; [|eassumption]|]. split; [done|]. split; [|split; [done|by eapply bound_agrees; [|eassumption]]].
  match goal with H : _ ==? handle_value _ = true |- _ => rename H into Hh end.
  change ((bound _ _)@["handle"]) with (VInt handle) in Hh. unfold handle_value in Hh. cbn [a_temporary_handle set_field].
  destruct (a_temporary_handle s); [|discriminate Hh]. apply py_eq_ints in Hh. by subst.
Qed.

Lemma unlock_intended runtime selected h password :
  last_move h "USER_ALIAS_UNLOCK_INTENT"
    (bound runtime [("special_alias", VInt (special_bag_alias selected)); ("mutation_possible", VBool true)]) →
  journalled_intent runtime selected h (CUnlock (special_bag_alias selected) password).
Proof.
  intros (s & s' & hd & Hin & Hd & Hp & Ht). handler_inv Hin Hd. unfold journalled_intent. cbv zeta. rewrite Hp.
    (split; [by eapply bound_text; [|eassumption]|]; split; [done|]; split; [done|by eapply bound_agrees; [|eassumption]]).
Qed.

Lemma ready_reached h ev : last_move h "USER_ACTIVATION_READY" ev → ah_phase h = U_READY.
Proof. intros (s & s' & hd & Hin & Hd & Hp & Ht). handler_inv Hin Hd. by rewrite Hp. Qed.

(** ** Runs *)

Section runs.
Context (env : surroundings) (selected : UserMapping) (runtime : string).

Definition whole (w : world) : Prop := complete_lines (entry_content (fs_entry (w_fs w))) = true.

(** When the call was made, the journal said that it would be. *)
Definition intended (e : device_call * fs) : Prop := mutating e.1 = true →
  ∃ h, activation_read (su_euid env) (fs_entry e.2) = Ok h ∧ journalled_intent runtime selected h e.1.

Definition commands (w : world) : list device_call := filter (λ c, mutating c = true) (map fst (w_trace w)).

(** The buffer holds [p], the commands sent are [L], each after its intent. *)
Record at_state (p : bytes) (L : list device_call) (w : world) : Prop := {
  at_password : w_password w = p;
  at_intended : Forall intended (w_trace w);
  at_commands : commands w = L;
}.
Definition reads (w : world) (h : UserActivationHistory) : Prop :=
  activation_read (su_euid env) (fs_entry (w_fs w)) = Ok h.
(** The calls made so far. *)
Definition calls (w : world) : list device_call := map fst (w_trace w).

(** The last call is the observation that answered [a]. *)
Definition observed (tr : transport) (alias : Z) (past : list device_call) (a : AliasEvidence) (w : world) : Prop :=
  calls w = past ++ [CObserve alias] ∧ tr_observe_alias tr past alias = Ok (Returned (Some a)).

Lemma at_fs p L w s n : at_state p L w → at_state p L (w <| w_fs := s |> <| w_accesses := n |>).
Proof. intros [? ? ?]. by split. Qed.

Lemma at_call p L w c : at_state p L w → mutating c = false →
  at_state p L (w <| w_trace := w_trace w ++ [(c, w_fs w)] |>).
Proof.
  intros [? ? Hc] Hm. split; [done| |].
  - apply Forall_app. split; [done|]. constructor; [|done]. intros H. cbn in H. congruence.
  - unfold commands in *. cbn [w_trace set_field]. rewrite map_app, filter_app, Hc. cbn [map fst].
    by rewrite filter_cons_False, filter_nil, app_nil_r by (by rewrite Hm).
Qed.

Lemma at_command p L w c h : at_state p L w → mutating c = true → reads w h → journalled_intent runtime selected h c →
  at_state p (L ++ [c]) (w <| w_trace := w_trace w ++ [(c, w_fs w)] |>).
Proof.
  intros [? ? Hc] Hm Hr Hh. split; [done| |].
  - apply Forall_app. split; [done|]. constructor; [|done]. intros _. by exists h.
  - unfold commands in *. cbn [w_trace set_field]. rewrite map_app, filter_app, Hc. cbn [map fst].
    by rewrite filter_cons_True, filter_nil.
Qed.

Context (lines : orderly env).

(** *** The journal calls *)

Lemma journal_append_wp op m ev p L w : at_state p L w → whole w →
  wp (journal_append env op m ev)
    (λ h w', at_state p L w' ∧ whole w' ∧ reads w' h ∧ last_move h m ev ∧ ah_operation_id h = VStr op
       ∧ calls w' = calls w)
    (λ _ w', at_state p L w') w.
Proof.
  intros Hat Hw. unfold wp, journal_append. cbv zeta.
  destruct (activation_append_checked _ _ _ _ _ _ _ _) as [s r] eqn:Ha. destruct r as [h|e]; [|by apply at_fs].
  split; [by apply at_fs|]. unfold activation_append_checked in Ha.
  apply append_checked_appends in Ha as (Hc & rs & record & Hr & Hne & Hv & Hs);
    [|apply lines, lines, Hw|apply lines].
  split; [exact Hc|]. destruct (activation_last_move _ _ _ _ _ _ Hne Hv Hs) as [? ?]. split; [|done].
  unfold reads, activation_read, read_history. cbn [w_fs set_field]. rewrite Hr. exact Hv.
Qed.

Lemma terminal_wp {A} op stage reason unknown p L w (Q : A → world → Prop) : at_state p L w →
  wp (terminal env op runtime stage reason unknown) Q (λ _ w', at_state p L w') w.
Proof.
  intros Hat. unfold terminal. apply wp_bind, wp_catch. cbn [any_class].
  assert (∀ m ev, wp (journal_append env op m ev) (λ _ w', at_state p L w') (λ _ w', at_state p L w') w) as Hj.
  { intros m ev. unfold wp, journal_append. cbv zeta.
    destruct (activation_append_checked _ _ _ _ _ _ _ _) as [s [h|e]]; by apply at_fs. }
  apply wp_bind. eapply wp_weaken; [apply Hj| |]; cbv beta.
  - intros _ w1 H1. apply wp_ret. by apply wp_throw.
  - intros _ w1 H1. apply wp_ret. by apply wp_throw.
Qed.

Lemma append_after_mutation_wp op m ev stage p L w : at_state p L w → whole w →
  wp (append_after_mutation env op runtime m ev stage)
    (λ h w', at_state p L w' ∧ whole w' ∧ reads w' h ∧ last_move h m ev ∧ ah_operation_id h = VStr op
       ∧ calls w' = calls w)
    (λ _ w', at_state p L w') w.
Proof.
  intros Hat Hw. unfold append_after_mutation. apply wp_catch. cbn [any_class].
  eapply wp_weaken; [by eapply journal_append_wp|done|]. cbv beta. intros _ w1 H1. by apply terminal_wp.
Qed.

(** *** The transport calls *)

Lemma sync_wp {A} (v : returned A) label (Q : A → world → Prop) E w :
  (∀ a, v = Returned a → Q a w) → (∀ e, E e w) → wp (sync v label) Q E w.
Proof. intros HQ HE. destruct v as [|a]; [by apply wp_throw|by apply wp_ret, HQ]. Qed.

Lemma call_wp {A} c (answer : list device_call → result A) p L w :
  at_state p L w → mutating c = false →
  wp (transport_call c answer) (λ _ w', at_state p L w' ∧ w_fs w' = w_fs w)
    (λ _ w', at_state p L w' ∧ w_fs w' = w_fs w) w.
Proof.
  intros Hat Hm. unfold wp, transport_call. pose proof (at_call _ _ _ _ Hat Hm) as H.
  by destruct (answer _).
Qed.

Lemma command_wp {A} c (answer : list device_call → result A) p L w h :
  at_state p L w → mutating c = true → reads w h → journalled_intent runtime selected h c →
  wp (transport_call c answer) (λ _ w', (at_state p (L ++ [c]) w' ∧ w_fs w' = w_fs w) ∧ calls w' = calls w ++ [c])
    (λ _ w', (at_state p (L ++ [c]) w' ∧ w_fs w' = w_fs w) ∧ calls w' = calls w ++ [c]) w.
Proof.
  intros Hat Hm Hr Hh. unfold wp, transport_call. pose proof (at_command _ _ _ _ _ Hat Hm Hr Hh) as H.
  destruct (answer _); (split; [by split|apply map_app]).
Qed.

Lemma observe_wp tr alias p L w : at_state p L w →
  wp (observe tr alias) (λ a w', (at_state p L w' ∧ w_fs w' = w_fs w) ∧ observed tr alias (calls w) a w')
    (λ _ w', at_state p L w' ∧ w_fs w' = w_fs w) w.
Proof.
  intros Hat. unfold observe. apply wp_bind. unfold wp at 1, transport_call.
  pose proof (at_call _ _ _ (CObserve alias) Hat eq_refl) as H1.
  destruct (tr_observe_alias _ _ _) as [answer|e] eqn:Hanswer; [|done].
  apply wp_bind, sync_wp; [|done]. intros [a|] ->; [|by apply wp_throw].
  apply wp_ret. split; [done|]. split; [apply map_app|exact Hanswer].
Qed.

(** [try: ... except BaseException: _terminal(...)] *)
Lemma caught_wp {A} op (m : act world A) stage reason p L (Q : A → world → Prop) w :
  wp m Q (λ _ w', at_state p L w') w →
  wp (catch any_class m (λ _, terminal env op runtime stage reason true)) Q (λ _ w', at_state p L w') w.
Proof.
  intros Hm. apply wp_catch. cbn [any_class]. eapply wp_weaken; [exact Hm|done|]. cbv beta.
  intros e w1 H1. by apply terminal_wp.
Qed.

(** A refused result. *)
Lemma refused_wp {A} op (b : bool) (m : act world A) stage reason unknown p L (Q : A → world → Prop) w :
  at_state p L w → (b = false → wp m Q (λ _ w', at_state p L w') w) →
  wp (if b then terminal env op runtime stage reason unknown else m) Q (λ _ w', at_state p L w') w.
Proof. intros Hat Hm. apply wp_if; [|done]. intros _. by apply terminal_wp. Qed.

(** A command and its read-back. *)
Lemma readback_wp (command : act world (returned value)) tr alias past p L w0 w :
  wp command (λ _ w', (at_state p L w' ∧ w_fs w' = w_fs w0) ∧ calls w' = past)
    (λ _ w', (at_state p L w' ∧ w_fs w' = w_fs w0) ∧ calls w' = past) w →
  wp (command_and_readback command (observe tr alias))
    (λ r w', (at_state p L w' ∧ w_fs w' = w_fs w0) ∧ observed tr alias past r.2 w') (λ _ w', at_state p L w') w.
Proof.
  intros Hc. unfold command_and_readback.
  apply wp_bind. apply wp_weaken with (Q := λ _ w', (at_state p L w' ∧ w_fs w' = w_fs w0) ∧ calls w' = past)
    (E := λ _ w', at_state p L w'); [| |done]; cbv beta.
  - apply wp_catch. cbn [any_class]. apply wp_bind. eapply wp_weaken; [exact Hc| |]; cbv beta.
    + intros v w1 H1. unfold status. apply wp_bind, wp_bind, sync_wp; [|intros _; by apply wp_ret].
      intros a _. destruct a; try (apply wp_throw; by apply wp_ret).
      apply wp_if; intros _; [by apply wp_ret, wp_ret|apply wp_throw; by apply wp_ret].
    + intros e w1 H1. by apply wp_ret.
  - intros [st raised] w1 [[H1 Hf] <-]. apply wp_bind. eapply wp_weaken; [by apply observe_wp| |]; cbv beta.
    + intros a w2 [[H2 Hf2] Ho]. apply wp_ret. split; [split; [done|congruence]|exact Ho].
    + by intros e w2 [H2 _].
Qed.

Lemma assess_wp capability persistent op observed reason p L w : at_state p L w →
  wp (assess_read_back env selected capability persistent op runtime observed reason)
    (λ d w', w' = w ∧ assess selected capability persistent observed = Ok d) (λ _ w', at_state p L w') w.
Proof.
  intros Hat. unfold assess_read_back. apply wp_catch. cbn [any_class]. apply wp_pure.
  - by intros d Hd.
  - intros e _. by apply terminal_wp.
Qed.

(** *** The stages *)

(** The last call is the observation that follows a command, and what it saw is
    a ready user. *)
Definition found_ready (tr : transport) (capability : string) (persistent : PersistentEvidence) (w : world) : Prop :=
  ∃ past c a d, mutating c = true ∧ observed tr (special_bag_alias selected) (past ++ [c]) a w
    ∧ assess selected capability persistent a = Ok d ∧ rd_state d = "ready".

Section stages_proofs.
Context (tr : transport) (op : string).
#[local] Abbreviation load := (CLoad (um_keybag_path selected)).
#[local] Abbreviation bind handle := (CBind handle (special_bag_alias selected)).
#[local] Abbreviation unlock p := (CUnlock (special_bag_alias selected) p).

Lemma found_ready_kept capability persistent w w' : calls w' = calls w →
  found_ready tr capability persistent w → found_ready tr capability persistent w'.
Proof. intros Hk (past & c & a & d & Hc & [Hw Ha] & Hd). exists past, c, a, d. split; [done|]. split; [|done]. split; [congruence|done]. Qed.

Lemma whole_same w w' : whole w → w_fs w' = w_fs w → whole w'.
Proof. unfold whole. by intros ? ->. Qed.

Lemma load_keybag_wp p w : at_state p [] w → whole w →
  wp (load_keybag env tr selected op runtime)
    (λ _ w', at_state p [load] w' ∧ whole w') (λ _ w', ∃ L, L `prefix_of` [load] ∧ at_state p L w') w.
Proof.
  intros Hat Hw. unfold load_keybag.
  apply wp_bind. eapply wp_weaken; [by apply journal_append_wp| |]; cbv beta.
  2:{ intros _ w1 H1. exists []. split; [apply prefix_nil|done]. }
  intros h w1 (H1 & Hw1 & Hr & Hm & _). apply load_intended in Hm.
  eapply wp_weaken with (E := λ _ w', at_state p [load] w'); [|intros a w' H; exact H|intros _ w' ?; by exists [load]].
  apply wp_bind, caught_wp, wp_bind. eapply wp_weaken; [by eapply (command_wp load _ p [])| |intros _ w' [[Hx _] _]; exact Hx]; cbv beta.
  intros v w2 [[H2 Hf2] _]. pose proof (whole_same _ _ Hw1 Hf2) as Hw2.
  apply wp_bind, sync_wp; [|done]. intros a _. destruct a; try by apply wp_throw.
  apply wp_if; intros _; [apply wp_ret|by apply wp_throw].
  apply wp_bind, caught_wp, wp_bind. eapply wp_weaken; [by eapply call_wp| |by intros _ w' []]; cbv beta.
  intros v3 w3 [H3 Hf3]. pose proof (whole_same _ _ Hw2 Hf3) as Hw3. apply sync_wp; [|done]. intros observed _.
  apply wp_bind, refused_wp; [done|]. intros _. apply wp_ret.
  apply wp_bind. eapply wp_weaken; [by apply append_after_mutation_wp| |done]; cbv beta.
  intros h2 w4 (H4 & Hw4 & _). by apply wp_ret.
Qed.

Lemma bind_alias_wp capability persistent handle p L w : at_state p L w → whole w →
  wp (bind_alias env tr selected capability persistent op runtime handle)
    (λ ready w', at_state p (L ++ [bind handle]) w' ∧ whole w'
       ∧ (ready = true → (∃ h, reads w' h ∧ ah_phase h = U_READY) ∧ found_ready tr capability persistent w'))
    (λ _ w', ∃ L', L' `prefix_of` L ++ [bind handle] ∧ at_state p L' w') w.
Proof.
  intros Hat Hw. unfold bind_alias.
  apply wp_bind. eapply wp_weaken; [by apply append_after_mutation_wp| |]; cbv beta.
  2:{ intros _ w1 H1. exists L. split; [by eexists|done]. }
  intros h w1 (H1 & Hw1 & Hr & Hm & _). apply bind_intended in Hm.
  eapply wp_weaken with (E := λ _ w', at_state p (L ++ [bind handle]) w'); [|intros a w' H; exact H|intros _ w' ?; by eexists].
  apply wp_bind, caught_wp. eapply wp_weaken; [eapply (readback_wp _ _ _ _ _ _ w1); by eapply command_wp| |done]; cbv beta.
  intros [[st raised] after] w2 [[H2 Hf] Ho]. apply (whole_same _ _ Hw1) in Hf.
  apply wp_bind. eapply wp_weaken; [by apply assess_wp| |done]; cbv beta. intros d w3 [-> Hd]. cbv zeta.
  apply wp_bind, refused_wp; [done|]. intros _.
  apply wp_ret, wp_bind. eapply wp_weaken; [by apply append_after_mutation_wp| |done]; cbv beta.
  intros h2 w3' (H3 & Hw3 & _ & _ & _ & Hk3). apply wp_if; intros Hready.
  - apply wp_bind. eapply wp_weaken; [by apply append_after_mutation_wp| |done]; cbv beta.
    intros h4 w4 (H4 & Hw4 & Hr4 & Hm4 & _ & Hk4). apply wp_ret. split; [done|]. split; [done|]. intros _.
    split; [exists h4; split; [done|]; by eapply ready_reached|]. apply String.eqb_eq in Hready.
    apply (found_ready_kept _ _ w2); [congruence|]. eexists _, _, _, _. split_and!; [|exact Ho|exact Hd|exact Hready]. done.
  - apply refused_wp; [done|]. intros _. by apply wp_ret.
Qed.

Lemma unlock_alias_wp capability persistent (performed : bool) p L w : at_state p L w → whole w →
  wp (unlock_alias env tr selected capability persistent op runtime performed)
    (λ _ w', at_state p (L ++ [unlock p]) w' ∧ (∃ h, reads w' h ∧ ah_phase h = U_READY)
       ∧ found_ready tr capability persistent w')
    (λ _ w', ∃ L', L' `prefix_of` L ++ [unlock p] ∧ at_state p L' w') w.
Proof.
  intros Hat Hw. unfold unlock_alias. cbv zeta.
  apply wp_bind. apply wp_weaken with (Q := λ h w', at_state p L w' ∧ whole w' ∧ reads w' h
    ∧ last_move h "USER_ALIAS_UNLOCK_INTENT" (bound runtime [("special_alias", VInt (special_bag_alias selected));
        ("mutation_possible", VBool true)])) (E := λ _ w', at_state p L w'); cbv beta.
  { apply wp_if; intros _.
    - eapply wp_weaken; [by apply append_after_mutation_wp|naive_solver|done].
    - eapply wp_weaken; [by apply journal_append_wp|naive_solver|done]. }
  2:{ intros _ w1 H1. exists L. split; [by eexists|done]. }
  intros h w1 (H1 & Hw1 & Hr & Hm).
  eapply wp_weaken with (E := λ _ w', at_state p (L ++ [unlock p]) w'); [|intros a w' H; exact H|intros _ w' ?; by eexists].
  apply wp_bind, caught_wp, wp_bind, wp_self. rewrite (at_password _ _ _ H1).
  pose proof (unlock_intended _ _ _ p Hm) as Hi.
  eapply wp_weaken; [eapply (readback_wp _ _ _ _ _ _ w1); by eapply command_wp| |done]; cbv beta.
  intros [[st raised] after] w2 [[H2 Hf] Ho]. apply (whole_same _ _ Hw1) in Hf.
  apply wp_bind. eapply wp_weaken; [by apply assess_wp| |done]; cbv beta. intros d w3 [-> Hd]. cbv zeta.
  apply wp_bind, refused_wp; [done|]. intros Hready%negb_false_iff%String.eqb_eq.
  apply wp_ret, wp_bind. eapply wp_weaken; [by apply append_after_mutation_wp| |done]; cbv beta.
  intros h4 w4 (H4 & Hw4 & Hr4 & Hm4 & _ & Hk4). apply wp_ret. split; [done|].
  split; [exists h4; split; [done|]; by eapply ready_reached|].
  apply (found_ready_kept _ _ w2); [exact Hk4|]. eexists _, _, _, _. split_and!; [|exact Ho|exact Hd|exact Hready]. done.
Qed.

Lemma journal_create_wp mapping_set capability persistent alias boot rt operation_id fresh p L w :
  at_state p L w → whole w →
  wp (journal_create env mapping_set selected capability persistent alias boot rt operation_id fresh)
    (λ _ w', at_state p L w' ∧ whole w') (λ _ w', at_state p L w') w.
Proof.
  intros Hat Hw. unfold wp, journal_create, activation_create. cbv zeta.
  destruct (activation_plan _ _ _ _ _ _ _ _ _) as [[o b]|e]; [|by apply at_fs].
  destruct (append _ _ _ _ _ _ _ _ _) as [s [r|e]] eqn:Ha; [|by apply at_fs].
  cbv zeta. destruct (activation_read _ _) as [h|e]; [|by apply at_fs].
  split; [by apply at_fs|]. apply lines.
  destruct (append_reads_back _ _ _ _ _ _ _ _ _ _ _ (proj1 lines _ _ Hw) Ha) as (rs & _ & _ & Hc & _). exact Hc.
Qed.
End stages_proofs.

(** *** The operation *)

(** The commands of an operation, in order: at most one of each kind. *)
Definition script (p : bytes) (L : list device_call) : Prop :=
  L `prefix_of` [CUnlock (special_bag_alias selected) p]
  ∨ ∃ handle, L `prefix_of` [CLoad (um_keybag_path selected); CBind handle (special_bag_alias selected);
                             CUnlock (special_bag_alias selected) p].

Lemma script_nil p : script p [].
Proof. left. apply prefix_nil. Qed.

Context (tr : transport) (mapping_set : UserMappingSet) (capability : string) (persistent : PersistentEvidence)
  (authorization : UserPolicyDecision) (boot : string) (clock : result value) (fresh : string).

Definition activation_authorized : bool := String.eqb (pd_state authorization) "activation-authorized".
(** The decision was consumed for this very operation. *)
Definition authority : Prop := ∃ t op, clock = Ok t
  ∧ require_bound_authority authorization mapping_set selected (VStr capability) (VStr boot) (VStr runtime) t
      activation_authorized = Ok op.

(** What holds whenever the operation ends. *)
Record sound (p : bytes) (L : list device_call) (w : world) : Prop := {
  so_at : at_state p L w;
  so_script : script p L;
  so_authority : w_trace w ≠ [] → authority;
  so_activation : L ≠ [] → activation_authorized = true;
}.
(** A ready user was all there was to see. *)
Definition saw_ready (w : world) : Prop := ∃ a d, observed tr (special_bag_alias selected) [] a w
  ∧ assess selected capability persistent a = Ok d ∧ rd_state d = "ready".
Definition concluded (before w : world) (L : list device_call) (r : UserActivationOperationResult) : Prop :=
  r = OperationResult "already-ready" false false ∧ L = [] ∧ w_fs w = w_fs before ∧ saw_ready w
  ∨ r = OperationResult "ready" true false ∧ L ≠ [] ∧ (∃ h, reads w h ∧ ah_phase h = U_READY)
    ∧ found_ready tr capability persistent w.

Lemma authorized_run_wp password w : w_trace w = [] → whole w → tr_runtime_generation tr = VStr runtime →
  wp (authorized_run env tr mapping_set selected capability persistent password authorization boot clock fresh)
    (λ r w', ∃ L, sound (w_password w) L w' ∧ concluded w w' L r)
    (λ _ w', ∃ L, sound (w_password w) L w') w.
Proof.
  intros Htr Hw Hrt. set (p := w_password w). unfold authorized_run. rewrite Hrt.
  assert (at_state p [] w) as Hat by (split; [done|by rewrite Htr|unfold commands; by rewrite Htr]).
  assert (∃ L, sound p L w) as Hstart.
  { exists []. split; [done|apply script_nil|by rewrite Htr|done]. }
  apply wp_bind, wp_catch. cbn [any_class]. apply wp_pure; [intros t Ht|intros e _; by apply wp_throw].
  cbv zeta. fold activation_authorized. apply wp_bind, wp_catch.
  apply wp_pure; [intros o Ho|intros e _; by destruct (bool_decide _)].
  assert authority as Hauth by (by exists t, o).
  assert (∀ w', at_state p [] w' → ∃ L, sound p L w') as Hnone.
  { intros w' H'. exists []. split; [done|apply script_nil|done|done]. }
  apply wp_bind, wp_self, wp_bind, wp_throw_if; intros _; [done|].
  apply wp_bind, wp_catch. cbn [any_class].
  apply wp_bind. eapply wp_weaken; [by apply observe_wp| |intros e w1 [H1 _]; apply wp_throw; auto]. cbv beta.
  intros before w1 [[H1 Hf1] Hobs]. apply wp_bind, wp_pure; [intros d Hd|intros e _; apply wp_throw; auto].
  assert (calls w = []) as Hnil by (unfold calls; by rewrite Htr). rewrite Hnil in Hobs.
  apply wp_ret. apply wp_if; intros Hready.
  { apply wp_ret. exists []. split; [split; [done|apply script_nil|done|done]|]. left.
    apply String.eqb_eq in Hready. split; [done|]. split; [done|]. split; [done|]. by exists before, d. }
  apply wp_bind, wp_throw_if; intros Hact; [auto|]. apply negb_false_iff in Hact.
  apply wp_bind, wp_throw_if; intros _; [auto|].
  assert (∀ L w', script p L → at_state p L w' → ∃ L, sound p L w') as Hany by (intros L w' ? ?; by exists L).
  apply (whole_same _ _ Hw) in Hf1.
  apply wp_bind, wp_catch. eapply wp_weaken; [by apply journal_create_wp| |]; cbv beta.
  2:{ intros e w2 H2. destruct (bool_decide _); [apply wp_throw|]; auto. }
  intros h w2 [H2 Hw2]. set (op := str_value (ah_operation_id h)).
  assert (∀ w' L, sound p L w' → L ≠ [] → (∃ h, reads w' h ∧ ah_phase h = U_READY) →
    found_ready tr capability persistent w' →
    ∃ L, sound p L w' ∧ concluded w w' L (OperationResult "ready" true false)) as Hend.
  { intros w' L ? ? ? ?. exists L. split; [done|]. by right. }
  apply wp_if; intros _.
  - apply wp_bind. eapply wp_weaken; [by apply load_keybag_wp| |].
    2:{ cbv beta. intros _ w3 (L & HL & H3). apply (Hany L); [|done]. right. exists 0.
        etrans; [exact HL|]. by eexists. }
    cbv beta. intros handle w3 [H3 Hw3].
    apply wp_bind. eapply wp_weaken; [by apply bind_alias_wp| |]; cbv beta.
    2:{ intros _ w4 (L & HL & H4). apply (Hany L); [|done]. right. exists handle. etrans; [exact HL|]. by eexists. }
    intros ready w4 (H4 & Hw4 & Hr). apply wp_if; intros ->.
    + apply wp_ret. eapply Hend; [split; [exact H4| |done|done]|done|by apply Hr|by apply Hr]. right. exists handle. by eexists.
    + apply wp_bind. eapply wp_weaken; [by apply unlock_alias_wp| |]; cbv beta.
      * intros _ w5 (H5 & Hr5 & Hf5). apply wp_ret. eapply Hend; [split; [exact H5| |done|done]|done|done|done]. right. by exists handle.
      * intros _ w5 (L & HL & H5). apply (Hany L); [|done]. right. by exists handle.
  - apply wp_bind. eapply wp_weaken; [by apply unlock_alias_wp| |]; cbv beta.
    + intros _ w5 (H5 & Hr5 & Hf5). apply wp_ret. eapply Hend; [split; [exact H5| |done|done]|done|done|done]. by left.
    + intros _ w5 (L & HL & H5). apply (Hany L); [|done]. by left.
Qed.
End runs.

Section theorems.
Context (env : surroundings) (tr : transport) (mapping_set : UserMappingSet) (selected : UserMapping)
  (capability : string) (persistent : PersistentEvidence) (password : password_argument)
  (authorization : UserPolicyDecision) (boot : string) (clock : result value) (fresh runtime : string).
Hypothesis lines : orderly env.
Hypothesis generation : tr_runtime_generation tr = VStr runtime.

#[local] Abbreviation run_here := (run env tr mapping_set selected capability persistent password authorization boot clock fresh).
#[local] Abbreviation sound_here := (sound env selected runtime mapping_set capability authorization boot clock).

Lemma run_wp w : w_trace w = [] → whole w →
  wp run_here
    (λ r w', ∃ L w1, sound_here (w_password w) L w1 ∧ concluded env selected tr capability persistent w w1 L r ∧ w' = erase password w1)
    (λ _ w', ∃ L w1, sound_here (w_password w) L w1 ∧ w' = erase password w1) w.
Proof.
  intros Ht Hw. unfold run.
  assert (∀ p : password_argument, wp (finally (authorized_run env tr mapping_set selected capability persistent p
      authorization boot clock fresh) (erase p))
    (λ r w', ∃ L w1, sound_here (w_password w) L w1 ∧ concluded env selected tr capability persistent w w1 L r ∧ w' = erase p w1)
    (λ _ w', ∃ L w1, sound_here (w_password w) L w1 ∧ w' = erase p w1) w) as Hrun.
  { intros p. apply wp_finally. eapply wp_weaken; [by apply authorized_run_wp with (runtime := runtime)| |]; cbv beta.
    - intros a w1 (L & ? & ?). by exists L, w1.
    - intros e w1 (L & ?). by exists L, w1. }
  destruct password; [apply Hrun|apply Hrun|]. apply wp_throw. exists [], w. split; [|done].
  split; [split; [done|by rewrite Ht|unfold commands; by rewrite Ht]|apply script_nil|done|done].
Qed.

Lemma erased p L w1 : sound_here p L w1 →
  w_trace (erase password w1) = w_trace w1 ∧ w_fs (erase password w1) = w_fs w1 ∧ commands (erase password w1) = L
  ∧ (is_wipeable password = true → w_password (erase password w1) = zeros (length p)).
Proof.
  intros [[Hp _ Hc] _ _ _]. unfold erase. destruct (is_wipeable password); [|done].
  split; [done|]. split; [done|]. split; [exact Hc|]. intros _. cbn. by rewrite Hp.
Qed.

(** C3: No command without its record.  Other processes may change the journal
    before and inside every access, as long as they leave whole lines, start
    from whole lines, and do not come between an append and the reading back
    that follows it; the system calls and the transport may do anything.  Then,
    when a keybag is loaded, an alias bound or unlocked, the journal as the
    operation last read it back ends with exactly this intent, bound to the
    runtime, the keybag and the alias; the commands are sent in order and at
    most once each; the transport is not touched without a decision consumed
    for this operation, and not commanded without a separate activation grant;
    and the password buffer is zero afterwards. *)
Theorem activation_commands_journalled w r w' : w_trace w = [] → whole w → run_here w = (r, w') →
  Forall (intended env selected runtime) (w_trace w')
  ∧ script selected (w_password w) (commands w')
  ∧ (w_trace w' ≠ [] → authority selected runtime mapping_set capability authorization boot clock)
  ∧ (commands w' ≠ [] → pd_state authorization = "activation-authorized")
  ∧ (is_wipeable password = true → w_password w' = zeros (length (w_password w))).
Proof.
  intros Ht Hw Hrun. pose proof (run_wp w Ht Hw) as H. unfold wp in H. rewrite Hrun in H.
  assert (∃ L w1, sound_here (w_password w) L w1 ∧ w' = erase password w1) as (L & w1 & Hs & ->)
    by (destruct r; destruct H as (L & w1 & ?); [naive_solver|by exists L, w1]).
  destruct (erased _ _ _ Hs) as (E1 & _ & E3 & E4). destruct Hs as [[_ Hi Hc] Hsc Ha Hact].
  rewrite E1, E3. split; [done|]. split; [done|]. split; [done|]. split; [|done].
  intros HL. by apply String.eqb_eq, Hact.
Qed.

(** C4: An activation that returns has proved its result, under the same
    conditions on other processes.  Either it reports a user who was ready
    before: then its only call is one observation, whose answer is assessed as
    ready, no command was sent and the journal is untouched.  Or it reports a
    user made ready: then its last two calls are the last command and the
    observation after it, whose answer is assessed as ready, and the journal as
    last read back is in the ready phase. *)
Theorem activation_result_proved w r w' : w_trace w = [] → whole w → run_here w = (Ok r, w') →
  (r = OperationResult "already-ready" false false ∧ commands w' = [] ∧ w_fs w' = w_fs w
   ∧ ∃ a d, map fst (w_trace w') = [CObserve (special_bag_alias selected)]
       ∧ tr_observe_alias tr [] (special_bag_alias selected) = Ok (Returned (Some a))
       ∧ assess selected capability persistent a = Ok d ∧ rd_state d = "ready")
  ∨ (r = OperationResult "ready" true false
     ∧ (∃ h, activation_read (su_euid env) (fs_entry (w_fs w')) = Ok h ∧ ah_phase h = U_READY)
     ∧ ∃ past c a d, mutating c = true ∧ map fst (w_trace w') = past ++ [c; CObserve (special_bag_alias selected)]
         ∧ tr_observe_alias tr (past ++ [c]) (special_bag_alias selected) = Ok (Returned (Some a))
         ∧ assess selected capability persistent a = Ok d ∧ rd_state d = "ready").
Proof.
  intros Ht Hw Hrun. destruct (wp_Ok _ _ _ _ _ _ (run_wp w Ht Hw) Hrun) as (L & w1 & Hs & Hc & ->).
  destruct (erased _ _ _ Hs) as (E1 & E2 & E3 & _). rewrite E1, E2, E3.
  destruct Hc as [(-> & HL & Hf & a & d & [Hk Ha] & Hd)|(-> & _ & Hh & past & c & a & d & Hc & [Hk Ha] & Hd)]; [left|right].
  - split; [done|]. split; [done|]. split; [done|]. by exists a, d.
  - split; [done|]. split; [done|]. exists past, c, a, d. split; [done|]. rewrite <-app_assoc in Hk. by split.
Qed.
End theorems.

(** ** Recovery *)

Definition resolved_phase (resolution : string) : UserActivationPhase :=
  if String.eqb resolution "ready" then U_RECOVERED_READY
  else if String.eqb resolution "not-ready" then U_RECOVERED_NOT_READY
  else if String.eqb resolution "blocked" then U_RECOVERY_BLOCKED
  else U_QUARANTINED.

(** What an assessment says of the observation. *)
Inductive recovery_case (m : UserMapping) (a : AliasEvidence) (state : string) : Prop :=
  | case_absent : state = "alias-absent" → ae_present a = VBool false → recovery_case m a state
  | case_quarantine b : state ∈ ["persistent-binding-mismatch"; "alias-binding-mismatch"; "unknown-lock-state";
                                 "catacomb-corrupted"; "capability-denied"] →
      ae_present a = VBool b → recovery_case m a state
  | case_bound z : state ∈ ["ready"; "device-locked"; "before-first-unlock"; "keybag-lockout"] →
      alias_bound m a z → recovery_case m a state.

Lemma assess_recovery_case m c p a d : assess m c p a = Ok d → recovery_case m a (rd_state d).
Proof.
  intros H. pose proof (assess_cases _ _ _ _ _ H) as Hc. unfold assess in H.
  apply bind_Ok in H as (u & [_ _ Ha]%validate_evidence_wf & _).
  assert (∃ b, ae_present a = VBool b) as [b Hb] by (destruct Ha as [?|[? _]]; eauto).
  destruct Hc as [_|_ _ _|_ _ _ Hp|_ _ _ _ _|z _ _ _ Hz _]; cbn [rd_state unready].
  - by eapply case_quarantine; [by apply (bool_decide_unpack _)|].
  - by eapply case_quarantine; [by apply (bool_decide_unpack _)|].
  - by apply case_absent.
  - by eapply case_quarantine; [by apply (bool_decide_unpack _)|].
  - unfold assess_lock_state.
    repeat match goal with |- context [if ?x then _ else _] => destruct x end; cbn [rd_state unready];
      first [eapply case_bound; [by apply (bool_decide_unpack _)|exact Hz]
            |eapply case_quarantine; [by apply (bool_decide_unpack _)|exact Hb]].
Qed.

(** What a recovery concludes: nothing of the operation can have happened after
    the keybag was loaded but before it was bound, so a bound alias is then
    somebody else's work. *)
Definition before_bind (from : UserActivationPhase) : Prop := from = U_LOAD_INTENT ∨ from = U_HANDLE_OBSERVED.
Inductive resolves (from : UserActivationPhase) : string → string → UserActivationPhase → Prop :=
  | resolves_absent : resolves from "alias-absent" "blocked" U_RECOVERY_BLOCKED
  | resolves_suspect state :
      state ∈ ["persistent-binding-mismatch"; "alias-binding-mismatch"; "unknown-lock-state";
               "catacomb-corrupted"; "capability-denied"] →
      resolves from state "quarantine" U_QUARANTINED
  | resolves_foreign state : before_bind from →
      state ∈ ["ready"; "device-locked"; "before-first-unlock"; "keybag-lockout"] →
      resolves from state "quarantine" U_QUARANTINED
  | resolves_ready : ¬ before_bind from → resolves from "ready" "ready" U_RECOVERED_READY
  | resolves_locked state : ¬ before_bind from → state ∈ ["device-locked"; "before-first-unlock"; "keybag-lockout"] →
      resolves from state "not-ready" U_RECOVERED_NOT_READY.

Lemma early_phase_before from : early_phase (Some from) = true ∧ before_bind from ∨ early_phase (Some from) = false ∧ ¬ before_bind from.
Proof. unfold before_bind. destruct from; cbn; first [by right; split; [|intros [|]]|left; split; by auto]. Qed.

Lemma resolution_resolves from m a state : recovery_case m a state →
  let resolution := resolution_of (early_phase (Some from)) state in
  resolves from state resolution (resolved_phase resolution).
Proof.
  cbv zeta. intros [-> _|b Hs _|z Hs _].
  - apply resolves_absent.
  - assert (resolution_of (early_phase (Some from)) state = "quarantine") as ->; [|by apply resolves_suspect].
    by list_cases Hs; subst state.
  - destruct (early_phase_before from) as [[-> H]|[-> H]].
    + assert (resolution_of true state = "quarantine") as -> by (by list_cases Hs; subst state). by apply resolves_foreign.
    + list_cases Hs; subst state; first [by apply resolves_ready|apply resolves_locked; [done|by apply (bool_decide_unpack _)]].
Qed.

Lemma recheck v (field field' : string) : require_uuid v field = Ok tt →
  checked_uuid UserActivationJournalError v field' = Ok tt.
Proof.
  unfold checked_uuid, require_uuid. destruct v as [| | |s| | |]; try done. destruct (uuid_UUID s); [|done].
  by intros ->%fail_if_Ok.
Qed.

(** The record of a recovery is never refused by its journal. *)
Lemma recovery_record_accepted b s m runtime selected c p a d early :
  assess selected c p a = Ok d → require_uuid runtime "recovery runtime generation" = Ok tt →
  runtime ==? b@["runtime_generation"] = false → a_phase s = U_OUTCOME_UNKNOWN →
  let resolution := resolution_of early (rd_state d) in
  on_activation_recovery b s (recovery_evidence runtime selected a resolution (rd_state d)) m
    = Ok (s <| a_phase := resolved_phase resolution |>).
Proof.
  intros Hd Hu Hf Hs. cbv zeta. apply assess_recovery_case in Hd. set (state := rd_state d) in *. clearbody state.
  set (resolution := resolution_of early state). unfold on_activation_recovery.
  unfold a_not_in. rewrite Hs. cbn [reject fail_if negb mbind result_bind].
  set (ev := recovery_evidence runtime selected a resolution state).
  assert (has_keys ev ["runtime_generation"; "resolution"; "readiness_state"; "alias_present";
    "bag_uuid_matches"; "account_uuid_matches"; "match_ready"; "mutation_performed"] = true) as Hk by reflexivity.
  assert (ev@["runtime_generation"] = runtime) as E1 by reflexivity.
  assert (ev@["resolution"] = VStr resolution) as E2 by reflexivity.
  assert (ev@["readiness_state"] = VStr state) as E3 by reflexivity.
  assert (ev@["alias_present"] = ae_present a) as E4 by reflexivity.
  assert (ev@["bag_uuid_matches"]
    = VBool (truthy (ae_present a) && (ae_bag_uuid a ==? VStr (um_bag_uuid selected)))) as E5 by reflexivity.
  assert (ev@["account_uuid_matches"]
    = VBool (truthy (ae_present a) && (ae_account_uuid a ==? VStr (um_account_uuid selected)))) as E6 by reflexivity.
  assert (ev@["match_ready"] = VBool (String.eqb resolution "ready")) as E7 by reflexivity.
  assert (ev@["mutation_performed"] = VBool false) as E8 by reflexivity.
  clearbody ev. rewrite (proj2 (exact_Ok UserActivationJournalError ev _ _ ev) (conj eq_refl Hk)). cbn [mbind result_bind].
  rewrite E1.
  rewrite (recheck _ _ _ Hu). unfold recovery_phase, observed_all. cbv zeta.
  rewrite Hf, E2, E3, E4, E5, E6, E7, E8. clear E1 E2 E3 E4 E5 E6 E7 E8 Hk Hu Hf ev.
  subst resolution. destruct Hd as [-> ->|x Hq ->|z Hq (-> & _ & -> & -> & _)].
  - reflexivity.
  - list_cases Hq; subst state; reflexivity.
  - rewrite !py_eq_refl. list_cases Hq; subst state; destruct early; reflexivity.
Qed.

Section recovery.
Context (env : surroundings) (observer : transport) (mapping_set : UserMappingSet) (selected : UserMapping)
  (persistent : PersistentEvidence).
#[local] Abbreviation recover_here := (recover env observer mapping_set selected persistent).
#[local] Abbreviation observation := (CObserve (special_bag_alias selected)).

(** The calls made so far are these. *)
Definition calls_are (L : list device_call) (w : world) : Prop := map fst (w_trace w) = L.

(** What a recovery that returns has established: its journal, which read as
    [h0] before, ends with the resolution that the observed state calls for. *)
Definition resolved (h0 : UserActivationHistory) (w : world) (r : UserActivationRecoveryResult) : Prop := ∃ from h,
  ah_terminal_from_phase h0 = Some from ∧ activation_read (su_euid env) (fs_entry (w_fs w)) = Ok h
  ∧ resolves from (rr_readiness_state r) (rr_resolution r) (ah_phase h).

Lemma recovery_reached h runtime a resolution state :
  last_move h "USER_ACTIVATION_RECOVERY_OBSERVED" (recovery_evidence runtime selected a resolution state) →
  ah_phase h = resolved_phase resolution.
Proof.
  intros (s & s' & hd & Hin & Hd & Hp & Ht). handler_inv Hin Hd. rewrite Hp. cbn [a_phase set_field].
  match goal with H : recovery_phase _ = Ok _ |- _ => rename H into Hr end.
  unfold recovery_phase in Hr. cbv zeta in Hr.
  change ((recovery_evidence _ _ _ _ _)@["resolution"]) with (VStr resolution) in Hr.
  unfold resolved_phase, eq_str in *. revert Hr.
  repeat match goal with |- context [VStr resolution ==? VStr ?s] =>
    let E := fresh in destruct (VStr resolution ==? VStr s) eqn:E;
    [apply py_eq_strs in E; subst resolution|clear E] end; intros Hr; evidence_inv; try done.
Qed.

Lemma recover_wp w : orderly env → whole w →
  wp recover_here
    (λ r w', calls_are (map fst (w_trace w) ++ [observation]) w' ∧ ∃ h0, activation_read (su_euid env) (fs_entry (accessed env w)) = Ok h0 ∧ ah_phase h0 = U_OUTCOME_UNKNOWN ∧ resolved h0 w' r)
    (λ _ w', calls_are (map fst (w_trace w)) w' ∨ calls_are (map fst (w_trace w) ++ [observation]) w') w.
Proof.
  intros He Hw. unfold recover.
  apply wp_bind. unfold journal_read at 1. unfold wp at 1. cbv zeta.
  fold (accessed env w). destruct (activation_read (su_euid env) _) as [h|e] eqn:Hread; [|by left].
  set (w1 := w <| w_fs := _ |> <| w_accesses := _ |>).
  assert (calls_are (map fst (w_trace w)) w1) as H1 by done.
  assert (whole w1) as Hw1 by apply He, Hw. clearbody w1.
  assert (∀ (c : exn_class → bool) (e : exn), if c (exn_cls e) then calls_are (map fst (w_trace w)) w1 else calls_are (map fst (w_trace w)) w1) as Hsame
    by (intros c e; by destruct (c _)).
  destruct (ah_phase h) eqn:Hphase; try (apply wp_throw; by left).
  destruct (ah_terminal_from_phase h) as [from|] eqn:Hfrom; [|apply wp_throw; by left].
  apply wp_bind, wp_catch, wp_pure; [intros u _|intros e _; case_match; [apply wp_throw|]; by left].
  apply wp_bind, wp_throw_if; [by left|intros _].
  apply wp_bind, wp_catch, wp_pure; [intros matches _|intros e _; case_match; [apply wp_throw|]; by left].
  apply wp_bind, wp_throw_if; [by left|intros _].
  apply wp_bind. apply wp_weaken with (Q := λ ad w', calls_are (map fst (w_trace w) ++ [observation]) w' ∧ whole w'
      ∧ recovery_case selected ad.1 (rd_state ad.2))
    (E := λ _ w', calls_are (map fst (w_trace w) ++ [observation]) w'); cbv beta; [| |by right].
  { apply wp_catch, wp_bind. unfold transport_call at 1. unfold wp at 1.
    set (w2 := w1 <| w_trace := _ |>).
    assert (calls_are (map fst (w_trace w) ++ [observation]) w2) as H2.
    { unfold calls_are, w2. cbn [w_trace set_field]. rewrite map_app. by rewrite H1. }
    assert (whole w2) as Hw2 by exact Hw1. clearbody w2.
    destruct (tr_observe_alias _ _ _) as [answer|e]; [|by case_match].
    apply wp_bind. destruct answer as [|[a|]]; [apply wp_throw; by case_match|apply wp_ret|apply wp_throw; by case_match].
    apply wp_bind, wp_pure; [intros d Hd; apply wp_ret; by apply assess_recovery_case in Hd|intros e _; by case_match]. }
  intros [a d] w2 (H2 & Hw2 & Hcase). cbv zeta. apply wp_bind.
  unfold wp at 1, journal_append. cbv zeta.
  destruct (activation_append_checked _ _ _ _ _ _ _ _) as [s [h'|e]] eqn:Ha; [|by right].
  unfold activation_append_checked in Ha.
  apply append_checked_appends in Ha as (_ & rs & record & Hr & Hne & Hv & Hs); [|by apply He, He|apply He].
  destruct (activation_last_move _ _ _ _ _ _ Hne Hv Hs) as [Hm _].
  apply wp_ret. split; [done|]. exists h. split; [done|]. split; [done|]. exists from, h'. split; [done|].
  split; [|rewrite (recovery_reached _ _ _ _ _ Hm); by eapply resolution_resolves].
  unfold activation_read, read_history. cbn [w_fs set_field]. rewrite Hr. exact Hv.
Qed.

(** A recovery changes nothing but its journal: it makes one observation at
    most and sends no command, and when it returns, the journal as it last read
    it has moved from the unknown outcome to what the observed state calls for,
    in view of the phase in which the outcome was lost. *)
Theorem recovery_observes_only w r w' : orderly env → whole w → recover_here w = (r, w') →
  (calls_are (map fst (w_trace w)) w' ∨ calls_are (map fst (w_trace w) ++ [observation]) w')
  ∧ commands w' = commands w
  ∧ ∀ x, r = Ok x → ∃ h0, activation_read (su_euid env) (fs_entry (accessed env w)) = Ok h0
      ∧ ah_phase h0 = U_OUTCOME_UNKNOWN ∧ resolved h0 w' x.
Proof.
  intros He Hw Hrun. pose proof (recover_wp w He Hw) as H. unfold wp in H. rewrite Hrun in H.
  assert (calls_are (map fst (w_trace w)) w' ∨ calls_are (map fst (w_trace w) ++ [observation]) w') as Hc
    by (destruct r; naive_solver).
  split; [exact Hc|]. split; [|by intros x ->; apply H].
  unfold commands. destruct Hc as [->| ->]; [done|]. by rewrite filter_app, filter_cons_False, filter_nil, app_nil_r.
Qed.

(** An activation history names its operation, and how its outcome was lost. *)
Lemma activation_history_operation rs h : validate_history (J := activation_journal) rs = Ok h →
  ∃ op, ah_operation_id h = VStr op ∧ uuid_UUID op ≠ None.
Proof.
  intros Hh. pose proof Hh as (first & rest & s0 & s & -> & H0 & _)%validate_history_Ok.
  pose proof (history_operation _ _ first Hh eq_refl) as Ho. cbn [tj_operation_id activation_journal] in Ho.
  rewrite Ho. cbn in H0. unfold activation_start in H0. evidence_inv.
  match goal with H : checked_uuid _ (first@["operation_id"]) _ = Ok _ |- _ => rename H into Hu end.
  unfold checked_uuid in Hu. apply except_Ok in Hu. unfold require_uuid in Hu.
  destruct (first@["operation_id"]) as [| | |op| | |]; try done. exists op. split; [done|].
  by destruct (uuid_UUID op).
Qed.

Lemma unknown_outcome_origin rs h : validate_history (J := activation_journal) rs = Ok h →
  ah_phase h = U_OUTCOME_UNKNOWN → ∃ from, ah_terminal_from_phase h = Some from.
Proof.
  intros Hh Hp. destruct rs as [|first rest]; [done|].
  destruct (history_last (J := activation_journal) (λ l, a_phase (al_state l)) U_BASELINE ah_phase
    activation_start_phase (λ _ _ _, eq_refl) _ _ _ Hh) as [[_ Hb]|(rest' & r & l & l' & -> & Hs & Hq & ->)]; [congruence|].
  cbn [tj_step activation_journal] in Hs. apply activation_step_inv in Hs as (_ & k & hd & _ & Hin & Hd).
  change (ah_terminal_from_phase _) with (a_terminal_from_phase (al_state l')). change (ah_phase _) with (a_phase (al_state l')) in Hp.
  clear Hh Hq. revert Hd Hp. generalize (al_state l'). intros s' Hd Hp.
  activation_handler Hin Hd; activation_inv; cbn [a_phase set_field] in Hp;
    try discriminate Hp; cbn [a_terminal_from_phase set_field]; try (by eexists).
  match goal with H : recovery_phase _ = Ok _ |- _ => apply recovery_phase_Ok in H as [H _] end. subst. exfalso.
  match goal with H : U_OUTCOME_UNKNOWN ∈ _ |- _ => by list_cases H end.
Qed.

Definition quiet : Prop := (∀ n, su_others env n = λ s, s) ∧ ∀ n, su_calls env n = io_ok.

Lemma recovery_extends rs h runtime a d early op : validate_history (J := activation_journal) rs = Ok h →
  ah_phase h = U_OUTCOME_UNKNOWN → ah_operation_id h = VStr op →
  require_uuid runtime "recovery runtime generation" = Ok tt →
  runtime ==? (ah_baseline h)@["runtime_generation"] = false →
  assess selected (str_value ((ah_baseline h)@["capability"])) persistent a = Ok d →
  ∃ y, validate_history (J := activation_journal) (rs ++ [candidate op "USER_ACTIVATION_RECOVERY_OBSERVED"
    (recovery_evidence runtime selected a (resolution_of early (rd_state d)) (rd_state d))]) = Ok y.
Proof.
  intros Hh Hp Ho Hu Hf Hd. apply validate_history_Ok in Hh as (first & rest & s0 & s & -> & H0 & Hs & _ & ->).
  change (ah_phase _) with (a_phase (al_state s)) in Hp. change (ah_operation_id _) with (al_operation_id s) in Ho.
  change (ah_baseline _) with (al_baseline s) in Hf, Hd.
  eexists. apply validate_history_Ok. eexists first, (rest ++ [_]), s0, _. split; [reflexivity|]. split; [exact H0|].
  split; [|split; [done|reflexivity]]. apply fold_result_snoc. exists s. split; [exact Hs|].
  cbn [tj_step activation_journal]. unfold activation_step.
  change ((candidate _ _ _)@["operation_id"]) with (VStr op). change ((candidate _ _ ?ev)@["evidence"]) with ev.
  change ((candidate _ ?m _)@["milestone"]) with (VStr m). rewrite Ho, py_eq_refl.
  change (activation_dispatch (al_baseline s) (al_state s) (VStr "USER_ACTIVATION_RECOVERY_OBSERVED") ?v)
    with (on_activation_recovery (al_baseline s) (al_state s) v "USER_ACTIVATION_RECOVERY_OBSERVED").
  rewrite (recovery_record_accepted _ _ _ _ _ _ _ _ _ _ Hd Hu Hf Hp). reflexivity.
Qed.

Lemma recovery_evidence_harmless runtime a d resolution c : assess selected c persistent a = Ok d →
  require_uuid runtime "recovery runtime generation" = Ok tt →
  reject_secrets (recovery_evidence runtime selected a resolution (rd_state d)) "entry" = Ok tt.
Proof.
  intros Hd Hu. destruct runtime as [| | |rt| | |]; try done. apply assess_recovery_case in Hd.
  assert (∃ b, ae_present a = VBool b) as [b Hb] by (destruct Hd as [_ ->|b _ ->|z _ (-> & _)]; eauto).
  unfold recovery_evidence. rewrite Hb. reflexivity.
Qed.

(** C5: A recovery settles the journal.  On a private file of complete lines in
    a private directory, with room for one more record and its bytes, where no
    other process acts and the system calls succeed: an activation whose outcome
    is unknown is resolved by any observation that can be assessed - made from a
    runtime of its own, under the unchanged mapping.  The recovery returns, its
    record is not refused, and the journal then reads back in the phase that
    [resolves] prescribes for the observed state and the phase in which the
    outcome was lost: an absent alias blocks, a suspect one and one that was
    never bound by the operation are quarantined, and otherwise the user is
    recovered as ready or as not ready. *)
Theorem recovery_completes w parent f rs h a d : quiet → w_fs w = FS parent (Present f) →
  read (su_euid env) (Present f) = Ok rs → complete_lines (f_content f) = true →
  validate_history (J := activation_journal) rs = Ok h → ah_phase h = U_OUTCOME_UNKNOWN →
  require_uuid (tr_runtime_generation observer) "recovery runtime generation" = Ok tt →
  tr_runtime_generation observer ==? (ah_baseline h)@["runtime_generation"] = false →
  mapping_matches h mapping_set selected = Ok true →
  tr_observe_alias observer (map fst (w_trace w)) (special_bag_alias selected) = Ok (Returned (Some a)) →
  assess selected (str_value ((ah_baseline h)@["capability"])) persistent a = Ok d →
  check_parent (su_euid env) (default (Directory true (su_euid env) 448) parent) = Ok tt →
  Z.of_nat (length (readlines (f_content f))) < MAX_JOURNAL_RECORDS →
  (∀ early record payload, plan_append (f_content f) (str_value (ah_operation_id h)) "USER_ACTIVATION_RECOVERY_OBSERVED"
      (recovery_evidence (tr_runtime_generation observer) selected a (resolution_of early (rd_state d)) (rd_state d))
      (Some (Z.of_nat (length rs))) (Some (last_hash rs)) = Ok (record, payload) →
    Z.of_nat (String.length (f_content f +:+ payload)) <= MAX_JOURNAL_BYTES) →
  ∃ r w', recover_here w = (Ok r, w') ∧ rr_readiness_state r = rd_state d ∧ resolved h w' r.
Proof.
  intros [Ho Hc] Hfs Hr Hl Hv Hp Hu Hf Hm Hobs Hd Hpar Hrec Hbytes.
  destruct (activation_history_operation _ _ Hv) as (op & Hop & Huid).
  destruct (unknown_outcome_origin _ _ Hv Hp) as [from Hfrom].
  destruct (recovery_extends rs h _ a d (early_phase (Some from)) op Hv Hp Hop Hu Hf Hd) as [y Hy].
  set (res := resolution_of (early_phase (Some from)) (rd_state d)) in *.
  destruct (append_checked_runs (su_euid env) parent f op _ _ rs h y Hr Hl Hv Hop Hy) as (s' & record & z & Ha & Hz & Hz' & Hsame); [|exact Hpar|exact Hrec| |].
  { unfold check_arguments, check_guard. rewrite (bool_decide_eq_false_2 _ Huid).
    rewrite (recovery_evidence_harmless _ a d res _ Hd Hu).
    replace (Z.of_nat (length rs) <? 0) with false by (symmetry; apply Z.ltb_ge; lia). reflexivity. }
  { rewrite Hop in Hbytes. apply Hbytes. }
  set (w1 := w <| w_fs := FS parent (Present f) |> <| w_accesses := S (w_accesses w) |>).
  assert (journal_read env w = (Ok h, w1)) as Hread.
  { unfold journal_read, accessed, activation_read, read_history. rewrite Ho, Hfs. cbn [fs_entry]. rewrite Hr.
    cbn [mbind result_bind]. by rewrite Hv. }
  set (w2 := w1 <| w_trace := w_trace w ++ [(observation, w_fs w1)] |>).
  set (w3 := w2 <| w_fs := s' |> <| w_accesses := S (S (w_accesses w)) |>).
  assert (journal_append env op "USER_ACTIVATION_RECOVERY_OBSERVED"
    (recovery_evidence (tr_runtime_generation observer) selected a res (rd_state d)) w2 = (Ok z, w3)) as Happ.
  { unfold journal_append, accessed, activation_append_checked. cbv zeta. rewrite !Ho, Hc.
    change (w_fs w2) with (FS parent (Present f)). by rewrite Ha. }
  exists (RecoveryResult res (rd_state d)), w3. split; [|split; [done|]].
  - unfold recover. rewrite (run_bind _ _ _ _ _ Hread), Hp, Hfrom. cbv zeta.
    rewrite (run_bind _ _ _ tt w1) by (unfold catch, pure; by rewrite Hu).
    rewrite (run_bind _ _ _ tt w1) by (by rewrite Hf).
    rewrite (run_bind _ _ _ true w1) by (unfold catch, pure; by rewrite Hm).
    rewrite (run_bind _ _ _ tt w1) by done.
    rewrite (run_bind _ _ _ (a, d) w2).
    { cbv beta iota. fold res. rewrite Hop. cbn [str_value]. by rewrite (run_bind _ _ _ _ _ Happ). }
    unfold catch, mbind, act_bind, transport_call, pure, mret, act_ret. change (w_trace w1) with (w_trace w). rewrite Hobs, Hd. reflexivity.
  - exists from, z. split; [done|].
    pose proof Ha as Ha'. apply append_checked_appends in Ha' as (_ & rs' & record' & Hr' & Hne & Hv' & Hs'); [|exact Hl|done].
    destruct (activation_last_move _ _ _ _ _ _ Hne Hv' Hs') as [Hlast _].
    split; [|rewrite (recovery_reached _ _ _ _ _ Hlast); apply assess_recovery_case in Hd; by eapply resolution_resolves].
    unfold activation_read, read_history. change (w_fs w3) with s'. rewrite Hr'. exact Hv'.
Qed.
End recovery.
