(* ===== verification/EnrollmentProtocol.v ===== *)
(** * Enrolment protocol ([src/src/t2_enrollment_protocol.py])

    The start request sent to the coprocessor, the decoding of its service
    events and the reducer that turns one operation's event stream into
    transitions.  Arguments have their annotated types, so the source's
    [type(x) is not bytes] tests hold by typing. *)
From S2P Require Import Prelude PyValue Sha256 Json Effect Bytes.

#[local] Open Scope Z_scope.

Definition COMMAND_ENROLL_START : Z := 0x03.
Definition COMMAND_ENROLL_CONTINUE : Z := 0x0E.
Definition SERVICE_STATUS : Z := 0xE3FF8001.
Definition SERVICE_ENROLLMENT_RESULT : Z := 0xE3FF8003.
Definition SERVICE_STATISTICS : Z := 0xE3FF8004.
Definition SERVICE_SKS_LOCK_STATE : Z := 0xE3FF800A.
Definition SERVICE_ACCESSORY_AUTHORIZATION : Z := 0xE3FF800E.
Definition SERVICE_HEADER : format := [Q_; I_; I_; Q_].
Definition STATUS_PAYLOAD_HEADER : format := [I_; FPad 4; Q_].
Definition SKS_LOCK_STATE_PAYLOAD : format := [I_; H_].
Definition STATISTICS_MIN_PAYLOAD_SIZE : nat := 12.
Definition ACM_EXTERNAL_FORM_SIZE : nat := 16.
(** [struct.pack("<I16x", 1)] *)
Definition group_one : bytes := le_pack 4 1 ++ zeros 16.
Definition BUILTIN_GROUPS : list bytes := [zeros 20; group_one].
Definition MAX_EVENT_PAYLOAD : Z := 1024 * 1024.
Definition MAX_EVENT_FINGERPRINTS : nat := 64.
Definition EXACT_NOOP_PHASE_RANGES : list (Z * Z) :=
  [(0, 50); (52, 57); (59, 59); (69, 69); (71, 73); (75, 77); (79, 79); (81, 84); (89, 92);
   (94, 97); (356, 500); (503, 0xFFFFFFFF)].
Definition EXACT_UNMAPPED_GENERIC_STATE_STATUSES : list Z := [51; 58; 60; 61; 62; 65; 80; 99; 502].

Inductive EnrollmentState :=
  ACTIVE | CANCEL_REQUESTED | SEP_RESULT_WITNESSED | SEP_IDENTITY_OBSERVED
  | CANCELLED | FAILED | TIMED_OUT | FROZEN.
#[export] Instance EnrollmentState_eq_dec : EqDecision EnrollmentState.
Proof. solve_decision. Defined.

Inductive EnrollmentAction :=
  | IGNORE_TELEMETRY | IGNORE_AUXILIARY | IGNORE_PHASE | FINGER_PRESENT | FINGER_REMOVED
  | CONTINUE | PROGRESS | REMOVE_AND_RETRY | RETRY_SCAN | RETRY_SMALL_COVERAGE | DIRTY_SENSOR
  | ACT_CANCELLED | ACT_FAILED | ACT_TIMED_OUT | RESULT_WITNESSED | IDENTITY_OBSERVED.
#[export] Instance EnrollmentAction_eq_dec : EqDecision EnrollmentAction.
Proof. solve_decision. Defined.

Definition uint32 (z : Z) : bool := (0 <=? z) && (z <=? 0xFFFFFFFF).
Definition uint64 (z : Z) : bool := (0 <=? z) && (z <=? 0xFFFFFFFFFFFFFFFF).

Record EnrollmentIdentity := Identity {
  ei_user_id : Z;
  ei_identity_uuid : bytes;
  ei_group_type : Z;
  ei_group_uuid : bytes;
}.

Record ServiceEvent := Event {
  se_sequence : Z;
  se_envelope_type : Z;
  se_version : Z;
  se_ordinal : Z;
  se_payload : bytes;
}.

(** The constructors with the checks of [__post_init__]. *)
Definition new_identity (i : EnrollmentIdentity) : result EnrollmentIdentity :=
  _ ← fail_if (negb (uint32 (ei_user_id i))) EnrollmentProtocolError
        "identity user ID is outside uint32 range";
  _ ← fail_if (negb (length (ei_identity_uuid i) =? 16)%nat) EnrollmentProtocolError
        "identity UUID must be exactly 16 bytes";
  _ ← fail_if (negb (any_byte (ei_identity_uuid i))) EnrollmentProtocolError
        "identity UUID must not be zero";
  _ ← fail_if (negb (uint32 (ei_group_type i))) EnrollmentProtocolError
        "group type is outside uint32 range";
  _ ← fail_if (negb (length (ei_group_uuid i) =? 16)%nat) EnrollmentProtocolError
        "group UUID must be exactly 16 bytes";
  Ok i.

Definition new_event (e : ServiceEvent) : result ServiceEvent :=
  _ ← fail_if (negb (uint64 (se_sequence e))) EnrollmentProtocolError
        "event sequence is outside uint64 range";
  _ ← fail_if (negb (uint32 (se_envelope_type e))) EnrollmentProtocolError
        "event type is outside uint32 range";
  _ ← fail_if (negb (uint32 (se_version e))) EnrollmentProtocolError
        "event version is outside uint32 range";
  _ ← fail_if (negb (uint32 (se_ordinal e))) EnrollmentProtocolError
        "event ordinal is outside uint32 range";
  _ ← fail_if (MAX_EVENT_PAYLOAD <? Z.of_nat (length (se_payload e))) EnrollmentProtocolError
        "event payload is invalid or unbounded";
  Ok e.

Record EnrollmentTransition := Transition {
  tr_action : EnrollmentAction;
  tr_state : EnrollmentState;
  tr_continue_required : bool;
  tr_progress_percent : option Z;
  tr_identity : option EnrollmentIdentity;
}.
Definition transition (action : EnrollmentAction) (state : EnrollmentState) :=
  Transition action state false None None.

(** ** The start request *)

Record SensitiveEnrollmentRequest := Request {
  rq_buffer : bytes;
  rq_wiped : bool;
  rq_protocol_version : Z;
}.

(** [buffer[lo:lo + len(new)] = new] on a [bytearray]. *)
Definition splice (lo : nat) (new buffer : bytes) : bytes :=
  take lo buffer ++ new ++ drop (lo + length new) buffer.

Definition new_request (protocol_version user_id : Z) (acm_external_form : bytes)
    : result SensitiveEnrollmentRequest :=
  _ ← fail_if (negb (bool_decide (protocol_version ∈ [1; 2]))) EnrollmentProtocolError
        "enrollment protocol must be version 1 or 2";
  _ ← fail_if (negb (uint32 user_id)) EnrollmentProtocolError "user ID is outside uint32 range";
  _ ← fail_if (negb (length acm_external_form =? ACM_EXTERNAL_FORM_SIZE)%nat)
        EnrollmentProtocolError "ACM external form must be exactly 16 bytes";
  let size : nat := if protocol_version =? 1 then 48%nat else 68%nat in
  header ← pack [I_; I_; I_; I_] (0, (user_id, (0, (16, tt))));
  Ok (Request (splice 16 acm_external_form (splice 0 header (zeros size))) false protocol_version).

Definition request_command (r : SensitiveEnrollmentRequest) : Z := COMMAND_ENROLL_START.

Definition request_buffer (r : SensitiveEnrollmentRequest) : result bytes :=
  _ ← fail_if (rq_wiped r) EnrollmentProtocolError "enrollment request has been wiped";
  Ok (rq_buffer r).

Definition wipe (r : SensitiveEnrollmentRequest) : SensitiveEnrollmentRequest :=
  Request (map (λ _, chr 0) (rq_buffer r)) true (rq_protocol_version r).

Definition build_continue_payload : bytes := [].

(** ** Service events *)

Definition parse_service_event (data : bytes) : result ServiceEvent :=
  _ ← fail_if (negb ((Z.of_nat (calcsize SERVICE_HEADER) <=? Z.of_nat (length data))
                     && (Z.of_nat (length data) <=? Z.of_nat (calcsize SERVICE_HEADER) + MAX_EVENT_PAYLOAD)))
        EnrollmentProtocolError "service event length is invalid";
  '(reserved, (envelope_type, (version, (event_timestamp, _)))) ← unpack_from SERVICE_HEADER data 0;
  let payload := drop (calcsize SERVICE_HEADER) data in
  _ ← fail_if (negb (reserved =? 0) || (event_timestamp =? 0)) EnrollmentProtocolError
        "service event header is invalid";
  ordinal ← (if envelope_type =? SERVICE_STATUS
             then _ ← fail_if (length payload <? calcsize STATUS_PAYLOAD_HEADER)%nat
                        EnrollmentProtocolError "generic status payload is truncated";
                  '(ordinal, _) ← unpack_from STATUS_PAYLOAD_HEADER payload 0;
                  Ok ordinal
             else Ok 0);
  new_event (Event event_timestamp envelope_type version ordinal payload).

Definition parse_enrollment_result (e : ServiceEvent) : result EnrollmentIdentity :=
  _ ← fail_if (negb (se_envelope_type e =? SERVICE_ENROLLMENT_RESULT)) EnrollmentProtocolError
        "event is not an enrollment result";
  record ← (if se_version e =? 1
            then _ ← fail_if (negb (length (se_payload e) =? 20)%nat) EnrollmentProtocolError
                       "version-1 enrollment result must be 20 bytes";
                 Ok (se_payload e ++ group_one)
            else if se_version e =? 2
            then _ ← fail_if (length (se_payload e) <? 40)%nat EnrollmentProtocolError
                       "version-2 enrollment result must contain at least 40 bytes";
                 Ok (take 40 (se_payload e))
            else raise EnrollmentProtocolError "unsupported enrollment-result version");
  '(user_id, (identity_uuid, (group_type, (group_uuid, _)))) ← unpack [I_; FRaw 16; I_; FRaw 16] record;
  _ ← fail_if (negb (bool_decide (slice 20 40 record ∈ BUILTIN_GROUPS))) EnrollmentProtocolError
        "accessory enrollment result is unsupported";
  new_identity (Identity user_id identity_uuid group_type group_uuid).

Definition parse_enrollment_identity (e : ServiceEvent) (expected_user_id : Z)
    : result EnrollmentIdentity :=
  identity ← parse_enrollment_result e;
  _ ← fail_if (negb (ei_user_id identity =? expected_user_id)) EnrollmentProtocolError
        "enrollment result belongs to another Apple user";
  Ok identity.

Definition validate_status_payload (e : ServiceEvent) : result unit :=
  match se_payload e with
  | [] => Ok tt
  | _ =>
      _ ← fail_if (length (se_payload e) <? 16)%nat EnrollmentProtocolError
            "generic status payload is truncated";
      '(payload_status, _) ← unpack_from [I_] (se_payload e) 0;
      '(payload_length, _) ← unpack_from [Q_] (se_payload e) 8;
      _ ← fail_if (negb (payload_status =? se_ordinal e)) EnrollmentProtocolError
            "status payload disagrees with its ordinal";
      fail_if (negb (payload_length =? Z.of_nat (length (se_payload e)) - 16)) EnrollmentProtocolError
        "status payload length is inconsistent"
  end.

Definition validate_sks_lock_state_payload (e : ServiceEvent) : result unit :=
  _ ← fail_if (negb (se_version e =? 1)) EnrollmentProtocolError
        "unsupported SKS lock-state event version";
  _ ← fail_if (length (se_payload e) <? calcsize SKS_LOCK_STATE_PAYLOAD)%nat
        EnrollmentProtocolError "SKS lock-state payload is truncated";
  _ ← unpack_from SKS_LOCK_STATE_PAYLOAD (se_payload e) 0;
  Ok tt.

(** ** The reducer *)

Record machine := Machine {
  em_expected_user_id : Z;
  em_connection_generation : string;
  em_operation_id : string;
  em_state : EnrollmentState;
  em_last_sequence : option Z;
  em_fingerprints : list string;
}.
#[export] Instance machine_settable : Settable machine := λ m,
  Machine (em_expected_user_id m) (em_connection_generation m) (em_operation_id m) (em_state m)
    (em_last_sequence m) (em_fingerprints m).

Definition new_machine (expected_user_id : Z) (connection_generation operation_id : string)
    : result machine :=
  _ ← fail_if (negb (uint32 expected_user_id)) EnrollmentProtocolError
        "expected user ID is outside uint32 range";
  _ ← fail_if (String.eqb connection_generation "" || String.eqb operation_id "")
        EnrollmentProtocolError "generation and operation IDs are required";
  Ok (Machine expected_user_id connection_generation operation_id ACTIVE None []).

Definition set_state (s : EnrollmentState) : act machine unit := assign (λ m, m <| em_state := s |>).

Definition freeze {A} (message : string) : act machine A :=
  _ ← set_state FROZEN; throw EnrollmentProtocolError message.
Definition freeze_if (b : bool) (message : string) : act machine unit :=
  if b then freeze message else mret tt.

Definition request_cancel : act machine unit :=
  m ← self;
  _ ← freeze_if (negb (bool_decide (em_state m = ACTIVE))) "cancel requested outside an active operation";
  set_state CANCEL_REQUESTED.

(** [deque(maxlen=64).append] *)
Definition deque_append (x : string) (l : list string) : list string :=
  drop (S (length l) - MAX_EVENT_FINGERPRINTS) (l ++ [x]).

(** The SHA-256 digest of the event, as its hexadecimal text. *)
Definition fingerprint (e : ServiceEvent) : result string :=
  header ← pack SERVICE_HEADER
             (se_sequence e, (se_envelope_type e, (se_version e, (se_ordinal e, tt))));
  Ok (sha256_hex (String.string_of_list_ascii (header ++ se_payload e))).

Definition hex8 (z : Z) : string := hex_fixed 8 z "".
Definition int_text (z : Z) : string := dec z "".

(** The checks that bind an event to this operation and record it. *)
Definition admit_event (e : ServiceEvent) (connection_generation operation_id : string)
    : act machine unit :=
  m ← self;
  _ ← freeze_if (negb (bool_decide (em_state m ∈ [ACTIVE; CANCEL_REQUESTED])))
        "event arrived after the operation became terminal";
  _ ← freeze_if (negb (String.eqb connection_generation (em_connection_generation m)))
        "event belongs to another connection generation";
  _ ← freeze_if (negb (String.eqb operation_id (em_operation_id m)))
        "event belongs to another enrollment operation";
  digest ← pure (fingerprint e);
  _ ← freeze_if (bool_decide (digest ∈ em_fingerprints m)) "duplicate enrollment event";
  _ ← freeze_if (match em_last_sequence m with
                 | Some last => se_sequence e <=? last
                 | None => false
                 end) "enrollment event sequence is not increasing";
  assign (λ m, m <| em_last_sequence := Some (se_sequence e) |>
                 <| em_fingerprints := deque_append digest (em_fingerprints m) |>).

(** [except EnrollmentProtocolError: self.state = FROZEN; raise] *)
Definition freezing {A} (message : string) (m : result A) : act machine A :=
  catch (λ c, bool_decide (c = EnrollmentProtocolError)) (pure m) (λ _, freeze message).

Definition accept_result (e : ServiceEvent) : act machine EnrollmentTransition :=
  identity ← freezing "invalid enrollment-result event" (parse_enrollment_result e);
  m ← self;
  if negb (ei_user_id identity =? em_expected_user_id m) then
    _ ← set_state SEP_RESULT_WITNESSED;
    mret (transition RESULT_WITNESSED SEP_RESULT_WITNESSED)
  else
    _ ← set_state SEP_IDENTITY_OBSERVED;
    mret (Transition IDENTITY_OBSERVED SEP_IDENTITY_OBSERVED false None (Some identity)).

(** [self.state = s; return EnrollmentTransition(action, self.state)] *)
Definition finish (action : EnrollmentAction) (s : EnrollmentState)
    : act machine EnrollmentTransition :=
  _ ← set_state s; mret (transition action s).
(** [return EnrollmentTransition(action, self.state)] *)
Definition keep (action : EnrollmentAction) : act machine EnrollmentTransition :=
  m ← self; mret (transition action (em_state m)).

Definition in_noop_range (status : Z) : bool :=
  existsb (λ r, (r.1 <=? status) && (status <=? r.2)) EXACT_NOOP_PHASE_RANGES.

Definition accept_status (status : Z) : act machine EnrollmentTransition :=
  if status =? 66 then finish ACT_CANCELLED CANCELLED
  else if status =? 67 then finish ACT_FAILED FAILED
  else if status =? 68 then finish ACT_TIMED_OUT TIMED_OUT
  else
  m ← self;
  _ ← freeze_if (bool_decide (em_state m = CANCEL_REQUESTED))
        "nonterminal event arrived after cancellation was requested";
  if status =? 63 then keep FINGER_PRESENT
  else if status =? 64 then keep FINGER_REMOVED
  else if status =? 70 then
    mret (Transition CONTINUE (em_state m) true None None)
  else if status =? 74 then keep REMOVE_AND_RETRY
  else if bool_decide (status ∈ [78; 85; 87; 88; 98]) then keep RETRY_SCAN
  else if status =? 86 then keep RETRY_SMALL_COVERAGE
  else if status =? 93 then keep DIRTY_SENSOR
  else if (100 <=? status) && (status <=? 355) then
    mret (Transition PROGRESS (em_state m) true (Some (100 * (status - 100) / 255)) None)
  else if in_noop_range status then keep IGNORE_PHASE
  else if bool_decide (status ∈ EXACT_UNMAPPED_GENERIC_STATE_STATUSES) then
    freeze ("unmapped generic operation state status " +:+ int_text status)
  else freeze ("unclassified enrollment status " +:+ int_text status).

Definition accept_event (e : ServiceEvent) : act machine EnrollmentTransition :=
  if se_envelope_type e =? SERVICE_ENROLLMENT_RESULT then accept_result e
  else if (se_envelope_type e =? SERVICE_ACCESSORY_AUTHORIZATION)
       || (se_envelope_type e =? SERVICE_STATUS) && (se_ordinal e =? 501)
  then freeze "accessory authorization is unsupported"
  else if (se_envelope_type e =? SERVICE_STATISTICS) && (se_version e =? 1) then
    _ ← freeze_if (length (se_payload e) <? STATISTICS_MIN_PAYLOAD_SIZE)%nat
          "statistics telemetry payload is truncated";
    keep IGNORE_TELEMETRY
  else if se_envelope_type e =? SERVICE_SKS_LOCK_STATE then
    _ ← freezing "invalid SKS lock-state auxiliary event" (validate_sks_lock_state_payload e);
    keep IGNORE_AUXILIARY
  else
  _ ← freeze_if (negb (se_envelope_type e =? SERVICE_STATUS)
                 || negb (bool_decide (se_version e ∈ [1; 2])))
        ("unknown enrollment envelope 0x" +:+ hex8 (se_envelope_type e)
         +:+ " version " +:+ int_text (se_version e));
  _ ← freezing "invalid generic status event" (validate_status_payload e);
  accept_status (se_ordinal e).

Definition accept (e : ServiceEvent) (connection_generation operation_id : string)
    : act machine EnrollmentTransition :=
  _ ← admit_event e connection_generation operation_id;
  accept_event e.

(** ** Calls of one operation *)

Inductive call :=
  | Accept (e : ServiceEvent) (connection_generation operation_id : string)
  | Cancel.

(** One call as its caller sees it: the result, an exception included, and
    the machine it leaves. *)
Definition do_call (c : call) (m : machine) : result (option EnrollmentTransition) * machine :=
  match c with
  | Accept e g o => let '(r, m) := accept e g o m in (Some <$> r, m)
  | Cancel => let '(r, m) := request_cancel m in ((λ _, None) <$> r, m)
  end.

Fixpoint run_calls (cs : list call) (m : machine)
    : list (result (option EnrollmentTransition)) * machine :=
  match cs with
  | [] => ([], m)
  | c :: cs => let '(r, m) := do_call c m in
               let '(rs, m) := run_calls cs m in (r :: rs, m)
  end.

Definition open_state (s : EnrollmentState) : Prop := s = ACTIVE ∨ s = CANCEL_REQUESTED.
Definition terminal_action (a : EnrollmentAction) : bool :=
  bool_decide (a ∈ [ACT_CANCELLED; ACT_FAILED; ACT_TIMED_OUT; RESULT_WITNESSED; IDENTITY_OBSERVED]).

(** The events that exist: those the constructor accepts. *)
Definition event_wf (e : ServiceEvent) : Prop := new_event e = Ok e.

(** A call after which the operation is over: it raised, or its transition is
    terminal. *)
Definition stops (r : result (option EnrollmentTransition)) : Prop :=
  match r with
  | Raise _ => True
  | Ok (Some t) => terminal_action (tr_action t) = true
  | Ok None => False
  end.

Definition call_wf (c : call) : Prop :=
  match c with Accept e _ _ => event_wf e | Cancel => True end.

(** The sequence numbers of the accepted events, in order. *)
Fixpoint accepted (cs : list call) (rs : list (result (option EnrollmentTransition))) : list Z :=
  match cs, rs with
  | Accept e _ _ :: cs, Ok _ :: rs => se_sequence e :: accepted cs rs
  | _ :: cs, _ :: rs => accepted cs rs
  | _, _ => []
  end.

(** ** The status domain

    The recovered meaning of every status, as one table: a row gives the last
    status of its range, which starts after the previous row. *)

Inductive disposition :=
  | Report (a : EnrollmentAction)
  | Advance
  | Progress
  | Finish (a : EnrollmentAction) (s : EnrollmentState)
  | Accessory
  | Unmapped.

Definition STATUS_TABLE : list (Z * disposition) :=
  [(50, Report IGNORE_PHASE); (51, Unmapped); (57, Report IGNORE_PHASE); (58, Unmapped);
   (59, Report IGNORE_PHASE); (62, Unmapped); (63, Report FINGER_PRESENT);
   (64, Report FINGER_REMOVED); (65, Unmapped); (66, Finish ACT_CANCELLED CANCELLED);
   (67, Finish ACT_FAILED FAILED); (68, Finish ACT_TIMED_OUT TIMED_OUT);
   (69, Report IGNORE_PHASE); (70, Advance); (73, Report IGNORE_PHASE);
   (74, Report REMOVE_AND_RETRY); (77, Report IGNORE_PHASE); (78, Report RETRY_SCAN);
   (79, Report IGNORE_PHASE); (80, Unmapped); (84, Report IGNORE_PHASE); (85, Report RETRY_SCAN);
   (86, Report RETRY_SMALL_COVERAGE); (88, Report RETRY_SCAN); (92, Report IGNORE_PHASE);
   (93, Report DIRTY_SENSOR); (97, Report IGNORE_PHASE); (98, Report RETRY_SCAN); (99, Unmapped);
   (355, Progress); (500, Report IGNORE_PHASE); (501, Accessory); (502, Unmapped);
   (0xFFFFFFFF, Report IGNORE_PHASE)].

Fixpoint status_row (table : list (Z * disposition)) (status : Z) : option disposition :=
  match table with
  | [] => None
  | (upper, d) :: table => if status <=? upper then Some d else status_row table status
  end.

Definition perform (d : disposition) (status : Z) : act machine EnrollmentTransition :=
  m ← self;
  match d with
  | Finish a s => finish a s
  | Accessory => freeze "accessory authorization is unsupported"
  | _ =>
      if bool_decide (em_state m = CANCEL_REQUESTED)
      then freeze "nonterminal event arrived after cancellation was requested"
      else match d with
           | Report a => keep a
           | Advance => mret (Transition CONTINUE (em_state m) true None None)
           | Progress => mret (Transition PROGRESS (em_state m) true
                                 (Some (100 * (status - 100) / 255)) None)
           | _ => freeze ("unmapped generic operation state status " +:+ int_text status)
           end
  end.

(** The layout a start request of each version has. *)
Definition start_tail (version : Z) : nat := if version =? 1 then 16%nat else 36%nat.
Definition START_LAYOUT (version : Z) : format :=
  [I_; I_; I_; I_; FRaw 16; FRaw (start_tail version)].

(** The wire form of an event: the status ordinal is read from the payload. *)
Definition wire_event (e : ServiceEvent) : bytes :=
  packed SERVICE_HEADER (0, (se_envelope_type e, (se_version e, (se_sequence e, tt)))) ++ se_payload e.

Definition wire_event_valid (e : ServiceEvent) : Prop :=
  event_wf e ∧ 0 < se_sequence e
  ∧ if se_envelope_type e =? SERVICE_STATUS
    then (calcsize STATUS_PAYLOAD_HEADER ≤ length (se_payload e))%nat
         ∧ se_ordinal e = le_unpack (take 4 (se_payload e))
    else se_ordinal e = 0.

(** ** The reducer's calls *)

Lemma uint32_iff z : uint32 z = true ↔ 0 ≤ z < 2 ^ 32.
Proof. unfold uint32. rewrite andb_true_iff, !Z.leb_le. lia. Qed.
Lemma uint64_iff z : uint64 z = true ↔ 0 ≤ z < 2 ^ 64.
Proof. unfold uint64. rewrite andb_true_iff, !Z.leb_le. lia. Qed.

Lemma new_event_Ok e e' : new_event e = Ok e' ↔
  e' = e ∧ 0 ≤ se_sequence e < 2 ^ 64 ∧ 0 ≤ se_envelope_type e < 2 ^ 32 ∧ 0 ≤ se_version e < 2 ^ 32
  ∧ 0 ≤ se_ordinal e < 2 ^ 32 ∧ Z.of_nat (length (se_payload e)) ≤ MAX_EVENT_PAYLOAD.
Proof.
  unfold new_event. split.
  - intros H. ok_inv. rewrite uint32_iff, ?uint64_iff, Z.ltb_ge in *. tauto.
  - intros (-> & H1 & H2 & H3 & H4 & H5).
    rewrite <-uint64_iff in H1. rewrite <-uint32_iff in H2, H3, H4. apply Z.ltb_ge in H5.
    by rewrite H1, H2, H3, H4, H5.
Qed.

Lemma fingerprint_total e : event_wf e → ∃ d, fingerprint e = Ok d.
Proof.
  intros (_ & H1 & H2 & H3 & H4 & _)%new_event_Ok. unfold fingerprint.
  destruct (pack_exact SERVICE_HEADER
    (se_sequence e, (se_envelope_type e, (se_version e, (se_ordinal e, tt))))) as (bs & -> & _).
  { change (width 8) with (2 ^ 64) in *. cbn. unfold width.
    change (256 ^ Z.of_nat 8) with (2 ^ 64). change (256 ^ Z.of_nat 4) with (2 ^ 32). lia. }
  by eexists.
Qed.

Lemma take_length_ge {A} n (l : list A) : (n ≤ length l)%nat → length (take n l) = n.
Proof. rewrite length_take. lia. Qed.

Lemma parse_result_raises e : raises (λ c, c = EnrollmentProtocolError) (parse_enrollment_result e).
Proof.
  unfold parse_enrollment_result, new_identity. raises_run; try done.
  unpack_raises.
  match goal with H : (if _ then _ else _) = Ok _ |- _ => rename H into Hr end.
  destruct (se_version e =? 1); [|destruct (se_version e =? 2)]; ok_inv; simpl.
  - rewrite length_app. match goal with H : (_ =? 20)%nat = true |- _ => apply Nat.eqb_eq in H as -> end.
    done.
  - apply take_length_ge. by match goal with H : (_ <? 40)%nat = false |- _ => apply Nat.ltb_ge in H end.
Qed.

Lemma status_payload_raises e : raises (λ c, c = EnrollmentProtocolError) (validate_status_payload e).
Proof.
  unfold validate_status_payload. destruct (se_payload e) as [|c bs] eqn:Hp; [apply raises_Ok|].
  rewrite <-Hp. apply raises_bind; [apply raises_fail_if; done|].
  intros _ Hl%fail_if_Ok%Nat.ltb_ge.
  raises_run; try done; unpack_raises; simpl; lia.
Qed.

Lemma sks_payload_raises e :
  raises (λ c, c = EnrollmentProtocolError) (validate_sks_lock_state_payload e).
Proof.
  unfold validate_sks_lock_state_payload. raises_run; try done.
  match goal with H : fail_if (_ <? _)%nat _ _ = Ok _ |- _ => apply fail_if_Ok, Nat.ltb_ge in H end.
  by unpack_raises.
Qed.

Lemma wp_freeze {A} msg (Q : A → machine → Prop) E m :
  E (Exn EnrollmentProtocolError msg) (m <| em_state := FROZEN |>) → wp (freeze msg) Q E m.
Proof. done. Qed.

Lemma wp_freeze_if b msg (Q : unit → machine → Prop) E m :
  (b = true → E (Exn EnrollmentProtocolError msg) (m <| em_state := FROZEN |>)) →
  (b = false → Q tt m) → wp (freeze_if b msg) Q E m.
Proof. destruct b; intros H1 H2; [by apply wp_freeze, H1|by apply H2]. Qed.

Lemma wp_freezing {A} msg (p : result A) (Q : A → machine → Prop) E m :
  raises (λ c, c = EnrollmentProtocolError) p →
  E (Exn EnrollmentProtocolError msg) (m <| em_state := FROZEN |>) →
  (∀ a, p = Ok a → Q a m) → wp (freezing msg p) Q E m.
Proof.
  intros Hr HE HQ. apply wp_catch, wp_pure; [done|]. intros x Hx.
  rewrite (Hr x Hx). by rewrite bool_decide_eq_true_2 by done.
Qed.

Ltac machine_step :=
  match goal with
  | |- wp (freeze _) _ _ _ => apply wp_freeze
  | |- wp (freeze_if _ _) _ _ _ => apply wp_freeze_if; intros ?
  | |- wp (set_state _) _ _ _ => apply wp_assign
  | |- wp (finish _ _) _ _ _ => unfold finish
  | |- wp (keep _) _ _ _ => unfold keep
  | _ => wp_step
  end; cbv beta.
Ltac machine_run := repeat machine_step.

(** What every exception of the reducer leaves: the machine frozen, bound
    to the same operation. *)
Definition frozen_after (m : machine) (x : exn) (m' : machine) : Prop :=
  exn_cls x = EnrollmentProtocolError ∧ em_state m' = FROZEN
  ∧ em_expected_user_id m' = em_expected_user_id m.

(** What the reducer promises of a transition it returns from [m]. *)
Definition transition_ok (m : machine) (t : EnrollmentTransition) (m' : machine) : Prop :=
  em_expected_user_id m' = em_expected_user_id m
  ∧ em_connection_generation m' = em_connection_generation m
  ∧ em_operation_id m' = em_operation_id m
  ∧ em_last_sequence m' = em_last_sequence m
  ∧ em_fingerprints m' = em_fingerprints m
  ∧ tr_state t = em_state m'
  ∧ (terminal_action (tr_action t) = false → em_state m' = em_state m)
  ∧ (terminal_action (tr_action t) = true → ¬ open_state (em_state m'))
  ∧ (∀ i, tr_identity t = Some i → ei_user_id i = em_expected_user_id m)
  ∧ (∀ p, tr_progress_percent t = Some p → 0 ≤ p ≤ 100)
  ∧ (em_state m = CANCEL_REQUESTED → tr_continue_required t = false).

Ltac machine_done :=
  unfold frozen_after, transition_ok, transition; simpl;
  repeat split; try done; try (by intros _ [?|?]); try (by intros ? ?; simplify_eq).

Lemma accept_result_wp e m :
  wp (accept_result e) (transition_ok m) (frozen_after m) m.
Proof.
  unfold accept_result. apply wp_bind, wp_freezing; [apply parse_result_raises|machine_done|].
  intros i _. machine_run; machine_done. intros i' Hi. simplify_eq.
  match goal with H : negb _ = false |- _ => by apply negb_false_iff, Z.eqb_eq in H end.
Qed.

Lemma accept_status_wp status m :
  wp (accept_status status) (transition_ok m) (frozen_after m) m.
Proof.
  unfold accept_status. machine_run; machine_done.
  all: try (intros Hc; match goal with
    | H : bool_decide _ = false |- _ =>
        by rewrite Hc in H
    end).
  all: simplify_eq; match goal with H : (_ && _)%bool = true |- _ =>
    apply andb_true_iff in H as [?%Z.leb_le ?%Z.leb_le] end.
  - apply Z.div_pos; lia.
  - apply Z.div_le_upper_bound; lia.
Qed.

Lemma accept_event_wp e m : wp (accept_event e) (transition_ok m) (frozen_after m) m.
Proof.
  unfold accept_event. apply wp_if; intros _; [apply accept_result_wp|].
  apply wp_if; intros _; [apply wp_freeze; machine_done|].
  apply wp_if; intros _; [machine_run; machine_done|].
  apply wp_if; intros _.
  { apply wp_bind, wp_freezing; [apply sks_payload_raises|machine_done|]. intros. machine_run; machine_done. }
  apply wp_bind, wp_freeze_if; intros _; [machine_done|].
  apply wp_bind, wp_freezing; [apply status_payload_raises|machine_done|]. intros _ _.
  apply accept_status_wp.
Qed.

Lemma deque_append_bound x l :
  (length l ≤ MAX_EVENT_FINGERPRINTS)%nat → (length (deque_append x l) ≤ MAX_EVENT_FINGERPRINTS)%nat.
Proof.
  intros H. unfold deque_append. rewrite length_drop, length_app. cbn [length]. lia.
Qed.

(** What an admitted event establishes. *)
Definition admitted (e : ServiceEvent) (g o : string) (m m' : machine) : Prop :=
  open_state (em_state m) ∧ g = em_connection_generation m ∧ o = em_operation_id m
  ∧ (∀ last, em_last_sequence m = Some last → last < se_sequence e)
  ∧ (∃ digest, fingerprint e = Ok digest ∧ (digest ∉ em_fingerprints m)
       ∧ m' = (m <| em_last_sequence := Some (se_sequence e) |>
                <| em_fingerprints := deque_append digest (em_fingerprints m) |>)).

Lemma admit_wp e g o m : event_wf e →
  wp (admit_event e g o) (λ _ m', admitted e g o m m') (frozen_after m) m.
Proof.
  intros He. destruct (fingerprint_total e He) as [d Hd].
  unfold admit_event. machine_run; try (by machine_done); [|congruence].
  match goal with H : fingerprint e = Ok _ |- _ => rewrite Hd in H; apply Ok_inj in H as <- end.
  repeat match goal with
  | H : negb _ = false |- _ => apply negb_false_iff in H
  | H : bool_decide _ = true |- _ => apply bool_decide_eq_true in H
  | H : bool_decide _ = false |- _ => apply bool_decide_eq_false in H
  | H : String.eqb _ _ = true |- _ => apply String.eqb_eq in H
  end.
  repeat split; try done.
  - unfold open_state. set_solver.
  - intros last Hl. match goal with H : _ = false |- _ => rewrite Hl in H end.
    by apply Z.leb_gt.
  - exists d. repeat split. all: done.
Qed.

(** Every outcome of [accept]. *)
Lemma accept_wp e g o m : event_wf e →
  wp (accept e g o) (λ t m', ∃ m1, admitted e g o m m1 ∧ transition_ok m1 t m')
    (λ x m', frozen_after m x m') m.
Proof.
  intros He. apply wp_bind. eapply wp_weaken; [by apply admit_wp|simpl|done].
  intros _ m1 Hm1. eapply wp_weaken; [apply accept_event_wp| |].
  - intros t m' Ht. by exists m1.
  - intros x m' (Hx & Hs & Hu). repeat split; try done. rewrite Hu.
    by destruct Hm1 as (_ & _ & _ & _ & ? & _ & _ & ->).
Qed.

Lemma status_small m :
  map (λ s, accept_status s m) (seqZ 0 501 ++ [502])
  = map (λ s, match status_row STATUS_TABLE s with Some d => perform d s m | None => accept_status s m end)
      (seqZ 0 501 ++ [502]).
Proof. destruct m as [u g o [] l f]; vm_compute; reflexivity. Qed.

Lemma status_large status m : 503 ≤ status ≤ 0xFFFFFFFF →
  accept_status status m = perform (Report IGNORE_PHASE) status m.
Proof.
  intros H. unfold accept_status.
  rewrite !(proj2 (Z.eqb_neq status _)) by lia.
  assert (in_noop_range status = true) as ->.
  { apply existsb_exists. exists (503, 0xFFFFFFFF). split; [by simpl; tauto|]. simpl. lia. }
  rewrite (bool_decide_eq_false_2 (status ∈ _)).
  2: { rewrite !elem_of_cons. intros [|[|[|[|[|?%not_elem_of_nil]]]]]; lia. }
  rewrite (proj2 (Z.leb_gt status 355)), andb_false_r by lia.
  unfold perform, mbind, act_bind, self, freeze_if. simpl.
  by destruct (bool_decide _).
Qed.

Lemma status_row_large status : 503 ≤ status ≤ 0xFFFFFFFF →
  status_row STATUS_TABLE status = Some (Report IGNORE_PHASE).
Proof.
  intros H. cbn [status_row STATUS_TABLE].
  rewrite (proj2 (Z.leb_le status 0xFFFFFFFF)) by lia.
  by rewrite !(proj2 (Z.leb_gt status _)) by lia.
Qed.

Lemma status_row_total status : status ≤ 0xFFFFFFFF → ∃ d, status_row STATUS_TABLE status = Some d.
Proof.
  intros H. cbn [status_row STATUS_TABLE].
  repeat match goal with
  | |- ∃ _, (if ?b then _ else _) = _ => destruct b eqn:?; [eexists; reflexivity|]
  end. lia.
Qed.

(** The status tables of the source cover the whole uint32 domain without
    overlap: for every status an event can carry, the reducer does exactly
    what the single row of [STATUS_TABLE] says, in an active operation and
    after a cancel request, so its last "unclassified" branch is never
    taken. *)
Theorem enrollment_status_domain e m :
  event_wf e →
  se_envelope_type e = SERVICE_STATUS → se_version e = 1 ∨ se_version e = 2 →
  validate_status_payload e = Ok tt →
  ∃ d, status_row STATUS_TABLE (se_ordinal e) = Some d
     ∧ accept_event e m = perform d (se_ordinal e) m.
Proof.
  intros (_ & _ & _ & _ & Hs & _)%new_event_Ok Ht Hv Hp.
  assert (accept_event e m
    = if se_ordinal e =? 501 then perform Accessory (se_ordinal e) m
      else accept_status (se_ordinal e) m) as ->.
  { unfold accept_event. rewrite Ht. destruct (se_ordinal e =? 501); [done|].
    assert (bool_decide (se_version e ∈ [1; 2]) = true) as ->.
    { apply bool_decide_eq_true. set_solver. }
    unfold freezing, catch, pure, mbind, act_bind. simpl. by rewrite Hp. }
  destruct (Z.eqb_spec (se_ordinal e) 501) as [->|Hn]; [by exists Accessory|].
  destruct (decide (503 ≤ se_ordinal e)) as [Hl|Hl].
  { exists (Report IGNORE_PHASE).
    split; [apply status_row_large|apply status_large]; lia. }
  pose proof (status_small m) as Hm. set (s := se_ordinal e) in *.
  assert (s ∈ seqZ 0 501 ++ [502]) as Hin.
  { rewrite elem_of_app, elem_of_seqZ, list_elem_of_singleton. lia. }
  apply list_elem_of_lookup in Hin as [i Hi].
  apply (f_equal (.!! i)) in Hm. rewrite !list_lookup_fmap, Hi in Hm.
  cbv beta delta [fmap option_fmap option_map] iota in Hm.
  destruct (status_row_total s) as [d Hd]; [clear -Hs; lia|].
  exists d. split; [exact Hd|]. rewrite Hd in Hm. by apply Some_inj in Hm.
Qed.

(** ** Whole operations *)

Lemma cancel_wp m :
  wp request_cancel
    (λ _ m', em_state m = ACTIVE ∧ m' = m <| em_state := CANCEL_REQUESTED |>)
    (frozen_after m) m.
Proof.
  unfold request_cancel. machine_run; [machine_done|].
  split; [|done]. match goal with H : negb _ = false |- _ =>
    by apply negb_false_iff, bool_decide_eq_true in H end.
Qed.

(** One call: what it leaves when it raises, stops, or goes on. *)
Lemma do_call_cases c m r m' : call_wf c → do_call c m = (r, m') →
  match r with
  | Raise x => exn_cls x = EnrollmentProtocolError ∧ em_state m' = FROZEN
  | Ok _ => open_state (em_state m) ∧ (stops r → ¬ open_state (em_state m'))
  end.
Proof.
  intros Hc. destruct c as [e g o|]; simpl in *.
  - pose proof (accept_wp e g o m Hc) as Hwp. unfold wp in Hwp.
    destruct (accept e g o m) as [[t|x] m2]; simpl; intros [= <- <-].
    + destruct Hwp as (m1 & Ha & Ht). split; [apply Ha|]. simpl. apply Ht.
    + split; apply Hwp.
  - pose proof (cancel_wp m) as Hwp. unfold wp in Hwp.
    destruct (request_cancel m) as [[t|x] m2]; simpl; intros [= <- <-].
    + destruct Hwp as [Hs ->]. by split; [left|].
    + split; apply Hwp.
Qed.

Lemma run_calls_closed cs m rs m' :
  Forall call_wf cs → ¬ open_state (em_state m) → run_calls cs m = (rs, m') →
  Forall (λ r, ∃ msg, r = Raise (Exn EnrollmentProtocolError msg)) rs.
Proof.
  intros Hcs. revert m rs. induction Hcs as [|c cs Hc Hcs IH]; intros m rs Hm; simpl.
  { intros [= <- <-]. constructor. }
  destruct (do_call c m) as [r m1] eqn:Hr. destruct (run_calls cs m1) as [rs1 m2] eqn:Hrun.
  intros [= <- <-]. pose proof (do_call_cases _ _ _ _ Hc Hr) as Hcase.
  destruct r as [|[cls msg]]; [by destruct Hcase|]. simpl in Hcase. destruct Hcase as [-> Hf].
  constructor; [by eexists|]. apply (IH m1); [|done]. rewrite Hf. by intros [|].
Qed.

(** C27: Once a call of an enrolment operation has raised or has returned a
    terminal transition (cancelled, failed, timed out, result witnessed,
    identity observed), every later event and cancel request is refused with
    [EnrollmentProtocolError]: an operation has at most one outcome. *)
Theorem enrollment_one_outcome cs m rs m' i j ri rj :
  Forall call_wf cs → run_calls cs m = (rs, m') →
  rs !! i = Some ri → rs !! j = Some rj → (i < j)%nat → stops ri →
  ∃ msg, rj = Raise (Exn EnrollmentProtocolError msg).
Proof.
  intros Hcs. revert m rs i j. induction Hcs as [|c cs Hc Hcs IH]; intros m rs i j; simpl.
  { by intros [= <- <-]. }
  destruct (do_call c m) as [r m1] eqn:Hr. destruct (run_calls cs m1) as [rs1 m2] eqn:Hrun.
  intros [= <- <-] Hi Hj Hij Hstop. destruct j as [|j]; [lia|]. simpl in Hj.
  destruct i as [|i]; [|by apply (IH m1 rs1 i j); try done; lia]. simpl in Hi. simplify_eq.
  assert (¬ open_state (em_state m1)) as Hm1.
  { pose proof (do_call_cases _ _ _ _ Hc Hr) as Hcase. destruct ri as [t|x].
    - by apply Hcase.
    - destruct Hcase as [_ ->]. by intros [|]. }
  by apply (Forall_lookup_1 _ _ _ _ (run_calls_closed _ _ _ _ Hcs Hm1 Hrun) Hj).
Qed.

Lemma accepted_frozen cs m rs m' :
  Forall call_wf cs → em_state m = FROZEN → run_calls cs m = (rs, m') → accepted cs rs = [].
Proof.
  intros Hcs Hm Hrun.
  assert (Forall (λ r, ∃ msg, r = Raise (Exn EnrollmentProtocolError msg)) rs) as Hall.
  { eapply run_calls_closed; [done| |done]. rewrite Hm. by intros [|]. }
  clear -Hall. revert cs. induction Hall as [|r rs (msg & ->) _ IH]; intros [|[]]; simpl; auto.
Qed.

(** The recorded sequence number bounds everything accepted so far. *)
Lemma run_calls_increase cs m rs m' :
  Forall call_wf cs → run_calls cs m = (rs, m') →
  StronglySorted Z.lt (accepted cs rs)
  ∧ ∀ last, em_last_sequence m = Some last → Forall (Z.lt last) (accepted cs rs).
Proof.
  intros Hcs. revert m rs. induction Hcs as [|c cs Hc Hcs IH]; intros m rs; simpl.
  { intros [= <- <-]. split; [constructor|intros; constructor]. }
  destruct (do_call c m) as [r m1] eqn:Hr. destruct (run_calls cs m1) as [rs1 m2] eqn:Hrun.
  intros [= <- <-]. destruct c as [e g o|]; simpl in *.
  - pose proof (accept_wp e g o m Hc) as Hwp. unfold wp in Hwp.
    destruct (accept e g o m) as [[t|x] m3]; simpl in *; simplify_eq; simpl.
    + destruct Hwp as (m4 & (_ & _ & _ & Hlt & d & _ & _ & ->) & (_ & _ & _ & Hl & _)).
      simpl in Hl. destruct (IH m1 rs1 Hrun) as [Hs Hf]. split.
      * constructor; [done|]. by apply Hf.
      * intros last Hlast. constructor; [by apply Hlt|].
        eapply Forall_impl; [by apply Hf|]. intros z Hz. specialize (Hlt _ Hlast). lia.
    + rewrite (accepted_frozen cs m1 rs1 m2) by (try done; apply Hwp).
      split; [constructor|intros; constructor].
  - pose proof (cancel_wp m) as Hwp. unfold wp in Hwp.
    destruct (request_cancel m) as [[t|x] m3]; simpl in *; simplify_eq; simpl.
    + destruct Hwp as [_ ->]. by apply (IH _ _ Hrun).
    + rewrite (accepted_frozen cs m1 rs1 m2) by (try done; apply Hwp).
      split; [constructor|intros; constructor].
Qed.

(** What a call leaves unchanged, and what its transition promises. *)
Lemma do_call_frame u c m r m' :
  call_wf c → do_call c m = (r, m') → em_expected_user_id m = u →
  (length (em_fingerprints m) ≤ MAX_EVENT_FINGERPRINTS)%nat →
  em_expected_user_id m' = u
  ∧ (is_ok r = true → (length (em_fingerprints m') ≤ MAX_EVENT_FINGERPRINTS)%nat)
  ∧ ∀ t, r = Ok (Some t) →
      (∀ i, tr_identity t = Some i → ei_user_id i = u)
      ∧ (∀ p, tr_progress_percent t = Some p → 0 ≤ p ≤ 100).
Proof.
  intros Hc Hr Hu Hf. destruct c as [e g o|]; simpl in *.
  - pose proof (accept_wp e g o m Hc) as Hwp. unfold wp in Hwp.
    destruct (accept e g o m) as [[t|x] m2]; simplify_eq; simpl.
    + destruct Hwp as (m1 & (_ & _ & _ & _ & d & _ & _ & ->) & (Hu' & _ & _ & _ & Hfp & _ & _ & _ & Hi & Hp & _)).
      simpl in *. split; [done|]. split; [intros _; rewrite Hfp; by apply deque_append_bound|].
      intros t' [= <-]. done.
    + destruct Hwp as (_ & _ & ->). by repeat split.
  - pose proof (cancel_wp m) as Hwp. unfold wp in Hwp.
    destruct (request_cancel m) as [[t|x] m2]; simplify_eq; simpl.
    + destruct Hwp as [_ ->]. simpl. by repeat split.
    + destruct Hwp as (_ & _ & ->). by repeat split.
Qed.

Lemma run_calls_transitions u cs m rs m' :
  Forall call_wf cs → run_calls cs m = (rs, m') → em_expected_user_id m = u →
  (length (em_fingerprints m) ≤ MAX_EVENT_FINGERPRINTS)%nat →
  ∀ t, Ok (Some t) ∈ rs →
    (∀ i, tr_identity t = Some i → ei_user_id i = u)
    ∧ (∀ p, tr_progress_percent t = Some p → 0 ≤ p ≤ 100).
Proof.
  intros Hcs. revert m rs. induction Hcs as [|c cs Hc Hcs IH]; intros m rs; simpl.
  { intros [= <- <-] _ _ t []%not_elem_of_nil. }
  destruct (do_call c m) as [r m1] eqn:Hr. destruct (run_calls cs m1) as [rs1 m2] eqn:Hrun.
  intros [= <- <-] Hu Hf t Ht.
  destruct (do_call_frame u _ _ _ _ Hc Hr Hu Hf) as (Hu1 & Hf1 & Hcase).
  apply elem_of_cons in Ht as [<-|Ht]; [by apply Hcase|].
  destruct r as [r|x]; [by apply (IH m1 rs1 Hrun Hu1 (Hf1 eq_refl))|].
  destruct (do_call_cases _ _ _ _ Hc Hr) as [_ Hfz].
  assert (Forall (λ r, ∃ msg, r = Raise (Exn EnrollmentProtocolError msg)) rs1) as Hall.
  { eapply run_calls_closed; [done| |done]. rewrite Hfz. by intros [|]. }
  rewrite Forall_forall in Hall. by destruct (Hall _ Ht) as [? ?].
Qed.

(** C28: In every run of a fresh operation the accepted events carry strictly
    increasing sequence numbers (so no event is accepted twice, however far
    apart, although only the last 64 fingerprints are kept), an adopted
    identity always belongs to the expected user, and reported progress is a
    percentage. *)
Theorem enrollment_run_sound u g o m cs rs m' :
  new_machine u g o = Ok m → Forall call_wf cs → run_calls cs m = (rs, m') →
  StronglySorted Z.lt (accepted cs rs)
  ∧ ∀ t, Ok (Some t) ∈ rs →
      (∀ i, tr_identity t = Some i → ei_user_id i = u)
      ∧ (∀ p, tr_progress_percent t = Some p → 0 ≤ p ≤ 100).
Proof.
  intros Hm Hcs Hrun. unfold new_machine in Hm. ok_inv. split.
  - by eapply run_calls_increase.
  - eapply run_calls_transitions; [done..|]. simpl. unfold MAX_EVENT_FINGERPRINTS. lia.
Qed.

(** ** The start request *)

Lemma splice_length lo new buffer :
  (lo + length new ≤ length buffer)%nat → length (splice lo new buffer) = length buffer.
Proof.
  intros H. unfold splice. rewrite !length_app, length_take, length_drop. lia.
Qed.

(** A start request has the recovered layout for its protocol version (a
    null selector, the user, a zero word, the credential length 16, the
    16-byte external form, zeros to 48 or 68 bytes), so the coprocessor reads
    back the given user and credential; once wiped, the storage holds only
    zeros and can no longer be read. *)
Theorem start_request_layout version user_id form r :
  new_request version user_id form = Ok r →
  unpack (START_LAYOUT version) (rq_buffer r)
    = Ok (0, (user_id, (0, (16, (form, (zeros (start_tail version), tt))))))
  ∧ request_buffer r = Ok (rq_buffer r)
  ∧ request_buffer (wipe r) = raise EnrollmentProtocolError "enrollment request has been wiped"
  ∧ rq_buffer (wipe r) = zeros (length (rq_buffer r)).
Proof.
  unfold new_request. intros H. ok_inv.
  match goal with H : uint32 _ = true |- _ => rename H into Hu end.
  match goal with H : (length form =? _)%nat = true |- _ => apply Nat.eqb_eq in H; rename H into Hf end.
  match goal with H : pack _ _ = Ok ?b |- _ => rename b into h; rename H into Hp end.
  apply uint32_iff in Hu.
  destruct (pack_exact [I_; I_; I_; I_] (0, (user_id, (0, (16, tt))))) as (h' & Hp' & Hl).
  { simpl. unfold width. change (256 ^ Z.of_nat 4) with (2 ^ 32). lia. }
  rewrite Hp in Hp'. apply Ok_inj in Hp' as <-. change (length h = 16%nat) in Hl.
  unfold START_LAYOUT. set (n := start_tail version).
  assert ((if version =? 1 then 48%nat else 68%nat) = (32 + n)%nat) as ->.
  { unfold n, start_tail. by destruct (version =? 1). }
  assert (splice 16 form (splice 0 h (zeros (32 + n))) = h ++ form ++ zeros n) as ->.
  { unfold splice, zeros. simpl. rewrite Hf, Hl.
    rewrite take_app_length' by done. f_equal. f_equal.
    rewrite drop_app_ge by (unfold ACM_EXTERNAL_FORM_SIZE; lia). by rewrite Hl. }
  split; [|split; [done|split; [done|]]].
  - apply unpack_Ok. cbn [rq_buffer]. split.
    { rewrite !length_app, Hf, Hl. unfold zeros. rewrite length_replicate. done. }
    set (v := (0, (user_id, (0, (16, (form, (zeros n, tt)))))) : tuple [I_; I_; I_; I_; FRaw 16; FRaw n]).
    assert (exact_tuple _ v) as Hv.
    { simpl. unfold width, zeros. rewrite length_replicate.
      change (256 ^ Z.of_nat 4) with (2 ^ 32). by repeat split; try lia. }
    destruct (pack_exact _ v Hv) as (bs & Hb & _).
    assert (bs = h ++ form ++ zeros n) as <-.
    { unfold v in Hb. cbn [pack I_ fst snd] in Hb, Hp. ok_inv.
      rewrite <-!app_assoc, (take_app_length' form), (take_app_length' (zeros n)) by
        (try done; unfold zeros; by rewrite length_replicate). by rewrite app_nil_r. }
    rewrite <-(app_nil_r bs). symmetry. by apply fields_pack.
  - cbn [wipe rq_buffer]. unfold zeros. generalize (h ++ form ++ replicate n (chr 0)).
    intros bs. induction bs as [|c bs IH]; simpl; congruence.
Qed.

(** ** The event codec *)

Lemma wire_event_decodes e : wire_event_valid e → parse_service_event (wire_event e) = Ok e.
Proof.
  intros (Hwf & Hpos & Hord). pose proof Hwf as (_ & H1 & H2 & H3 & H4 & H5)%new_event_Ok.
  assert (exact_tuple SERVICE_HEADER (0, (se_envelope_type e, (se_version e, (se_sequence e, tt))))) as Hx.
  { simpl. unfold width. change (256 ^ Z.of_nat 4) with (2 ^ 32).
    change (256 ^ Z.of_nat 8) with (2 ^ 64). repeat split; lia. }
  pose proof (length_packed _ _ Hx) as Hl. unfold parse_service_event, wire_event.
  set (h := packed SERVICE_HEADER _) in *. change (calcsize SERVICE_HEADER) with 24%nat in *.
  assert (negb ((Z.of_nat 24 <=? Z.of_nat (length (h ++ se_payload e)))
    && (Z.of_nat (length (h ++ se_payload e)) <=? Z.of_nat 24 + MAX_EVENT_PAYLOAD)) = false) as ->.
  { rewrite length_app, Hl. apply negb_false_iff, andb_true_iff. split; apply Z.leb_le; lia. }
  assert (unpack_from SERVICE_HEADER (h ++ se_payload e) 0
    = Ok (0, (se_envelope_type e, (se_version e, (se_sequence e, tt))))) as ->.
  { apply unpack_from_Ok. split; [rewrite length_app, Hl; simpl; lia|].
    rewrite drop_0. symmetry. by apply fields_packed. }
  simpl. rewrite drop_app_length' by done.
  assert ((se_sequence e =? 0) = false) as -> by lia. simpl.
  destruct (se_envelope_type e =? SERVICE_STATUS).
  + destruct Hord as [Hpl Hord]. apply Nat.ltb_ge in Hpl as Hpl'. change (calcsize STATUS_PAYLOAD_HEADER) with 16%nat in *. rewrite Hpl'. simpl.
    unfold unpack_from. change (0 + calcsize STATUS_PAYLOAD_HEADER)%nat with 16%nat. rewrite Hpl'. simpl. rewrite drop_0, <-Hord.
    by destruct e.
  + simpl. rewrite <-Hord. by destruct e.
Qed.

Lemma wire_event_canonical bs e :
  parse_service_event bs = Ok e → wire_event_valid e ∧ wire_event e = bs.
Proof.
  intros Hp. unfold parse_service_event in Hp. ok_inv.
  match goal with H : unpack_from SERVICE_HEADER bs 0 = _ |- _ =>
    apply (unpack_from_Ok SERVICE_HEADER) in H as [Hl Hf] end.
  match goal with H : new_event _ = Ok _ |- _ => pose proof H as Hwf; apply new_event_Ok in H as (-> & _) end.
  rewrite drop_0 in Hf. cbn [Nat.add] in Hl.
  match goal with H : (?r =? 0) = true |- _ => apply Z.eqb_eq in H as -> end.
  split.
  + repeat split; [done| |].
    * simpl in *. match goal with H : (?t =? 0) = false |- _ => apply Z.eqb_neq in H end.
      apply new_event_Ok in Hwf as (_ & ? & _). simpl in *. lia.
    * simpl in *. destruct (_ =? SERVICE_STATUS); ok_inv; [|done].
      match goal with H : (_ <? _)%nat = false |- _ => apply Nat.ltb_ge in H end.
      split; [done|]. match goal with H : unpack_from STATUS_PAYLOAD_HEADER _ _ = _ |- _ =>
        apply (unpack_from_Ok STATUS_PAYLOAD_HEADER) in H as [_ H] end. simpl in *. by simplify_eq.
  + unfold wire_event. cbn [se_envelope_type se_version se_sequence se_payload].
    rewrite <-(take_drop (calcsize SERVICE_HEADER) bs) at 2. f_equal.
    rewrite Hf. by apply packed_fields.
Qed.

#[export] Instance service_event_wire : Wire wire_event_valid wire_event parse_service_event :=
  { wire_decode := wire_event_decodes; wire_encode := wire_event_canonical }.

(** An event decodes exactly from its wire form: the decoder accepts a
    byte string if and only if it is the header and payload of a valid event
    (in particular a nonzero time stamp, a zero reserved word and, for a
    status, a complete status record), and returns that event. *)
Theorem parse_service_event_exact data e :
  parse_service_event data = Ok e ↔ wire_event_valid e ∧ data = wire_event e.
Proof. apply wire_accepts. Qed.
