(* ===== verification/AcmProtocol.v ===== *)
(** * Credential manager protocol ([src/src/t2_acm_protocol.py])

    The context-lifecycle commands of the Apple Credential Manager and the
    decoding of its replies.  Arguments have their annotated types. *)
From S2P Require Import Prelude PyValue Effect Bytes.

#[local] Open Scope Z_scope.

(** ["DRCS"] *)
Definition MAGIC : bytes := text "DRCS".
Definition VERSION : Z := 1.
Definition HEADER_SIZE : nat := 8.
Definition CONTEXT_SIZE : nat := 16.
Definition OP_CONTEXT_CREATE : Z := 0x01.
Definition OP_CONTEXT_DELETE : Z := 0x02.
Definition OP_VERIFY_POLICY : Z := 0x03.
Definition OP_CONTEXT_EXTERNALIZE : Z := 0x13.
Definition OP_CONTEXT_CREATE_TRACKING : Z := 0x24.
Definition ENROLLMENT_POLICY : bytes := text "TouchIdEnrollment".
Definition POLICY_RESPONSE_CAPACITY : nat := 0x1000.
Definition SIMPLE_REQUIREMENT_TYPES : list Z :=
  [1; 2; 3; 6] ++ seqZ 8 8 ++ seqZ 18 11.

Record ContextHandle := Handle {
  ch_context : bytes;
  ch_payload : Z;
  ch_tracking : bool;
  ch_response_byte : Z;
}.

Record PolicyResult := PolicyReply {
  pr_satisfied : bool;
  pr_requirement_present : bool;
  pr_requirement_length : Z;
  pr_requirement_type : option Z;
  pr_requirement_state : option Z;
  pr_requirement_flags : option Z;
  pr_requirement_payload_length : option Z;
}.

#[local] Abbreviation refuse b msg := (fail_if b ACMProtocolError msg).

Definition u32 (z : Z) : bool := (0 <=? z) && (z <=? 0xFFFFFFFF).

(** [ContextHandle.__post_init__] *)
Definition new_handle (h : ContextHandle) : result ContextHandle :=
  _ ← refuse (negb (length (ch_context h) =? CONTEXT_SIZE)%nat) "context must be exactly 16 bytes";
  _ ← refuse (negb (u32 (ch_payload h))) "context payload is outside uint32 range";
  _ ← refuse (negb ((0 <=? ch_response_byte h) && (ch_response_byte h <=? 0xFF)))
        "response_byte is outside uint8 range";
  _ ← refuse (ch_tracking h && negb (bool_decide (ch_response_byte h ∈ [0; 1])))
        "tracking response flag is not boolean";
  Ok h.

(** [ContextHandle.response_flag] *)
Definition response_flag (h : ContextHandle) : option bool :=
  if ch_tracking h then Some (negb (ch_response_byte h =? 0)) else None.

Definition OPCODES : list Z :=
  [OP_CONTEXT_CREATE; OP_CONTEXT_DELETE; OP_VERIFY_POLICY; OP_CONTEXT_EXTERNALIZE; OP_CONTEXT_CREATE_TRACKING].

Definition acm_header (opcode : Z) : result bytes :=
  _ ← refuse (negb (bool_decide (opcode ∈ OPCODES))) "opcode is outside the lifecycle allowlist";
  Ok (MAGIC ++ [chr opcode; chr 0; chr 0; chr VERSION]).

Definition build_create (user_id : Z) (tracking : bool) : result bytes :=
  _ ← refuse (negb (u32 user_id)) "user_id is outside uint32 range";
  let opcode := if tracking then OP_CONTEXT_CREATE_TRACKING else OP_CONTEXT_CREATE in
  header ← acm_header opcode;
  uid ← pack [I_] (user_id, tt);
  Ok (header ++ uid).

Definition byte_at (bs : bytes) (i : nat) : Z := match bs !! i with Some c => code c | None => 0 end.

Definition parse_create_response (response : bytes) (tracking : bool) : result ContextHandle :=
  let expected : nat := if tracking then 21%nat else 17%nat in
  _ ← refuse (negb (length response =? expected)%nat)
        (if tracking then "create response must be exactly 21 bytes"
         else "create response must be exactly 17 bytes");
  let flag_offset : nat := (CONTEXT_SIZE + if tracking then 4 else 0)%nat in
  let response_byte := byte_at response flag_offset in
  _ ← refuse (tracking && negb (bool_decide (response_byte ∈ [0; 1])))
        "tracking create response flag is not boolean";
  payload ← (if tracking then '(p, _) ← unpack_from [I_] response CONTEXT_SIZE; Ok p else Ok 0);
  new_handle (Handle (take CONTEXT_SIZE response) payload tracking response_byte).

Definition build_delete (handle : ContextHandle) : result bytes :=
  header ← acm_header OP_CONTEXT_DELETE; Ok (header ++ ch_context handle).

Definition build_externalize (handle : ContextHandle) : result bytes :=
  header ← acm_header OP_CONTEXT_EXTERNALIZE; Ok (header ++ ch_context handle).

Definition build_enrollment_policy (handle : ContextHandle) (preflight : bool) : result bytes :=
  header ← acm_header OP_VERIFY_POLICY;
  age ← pack [I_] (0, tt);
  parameters ← pack [I_] (0, tt);
  Ok (header ++ ch_context handle ++ ENROLLMENT_POLICY ++ [chr 0] ++ [chr (Z.b2z preflight)]
        ++ age ++ parameters).

Definition build_enrollment_policy_preflight (handle : ContextHandle) : result bytes :=
  build_enrollment_policy handle true.

Definition parse_policy_response (response : bytes) : result PolicyResult :=
  _ ← refuse (negb ((4 <=? length response)%nat && (length response <=? POLICY_RESPONSE_CAPACITY)%nat))
        "policy response length is invalid";
  '(raw_result, _) ← unpack_from [I_] response 0;
  _ ← refuse (negb (bool_decide (raw_result ∈ [0; 1]))) "policy result is not boolean";
  let requirement := drop 4 response in
  match requirement with
  | [] => Ok (PolicyReply (negb (raw_result =? 0)) false 0 None None None None)
  | _ =>
      _ ← refuse (length requirement <? 16)%nat "policy requirement is shorter than its header";
      '(req_type, (state, (flags, (payload_length, _)))) ← unpack_from [I_; I_; I_; I_] requirement 0;
      _ ← refuse (negb (bool_decide (req_type ∈ SIMPLE_REQUIREMENT_TYPES)))
            "policy returned an unsupported requirement type";
      _ ← refuse (negb (payload_length =? Z.of_nat (length requirement) - 16))
            "policy requirement payload length is inconsistent";
      Ok (PolicyReply (negb (raw_result =? 0)) true (Z.of_nat (length requirement)) (Some req_type)
            (Some state) (Some flags) (Some payload_length))
  end.

(** The lengths of the allowed commands. *)
Definition command_length (opcode : Z) : option nat :=
  if opcode =? OP_CONTEXT_CREATE then Some 12%nat
  else if opcode =? OP_CONTEXT_CREATE_TRACKING then Some 12%nat
  else if opcode =? OP_CONTEXT_DELETE then Some 24%nat
  else if opcode =? OP_CONTEXT_EXTERNALIZE then Some 24%nat
  else if opcode =? OP_VERIFY_POLICY then Some 51%nat
  else None.

Definition validate_command (command : bytes) : result Z :=
  _ ← refuse (length command <? HEADER_SIZE)%nat "command is shorter than the ACM header";
  _ ← refuse (negb (bool_decide (take 4 command = MAGIC))
              || negb (bool_decide (slice 5 8 command = [chr 0; chr 0; chr 1])))
        "command header is invalid";
  let opcode := byte_at command 4 in
  _ ← refuse (negb (bool_decide (command_length opcode = Some (length command))))
        "command opcode or length is not allowed";
  let fixed := drop 24 command in
  _ ← (if opcode =? OP_VERIFY_POLICY then
         refuse (negb (bool_decide (take 18 fixed = ENROLLMENT_POLICY ++ [chr 0]))
                 || negb (bool_decide (byte_at fixed 18 ∈ [0; 1]))
                 || negb (bool_decide (drop 19 fixed = zeros 8)))
           "policy command is not the fixed enrollment policy"
       else Ok tt);
  Ok opcode.

(** The commands of the lifecycle, with what each carries. *)
Inductive acm_command :=
  | Create (user_id : Z) (tracking : bool)
  | Delete (context : ContextHandle)
  | Externalize (context : ContextHandle)
  | EnrollmentPolicy (context : ContextHandle) (preflight : bool).

Definition build (c : acm_command) : result bytes :=
  match c with
  | Create user_id tracking => build_create user_id tracking
  | Delete h => build_delete h
  | Externalize h => build_externalize h
  | EnrollmentPolicy h preflight => build_enrollment_policy h preflight
  end.

Definition opcode_of (c : acm_command) : Z :=
  match c with
  | Create _ tracking => if tracking then OP_CONTEXT_CREATE_TRACKING else OP_CONTEXT_CREATE
  | Delete _ => OP_CONTEXT_DELETE
  | Externalize _ => OP_CONTEXT_EXTERNALIZE
  | EnrollmentPolicy _ _ => OP_VERIFY_POLICY
  end.

(** The handles that exist: those the constructor accepts. *)
Definition command_wf (c : acm_command) : Prop :=
  match c with
  | Create _ _ => True
  | Delete h | Externalize h | EnrollmentPolicy h _ => new_handle h = Ok h
  end.

(** The wire form of a create response. *)
Definition create_response (tracking : bool) (h : ContextHandle) : bytes :=
  ch_context h ++ (if tracking then le_pack 4 (ch_payload h) else []) ++ [chr (ch_response_byte h)].

Definition create_response_valid (tracking : bool) (h : ContextHandle) : Prop :=
  new_handle h = Ok h ∧ ch_tracking h = tracking ∧ (tracking = false → ch_payload h = 0).

(** ** Handles and headers *)

Lemma byte_at_Some (bs : bytes) i c : bs !! i = Some c → byte_at bs i = code c.
Proof. intros H. unfold byte_at. by rewrite H. Qed.

Lemma byte_at_app (xs ys : bytes) n c : length xs = n → byte_at (xs ++ c :: ys) n = code c.
Proof. intros <-. apply byte_at_Some. by rewrite list_lookup_middle. Qed.

(** The last byte of a string, when it is at position [n]. *)
Lemma drop_last (bs : bytes) n : length bs = S n → drop n bs = [chr (byte_at bs n)].
Proof.
  intros Hl. destruct (lookup_lt_is_Some_2 bs n) as [c Hc]; [lia|].
  rewrite (byte_at_Some _ _ _ Hc), chr_code, (drop_S _ _ _ Hc). by rewrite drop_ge by lia.
Qed.

Lemma u32_iff z : u32 z = true ↔ 0 ≤ z < width 4.
Proof. unfold u32, width. change (256 ^ Z.of_nat 4) with (2 ^ 32). rewrite andb_true_iff, !Z.leb_le. lia. Qed.

Lemma new_handle_Ok h h' : new_handle h = Ok h' ↔
  h' = h ∧ length (ch_context h) = 16%nat ∧ 0 ≤ ch_payload h < width 4 ∧ 0 ≤ ch_response_byte h < 256
  ∧ (ch_tracking h = true → ch_response_byte h ∈ [0; 1]).
Proof.
  unfold new_handle. split.
  - intros H. apply bind_Ok in H as (? & Hl%fail_if_Ok & H). apply bind_Ok in H as (? & Hp%fail_if_Ok & H).
    apply bind_Ok in H as (? & Hr%fail_if_Ok & H). apply bind_Ok in H as (? & Ht%fail_if_Ok & H).
    apply Ok_inj in H as <-. apply negb_false_iff in Hl, Hp, Hr. apply Nat.eqb_eq in Hl. apply u32_iff in Hp.
    split_and!; try done; try lia. intros Htr. rewrite Htr in Ht. by apply negb_false_iff, bool_decide_eq_true in Ht.
  - intros (-> & Hl & Hp & Hr & Ht). rewrite Hl. apply u32_iff in Hp. rewrite Hp.
    replace ((0 <=? ch_response_byte h) && (ch_response_byte h <=? 255)) with true by lia.
    destruct (ch_tracking h); [|done]. by rewrite (bool_decide_eq_true_2 _ (Ht eq_refl)).
Qed.

Lemma acm_header_Ok c : acm_header (opcode_of c) = Ok (MAGIC ++ [chr (opcode_of c); chr 0; chr 0; chr 1]).
Proof. destruct c as [? []| | |]; reflexivity. Qed.

(** The body a command carries after its header. *)
Definition body_of (c : acm_command) : bytes :=
  match c with
  | Create user_id _ => le_pack 4 user_id
  | Delete h | Externalize h => ch_context h
  | EnrollmentPolicy h preflight =>
      ch_context h ++ ENROLLMENT_POLICY ++ [chr 0] ++ [chr (Z.b2z preflight)] ++ zeros 8
  end.

Lemma build_Ok c bs : build c = Ok bs ↔
  bs = MAGIC ++ [chr (opcode_of c); chr 0; chr 0; chr 1] ++ body_of c
  ∧ match c with Create user_id _ => 0 ≤ user_id < width 4 | _ => True end.
Proof.
  destruct c as [u t|h|h|h p]; simpl.
  - unfold build_create. cbv zeta.
    change (if t then OP_CONTEXT_CREATE_TRACKING else OP_CONTEXT_CREATE) with (opcode_of (Create u t)).
    rewrite acm_header_Ok. destruct (u32 u) eqn:Hu.
    + apply u32_iff in Hu. rewrite pack_packed by done. unfold packed, pack. simpl.
      replace ((0 <=? u) && (u <? width 4)) with true by lia. simpl. naive_solver.
    + simpl. split; [done|]. intros [_ H%u32_iff]. congruence.
  - split; [intros Hb%Ok_inj; by rewrite <-Hb|intros [-> _]; reflexivity].
  - split; [intros Hb%Ok_inj; by rewrite <-Hb|intros [-> _]; reflexivity].
  - split; [intros Hb%Ok_inj; by rewrite <-Hb|intros [-> _]; reflexivity].
Qed.

(** A command is its opcode and the bytes after the header. *)
Lemma header_split bs : (8 ≤ length bs)%nat →
  take 4 bs = MAGIC → slice 5 8 bs = [chr 0; chr 0; chr 1] →
  bs = MAGIC ++ [chr (byte_at bs 4); chr 0; chr 0; chr 1] ++ drop 8 bs.
Proof.
  do 8 (destruct bs as [|? bs]; [simpl; lia|]). intros _. unfold slice, byte_at. simpl.
  intros [= -> -> -> ->] [= -> -> ->]. by rewrite chr_code.
Qed.

Lemma validate_command_Ok bs op : validate_command bs = Ok op ↔
  (8 ≤ length bs)%nat ∧ take 4 bs = MAGIC ∧ slice 5 8 bs = [chr 0; chr 0; chr 1] ∧ op = byte_at bs 4
  ∧ command_length op = Some (length bs)
  ∧ (op = OP_VERIFY_POLICY → take 18 (drop 24 bs) = ENROLLMENT_POLICY ++ [chr 0]
       ∧ byte_at (drop 24 bs) 18 ∈ [0; 1] ∧ drop 19 (drop 24 bs) = zeros 8).
Proof.
  unfold validate_command. split.
  - intros H. apply bind_Ok in H as (? & Hl%fail_if_Ok%Nat.ltb_ge & H).
    apply bind_Ok in H as (? & Hh%fail_if_Ok & H). apply bind_Ok in H as (? & Hc%fail_if_Ok & H).
    apply bind_Ok in H as (? & Hp & H). apply Ok_inj in H as <-.
    apply orb_false_iff in Hh as [H1%negb_false_iff%bool_decide_eq_true H2%negb_false_iff%bool_decide_eq_true].
    apply negb_false_iff, bool_decide_eq_true in Hc. do 5 (split; [done|]).
    intros Hop. rewrite Hop, Z.eqb_refl in Hp. apply fail_if_Ok in Hp.
    apply orb_false_iff in Hp as [[Hp1 Hp2]%orb_false_iff Hp3].
    by rewrite negb_false_iff, bool_decide_eq_true in Hp1, Hp2, Hp3.
  - intros (Hl & H1 & H2 & -> & Hc & Hp). apply Nat.ltb_ge in Hl. change HEADER_SIZE with 8%nat.
    rewrite Hl, (bool_decide_eq_true_2 _ H1), (bool_decide_eq_true_2 _ H2), (bool_decide_eq_true_2 _ Hc).
    simpl. destruct (Z.eqb_spec (byte_at bs 4) OP_VERIFY_POLICY) as [E|E]; [|done].
    destruct (Hp E) as (P1 & P2 & P3).
    by rewrite (bool_decide_eq_true_2 _ P1), (bool_decide_eq_true_2 _ P2), (bool_decide_eq_true_2 _ P3).
Qed.

(** ** The command language *)

Lemma opcode_range c : 0 ≤ opcode_of c < 256.
Proof. by destruct c as [? []| | |]. Qed.

Lemma body_length c : command_wf c →
  command_length (opcode_of c) = Some (8 + length (body_of c))%nat.
Proof.
  destruct c as [u t|h|h|h p]; simpl.
  - intros _. by destruct t.
  - by intros (_ & -> & _)%new_handle_Ok.
  - by intros (_ & -> & _)%new_handle_Ok.
  - intros (_ & Hl & _)%new_handle_Ok. rewrite length_app, Hl. done.
Qed.

(** A body of the length its opcode asks for (and, for the policy, with the
    fixed tail) is the body of a command. *)
Lemma body_command op body :
  command_length op = Some (8 + length body)%nat →
  (op = OP_VERIFY_POLICY → take 18 (drop 16 body) = ENROLLMENT_POLICY ++ [chr 0]
     ∧ byte_at (drop 16 body) 18 ∈ [0; 1] ∧ drop 19 (drop 16 body) = zeros 8) →
  ∃ c, command_wf c ∧ opcode_of c = op ∧ body = body_of c
     ∧ match c with Create user_id _ => 0 ≤ user_id < width 4 | _ => True end.
Proof.
  unfold command_length. intros Hl Hp.
  assert (∀ ctx, length ctx = 16%nat → new_handle (Handle ctx 0 false 0) = Ok (Handle ctx 0 false 0)) as Hwf.
  { intros ctx Hc. apply new_handle_Ok. simpl. by split_and!. }
  assert (length body = 4%nat → body = le_pack 4 (le_unpack body) ∧ 0 ≤ le_unpack body < width 4) as Hu.
  { intros Hb. rewrite <-Hb, le_pack_unpack. split; [done|apply le_unpack_bounds]. }
  destruct (Z.eqb_spec op OP_CONTEXT_CREATE) as [->|_].
  { destruct Hu as [Hb Hr]; [injection Hl; lia|]. by exists (Create (le_unpack body) false). }
  destruct (Z.eqb_spec op OP_CONTEXT_CREATE_TRACKING) as [->|_].
  { destruct Hu as [Hb Hr]; [injection Hl; lia|]. by exists (Create (le_unpack body) true). }
  destruct (Z.eqb_spec op OP_CONTEXT_DELETE) as [->|_].
  { exists (Delete (Handle body 0 false 0)). split; [apply Hwf; injection Hl; lia|done]. }
  destruct (Z.eqb_spec op OP_CONTEXT_EXTERNALIZE) as [->|_].
  { exists (Externalize (Handle body 0 false 0)). split; [apply Hwf; injection Hl; lia|done]. }
  destruct (Z.eqb_spec op OP_VERIFY_POLICY) as [->|_]; [|done].
  destruct (Hp eq_refl) as (P1 & P2 & P3). injection Hl as Hl.
  set (rest := drop 16 body) in *. assert (length rest = 27%nat) as Hrest.
  { unfold rest. rewrite length_drop. lia. }
  destruct (lookup_lt_is_Some_2 rest 18) as [c Hc]; [lia|].
  rewrite (byte_at_Some _ _ _ Hc) in P2.
  exists (EnrollmentPolicy (Handle (take 16 body) 0 false 0) (code c =? 1)).
  split; [apply Hwf; rewrite length_take; lia|]. split; [done|]. split; [|done].
  cbn [body_of ch_context]. rewrite <-(take_drop 16 body) at 1. f_equal. fold rest.
  rewrite <-(take_drop_middle rest 18 c Hc), P1, P3, <-app_assoc. simpl. repeat f_equal.
  rewrite <-(chr_code c). apply elem_of_cons in P2 as [->|[->|[]%not_elem_of_nil]%elem_of_cons]; done.
Qed.

(** [validate_command] accepts exactly the commands the builders of this
    module construct, and returns their opcode: nothing outside the lifecycle
    (no raw opcode, no other policy, no parameters) passes it. *)
Theorem acm_commands_exact bs op :
  validate_command bs = Ok op ↔ ∃ c, command_wf c ∧ build c = Ok bs ∧ opcode_of c = op.
Proof.
  rewrite validate_command_Ok. split.
  - intros (Hl & H1 & H2 & -> & Hc & Hp). pose proof (header_split _ Hl H1 H2) as Hbs.
    assert (length bs = (8 + length (drop 8 bs))%nat) as Hlen by (rewrite length_drop; lia).
    rewrite Hlen in Hc.
    destruct (body_command _ _ Hc) as (c & Hwf & Hop & Hbody & Hu).
    { intros Hop. by rewrite drop_drop; apply Hp. }
    exists c. split; [done|]. split; [|done]. apply build_Ok. split; [|done]. by rewrite Hop, <-Hbody.
  - intros (c & Hwf & [-> Hu]%build_Ok & <-).
    set (o := opcode_of c). pose proof (opcode_range c) as Hr. fold o in Hr.
    assert (byte_at (MAGIC ++ [chr o; chr 0; chr 0; chr 1] ++ body_of c) 4 = o) as Ho.
    { unfold byte_at. simpl. by apply code_chr. }
    split; [simpl; lia|]. split; [done|]. split; [done|]. rewrite Ho.
    split; [done|]. split; [unfold o; rewrite body_length by done; done|].
    intros Hop. change (drop 24 (MAGIC ++ [chr o; chr 0; chr 0; chr 1] ++ body_of c)) with (drop 16 (body_of c)).
    destruct c as [? []|h|h|h p]; try done. simpl in Hwf. apply new_handle_Ok in Hwf as (_ & Hctx & _).
    cbn [body_of]. rewrite drop_app_length' by done. split; [done|]. split; [|done].
    unfold byte_at. simpl. destruct p; simpl; apply (bool_decide_unpack _); exact I.
Qed.

(** Commands are built without loss: two commands with the same bytes have
    the same opcode and the same body. *)
Lemma acm_build_body c d bs : build c = Ok bs → build d = Ok bs →
  opcode_of c = opcode_of d ∧ body_of c = body_of d.
Proof.
  intros [-> _]%build_Ok [H _]%build_Ok. simpl in H. injection H as H1 H2.
  apply (f_equal code) in H1. rewrite !code_chr in H1 by apply opcode_range. done.
Qed.

(** ** Create responses *)

Lemma create_response_decodes tracking h : create_response_valid tracking h →
  parse_create_response (create_response tracking h) tracking = Ok h.
Proof.
  destruct h as [ctx p t b]. intros (Hwf & Ht & Hp). simpl in *. subst t. pose proof Hwf as (_ & Hl & Hr & Hb & Hf)%new_handle_Ok.
  simpl in *. unfold parse_create_response, create_response. cbn [ch_context ch_payload ch_response_byte].
  change CONTEXT_SIZE with 16%nat. destruct tracking.
  + assert (length (ctx ++ le_pack 4 p ++ [chr b]) = 21%nat) as Hlen.
    { rewrite !length_app, Hl, length_le_pack. done. }
    rewrite Hlen. cbn [Nat.eqb negb fail_if mbind result_bind Nat.add andb]. assert (byte_at (ctx ++ le_pack 4 p ++ [chr b]) 20 = b) as ->.
    { rewrite app_assoc, byte_at_app by (rewrite length_app, Hl, length_le_pack; done). by apply code_chr. }
    rewrite (bool_decide_eq_true_2 _ (Hf eq_refl)). cbn [negb fail_if mbind result_bind].
    assert (unpack_from [I_] (ctx ++ le_pack 4 p ++ [chr b]) 16 = Ok (p, tt)) as ->.
    { apply (unpack_from_Ok [I_]). split; [rewrite Hlen; simpl; lia|].
      rewrite drop_app_length' by done. cbn [fields I_]. rewrite take_app_length' by by rewrite length_le_pack.
      by rewrite le_unpack_pack. }
    cbn [mbind result_bind]. by rewrite take_app_length' by done.
  + assert (length (ctx ++ [] ++ [chr b]) = 17%nat) as Hlen by (rewrite !length_app, Hl; done).
    rewrite Hlen. cbn [app Nat.eqb negb fail_if mbind result_bind Nat.add andb]. assert (byte_at (ctx ++ [chr b]) 16 = b) as ->.
    { rewrite byte_at_app by done. by apply code_chr. }
    rewrite take_app_length' by done. cbn [andb negb fail_if mbind result_bind]. by rewrite <-Hp.
Qed.

Lemma create_response_canonical tracking bs h : parse_create_response bs tracking = Ok h →
  create_response_valid tracking h ∧ create_response tracking h = bs.
Proof.
  intros H. unfold parse_create_response in H. change CONTEXT_SIZE with 16%nat in H.
  apply bind_Ok in H as (? & Hl%fail_if_Ok%negb_false_iff%Nat.eqb_eq & H).
  apply bind_Ok in H as (? & _ & H). apply bind_Ok in H as (p & Hp & H).
  pose proof H as Hwf. apply new_handle_Ok in H as (-> & _). split.
  + split; [by apply new_handle_Ok in Hwf as (_ & ?); apply new_handle_Ok|]. split; [done|].
    intros ->. by apply Ok_inj in Hp as <-.
  + unfold create_response. cbn [ch_context ch_payload ch_response_byte].
    transitivity (take 16 bs ++ drop 16 bs); [f_equal|apply take_drop]. destruct tracking.
    * apply bind_Ok in Hp as ([p' u] & Hp & Hq). apply Ok_inj in Hq as <-.
      apply (unpack_from_Ok [I_]) in Hp as [_ Hp]. simpl in Hp. injection Hp as -> _.
      transitivity (take 4 (drop 16 bs) ++ drop 4 (drop 16 bs)); [f_equal|apply take_drop].
      { rewrite <-(le_pack_unpack (take 4 (drop 16 bs))) at 2. by rewrite length_take, length_drop, Hl. }
      rewrite drop_drop. symmetry. by apply drop_last.
    * symmetry. by apply drop_last.
Qed.

#[export] Instance create_response_wire tracking :
  Wire (create_response_valid tracking) (create_response tracking) (λ bs, parse_create_response bs tracking) :=
  { wire_decode := create_response_decodes tracking; wire_encode := create_response_canonical tracking }.

(** A create response decodes exactly: the accepted strings are the wire
    forms of the handles of that kind, each read back unchanged. *)
Theorem create_response_exact tracking bs h :
  parse_create_response bs tracking = Ok h ↔ create_response_valid tracking h ∧ bs = create_response tracking h.
Proof. apply (wire_accepts (dec := λ bs, parse_create_response bs tracking)). Qed.
