(* ===== verification/AksState.v ===== *)
(** * Keybag state ([src/src/t2_aks_state.py])

    The strict DER decoder of the keybag state dictionary.  Offsets are
    natural numbers; the entry loop runs on fuel, and running out of it is an
    [AssertionError], which [decode] is shown never to raise. *)
From S2P Require Import Prelude PyValue Effect Bytes.

#[local] Open Scope Z_scope.

Definition MAX_DER_BYTES : Z := 16300.
Definition INT32_MIN : Z := - Z.shiftl 1 31.
Definition INT32_MAX : Z := Z.shiftl 1 31 - 1.
Definition UINT32_MAX : Z := Z.shiftl 1 32 - 1.
Definition UINT64_MAX : Z := Z.shiftl 1 64 - 1.

Record KeybagState := Keybag {
  kb_handle : Z;
  kb_maximum_unlock_attempts : Z;
  kb_backoff : Z;
  kb_failed_attempts : Z;
  kb_generation_state : Z;
  kb_lock_state : Z;
  kb_more_state : Z;
  kb_recovery_countdown : Z;
  kb_state : Z;
  kb_user_uuid : string;
}.

(** [KeybagState.redacted] *)
Definition keybag_redacted (k : KeybagState) : value :=
  dict [("schema_version", VInt 1); ("maximum_unlock_attempts", VInt (kb_maximum_unlock_attempts k));
        ("backoff", VInt (kb_backoff k)); ("failed_attempts", VInt (kb_failed_attempts k));
        ("generation_state", VInt (kb_generation_state k)); ("lock_state", VInt (kb_lock_state k));
        ("more_state", VInt (kb_more_state k)); ("recovery_countdown", VInt (kb_recovery_countdown k));
        ("state", VInt (kb_state k)); ("identifiers_redacted", VBool true)].

#[local] Abbreviation kerr := AKSStateError.
#[local] Abbreviation refuse b msg := (fail_if b AKSStateError msg).

(** [_length] *)
Definition der_length (data : bytes) (offset : nat) : result (Z * nat) :=
  match data !! offset with
  | None => raise kerr "DER length is truncated"
  | Some c =>
      let first := code c in
      if first <? 0x80 then Ok (first, S offset) else
      let count := Z.to_nat (Z.land first 0x7F) in
      _ ← refuse (count =? 0)%nat "indefinite DER length is forbidden";
      _ ← refuse ((2 <? count)%nat || (length data <? S offset + count)%nat) "DER length is invalid";
      let encoded := slice (S offset) (S offset + count) data in
      _ ← refuse (match encoded with c :: _ => code c =? 0 | [] => false end)
            "DER length is not minimally encoded";
      let value := be_unpack encoded in
      _ ← refuse (value <? 0x80) "DER long-form length is not minimal";
      Ok (value, (S offset + count)%nat)
  end.

(** [_tlv] *)
Definition tlv (data : bytes) (offset : nat) (expected_tag : Z) : result (bytes * nat) :=
  _ ← refuse (match data !! offset with Some c => negb (code c =? expected_tag) | None => true end)
        "DER tag is unexpected";
  '(len, content_offset) ← der_length data (S offset);
  let end_ := (content_offset + Z.to_nat len)%nat in
  _ ← refuse (length data <? end_)%nat "DER value is truncated";
  Ok (slice content_offset end_ data, end_).

(** [int.from_bytes(content, "big", signed=signed)] *)
Definition from_bytes (content : bytes) (signed : bool) : Z :=
  match content with
  | c :: _ => if signed && (0x80 <=? code c) then be_unpack content - width (length content)
              else be_unpack content
  | [] => 0
  end.

(** [_integer] *)
Definition der_integer (content : bytes) (signed : bool) (field : string) : result Z :=
  match content with
  | [] => raise kerr (field +:+ " integer is empty")
  | c0 :: rest =>
      _ ← match rest with
          | c1 :: _ =>
              _ ← refuse ((code c0 =? 0) && (code c1 <? 0x80))
                    (field +:+ " integer has redundant positive padding");
              refuse ((code c0 =? 0xFF) && (0x80 <=? code c1))
                (field +:+ " integer has redundant negative padding")
          | [] => Ok tt
          end;
      _ ← refuse (negb signed && negb (Z.land (code c0) 0x80 =? 0)) (field +:+ " integer is negative");
      let value := from_bytes content signed in
      _ ← (if signed
           then refuse (negb ((INT32_MIN <=? value) && (value <=? INT32_MAX)) || (value =? 0))
                  (field +:+ " is outside the signed handle range")
           else refuse (negb ((0 <=? value) && (value <=? UINT64_MAX)))
                  (field +:+ " is outside the unsigned state range"));
      Ok value
  end.

Inductive entry_value :=
  | DInt (z : Z)
  | DBytes (b : bytes).

(** [content.decode("ascii")] *)
Definition decode_ascii (content : bytes) : option string :=
  if forallb (λ c, code c <? 0x80) content then Some (String.string_of_list_ascii content) else None.

(** The body of the loop, on one [SEQUENCE]; [seen] are the keys so far. *)
Definition decode_entry (sequence : bytes) (seen : list string) : result (string * entry_value) :=
  '(key_content, sequence_offset) ← tlv sequence 0 0x0C;
  match decode_ascii key_content with
  | None => raise kerr "keybag state key is not ASCII"
  | Some key =>
      _ ← refuse (bool_decide (key ∈ seen)) "keybag state contains a duplicate key";
      match sequence !! sequence_offset with
      | None => raise kerr "keybag state value is missing"
      | Some c =>
          let tag := code c in
          '(content, value_end) ← tlv sequence sequence_offset tag;
          _ ← refuse (negb (value_end =? length sequence)%nat) "keybag state sequence has extra values";
          if tag =? 0x02 then
            z ← der_integer content (String.eqb key "bh") key; Ok (key, DInt z)
          else if tag =? 0x04 then Ok (key, DBytes content)
          else raise kerr "keybag state value type is unsupported"
      end
  end.

(** [while offset < len(root)]; [values] in insertion order. *)
Fixpoint decode_entries (fuel : nat) (root : bytes) (offset : nat) (values : list (string * entry_value))
    : result (list (string * entry_value)) :=
  if (offset <? length root)%nat then
    match fuel with
    | O => raise AssertionError "out of fuel"
    | S fuel =>
        '(sequence, offset) ← tlv root offset 0x30;
        entry ← decode_entry sequence values.*1;
        decode_entries fuel root offset (values ++ [entry])
    end
  else Ok values.

(** [sorted(expected)] *)
Definition EXPECTED : list string :=
  ["bh"; "mua"; "sb"; "sfa"; "sgs"; "sls"; "sms"; "srcd"; "ss"; "uuuid"].

Definition find_value (values : list (string * entry_value)) (key : string) : option entry_value :=
  list_to_map (M := gmap string entry_value) values !! key.
Definition find_int (values : list (string * entry_value)) (key : string) : Z :=
  match find_value values key with Some (DInt z) => z | _ => 0 end.
Definition is_int_field (values : list (string * entry_value)) (key : string) : bool :=
  match find_value values key with Some (DInt _) => true | _ => false end.

(** The checks on the complete dictionary. *)
Definition keybag_of_values (values : list (string * entry_value)) : result KeybagState :=
  _ ← refuse (negb (bool_decide (list_to_set (C := gset string) values.*1 = list_to_set EXPECTED)))
        "keybag state fields are incomplete or unsupported";
  _ ← refuse (negb (bool_decide (values.*1 = EXPECTED))) "keybag state fields are not in Apple key order";
  _ ← refuse (negb (forallb (is_int_field values) (filter (λ k, k ≠ "uuuid") EXPECTED)))
        "keybag state integer field has the wrong type";
  match find_value values "uuuid" with
  | Some (DBytes raw) =>
      _ ← refuse (negb (length raw =? 16)%nat) "keybag user UUID is not exactly 16 bytes";
      let parsed := be_unpack raw in
      _ ← refuse (parsed =? 0) "keybag user UUID is zero";
      let int := find_int values in
      _ ← refuse (UINT32_MAX <? int "mua") "maximum unlock attempts is outside uint32";
      _ ← refuse ((UINT32_MAX <? int "sb") || (UINT32_MAX <? int "sfa"))
            "keybag retry state is outside uint32";
      _ ← refuse ((UINT32_MAX <? int "sgs") || (UINT32_MAX <? int "sms"))
            "keybag generation state is outside uint32";
      _ ← refuse ((UINT32_MAX <? int "srcd") || (UINT32_MAX <? int "ss"))
            "keybag state word is outside uint32";
      _ ← refuse (0xFFFF <? int "sls") "keybag lock state is outside uint16";
      Ok (Keybag (int "bh") (int "mua") (int "sb") (int "sfa") (int "sgs") (int "sls") (int "sms")
            (int "srcd") (int "ss") (uuid_str parsed))
  | _ => raise kerr "keybag user UUID is not exactly 16 bytes"
  end.

Definition decode (data : bytes) : result KeybagState :=
  _ ← refuse (negb ((0 <? Z.of_nat (length data)) && (Z.of_nat (length data) <=? MAX_DER_BYTES)))
        "keybag state size is invalid";
  '(root, end_) ← tlv data 0 0x31;
  _ ← refuse (negb (end_ =? length data)%nat) "keybag state has trailing data";
  values ← decode_entries (length root) root 0 [];
  keybag_of_values values.

(** ** The canonical encoding *)

Definition enc_length (n : Z) : bytes :=
  if n <? 0x80 then [chr n]
  else if n <? 0x100 then [chr 0x81; chr n]
  else [chr 0x82; chr (n / 256); chr (n mod 256)].

Definition enc_tlv (tag : Z) (content : bytes) : bytes :=
  chr tag :: enc_length (Z.of_nat (length content)) ++ content.

(** The integers of a signed and of an unsigned field. *)
Definition integer_ok (signed : bool) (z : Z) : Prop :=
  if signed then INT32_MIN ≤ z ≤ INT32_MAX ∧ z ≠ 0 else 0 ≤ z ≤ UINT64_MAX.

(** [n] bytes hold the two's complement of [z]. *)
Definition fits (n : nat) (z : Z) : bool := (- (width n) <=? 2 * z) && (2 * z <? width n).
(** The number of bytes of the shortest two's complement, at most nine. *)
Fixpoint int_size (fuel n : nat) (z : Z) : nat :=
  match fuel with
  | O => n
  | S fuel => if fits n z then n else int_size fuel (S n) z
  end.
Definition enc_integer (z : Z) : bytes :=
  let n := int_size 8 1 z in be_pack n (z mod width n).

Definition enc_value (v : entry_value) : bytes :=
  match v with
  | DInt z => enc_tlv 0x02 (enc_integer z)
  | DBytes b => enc_tlv 0x04 b
  end.
Definition enc_entry (e : string * entry_value) : bytes :=
  enc_tlv 0x30 (enc_tlv 0x0C (text e.1) ++ enc_value e.2).

(** The state as the wire carries it, the UUID as an integer. *)
Record keybag_fields := Fields {
  kf_handle : Z; kf_mua : Z; kf_sb : Z; kf_sfa : Z; kf_sgs : Z; kf_sls : Z; kf_sms : Z;
  kf_srcd : Z; kf_ss : Z; kf_uuid : Z;
}.
Definition entries_of (f : keybag_fields) : list (string * entry_value) :=
  [("bh", DInt (kf_handle f)); ("mua", DInt (kf_mua f)); ("sb", DInt (kf_sb f)); ("sfa", DInt (kf_sfa f));
   ("sgs", DInt (kf_sgs f)); ("sls", DInt (kf_sls f)); ("sms", DInt (kf_sms f)); ("srcd", DInt (kf_srcd f));
   ("ss", DInt (kf_ss f)); ("uuuid", DBytes (be_pack 16 (kf_uuid f)))].
Definition encode (f : keybag_fields) : bytes := enc_tlv 0x31 (concat (map enc_entry (entries_of f))).
Definition keybag_of_fields (f : keybag_fields) : KeybagState :=
  Keybag (kf_handle f) (kf_mua f) (kf_sb f) (kf_sfa f) (kf_sgs f) (kf_sls f) (kf_sms f) (kf_srcd f)
    (kf_ss f) (uuid_str (kf_uuid f)).
Record fields_valid (f : keybag_fields) : Prop := {
  fv_handle : INT32_MIN ≤ kf_handle f ≤ INT32_MAX ∧ kf_handle f ≠ 0;
  fv_words : Forall (λ z, 0 ≤ z ≤ UINT32_MAX)
    [kf_mua f; kf_sb f; kf_sfa f; kf_sgs f; kf_sms f; kf_srcd f; kf_ss f];
  fv_lock : 0 ≤ kf_sls f ≤ 0xFFFF;
  fv_uuid : 0 < kf_uuid f < width 16;
}.

(** ** Lengths and tags *)

Lemma land_7f z : 0x80 ≤ z < 0x100 → Z.land z 0x7F = z - 0x80.
Proof.
  intros H. change 0x7F with (Z.ones 7). rewrite Z.land_ones by lia. change (2 ^ 7) with 128.
  symmetry. apply (Z.mod_unique _ _ 1); lia.
Qed.

Lemma lookup_drop_head {A} (l : list A) o x rest : drop o l = x :: rest → l !! o = Some x.
Proof. intros H. rewrite <-(Nat.add_0_r o), <-lookup_drop, H. done. Qed.

(** The decoder only looks at what follows the offset. *)
Lemma der_length_suffix data o : der_length data o =
  match drop o data with
  | [] => raise kerr "DER length is truncated"
  | c :: l =>
      if code c <? 0x80 then Ok (code c, S o) else
      let count := Z.to_nat (Z.land (code c) 0x7F) in
      _ ← refuse (count =? 0)%nat "indefinite DER length is forbidden";
      _ ← refuse ((2 <? count)%nat || (length l <? count)%nat) "DER length is invalid";
      let encoded := take count l in
      _ ← refuse (match encoded with c :: _ => code c =? 0 | [] => false end)
            "DER length is not minimally encoded";
      let value := be_unpack encoded in
      _ ← refuse (value <? 0x80) "DER long-form length is not minimal";
      Ok (value, (S o + count)%nat)
  end.
Proof.
  unfold der_length. destruct (drop o data) as [|c l] eqn:Hd.
  { apply (f_equal length) in Hd. rewrite length_drop in Hd. by rewrite lookup_ge_None_2 by (simpl in Hd; lia). }
  rewrite (lookup_drop_head _ _ _ _ Hd).
  assert (drop (S o) data = l) as Hl by (by rewrite <-Nat.add_1_r, <-drop_drop, Hd).
  assert (length data = S o + length l)%nat as Hlen.
  { apply (f_equal length) in Hd. rewrite length_drop in Hd. simpl in Hd. lia. }
  destruct (code c <? 128); [done|]. cbv zeta. set (count := Z.to_nat _). unfold slice.
  rewrite Hl, Nat.add_sub'. by replace (length data <? S o + count)%nat with (length l <? count)%nat
    by (destruct (Nat.ltb_spec (length l) count), (Nat.ltb_spec (length data) (S o + count)); lia).
Qed.

Lemma der_length_Ok data o v o' : der_length data o = Ok (v, o') ↔
  ∃ rest, drop o data = enc_length v ++ rest ∧ o' = (o + length (enc_length v))%nat ∧ 0 ≤ v < 65536.
Proof.
  rewrite der_length_suffix. split.
  - destruct (drop o data) as [|c l]; [done|]. pose proof (code_bounds c) as Hc.
    destruct (Z.ltb_spec (code c) 128) as [Hs|Hs].
    { intros [= <- <-]. exists l. unfold enc_length. rewrite (proj2 (Z.ltb_lt _ _) Hs), chr_code.
      split_and!; try done; simpl; lia. }
    rewrite land_7f by lia. cbv zeta. set (count := Z.to_nat (code c - 128)). intros H. ok_inv.
    match goal with H : (count =? 0)%nat = false |- _ => apply Nat.eqb_neq in H end.
    match goal with H : (2 <? count)%nat = false |- _ => apply Nat.ltb_ge in H end.
    match goal with H : (length l <? count)%nat = false |- _ => apply Nat.ltb_ge in H; rename H into Hl end.
    match goal with H : (be_unpack _ <? 128) = false |- _ => apply Z.ltb_ge in H; rename H into Hv end.
    match goal with H : match take count l with _ => _ end = false |- _ => rename H into Hz end.
    assert (count = 1 ∨ count = 2)%nat as [E|E] by lia; rewrite E in *.
    + destruct l as [|d l]; [simpl in Hl; lia|]. simpl in *. pose proof (code_bounds d).
      unfold be_unpack in *. simpl in *. replace (256 * 0 + code d) with (code d) in * by lia.
      exists l. unfold enc_length. replace (code d <? 128) with false by lia. replace (code d <? 256) with true by lia.
      rewrite chr_code. split; [|simpl; lia]. simpl. do 2 f_equal. rewrite <-(chr_code c). f_equal. lia.
    + destruct l as [|d [|e l]]; [simpl in Hl; lia..|]. simpl in *. pose proof (code_bounds d).
      pose proof (code_bounds e). unfold be_unpack in *. simpl in *. apply Z.eqb_neq in Hz.
      replace (256 * (256 * 0 + code d) + code e) with (256 * code d + code e) in * by lia.
      set (v := 256 * code d + code e) in *. exists l. unfold enc_length.
      replace (v <? 128) with false by lia. replace (v <? 256) with false by lia.
      assert (v / 256 = code d) as -> by (unfold v; symmetry; apply (Z.div_unique _ _ _ (code e)); lia).
      assert (v mod 256 = code e) as -> by (unfold v; symmetry; apply (Z.mod_unique _ _ (code d)); lia).
      rewrite !chr_code. split; [|simpl; lia]. simpl. do 2 f_equal. rewrite <-(chr_code c). f_equal. lia.
  - intros (rest & -> & -> & Hv). unfold enc_length.
    destruct (Z.ltb_spec v 128).
    { simpl. rewrite code_chr by lia. replace (v <? 128) with true by lia. do 2 f_equal. lia. }
    destruct (Z.ltb_spec v 256).
    + simpl. unfold be_unpack. simpl. rewrite code_chr by lia. replace (256 * 0 + v) with v by lia.
      replace (v =? 0) with false by lia. replace (v <? 128) with false by lia. simpl.
      change (Z.to_nat _) with 1%nat. do 2 f_equal. lia.
    + pose proof (Z.div_mod v 256). pose proof (Z.mod_pos_bound v 256).
      assert (1 ≤ v / 256 < 256) by (split; [apply Z.div_le_lower_bound|apply Z.div_lt_upper_bound]; lia).
      simpl. unfold be_unpack. simpl. rewrite !code_chr by lia.
      replace (v / 256 =? 0) with false by lia. simpl.
      replace (256 * (256 * 0 + v / 256) + v mod 256) with v by lia. replace (v <? 128) with false by lia.
      simpl. change (Z.to_nat _) with 2%nat. do 2 f_equal. lia.
Qed.

Lemma tlv_Ok data o tag c e : (0 ≤ tag < 256) → tlv data o tag = Ok (c, e) ↔
  ∃ rest, drop o data = enc_tlv tag c ++ rest ∧ e = (o + length (enc_tlv tag c))%nat
    ∧ Z.of_nat (length c) < 65536.
Proof.
  intros Htag. unfold tlv, enc_tlv. split.
  - intros H. apply bind_Ok in H as (? & Ht%fail_if_Ok & H).
    apply bind_Ok in H as ([v o'] & (rest & Hd & -> & Hv)%der_length_Ok & H).
    apply bind_Ok in H as (? & Hl%fail_if_Ok%Nat.ltb_ge & H). apply Ok_inj, pair_equal_spec in H as [<- <-].
    destruct (data !! o) as [t|] eqn:Ho; [|done]. apply negb_false_iff, Z.eqb_eq in Ht as <-.
    set (n := length (enc_length v)) in *.
    assert (length data = S o + length (drop (S o) data))%nat as Hlen.
    { rewrite length_drop. apply lookup_lt_Some in Ho. lia. }
    assert (slice (S o + n) (S o + n + Z.to_nat v) data = take (Z.to_nat v) rest) as ->.
    { unfold slice. rewrite Nat.add_sub', <-drop_drop, Hd. by rewrite drop_app_length' by done. }
    rewrite Hd, length_app in Hlen. fold n in Hlen.
    assert (length (take (Z.to_nat v) rest) = Z.to_nat v) as Hc by (rewrite length_take; lia).
    rewrite Hc, Z2Nat.id by lia. exists (drop (Z.to_nat v) rest).
    rewrite chr_code, (drop_S _ _ _ Ho), Hd. simpl. rewrite <-app_assoc, take_drop.
    split; [done|]. split; [|lia]. rewrite length_app, Hc. fold n. lia.
  - intros (rest & Hd & -> & Hl). simpl in Hd. rewrite (lookup_drop_head _ _ _ _ Hd), code_chr, Z.eqb_refl by done.
    cbn [negb fail_if mbind result_bind].
    assert (drop (S o) data = enc_length (Z.of_nat (length c)) ++ c ++ rest) as Hd'.
    { by rewrite <-Nat.add_1_r, <-drop_drop, Hd, <-app_assoc. }
    rewrite (proj2 (der_length_Ok data (S o) (Z.of_nat (length c)) _)) by (exists (c ++ rest); split_and!; done || lia).
    cbn [mbind result_bind]. rewrite Nat2Z.id. set (n := length (enc_length _)) in *.
    assert (length data = S o + n + length c + length rest)%nat as Hlen.
    { apply (f_equal length) in Hd. rewrite length_drop in Hd. simpl in Hd.
      rewrite !length_app in Hd. fold n in Hd. lia. }
    replace (length data <? S o + n + length c)%nat with false by (symmetry; apply Nat.ltb_ge; lia).
    cbn [fail_if mbind result_bind]. do 2 f_equal.
    + unfold slice. rewrite Nat.add_sub', <-drop_drop, Hd', drop_app_length' by done.
      by rewrite take_app_length'.
    + cbn [length]. rewrite length_app. fold n. lia.
Qed.

(** ** Integers *)

Lemma le_unpack_app xs ys : le_unpack (xs ++ ys) = le_unpack xs + width (length xs) * le_unpack ys.
Proof.
  induction xs as [|x xs IH]; cbn [app le_unpack length].
  - change (width 0) with 1. lia.
  - rewrite width_S, IH. lia.
Qed.

Lemma be_unpack_cons c bs : be_unpack (c :: bs) = code c * width (length bs) + be_unpack bs.
Proof.
  rewrite !be_unpack_rev. cbn [rev]. rewrite le_unpack_app, length_rev. cbn [le_unpack]. lia.
Qed.

(** The sign bit is that of the first byte. *)
Lemma sign_bit c bs : 128 ≤ code c ↔ width (length (c :: bs)) ≤ 2 * be_unpack (c :: bs).
Proof.
  rewrite be_unpack_cons. cbn [length]. rewrite width_S.
  pose proof (be_unpack_bounds bs). pose proof (code_bounds c). nia.
Qed.

(** The two's complement value of a string. *)
Definition signed_value (n : nat) (v : Z) : Z := if width n <=? 2 * v then v - width n else v.

Lemma from_bytes_signed c bs :
  from_bytes (c :: bs) true = signed_value (length (c :: bs)) (be_unpack (c :: bs)).
Proof.
  unfold from_bytes, signed_value. pose proof (sign_bit c bs).
  destruct (Z.leb_spec 128 (code c)), (Z.leb_spec (width (length (c :: bs))) (2 * be_unpack (c :: bs)));
    simpl andb; cbv iota; lia.
Qed.

Lemma signed_value_fits n v : 0 ≤ v < width n → fits n (signed_value n v) = true.
Proof. unfold fits, signed_value. intros H. destruct (Z.leb_spec (width n) (2 * v)); lia. Qed.

Lemma signed_value_mod n v : 0 ≤ v < width n → signed_value n v mod width n = v.
Proof.
  intros H. unfold signed_value. destruct (Z.leb_spec (width n) (2 * v)); [|by apply Z.mod_small].
  symmetry. apply (Z.mod_unique _ _ (-1)); lia.
Qed.

Lemma signed_value_unmod n z : fits n z = true → signed_value n (z mod width n) = z.
Proof.
  unfold fits. intros H. pose proof (width_pos n). unfold signed_value.
  destruct (decide (0 ≤ z)).
  - rewrite Z.mod_small by lia. destruct (Z.leb_spec (width n) (2 * z)); lia.
  - assert (z mod width n = z + width n) as -> by (symmetry; apply (Z.mod_unique _ _ (-1)); lia).
    destruct (Z.leb_spec (width n) (2 * (z + width n))); lia.
Qed.

Lemma width_le m n : (m ≤ n)%nat → width m ≤ width n.
Proof. intros H. unfold width. apply Z.pow_le_mono_r; lia. Qed.

Lemma fits_mono m n z : (m ≤ n)%nat → fits m z = true → fits n z = true.
Proof. intros H%width_le. unfold fits. lia. Qed.

(** The padding checks refuse exactly the strings that are one byte too long. *)
Lemma redundant_iff c0 c1 bs :
  (code c0 =? 0) && (code c1 <? 128) || (code c0 =? 255) && (128 <=? code c1)
  = fits (S (length bs)) (from_bytes (c0 :: c1 :: bs) true).
Proof.
  rewrite from_bytes_signed. unfold signed_value, fits. rewrite !be_unpack_cons. cbn [length]. rewrite !width_S.
  pose proof (code_bounds c0). pose proof (code_bounds c1). pose proof (be_unpack_bounds bs).
  pose proof (width_pos (length bs)) as HK. set (K := width (length bs)) in *. set (r := be_unpack bs) in *.
  clearbody K r. apply eq_true_iff_eq.
  rewrite orb_true_iff, !andb_true_iff, !Z.eqb_eq, Z.ltb_lt, !Z.leb_le, Z.ltb_lt.
  destruct (Z.leb_spec (256 * (256 * K)) (2 * (code c0 * (256 * K) + (code c1 * K + r)))); nia.
Qed.

Lemma int_size_spec fuel n0 n z : (n0 ≤ n ≤ n0 + fuel)%nat →
  (∀ m, (n0 ≤ m < n)%nat → fits m z = false) → ((n < n0 + fuel)%nat → fits n z = true) →
  int_size fuel n0 z = n.
Proof.
  revert n0. induction fuel as [|fuel IH]; intros n0 Hn Hlow Hfit; simpl; [lia|].
  destruct (decide (n0 = n)) as [->|Hne]; [by rewrite Hfit by lia|].
  rewrite Hlow by lia. apply IH; [lia| |]; intros; [apply Hlow|apply Hfit]; lia.
Qed.

Lemma int_size_least fuel n0 z : fits (n0 + fuel) z = true →
  (n0 ≤ int_size fuel n0 z ≤ n0 + fuel)%nat ∧ fits (int_size fuel n0 z) z = true
  ∧ ∀ m, (n0 ≤ m < int_size fuel n0 z)%nat → fits m z = false.
Proof.
  revert n0. induction fuel as [|fuel IH]; intros n0 Hf; simpl.
  { rewrite Nat.add_0_r in *. split_and!; try done; lia. }
  destruct (fits n0 z) eqn:E; [split_and!; try done; lia|].
  destruct (IH (S n0)) as (H1 & H2 & H3); [by rewrite Nat.add_succ_r in Hf|].
  split_and!; try done; try lia. intros m Hm. destruct (decide (m = n0)) as [->|]; [done|]. apply H3. lia.
Qed.

Lemma enc_integer_unique bs : bs ≠ [] →
  let z := from_bytes bs true in
  fits 9 z = true → ((1 < length bs)%nat → fits (length bs - 1) z = false) → enc_integer z = bs.
Proof.
  destruct bs as [|c bs]; [done|]. intros _ z H9 Hmin. set (n := length (c :: bs)) in *.
  pose proof (be_unpack_bounds (c :: bs)) as Hb. fold n in Hb.
  assert (z = signed_value n (be_unpack (c :: bs))) as Hz by apply from_bytes_signed.
  assert (fits n z = true) as Hfit by (rewrite Hz; by apply signed_value_fits).
  assert (int_size 8 1 z = n) as Hsize.
  { apply int_size_spec.
    - split; [simpl in n; lia|]. destruct (decide (n ≤ 9)%nat) as [|Hn]; [done|].
      rewrite (fits_mono 9 (n - 1)) in Hmin by (done || lia). discriminate Hmin; lia.
    - intros m Hm. destruct (fits m z) eqn:E; [|done].
      rewrite (fits_mono m (n - 1)) in Hmin by (done || lia). discriminate Hmin; lia.
    - done. }
  unfold enc_integer. rewrite Hsize, Hz, signed_value_mod by done. apply be_pack_unpack.
Qed.

Lemma land_80 c : (Z.land (code c) 128 =? 0) = (code c <? 128).
Proof. destruct c as [[] [] [] [] [] [] [] []]; reflexivity. Qed.

Lemma integer_ok_fits signed z : integer_ok signed z → fits 9 z = true.
Proof.
  unfold integer_ok, fits, INT32_MIN, INT32_MAX, UINT64_MAX. change (width 9) with (2 ^ 72).
  change (Z.shiftl 1 31) with (2 ^ 31). change (Z.shiftl 1 64) with (2 ^ 64). destruct signed; lia.
Qed.

Lemma der_integer_checks c bs signed field z : der_integer (c :: bs) signed field = Ok z ↔
  ((1 < length (c :: bs))%nat → fits (length (c :: bs) - 1) (from_bytes (c :: bs) true) = false)
  ∧ (signed = false → code c < 128) ∧ z = from_bytes (c :: bs) signed ∧ integer_ok signed z.
Proof.
  unfold der_integer. split.
  - intros H. apply bind_Ok in H as (u & Hpad & H). apply bind_Ok in H as (u' & Hneg%fail_if_Ok & H).
    apply bind_Ok in H as (u'' & Hr & H). apply Ok_inj in H as <-. split_and!.
    + destruct bs as [|c1 bs]; [simpl; lia|]. intros _.
      apply bind_Ok in Hpad as (? & H1%fail_if_Ok & H2%fail_if_Ok).
      replace (length (c :: c1 :: bs) - 1)%nat with (S (length bs)) by (simpl; lia).
      by rewrite <-redundant_iff, H1, H2.
    + intros ->. rewrite land_80 in Hneg. simpl in Hneg. by apply negb_false_iff, Z.ltb_lt in Hneg.
    + done.
    + destruct signed; apply fail_if_Ok in Hr; cbn [integer_ok].
      * apply orb_false_iff in Hr as [Hr%negb_false_iff Hz%Z.eqb_neq]. apply andb_true_iff in Hr. lia.
      * apply negb_false_iff, andb_true_iff in Hr. lia.
  - intros (Hmin & Hneg & -> & Hr).
    assert ((match bs with
             | c1 :: _ => _ ← refuse ((code c =? 0) && (code c1 <? 0x80))
                    (field +:+ " integer has redundant positive padding");
                 refuse ((code c =? 0xFF) && (0x80 <=? code c1))
                   (field +:+ " integer has redundant negative padding")
             | [] => Ok tt end) = Ok tt) as ->.
    { destruct bs as [|c1 bs]; [done|].
      replace (length (c :: c1 :: bs) - 1)%nat with (S (length bs)) in Hmin by (simpl; lia).
      rewrite <-redundant_iff in Hmin. specialize (Hmin ltac:(simpl; lia)).
      apply orb_false_iff in Hmin as [-> ->]. done. }
    cbn [mbind result_bind]. rewrite land_80.
    assert (negb signed && negb (code c <? 128) = false) as ->.
    { destruct signed; [done|]. simpl. apply negb_false_iff, Z.ltb_lt. by apply Hneg. }
    cbn [fail_if mbind result_bind]. destruct signed; cbn [integer_ok] in Hr.
    + assert (negb ((INT32_MIN <=? from_bytes (c :: bs) true) && (from_bytes (c :: bs) true <=? INT32_MAX))
        || (from_bytes (c :: bs) true =? 0) = false) as -> by lia. done.
    + assert (negb ((0 <=? from_bytes (c :: bs) false) && (from_bytes (c :: bs) false <=? UINT64_MAX)) = false)
        as -> by lia. done.
Qed.

Lemma from_bytes_positive c bs signed : code c < 128 → from_bytes (c :: bs) signed = from_bytes (c :: bs) true.
Proof. intros H. unfold from_bytes. rewrite (proj2 (Z.leb_gt 128 _)) by done. by rewrite !andb_false_r. Qed.

(** An integer is accepted exactly in its shortest form and in range. *)
Lemma der_integer_Ok bs signed field z :
  der_integer bs signed field = Ok z ↔ bs = enc_integer z ∧ integer_ok signed z.
Proof.
  split.
  - destruct bs as [|c bs]; [done|]. intros (Hmin & Hneg & Hz & Hok)%der_integer_checks.
    assert (z = from_bytes (c :: bs) true) as Hz'.
    { destruct signed; [done|]. rewrite Hz. apply from_bytes_positive. by apply Hneg. }
    split; [|done]. symmetry. rewrite Hz'. apply enc_integer_unique; [done| |done].
    rewrite <-Hz'. by eapply integer_ok_fits.
  - intros [-> Hok]. pose proof (integer_ok_fits _ _ Hok) as H9.
    destruct (int_size_least 8 1 z H9) as (Hn & Hfit & Hlow).
    unfold enc_integer. set (n := int_size 8 1 z) in *. pose proof (width_pos n).
    pose proof (Z.mod_pos_bound z (width n) ltac:(lia)) as Hmod.
    pose proof (length_be_pack n (z mod width n)) as Hl.
    pose proof (be_unpack_pack n (z mod width n) Hmod) as Hu.
    destruct (be_pack n (z mod width n)) as [|c bs] eqn:Hbs; [simpl in Hl; lia|].
    assert (from_bytes (c :: bs) true = z) as Hz.
    { rewrite from_bytes_signed, Hl, Hu. by apply signed_value_unmod. }
    assert (signed = false → code c < 128) as Hneg.
    { intros ->. simpl in Hok. destruct (decide (code c < 128)) as [|Hc]; [done|].
      assert (128 ≤ code c) as Hs%(sign_bit c bs) by lia. rewrite Hl, Hu in Hs.
      rewrite Z.mod_small in Hs by (unfold fits in Hfit; lia). unfold fits in Hfit. lia. }
    apply der_integer_checks. rewrite Hl, Hz. split_and!; try done.
    + intros Hlt. apply Hlow. lia.
    + destruct signed; [done|]. by rewrite from_bytes_positive by by apply Hneg.
Qed.

Lemma length_enc_integer z : fits 9 z = true → (length (enc_integer z) ≤ 9)%nat.
Proof.
  intros H. unfold enc_integer. rewrite length_be_pack. apply (int_size_least 8 1 z) in H. lia.
Qed.

(** ** Entries *)

(** The entries a dictionary may hold. *)
Definition entry_ok (e : string * entry_value) : Prop :=
  forallb (λ c, code c <? 0x80) (text e.1) = true ∧ Z.of_nat (length (text e.1)) < 65536
  ∧ (match e.2 with
     | DInt z => integer_ok (String.eqb e.1 "bh") z
     | DBytes b => Z.of_nat (length b) < 65536
     end)
  ∧ Z.of_nat (length (enc_tlv 0x0C (text e.1) ++ enc_value e.2)) < 65536.

Lemma decode_ascii_Ok bs key : decode_ascii bs = Some key ↔
  bs = text key ∧ forallb (λ c, code c <? 0x80) (text key) = true.
Proof.
  unfold decode_ascii, text. destruct (forallb _ bs) eqn:E; split.
  - intros [= <-]. by rewrite String.list_ascii_of_string_of_list_ascii.
  - intros [-> _]. by rewrite String.string_of_list_ascii_of_string.
  - done.
  - intros [-> ?]. congruence.
Qed.

Lemma tlv_start data tag c e : 0 ≤ tag < 256 → tlv data 0 tag = Ok (c, e) ↔
  ∃ rest, data = enc_tlv tag c ++ rest ∧ e = length (enc_tlv tag c) ∧ Z.of_nat (length c) < 65536.
Proof. intros H. rewrite tlv_Ok by done. by rewrite drop_0. Qed.

Lemma enc_tlv_nonempty tag c : (1 ≤ length (enc_tlv tag c))%nat.
Proof. unfold enc_tlv. simpl. lia. Qed.

Lemma enc_tlv_cons tag c : ∃ rest, enc_tlv tag c = chr tag :: rest.
Proof. by eexists. Qed.

Lemma decode_entry_Ok sequence seen e : Z.of_nat (length sequence) < 65536 →
  decode_entry sequence seen = Ok e ↔
  sequence = enc_tlv 0x0C (text e.1) ++ enc_value e.2 ∧ entry_ok e ∧ (e.1 ∉ seen).
Proof.
  intros Hlen. unfold decode_entry. split.
  - intros H. apply bind_Ok in H as ([kc o] & (rest & Hseq & -> & Hk)%tlv_start & H); [|done].
    destruct (decode_ascii kc) as [key|] eqn:Hkey; [|done].
    apply decode_ascii_Ok in Hkey as [-> Hascii].
    apply bind_Ok in H as (u & Hdup%fail_if_Ok%bool_decide_eq_false & H).
    destruct (sequence !! _) as [t|] eqn:Ht; [|done].
    apply bind_Ok in H as ([content e2] & (rest' & Hd & -> & Hcl)%(tlv_Ok _ _ _ _ _ (code_bounds t)) & H).
    apply bind_Ok in H as (u' & Hend%fail_if_Ok%negb_false_iff%Nat.eqb_eq & H).
    assert (rest = enc_tlv (code t) content) as Hrest.
    { rewrite Hseq, drop_app_length in Hd. rewrite Hd in Hseq |- *.
      assert (length sequence = length (enc_tlv 12 (text key)) + (length (enc_tlv (code t) content) + length rest'))%nat
        as Hsum by (rewrite Hseq at 1; by rewrite !length_app).
      assert (rest' = []) as ->; [apply length_zero_iff_nil; lia|]. apply app_nil_r. }
    rewrite Hrest in Hseq. destruct (Z.eqb_spec (code t) 2) as [E2|_].
    + apply bind_Ok in H as (z & [-> Hz]%der_integer_Ok & H). apply Ok_inj in H as <-.
      rewrite E2 in Hseq. unfold entry_ok. cbn [fst snd enc_value]. by rewrite <-Hseq.
    + destruct (Z.eqb_spec (code t) 4) as [E4|_]; [|done]. apply Ok_inj in H as <-.
      rewrite E4 in Hseq. unfold entry_ok. cbn [fst snd enc_value]. by rewrite <-Hseq.
  - destruct e as [key v]. cbn [fst snd]. intros (Hseq & (Hascii & Hkl & Hv & _) & Hdup). cbn [fst snd] in *.
    rewrite (proj2 (tlv_start sequence 12 (text key) _ ltac:(done))) by (exists (enc_value v); done).
    cbn [mbind result_bind]. rewrite (proj2 (decode_ascii_Ok (text key) key)) by done.
    rewrite (bool_decide_eq_false_2 _ Hdup). cbn [fail_if mbind result_bind].
    assert (∃ tag content, enc_value v = enc_tlv tag content ∧ 0 ≤ tag < 256 ∧ Z.of_nat (length content) < 65536
      ∧ (tag = 2 ∧ (∃ z, v = DInt z ∧ content = enc_integer z) ∨ tag = 4 ∧ v = DBytes content))
      as (tag & content & Henc & Htag & Hcl & Hcase).
    { destruct v as [z|b]; simpl in *.
      - pose proof (length_enc_integer z (integer_ok_fits _ _ Hv)). exists 2, (enc_integer z).
        split_and!; try done; try lia. left. split; [done|]. by exists z.
      - exists 4, b. split_and!; try done. by right. }
    rewrite Henc in Hseq. assert (drop (length (enc_tlv 12 (text key))) sequence = enc_tlv tag content ++ []) as Hd.
    { by rewrite Hseq, drop_app_length, app_nil_r. }
    destruct (enc_tlv_cons tag content) as [tl Htl]. pose proof Hd as Hd0. rewrite Htl in Hd0.
    rewrite (lookup_drop_head _ _ _ _ Hd0), code_chr by done.
    rewrite (proj2 (tlv_Ok sequence _ tag content _ Htag)) by (exists []; done).
    cbn [mbind result_bind].
    replace (_ =? length sequence)%nat with true by (symmetry; apply Nat.eqb_eq; rewrite Hseq, length_app; done).
    cbn [negb fail_if mbind result_bind].
    destruct Hcase as [(-> & z & -> & ->)|(-> & ->)]; simpl.
    + by rewrite (proj2 (der_integer_Ok _ _ _ z)).
    + done.
Qed.

Lemma drop_past {A} (l xs ys : list A) o : drop o l = xs ++ ys → (o ≤ length l)%nat →
  drop (o + length xs) l = ys ∧ (o + length xs ≤ length l)%nat.
Proof.
  intros H Ho. split; [by rewrite <-drop_drop, H, drop_app_length|].
  apply (f_equal length) in H. rewrite length_drop, length_app in H. lia.
Qed.

Lemma enc_entry_content e : enc_entry e = enc_tlv 0x30 (enc_tlv 0x0C (text e.1) ++ enc_value e.2).
Proof. done. Qed.

Lemma keys_snoc {A} (values : list (string * A)) e :
  NoDup values.*1 → (e.1 ∉ values.*1) → NoDup (values ++ [e]).*1.
Proof.
  intros Hnd Hk. rewrite fmap_app. apply NoDup_app. split_and!; [done| |apply NoDup_singleton].
  intros k Hin Heq. apply list_elem_of_singleton in Heq as ->. done.
Qed.

Lemma decode_entries_sound fuel : ∀ root o values vs,
  (o ≤ length root)%nat → NoDup values.*1 → decode_entries fuel root o values = Ok vs →
  ∃ es, vs = values ++ es ∧ drop o root = concat (map enc_entry es) ∧ Forall entry_ok es ∧ NoDup vs.*1.
Proof.
  induction fuel as [|fuel IH]; intros root o values vs Ho Hnd; simpl;
    destruct (Nat.ltb_spec o (length root)) as [Hlt|Hge]; try done.
  1, 3: intros [= <-]; exists []; rewrite app_nil_r, drop_ge by lia; by split_and!.
  intros H. apply bind_Ok in H as ([sequence e2] & (rest & Hd & -> & Hl)%tlv_Ok & H); [|done].
  apply bind_Ok in H as (e & (-> & He & Hdup)%decode_entry_Ok & H); [|done].
  destruct (drop_past _ _ _ _ Hd Ho) as [Hd' Ho'].
  destruct (IH _ _ _ _ Ho' (keys_snoc _ _ Hnd Hdup) H) as (es & -> & Hes & Hall & Hnd').
  exists (e :: es). rewrite <-app_assoc in *. split_and!; try done; [|by constructor].
  rewrite Hd. simpl. by rewrite <-Hes, Hd'.
Qed.

Lemma enc_entry_length e : (1 ≤ length (enc_entry e))%nat.
Proof. apply enc_tlv_nonempty. Qed.

Lemma decode_entries_complete es : ∀ fuel root o values,
  (o ≤ length root)%nat → (length root - o ≤ fuel)%nat →
  drop o root = concat (map enc_entry es) → Forall entry_ok es → NoDup (values ++ es).*1 →
  decode_entries fuel root o values = Ok (values ++ es).
Proof.
  induction es as [|e es IH]; intros fuel root o values Ho Hfuel Hd Hall Hnd.
  - apply (f_equal length) in Hd. rewrite length_drop in Hd. simpl in Hd. rewrite app_nil_r.
    destruct fuel; simpl; by rewrite (proj2 (Nat.ltb_ge _ _)) by lia.
  - cbn [map concat] in Hd. destruct (drop_past _ _ _ _ Hd Ho) as [Hd' Ho']. pose proof (enc_entry_length e).
    destruct fuel as [|fuel]; [lia|]. simpl. rewrite (proj2 (Nat.ltb_lt _ _)) by lia.
    inversion Hall as [|? ? He Hes]; subst. pose proof He as (_ & _ & _ & Hl).
    rewrite (proj2 (tlv_Ok root o 48 _ _ ltac:(done)) (ex_intro _ _ (conj Hd (conj eq_refl Hl)))).
    cbn [mbind result_bind]. rewrite (proj2 (decode_entry_Ok _ values.*1 e Hl)).
    + cbn [mbind result_bind]. rewrite <-enc_entry_content.
      rewrite (IH fuel root) by (rewrite <-?app_assoc; done || lia).
      by rewrite <-app_assoc.
    + split_and!; try done. rewrite fmap_app in Hnd. apply NoDup_app in Hnd as (_ & Hn & _).
      intros Hin. apply (Hn _ Hin). rewrite fmap_cons. apply list_elem_of_here.
Qed.

(** ** Termination: the fuel is enough, and every failure is the module's own *)

Lemma der_length_raises data o : raises (λ c, c = kerr) (der_length data o).
Proof. unfold der_length. destruct (data !! o); [|by apply raises_raise]. raises_run; done. Qed.

Lemma tlv_raises data o tag : raises (λ c, c = kerr) (tlv data o tag).
Proof. unfold tlv. raises_run; try done. apply der_length_raises. Qed.

Lemma der_integer_raises bs signed field : raises (λ c, c = kerr) (der_integer bs signed field).
Proof.
  unfold der_integer. destruct bs as [|c0 bs]; [by apply raises_raise|].
  raises_run; try done. destruct bs; raises_run; done.
Qed.

Lemma decode_entry_raises sequence seen : raises (λ c, c = kerr) (decode_entry sequence seen).
Proof.
  unfold decode_entry. apply raises_bind; [apply tlv_raises|]. intros [kc o] _.
  destruct (decode_ascii kc); [|by apply raises_raise]. apply raises_bind; [by apply raises_fail_if|]. intros _ _.
  destruct (sequence !! o); [|by apply raises_raise]. apply raises_bind; [apply tlv_raises|]. intros [content e] _.
  raises_run; try done. apply der_integer_raises.
Qed.

Lemma decode_entries_raises fuel : ∀ root o values,
  (o ≤ length root)%nat → (length root - o ≤ fuel)%nat →
  raises (λ c, c = kerr) (decode_entries fuel root o values).
Proof.
  induction fuel as [|fuel IH]; intros root o values Ho Hfuel; simpl;
    destruct (Nat.ltb_spec o (length root)); try (apply raises_Ok); [lia|].
  apply raises_bind; [apply tlv_raises|]. intros [sequence e] (rest & Hd & -> & _)%tlv_Ok; [|done].
  apply raises_bind; [apply decode_entry_raises|]. intros entry _.
  destruct (drop_past _ _ _ _ Hd Ho) as [_ Ho']. apply IH; [done|].
  pose proof (enc_tlv_nonempty 48 sequence). lia.
Qed.

Lemma keybag_of_values_raises values : raises (λ c, c = kerr) (keybag_of_values values).
Proof.
  unfold keybag_of_values. do 3 (apply raises_bind; [by apply raises_fail_if|intros _ _]).
  destruct (find_value values "uuuid") as [[z|raw]|]; [by apply raises_raise| |by apply raises_raise].
  raises_run; done.
Qed.

(** The decoder is total: on every byte string it returns a state or
    raises [AKSStateError], so the entry loop always terminates (each entry
    consumes at least one byte). *)
Theorem decode_total data : raises (λ c, c = AKSStateError) (decode data).
Proof.
  unfold decode. apply raises_bind; [by apply raises_fail_if|]. intros _ _.
  apply raises_bind; [apply tlv_raises|]. intros [root e] _.
  apply raises_bind; [by apply raises_fail_if|]. intros _ _.
  apply raises_bind; [apply decode_entries_raises; lia|]. intros values _. apply keybag_of_values_raises.
Qed.

(** ** The document *)

(** The ten entries, by key. *)
Definition ten (v1 v2 v3 v4 v5 v6 v7 v8 v9 v10 : entry_value) : list (string * entry_value) :=
  zip EXPECTED [v1; v2; v3; v4; v5; v6; v7; v8; v9; v10].

Lemma find_ten v1 v2 v3 v4 v5 v6 v7 v8 v9 v10 : let l := ten v1 v2 v3 v4 v5 v6 v7 v8 v9 v10 in
  find_value l "bh" = Some v1
  ∧ find_value l "mua" = Some v2
  ∧ find_value l "sb" = Some v3
  ∧ find_value l "sfa" = Some v4
  ∧ find_value l "sgs" = Some v5
  ∧ find_value l "sls" = Some v6
  ∧ find_value l "sms" = Some v7
  ∧ find_value l "srcd" = Some v8
  ∧ find_value l "ss" = Some v9
  ∧ find_value l "uuuid" = Some v10.
Proof. vm_compute. by repeat split. Qed.

Lemma expected_ten (values : list (string * entry_value)) : values.*1 = EXPECTED →
  ∃ v1 v2 v3 v4 v5 v6 v7 v8 v9 v10, values = ten v1 v2 v3 v4 v5 v6 v7 v8 v9 v10.
Proof.
  intros H. do 10 (destruct values as [|[? ?] values]; [discriminate H|]).
  destruct values; [|discriminate H]. injection H as -> -> -> -> -> -> -> -> -> ->. by do 10 eexists.
Qed.

(** The final checks, on the ten entries. *)
Lemma keybag_of_ten v1 v2 v3 v4 v5 v6 v7 v8 v9 v10 k :
  keybag_of_values (ten v1 v2 v3 v4 v5 v6 v7 v8 v9 v10) = Ok k ↔
  ∃ z1 z2 z3 z4 z5 z6 z7 z8 z9 raw,
    [v1; v2; v3; v4; v5; v6; v7; v8; v9; v10]
      = [DInt z1; DInt z2; DInt z3; DInt z4; DInt z5; DInt z6; DInt z7; DInt z8; DInt z9; DBytes raw]
    ∧ length raw = 16%nat ∧ be_unpack raw ≠ 0
    ∧ Forall (λ z, z ≤ UINT32_MAX) [z2; z3; z4; z5; z7; z8; z9] ∧ z6 ≤ 0xFFFF
    ∧ k = Keybag z1 z2 z3 z4 z5 z6 z7 z8 z9 (uuid_str (be_unpack raw)).
Proof.
  destruct (find_ten v1 v2 v3 v4 v5 v6 v7 v8 v9 v10) as (F1 & F2 & F3 & F4 & F5 & F6 & F7 & F8 & F9 & F10).
  unfold keybag_of_values. assert ((ten v1 v2 v3 v4 v5 v6 v7 v8 v9 v10).*1 = EXPECTED) as -> by done.
  rewrite !bool_decide_eq_true_2 by done. cbn [negb fail_if mbind result_bind].
  change (filter (λ k, k ≠ "uuuid") EXPECTED) with ["bh"; "mua"; "sb"; "sfa"; "sgs"; "sls"; "sms"; "srcd"; "ss"].
  unfold find_int. cbn [forallb]. unfold is_int_field. rewrite F1, F2, F3, F4, F5, F6, F7, F8, F9, F10.
  split.
  - intros H. apply bind_Ok in H as (? & Hi%fail_if_Ok%negb_false_iff & H).
    destruct v10 as [|raw]; [done|].
    destruct v1 as [z1|], v2 as [z2|]; try done; destruct v3 as [z3|], v4 as [z4|]; try done;
      destruct v5 as [z5|], v6 as [z6|]; try done; destruct v7 as [z7|], v8 as [z8|], v9 as [z9|]; try done.
    clear Hi F1 F2 F3 F4 F5 F6 F7 F8 F9 F10. exists z1, z2, z3, z4, z5, z6, z7, z8, z9, raw.
    ok_inv. rewrite Z.ltb_ge, Z.eqb_neq, Nat.eqb_eq in *. split_and!; try done. by repeat constructor.
  - intros (z1 & z2 & z3 & z4 & z5 & z6 & z7 & z8 & z9 & raw & Heq & Hl & Hz & Hw & H6 & ->).
    injection Heq as -> -> -> -> -> -> -> -> -> ->.
    repeat match goal with H : Forall _ (_ :: _) |- _ => apply Forall_cons in H as [? H] end.
    rewrite Hl. apply Z.eqb_neq in Hz. rewrite Hz. simpl. rewrite !(proj2 (Z.ltb_ge _ _)) by done. done.
Qed.

Lemma keybag_of_values_Ok values k : Forall entry_ok values → keybag_of_values values = Ok k ↔
  ∃ f, fields_valid f ∧ values = entries_of f ∧ k = keybag_of_fields f.
Proof.
  intros Hall. split.
  - intros H. assert (values.*1 = EXPECTED) as Hk.
    { unfold keybag_of_values in H. apply bind_Ok in H as (? & _ & H).
      apply bind_Ok in H as (? & Hk%fail_if_Ok & _). by apply negb_false_iff, bool_decide_eq_true in Hk. }
    apply expected_ten in Hk as (v1 & v2 & v3 & v4 & v5 & v6 & v7 & v8 & v9 & v10 & ->).
    apply keybag_of_ten in H as (z1 & z2 & z3 & z4 & z5 & z6 & z7 & z8 & z9 & raw & Heq & Hl & Hz & Hw & H6 & ->).
    injection Heq as -> -> -> -> -> -> -> -> -> ->.
    exists (Fields z1 z2 z3 z4 z5 z6 z7 z8 z9 (be_unpack raw)). unfold ten in Hall. simpl in Hall.
    repeat match goal with H : Forall _ (_ :: _) |- _ => apply Forall_cons in H as [? H] end.
    unfold entry_ok in *. cbn [fst snd] in *. simpl in *.
    pose proof (be_unpack_bounds raw) as Hr. rewrite Hl in Hr. split_and!.
    + split; simpl; [naive_solver| |naive_solver|lia].
      repeat (constructor; [naive_solver lia|]). constructor.
    + unfold entries_of. simpl. rewrite <-Hl, be_pack_unpack. done.
    + done.
  - intros (f & [H1 H2 H3 H4] & -> & ->).
    apply (keybag_of_ten (DInt _) (DInt _) (DInt _) (DInt _) (DInt _) (DInt _) (DInt _) (DInt _) (DInt _) (DBytes _)).
    do 10 eexists. split; [done|]. rewrite length_be_pack, be_unpack_pack by lia.
    split_and!; try done; try lia.
    repeat match goal with H : Forall _ (_ :: _) |- _ => apply Forall_cons in H as [? H] end.
    repeat (constructor; [lia|]). constructor.
Qed.

Lemma length_enc_tlv tag c : (length (enc_tlv tag c) ≤ 4 + length c)%nat.
Proof.
  unfold enc_tlv, enc_length. simpl. rewrite length_app. repeat case_match; simpl; lia.
Qed.

Lemma entries_of_ok f : fields_valid f →
  Forall (λ e, entry_ok e ∧ (length (enc_entry e) ≤ 40)%nat) (entries_of f).
Proof.
  intros [H1 H2 H3 H4].
  assert (∀ key v, forallb (λ c, code c <? 0x80) (text key) = true → (length (text key) ≤ 5)%nat →
    (match v with DInt z => integer_ok (String.eqb key "bh") z | DBytes b => length b = 16%nat end) →
    entry_ok (key, v) ∧ (length (enc_entry (key, v)) ≤ 40)%nat) as Hkey.
  { intros key v Hascii Hl Hv.
    assert (length (enc_value v) ≤ 20)%nat as Hlv.
    { destruct v as [z|b]; simpl enc_value; etrans; try apply length_enc_tlv; [|rewrite Hv; lia].
      pose proof (length_enc_integer z (integer_ok_fits _ _ Hv)). lia. }
    pose proof (length_enc_tlv 12 (text key)).
    pose proof (length_enc_tlv 48 (enc_tlv 12 (text key) ++ enc_value v)) as Hs. rewrite length_app in Hs.
    unfold entry_ok, enc_entry. cbn [fst snd]. rewrite length_app. split_and!; try done; try lia.
    destruct v; [done|]. lia. }
  repeat match goal with H : Forall _ (_ :: _) |- _ => apply Forall_cons in H as [? H] end.
  unfold integer_ok in Hkey.
  assert (UINT32_MAX ≤ UINT64_MAX) by done. assert (0xFFFF ≤ UINT64_MAX) by done.
  repeat (constructor; [apply Hkey; [reflexivity|simpl; lia|first [done|by rewrite length_be_pack|simpl; lia]]|]). constructor.
Qed.

(** C29: The decoder accepts exactly the canonical encodings of the valid
    states - the ten entries in Apple's key order, every length and integer in
    its shortest form, every value in its range, nothing before, between or
    after them - and reads each back unchanged. *)
Theorem decode_exact data k :
  decode data = Ok k ↔ ∃ f, fields_valid f ∧ data = encode f ∧ k = keybag_of_fields f.
Proof.
  unfold decode. split.
  - intros H. apply bind_Ok in H as (? & _ & H).
    apply bind_Ok in H as ([root e] & (rest & Hd & -> & Hl)%tlv_start & H); [|done].
    apply bind_Ok in H as (? & He%fail_if_Ok%negb_false_iff%Nat.eqb_eq & H).
    apply bind_Ok in H as (values & Hv & H).
    apply decode_entries_sound in Hv as (es & -> & Hroot & Hall & _); [|lia|constructor].
    apply (keybag_of_values_Ok _ _ Hall) in H as (f & Hf & Hes & ->). exists f. split_and!; try done.
    simpl in Hes. unfold encode. rewrite <-Hes, <-Hroot, drop_0, Hd.
    assert (rest = []) as ->; [|by rewrite app_nil_r].
    apply length_zero_iff_nil. rewrite Hd, length_app in He. lia.
  - intros (f & Hf & -> & ->). pose proof (entries_of_ok f Hf) as Hok.
    assert (Forall entry_ok (entries_of f)) as Hall by (eapply Forall_impl; [done|naive_solver]).
    unfold encode. set (root := concat (map enc_entry (entries_of f))).
    assert (length root ≤ 400)%nat as Hroot.
    { unfold root. unfold entries_of in *. cbn [map concat].
      repeat match goal with H : Forall _ (_ :: _) |- _ => apply Forall_cons in H as [[_ ?] H] end.
      rewrite !length_app. simpl length at 11. lia. }
    pose proof (length_enc_tlv 49 root) as Hl.
    pose proof (enc_tlv_nonempty 49 root).
    assert (negb ((0 <? Z.of_nat (length (enc_tlv 49 root)))
      && (Z.of_nat (length (enc_tlv 49 root)) <=? MAX_DER_BYTES)) = false) as ->.
    { unfold MAX_DER_BYTES. lia. }
    cbn [fail_if mbind result_bind].
    rewrite (proj2 (tlv_start (enc_tlv 49 root) 49 root _ ltac:(done)))
      by (exists []; rewrite app_nil_r; split_and!; done || lia).
    cbn [mbind result_bind]. rewrite Nat.eqb_refl. cbn [negb fail_if mbind result_bind].
    rewrite (decode_entries_complete (entries_of f)).
    + cbn [mbind result_bind app]. apply keybag_of_values_Ok; [done|]. by exists f.
    + lia.
    + lia.
    + done.
    + done.
    + cbn. apply (bool_decide_unpack _). vm_compute. exact I.
Qed.
