(* ===== verification/BridgeWire.v ===== *)
(** * Bridge wire ([src/src/t2_bridge_wire.py])

    The framing of the connection to the coprocessor and its request/reply
    exchange with interleaved callbacks.

    A socket is what the peer has delivered so far and what was sent.  Each
    element of the first list is one segment ([None]: [recv] raises); a [recv]
    returns at most the requested number of bytes of the first segment, an empty
    segment is the end of the stream, and where no segment is left [recv] waits:
    the call has not returned yet, which the model reports as [Blocked].  A peer
    may so be silent at any point, and it may send callbacks for as long as it
    likes: a longer list is a later moment of the same connection.  [sendall] is
    taken to succeed.  The binary property lists are those of [plistlib], a
    parameter. *)
From S2P Require Import Prelude PyValue Json JsonFacts Effect Bytes.

#[local] Open Scope Z_scope.

Definition MAGIC : Z := 0xB892.
Definition PROTOCOL_VERSION : Z := 1.
Definition TYPE_HELO : Z := 1.
Definition TYPE_MESSAGE : Z := 2.
Definition HEADER : format := [H_; H_; I_; Q_].
Definition BIOMETRIC_COMMAND_HEADER : format := [H_; H_; H_; H_].
Definition BIOMETRIC_COMMAND_MAGIC : Z := 0x4D42.
Definition MAX_FRAME_BODY : Z := 16 * 1024 * 1024.
Definition BIOMETRIC_NIL_OUTPUT_SENTINEL : string := "d4161201-daf5-4bbd-ae4f-9bf319fabbe0".

Definition is_biometric_nil_output (v : value) : bool := eq_str v BIOMETRIC_NIL_OUTPUT_SENTINEL.

Record sock := Sock { sk_in : list (option bytes); sk_out : bytes }.

(** [sock.recv(n)] with [0 < n] *)
Definition recv (n : nat) : act sock bytes := λ s,
  match sk_in s with
  | [] => (raise Blocked "", s)
  | None :: rest => (raise OSError "", Sock rest (sk_out s))
  | Some [] :: _ => (Ok [], s)
  | Some segment :: rest =>
      if (length segment <=? n)%nat then (Ok segment, Sock rest (sk_out s))
      else (Ok (take n segment), Sock (Some (drop n segment) :: rest) (sk_out s))
  end.

Definition sendall (data : bytes) : act sock unit := assign (λ s, Sock (sk_in s) (sk_out s ++ data)).

(** The loop of [receive_exact]; every turn receives a byte, so [fuel = length]
    turns are enough. *)
Fixpoint receive_loop (fuel : nat) (len : nat) (chunks : bytes) : act sock bytes :=
  if (length chunks <? len)%nat then
    match fuel with
    | O => throw AssertionError "out of fuel"
    | S fuel =>
        chunk ← recv (len - length chunks);
        match chunk with
        | [] => throw EOFError ("peer closed after " +:+ dec (Z.of_nat (length chunks)) ""
                                +:+ "/" +:+ dec (Z.of_nat len) "" +:+ " bytes")
        | _ => receive_loop fuel len (chunks ++ chunk)
        end
    end
  else mret chunks.
Definition receive_exact (len : nat) : act sock bytes := receive_loop len len [].

Definition receive_frame : act sock (Z * bytes) :=
  raw_header ← receive_exact (calcsize HEADER);
  '(magic, (version, (frame_type, (body_length, _)))) ← pure (unpack HEADER raw_header);
  _ ← throw_if (negb (magic =? MAGIC)) ValueError ("invalid BridgeXPC magic 0x" +:+ hex_fixed 4 magic "");
  _ ← throw_if (negb (version =? PROTOCOL_VERSION)) ValueError
        ("unsupported BridgeXPC protocol version " +:+ dec version "");
  _ ← throw_if (MAX_FRAME_BODY <? body_length) ValueError
        ("refusing implausible " +:+ dec body_length "" +:+ "-byte frame");
  body ← receive_exact (Z.to_nat body_length);
  mret (frame_type, body).

(** [sock.sendall(HEADER.pack(...) + body)] *)
Definition send_frame (frame_type : Z) (body : bytes) : act sock unit :=
  header ← pure (pack HEADER (MAGIC, (PROTOCOL_VERSION, (frame_type, (Z.of_nat (length body), tt)))));
  sendall (header ++ body).

(** [json.dumps] of the greeting, in the order it is written. *)
Definition helo_body (bridge_xpc_version : Z) : bytes :=
  text (String "{" (join "," (map member_text
    [("MaxSupportedProtocolVersion", dec PROTOCOL_VERSION "");
     ("OSBuild", quoted "Linux" "");
     ("BridgeXPCVersion", dec bridge_xpc_version "");
     ("ProcessName", quoted "t2-touchid-probe" "")]) +:+ "}")).

Definition send_helo (bridge_xpc_version : Z) : act sock unit :=
  send_frame TYPE_HELO (helo_body bridge_xpc_version).

Section plist.
(** [plistlib.dumps(value, fmt=FMT_BINARY, sort_keys=False)] and
    [plistlib.loads]. *)
Context (plist_dumps : value → result bytes) (plist_loads : bytes → result value).

Definition send_message (v : value) : act sock unit :=
  body ← pure (plist_dumps v); send_frame TYPE_MESSAGE body.

(** [json.loads(body)]: a [ValueError] when the body is not JSON. *)
Definition json_loads (body : bytes) : result value :=
  match loads (String.string_of_list_ascii body) with
  | Some v => Ok v
  | None => raise ValueError "invalid JSON"
  end.

Definition describe (frame_type : Z) (body : bytes) : result value :=
  if frame_type =? TYPE_HELO then json_loads body
  else if frame_type =? TYPE_MESSAGE then plist_loads body
  else Ok (dict [("unknown_frame_type", VInt frame_type);
                 ("body_hex", VStr (foldr (λ c s, hex_fixed 2 (code c) s) "" body))]).

Definition receive_envelope : act sock (list value) :=
  '(frame_type, frame_body) ← receive_frame;
  envelope ← pure (describe frame_type frame_body);
  _ ← throw_if (negb (frame_type =? TYPE_MESSAGE)) ValueError
        ("expected message frame, received type " +:+ dec frame_type "");
  _ ← throw_if (negb (is_list envelope) || negb (length (list_value envelope) =? 4)%nat) ValueError
        "malformed BiometricKit bridge envelope";
  mret (list_value envelope).

Definition item (envelope : list value) (i : nat) : value := default VNone (envelope !! i).

(** The loop of [request_with_events], which the source does not bound.  Every
    turn receives a header of 16 bytes or waits for it, so as many turns as
    there are bytes delivered are enough: [request_never_out_of_turns]. *)
Fixpoint request_loop (fuel : nat) (reply_id : string) (events : list value)
    : act sock (value * list value) :=
  match fuel with
  | O => throw AssertionError "out of fuel"
  | S fuel =>
      envelope ← receive_envelope;
      _ ← throw_if (item envelope 0 !=? VInt 1) ValueError "unsupported BiometricKit envelope version";
      if is_true (item envelope 1) then
        _ ← throw_if (item envelope 2 !=? VStr reply_id) ValueError "reply envelope does not match request";
        mret (item envelope 3, events)
      else
      _ ← throw_if (negb (bool_decide (item envelope 1 = VBool false)) || negb (is_str (item envelope 2)))
            ValueError "malformed BiometricKit service callback";
      _ ← send_message (VList [VInt 1; VBool true; item envelope 2; VList [VInt 0]]);
      request_loop fuel reply_id (events ++ [item envelope 3])
  end.

Definition available (s : sock) : nat :=
  foldr (λ o n, (match o with Some seg => length seg | None => 0 end + n)%nat) 0%nat (sk_in s).

(** [reply_id] is [str(uuid.uuid4()).upper()]. *)
Definition request_with_events (reply_id : string) (payload : value) : act sock (value * list value) :=
  _ ← send_message (VList [VInt 1; VBool false; VStr reply_id; payload]);
  s ← self;
  request_loop (S (available s)) reply_id [].

Definition request (reply_id : string) (payload : value) : act sock value :=
  '(reply, _) ← request_with_events reply_id payload; mret reply.

Definition biometric_command (reply_id : string) (command version v : Z) (data : bytes) (output_capacity : Z)
    : act sock (value * list value) :=
  header ← pure (pack BIOMETRIC_COMMAND_HEADER (BIOMETRIC_COMMAND_MAGIC, (command, (version, (v, tt)))));
  request_with_events reply_id
    (VList [VInt 3; VInt 0; VBytes (String.string_of_list_ascii (header ++ data)); VInt output_capacity]).
End plist.

(** ** The bytes to come *)

(** What the segments deliver before the end of the stream or an error. *)
Fixpoint stream (l : list (option bytes)) : bytes :=
  match l with
  | Some (c :: seg) :: rest => (c :: seg) ++ stream rest
  | _ => []
  end.

(** A frame on the wire. *)
Definition frame (frame_type : Z) (body : bytes) : bytes :=
  packed HEADER (MAGIC, (PROTOCOL_VERSION, (frame_type, (Z.of_nat (length body), tt)))) ++ body.

Definition frame_valid (frame_type : Z) (body : bytes) : Prop :=
  0 ≤ frame_type < 2 ^ 32 ∧ Z.of_nat (length body) ≤ MAX_FRAME_BODY.

(** [n] bytes were taken from [s], and nothing was sent. *)
Definition consumed (s : sock) (bs : bytes) (s' : sock) : Prop :=
  stream (sk_in s) = bs ++ stream (sk_in s') ∧ sk_out s' = sk_out s
  ∧ available s = (length bs + available s')%nat.

Lemma consumed_trans s bs s' cs s'' :
  consumed s bs s' → consumed s' cs s'' → consumed s (bs ++ cs) s''.
Proof.
  intros (H1 & H2 & H3) (G1 & G2 & G3). unfold consumed.
  rewrite H1, G1, app_assoc, length_app. split_and!; [done|congruence|lia].
Qed.

Lemma recv_wp n s : (0 < n)%nat →
  wp (recv n)
    (λ bs s', consumed s bs s' ∧ (length bs ≤ n)%nat ∧ (bs = [] → stream (sk_in s) = []))
    (λ e s', (exn_cls e = OSError ∨ exn_cls e = Blocked) ∧ stream (sk_in s) = []) s.
Proof.
  intros Hn. destruct s as [[|[[|c seg]|] rest] out]; unfold wp, recv; cbn [sk_in sk_out];
    [| |destruct (Nat.leb_spec (length (c :: seg)) n) as [Hl|Hl]|].
  - split; [by right|done].
  - split_and!; try done; simpl; lia.
  - by split_and!.
  - unfold consumed. simpl in *. destruct n as [|n]; [lia|]. simpl.
      destruct (drop n seg) as [|d more] eqn:Hd.
      { apply (f_equal length) in Hd. rewrite length_drop in Hd. simpl in Hd. lia. }
      assert (length (d :: more) = length seg - n)%nat as Hlen by (by rewrite <-Hd, length_drop).
      split_and!; try done.
      * rewrite <-(take_drop n seg) at 1. rewrite Hd. simpl. by rewrite <-app_assoc.
      * unfold available. simpl in *. rewrite length_take. lia.
      * rewrite length_take. lia.
  - split; [by left|done].
Qed.

(** [receive_exact] reads its length from the stream, however the bytes are
    cut into segments, and fails only when fewer are to come. *)
Lemma receive_loop_wp fuel : ∀ len chunks s, (len ≤ length chunks + fuel)%nat →
  wp (receive_loop fuel len chunks)
    (λ bs s', ∃ new, bs = chunks ++ new ∧ length new = (len - length chunks)%nat ∧ consumed s new s')
    (λ e s', exn_cls e ∈ [EOFError; OSError; Blocked]
       ∧ (length (stream (sk_in s)) < len - length chunks)%nat) s.
Proof.
  induction fuel as [|fuel IH]; intros len chunks s Hf; simpl;
    destruct (Nat.ltb_spec (length chunks) len) as [Hlt|Hge]; try lia.
  1, 3: apply wp_ret; exists []; rewrite app_nil_r; split_and!; [done|simpl; lia|by split_and!].
  apply wp_bind. eapply wp_weaken; [apply (recv_wp (len - length chunks)); lia| |]; simpl.
  - intros bs s1 (Hc & Hl & Hn). destruct bs as [|b bs].
    + apply wp_throw. split; [by apply (bool_decide_unpack _)|]. rewrite Hn by done. simpl. lia.
    + eapply wp_weaken; [apply IH; rewrite length_app; simpl; lia| |]; simpl.
      * intros out s2 (new & -> & Hlen & Hc2). exists ((b :: bs) ++ new).
        rewrite length_app in Hlen. rewrite app_assoc, length_app. split_and!; [done|simpl in *; lia|].
        by eapply consumed_trans.
      * intros e s2 (He & Hshort). split; [done|]. destruct Hc as (-> & _). rewrite length_app in *. simpl in *. lia.
  - intros e s1 [He Hs]. split; [destruct He as [-> | ->]; by apply (bool_decide_unpack _)|]. rewrite Hs. simpl. lia.
Qed.

Lemma receive_exact_wp len s :
  wp (receive_exact len)
    (λ bs s', length bs = len ∧ consumed s bs s')
    (λ e s', exn_cls e ∈ [EOFError; OSError; Blocked] ∧ (length (stream (sk_in s)) < len)%nat) s.
Proof.
  unfold receive_exact. eapply wp_weaken; [apply receive_loop_wp; simpl; lia| |]; simpl.
  - intros bs s' (new & -> & Hl & Hc). simpl in *. split; [lia|done].
  - intros e s' [He Hs]. split; [done|lia].
Qed.

(** ** Frames *)

Lemma header_exact frame_type body : frame_valid frame_type body →
  exact_tuple HEADER (MAGIC, (PROTOCOL_VERSION, (frame_type, (Z.of_nat (length body), tt)))).
Proof.
  unfold frame_valid, MAX_FRAME_BODY. intros [H1 H2]. simpl. unfold width.
  change (256 ^ Z.of_nat 2) with 65536. change (256 ^ Z.of_nat 4) with (2 ^ 32).
  change (256 ^ Z.of_nat 8) with (2 ^ 64). unfold MAGIC, PROTOCOL_VERSION. repeat split; lia.
Qed.

Lemma send_frame_eq frame_type body s : frame_valid frame_type body →
  send_frame frame_type body s = (Ok tt, Sock (sk_in s) (sk_out s ++ frame frame_type body)).
Proof.
  intros Hv. unfold send_frame, pure, mbind, act_bind.
  by rewrite (pack_packed _ _ (header_exact _ _ Hv)).
Qed.

(** What the header of a frame at the start of the stream says. *)
Lemma frame_header t b rest raw more : frame_valid t b → length raw = 16%nat →
  frame t b ++ rest = raw ++ more →
  fields HEADER raw = (MAGIC, (PROTOCOL_VERSION, (t, (Z.of_nat (length b), tt)))) ∧ more = b ++ rest.
Proof.
  intros Hv Hl H. pose proof (header_exact _ _ Hv) as Hx. unfold frame in H. rewrite <-app_assoc in H.
  apply app_inj_1 in H as [Hraw Hmore]; [|by rewrite length_packed].
  split; [|done]. rewrite <-Hraw, <-(app_nil_r (packed _ _)). by apply fields_packed.
Qed.

(** The frame a socket starts with. *)
Lemma receive_frame_wp s :
  wp receive_frame
    (λ r s', frame_valid r.1 r.2 ∧ consumed s (frame r.1 r.2) s')
    (λ e s', exn_cls e ∈ [EOFError; OSError; Blocked; ValueError]
       ∧ ∀ t b rest, frame_valid t b → stream (sk_in s) ≠ frame t b ++ rest) s.
Proof.
  unfold receive_frame. apply wp_bind. eapply wp_weaken; [apply receive_exact_wp| |]; simpl.
  2: { intros e s1 [He Hs]. split; [set_solver|]. intros t b rest Hv Heq.
       rewrite Heq in Hs. unfold frame in Hs. rewrite !length_app, length_packed in Hs by by apply header_exact.
       simpl in Hs. lia. }
  intros raw s1 [Hl Hc]. apply wp_bind, wp_pure; [|intros e He; exfalso].
  2: { unfold unpack in He. apply Nat.eqb_eq in Hl. change 16%nat with (calcsize HEADER) in Hl. by rewrite Hl in He. }
  intros h (_ & ->)%(unpack_Ok HEADER).
  destruct (fields HEADER raw) as (magic & version & t & blen & []) eqn:Hfields.
  assert (∀ t' b' rest, frame_valid t' b' → stream (sk_in s) = frame t' b' ++ rest →
    magic = MAGIC ∧ version = PROTOCOL_VERSION ∧ t = t' ∧ blen = Z.of_nat (length b')
    ∧ stream (sk_in s1) = b' ++ rest) as Hstart.
  { intros t' b' rest Hv Heq. destruct Hc as (Hs & _ & _). rewrite Heq in Hs.
    destruct (frame_header _ _ _ _ _ Hv Hl Hs) as [Hh ->]. rewrite Hfields in Hh. by simplify_eq. }
  apply wp_bind, wp_throw_if; intros Hm.
  { split; [set_solver|]. intros t' b' rest Hv Heq. destruct (Hstart _ _ _ Hv Heq) as (-> & _). done. }
  apply wp_bind, wp_throw_if; intros Hver.
  { split; [set_solver|]. intros t' b' rest Hv Heq. destruct (Hstart _ _ _ Hv Heq) as (_ & -> & _). done. }
  apply wp_bind, wp_throw_if; intros Hmax.
  { split; [set_solver|]. intros t' b' rest Hv Heq. destruct (Hstart _ _ _ Hv Heq) as (_ & _ & _ & -> & _).
    destruct Hv as [_ Hv]. lia. }
  apply negb_false_iff, Z.eqb_eq in Hm, Hver. apply Z.ltb_ge in Hmax.
  pose proof (fields_exact HEADER raw) as Hx. rewrite Hfields in Hx. specialize (Hx ltac:(by rewrite Hl)).
  simpl in Hx. unfold width in Hx. change (256 ^ Z.of_nat 4) with (2 ^ 32) in Hx.
  apply wp_bind. eapply wp_weaken; [apply receive_exact_wp| |]; simpl.
  - intros body s2 [Hbl Hc2]. split; [split; [tauto|simpl; lia]|].
    unfold frame. simpl. assert (Z.of_nat (length body) = blen) as -> by lia.
    assert (packed HEADER (MAGIC, (PROTOCOL_VERSION, (t, (blen, tt)))) = raw) as ->.
    { transitivity (packed HEADER (fields HEADER raw)); [by rewrite Hfields, <-Hm, <-Hver|].
      rewrite packed_fields by (done || by rewrite Hl). by rewrite firstn_all2 by (by rewrite Hl). }
    by eapply consumed_trans.
  - intros e s2 [He Hs]. split; [set_solver|].
    intros t' b' rest Hv Heq. destruct (Hstart _ _ _ Hv Heq) as (_ & _ & _ & -> & Hrest).
    rewrite Hrest, length_app in Hs. lia.
Qed.

(** Frames are self-delimiting. *)
Lemma frame_app_inj t b t' b' rest rest' : frame_valid t b → frame_valid t' b' →
  frame t b ++ rest = frame t' b' ++ rest' → t = t' ∧ b = b' ∧ rest = rest'.
Proof.
  intros Hv Hv' H. unfold frame in H at 2. rewrite <-app_assoc in H.
  pose proof (header_exact _ _ Hv') as Hx.
  apply frame_header in H as [Hh Hb]; [|done|by rewrite length_packed].
  rewrite <-(app_nil_r (packed _ _)), fields_packed in Hh by done. injection Hh as -> Hl.
  apply app_inj_1 in Hb as [-> ->]; [done|lia].
Qed.

(** A frame is read exactly, however its bytes are cut into segments: from
    a socket [receive_frame] returns a type and a body, leaving the rest to
    come, if and only if the bytes to come start with the header and body of
    that frame, with a body of at most 16 MiB. *)
Theorem receive_frame_exact s t b rest :
  (∃ s', receive_frame s = (Ok (t, b), s') ∧ stream (sk_in s') = rest ∧ sk_out s' = sk_out s)
  ↔ frame_valid t b ∧ stream (sk_in s) = frame t b ++ rest.
Proof.
  pose proof (receive_frame_wp s) as Hwp. unfold wp in Hwp. split.
  - intros (s' & Hr & <- & _). rewrite Hr in Hwp. destruct Hwp as [Hv (Hs & _)]. done.
  - intros [Hv Hs]. destruct (receive_frame s) as [[[t' b']|e] s'].
    + destruct Hwp as [Hv' (Hs' & Hout & _)]. simpl in *. rewrite Hs in Hs'.
      destruct (frame_app_inj _ _ _ _ _ _ Hv Hv' Hs') as (-> & -> & ->). by exists s'.
    + destruct Hwp as [_ Hn]. by apply Hn in Hs.
Qed.

(** ** The exchange *)

Section exchange.
Context (plist_dumps : value → result bytes) (plist_loads : bytes → result value).

(** A callback of the coprocessor during a request: its body, what the body
    decodes to, and the acknowledgement it is answered with. *)
Record callback := Callback { cb_body : bytes; cb_id : string; cb_event : value; cb_ack : bytes }.

(** A frame that can be sent: its length fits the header. *)
Definition sendable (body : bytes) : Prop := Z.of_nat (length body) < 2 ^ 64.

(** The body of an envelope: four items under a version equal to 1. *)
Definition envelope_body (body : bytes) (kind id content : value) : Prop :=
  frame_valid TYPE_MESSAGE body
  ∧ ∃ version, plist_loads body = Ok (VList [version; kind; id; content]) ∧ version ==? VInt 1 = true.

Definition callback_ok (c : callback) : Prop :=
  envelope_body (cb_body c) (VBool false) (VStr (cb_id c)) (cb_event c)
  ∧ plist_dumps (VList [VInt 1; VBool true; VStr (cb_id c); VList [VInt 0]]) = Ok (cb_ack c) ∧ sendable (cb_ack c).

Definition callback_frames (cbs : list callback) : bytes := concat (map (λ c, frame TYPE_MESSAGE (cb_body c)) cbs).
Definition ack_frames (cbs : list callback) : bytes := concat (map (λ c, frame TYPE_MESSAGE (cb_ack c)) cbs).

Lemma message_header body :
  exact_tuple HEADER (MAGIC, (PROTOCOL_VERSION, (TYPE_MESSAGE, (Z.of_nat (length body), tt)))) ↔ sendable body.
Proof.
  simpl. unfold width, sendable, MAGIC, PROTOCOL_VERSION, TYPE_MESSAGE. change (256 ^ Z.of_nat 2) with 65536.
  change (256 ^ Z.of_nat 4) with (2 ^ 32). change (256 ^ Z.of_nat 8) with (2 ^ 64). change (2 ^ 32) with 4294967296.
  split; [tauto|]. intros H. repeat split; lia.
Qed.

Lemma pack_uint w f (v : tuple (FUint w :: f)) bs : pack (FUint w :: f) v = Ok bs →
  0 ≤ v.1 < width w ∧ ∃ cs, pack f v.2 = Ok cs.
Proof. cbn. intros (? & Hb%fail_if_Ok & H)%bind_Ok. destruct (pack f v.2) as [cs|]; [|done]. split; [lia|by exists cs]. Qed.

Lemma message_pack body bs :
  pack HEADER (MAGIC, (PROTOCOL_VERSION, (TYPE_MESSAGE, (Z.of_nat (length body), tt)))) = Ok bs → sendable body.
Proof.
  intros (_ & cs1 & (_ & cs2 & (_ & cs3 & (H & _)%pack_uint)%pack_uint)%pack_uint)%pack_uint.
  cbn [fst snd] in H. unfold sendable. unfold width in H. change (256 ^ Z.of_nat 8) with (2 ^ 64) in H. lia.
Qed.

(** A message is sent exactly when it can be encoded and its length fits. *)
Lemma send_message_exact v s u s' : send_message plist_dumps v s = (Ok u, s') ↔
  ∃ body, plist_dumps v = Ok body ∧ sendable body ∧ s' = Sock (sk_in s) (sk_out s ++ frame TYPE_MESSAGE body).
Proof.
  unfold send_message, send_frame. split.
  - intros (body & s1 & [= Hd <-] & (hd & s2 & [= Hp <-] & Hs)%act_bind_Ok)%act_bind_Ok. exists body. split; [exact Hd|].
    pose proof (message_pack _ _ Hp) as Hlen. split; [exact Hlen|].
    pose proof (eq_trans (eq_sym Hp) (pack_packed _ _ (proj2 (message_header _) Hlen))) as Hhd. apply Ok_inj in Hhd as ->.
    by injection Hs as _ <-.
  - intros (body & Hd & Hlen & ->). rewrite (run_pure_bind _ _ _ _ Hd).
    rewrite (run_pure_bind _ _ _ _ (pack_packed _ _ (proj2 (message_header _) Hlen))). by destruct u.
Qed.

(** The envelope a socket starts with. *)
Lemma receive_envelope_exact s envelope rest out :
  (∃ s', receive_envelope plist_loads s = (Ok envelope, s') ∧ stream (sk_in s') = rest ∧ sk_out s' = out)
  ↔ out = sk_out s ∧ ∃ body, frame_valid TYPE_MESSAGE body ∧ stream (sk_in s) = frame TYPE_MESSAGE body ++ rest
      ∧ plist_loads body = Ok (VList envelope) ∧ length envelope = 4%nat.
Proof.
  unfold receive_envelope. split.
  - intros (s' & ([t b] & s1 & Hf & (v & s2 & [= Hd <-] & H)%act_bind_Ok)%act_bind_Ok & Hrest & Hout).
    apply act_bind_Ok in H as (? & ? & [Ht%negb_false_iff%Z.eqb_eq ->]%throw_if_Ok & H). subst t.
    apply act_bind_Ok in H as (? & ? & [[Hv Hl]%orb_false_iff ->]%throw_if_Ok & [= <- <-]).
    apply negb_false_iff in Hv, Hl. apply Nat.eqb_eq in Hl. destruct v as [| | | | |l|]; try done.
    destruct (proj1 (receive_frame_exact s TYPE_MESSAGE b (stream (sk_in s1)))) as [Hval Hs].
    { exists s1. split; [exact Hf|]. split; [done|]. pose proof (receive_frame_wp s) as Hwp. unfold wp in Hwp. rewrite Hf in Hwp. apply Hwp. }
    pose proof (receive_frame_wp s) as Hwp. unfold wp in Hwp. rewrite Hf in Hwp. destruct Hwp as (_ & _ & Hsent & _).
    split; [congruence|]. exists b. split; [exact Hval|]. split; [by rewrite Hs, Hrest|]. by split.
  - intros (-> & body & Hv & Hs & Hl & Hlen).
    destruct (proj2 (receive_frame_exact s TYPE_MESSAGE body rest) (conj Hv Hs)) as (s' & Hr & ? & ?).
    exists s'. split; [|done]. rewrite (run_bind _ _ _ _ _ Hr).
    rewrite (run_pure_bind _ _ _ (VList envelope)) by done. rewrite run_throw_if_bind by done.
    rewrite run_throw_if_bind; [done|]. simpl. by rewrite Hlen.
Qed.

Lemma is_true_item a b c d : is_true (item [a; VBool b; c; d] 1) = b.
Proof. by destruct b. Qed.

(** What the rest of an exchange looks like from both sides. *)
Definition exchanged (reply_id : string) (reply : value) (cbs : list callback) (rest : bytes) (s : sock) (out : bytes) : Prop :=
  Forall callback_ok cbs
  ∧ (∃ body, envelope_body body (VBool true) (VStr reply_id) reply
       ∧ stream (sk_in s) = callback_frames cbs ++ frame TYPE_MESSAGE body ++ rest)
  ∧ out = sk_out s ++ ack_frames cbs.

Lemma request_loop_sound fuel : ∀ reply_id events events' reply s s',
  request_loop plist_dumps plist_loads fuel reply_id events s = (Ok (reply, events'), s') →
  ∃ cbs, events' = events ++ map cb_event cbs ∧ exchanged reply_id reply cbs (stream (sk_in s')) s (sk_out s').
Proof.
  induction fuel as [|fuel IH]; intros reply_id events events' reply s s'; [done|]. cbn [request_loop].
  intros (envelope & s1 & Hr & H)%act_bind_Ok.
  destruct (proj1 (receive_envelope_exact s envelope (stream (sk_in s1)) (sk_out s1))) as (Hsent & body & Hv & Hs & Hl & Hlen);
    [by exists s1|].
  destruct envelope as [|version [|kind [|id [|content [|]]]]]; try discriminate Hlen.
  apply act_bind_Ok in H as (? & ? & [Hver%negb_false_iff ->]%throw_if_Ok & H).
  change (item [version; kind; id; content] 0) with version in *. change (item [version; kind; id; content] 1) with kind in *.
  change (item [version; kind; id; content] 2) with id in *. change (item [version; kind; id; content] 3) with content in *.
  destruct (is_true kind) eqn:Hkind.
  - apply act_bind_Ok in H as (? & ? & [Hid%negb_false_iff ->]%throw_if_Ok & [= -> -> ->]).
    apply py_eq_str_l in Hid as ->. apply is_true_eq in Hkind as ->.
    exists []. rewrite !app_nil_r. split; [done|]. split; [constructor|]. split; [|by rewrite app_nil_r].
    exists body. split; [|exact Hs]. split; [exact Hv|]. by exists version.
  - apply act_bind_Ok in H as (? & ? & [[Hf%negb_false_iff%bool_decide_eq_true Hstr%negb_false_iff]%orb_false_iff ->]%throw_if_Ok & H).
    destruct id as [| | |id| | |]; try done. subst kind.
    apply act_bind_Ok in H as (u & s2 & (ack & Hack & Hsend & ->)%send_message_exact & H).
    destruct (IH _ _ _ _ _ _ H) as (cbs & -> & Hall & (rb & Hrb & Hstream) & Hout).
    exists (Callback body id content ack :: cbs). split; [by rewrite <-app_assoc|].
    split; [constructor; [|exact Hall]; split; [split; [exact Hv|by exists version]|by split]|].
    split; [exists rb; split; [exact Hrb|]|].
    + rewrite Hs. cbn [sk_in] in Hstream. rewrite Hstream. unfold callback_frames. cbn [map concat cb_body]. by rewrite <-app_assoc.
    + rewrite Hout. cbn [sk_out]. unfold ack_frames. cbn [map concat cb_ack]. by rewrite Hsent, <-!app_assoc.
Qed.

Lemma request_loop_complete cbs : ∀ fuel reply_id events reply rest s out,
  exchanged reply_id reply cbs rest s out → (length cbs < fuel)%nat →
  ∃ s', request_loop plist_dumps plist_loads fuel reply_id events s = (Ok (reply, events ++ map cb_event cbs), s')
    ∧ stream (sk_in s') = rest ∧ sk_out s' = out.
Proof.
  induction cbs as [|c cbs IH]; intros [|fuel] reply_id events reply rest s out (Hall & (rb & Hrb & Hs) & ->) Hf;
    try (simpl in Hf; lia); cbn [request_loop].
  - destruct Hrb as (Hv & version & Hl & Hver).
    destruct (proj2 (receive_envelope_exact s [version; VBool true; VStr reply_id; reply] rest (sk_out s))) as (s' & Hr & H1 & H2).
    { split; [done|]. by exists rb. }
    exists s'. split; [|split; [done|by rewrite H2, app_nil_r]].
    rewrite (run_bind _ _ _ _ _ Hr), run_throw_if_bind by (unfold item; cbn; by rewrite Hver).
    rewrite is_true_item, run_throw_if_bind by (unfold item; simpl; by rewrite py_eq_refl).
    by rewrite app_nil_r.
  - apply Forall_cons in Hall as [((Hv & version & Hl & Hver) & Hack & Hsend) Hall].
    unfold callback_frames in Hs. cbn [map concat] in Hs. rewrite <-app_assoc in Hs.
    destruct (proj2 (receive_envelope_exact s [version; VBool false; VStr (cb_id c); cb_event c]
      (callback_frames cbs ++ frame TYPE_MESSAGE rb ++ rest) (sk_out s))) as (s1 & Hr & H1 & H2).
    { split; [done|]. by exists (cb_body c). }
    destruct (IH fuel reply_id (events ++ [cb_event c]) reply rest
      (Sock (sk_in s1) (sk_out s1 ++ frame TYPE_MESSAGE (cb_ack c))) _ (conj Hall (conj (ex_intro _ rb (conj Hrb H1)) eq_refl)))
      as (s' & Hr' & H1' & H2'); [simpl in Hf; lia|].
    exists s'. split; [|split; [done|]].
    + rewrite (run_bind _ _ _ _ _ Hr), run_throw_if_bind by (unfold item; cbn; by rewrite Hver).
      rewrite is_true_item, run_throw_if_bind by done.
      assert (send_message plist_dumps (VList [VInt 1; VBool true; VStr (cb_id c); VList [VInt 0]]) s1
        = (Ok tt, Sock (sk_in s1) (sk_out s1 ++ frame TYPE_MESSAGE (cb_ack c)))) as Hsm by (apply send_message_exact; by exists (cb_ack c)).
      unfold item. cbn [lookup list_lookup default].
      rewrite (run_bind _ _ _ _ _ Hsm). rewrite <-app_assoc in Hr'. exact Hr'.
    + rewrite H2'. unfold ack_frames. cbn [map concat sk_out]. by rewrite H2, <-app_assoc.
Qed.

Lemma frames_delivered cbs : ∀ s tail, stream (sk_in s) = callback_frames cbs ++ tail →
  Forall callback_ok cbs → (length cbs ≤ length (stream (sk_in s)))%nat.
Proof.
  intros s tail -> Hall. rewrite length_app. induction Hall as [|c cbs ((Hv & _) & _) _ IH]; simpl; [lia|].
  unfold callback_frames in *. cbn [map concat]. rewrite length_app. unfold frame at 1.
  rewrite length_app, length_packed by by apply header_exact. simpl. lia.
Qed.

Lemma stream_available l : (length (stream l) ≤ foldr (λ o n, (match o with Some seg => length seg | None => 0 end + n)%nat) 0%nat l)%nat.
Proof. induction l as [|[[|c seg]|] l IH]; simpl; [lia..| |lia]. rewrite length_app. lia. Qed.

(** C30: A request returns exactly when the exchange is complete.  It returns
    [reply] and [events], leaving the bytes [rest] unread and [out] sent, if and
    only if the request can be encoded and framed and the bytes delivered are
    well-formed callbacks, then a reply under the identifier of the request, then
    [rest]: the events are those of the callbacks, in order, and what was sent
    is the request and one acknowledgement for each callback, in order, under
    its own identifier.  Until the reply is there - a peer that is silent or
    goes on with callbacks - the request does not return. *)
Theorem request_exact reply_id payload reply events rest out s :
  (∃ s', request_with_events plist_dumps plist_loads reply_id payload s = (Ok (reply, events), s')
     ∧ stream (sk_in s') = rest ∧ sk_out s' = out)
  ↔ ∃ req cbs body, plist_dumps (VList [VInt 1; VBool false; VStr reply_id; payload]) = Ok req ∧ sendable req
      ∧ Forall callback_ok cbs ∧ envelope_body body (VBool true) (VStr reply_id) reply
      ∧ stream (sk_in s) = callback_frames cbs ++ frame TYPE_MESSAGE body ++ rest
      ∧ events = map cb_event cbs ∧ out = sk_out s ++ frame TYPE_MESSAGE req ++ ack_frames cbs.
Proof.
  unfold request_with_events. split.
  - intros (s' & (u & s1 & (req & Hd & Hsend & ->)%send_message_exact & (? & ? & [= <- <-] & H)%act_bind_Ok)%act_bind_Ok & <- & <-).
    apply request_loop_sound in H as (cbs & -> & Hall & (body & Hb & Hs) & Hout).
    exists req, cbs, body. split_and!; try done. rewrite Hout. cbn [sk_out]. by rewrite <-app_assoc.
  - intros (req & cbs & body & Hd & Hsend & Hall & Hb & Hs & -> & ->).
    set (s1 := Sock (sk_in s) (sk_out s ++ frame TYPE_MESSAGE req)).
    destruct (request_loop_complete cbs (S (available s1)) reply_id [] reply rest s1
      (sk_out s1 ++ ack_frames cbs)) as (s' & Hr & H1 & H2).
    + split; [exact Hall|]. split; [by exists body|done].
    + pose proof (frames_delivered _ _ _ Hs Hall). pose proof (stream_available (sk_in s)).
      unfold available. simpl. lia.
    + exists s'. split; [|split; [exact H1|by rewrite H2; simpl; rewrite <-app_assoc]].
      assert (send_message plist_dumps (VList [VInt 1; VBool false; VStr reply_id; payload]) s = (Ok tt, s1)) as Hsm
        by (apply send_message_exact; by exists req).
      rewrite (run_bind _ _ _ _ _ Hsm). exact Hr.
Qed.

(** ** Turns *)

Context (Hdumps : ∀ v, raises (λ c, c ≠ AssertionError) (plist_dumps v)).
Context (Hloads : ∀ b, raises (λ c, c ≠ AssertionError) (plist_loads b)).

Lemma pack_raises f v : raises (λ c, c = StructError) (pack f v).
Proof.
  induction f as [|[w|n|n] f IH]; simpl; [apply raises_Ok|..].
  - apply raises_bind; [by apply raises_fail_if|]. intros _ _ x. specialize (IH v.2 x).
    destruct (pack f v.2); simpl; naive_solver.
  - intros x. specialize (IH v.2 x). destruct (pack f v.2); simpl; naive_solver.
  - intros x. specialize (IH v x). destruct (pack f v); simpl; naive_solver.
Qed.

Definition not_assertion (e : exn) (_ : sock) : Prop := exn_cls e ≠ AssertionError.

Lemma send_message_wp v s :
  wp (send_message plist_dumps v) (λ _ s', sk_in s' = sk_in s) not_assertion s.
Proof.
  unfold send_message, send_frame, sendall. wp_run; try done; [|by eapply Hdumps].
  unfold not_assertion. match goal with H : pack _ _ = Raise ?e |- _ => by rewrite (pack_raises _ _ _ H) end.
Qed.

Lemma receive_envelope_wp s :
  wp (receive_envelope plist_loads) (λ _ s', (available s' < available s)%nat) not_assertion s.
Proof.
  unfold receive_envelope. apply wp_bind. eapply wp_weaken; [apply receive_frame_wp| |].
  2: { intros e s1 [He _]. unfold not_assertion. intros Hc. rewrite Hc in He.
       revert He. apply (bool_decide_unpack _). exact I. }
  intros [t b] s1 [Hv (_ & _ & Ha)]. simpl in *.
  assert (available s1 < available s)%nat.
  { rewrite Ha. unfold frame. rewrite length_app, length_packed by by apply header_exact. simpl. lia. }
  wp_run; try done. unfold not_assertion, describe, json_loads in *.
  match goal with H : _ = Raise ?e |- _ => revert H end.
  destruct (t =? TYPE_HELO); [destruct (loads _); [done|by intros [= <-]]|].
  destruct (t =? TYPE_MESSAGE); [|done]. by apply Hloads.
Qed.

Lemma request_loop_wp fuel : ∀ reply_id events s, (available s < fuel)%nat →
  wp (request_loop plist_dumps plist_loads fuel reply_id events) (λ _ _, True) not_assertion s.
Proof.
  induction fuel as [|fuel IH]; intros reply_id events s Hf; [lia|]. cbn [request_loop].
  apply wp_bind. eapply wp_weaken; [apply receive_envelope_wp| |done]. intros envelope s1 Ha.
  apply wp_bind, wp_throw_if; [done|]. intros _. apply wp_if; intros _; [wp_run; done|].
  apply wp_bind, wp_throw_if; [done|]. intros _.
  apply wp_bind. eapply wp_weaken; [apply send_message_wp| |done]. intros u2 s2 Hs2.
  apply IH. unfold available in *. rewrite Hs2. lia.
Qed.

(** The turns of the loop are enough for what was delivered: a request returns a
    reply, raises, or waits for more, and never runs out of them. *)
Lemma request_never_out_of_turns reply_id payload s :
  wp (request_with_events plist_dumps plist_loads reply_id payload) (λ _ _, True) not_assertion s.
Proof.
  unfold request_with_events. apply wp_bind. eapply wp_weaken; [apply send_message_wp| |done].
  intros u1 s1 Hs1. apply wp_bind, wp_self. apply request_loop_wp. lia.
Qed.
End exchange.
