(* ===== verification/CatacombOracle.v ===== *)
(** * The independent archive reader ([src/src/t2_catacomb_oracle.py])

    A second reader of the keyed archives, which shares no traversal or
    validation code with the codec; the codec compares what it has written
    with what this reader sees.  [plistlib.loads] is a parameter. *)
From S2P Require Import Prelude PyValue Sha256 Effect Bytes KeyedArchive.

#[local] Open Scope Z_scope.
#[local] Abbreviation oerr msg := (Exn OracleError msg).
#[local] Abbreviation refuse b msg := (fail_if b OracleError msg).

Definition CHAINS (name : string) : option (list string) :=
  list_to_map (M := gmap string (list string))
    [("NSMutableData", ["NSMutableData"; "NSData"; "NSObject"]);
     ("NSMutableArray", ["NSMutableArray"; "NSArray"; "NSObject"]);
     ("BiometricKitIdentity", ["BiometricKitIdentity"; "NSObject"]);
     ("NSDate", ["NSDate"; "NSObject"]);
     ("BiometricKitAccessory", ["BiometricKitAccessory"; "NSObject"]);
     ("BiometricKitAccessoryGroup", ["BiometricKitAccessoryGroup"; "NSObject"]);
     ("NSUUID", ["NSUUID"; "NSObject"])] !! name.

Definition startswith_bytes (data prefix : bytes) : bool := bool_decide (take (length prefix) data = prefix).
Definition bounded_size (data : bytes) : bool :=
  (0 <? Z.of_nat (length data)) && (Z.of_nat (length data) <=? 1024 * 1024).

(** The fields of an identity; the codec's data class and the dictionaries of
    this reader have the same. *)
Record Identity := MkIdentity {
  id_uuid : string;
  id_user_id : Z;
  id_entity : Z;
  id_name : string;
  id_type : Z;
  id_flags : Z;
  id_attribute : Z;
  id_match_count : Z;
  id_continuous_match_count : Z;
  id_update_count : Z;
  id_creation_time : spec_float;
}.

(** [==] of two identities: floats are compared as numbers. *)
Definition identity_eqb (a b : Identity) : bool :=
  String.eqb (id_uuid a) (id_uuid b) && (id_user_id a =? id_user_id b) && (id_entity a =? id_entity b)
  && String.eqb (id_name a) (id_name b) && (id_type a =? id_type b) && (id_flags a =? id_flags b)
  && (id_attribute a =? id_attribute b) && (id_match_count a =? id_match_count b)
  && (id_continuous_match_count a =? id_continuous_match_count b)
  && (id_update_count a =? id_update_count b) && SFeqb (id_creation_time a) (id_creation_time b).
Fixpoint identities_eqb (l k : list Identity) : bool :=
  match l, k with
  | [], [] => true
  | a :: l, b :: k => identity_eqb a b && identities_eqb l k
  | _, _ => false
  end.

Record Graph := MkGraph { g_top : list (string * plist); g_objects : list plist }.

(** ** Reading objects of a graph *)
Section graph.
Context (objects : list plist).

Definition g_index (v : plist) (field : string) : result nat :=
  ref_index objects (oerr ("invalid " +:+ field +:+ " reference")) v.
Definition g_get (v : plist) (field : string) : result plist :=
  i ← g_index v field; Ok (object_at objects i).

Definition g_classed (v : plist) (class_name : string) (keys : gset string) (field : string)
    : result (list (string * plist)) :=
  item ← match v with PUid _ => g_get v field | _ => Ok v end;
  match item with
  | PDict d =>
      _ ← refuse (negb (keys_are d ({["$class"]} ∪ keys))) ("invalid " +:+ field +:+ " schema");
      descriptor ← g_get (member d "$class") (field +:+ " class");
      match descriptor with
      | PDict c =>
          _ ← refuse (negb (keys_are c {["$classname"; "$classes"]})
                      || negb (eq_text (member c "$classname") class_name)
                      || negb match member c "$classes", CHAINS class_name with
                              | PList classes, Some chain => eq_texts classes chain
                              | _, _ => false
                              end) ("invalid " +:+ field +:+ " class");
          Ok d
      | _ => Raise (oerr ("invalid " +:+ field +:+ " class"))
      end
  | _ => Raise (oerr ("invalid " +:+ field +:+ " schema"))
  end.

Definition g_text (reference : plist) (field : string) : result string :=
  v ← g_get reference field;
  match v with
  | PStr s => _ ← refuse (1024 <? Z.of_nat (utf8_length s)) ("invalid " +:+ field); Ok s
  | _ => Raise (oerr ("invalid " +:+ field))
  end.

Definition g_integer (v : plist) (field : string) : result Z :=
  match v with
  | PInt z => _ ← refuse (negb ((0 <=? z) && (z <=? 0xFFFFFFFF))) ("invalid " +:+ field); Ok z
  | _ => Raise (oerr ("invalid " +:+ field))
  end.

Definition g_raw_uuid (v : plist) (field : string) : result string :=
  match v with
  | PBytes raw => _ ← refuse (negb (length raw =? 16)%nat) ("invalid " +:+ field); Ok (uuid_str (be_unpack raw))
  | _ => Raise (oerr ("invalid " +:+ field))
  end.

Definition g_archived_uuid (v : plist) (field : string) : result string :=
  item ← g_classed v "NSUUID" {["NS.uuidbytes"]} field;
  g_raw_uuid (member item "NS.uuidbytes") field.

Definition g_data (v : plist) (magic : bytes) (field : string) : result bytes :=
  item ← g_classed v "NSMutableData" {["NS.data"]} field;
  match member item "NS.data" with
  | PBytes data =>
      _ ← refuse (negb ((16 <=? Z.of_nat (length data)) && (Z.of_nat (length data) <=? 1024 * 1024))
                  || negb (bool_decide (take 4 data = magic))) ("invalid " +:+ field +:+ " envelope");
      Ok data
  | _ => Raise (oerr ("invalid " +:+ field +:+ " envelope"))
  end.

Definition g_date (v : plist) (field : string) : result spec_float :=
  item ← g_classed v "NSDate" {["NS.time"]} field;
  finite_number (oerr ("invalid " +:+ field)) (member item "NS.time").

(** [Graph._reachable] *)
Definition g_reachable (top : plist) : result unit :=
  require_reachable objects (oerr "invalid graph reference") (oerr "cyclic object graph") (oerr "unreachable object") top.

(** ** Users *)

Definition ORACLE_IDENTITY_KEYS : gset string :=
  {["BKIdentityMatchCount"; "BKIdentityCreationTime"; "BKIdentityEntityNumber"; "BKIdentityUUID";
    "BKIdentityFlags"; "BKIdentityMatchCountContinuous"; "BKIdentityName"; "BKIdentityType";
    "BKIdentityAccessory"; "BKIdentityUpdateCount"; "BKIdentityUserID"; "BKIdentityAttribute"]}.

Record accessory_model := Accessory {
  ac_uuid : string; ac_flags : Z; ac_name : string; ac_type : Z;
  ac_group_uuid : string; ac_group_name : string; ac_group_type : Z;
}.
#[export] Instance accessory_model_eq_dec : EqDecision accessory_model.
Proof. solve_decision. Defined.
Definition builtin_accessory : accessory_model :=
  Accessory (uuid_str 0) 6 "Builtin" 1 (uuid_str 0) "Builtin" 1.

Definition g_accessory (v : plist) : result accessory_model :=
  accessory ← g_classed v "BiometricKitAccessory"
                {["BKAccessoryUUID"; "BKAccessoryFlags"; "BKAccessoryName"; "BKAccessoryType"; "BKAccessoryGroup"]}
                "accessory";
  group ← g_classed (member accessory "BKAccessoryGroup") "BiometricKitAccessoryGroup"
            {["BKAccessoryGroupName"; "BKAccessoryGroupType"; "BKAccessoryGroupUUID"]} "accessory group";
  uuid ← g_raw_uuid (member accessory "BKAccessoryUUID") "accessory UUID";
  flags ← g_integer (member accessory "BKAccessoryFlags") "accessory flags";
  name ← g_text (member accessory "BKAccessoryName") "accessory name";
  type ← g_integer (member accessory "BKAccessoryType") "accessory type";
  group_uuid ← g_raw_uuid (member group "BKAccessoryGroupUUID") "group UUID";
  group_name ← g_text (member group "BKAccessoryGroupName") "group name";
  group_type ← g_integer (member group "BKAccessoryGroupType") "group type";
  Ok (Accessory uuid flags name type group_uuid group_name group_type).

(** One turn of the loop over the identities. *)
Definition g_identity (expected_user_id : Z) (reference : plist) : result (Identity * (nat * accessory_model)) :=
  item ← g_classed reference "BiometricKitIdentity" ORACLE_IDENTITY_KEYS "identity";
  user_id ← g_integer (member item "BKIdentityUserID") "identity user ID";
  _ ← refuse (negb (user_id =? expected_user_id)) "foreign identity user";
  model ← g_accessory (member item "BKIdentityAccessory");
  index ← g_index (member item "BKIdentityAccessory") "accessory";
  uuid ← g_raw_uuid (member item "BKIdentityUUID") "identity UUID";
  entity ← g_integer (member item "BKIdentityEntityNumber") "identity entity";
  name ← g_text (member item "BKIdentityName") "identity name";
  identity_type ← g_integer (member item "BKIdentityType") "identity type";
  flags ← g_integer (member item "BKIdentityFlags") "identity flags";
  attribute ← g_integer (member item "BKIdentityAttribute") "identity attribute";
  match_count ← g_integer (member item "BKIdentityMatchCount") "match count";
  continuous ← g_integer (member item "BKIdentityMatchCountContinuous") "continuous match count";
  update_count ← g_integer (member item "BKIdentityUpdateCount") "update count";
  created ← g_date (member item "BKIdentityCreationTime") "creation time";
  Ok (MkIdentity uuid user_id entity name identity_type flags attribute match_count continuous update_count created,
      (index, model)).
End graph.

(** What the reader reports of a component. *)
Record user_model := UserModel {
  om_account_uuid : string; om_keybag_uuid : string; om_secure_sha256 : string; om_secure_length : nat;
  om_identities : list Identity;
}.
Record master_model := MasterModel {
  mm_secure_sha256 : string; mm_secure_length : nat; mm_enrollment_count : Z; mm_current_time : spec_float;
}.
Record biolockout_model := BioLockoutModel { bm_secure_sha256 : string; bm_secure_length : nat }.

Definition secure_digest (data : bytes) : string := sha256_hex (String.string_of_list_ascii data).

Section reader.
Context (plist_loads : bytes → result plist).

(** [except (plistlib.InvalidFileException, ValueError, OverflowError)] *)
Definition load_plist (bad : exn) (data : bytes) : result plist :=
  except (λ c, bool_decide (c ∈ [ValueError; OverflowError])) (λ _, bad) (plist_loads data).

(** [Graph.__init__] *)
Definition open_graph (data : bytes) : result Graph :=
  _ ← refuse (negb (bounded_size data) || negb (startswith_bytes data (text "bplist00"))) "not a bounded binary plist";
  root ← load_plist (oerr "invalid binary plist") data;
  match root with
  | PDict root =>
      match member root "$top", member root "$objects" with
      | PDict top, PList objects =>
          _ ← refuse (negb (keys_are root {["$version"; "$archiver"; "$top"; "$objects"]})
                      || negb (eq_int (member root "$version") 100000)
                      || negb (eq_text (member root "$archiver") "NSKeyedArchiver")
                      || negb ((1 <=? length objects) && (length objects <=? 256))%nat
                      || negb (eq_text (object_at objects 0) "$null")) "unknown keyed-archive root";
          _ ← g_reachable objects (PDict top);
          Ok (MkGraph top objects)
      | _, _ => Raise (oerr "unknown keyed-archive root")
      end
  | _ => Raise (oerr "unknown keyed-archive root")
  end.

Definition MASTER_KEYS : gset string :=
  {["CatacombVersion"; "CatacombSecureData"; "CatacombCurrentDate"; "CatacombUserID"; "CatacombEnrollmentCount"]}.
Definition BIOLOCKOUT_KEYS : gset string := {["BioLockoutRecordSecureData"; "BioLockoutRecordVersion"]}.
Definition USER_KEYS : gset string :=
  {["CatacombVersion"; "CatacombSecureData"; "CatacombUserKeybagUUID"; "CatacombUserID"; "CatacombIdentityList";
    "CatacombUserUUID"]}.

Definition read_master (data : bytes) : result master_model :=
  graph ← open_graph data;
  let top := g_top graph in
  _ ← refuse (negb (keys_are top MASTER_KEYS) || negb (eq_int (member top "CatacombVersion") 0x30000)
              || negb (eq_int (member top "CatacombUserID") (-1))) "invalid master top";
  secure ← g_data (g_objects graph) (member top "CatacombSecureData") (text "LTFC") "master secure data";
  count ← g_integer (member top "CatacombEnrollmentCount") "enrollment count";
  current ← g_date (g_objects graph) (member top "CatacombCurrentDate") "master date";
  Ok (MasterModel (secure_digest secure) (length secure) count current).

Definition read_biolockout (data : bytes) : result biolockout_model :=
  graph ← open_graph data;
  let top := g_top graph in
  _ ← refuse (negb (keys_are top BIOLOCKOUT_KEYS) || negb (eq_int (member top "BioLockoutRecordVersion") 0x10000))
        "invalid bio-lockout top";
  secure ← g_data (g_objects graph) (member top "BioLockoutRecordSecureData") (text "HRLB") "bio-lockout secure data";
  Ok (BioLockoutModel (secure_digest secure) (length secure)).

Definition read_user (data : bytes) (expected_user_id : Z) : result user_model :=
  graph ← open_graph data;
  let top := g_top graph in
  let objects := g_objects graph in
  _ ← refuse (negb (keys_are top USER_KEYS) || negb (eq_int (member top "CatacombVersion") 0x30000)
              || negb (eq_int (member top "CatacombUserID") expected_user_id)) "invalid user top";
  secure ← g_data objects (member top "CatacombSecureData") (text "LTFC") "user secure data";
  array ← g_classed objects (member top "CatacombIdentityList") "NSMutableArray" {["NS.objects"]} "identity list";
  references ← match member array "NS.objects" with
               | PList l => _ ← refuse (10 <? length l)%nat "invalid identity array"; Ok l
               | _ => Raise (oerr "invalid identity array")
               end;
  items ← mapM (g_identity objects expected_user_id) references;
  let identities := items.*1 in
  _ ← refuse (negb (bool_decide (NoDup (id_uuid <$> identities)))
              || negb (bool_decide (NoDup (id_entity <$> identities)))) "duplicate identity UUID/entity";
  _ ← refuse (1 <? size (list_to_set (C := gset nat) items.*2.*1))%nat "unsupported accessory model";
  _ ← refuse (negb (forallb (λ m, bool_decide (m = builtin_accessory)) items.*2.*2)) "unsupported accessory model";
  account_uuid ← g_archived_uuid objects (member top "CatacombUserUUID") "account UUID";
  keybag_uuid ← g_archived_uuid objects (member top "CatacombUserKeybagUUID") "keybag UUID";
  Ok (UserModel account_uuid keybag_uuid (secure_digest secure) (length secure) identities).
End reader.
