(* ===== verification/CatacombCodec.v ===== *)
(** * The Catacomb archive codec ([src/src/t2_catacomb_codec.py])

    The reader and writer of the host's copies of the coprocessor's data: the
    user component with its identities, the master component and the
    bio-lockout record.  Every written archive is read back by this codec and
    by the independent reader.  [plistlib.loads] and [plistlib.dumps] are
    parameters; an argument has its annotated type. *)
From S2P Require Import Prelude PyValue Sha256 UuidFacts Json Effect Bytes KeyedArchive CatacombOracle.

#[local] Open Scope Z_scope.
#[local] Abbreviation cerr msg := (Exn CatacombCodecError msg).
#[local] Abbreviation refuse b msg := (fail_if b CatacombCodecError msg).

Definition MAX_FILE_BYTES : Z := 1024 * 1024.
Definition MAX_OBJECTS : nat := 256.
Definition MAX_IDENTITIES : nat := 10.
Definition MAX_STRING_BYTES : Z := 1024.

Definition ROOT_KEYS : gset string := {["$version"; "$archiver"; "$top"; "$objects"]}.
Definition TOP_KEYS : gset string :=
  {["CatacombVersion"; "CatacombSecureData"; "CatacombUserKeybagUUID"; "CatacombUserID"; "CatacombIdentityList";
    "CatacombUserUUID"]}.
Definition IDENTITY_KEYS : gset string :=
  {["$class"; "BKIdentityMatchCount"; "BKIdentityCreationTime"; "BKIdentityEntityNumber"; "BKIdentityUUID";
    "BKIdentityFlags"; "BKIdentityMatchCountContinuous"; "BKIdentityName"; "BKIdentityType";
    "BKIdentityAccessory"; "BKIdentityUpdateCount"; "BKIdentityUserID"; "BKIdentityAttribute"]}.
Definition ACCESSORY_KEYS : gset string :=
  {["$class"; "BKAccessoryUUID"; "BKAccessoryFlags"; "BKAccessoryName"; "BKAccessoryType"; "BKAccessoryGroup"]}.
Definition GROUP_KEYS : gset string :=
  {["$class"; "BKAccessoryGroupName"; "BKAccessoryGroupType"; "BKAccessoryGroupUUID"]}.
Definition ALLOWED_CLASSES : gset string :=
  {["NSMutableData"; "NSMutableArray"; "BiometricKitIdentity"; "NSDate"; "BiometricKitAccessory";
    "BiometricKitAccessoryGroup"; "NSUUID"]}.
Definition CLASS_CHAINS (name : string) : option (list string) :=
  list_to_map (M := gmap string (list string))
    [("NSMutableData", ["NSMutableData"; "NSData"; "NSObject"]);
     ("NSMutableArray", ["NSMutableArray"; "NSArray"; "NSObject"]);
     ("BiometricKitIdentity", ["BiometricKitIdentity"; "NSObject"]);
     ("NSDate", ["NSDate"; "NSObject"]);
     ("BiometricKitAccessory", ["BiometricKitAccessory"; "NSObject"]);
     ("BiometricKitAccessoryGroup", ["BiometricKitAccessoryGroup"; "NSObject"]);
     ("NSUUID", ["NSUUID"; "NSObject"])] !! name.

(** [_bounded_int] with its default maximum. *)
Definition catacomb_int (v : plist) (field : string) : result Z :=
  match v with
  | PInt z => _ ← refuse (negb ((0 <=? z) && (z <=? 0xFFFFFFFF))) (field +:+ " is not a bounded non-negative integer");
              Ok z
  | _ => Raise (cerr (field +:+ " is not a bounded non-negative integer"))
  end.

(** [_uuid] *)
Definition catacomb_uuid (v : plist) (field : string) : result string :=
  match v with
  | PBytes raw => _ ← refuse (negb (length raw =? 16)%nat) (field +:+ " is not a 16-byte UUID");
                  Ok (uuid_str (be_unpack raw))
  | _ => Raise (cerr (field +:+ " is not a 16-byte UUID"))
  end.

(** [_secure_envelope] *)
Definition secure_envelope (v : plist) (magic : bytes) (field : string) : result bytes :=
  match v with
  | PBytes data =>
      _ ← refuse (negb ((16 <=? Z.of_nat (length data)) && (Z.of_nat (length data) <=? MAX_FILE_BYTES))
                  || negb (bool_decide (take 4 data = magic))) (field +:+ " has an invalid secure envelope");
      Ok data
  | _ => Raise (cerr (field +:+ " has an invalid secure envelope"))
  end.

Record UserCatacomb := MkUserCatacomb {
  uc_expected_user_id : Z;
  uc_secure_data : bytes;
  uc_account_uuid : string;
  uc_keybag_uuid : string;
  uc_array_index : nat;
  uc_identity_indices : list nat;
  uc_identities : list Identity;
}.

(** ** Reading objects of the table *)
Section table.
Context (objects : list plist).

(** [_index] and [_object] *)
Definition c_index (v : plist) (field : string) : result nat :=
  ref_index objects (cerr (field +:+ " is not an in-range object reference")) v.
Definition c_object (v : plist) (field : string) : result plist :=
  i ← c_index v field; Ok (object_at objects i).

(** [_class_name] *)
Definition class_name (d : list (string * plist)) (field : string) : result string :=
  let bad := cerr (field +:+ " has an invalid class descriptor") in
  descriptor ← c_object (member d "$class") (field +:+ " class");
  match descriptor with
  | PDict c =>
      match member c "$classname", member c "$classes" with
      | PStr name, PList classes =>
          _ ← (if negb (keys_are c {["$classname"; "$classes"]})
                  || match classes with [] => true | first :: _ => negb (eq_text first name) end
                  || negb match CLASS_CHAINS name with Some chain => eq_texts classes chain | None => false end
               then Raise bad else Ok tt);
          _ ← refuse (negb (bool_decide (name ∈ ALLOWED_CLASSES))) (field +:+ " uses disallowed class " +:+ name);
          Ok name
      | _, _ => Raise bad
      end
  | _ => Raise bad
  end.

(** The check of a dictionary with its class that most readers start with. *)
Definition c_classed (v : plist) (keys : gset string) (name field : string) (bad : exn)
    : result (list (string * plist)) :=
  match v with
  | PDict d =>
      _ ← (if keys_are d keys then Ok tt else Raise bad);
      actual ← class_name d field;
      _ ← (if String.eqb actual name then Ok tt else Raise bad);
      Ok d
  | _ => Raise bad
  end.

(** The loop body of [_validate_all_objects]. *)
Definition check_object (aggregate : nat) (entry : nat * plist) : result nat :=
  let label := "object " +:+ dec (Z.of_nat entry.1) "" in
  match entry.2 with
  | PStr s => _ ← refuse (MAX_STRING_BYTES <? Z.of_nat (utf8_length s)) (label +:+ " string exceeds policy");
              Ok (aggregate + utf8_length s)%nat
  | PBytes b => Ok (aggregate + length b)%nat
  | PDict d =>
      if bool_decide ("$class" ∈ keys_of d)
      then _ ← class_name d label; Ok aggregate
      else _ ← refuse (negb (keys_are d {["$classname"; "$classes"]})) (label +:+ " is an unknown dictionary");
           Ok aggregate
  | PInt _ | PFloat _ | PBool _ => Ok aggregate
  | _ => Raise (cerr (label +:+ " has an unsupported primitive"))
  end.

Definition validate_all_objects : result unit :=
  _ ← refuse (negb (eq_text (object_at objects 0) "$null")) "keyed archive has no null sentinel";
  aggregate ← fold_result check_object 0%nat (zip (seq 0 (length objects)) objects);
  refuse (MAX_FILE_BYTES <? Z.of_nat aggregate) "aggregate decoded data exceeds policy".

(** [_validate_reachability] *)
Definition validate_reachability (top : list (string * plist)) : result unit :=
  require_reachable objects (cerr "object graph is not an in-range object reference")
    (cerr "keyed-archive object graph contains a cycle") (cerr "keyed archive contains unreachable objects") (PDict top).

(** [_secure_data] *)
Definition c_secure_data (reference : plist) : result bytes :=
  v ← c_object reference "secure data";
  d ← c_classed v {["$class"; "NS.data"]} "NSMutableData" "secure data" (cerr "secure data object is malformed");
  match member d "NS.data" with
  | PBytes data =>
      _ ← refuse (negb ((16 <=? Z.of_nat (length data)) && (Z.of_nat (length data) <=? MAX_FILE_BYTES)))
            "secure data object is malformed";
      secure_envelope (PBytes data) (text "LTFC") "Catacomb secure data"
  | _ => Raise (cerr "secure data object is malformed")
  end.

(** [_archived_uuid] *)
Definition c_archived_uuid (reference : plist) (field : string) : result string :=
  v ← c_object reference field;
  d ← c_classed v {["$class"; "NS.uuidbytes"]} "NSUUID" field (cerr (field +:+ " object is malformed"));
  catacomb_uuid (member d "NS.uuidbytes") field.

(** [_identity_array] *)
Definition c_identity_array (reference : plist) : result (nat * list nat) :=
  index ← c_index reference "identity list";
  d ← c_classed (object_at objects index) {["$class"; "NS.objects"]} "NSMutableArray" "identity list"
        (cerr "identity list is malformed");
  match member d "NS.objects" with
  | PList l =>
      _ ← refuse (MAX_IDENTITIES <? length l)%nat "identity list is malformed";
      indices ← mapM (λ v, c_index v "identity") l;
      Ok (index, indices)
  | _ => Raise (cerr "identity list is malformed")
  end.

(** [_string] *)
Definition c_string (reference : plist) (field : string) : result string :=
  v ← c_object reference field;
  match v with
  | PStr s => _ ← refuse (MAX_STRING_BYTES <? Z.of_nat (utf8_length s)) (field +:+ " is not a bounded string"); Ok s
  | _ => Raise (cerr (field +:+ " is not a bounded string"))
  end.

(** [_date] *)
Definition c_date (reference : plist) : result spec_float :=
  v ← c_object reference "identity creation time";
  d ← c_classed v {["$class"; "NS.time"]} "NSDate" "identity creation time"
        (cerr "identity creation time is malformed");
  finite_number (cerr "identity creation time is malformed") (member d "NS.time").

Definition eq_bytes (v : plist) (b : bytes) : bool := match v with PBytes c => bool_decide (c = b) | _ => false end.

(** [_validate_accessory] *)
Definition validate_accessory (reference : plist) : result unit :=
  v ← c_object reference "identity accessory";
  accessory ← c_classed v ACCESSORY_KEYS "BiometricKitAccessory" "identity accessory"
                (cerr "identity accessory is malformed");
  _ ← catacomb_uuid (member accessory "BKAccessoryUUID") "accessory UUID";
  flags ← catacomb_int (member accessory "BKAccessoryFlags") "accessory flags";
  type ← catacomb_int (member accessory "BKAccessoryType") "accessory type";
  name ← c_string (member accessory "BKAccessoryName") "accessory name";
  g ← c_object (member accessory "BKAccessoryGroup") "accessory group";
  group ← c_classed g GROUP_KEYS "BiometricKitAccessoryGroup" "accessory group" (cerr "accessory group is malformed");
  _ ← catacomb_uuid (member group "BKAccessoryGroupUUID") "accessory group UUID";
  group_type ← catacomb_int (member group "BKAccessoryGroupType") "accessory group type";
  group_name ← c_string (member group "BKAccessoryGroupName") "accessory group name";
  refuse (negb (eq_bytes (member accessory "BKAccessoryUUID") (zeros 16) && (flags =? 6) && (type =? 1)
                && String.eqb name "Builtin" && eq_bytes (member group "BKAccessoryGroupUUID") (zeros 16)
                && (group_type =? 1) && String.eqb group_name "Builtin"))
    "unsupported non-built-in accessory metadata".

(** [_identity] *)
Definition c_identity (expected_user_id : Z) (index : nat) : result Identity :=
  value ← c_classed (object_at objects index) IDENTITY_KEYS "BiometricKitIdentity" "identity"
            (cerr "identity object has an unknown schema");
  user_id ← catacomb_int (member value "BKIdentityUserID") "identity user ID";
  _ ← refuse (negb (user_id =? expected_user_id)) "identity belongs to another user";
  _ ← validate_accessory (member value "BKIdentityAccessory");
  uuid ← catacomb_uuid (member value "BKIdentityUUID") "identity UUID";
  entity ← catacomb_int (member value "BKIdentityEntityNumber") "identity entity";
  name ← c_string (member value "BKIdentityName") "identity name";
  identity_type ← catacomb_int (member value "BKIdentityType") "identity type";
  flags ← catacomb_int (member value "BKIdentityFlags") "identity flags";
  attribute ← catacomb_int (member value "BKIdentityAttribute") "identity attribute";
  match_count ← catacomb_int (member value "BKIdentityMatchCount") "identity match count";
  continuous ← catacomb_int (member value "BKIdentityMatchCountContinuous") "continuous match count";
  update_count ← catacomb_int (member value "BKIdentityUpdateCount") "identity update count";
  created ← c_date (member value "BKIdentityCreationTime");
  Ok (MkIdentity uuid user_id entity name identity_type flags attribute match_count continuous update_count created).

(** The accessory of an identity that has been read. *)
Definition accessory_index (index : nat) : result nat :=
  match object_at objects index with
  | PDict d => c_index (member d "BKIdentityAccessory") "identity accessory"
  | _ => raise TypeError "object is not subscriptable"
  end.

(** What [UserCatacomb.__init__] does with the object table. *)
Definition read_table (top : list (string * plist)) (expected_user_id : Z) : result UserCatacomb :=
  expected ← catacomb_int (PInt expected_user_id) "expected user ID";
  _ ← refuse (negb (eq_int (member top "CatacombVersion") 0x30000)) "unsupported Catacomb version";
  _ ← refuse (negb (eq_int (member top "CatacombUserID") expected)) "Catacomb user ID does not match pinned user";
  _ ← validate_all_objects;
  _ ← validate_reachability top;
  secure_data ← c_secure_data (member top "CatacombSecureData");
  account_uuid ← c_archived_uuid (member top "CatacombUserUUID") "account UUID";
  keybag_uuid ← c_archived_uuid (member top "CatacombUserKeybagUUID") "keybag UUID";
  '(array_index, indices) ← c_identity_array (member top "CatacombIdentityList");
  identities ← mapM (c_identity expected) indices;
  _ ← refuse (negb (bool_decide (NoDup (id_uuid <$> identities)))) "identity UUIDs are not unique";
  _ ← refuse (negb (bool_decide (NoDup (id_entity <$> identities)))) "identity entity numbers are not unique";
  accessories ← mapM accessory_index indices;
  _ ← refuse (1 <? size (list_to_set (C := gset nat) accessories))%nat
        "built-in identities do not share one accessory";
  Ok (MkUserCatacomb expected secure_data account_uuid keybag_uuid array_index indices identities).
End table.

(** ** Components *)

Record MasterCatacomb := MkMaster { mc_enrollment_count : Z; mc_secure_data : bytes; mc_current_time : spec_float }.
Definition MASTER_TOP_KEYS : gset string :=
  {["CatacombVersion"; "CatacombSecureData"; "CatacombCurrentDate"; "CatacombUserID"; "CatacombEnrollmentCount"]}.
Definition BIOLOCKOUT_TOP_KEYS : gset string := {["BioLockoutRecordSecureData"; "BioLockoutRecordVersion"]}.

Section component.
Context (objects : list plist).

Definition component_index (v : plist) (field : string) : result nat :=
  ref_index objects (cerr (field +:+ " reference is invalid")) v.
Definition component_object (v : plist) (field : string) : result plist :=
  i ← component_index v field; Ok (object_at objects i).

(** [_component_class].  The name of the class is only looked up: a list or a
    dictionary is not hashable, and a class without a chain passes when its
    own chain is [None]. *)
Definition component_class (d : list (string * plist)) (field : string) : result plist :=
  let bad := cerr (field +:+ " class descriptor is invalid") in
  descriptor ← component_object (member d "$class") (field +:+ " class");
  match descriptor with
  | PDict c =>
      _ ← (if keys_are c {["$classname"; "$classes"]} then Ok tt else Raise bad);
      chain ← match member c "$classname" with
              | PStr name => Ok (CLASS_CHAINS name)
              | PList _ | PDict _ => raise TypeError "unhashable type"
              | _ => Ok None
              end;
      match chain, member c "$classes" with
      | Some chain, PList classes => if eq_texts classes chain then Ok (member c "$classname") else Raise bad
      | None, PNone => Ok (member c "$classname")
      | _, _ => Raise bad
      end
  | _ => Raise bad
  end.

Definition component_classed (v : plist) (keys : gset string) (name field : string) (bad : exn)
    : result (list (string * plist)) :=
  match v with
  | PDict d =>
      _ ← (if keys_are d keys then Ok tt else Raise bad);
      actual ← component_class d field;
      _ ← (if eq_text actual name then Ok tt else Raise bad);
      Ok d
  | _ => Raise bad
  end.

Definition component_data (reference : plist) (magic : bytes) : result bytes :=
  v ← component_object reference "secure data";
  d ← component_classed v {["NS.data"; "$class"]} "NSMutableData" "secure data"
        (cerr "component secure data object is malformed");
  secure_envelope (member d "NS.data") magic "component secure data".

Definition require_component_reachability (top : list (string * plist)) : result unit :=
  require_reachable objects (cerr "object graph reference is invalid") (cerr "component object graph contains a cycle")
    (cerr "component contains unreachable objects") (PDict top).
End component.

(** ** Archives as bytes *)
Section codec.
Context (plist_dumps : plist → result bytes) (plist_loads : bytes → result plist).

(** The first half of [UserCatacomb.__init__]. *)
Definition user_root (data : bytes) : result (list (string * plist) * list plist) :=
  _ ← refuse (negb ((0 <? Z.of_nat (length data)) && (Z.of_nat (length data) <=? MAX_FILE_BYTES)))
        "Catacomb file size is outside policy";
  _ ← refuse (negb (startswith_bytes data (text "bplist00"))) "Catacomb must be a binary plist";
  root ← load_plist plist_loads (cerr "Catacomb is not a valid binary plist") data;
  match root with
  | PDict root =>
      _ ← refuse (negb (keys_are root ROOT_KEYS)) "Catacomb root schema is unknown";
      _ ← refuse (negb (eq_int (member root "$version") 100000)
                  || negb (eq_text (member root "$archiver") "NSKeyedArchiver")) "unsupported keyed-archive version";
      match member root "$top" with
      | PDict top =>
          _ ← refuse (negb (keys_are top TOP_KEYS)) "user Catacomb top schema is unknown";
          match member root "$objects" with
          | PList objects =>
              _ ← refuse (negb ((1 <=? length objects) && (length objects <=? MAX_OBJECTS))%nat)
                    "keyed-archive object count is outside policy";
              Ok (top, objects)
          | _ => Raise (cerr "keyed-archive object count is outside policy")
          end
      | _ => Raise (cerr "user Catacomb top schema is unknown")
      end
  | _ => Raise (cerr "Catacomb root schema is unknown")
  end.

Definition decode_user_catacomb (data : bytes) (expected_user_id : Z) : result UserCatacomb :=
  '(top, objects) ← user_root data; read_table objects top expected_user_id.

(** [uuid.UUID(text).bytes] *)
Definition uuid_bytes (s : string) : result bytes :=
  match uuid_UUID s with
  | Some z => Ok (be_pack 16 z)
  | None => raise ValueError "badly formed hexadecimal UUID string"
  end.

Definition class_descriptor (name : string) : plist :=
  PDict [("$classname", PStr name); ("$classes", PList (PStr <$> default [] (CLASS_CHAINS name)))].
Definition uid (i : nat) : plist := PUid (Z.of_nat i).

(** The fixed part of the table; [references] is the list of the identity
    array, which the loop over the identities fills. *)
Definition fixed_objects (secure account keybag : bytes) (references : list plist) : list plist :=
  [PStr "$null";
   PDict [("NS.data", PBytes secure); ("$class", uid 2)];
   class_descriptor "NSMutableData";
   PDict [("NS.objects", PList references); ("$class", uid 4)];
   class_descriptor "NSMutableArray"; class_descriptor "BiometricKitIdentity"; class_descriptor "NSDate";
   class_descriptor "BiometricKitAccessory"; class_descriptor "BiometricKitAccessoryGroup";
   class_descriptor "NSUUID";
   PStr "Builtin";
   PDict [("BKAccessoryGroupName", uid 10); ("BKAccessoryGroupType", PInt 1);
          ("BKAccessoryGroupUUID", PBytes (zeros 16)); ("$class", uid 8)];
   PDict [("BKAccessoryUUID", PBytes (zeros 16)); ("BKAccessoryFlags", PInt 6); ("BKAccessoryName", uid 10);
          ("BKAccessoryType", PInt 1); ("BKAccessoryGroup", uid 11); ("$class", uid 7)];
   PDict [("NS.uuidbytes", PBytes account); ("$class", uid 9)];
   PDict [("NS.uuidbytes", PBytes keybag); ("$class", uid 9)]].

(** The objects of one identity, the first of them at [index]. *)
Definition identity_objects (index : nat) (i : Identity) (raw : bytes) : list plist :=
  [PStr (id_name i);
   PDict [("NS.time", PFloat (id_creation_time i)); ("$class", uid 6)];
   PDict [("BKIdentityMatchCount", PInt (id_match_count i)); ("BKIdentityCreationTime", uid (index + 1));
          ("BKIdentityEntityNumber", PInt (id_entity i)); ("BKIdentityUUID", PBytes raw);
          ("BKIdentityFlags", PInt (id_flags i));
          ("BKIdentityMatchCountContinuous", PInt (id_continuous_match_count i));
          ("BKIdentityName", uid index); ("BKIdentityType", PInt (id_type i));
          ("BKIdentityAccessory", uid 12); ("BKIdentityUpdateCount", PInt (id_update_count i));
          ("BKIdentityUserID", PInt (id_user_id i)); ("BKIdentityAttribute", PInt (id_attribute i));
          ("$class", uid 5)]].

(** The loop over the identities: the objects it appends and the references
    it collects; [start] objects precede them. *)
Fixpoint add_identities (start : nat) (identities : list Identity) : result (list plist * list plist) :=
  match identities with
  | [] => Ok ([], [])
  | i :: identities =>
      raw ← uuid_bytes (id_uuid i);
      '(objects, references) ← add_identities (start + 3) identities;
      Ok (identity_objects start i raw ++ objects, uid (start + 2) :: references)
  end.

Definition user_top (expected_user_id : Z) : list (string * plist) :=
  [("CatacombVersion", PInt 0x30000); ("CatacombSecureData", uid 1); ("CatacombUserKeybagUUID", uid 14);
   ("CatacombUserID", PInt expected_user_id); ("CatacombIdentityList", uid 3); ("CatacombUserUUID", uid 13)].
Definition archive_root (top : list (string * plist)) (objects : list plist) : plist :=
  PDict [("$version", PInt 100000); ("$archiver", PStr "NSKeyedArchiver"); ("$top", PDict top);
         ("$objects", PList objects)].

(** [_build_root] *)
Definition build_root (c : UserCatacomb) (identities : list Identity) (secure_data : option bytes) : result plist :=
  account ← uuid_bytes (uc_account_uuid c);
  keybag ← uuid_bytes (uc_keybag_uuid c);
  '(objects, references) ← add_identities 15 identities;
  let secure := default (uc_secure_data c) secure_data in
  Ok (archive_root (user_top (uc_expected_user_id c)) (fixed_objects secure account keybag references ++ objects)).

(** [_encode_and_verify] *)
Definition encode_and_verify (c : UserCatacomb) (root : plist) (expected_identities : list Identity)
    (expected_secure_data : option bytes) : result bytes :=
  data ← plist_dumps root;
  decoded ← decode_user_catacomb data (uc_expected_user_id c);
  let expected_secure := default (uc_secure_data c) expected_secure_data in
  _ ← refuse (negb (bool_decide (uc_secure_data decoded = expected_secure))) "encoder changed opaque secure data";
  _ ← refuse (negb (String.eqb (uc_account_uuid decoded) (uc_account_uuid c))
              || negb (String.eqb (uc_keybag_uuid decoded) (uc_keybag_uuid c)))
        "encoder changed account or keybag binding";
  oracle ← read_user plist_loads data (uc_expected_user_id c);
  _ ← refuse (negb (String.eqb (om_account_uuid oracle) (uc_account_uuid c))
              || negb (String.eqb (om_keybag_uuid oracle) (uc_keybag_uuid c))
              || negb (String.eqb (om_secure_sha256 oracle) (secure_digest expected_secure))
              || negb (om_secure_length oracle =? length expected_secure)%nat
              || negb (identities_eqb (om_identities oracle) expected_identities))
        "independent user read-back mismatch";
  Ok data.

Definition write_user (c : UserCatacomb) (identities : list Identity) (secure_data : option bytes) : result bytes :=
  root ← build_root c identities secure_data; encode_and_verify c root identities secure_data.

(** ** Edits *)

(** [_identity_index] *)
Definition identity_index (c : UserCatacomb) (identity_uuid : string) : result nat :=
  match uuid_UUID identity_uuid with
  | None => raise ValueError "badly formed hexadecimal UUID string"
  | Some z =>
      match filter (λ p, id_uuid p.2 = uuid_str z) (zip (uc_identity_indices c) (uc_identities c)) with
      | [(index, _)] => Ok index
      | _ => raise CatacombCodecError "target identity is not uniquely present"
      end
  end.

Definition valid_name (name : string) : bool :=
  negb (String.eqb name "") && (Z.of_nat (utf8_length name) <=? MAX_STRING_BYTES).

Definition set_name (name : string) (i : Identity) : Identity :=
  MkIdentity (id_uuid i) (id_user_id i) (id_entity i) name (id_type i) (id_flags i) (id_attribute i)
    (id_match_count i) (id_continuous_match_count i) (id_update_count i) (id_creation_time i).

(** [list.index] *)
Fixpoint position_of (index : nat) (l : list nat) : option nat :=
  match l with [] => None | i :: l => if (i =? index)%nat then Some 0%nat else S <$> position_of index l end.

Definition rename (c : UserCatacomb) (identity_uuid name : string) : result bytes :=
  _ ← refuse (negb (valid_name name)) "new identity name is invalid";
  index ← identity_index c identity_uuid;
  match position_of index (uc_identity_indices c) with
  | None => raise ValueError "is not in list"
  | Some position => write_user c (alter (set_name name) position (uc_identities c)) None
  end.

Definition delete (c : UserCatacomb) (identity_uuid : string) : result bytes :=
  _ ← refuse (length (uc_identities c) <=? 1)%nat "refusing to encode an unverified zero-identity user component";
  target ← identity_index c identity_uuid;
  write_user c (filter (λ p, p.1 ≠ target) (zip (uc_identity_indices c) (uc_identities c))).*2 None.

(** A [datetime]: whether it has a time zone, and the seconds since the Apple
    epoch [total_seconds] computes. *)
Record datetime := Datetime { dt_aware : bool; dt_seconds : spec_float }.

(** The identity both insertions derive from the first one. *)
Definition fresh_identity (c : UserCatacomb) (prototype : Identity) (uuid : string) (entity : Z) (name : string)
    (seconds : spec_float) : Identity :=
  MkIdentity uuid (uc_expected_user_id c) entity name (id_type prototype) (id_flags prototype)
    (id_attribute prototype) 0 0 1 seconds.

Definition created_seconds (created : datetime) : result spec_float :=
  _ ← refuse (negb (dt_aware created)) "creation time must be timezone-aware";
  _ ← refuse (negb (isfinite (dt_seconds created))) "creation time is invalid";
  Ok (dt_seconds created).

Definition replace_only_for_absent_sep (c : UserCatacomb) (identity_uuid : string) (entity : Z) (name : string)
    (created : datetime) (absent_sep_attested : bool) : result bytes :=
  match absent_sep_attested, uc_identities c with
  | true, [prototype] =>
      z ← from_option Ok (raise ValueError "badly formed hexadecimal UUID string") (uuid_UUID identity_uuid);
      entity ← catacomb_int (PInt entity) "identity entity";
      _ ← refuse (negb (valid_name name)) "new identity name is invalid";
      seconds ← created_seconds created;
      write_user c [fresh_identity c prototype (uuid_str z) entity name seconds] None
  | _, _ => raise CatacombCodecError "absent-SEP replacement requires one explicitly attested template"
  end.

(** [now] is [datetime.now(timezone.utc)]. *)
Definition add (c : UserCatacomb) (identity_uuid : string) (entity : Z) (name : string) (created : option datetime)
    (now : datetime) : result bytes :=
  match uc_identities c with
  | [] => raise CatacombCodecError "cannot derive built-in sensor metadata from an empty fixture"
  | prototype :: _ =>
      _ ← refuse (MAX_IDENTITIES <=? length (uc_identities c))%nat "identity capacity policy reached";
      z ← from_option Ok (raise ValueError "badly formed hexadecimal UUID string") (uuid_UUID identity_uuid);
      _ ← refuse (bool_decide (uuid_str z ∈ id_uuid <$> uc_identities c)) "identity UUID already exists";
      entity ← catacomb_int (PInt entity) "identity entity";
      _ ← refuse (bool_decide (entity ∈ id_entity <$> uc_identities c)) "identity entity already exists";
      _ ← refuse (negb (valid_name name)) "new identity name is invalid";
      seconds ← created_seconds (default now created);
      write_user c (uc_identities c ++ [fresh_identity c prototype (uuid_str z) entity name seconds]) None
  end.

Definition replace_secure_data (c : UserCatacomb) (secure_data : bytes) : result bytes :=
  secure ← secure_envelope (PBytes secure_data) (text "LTFC") "replacement Catacomb secure data";
  write_user c (uc_identities c) (Some secure).

(** ** Master and bio-lockout components *)

Definition load_component_root (data : bytes) (top_keys : gset string) (object_count : nat)
    : result (list (string * plist) * list plist) :=
  _ ← refuse (negb ((0 <? Z.of_nat (length data)) && (Z.of_nat (length data) <=? MAX_FILE_BYTES))
              || negb (startswith_bytes data (text "bplist00"))) "component is not a bounded binary plist";
  root ← load_plist plist_loads (cerr "component is not a valid binary plist") data;
  match root with
  | PDict root =>
      match member root "$top", member root "$objects" with
      | PDict top, PList objects =>
          _ ← refuse (negb (keys_are root ROOT_KEYS) || negb (eq_int (member root "$version") 100000)
                      || negb (eq_text (member root "$archiver") "NSKeyedArchiver") || negb (keys_are top top_keys)
                      || negb (length objects =? object_count)%nat || negb (eq_text (object_at objects 0) "$null"))
                "component keyed-archive schema is unknown";
          Ok (top, objects)
      | _, _ => Raise (cerr "component keyed-archive schema is unknown")
      end
  | _ => Raise (cerr "component keyed-archive schema is unknown")
  end.

(** [MasterCatacomb.__init__] *)
Definition decode_master_catacomb (data : bytes) : result MasterCatacomb :=
  '(top, objects) ← load_component_root data MASTER_TOP_KEYS 5;
  _ ← refuse (negb (eq_int (member top "CatacombVersion") 0x30000) || negb (eq_int (member top "CatacombUserID") (-1)))
        "unsupported master Catacomb identity/version";
  count ← catacomb_int (member top "CatacombEnrollmentCount") "master enrollment count";
  secure ← component_data objects (member top "CatacombSecureData") (text "LTFC");
  v ← component_object objects (member top "CatacombCurrentDate") "master date";
  date ← component_classed objects v {["NS.time"; "$class"]} "NSDate" "master date" (cerr "master date is malformed");
  current ← finite_number (cerr "master date is malformed") (member date "NS.time");
  _ ← require_component_reachability objects top;
  Ok (MkMaster count secure current).

Definition master_root (secure : bytes) (count : Z) (current : spec_float) : plist :=
  archive_root
    [("CatacombVersion", PInt 0x30000); ("CatacombSecureData", uid 1); ("CatacombCurrentDate", uid 3);
     ("CatacombUserID", PInt (-1)); ("CatacombEnrollmentCount", PInt count)]
    [PStr "$null"; PDict [("NS.data", PBytes secure); ("$class", uid 2)]; class_descriptor "NSMutableData";
     PDict [("NS.time", PFloat current); ("$class", uid 4)]; class_descriptor "NSDate"].

(** [MasterCatacomb.encode] *)
Definition master_encode (c : MasterCatacomb) (secure_data : option bytes) (enrollment_count : option Z)
    (current_time : option spec_float) : result bytes :=
  secure ← match secure_data with
           | None => Ok (mc_secure_data c)
           | Some s => secure_envelope (PBytes s) (text "LTFC") "replacement master secure data"
           end;
  count ← match enrollment_count with
          | None => Ok (mc_enrollment_count c)
          | Some n => catacomb_int (PInt n) "master enrollment count"
          end;
  let current := default (mc_current_time c) current_time in
  _ ← refuse (negb (isfinite current)) "master date is invalid";
  output ← plist_dumps (master_root secure count current);
  decoded ← decode_master_catacomb output;
  _ ← refuse (negb (bool_decide (mc_secure_data decoded = secure)) || negb (mc_enrollment_count decoded =? count)
              || negb (SFeqb (mc_current_time decoded) current)) "master encoder read-back mismatch";
  oracle ← read_master plist_loads output;
  _ ← refuse (negb (String.eqb (mm_secure_sha256 oracle) (secure_digest secure))
              || negb (mm_secure_length oracle =? length secure)%nat || negb (mm_enrollment_count oracle =? count)
              || negb (SFeqb (mm_current_time oracle) current)) "independent master read-back mismatch";
  Ok output.

(** [BioLockoutCatacomb.__init__], whose only field is the secure data. *)
Definition decode_biolockout_catacomb (data : bytes) : result bytes :=
  '(top, objects) ← load_component_root data BIOLOCKOUT_TOP_KEYS 3;
  _ ← refuse (negb (eq_int (member top "BioLockoutRecordVersion") 0x10000)) "unsupported bio-lockout version";
  secure ← component_data objects (member top "BioLockoutRecordSecureData") (text "HRLB");
  _ ← require_component_reachability objects top;
  Ok secure.

Definition biolockout_root (secure : bytes) : plist :=
  archive_root [("BioLockoutRecordSecureData", uid 1); ("BioLockoutRecordVersion", PInt 0x10000)]
    [PStr "$null"; PDict [("NS.data", PBytes secure); ("$class", uid 2)]; class_descriptor "NSMutableData"].

(** [BioLockoutCatacomb.encode] *)
Definition biolockout_encode (c : bytes) (secure_data : option bytes) : result bytes :=
  secure ← match secure_data with
           | None => Ok c
           | Some s => secure_envelope (PBytes s) (text "HRLB") "replacement bio-lockout secure data"
           end;
  output ← plist_dumps (biolockout_root secure);
  decoded ← decode_biolockout_catacomb output;
  _ ← refuse (negb (bool_decide (decoded = secure))) "bio-lockout encoder read-back mismatch";
  oracle ← read_biolockout plist_loads output;
  _ ← refuse (negb (String.eqb (bm_secure_sha256 oracle) (secure_digest secure))
              || negb (bm_secure_length oracle =? length secure)%nat) "independent bio-lockout read-back mismatch";
  Ok output.
End codec.
