(* ===== verification/CatacombDecode.v ===== *)
(** * Decoded Catacomb archives

    What the codec establishes of an archive it decodes, and that the
    independent reader sees the same in it. *)
From S2P Require Import Prelude PyValue Sha256 UuidFacts Json Effect Bytes KeyedArchive CatacombOracle CatacombCodec.

#[local] Open Scope Z_scope.

Lemma mapM_Ok {A B} (f : A → result B) l k : mapM f l = Ok k ↔ Forall2 (λ x y, f x = Ok y) l k.
Proof.
  split.
  - revert k. induction l as [|x l IH]; intros k; simpl; [intros [= <-]; constructor|].
    rewrite bind_Ok. intros (y & Hy & (ys & Hys & [= <-])%bind_Ok). constructor; [done|by apply IH].
  - induction 1 as [|x y l k Hxy _ IH]; simpl; [done|]. by rewrite Hxy, IH.
Qed.

(** Two sets of keys written down in different orders. *)
#[local] Ltac same_keys := apply (bool_decide_unpack _); vm_compute; exact I.

(** ** Readers that do not name their error agree *)
Section readers.
Context (objects : list plist).

Lemma ref_index_agree bad bad' v i : ref_index objects bad v = Ok i → ref_index objects bad' v = Ok i.
Proof. destruct v; simpl; try done. by destruct (_ && _). Qed.

Lemma finite_number_agree bad bad' v f : finite_number bad v = Ok f → finite_number bad' v = Ok f.
Proof. destruct v; simpl; try done. by destruct (isfinite _). Qed.

Lemma finite_number_finite bad v f : finite_number bad v = Ok f → isfinite f = true.
Proof. destruct v; simpl; try done; destruct (isfinite _) eqn:?; naive_solver. Qed.

Lemma object_get reference field field' v :
  c_object objects reference field = Ok v → g_get objects reference field' = Ok v.
Proof.
  unfold c_object, g_get, c_index, g_index. intros (i & Hi & [= <-])%bind_Ok.
  by rewrite (ref_index_agree _ _ _ _ Hi).
Qed.

(** The class of an object is what its descriptor says. *)
Lemma class_name_Ok d field name : class_name objects d field = Ok name →
  ∃ c classes chain, c_object objects (member d "$class") (field +:+ " class") = Ok (PDict c)
    ∧ keys_are c {["$classname"; "$classes"]} = true ∧ member c "$classname" = PStr name
    ∧ member c "$classes" = PList classes ∧ CLASS_CHAINS name = Some chain ∧ eq_texts classes chain = true
    ∧ name ∈ ALLOWED_CLASSES.
Proof.
  unfold class_name. intros (v & Hv & H)%bind_Ok. destruct v as [| | | | | | | | |c]; try done.
  destruct (member c "$classname") as [| | | |s| | | | |] eqn:Hn; try done.
  destruct (member c "$classes") as [| | | | | | | |classes|] eqn:Hc; try done.
  apply bind_Ok in H as (u & H1 & (u' & H2 & [= ->])%bind_Ok).
  destruct (_ || _) eqn:Hor in H1; [done|]. apply orb_false_iff in Hor as [[Hk _]%orb_false_iff Hch].
  destruct (CLASS_CHAINS name) as [chain|] eqn:Hchain; [|done].
  exists c, classes, chain. rewrite negb_false_iff in Hk, Hch. apply fail_if_Ok, negb_false_iff, bool_decide_eq_true in H2.
  repeat split; done.
Qed.

Lemma c_classed_Ok v keys name field bad d : c_classed objects v keys name field bad = Ok d →
  v = PDict d ∧ keys_are d keys = true ∧ class_name objects d field = Ok name.
Proof.
  unfold c_classed. destruct v as [| | | | | | | | |d']; try done.
  intros (u & Hk & (actual & Hc & (u' & He & [= ->])%bind_Ok)%bind_Ok)%bind_Ok.
  destruct (keys_are d keys); [|done]. destruct (String.eqb_spec actual name) as [->|]; [|done]. done.
Qed.

Lemma classed_agree reference v keys keys' name field field' field'' bad d :
  c_object objects reference field = Ok v → c_classed objects v keys name field' bad = Ok d →
  keys = {["$class"]} ∪ keys' → g_classed objects reference name keys' field'' = Ok d.
Proof.
  intros Hv (-> & Hk & Hc)%c_classed_Ok ->. unfold g_classed.
  assert (Huid : ∃ n, reference = PUid n).
  { unfold c_object, c_index in Hv. apply bind_Ok in Hv as (i & Hi & _). destruct reference; try done. eauto. }
  destruct Huid as [n ->]. rewrite (object_get _ _ field'' _ Hv). simpl. rewrite Hk. simpl.
  apply class_name_Ok in Hc as (c & classes & chain & Hd & Hck & Hn & Hcl & Hch & Heq & _).
  rewrite (object_get _ _ (field'' +:+ " class") _ Hd). simpl. rewrite Hck, Hn, Hcl. simpl.
  replace (CHAINS name) with (Some chain) by (rewrite <-Hch; done).
  by rewrite String.eqb_refl, Heq.
Qed.

Lemma integer_agree v field field' z : catacomb_int v field = Ok z → g_integer v field' = Ok z.
Proof. destruct v; simpl; try done. by destruct (_ && _). Qed.

Lemma catacomb_int_Ok v field z : catacomb_int v field = Ok z → v = PInt z ∧ 0 ≤ z ≤ 0xFFFFFFFF.
Proof.
  destruct v; simpl; try done. intros H. ok_inv. split; [done|]. lia.
Qed.

Lemma uuid_agree v field field' s : catacomb_uuid v field = Ok s → g_raw_uuid v field' = Ok s.
Proof. destruct v; simpl; try done. by destruct (_ =? _)%nat. Qed.

Lemma string_agree reference field field' s :
  c_string objects reference field = Ok s → g_text objects reference field' = Ok s.
Proof.
  unfold c_string, g_text. intros (v & Hv & H)%bind_Ok. rewrite (object_get _ _ field' _ Hv). simpl.
  destruct v; try done. unfold MAX_STRING_BYTES in H. by destruct (1024 <? _).
Qed.

Lemma archived_uuid_agree reference field field' s :
  c_archived_uuid objects reference field = Ok s → g_archived_uuid objects reference field' = Ok s.
Proof.
  unfold c_archived_uuid, g_archived_uuid. intros (v & Hv & (d & Hd & Hs)%bind_Ok)%bind_Ok.
  rewrite (classed_agree _ _ _ {["NS.uuidbytes"]} _ _ _ field' _ _ Hv Hd) by done. by apply (uuid_agree _ _ _ _ Hs).
Qed.

Lemma date_agree reference field f : c_date objects reference = Ok f → g_date objects reference field = Ok f.
Proof.
  unfold c_date, g_date. intros (v & Hv & (d & Hd & Hf)%bind_Ok)%bind_Ok.
  rewrite (classed_agree _ _ _ {["NS.time"]} _ _ _ field _ _ Hv Hd) by done. by apply (finite_number_agree _ _ _ _ Hf).
Qed.

Lemma secure_envelope_Ok v magic field data : secure_envelope v magic field = Ok data →
  v = PBytes data ∧ 16 ≤ Z.of_nat (length data) ≤ MAX_FILE_BYTES ∧ take 4 data = magic.
Proof.
  destruct v; simpl; try done. intros H. ok_inv. split; [done|]. rewrite bool_decide_eq_true in *. split; [lia|done].
Qed.

Lemma secure_data_agree reference field data :
  c_secure_data objects reference = Ok data → g_data objects reference (text "LTFC") field = Ok data.
Proof.
  unfold c_secure_data, g_data. intros (v & Hv & (d & Hd & H)%bind_Ok)%bind_Ok.
  rewrite (classed_agree _ _ _ {["NS.data"]} _ _ _ field _ _ Hv Hd) by done. simpl.
  destruct (member d "NS.data"); try done. apply bind_Ok in H as (u & _ & ([= ->] & Hl & Hm)%secure_envelope_Ok).
  unfold MAX_FILE_BYTES in Hl. rewrite (bool_decide_eq_true_2 _ Hm).
  by rewrite !(proj2 (Z.leb_le _ _)) by lia.
Qed.

Lemma accessory_agree reference : validate_accessory objects reference = Ok tt →
  g_accessory objects reference = Ok builtin_accessory.
Proof.
  unfold validate_accessory, g_accessory.
  intros (v & Hv & (a & Ha & (uuid & Hu & (flags & Hf & (type & Ht & (name & Hn & (g & Hg & (group & Hgr &
    (guuid & Hgu & (gtype & Hgt & (gname & Hgn & H)%bind_Ok)%bind_Ok)%bind_Ok)%bind_Ok)%bind_Ok)%bind_Ok)%bind_Ok)%bind_Ok)%bind_Ok)%bind_Ok)%bind_Ok.
  apply fail_if_Ok, negb_false_iff in H. ok_inv.
  rewrite (classed_agree _ _ _ _ _ _ _ "accessory" _ _ Hv Ha) by same_keys. cbn [mbind result_bind].
  rewrite (classed_agree _ _ _ _ _ _ _ "accessory group" _ _ Hg Hgr) by same_keys. cbn [mbind result_bind].
  rewrite (uuid_agree _ _ "accessory UUID" _ Hu), (integer_agree _ _ "accessory flags" _ Hf). cbn [mbind result_bind].
  rewrite (string_agree _ _ "accessory name" _ Hn), (integer_agree _ _ "accessory type" _ Ht). cbn [mbind result_bind].
  rewrite (uuid_agree _ _ "group UUID" _ Hgu), (string_agree _ _ "group name" _ Hgn). cbn [mbind result_bind].
  rewrite (integer_agree _ _ "group type" _ Hgt). cbn [mbind result_bind].
  repeat match goal with
  | H : (_ =? _) = true |- _ => apply Z.eqb_eq in H
  | H : String.eqb _ _ = true |- _ => apply String.eqb_eq in H
  | H : eq_bytes ?v _ = true, H' : catacomb_uuid ?v _ = Ok _ |- _ =>
      destruct v; try discriminate H; apply bool_decide_eq_true in H; subst; injection H' as <-
  end. subst. done.
Qed.

Lemma identity_agree expected reference index i : c_index objects reference "identity" = Ok index →
  c_identity objects expected index = Ok i →
  ∃ j, accessory_index objects index = Ok j ∧ g_identity objects expected reference = Ok (i, (j, builtin_accessory)).
Proof.
  unfold c_identity, g_identity. intros Hx (d & Hd & H)%bind_Ok.
  assert (Hv : c_object objects reference "identity" = Ok (object_at objects index)) by (unfold c_object; by rewrite Hx).
  pose proof (c_classed_Ok _ _ _ _ _ _ Hd) as (Hobj & _ & _).
  rewrite (classed_agree _ _ _ ORACLE_IDENTITY_KEYS _ _ _ "identity" _ _ Hv Hd) by same_keys.
  cbn [mbind result_bind].
  apply bind_Ok in H as (user & Hu & (u1 & Hm & (u2 & Ha & H)%bind_Ok)%bind_Ok).
  rewrite (integer_agree _ _ "identity user ID" _ Hu). cbn [mbind result_bind]. apply fail_if_Ok in Hm. rewrite Hm. cbn [fail_if mbind result_bind].
  destruct u2. rewrite (accessory_agree _ Ha). cbn [mbind result_bind].
  assert (Hidx : ∃ j, c_index objects (member d "BKIdentityAccessory") "identity accessory" = Ok j).
  { unfold validate_accessory, c_object in Ha. apply bind_Ok in Ha as (v & (j & Hj & _)%bind_Ok & _). eauto. }
  destruct Hidx as [j Hj]. exists j. split; [unfold accessory_index; by rewrite Hobj|].
  unfold g_index. unfold c_index in Hj. rewrite (ref_index_agree _ _ _ _ Hj).
  cbn [mbind result_bind].
  apply bind_Ok in H as (uuid & H1 & (entity & H2 & (name & H3 & (type & H4 & (flags & H5 & (attribute & H6 & (count & H7 &
    (continuous & H8 & (update & H9 & (created & H10 & [= <-])%bind_Ok)%bind_Ok)%bind_Ok)%bind_Ok)%bind_Ok)%bind_Ok)%bind_Ok)%bind_Ok)%bind_Ok).
  rewrite (uuid_agree _ _ "identity UUID" _ H1), (integer_agree _ _ "identity entity" _ H2). cbn [mbind result_bind].
  rewrite (string_agree _ _ "identity name" _ H3), (integer_agree _ _ "identity type" _ H4). cbn [mbind result_bind].
  rewrite (integer_agree _ _ "identity flags" _ H5), (integer_agree _ _ "identity attribute" _ H6). cbn [mbind result_bind].
  rewrite (integer_agree _ _ "match count" _ H7), (integer_agree _ _ "continuous match count" _ H8). cbn [mbind result_bind].
  rewrite (integer_agree _ _ "update count" _ H9). cbn [mbind result_bind]. by rewrite (date_agree _ "creation time" _ H10).
Qed.

Lemma identities_agree expected references indices identities :
  Forall2 (λ v i, c_index objects v "identity" = Ok i) references indices →
  Forall2 (λ i x, c_identity objects expected i = Ok x) indices identities →
  ∃ js, mapM (accessory_index objects) indices = Ok js
    ∧ mapM (g_identity objects expected) references
        = Ok (zip identities (zip js (replicate (length identities) builtin_accessory)))
    ∧ length js = length identities.
Proof.
  intros H. revert identities. induction H as [|v i references indices Hvi _ IH]; intros identities Hid.
  - inversion Hid; subst. by exists [].
  - inversion Hid as [|? x ? xs Hx Hxs]; subst. destruct (IH _ Hxs) as (js & H1 & H2 & H3).
    destruct (identity_agree _ _ _ _ Hvi Hx) as (j & Hj & Hg). exists (j :: js). simpl. rewrite Hj, H1, Hg, H2. simpl.
    split; [done|split; [done|lia]].
Qed.
End readers.


(** ** Decoded archives *)

Definition uuid_text (s : string) : Prop := ∃ z, s = uuid_str z ∧ 0 ≤ z < 2 ^ 128.
Definition uint32 (z : Z) : Prop := 0 ≤ z ≤ 0xFFFFFFFF.

Record identity_ok (user : Z) (i : Identity) : Prop := {
  iok_user : id_user_id i = user;
  iok_uuid : uuid_text (id_uuid i);
  iok_entity : uint32 (id_entity i);
  iok_name : Z.of_nat (utf8_length (id_name i)) ≤ MAX_STRING_BYTES;
  iok_type : uint32 (id_type i);
  iok_flags : uint32 (id_flags i);
  iok_attribute : uint32 (id_attribute i);
  iok_match_count : uint32 (id_match_count i);
  iok_continuous : uint32 (id_continuous_match_count i);
  iok_update_count : uint32 (id_update_count i);
  iok_created : isfinite (id_creation_time i) = true;
}.

Definition envelope_ok (data : bytes) : Prop :=
  16 ≤ Z.of_nat (length data) ≤ MAX_FILE_BYTES ∧ take 4 data = text "LTFC".
Definition identities_ok (user : Z) (l : list Identity) : Prop :=
  Forall (identity_ok user) l ∧ NoDup (id_uuid <$> l) ∧ NoDup (id_entity <$> l) ∧ (length l ≤ MAX_IDENTITIES)%nat.

Record archive_ok (c : UserCatacomb) : Prop := {
  aok_user : uint32 (uc_expected_user_id c);
  aok_secure : envelope_ok (uc_secure_data c);
  aok_account : uuid_text (uc_account_uuid c);
  aok_keybag : uuid_text (uc_keybag_uuid c);
  aok_identities : identities_ok (uc_expected_user_id c) (uc_identities c);
  aok_indices : length (uc_identity_indices c) = length (uc_identities c);
  aok_places : NoDup (uc_identity_indices c);
}.

(** What the independent reader reports of such an archive. *)
Definition model_of (c : UserCatacomb) : user_model :=
  UserModel (uc_account_uuid c) (uc_keybag_uuid c) (secure_digest (uc_secure_data c)) (length (uc_secure_data c))
    (uc_identities c).

Lemma catacomb_uuid_text v field s : catacomb_uuid v field = Ok s → uuid_text s.
Proof.
  destruct v as [| | | | |raw| | | |]; simpl; try done. intros H. ok_inv.
  exists (be_unpack raw). split; [done|]. pose proof (be_unpack_bounds raw) as Hb.
  match goal with H : (_ =? _)%nat = true |- _ => apply Nat.eqb_eq in H; rewrite H in Hb end. exact Hb.
Qed.

Section decode.
Context (plist_loads : bytes → result plist).

Lemma c_string_bound objects v field s : c_string objects v field = Ok s →
  Z.of_nat (utf8_length s) ≤ MAX_STRING_BYTES.
Proof.
  unfold c_string. intros (u & _ & H)%bind_Ok. destruct u; try done. ok_inv. lia.
Qed.

Lemma c_identity_ok objects user index i : c_identity objects user index = Ok i → identity_ok user i.
Proof.
  unfold c_identity. intros (d & _ & (u & _ & (u1 & Hm & (u2 & _ & (uuid & H1 & (entity & H2 & (name & H3 & (type & H4 &
    (flags & H5 & (attribute & H6 & (count & H7 & (continuous & H8 & (update & H9 & (created & H10 & [= <-])%bind_Ok)%bind_Ok)
    %bind_Ok)%bind_Ok)%bind_Ok)%bind_Ok)%bind_Ok)%bind_Ok)%bind_Ok)%bind_Ok)%bind_Ok)%bind_Ok)%bind_Ok)%bind_Ok.
  apply fail_if_Ok, negb_false_iff, Z.eqb_eq in Hm.
  split; simpl; unfold uint32;
    repeat match goal with H : catacomb_int _ _ = Ok _ |- _ => apply catacomb_int_Ok in H as [_ H] end;
    [done|by eapply catacomb_uuid_text|lia|by eapply c_string_bound|lia..|].
  unfold c_date in H10. apply bind_Ok in H10 as (v & _ & (d' & _ & H)%bind_Ok). by eapply finite_number_finite.
Qed.

Lemma mapM_length {A B} (f : A → result B) l k : mapM f l = Ok k → length k = length l.
Proof. intros H%mapM_Ok. symmetry. by apply Forall2_length in H. Qed.

(** The parts of a decoded archive. *)
Lemma read_table_Ok objects top user c : read_table objects top user = Ok c →
  uint32 user ∧ uc_expected_user_id c = user
  ∧ eq_int (member top "CatacombVersion") 0x30000 = true ∧ eq_int (member top "CatacombUserID") user = true
  ∧ validate_all_objects objects = Ok tt ∧ archive_graph objects (PDict top)
  ∧ c_secure_data objects (member top "CatacombSecureData") = Ok (uc_secure_data c)
  ∧ c_archived_uuid objects (member top "CatacombUserUUID") "account UUID" = Ok (uc_account_uuid c)
  ∧ c_archived_uuid objects (member top "CatacombUserKeybagUUID") "keybag UUID" = Ok (uc_keybag_uuid c)
  ∧ c_identity_array objects (member top "CatacombIdentityList") = Ok (uc_array_index c, uc_identity_indices c)
  ∧ mapM (c_identity objects user) (uc_identity_indices c) = Ok (uc_identities c)
  ∧ NoDup (id_uuid <$> uc_identities c) ∧ NoDup (id_entity <$> uc_identities c)
  ∧ ∃ accessories, mapM (accessory_index objects) (uc_identity_indices c) = Ok accessories
      ∧ (size (list_to_set (C := gset nat) accessories) ≤ 1)%nat.
Proof.
  unfold read_table.
  intros (expected & [[= <-] Hu]%catacomb_int_Ok & (u1 & H1 & (u2 & H2 & (u3 & H3 & (u4 & H4 & (secure & H5 & (account & H6 &
    (keybag & H7 & ([array indices] & H8 & (identities & H9 & (u5 & H10 & (u6 & H11 & (accessories & H12 & (u7 & H13 & [= <-])
    %bind_Ok)%bind_Ok)%bind_Ok)%bind_Ok)%bind_Ok)%bind_Ok)%bind_Ok)%bind_Ok)%bind_Ok)%bind_Ok)%bind_Ok)%bind_Ok)%bind_Ok)%bind_Ok.
  destruct u3, u4. apply require_reachable_sound in H4. apply fail_if_Ok in H1, H2, H10, H11, H13.
  rewrite negb_false_iff in H1, H2, H10, H11. rewrite bool_decide_eq_true in H10, H11. apply Nat.ltb_ge in H13.
  simpl. repeat (split; [done|]). eauto.
Qed.

Lemma user_root_Ok data top objects : user_root plist_loads data = Ok (top, objects) →
  bounded_size data = true ∧ startswith_bytes data (text "bplist00") = true
  ∧ ∃ root, plist_loads data = Ok (PDict root) ∧ keys_are root ROOT_KEYS = true
      ∧ eq_int (member root "$version") 100000 = true ∧ eq_text (member root "$archiver") "NSKeyedArchiver" = true
      ∧ member root "$top" = PDict top ∧ keys_are top TOP_KEYS = true ∧ member root "$objects" = PList objects
      ∧ (1 ≤ length objects ≤ 256)%nat.
Proof.
  unfold user_root. intros (u1 & H1 & (u2 & H2 & (v & H3 & H)%bind_Ok)%bind_Ok)%bind_Ok.
  apply fail_if_Ok, negb_false_iff in H1, H2. split; [exact H1|split; [done|]].
  unfold load_plist in H3. apply except_Ok in H3. destruct v as [| | | | | | | | |root]; try done. exists root.
  apply bind_Ok in H as (u4 & H4 & (u5 & H5 & H)%bind_Ok). apply fail_if_Ok in H4, H5.
  apply orb_false_iff in H5 as [H5 H6]. rewrite negb_false_iff in H4, H5, H6.
  destruct (member root "$top") as [| | | | | | | | |top'] eqn:Ht; try done. apply bind_Ok in H as (u7 & H7 & H).
  destruct (member root "$objects") as [| | | | | | | |objects'|] eqn:Ho; try done. apply bind_Ok in H as (u8 & H8 & [= -> ->]).
  apply fail_if_Ok, negb_false_iff in H7, H8. repeat (split; [done|]).
  apply andb_true_iff in H8 as [?%Nat.leb_le ?%Nat.leb_le]. done.
Qed.

Lemma read_table_ok objects top user c :
  read_table objects top user = Ok c → archive_ok c ∧ uc_expected_user_id c = user.
Proof.
  intros H. apply read_table_Ok in H as (Hu & He & _ & _ & _ & _ & Hs & Ha & Hk & Harr & Hid & Hn1 & Hn2 & _).
  split; [|done]. split.
  - by rewrite He.
  - unfold c_secure_data in Hs. apply bind_Ok in Hs as (v & _ & (d & _ & Hs)%bind_Ok).
    destruct (member d "NS.data"); try done. apply bind_Ok in Hs as (u & _ & (_ & ? & ?)%secure_envelope_Ok). done.
  - unfold c_archived_uuid in Ha. apply bind_Ok in Ha as (v & _ & (d & _ & Ha)%bind_Ok). by eapply catacomb_uuid_text.
  - unfold c_archived_uuid in Hk. apply bind_Ok in Hk as (v & _ & (d & _ & Hk)%bind_Ok). by eapply catacomb_uuid_text.
  - rewrite He. split; [|split; [done|split; [done|]]].
    + apply mapM_Ok in Hid. apply Forall_lookup. intros k i Hi.
      destruct (Forall2_lookup_r _ _ _ _ _ Hid Hi) as (ix & _ & ?). by eapply c_identity_ok.
    + rewrite (mapM_length _ _ _ Hid). unfold c_identity_array in Harr.
      apply bind_Ok in Harr as (i & _ & (d & _ & H)%bind_Ok). destruct (member d "NS.objects"); try done.
      apply bind_Ok in H as (u & Hlen & (ix & Hix & [= -> ->])%bind_Ok). apply fail_if_Ok, Nat.ltb_ge in Hlen.
      by rewrite (mapM_length _ _ _ Hix).
  - by rewrite (mapM_length _ _ _ Hid).
  - apply mapM_Ok in Hid. apply NoDup_alt. intros j j' x Hj Hj'.
    destruct (Forall2_lookup_l _ _ _ _ _ Hid Hj) as (i & Hi & H1), (Forall2_lookup_l _ _ _ _ _ Hid Hj') as (i' & Hi' & H2).
    rewrite H1 in H2. injection H2 as <-. apply (NoDup_lookup _ _ _ (id_uuid i) Hn1); rewrite list_lookup_fmap.
    + by rewrite Hi.
    + by rewrite Hi'.
Qed.

(** C35: Every archive the codec accepts is well formed: it belongs to the
    user it was opened for, has a secure envelope within bounds, names at most
    ten identities of that user with distinct UUIDs and entity numbers, and
    every number, text and time of theirs is within its range. *)
Theorem decoded_archive_ok data user c :
  decode_user_catacomb plist_loads data user = Ok c → archive_ok c ∧ uc_expected_user_id c = user.
Proof. unfold decode_user_catacomb. intros ([top objects] & _ & H)%bind_Ok. exact (read_table_ok _ _ _ _ H). Qed.

Lemma forallb_builtin n :
  forallb (λ m, bool_decide (m = builtin_accessory)) (replicate n builtin_accessory) = true.
Proof. induction n as [|n IH]; [done|]. exact IH. Qed.

(** The independent reader accepts a table the codec read. *)
Lemma oracle_reads_table data user top objects c : user_root plist_loads data = Ok (top, objects) →
  read_table objects top user = Ok c → read_user plist_loads data user = Ok (model_of c).
Proof.
  intros Hroot H. apply user_root_Ok in Hroot as (Hb & Hp & root & Hl & Hk & Hv & Har & Ht & Htk & Ho & Hlen).
  apply read_table_Ok in H as (Hu & He & Hver & Hid & Hall & Hg & Hs & Ha & Hkb & Harr & Hids & Hn1 & Hn2 & accs & Hacc & Hsz).
  unfold read_user. assert (Hopen : open_graph plist_loads data = Ok (MkGraph top objects)).
  { unfold open_graph, load_plist. rewrite Hb, Hp, Hl. cbn [negb orb fail_if mbind result_bind except]. rewrite Ht, Ho. unfold ROOT_KEYS in Hk.
    rewrite Hk, Hv, Har. unfold validate_all_objects in Hall.
    apply bind_Ok in Hall as (u & Hnull%fail_if_Ok%negb_false_iff & _). rewrite Hnull.
    rewrite (proj2 (Nat.leb_le 1 _)), (proj2 (Nat.leb_le _ 256)) by lia. cbn [andb negb orb fail_if mbind result_bind].
    unfold g_reachable. by rewrite (require_reachable_complete objects _ _ _ _ Hg). }
  rewrite Hopen. cbn [mbind result_bind g_top g_objects]. unfold TOP_KEYS in Htk. unfold USER_KEYS.
  rewrite Htk, Hver, Hid. cbn [negb orb fail_if mbind result_bind].
  rewrite (secure_data_agree _ _ "user secure data" _ Hs). cbn [mbind result_bind].
  unfold c_identity_array in Harr. apply bind_Ok in Harr as (i & Hi & (d & Hd & H)%bind_Ok).
  assert (Hobj : c_object objects (member top "CatacombIdentityList") "identity list" = Ok (object_at objects i))
    by (unfold c_object; by rewrite Hi).
  rewrite (classed_agree _ _ _ _ {["NS.objects"]} _ _ _ "identity list" _ _ Hobj Hd) by done. cbn [mbind result_bind].
  destruct (member d "NS.objects") as [| | | | | | | |l|]; try done.
  apply bind_Ok in H as (u & Hlt & (ix & Hix & [= -> ->])%bind_Ok). apply fail_if_Ok in Hlt. unfold MAX_IDENTITIES in Hlt.
  rewrite Hlt. cbn [fail_if mbind result_bind].
  destruct (identities_agree objects user l (uc_identity_indices c) (uc_identities c)) as (js & Hjs & Hg' & Hjl);
    [by apply mapM_Ok|by apply mapM_Ok|].
  rewrite Hjs in Hacc. injection Hacc as <-. rewrite Hg'. cbn [mbind result_bind].
  assert (Hz1 : (zip (uc_identities c) (zip js (replicate (length (uc_identities c)) builtin_accessory))).*1 = uc_identities c).
  { apply fst_zip. rewrite length_zip_with, length_replicate. lia. }
  assert (Hz2 : (zip (uc_identities c) (zip js (replicate (length (uc_identities c)) builtin_accessory))).*2
                = zip js (replicate (length (uc_identities c)) builtin_accessory)).
  { apply snd_zip. rewrite length_zip_with, length_replicate. lia. }
  rewrite Hz1, Hz2, fst_zip, snd_zip by (rewrite length_replicate; lia).
  rewrite !bool_decide_eq_true_2 by done. cbn [negb orb fail_if mbind result_bind].
  rewrite (proj2 (Nat.ltb_ge _ _) Hsz). cbn [fail_if mbind result_bind].
  rewrite forallb_builtin.
  cbn [negb fail_if mbind result_bind].
  rewrite (archived_uuid_agree _ _ _ "account UUID" _ Ha), (archived_uuid_agree _ _ _ "keybag UUID" _ Hkb).
  reflexivity.
Qed.

(** C33: The two readers agree: whatever archive the codec decodes, the
    independent reader accepts as well, and reports the same account, key bag,
    secure data and identities. *)
Theorem readers_agree data user c :
  decode_user_catacomb plist_loads data user = Ok c → read_user plist_loads data user = Ok (model_of c).
Proof.
  unfold decode_user_catacomb. intros ([top objects] & Hroot & Htable)%bind_Ok.
  exact (oracle_reads_table _ _ _ _ _ Hroot Htable).
Qed.
End decode.
