(* ===== verification/CatacombWrite.v ===== *)
(** * Written Catacomb archives

    The object table the codec builds is valid, is a graph without cycles, and
    reads back as what was written; so every edit succeeds and does what it
    says. *)
From S2P Require Import Prelude PyValue Sha256 UuidFacts Json Effect Bytes KeyedArchive CatacombOracle CatacombCodec.
From S2P Require Import CatacombDecode.

#[local] Open Scope Z_scope.

(** ** Written archives *)

Definition raw_of (i : Identity) : bytes := be_pack 16 (default 0 (uuid_UUID (id_uuid i))).

Lemma uuid_bytes_text s : uuid_text s → ∃ raw, uuid_bytes s = Ok raw ∧ length raw = 16%nat ∧ uuid_str (be_unpack raw) = s.
Proof.
  intros (z & -> & Hz). exists (be_pack 16 z). unfold uuid_bytes. rewrite uuid_round_trip by done.
  split; [done|split; [apply length_be_pack|]]. by rewrite be_unpack_pack.
Qed.

Lemma uuid_bytes_raw i : uuid_text (id_uuid i) → uuid_bytes (id_uuid i) = Ok (raw_of i).
Proof. intros (z & Hs & Hz). unfold uuid_bytes, raw_of. by rewrite Hs, uuid_round_trip. Qed.

Lemma raw_of_text i : uuid_text (id_uuid i) → length (raw_of i) = 16%nat ∧ uuid_str (be_unpack (raw_of i)) = id_uuid i.
Proof.
  intros Hi. destruct (uuid_bytes_text _ Hi) as (raw & Hr & ? & ?). rewrite (uuid_bytes_raw _ Hi) in Hr.
  by injection Hr as <-.
Qed.

Fixpoint table_tail (start : nat) (ids : list Identity) : list plist :=
  match ids with
  | [] => []
  | i :: ids => identity_objects start i (raw_of i) ++ table_tail (start + 3) ids
  end.
Definition table_indices (n : nat) : list nat := (λ k, 17 + 3 * k)%nat <$> seq 0 n.

Lemma add_identities_Ok ids : Forall (λ i, uuid_text (id_uuid i)) ids → ∀ m,
  add_identities (15 + 3 * m) ids
    = Ok (table_tail (15 + 3 * m) ids, (λ k, uid (17 + 3 * k)%nat) <$> seq m (length ids)).
Proof.
  induction 1 as [|i ids Hi _ IH]; intros m; [done|]. cbn [add_identities].
  rewrite (uuid_bytes_raw _ Hi). cbn [mbind result_bind].
  replace (15 + 3 * m + 3)%nat with (15 + 3 * S m)%nat by lia. rewrite IH. cbn [mbind result_bind length seq fmap list_fmap table_tail].
  replace (15 + 3 * m + 3)%nat with (15 + 3 * S m)%nat by lia.
  by replace (15 + 3 * m + 2)%nat with (17 + 3 * m)%nat by lia.
Qed.

Lemma read_int z field : uint32 z → catacomb_int (PInt z) field = Ok z.
Proof. intros [? ?]. unfold catacomb_int. by rewrite !(proj2 (Z.leb_le _ _)) by lia. Qed.

Section table.
Context (user : Z) (secure account keybag : bytes) (ids : list Identity).
Context (Huser : uint32 user) (Hids : Forall (identity_ok user) ids) (Hlen : (length ids ≤ MAX_IDENTITIES)%nat).

#[local] Abbreviation refs := ((λ k, uid (17 + 3 * k)%nat) <$> seq 0 (length ids)).
Definition table : list plist := fixed_objects secure account keybag refs ++ table_tail 15 ids.

Lemma length_tail start l : length (table_tail start l) = (3 * length l)%nat.
Proof. revert start. induction l as [|i l IH]; intros start; [done|]. cbn [table_tail]. rewrite length_app, IH. simpl. lia. Qed.
Lemma length_table : length table = (15 + 3 * length ids)%nat.
Proof. unfold table. rewrite length_app, length_tail. done. Qed.

Lemma tail_lookup l start k i m : l !! k = Some i → (m < 3)%nat →
  table_tail start l !! (3 * k + m)%nat = identity_objects (start + 3 * k) i (raw_of i) !! m.
Proof.
  revert start k. induction l as [|x l IH]; intros start k Hk Hm; [done|]. cbn [table_tail].
  destruct k as [|k].
  - injection Hk as ->. rewrite lookup_app_l by (simpl; lia). by rewrite Nat.mul_0_r, Nat.add_0_r.
  - rewrite lookup_app_r by (simpl; lia). replace (3 * S k + m - length _)%nat with (3 * k + m)%nat by (simpl; lia).
    rewrite (IH (start + 3)%nat) by done. do 2 f_equal. lia.
Qed.

Lemma table_at k i m : ids !! k = Some i → (m < 3)%nat →
  object_at table (15 + 3 * k + m) = default PNone (identity_objects (15 + 3 * k) i (raw_of i) !! m).
Proof.
  intros Hk Hm. unfold object_at, table. rewrite lookup_app_r by (simpl; lia).
  replace (15 + 3 * k + m - length _)%nat with (3 * k + m)%nat by (simpl; lia).
  by rewrite (tail_lookup _ _ _ _ _ Hk Hm).
Qed.

(** Every place of the table is one of the fixed ones or one of an identity. *)
Lemma table_places j : (j < length table)%nat →
  (j < 15)%nat ∨ ∃ k i m, ids !! k = Some i ∧ (m < 3)%nat ∧ j = (15 + 3 * k + m)%nat.
Proof.
  rewrite length_table. intros Hj. destruct (Nat.lt_ge_cases j 15) as [|Hge]; [by left|right].
  destruct (lookup_lt_is_Some_2 ids ((j - 15) / 3)) as [i Hi].
  { apply Nat.Div0.div_lt_upper_bound. lia. }
  exists ((j - 15) / 3)%nat, i, ((j - 15) mod 3)%nat. split; [done|]. split; [by apply Nat.mod_upper_bound|].
  pose proof (Nat.div_mod_eq (j - 15) 3). lia.
Qed.

Lemma index_uid j field : (j < length table)%nat → c_index table (uid j) field = Ok j.
Proof.
  intros Hj. unfold c_index, uid. apply ref_index_Ok. rewrite Nat2Z.id. split; [lia|done].
Qed.
Lemma object_uid j field : (j < length table)%nat → c_object table (uid j) field = Ok (object_at table j).
Proof. intros Hj. unfold c_object. by rewrite index_uid. Qed.

Lemma fixed_lt j : (j < 15)%nat → (j < length table)%nat.
Proof. rewrite length_table. lia. Qed.

(** The classes the fixed part describes. *)
Lemma class_of j name field d : object_at table j = class_descriptor name → (j < 15)%nat →
  name ∈ ["NSMutableData"; "NSMutableArray"; "BiometricKitIdentity"; "NSDate"; "BiometricKitAccessory";
          "BiometricKitAccessoryGroup"; "NSUUID"] →
  member d "$class" = uid j → class_name table d field = Ok name.
Proof.
  intros Ho Hj Hn Hd. unfold class_name. rewrite Hd, object_uid, Ho by by apply fixed_lt.
  repeat (apply elem_of_cons in Hn as [->|Hn]; [vm_compute; reflexivity|]). by apply not_elem_of_nil in Hn.
Qed.

Lemma classed_of j name field keys d bad : object_at table j = class_descriptor name → (j < 15)%nat →
  name ∈ ["NSMutableData"; "NSMutableArray"; "BiometricKitIdentity"; "NSDate"; "BiometricKitAccessory";
          "BiometricKitAccessoryGroup"; "NSUUID"] →
  member d "$class" = uid j → keys_are d keys = true → c_classed table (PDict d) keys name field bad = Ok d.
Proof.
  intros Ho Hj Hn Hd Hk. unfold c_classed. rewrite Hk. cbn [mbind result_bind].
  rewrite (class_of _ _ field d Ho Hj Hn Hd). cbn [mbind result_bind]. by rewrite String.eqb_refl.
Qed.

#[local] Ltac in_classes := repeat first [apply list_elem_of_here|apply list_elem_of_further].
#[local] Ltac known_class j :=
  rewrite (classed_of j); [|reflexivity|lia|in_classes|reflexivity|vm_compute; reflexivity].

(** *** The checks of every object *)

Definition fine (o : plist) : Prop := ∃ w, (w ≤ 1024)%nat ∧ ∀ n idx, check_object table n (idx, o) = Ok (n + w)%nat.

Lemma fine_text s : Z.of_nat (utf8_length s) ≤ MAX_STRING_BYTES → fine (PStr s).
Proof.
  intros H. exists (utf8_length s). unfold MAX_STRING_BYTES in *. split; [lia|]. intros n idx. unfold check_object, MAX_STRING_BYTES. simpl.
  by rewrite (proj2 (Z.ltb_ge _ _) H).
Qed.

Lemma fine_descriptor name : fine (class_descriptor name).
Proof. exists 0%nat. split; [lia|]. intros n idx. by rewrite Nat.add_0_r. Qed.

Lemma fine_object j name d : object_at table j = class_descriptor name → (j < 15)%nat →
  name ∈ ["NSMutableData"; "NSMutableArray"; "BiometricKitIdentity"; "NSDate"; "BiometricKitAccessory";
          "BiometricKitAccessoryGroup"; "NSUUID"] →
  member d "$class" = uid j → bool_decide ("$class" ∈ keys_of d) = true → fine (PDict d).
Proof.
  intros Ho Hj Hn Hd Hk. exists 0%nat. split; [lia|]. intros n idx. unfold check_object. cbn [snd]. rewrite Hk.
  rewrite (class_of _ _ _ d Ho Hj Hn Hd). by rewrite Nat.add_0_r.
Qed.

#[local] Ltac fine_as j := eapply (fine_object j); [reflexivity|lia|in_classes|reflexivity|vm_compute; reflexivity].

Lemma fine_tail l start : Forall (identity_ok user) l → Forall fine (table_tail start l).
Proof.
  intros Hl. revert start. induction Hl as [|i l Hi _ IH]; intros start; cbn [table_tail]; [constructor|].
  apply Forall_app. split; [|apply IH]. unfold identity_objects.
  constructor; [apply fine_text, Hi|]. constructor; [fine_as 6%nat|]. constructor; [fine_as 5%nat|constructor].
Qed.

Lemma fine_table : Forall fine table.
Proof.
  unfold table. apply Forall_app. split; [|by apply fine_tail]. unfold fixed_objects.
  constructor; [by apply fine_text|]. constructor; [fine_as 2%nat|]. constructor; [apply fine_descriptor|].
  constructor; [fine_as 4%nat|]. do 6 (constructor; [apply fine_descriptor|]). constructor; [by apply fine_text|].
  constructor; [fine_as 8%nat|]. constructor; [fine_as 7%nat|]. constructor; [fine_as 9%nat|].
  constructor; [fine_as 9%nat|constructor].
Qed.

Lemma fine_fold l : Forall fine l → ∀ s n, ∃ w, (w ≤ n + 1024 * length l)%nat
  ∧ fold_result (check_object table) n (zip (seq s (length l)) l) = Ok w.
Proof.
  induction 1 as [|o l (w & Hw & Ho) _ IH]; intros s n; [exists n; split; [lia|done]|].
  cbn [length seq zip zip_with fold_result]. rewrite Ho. cbn [mbind result_bind].
  destruct (IH (S s) (n + w)%nat) as (w' & Hle & Hf). exists w'. split; [lia|done].
Qed.

Lemma table_objects_valid : validate_all_objects table = Ok tt.
Proof.
  unfold validate_all_objects. destruct (fine_fold _ fine_table 0 0) as (w & Hw & Hf). rewrite Hf.
  replace (eq_text (object_at table 0) "$null") with true by done. cbn [negb fail_if mbind result_bind].
  rewrite length_table in Hw. unfold MAX_IDENTITIES, MAX_FILE_BYTES in *.
  by rewrite (proj2 (Z.ltb_ge _ _)) by lia.
Qed.

(** *** The graph *)

(** Objects only refer to objects of a smaller rank. *)
Definition rank (j : nat) : nat :=
  match (j <? 15)%nat, ((j - 15) mod 3)%nat with
  | true, _ => default 0%nat ([0; 1; 0; 5; 0; 0; 0; 0; 0; 0; 0; 2; 3; 1; 1]%nat !! j)
  | false, 0%nat => 0%nat
  | false, 1%nat => 1%nat
  | false, _ => 4%nat
  end.
Lemma rank_tail k m : (m < 3)%nat → rank (15 + 3 * k + m) = match m with 0%nat => 0%nat | 1%nat => 1%nat | _ => 4%nat end.
Proof.
  intros Hm. unfold rank. rewrite (proj2 (Nat.ltb_ge _ _)) by lia.
  replace (15 + 3 * k + m - 15)%nat with (m + k * 3)%nat by lia. rewrite Nat.Div0.mod_add, Nat.mod_small by lia.
  by destruct m as [|[|[|]]]; [..|lia].
Qed.

(** The references of an object of the table. *)
Lemma refs_uids l : uids (PList ((λ k, uid (17 + 3 * k)%nat) <$> l)) = (λ k, Z.of_nat (17 + 3 * k)) <$> l.
Proof. rewrite uids_list. induction l as [|k l IH]; [done|]. exact (f_equal (cons _) IH). Qed.

Definition object_uids (i : nat) : list Z :=
  match i with
  | 1%nat => [2]
  | 3%nat => ((λ k, Z.of_nat (17 + 3 * k)) <$> seq 0 (length ids)) ++ [4]
  | 11%nat => [10; 8]
  | 12%nat => [10; 11; 7]
  | 13%nat | 14%nat => [9]
  | _ => []
  end.
Lemma fixed_uids i : (i < 15)%nat → uids (object_at table i) = object_uids i.
Proof.
  intros Hi. do 3 (destruct i as [|i]; [reflexivity|]). destruct i as [|i].
  - change (uids (PDict [("NS.objects", PList refs); ("$class", uid 4)]) = object_uids 3).
    cbn [object_uids]. rewrite uids_dict. cbn [fmap list_fmap snd mjoin list_join]. by rewrite refs_uids.
  - do 11 (destruct i as [|i]; [reflexivity|]). lia.
Qed.
Lemma tail_uids k i m : ids !! k = Some i → (m < 3)%nat → uids (object_at table (15 + 3 * k + m)) =
  match m with
  | 0%nat => []
  | 1%nat => [6]
  | _ => [Z.of_nat (15 + 3 * k + 1); Z.of_nat (15 + 3 * k); 12; 5]
  end.
Proof. intros Hk Hm. rewrite (table_at _ _ _ Hk Hm). by destruct m as [|[|[|]]]; [..|lia]. Qed.

#[local] Ltac concrete_place :=
  match goal with
  | |- ∃ t, ?z = _ ∧ _ => exists (Z.to_nat z); split; [reflexivity|]; split; [simpl; lia|vm_compute; lia]
  end.

Lemma table_refs j z : z ∈ uids (object_at table j) →
  ∃ t, z = Z.of_nat t ∧ (t < length table)%nat ∧ (rank t < rank j)%nat.
Proof.
  intros Hz. destruct (Nat.lt_ge_cases j (length table)) as [Hj|Hj].
  2: { unfold object_at in Hz. rewrite lookup_ge_None_2 in Hz by done. by apply not_elem_of_nil in Hz. }
  rewrite length_table. destruct (table_places j Hj) as [Hf|(k & i & m & Hk & Hm & ->)].
  - rewrite fixed_uids in Hz by done. destruct (decide (j = 3)%nat) as [->|Hne].
    + cbn [object_uids] in Hz. apply elem_of_app in Hz as [(k & -> & Hk%elem_of_seq)%list_elem_of_fmap|Hz].
      * exists (15 + 3 * k + 2)%nat. rewrite rank_tail by lia. split; [lia|]. split; [lia|]. vm_compute. lia.
      * apply list_elem_of_singleton in Hz as ->. concrete_place.
    + do 15 (destruct j as [|j]; [first [done|cbn [object_uids] in Hz;
        repeat (apply elem_of_cons in Hz as [->|Hz]; [concrete_place|]); by apply not_elem_of_nil in Hz]|]). lia.
  - rewrite (tail_uids _ _ _ Hk Hm) in Hz. rewrite (rank_tail _ _ Hm). pose proof (lookup_lt_Some _ _ _ Hk) as Hkl.
    destruct m as [|[|m]]; [by apply not_elem_of_nil in Hz|..].
    + apply list_elem_of_singleton in Hz as ->. concrete_place.
    + apply elem_of_cons in Hz as [->|Hz]; [exists (15 + 3 * k + 1)%nat; rewrite rank_tail by lia; split; [done|lia]|].
      apply elem_of_cons in Hz as [->|Hz].
      { exists (15 + 3 * k + 0)%nat. rewrite rank_tail by lia. split; [lia|lia]. }
      apply elem_of_cons in Hz as [->|Hz]; [concrete_place|].
      apply list_elem_of_singleton in Hz as ->. concrete_place.
Qed.

Lemma contains_rank i j : contains table i j → (rank j < rank i)%nat.
Proof. intros [_ (t & Ht & _ & Hr)%table_refs]. by apply Nat2Z.inj in Ht as ->. Qed.

Lemma tc_rank i j : tc (contains table) i j → (rank j < rank i)%nat.
Proof. induction 1 as [|? ? ? H%contains_rank]; [by apply contains_rank|lia]. Qed.

#[local] Abbreviation top := (user_top user).
#[local] Abbreviation reached_from_top := (reachable table (PDict top)).

Lemma reach_top j : j ≠ 0%nat → Z.of_nat j ∈ uids (PDict top) → reached_from_top j.
Proof. intros ? ?. exists j. split; [done|apply rtc_refl]. Qed.
Lemma reach_step i j : reached_from_top i → j ≠ 0%nat → Z.of_nat j ∈ uids (object_at table i) → reached_from_top j.
Proof. intros (k & Hk & Hki) ? ?. exists k. split; [done|]. by apply (rtc_r _ i). Qed.

#[local] Ltac in_uids := repeat first [apply list_elem_of_here|apply list_elem_of_further].

Lemma reach_identity k i m : ids !! k = Some i → (m < 3)%nat → reached_from_top (15 + 3 * k + m).
Proof.
  intros Hk Hm. pose proof (lookup_lt_Some _ _ _ Hk) as Hkl.
  assert (H3 : reached_from_top 3) by (apply reach_top; [done|in_uids]).
  assert (Hi : reached_from_top (15 + 3 * k + 2)).
  { apply (reach_step 3); [done|lia|]. rewrite fixed_uids by lia. cbn [object_uids]. apply elem_of_app. left.
    apply list_elem_of_fmap. exists k. split; [lia|]. apply elem_of_seq. lia. }
  destruct m as [|[|[|]]]; [..|done|lia];
    (apply (reach_step (15 + 3 * k + 2)); [done|lia|]; rewrite (tail_uids _ _ 2 Hk) by lia).
  - rewrite Nat.add_0_r. in_uids.
  - in_uids.
Qed.

Lemma table_covered : ids ≠ [] → ∀ j, (0 < j < length table)%nat → reached_from_top j.
Proof.
  intros Hne j [Hj Hlt]. destruct (table_places j Hlt) as [Hf|(k & i & m & Hk & Hm & ->)]; [|by eapply reach_identity].
  destruct (lookup_lt_is_Some_2 ids 0) as [i0 H0]; [apply Nat.neq_0_lt_0; by intros ?%nil_length_inv|].
  assert (Hid : ∀ t, t ≠ 0%nat → Z.of_nat t ∈ [16; 15; 12; 5] → reached_from_top t).
  { intros t Ht Hin. apply (reach_step (15 + 3 * 0 + 2)); [by eapply (reach_identity 0); [|lia]|done|].
    by rewrite (tail_uids _ _ 2 H0) by lia. }
  assert (Hstep : ∀ i t, reached_from_top i → (i < 15)%nat → t ≠ 0%nat → Z.of_nat t ∈ object_uids i → reached_from_top t).
  { intros i t Hi Hi15 Ht Hin. apply (reach_step i); [done|done|]. by rewrite fixed_uids. }
  assert (H1 : reached_from_top 1) by (apply reach_top; [done|in_uids]).
  assert (H3 : reached_from_top 3) by (apply reach_top; [done|in_uids]).
  assert (H13 : reached_from_top 13) by (apply reach_top; [done|in_uids]).
  assert (H12 : reached_from_top 12) by (apply Hid; [done|in_uids]).
  assert (H11 : reached_from_top 11) by (apply (Hstep 12%nat); [done|lia|done|cbn [object_uids]; in_uids]).
  assert (H : j ∈ seq 1 14) by (apply elem_of_seq; lia).
  repeat (apply elem_of_cons in H as [->|H]; [first
    [done
    |apply (Hstep 1%nat); [done|lia|done|cbn [object_uids]; by in_uids]
    |apply (Hstep 3%nat); [done|lia|done|cbn [object_uids]; apply elem_of_app; right; by in_uids]
    |apply (Hstep 12%nat); [done|lia|done|cbn [object_uids]; by in_uids]
    |apply (Hstep 11%nat); [done|lia|done|cbn [object_uids]; by in_uids]
    |apply (Hstep 13%nat); [done|lia|done|cbn [object_uids]; by in_uids]
    |apply Hid; [done|by in_uids]
    |apply (reach_step (15 + 3 * 0 + 1)); [by eapply (reach_identity 0); [|lia]|done|];
       rewrite (tail_uids _ _ 1 H0) by lia; by in_uids
    |apply reach_top; [done|by in_uids]]|]).
  by apply not_elem_of_nil in H.
Qed.

Lemma table_graph : ids ≠ [] → archive_graph table (PDict top).
Proof.
  intros Hne. split.
  - intros z Hz. pose proof length_table. simpl in Hz.
    repeat (apply elem_of_cons in Hz as [->|Hz]; [unfold uid in *; lia|]). by apply not_elem_of_nil in Hz.
  - intros j _ z (t & -> & Ht & _)%table_refs. lia.
  - intros j _ H%tc_rank. lia.
  - by apply table_covered.
Qed.

(** *** Reading the table back *)

Lemma read_secure : envelope_ok secure → c_secure_data table (uid 1) = Ok secure.
Proof.
  intros [Hl Hm]. unfold c_secure_data. rewrite object_uid by (rewrite length_table; lia). cbn [mbind result_bind].
  change (object_at table 1) with (PDict [("NS.data", PBytes secure); ("$class", uid 2)]).
  known_class 2%nat. cbn [mbind result_bind member String.eqb Ascii.eqb Bool.eqb].
  unfold secure_envelope. rewrite !(proj2 (Z.leb_le _ _)) by lia. rewrite bool_decide_eq_true_2 by done. reflexivity.
Qed.

Lemma read_uuid j raw field : (j < 15)%nat → object_at table j = PDict [("NS.uuidbytes", PBytes raw); ("$class", uid 9)] →
  length raw = 16%nat → c_archived_uuid table (uid j) field = Ok (uuid_str (be_unpack raw)).
Proof.
  intros Hj Ho Hl. unfold c_archived_uuid. rewrite object_uid by by apply fixed_lt. cbn [mbind result_bind]. rewrite Ho.
  known_class 9%nat. cbn [mbind result_bind member String.eqb Ascii.eqb Bool.eqb]. unfold catacomb_uuid. by rewrite Hl.
Qed.

Lemma read_array : c_identity_array table (uid 3) = Ok (3%nat, table_indices (length ids)).
Proof.
  unfold c_identity_array. rewrite index_uid by (rewrite length_table; lia). cbn [mbind result_bind].
  change (object_at table 3) with (PDict [("NS.objects", PList refs); ("$class", uid 4)]).
  known_class 4%nat. cbn [mbind result_bind member String.eqb Ascii.eqb Bool.eqb].
  rewrite length_fmap, length_seq, (proj2 (Nat.ltb_ge _ _) Hlen). cbn [fail_if mbind result_bind].
  rewrite (proj2 (mapM_Ok _ refs (table_indices (length ids)))); [done|]. unfold table_indices.
  apply Forall2_fmap, Forall_Forall2_diag, Forall_forall. intros k Hk%elem_of_seq. apply index_uid. rewrite length_table. lia.
Qed.

Lemma read_text j s field : (j < length table)%nat → object_at table j = PStr s →
  Z.of_nat (utf8_length s) ≤ MAX_STRING_BYTES → c_string table (uid j) field = Ok s.
Proof.
  intros Hj Ho Hs. unfold c_string. rewrite object_uid, Ho by done. cbn [mbind result_bind].
  by rewrite (proj2 (Z.ltb_ge _ _) Hs).
Qed.

Lemma zero_uuid field : catacomb_uuid (PBytes (zeros 16)) field = Ok (uuid_str 0).
Proof. reflexivity. Qed.

Lemma read_accessory : validate_accessory table (uid 12) = Ok tt.
Proof.
  unfold validate_accessory. rewrite object_uid by (rewrite length_table; lia). cbn [mbind result_bind].
  change (object_at table 12) with (PDict [("BKAccessoryUUID", PBytes (zeros 16)); ("BKAccessoryFlags", PInt 6);
    ("BKAccessoryName", uid 10); ("BKAccessoryType", PInt 1); ("BKAccessoryGroup", uid 11); ("$class", uid 7)]).
  known_class 7%nat. cbn [mbind result_bind member String.eqb Ascii.eqb Bool.eqb].
  rewrite zero_uuid, (read_int 6), (read_int 1) by (unfold uint32; lia). cbn [mbind result_bind].
  rewrite (read_text 10 "Builtin") by (first [done|rewrite length_table; lia]). cbn [mbind result_bind].
  rewrite object_uid by (rewrite length_table; lia). cbn [mbind result_bind].
  change (object_at table 11) with (PDict [("BKAccessoryGroupName", uid 10); ("BKAccessoryGroupType", PInt 1);
    ("BKAccessoryGroupUUID", PBytes (zeros 16)); ("$class", uid 8)]).
  known_class 8%nat. cbn [mbind result_bind member String.eqb Ascii.eqb Bool.eqb].
  rewrite zero_uuid, (read_int 1) by (unfold uint32; lia). cbn [mbind result_bind].
  rewrite (read_text 10 "Builtin") by (first [done|rewrite length_table; lia]). reflexivity.
Qed.

Lemma read_date j created : (j < length table)%nat → object_at table j = PDict [("NS.time", PFloat created); ("$class", uid 6)] →
  isfinite created = true → c_date table (uid j) = Ok created.
Proof.
  intros Hj Ho Hc. unfold c_date. rewrite object_uid, Ho by done. cbn [mbind result_bind].
  known_class 6%nat. cbn [mbind result_bind member String.eqb Ascii.eqb Bool.eqb finite_number]. by rewrite Hc.
Qed.

Lemma read_identity k i : ids !! k = Some i → c_identity table user (17 + 3 * k) = Ok i ∧ accessory_index table (17 + 3 * k) = Ok 12%nat.
Proof.
  intros Hk. pose proof (lookup_lt_Some _ _ _ Hk) as Hkl. pose proof length_table as Hlt.
  pose proof (proj1 (Forall_lookup _ _) Hids _ _ Hk) as Hi. destruct (raw_of_text i (iok_uuid _ _ Hi)) as [Hraw Huuid].
  assert (Ho : object_at table (17 + 3 * k) = default PNone (identity_objects (15 + 3 * k) i (raw_of i) !! 2%nat)).
  { rewrite <-(table_at k i 2) by (done || lia). f_equal. lia. }
  split; [|unfold accessory_index; rewrite Ho; cbn [identity_objects lookup list_lookup default from_option id];
           cbn [member String.eqb Ascii.eqb Bool.eqb]; by rewrite index_uid by lia].
  unfold c_identity. rewrite Ho. cbn [identity_objects lookup list_lookup default from_option id].
  known_class 5%nat. cbn [mbind result_bind member String.eqb Ascii.eqb Bool.eqb].
  rewrite (iok_user _ _ Hi), (read_int user) by done. cbn [mbind result_bind]. rewrite Z.eqb_refl. cbn [negb fail_if mbind result_bind].
  rewrite read_accessory. cbn [mbind result_bind catacomb_uuid]. rewrite Hraw. cbn [Nat.eqb negb fail_if mbind result_bind].
  rewrite Huuid, (read_int (id_entity i)) by apply Hi. cbn [mbind result_bind].
  rewrite (read_text (15 + 3 * k) (id_name i)); [|lia| |apply Hi].
  2: { rewrite <-(Nat.add_0_r (15 + 3 * k)). by rewrite (table_at k i 0) by (done || lia). }
  cbn [mbind result_bind]. rewrite (read_int (id_type i)) by apply Hi. cbn [mbind result_bind].
  rewrite (read_int (id_flags i)) by apply Hi. cbn [mbind result_bind].
  rewrite (read_int (id_attribute i)) by apply Hi. cbn [mbind result_bind].
  rewrite (read_int (id_match_count i)) by apply Hi. cbn [mbind result_bind].
  rewrite (read_int (id_continuous_match_count i)) by apply Hi. cbn [mbind result_bind].
  rewrite (read_int (id_update_count i)) by apply Hi. cbn [mbind result_bind].
  rewrite (read_date (15 + 3 * k + 1) (id_creation_time i)); [|lia|by rewrite (table_at k i 1) by (done || lia)|apply Hi].
  cbn [mbind result_bind]. rewrite <-(iok_user _ _ Hi). by destruct i.
Qed.

Lemma read_identities : mapM (c_identity table user) (table_indices (length ids)) = Ok ids
  ∧ mapM (accessory_index table) (table_indices (length ids)) = Ok (replicate (length ids) 12%nat).
Proof.
  unfold table_indices. split; apply mapM_Ok, Forall2_fmap_l, Forall2_same_length_lookup_2;
    try by rewrite ?length_replicate, length_seq.
  - intros k x i [Hx ?]%lookup_seq Hi. subst. by apply read_identity.
  - intros k x y [Hx Hlt]%lookup_seq [-> _]%lookup_replicate. subst.
    destruct (lookup_lt_is_Some_2 ids k Hlt) as [i Hi]. by apply (read_identity k i).
Qed.

Lemma replicate_size n : (size (list_to_set (C := gset nat) (replicate n 12%nat)) ≤ 1)%nat.
Proof.
  rewrite <-(size_singleton (C := gset nat) 12%nat). apply subseteq_size.
  intros x (? & _)%elem_of_list_to_set%elem_of_replicate. set_solver.
Qed.

Lemma read_table_back : ids ≠ [] → envelope_ok secure → length account = 16%nat → length keybag = 16%nat →
  NoDup (id_uuid <$> ids) → NoDup (id_entity <$> ids) →
  read_table table top user = Ok (MkUserCatacomb user secure (uuid_str (be_unpack account)) (uuid_str (be_unpack keybag)) 3
                                    (table_indices (length ids)) ids).
Proof.
  intros Hne Hs Ha Hk Hn1 Hn2. unfold read_table. rewrite read_int by done. cbn [mbind result_bind].
  cbn [user_top member String.eqb Ascii.eqb Bool.eqb eq_int]. rewrite !Z.eqb_refl. cbn [negb fail_if mbind result_bind].
  rewrite table_objects_valid. cbn [mbind result_bind].
  unfold validate_reachability. rewrite (require_reachable_complete table _ _ _ _ (table_graph Hne)). cbn [mbind result_bind].
  rewrite (read_secure Hs). cbn [mbind result_bind].
  rewrite (read_uuid 13 account), (read_uuid 14 keybag) by (done || lia). cbn [mbind result_bind].
  rewrite read_array. cbn [mbind result_bind]. destruct read_identities as [-> ->]. cbn [mbind result_bind].
  rewrite !bool_decide_eq_true_2 by done. cbn [negb fail_if mbind result_bind].
  by rewrite (proj2 (Nat.ltb_ge _ _) (replicate_size _)).
Qed.
End table.

(** ** Writing and reading back *)

Lemma SFeqb_finite f : isfinite f = true → SFeqb f f = true.
Proof.
  destruct f as [s| | |s m e]; simpl; try done. intros _. unfold SFeqb, SFcompare.
  destruct s; rewrite ?Z.compare_refl; unfold Pos.compare; by rewrite Pos.compare_cont_refl.
Qed.

Lemma identities_eqb_refl user l : Forall (identity_ok user) l → identities_eqb l l = true.
Proof.
  induction 1 as [|i l Hi _ IH]; [done|]. cbn [identities_eqb]. rewrite IH. unfold identity_eqb.
  rewrite !String.eqb_refl, !Z.eqb_refl. by rewrite (SFeqb_finite _ (iok_created _ _ Hi)).
Qed.

Section write.
Context (plist_dumps : plist → result bytes) (plist_loads : bytes → result plist).

(** [data] is what [plistlib] makes of [root], and reads back. *)
Record plist_encoding (root : plist) (data : bytes) : Prop := {
  enc_dumps : plist_dumps root = Ok data;
  enc_loads : plist_loads data = Ok root;
  enc_size : bounded_size data = true;
  enc_magic : startswith_bytes data (text "bplist00") = true;
}.

Definition rewritten (c : UserCatacomb) (ids : list Identity) (secure_data : option bytes) : UserCatacomb :=
  MkUserCatacomb (uc_expected_user_id c) (default (uc_secure_data c) secure_data) (uc_account_uuid c) (uc_keybag_uuid c) 3
    (table_indices (length ids)) ids.

Lemma build_root_Ok c ids secure_data : archive_ok c → Forall (identity_ok (uc_expected_user_id c)) ids →
  ∃ account keybag, length account = 16%nat ∧ length keybag = 16%nat
    ∧ uuid_str (be_unpack account) = uc_account_uuid c ∧ uuid_str (be_unpack keybag) = uc_keybag_uuid c
    ∧ build_root c ids secure_data = Ok (archive_root (user_top (uc_expected_user_id c))
        (table (default (uc_secure_data c) secure_data) account keybag ids)).
Proof.
  intros Hc Hids. destruct (uuid_bytes_text _ (aok_account _ Hc)) as (account & Ha & Hal & Hat).
  destruct (uuid_bytes_text _ (aok_keybag _ Hc)) as (keybag & Hk & Hkl & Hkt).
  exists account, keybag. repeat (split; [done|]). unfold build_root. rewrite Ha, Hk. cbn [mbind result_bind].
  assert (Hraw : Forall (λ i, uuid_text (id_uuid i)) ids) by (by apply (Forall_impl _ _ _ Hids); intros i []).
  pose proof (add_identities_Ok ids Hraw 0) as Hadd. change (15 + 3 * 0)%nat with 15%nat in Hadd. by rewrite Hadd.
Qed.

Lemma decode_written user secure account keybag ids data :
  uint32 user → identities_ok user ids → ids ≠ [] → envelope_ok secure → length account = 16%nat → length keybag = 16%nat →
  plist_loads data = Ok (archive_root (user_top user) (table secure account keybag ids)) →
  bounded_size data = true → startswith_bytes data (text "bplist00") = true →
  decode_user_catacomb plist_loads data user =
    Ok (MkUserCatacomb user secure (uuid_str (be_unpack account)) (uuid_str (be_unpack keybag)) 3
          (table_indices (length ids)) ids).
Proof.
  intros Hu (Hids & Hn1 & Hn2 & Hlen) Hne Hs Ha Hk Hl Hb Hp. unfold decode_user_catacomb, user_root, load_plist.
  unfold bounded_size in Hb. unfold MAX_FILE_BYTES. rewrite Hb, Hp, Hl. cbn [negb fail_if mbind result_bind except].
  unfold archive_root. replace (keys_are _ ROOT_KEYS) with true by (symmetry; vm_compute; reflexivity).
  cbn [negb fail_if mbind result_bind member String.eqb Ascii.eqb Bool.eqb eq_int eq_text orb]. rewrite Z.eqb_refl.
  cbn [negb fail_if mbind result_bind orb].
  replace (keys_are (user_top user) TOP_KEYS) with true by (symmetry; vm_compute; reflexivity).
  cbn [negb fail_if mbind result_bind]. rewrite length_table by done. unfold MAX_OBJECTS, MAX_IDENTITIES in *.
  rewrite (proj2 (Nat.leb_le 1 _)), (proj2 (Nat.leb_le _ 256)) by lia. cbn [andb negb fail_if mbind result_bind].
  by apply read_table_back.
Qed.

Lemma write_user_Ok c ids secure_data root data :
  archive_ok c → identities_ok (uc_expected_user_id c) ids → ids ≠ [] → envelope_ok (default (uc_secure_data c) secure_data) →
  build_root c ids secure_data = Ok root → plist_encoding root data →
  write_user plist_dumps plist_loads c ids secure_data = Ok data
  ∧ decode_user_catacomb plist_loads data (uc_expected_user_id c) = Ok (rewritten c ids secure_data).
Proof.
  intros Hc Hids Hne Hs Hroot. destruct (build_root_Ok c ids secure_data Hc) as (account & keybag & Ha & Hk & Hat & Hkt & Hb); [apply Hids|].
  rewrite Hb in Hroot. apply Ok_inj in Hroot as <-. intros [Hd Hl Hsz Hm].
  assert (Hdec : decode_user_catacomb plist_loads data (uc_expected_user_id c) = Ok (rewritten c ids secure_data)).
  { rewrite (decode_written _ _ _ _ _ _ (aok_user _ Hc) Hids Hne Hs Ha Hk Hl Hsz Hm). by rewrite Hat, Hkt. }
  split; [|done]. unfold write_user. rewrite Hb. cbn [mbind result_bind]. unfold encode_and_verify. rewrite Hd. cbn [mbind result_bind].
  rewrite Hdec. cbn [mbind result_bind rewritten uc_secure_data uc_account_uuid uc_keybag_uuid].
  rewrite bool_decide_eq_true_2, !String.eqb_refl by done. cbn [negb orb fail_if mbind result_bind].
  pose proof Hdec as Hread. unfold decode_user_catacomb in Hread. apply bind_Ok in Hread as ([top objects] & Hroot & Htable).
  rewrite (oracle_reads_table _ _ _ _ _ _ Hroot Htable).
  cbn [mbind result_bind rewritten model_of uc_secure_data uc_account_uuid uc_keybag_uuid uc_identities
       om_account_uuid om_keybag_uuid om_secure_sha256 om_secure_length om_identities].
  rewrite !String.eqb_refl, Nat.eqb_refl, (identities_eqb_refl _ _ (proj1 Hids)). reflexivity.
Qed.

(** C32: Writing and reading back.  For a well-formed archive, a non-empty list of
    well-formed identities and a well-formed secure envelope, the codec builds
    an object table; and whenever [plistlib] encodes that table as a binary
    property list of at most 1 MiB and reads it back, the codec writes those
    bytes - both readers accept them - and decoding them gives exactly the user,
    the secure data, the account, the key bag and the identities that were
    written. *)
Theorem written_archive_reads_back c ids secure_data :
  archive_ok c → identities_ok (uc_expected_user_id c) ids → ids ≠ [] → envelope_ok (default (uc_secure_data c) secure_data) →
  ∃ root, build_root c ids secure_data = Ok root ∧ ∀ data, plist_encoding root data →
    write_user plist_dumps plist_loads c ids secure_data = Ok data
    ∧ decode_user_catacomb plist_loads data (uc_expected_user_id c) = Ok (rewritten c ids secure_data).
Proof.
  intros Hc Hids Hne Hs. destruct (build_root_Ok c ids secure_data Hc) as (account & keybag & _ & _ & _ & _ & Hb); [apply Hids|].
  eexists. split; [exact Hb|]. intros data. by apply write_user_Ok.
Qed.

(** *** Edits *)

Lemma filter_none {A} (P : A → Prop) `{!∀ x, Decision (P x)} l : Forall (λ x, ¬ P x) l → filter P l = [].
Proof. induction 1 as [|x l Hx _ IH]; [done|]. by rewrite filter_cons_False. Qed.

Lemma filter_unique {A} (P : A → Prop) `{!∀ x, Decision (P x)} l k x :
  l !! k = Some x → P x → (∀ j y, l !! j = Some y → P y → j = k) → filter P l = [x].
Proof.
  revert k. induction l as [|y l IH]; intros k Hk Hx Hu; [done|]. destruct k as [|k]; simpl in Hk.
  - injection Hk as ->. rewrite filter_cons_True by done. f_equal. apply filter_none.
    apply Forall_lookup. intros j y Hj Hy. by specialize (Hu (S j) y Hj Hy).
  - rewrite filter_cons_False by (intros Hy; by specialize (Hu 0%nat y eq_refl Hy)). apply (IH k Hk Hx).
    intros j z Hj Hz. specialize (Hu (S j) z Hj Hz). lia.
Qed.

Lemma identity_index_Ok c k i : archive_ok c → uc_identities c !! k = Some i →
  ∃ index, uc_identity_indices c !! k = Some index ∧ identity_index c (id_uuid i) = Ok index.
Proof.
  intros Hc Hi. destruct (lookup_lt_is_Some_2 (uc_identity_indices c) k) as [index Hx].
  { rewrite (aok_indices _ Hc). by eapply lookup_lt_Some. }
  exists index. split; [done|]. destruct (aok_identities _ Hc) as (Hids & Hn & _ & _).
  destruct (iok_uuid _ _ (proj1 (Forall_lookup _ _) Hids _ _ Hi)) as (z & Hz & Hzb).
  unfold identity_index. rewrite Hz, uuid_round_trip by done. rewrite <-Hz.
  rewrite (filter_unique _ _ k (index, i)); [done| |done|].
  - rewrite lookup_zip_with, Hx. simpl. by rewrite Hi.
  - intros j [x y] [_ Hy]%lookup_zip_Some He. simpl in *. apply (NoDup_lookup _ _ _ (id_uuid i) Hn); rewrite list_lookup_fmap.
    + rewrite Hy. simpl. by f_equal.
    + by rewrite Hi.
Qed.

Lemma position_of_lookup index l k : NoDup l → l !! k = Some index → position_of index l = Some k.
Proof.
  intros Hn. revert k. induction Hn as [|x l Hx _ IH]; intros k Hk; [done|]. cbn [position_of]. destruct k as [|k]; simpl in Hk.
  - injection Hk as ->. by rewrite Nat.eqb_refl.
  - destruct (Nat.eqb_spec x index) as [->|]; [by apply list_elem_of_lookup_2 in Hk|]. by rewrite (IH k Hk).
Qed.

Lemma alter_uuids name (k : nat) (l : list Identity) : id_uuid <$> alter (set_name name) k l = id_uuid <$> l.
Proof. revert k. induction l as [|i l IH]; intros [|k]; [done..|]. exact (f_equal (cons _) (IH k)). Qed.
Lemma alter_entities name (k : nat) (l : list Identity) : id_entity <$> alter (set_name name) k l = id_entity <$> l.
Proof. revert k. induction l as [|i l IH]; intros [|k]; [done..|]. exact (f_equal (cons _) (IH k)). Qed.
Lemma fmap_delete {A B} (f : A → B) (k : nat) (l : list A) : f <$> base.delete k l = base.delete k (f <$> l).
Proof. revert k. induction l as [|x l IH]; intros [|k]; [done..|]. exact (f_equal (cons _) (IH k)). Qed.

Lemma valid_name_bound name : valid_name name = true → Z.of_nat (utf8_length name) ≤ MAX_STRING_BYTES.
Proof. intros [_ ?%Z.leb_le]%andb_true_iff. done. Qed.

Lemma renamed_ok user (l : list Identity) (k : nat) name : identities_ok user l → valid_name name = true → identities_ok user (alter (set_name name) k l).
Proof.
  intros (Hf & Hn1 & Hn2 & Hl) Hv. split; [|split; [by rewrite alter_uuids|split; [by rewrite alter_entities|by rewrite length_alter]]].
  apply Forall_alter; [done|]. intros i _ [? ? ? ? ? ? ? ? ? ? ?]. split; try done. by apply valid_name_bound.
Qed.

Lemma deleted_ok user (l : list Identity) (k : nat) : identities_ok user l → identities_ok user (base.delete k l).
Proof.
  intros (Hf & Hn1 & Hn2 & Hl). split; [by apply Forall_delete|].
  assert (Hs : base.delete k l `sublist_of` l) by apply sublist_delete.
  split; [|split].
  - rewrite fmap_delete. eapply sublist_NoDup; [exact Hn1|apply sublist_delete].
  - rewrite fmap_delete. eapply sublist_NoDup; [exact Hn2|apply sublist_delete].
  - apply sublist_length in Hs. lia.
Qed.

Lemma rename_writes c k i name : archive_ok c → uc_identities c !! k = Some i → valid_name name = true →
  rename plist_dumps plist_loads c (id_uuid i) name
    = write_user plist_dumps plist_loads c (alter (set_name name) k (uc_identities c)) None.
Proof.
  intros Hc Hi Hv. unfold rename. rewrite Hv. cbn [negb fail_if mbind result_bind].
  destruct (identity_index_Ok c k i Hc Hi) as (index & Hx & ->). cbn [mbind result_bind].
  by rewrite (position_of_lookup _ _ _ (aok_places _ Hc) Hx).
Qed.

Lemma filter_not_index (indices : list nat) (l : list Identity) k index : NoDup indices → indices !! k = Some index →
  length indices = length l → (filter (λ p : nat * Identity, p.1 ≠ index) (zip indices l)).*2 = base.delete k l.
Proof.
  intros Hn. revert l k. induction Hn as [|x indices Hx _ IH]; intros l k Hk Hl; [done|].
  destruct l as [|i l]; [done|]. simpl in Hl. injection Hl as Hl. cbn [zip zip_with]. destruct k as [|k]; simpl in Hk.
  - injection Hk as ->. rewrite filter_cons_False by (simpl; tauto). cbn [base.delete list_delete].
    clear IH. revert l Hl. induction indices as [|y indices IH]; intros [|j l] Hl; try done.
    cbn [zip zip_with]. apply not_elem_of_cons in Hx as [Hxy Hx]. rewrite filter_cons_True by (simpl; congruence).
    cbn [fmap list_fmap snd]. f_equal. apply IH; [done|by injection Hl].
  - assert (x ≠ index) by (intros ->; by apply list_elem_of_lookup_2 in Hk).
    rewrite filter_cons_True by done. cbn [fmap list_fmap snd base.delete list_delete]. f_equal. by apply IH.
Qed.

Lemma delete_writes c k i : archive_ok c → uc_identities c !! k = Some i → (1 < length (uc_identities c))%nat →
  delete plist_dumps plist_loads c (id_uuid i) = write_user plist_dumps plist_loads c (base.delete k (uc_identities c)) None.
Proof.
  intros Hc Hi Hl. unfold delete. rewrite (proj2 (Nat.leb_gt _ _) Hl). cbn [fail_if mbind result_bind].
  destruct (identity_index_Ok c k i Hc Hi) as (index & Hx & ->). cbn [mbind result_bind].
  by rewrite (filter_not_index _ _ k) by (done || apply Hc).
Qed.

Lemma add_writes c z entity name created now prototype rest : archive_ok c → uc_identities c = prototype :: rest →
  (length (uc_identities c) < MAX_IDENTITIES)%nat → 0 ≤ z < 2 ^ 128 → uuid_str z ∉ id_uuid <$> uc_identities c →
  uint32 entity → entity ∉ id_entity <$> uc_identities c → valid_name name = true →
  dt_aware (default now created) = true → isfinite (dt_seconds (default now created)) = true →
  add plist_dumps plist_loads c (uuid_str z) entity name created now
    = write_user plist_dumps plist_loads c
        (uc_identities c ++ [fresh_identity c prototype (uuid_str z) entity name (dt_seconds (default now created))]) None.
Proof.
  intros Hc Hp Hl Hz Hu He Hn Hv Ha Hf. unfold add. rewrite Hp in *. rewrite (proj2 (Nat.leb_gt _ _) Hl).
  cbn [fail_if mbind result_bind]. rewrite uuid_round_trip by done. cbn [from_option mbind result_bind].
  rewrite bool_decide_eq_false_2 by done. cbn [fail_if mbind result_bind]. rewrite (read_int entity) by done. cbn [mbind result_bind].
  rewrite bool_decide_eq_false_2 by done. cbn [fail_if mbind result_bind]. rewrite Hv. cbn [negb fail_if mbind result_bind].
  unfold created_seconds. rewrite Ha, Hf. reflexivity.
Qed.

Lemma added_ok c z entity name seconds prototype rest : archive_ok c → uc_identities c = prototype :: rest →
  (length (uc_identities c) < MAX_IDENTITIES)%nat → 0 ≤ z < 2 ^ 128 → uuid_str z ∉ id_uuid <$> uc_identities c →
  uint32 entity → entity ∉ id_entity <$> uc_identities c → valid_name name = true → isfinite seconds = true →
  identities_ok (uc_expected_user_id c) (uc_identities c ++ [fresh_identity c prototype (uuid_str z) entity name seconds]).
Proof.
  intros Hc Hp Hl Hz Hu He Hn Hv Hf. destruct (aok_identities _ Hc) as (Hids & Hn1 & Hn2 & _).
  assert (Hpr : identity_ok (uc_expected_user_id c) prototype) by (rewrite Hp in Hids; by apply Forall_cons in Hids as [? _]).
  split; [|split; [|split]].
  - apply Forall_app. split; [done|]. apply Forall_singleton. destruct Hpr. split; try done; simpl.
    + by exists z.
    + by apply valid_name_bound.
  - rewrite fmap_app. apply NoDup_app. split; [done|]. split; [|apply NoDup_singleton].
    intros x Hx ->%list_elem_of_singleton. done.
  - rewrite fmap_app. apply NoDup_app. split; [done|]. split; [|apply NoDup_singleton].
    intros x Hx ->%list_elem_of_singleton. done.
  - rewrite length_app. simpl. unfold MAX_IDENTITIES in *. lia.
Qed.

(** [data] is the archive [c] with the identities [ids], as an edit returned
    it. *)
Definition edited (r : result bytes) (c : UserCatacomb) (ids : list Identity) : Prop :=
  ∃ root, build_root c ids None = Ok root ∧ ∀ data, plist_encoding root data →
    r = Ok data ∧ decode_user_catacomb plist_loads data (uc_expected_user_id c) = Ok (rewritten c ids None).

Lemma edited_by r c ids : archive_ok c → identities_ok (uc_expected_user_id c) ids → ids ≠ [] →
  r = write_user plist_dumps plist_loads c ids None → edited r c ids.
Proof.
  intros Hc Hids Hne ->. destruct (build_root_Ok c ids None Hc) as (account & keybag & _ & _ & _ & _ & Hb); [apply Hids|].
  eexists. split; [exact Hb|]. intros data. apply write_user_Ok; [done..|exact (aok_secure _ Hc)|exact Hb].
Qed.

Definition has_envelope (magic : string) (data : bytes) : Prop :=
  16 ≤ Z.of_nat (length data) ≤ MAX_FILE_BYTES ∧ take 4 data = text magic.

Lemma envelope_reads magic field data : has_envelope magic data → secure_envelope (PBytes data) (text magic) field = Ok data.
Proof.
  intros [Hl Hm]. unfold secure_envelope. rewrite !(proj2 (Z.leb_le _ _)) by lia. by rewrite bool_decide_eq_true_2.
Qed.

Lemma replace_secure_writes c secure : envelope_ok secure →
  replace_secure_data plist_dumps plist_loads c secure
    = write_user plist_dumps plist_loads c (uc_identities c) (Some secure).
Proof. intros Hs. unfold replace_secure_data. by rewrite (envelope_reads "LTFC" _ _ Hs). Qed.

Lemma replace_identity_writes c z entity name created prototype : uc_identities c = [prototype] →
  0 ≤ z < 2 ^ 128 → uint32 entity → valid_name name = true → dt_aware created = true → isfinite (dt_seconds created) = true →
  replace_only_for_absent_sep plist_dumps plist_loads c (uuid_str z) entity name created true
    = write_user plist_dumps plist_loads c [fresh_identity c prototype (uuid_str z) entity name (dt_seconds created)] None.
Proof.
  intros Hp Hz He Hv Ha Hf. unfold replace_only_for_absent_sep. rewrite Hp, uuid_round_trip by done.
  cbn [from_option mbind result_bind]. rewrite (read_int entity) by done. cbn [mbind result_bind]. rewrite Hv.
  cbn [negb fail_if mbind result_bind]. unfold created_seconds. rewrite Ha, Hf. reflexivity.
Qed.

Lemma replaced_ok c z entity name seconds prototype : archive_ok c → uc_identities c = [prototype] → 0 ≤ z < 2 ^ 128 →
  uint32 entity → valid_name name = true → isfinite seconds = true →
  identities_ok (uc_expected_user_id c) [fresh_identity c prototype (uuid_str z) entity name seconds].
Proof.
  intros Hc Hp Hz He Hv Hf. destruct (aok_identities _ Hc) as (Hids & _). rewrite Hp, Forall_singleton in Hids.
  split; [|split; [apply NoDup_singleton|split; [apply NoDup_singleton|apply Nat.leb_le; reflexivity]]].
  apply Forall_singleton. destruct Hids. split; try done; simpl; [by exists z|by apply valid_name_bound].
Qed.


(** ** The other components *)

Lemma finite_float f bad : isfinite f = true → finite_number bad (PFloat f) = Ok f.
Proof. simpl. by intros ->. Qed.

Lemma component_root_Ok top objects keys count data : bounded_size data = true →
  startswith_bytes data (text "bplist00") = true → plist_loads data = Ok (archive_root top objects) →
  keys_are top keys = true → (length objects =? count)%nat = true → eq_text (object_at objects 0) "$null" = true →
  load_component_root plist_loads data keys count = Ok (top, objects).
Proof.
  intros Hb Hp Hl Hk Hc H0. unfold load_component_root, load_plist. unfold bounded_size in Hb. unfold MAX_FILE_BYTES.
  rewrite Hb, Hp, Hl. cbn [negb orb fail_if mbind result_bind except]. unfold archive_root.
  cbn [member String.eqb Ascii.eqb Bool.eqb].
  replace (keys_are _ ROOT_KEYS) with true by (symmetry; vm_compute; reflexivity).
  cbn [eq_int eq_text]. rewrite Hk, Hc, H0. reflexivity.
Qed.

Lemma open_component top objects data : bounded_size data = true →
  startswith_bytes data (text "bplist00") = true → plist_loads data = Ok (archive_root top objects) →
  (1 <=? length objects)%nat && (length objects <=? 256)%nat = true → eq_text (object_at objects 0) "$null" = true →
  archive_graph objects (PDict top) → open_graph plist_loads data = Ok (MkGraph top objects).
Proof.
  intros Hb Hp Hl Hc H0 Hg. unfold open_graph, load_plist. rewrite Hb, Hp, Hl. cbn [negb orb fail_if mbind result_bind except].
  unfold archive_root. cbn [member String.eqb Ascii.eqb Bool.eqb].
  replace (keys_are _ _) with true by (symmetry; vm_compute; reflexivity).
  cbn [eq_int eq_text]. rewrite Hc, H0. cbn. unfold g_reachable. by rewrite (require_reachable_complete objects _ _ _ _ Hg).
Qed.

Definition master_objects (secure : bytes) (current : spec_float) : list plist :=
  [PStr "$null"; PDict [("NS.data", PBytes secure); ("$class", uid 2)]; class_descriptor "NSMutableData";
   PDict [("NS.time", PFloat current); ("$class", uid 4)]; class_descriptor "NSDate"].
Definition master_top (count : Z) : list (string * plist) :=
  [("CatacombVersion", PInt 0x30000); ("CatacombSecureData", uid 1); ("CatacombCurrentDate", uid 3);
   ("CatacombUserID", PInt (-1)); ("CatacombEnrollmentCount", PInt count)].
Lemma master_graph secure count current : archive_graph (master_objects secure current) (PDict (master_top count)).
Proof.
  apply (require_reachable_sound _ (Exn OracleError "") (Exn OracleError "") (Exn OracleError "")).
  vm_compute. reflexivity.
Qed.

Lemma master_decodes secure count current data : has_envelope "LTFC" secure → uint32 count → isfinite current = true →
  plist_encoding (master_root secure count current) data →
  decode_master_catacomb plist_loads data = Ok (MkMaster count secure current).
Proof.
  intros Hs Hn Hf [Hd Hl Hb Hm]. unfold decode_master_catacomb.
  rewrite (component_root_Ok (master_top count) (master_objects secure current) MASTER_TOP_KEYS 5 _ Hb Hm Hl)
    by (vm_compute; reflexivity). cbn [mbind result_bind].
  change (eq_int _ 0x30000) with true. change (eq_int _ (-1)) with true. cbn [negb orb fail_if mbind result_bind].
  change (member (master_top count) "CatacombEnrollmentCount") with (PInt count). rewrite (read_int count) by done.
  cbn [mbind result_bind]. unfold component_data.
  change (component_object (master_objects secure current) (member (master_top count) "CatacombSecureData") "secure data")
    with (Ok (PDict [("NS.data", PBytes secure); ("$class", uid 2)])). cbn [mbind result_bind].
  assert (Hc : ∀ bad, component_classed (master_objects secure current) (PDict [("NS.data", PBytes secure); ("$class", uid 2)])
    {["NS.data"; "$class"]} "NSMutableData" "secure data" bad = Ok [("NS.data", PBytes secure); ("$class", uid 2)]) by (intros; vm_compute; reflexivity).
  rewrite Hc. clear Hc.
  cbn [mbind result_bind]. change (member _ "NS.data") with (PBytes secure). rewrite (envelope_reads "LTFC") by done.
  cbn [mbind result_bind].
  change (component_object (master_objects secure current) (member (master_top count) "CatacombCurrentDate") "master date")
    with (Ok (PDict [("NS.time", PFloat current); ("$class", uid 4)])). cbn [mbind result_bind].
  assert (Hc : ∀ bad, component_classed (master_objects secure current) (PDict [("NS.time", PFloat current); ("$class", uid 4)])
    {["NS.time"; "$class"]} "NSDate" "master date" bad = Ok [("NS.time", PFloat current); ("$class", uid 4)]) by (intros; vm_compute; reflexivity).
  rewrite Hc. clear Hc.
  cbn [mbind result_bind]. change (member _ "NS.time") with (PFloat current). rewrite finite_float by done.
  cbn [mbind result_bind]. unfold require_component_reachability.
  by rewrite (require_reachable_complete _ _ _ _ _ (master_graph _ _ _)).
Qed.

Lemma master_oracle secure count current data : has_envelope "LTFC" secure → uint32 count → isfinite current = true →
  plist_encoding (master_root secure count current) data →
  read_master plist_loads data = Ok (MasterModel (secure_digest secure) (length secure) count current).
Proof.
  intros [Hs1 Hs2] Hn Hf [Hd Hl Hb Hm]. unfold read_master.
  rewrite (open_component (master_top count) (master_objects secure current) _ Hb Hm Hl) by
    (first [reflexivity|apply master_graph]). cbn [mbind result_bind g_top g_objects].
  replace (keys_are (master_top count) MASTER_KEYS) with true by (symmetry; vm_compute; reflexivity).
  change (eq_int _ 0x30000) with true. change (eq_int _ (-1)) with true. cbn [negb orb fail_if mbind result_bind].
  unfold g_data. assert (Hc : g_classed (master_objects secure current) (member (master_top count) "CatacombSecureData")
    "NSMutableData" {["NS.data"]} "master secure data" = Ok [("NS.data", PBytes secure); ("$class", uid 2)]) by (vm_compute; reflexivity).
  rewrite Hc. clear Hc.
  cbn [mbind result_bind]. change (member _ "NS.data") with (PBytes secure). cbn beta iota. unfold MAX_FILE_BYTES in Hs1.
  rewrite !(proj2 (Z.leb_le _ _)) by lia. rewrite bool_decide_eq_true_2 by done. cbn [andb negb orb fail_if mbind result_bind].
  change (member (master_top count) "CatacombEnrollmentCount") with (PInt count).
  rewrite (integer_agree _ "" _ count) by (by apply read_int). cbn [mbind result_bind].
  unfold g_date. assert (Hc : g_classed (master_objects secure current) (member (master_top count) "CatacombCurrentDate")
    "NSDate" {["NS.time"]} "master date" = Ok [("NS.time", PFloat current); ("$class", uid 4)]) by (vm_compute; reflexivity).
  rewrite Hc. clear Hc.
  cbn [mbind result_bind]. change (member _ "NS.time") with (PFloat current). by rewrite finite_float.
Qed.

Definition biolockout_objects (secure : bytes) : list plist :=
  [PStr "$null"; PDict [("NS.data", PBytes secure); ("$class", uid 2)]; class_descriptor "NSMutableData"].
Definition biolockout_top : list (string * plist) :=
  [("BioLockoutRecordSecureData", uid 1); ("BioLockoutRecordVersion", PInt 0x10000)].
Lemma biolockout_graph secure : archive_graph (biolockout_objects secure) (PDict biolockout_top).
Proof.
  apply (require_reachable_sound _ (Exn OracleError "") (Exn OracleError "") (Exn OracleError "")).
  vm_compute. reflexivity.
Qed.

Lemma biolockout_decodes secure data : has_envelope "HRLB" secure → plist_encoding (biolockout_root secure) data →
  decode_biolockout_catacomb plist_loads data = Ok secure
  ∧ read_biolockout plist_loads data = Ok (BioLockoutModel (secure_digest secure) (length secure)).
Proof.
  intros Hs [Hd Hl Hb Hm]. split.
  - unfold decode_biolockout_catacomb.
    rewrite (component_root_Ok biolockout_top (biolockout_objects secure) BIOLOCKOUT_TOP_KEYS 3 _ Hb Hm Hl)
      by (vm_compute; reflexivity). cbn [mbind result_bind].
    change (eq_int _ 0x10000) with true. cbn [negb fail_if mbind result_bind]. unfold component_data.
    change (component_object (biolockout_objects secure) (member biolockout_top "BioLockoutRecordSecureData") "secure data")
      with (Ok (PDict [("NS.data", PBytes secure); ("$class", uid 2)])). cbn [mbind result_bind].
    assert (Hc : ∀ bad, component_classed (biolockout_objects secure) (PDict [("NS.data", PBytes secure); ("$class", uid 2)])
      {["NS.data"; "$class"]} "NSMutableData" "secure data" bad = Ok [("NS.data", PBytes secure); ("$class", uid 2)]) by (intros; vm_compute; reflexivity).
  rewrite Hc. clear Hc.
    cbn [mbind result_bind]. change (member _ "NS.data") with (PBytes secure). rewrite (envelope_reads "HRLB") by done.
    cbn [mbind result_bind]. unfold require_component_reachability.
    by rewrite (require_reachable_complete _ _ _ _ _ (biolockout_graph _)).
  - destruct Hs as [Hs1 Hs2]. unfold read_biolockout.
    rewrite (open_component biolockout_top (biolockout_objects secure) _ Hb Hm Hl) by
      (first [reflexivity|apply biolockout_graph]). cbn [mbind result_bind g_top g_objects].
    replace (keys_are biolockout_top BIOLOCKOUT_KEYS) with true by (symmetry; vm_compute; reflexivity).
    change (eq_int _ 0x10000) with true. cbn [negb orb fail_if mbind result_bind]. unfold g_data.
    assert (Hc : g_classed (biolockout_objects secure) (member biolockout_top "BioLockoutRecordSecureData")
      "NSMutableData" {["NS.data"]} "bio-lockout secure data" = Ok [("NS.data", PBytes secure); ("$class", uid 2)]) by (vm_compute; reflexivity).
  rewrite Hc. clear Hc.
    cbn [mbind result_bind]. change (member _ "NS.data") with (PBytes secure). cbn beta iota. unfold MAX_FILE_BYTES in Hs1.
    rewrite !(proj2 (Z.leb_le _ _)) by lia. by rewrite bool_decide_eq_true_2.
Qed.

(** The master and the bio-lockout components read back as they were
    written, in this codec and in the independent reader. *)
Theorem components_read_back :
  (∀ c secure count current data, has_envelope "LTFC" secure → uint32 count → isfinite current = true →
     plist_encoding (master_root secure count current) data →
     master_encode plist_dumps plist_loads c (Some secure) (Some count) (Some current) = Ok data
     ∧ decode_master_catacomb plist_loads data = Ok (MkMaster count secure current))
  ∧ (∀ c secure data, has_envelope "HRLB" secure → plist_encoding (biolockout_root secure) data →
     biolockout_encode plist_dumps plist_loads c (Some secure) = Ok data
     ∧ decode_biolockout_catacomb plist_loads data = Ok secure).
Proof.
  split.
  - intros c secure count current data Hs Hn Hf Henc. pose proof (master_decodes _ _ _ _ Hs Hn Hf Henc) as Hdec.
    split; [|done]. unfold master_encode. rewrite (envelope_reads "LTFC") by done. cbn [mbind result_bind].
    rewrite (read_int count) by done. cbn [mbind result_bind]. change (default (mc_current_time c) (Some current)) with current.
    rewrite Hf, (enc_dumps _ _ Henc). cbn [negb fail_if mbind result_bind]. rewrite Hdec. cbn [mbind result_bind mc_secure_data mc_enrollment_count mc_current_time].
    rewrite bool_decide_eq_true_2, Z.eqb_refl, SFeqb_finite by done. cbn [negb orb fail_if mbind result_bind].
    rewrite (master_oracle _ _ _ _ Hs Hn Hf Henc).
    cbn [mbind result_bind mm_secure_sha256 mm_secure_length mm_enrollment_count mm_current_time].
    by rewrite String.eqb_refl, Nat.eqb_refl, Z.eqb_refl, SFeqb_finite.
  - intros c secure data Hs Henc. destruct (biolockout_decodes _ _ Hs Henc) as [Hdec Hor]. split; [|done].
    unfold biolockout_encode. rewrite (envelope_reads "HRLB") by done. cbn [mbind result_bind].
    rewrite (enc_dumps _ _ Henc). cbn [mbind result_bind]. rewrite Hdec. cbn [mbind result_bind].
    rewrite bool_decide_eq_true_2 by done. cbn [negb fail_if mbind result_bind]. rewrite Hor.
    cbn [mbind result_bind bm_secure_sha256 bm_secure_length]. by rewrite String.eqb_refl, Nat.eqb_refl.
Qed.
End write.
