(* ===== verification/CatacombStore.v ===== *)
(** * The Catacomb component store ([src/src/t2_catacomb_store.py])

    A two-phase file transaction: components are staged in [prepare/], one
    rename to [commit/] crosses the commit boundary, and the components are
    then promoted into the root one by one.  Every system call may fail and
    the process may stop at any of them; a stop is an exception nobody
    catches, so the state an exception leaves is the state after a crash.

    The directory entries are kept in the order of the calls (a journalling
    file system), so a crash exposes the state after some call. *)
From S2P Require Import Prelude PyValue Sha256 Effect Bytes KeyedArchive CatacombOracle CatacombCodec.
From S2P Require Import UserMapping.
From stdpp Require Import gmap.

#[local] Open Scope Z_scope.
#[local] Abbreviation serr msg := (raise CatacombStoreError msg).

(** ** The file system *)

(** A file: whether it opens as a private, caller-owned regular file with one
    link, and what it holds. *)
Record dfile := DFile { df_safe : bool; df_content : bytes }.
(** A directory entry [prepare] or [commit]: whether it is a private,
    caller-owned directory, and its files. *)
Record dir := Dir { d_private : bool; d_files : gmap string dfile }.
Record store := Store {
  st_private : bool;
  st_root : gmap string dfile;
  st_prepare : option dir;
  st_commit : option dir;
}.
#[export] Instance dir_settable : Settable dir := λ d, Dir (d_private d) (d_files d).
#[export] Instance store_settable : Settable store := λ s, Store (st_private s) (st_root s) (st_prepare s) (st_commit s).

(** The store and the number of calls made so far. *)
Record sworld := SWorld { sw_store : store; sw_calls : nat }.

(** What may go wrong: whether the [n]-th call fails or is never made, and how
    many bytes it writes when it is a write. *)
Record faults := Faults { fa_fails : nat → bool; fa_written : nat → Z }.

Definition has {A} (o : option A) : bool := match o with Some _ => true | None => false end.

Inductive place := Root | Prepare | Commit.

Definition sha256 (data : bytes) : string := secure_digest data.

Definition user_component (apple_uid : Z) : string := "user_" +:+ hex08 apple_uid +:+ ".cat".

(** [component_names] *)
Definition component_names (apple_uid : Z) : result (gset string) :=
  if negb ((0 <=? apple_uid) && (apple_uid <=? 0xFFFFFFFF)) then serr "Apple UID is invalid"
  else Ok {["master.cat"; "biolockout.cat"; user_component apple_uid]}.

(** [re.fullmatch(r"(?:master|biolockout|user_[0-9a-f]{8})\.cat", name)] *)
Definition transaction_name (name : string) : bool :=
  bool_decide (name ∈ ["master.cat"; "biolockout.cat"])
  || (String.length name =? 17)%nat && String.eqb (String.substring 0 5 name) "user_"
     && all_chars hex_lower_char (String.substring 5 8 name) && String.eqb (String.substring 13 4 name) ".cat".

Definition is_codec_error (c : exn_class) : bool := bool_decide (c = CatacombCodecError).

Section store.
Context (plist_loads : bytes → result plist) (apple_uid : Z) (allowed_names : gset string).

Definition validate_component (name : string) (data : bytes) : result unit :=
  if String.eqb name "master.cat" then _ ← decode_master_catacomb plist_loads data; Ok tt
  else if String.eqb name "biolockout.cat" then _ ← decode_biolockout_catacomb plist_loads data; Ok tt
  else if String.eqb name (user_component apple_uid) then _ ← decode_user_catacomb plist_loads data apple_uid; Ok tt
  else serr ("unexpected Catacomb component name: " +:+ name).

(** [except CatacombCodecError as error: raise CatacombStoreError(...)] *)
Definition validated (what name : string) (data : bytes) : result unit :=
  except is_codec_error (λ e, Exn CatacombStoreError ("invalid " +:+ what +:+ " " +:+ name +:+ ": " +:+ exn_msg e))
    (validate_component name data).

Definition files_at (s : store) (p : place) : gmap string dfile :=
  match p with
  | Root => st_root s
  | Prepare => from_option d_files ∅ (st_prepare s)
  | Commit => from_option d_files ∅ (st_commit s)
  end.

Section calls.
Context (f : faults).

(** A system call, or the hook: it fails or is never made, or it has its
    effect. *)
Definition syscall {A} (effect : store → result (A * store)) : act sworld A := λ w,
  let n := sw_calls w in
  if fa_fails f n then (raise OSError "interrupted", SWorld (sw_store w) (S n))
  else match effect (sw_store w) with
       | Ok (a, s) => (Ok a, SWorld s (S n))
       | Raise e => (Raise e, SWorld (sw_store w) (S n))
       end.
Definition look {A} (q : store → result A) : act sworld A := syscall (λ s, a ← q s; Ok (a, s)).
Definition change (g : store → result store) : act sworld unit := syscall (λ s, s ← g s; Ok (tt, s)).
(** [fsync] of a directory or a file, and [hook(...)]. *)
Definition sync_directory : act sworld unit := change Ok.
Definition hook (_ : string) : act sworld unit := change Ok.

Definition require {S} (b : bool) (msg : string) : act S unit := throw_if (negb b) CatacombStoreError msg.

(** [for x in l: body] *)
Fixpoint for_in {A} (body : A → act sworld unit) (l : list A) : act sworld unit :=
  match l with [] => mret tt | x :: l => _ ← body x; for_in body l end.

(** ** Calls on the store *)

(** [os.path.lexists], which answers [False] when its call fails. *)
Definition lexists (q : store → bool) : act sworld bool :=
  catch (λ c, bool_decide (c = OSError)) (look (λ s, Ok (q s))) (λ _, mret false).
Definition lexists_dir (p : place) : act sworld bool :=
  lexists (λ s, match p with Prepare => has (st_prepare s) | Commit => has (st_commit s) | Root => true end).

(** [_require_private_directory] *)
Definition require_private_directory (p : place) : act sworld unit :=
  look (λ s, match match p with Root => Some (Dir (st_private s) (st_root s)) | Prepare => st_prepare s
                     | Commit => st_commit s end with
             | None => serr "Catacomb directory does not exist"
             | Some d => fail_if (negb (d_private d)) CatacombStoreError "Catacomb directory is not private and caller-owned"
             end).

(** [_directory_entries] *)
Definition directory_entries (p : place) : act sworld (gset string) :=
  _ ← require_private_directory p;
  look (λ s, let names := dom (files_at s p) in
             _ ← fail_if (negb (forallb transaction_name (elements names))) CatacombStoreError "unexpected transaction entry";
             Ok names).

(** [_read_regular] *)
Definition read_regular (p : place) (name : string) : act sworld bytes :=
  look (λ s, match files_at s p !! name with
             | Some file =>
                 if df_safe file && (Z.of_nat (length (df_content file)) <=? 1024 * 1024) then Ok (df_content file)
                 else serr ("unsafe Catacomb transaction file: " +:+ name)
             | None => serr ("unsafe Catacomb transaction file: " +:+ name)
             end).

Definition put_prepare (name : string) (file : dfile) (s : store) : result store :=
  match st_prepare s with
  | Some d => Ok (s <| st_prepare := Some (d <| d_files := <[name := file]> (d_files d) |>) |>)
  | None => raise OSError "No such file or directory"
  end.

(** The loop of [_write_exclusive]; one turn writes at least one byte, so as
    many turns as there are bytes are enough. *)
Fixpoint write_blocks (fuel : nat) (name : string) (written data : bytes) : act sworld unit :=
  match data with
  | [] => mret tt
  | _ =>
      match fuel with
      | O => throw AssertionError "out of fuel"
      | S fuel =>
          w ← self;
          let n := fa_written f (sw_calls w) in
          _ ← throw_if (n <=? 0) CatacombStoreError "short Catacomb component write";
          let written := written ++ take (Z.to_nat n) data in
          _ ← change (put_prepare name (DFile true written));
          write_blocks fuel name written (drop (Z.to_nat n) data)
      end
  end.

(** [_write_exclusive], into [prepare/]. *)
Definition write_exclusive (name : string) (data : bytes) : act sworld unit :=
  _ ← change (λ s, match files_at s Prepare !! name with
                   | Some _ => raise OSError "File exists"
                   | None => put_prepare name (DFile true []) s
                   end);
  _ ← write_blocks (length data) name [] data;
  sync_directory.

(** [Path.unlink] *)
Definition unlink (p : place) (name : string) : act sworld unit :=
  change (λ s, match files_at s p !! name with
               | None => raise OSError "No such file or directory"
               | Some _ =>
                   Ok match p with
                      | Root => s <| st_root := delete name (st_root s) |>
                      | Prepare => s <| st_prepare := (λ d, d <| d_files := delete name (d_files d) |>) <$> st_prepare s |>
                      | Commit => s <| st_commit := (λ d, d <| d_files := delete name (d_files d) |>) <$> st_commit s |>
                      end
               end).

(** [Path.rmdir] *)
Definition rmdir (p : place) : act sworld unit :=
  change (λ s, if bool_decide (files_at s p = ∅)
               then Ok match p with Prepare => s <| st_prepare := None |> | Commit => s <| st_commit := None |> | Root => s end
               else raise OSError "Directory not empty").

(** [os.rename(prepare, commit)]: an empty [commit] would be replaced. *)
Definition rename_prepare_to_commit : act sworld unit :=
  change (λ s, match st_prepare s, st_commit s with
               | None, _ => raise OSError "No such file or directory"
               | Some d, None => Ok (s <| st_prepare := None |> <| st_commit := Some d |>)
               | Some d, Some c =>
                   if bool_decide (d_files c = ∅) then Ok (s <| st_prepare := None |> <| st_commit := Some d |>)
                   else raise OSError "Directory not empty"
               end).

(** [os.rename(commit / name, root / name)] *)
Definition promote (name : string) : act sworld unit :=
  change (λ s, match st_commit s with
               | Some c =>
                   match d_files c !! name with
                   | Some file => Ok (s <| st_root := <[name := file]> (st_root s) |>
                                        <| st_commit := Some (c <| d_files := delete name (d_files c) |>) |>)
                   | None => raise OSError "No such file or directory"
                   end
               | None => raise OSError "No such file or directory"
               end).

(** [CatacombStore.__init__] *)
Definition open_store : act sworld (gset string) :=
  allowed ← pure (component_names apple_uid);
  _ ← require_private_directory Root;
  mret allowed.

(** ** Staging *)

Definition begin_stage (expected_names : gset string) : act sworld unit :=
  _ ← require (negb (bool_decide (expected_names = ∅)) && bool_decide (expected_names ⊆ allowed_names))
        "staged component set is empty or invalid";
  prepare ← lexists_dir Prepare;
  commit ← (if prepare : bool then mret true else lexists_dir Commit);
  _ ← require (negb (prepare || commit)) "an incomplete Catacomb transaction already exists";
  _ ← change (λ s, match st_prepare s with
                   | Some _ => raise OSError "File exists"
                   | None => Ok (s <| st_prepare := Some (Dir true ∅) |>)
                   end);
  _ ← sync_directory;
  hook "prepare_created".

Definition stage_component (name : string) (data : bytes) (expected_names : gset string) : act sworld string :=
  _ ← require (bool_decide (name ∈ expected_names) && bool_decide (expected_names ⊆ allowed_names))
        "staged component target is invalid";
  existing ← directory_entries Prepare;
  _ ← require (bool_decide (existing ⊆ expected_names) && negb (bool_decide (name ∈ existing)))
        "staged component is unexpected or duplicated";
  _ ← pure (validated "staged" name data);
  _ ← write_exclusive name data;
  _ ← sync_directory;
  _ ← hook ("component_written:" +:+ name);
  mret (sha256 data).

(** [sorted] of a set of names. *)
Definition sorted_names (names : gset string) : list string := sorted_strings (elements names).

(** [stage]; a dictionary is the list of its items. *)
Definition stage (components : list (string * bytes)) : act sworld (gmap string string) :=
  let data : gmap string bytes := list_to_map components in
  let expected_names := dom data in
  _ ← require (negb (bool_decide (expected_names = ∅)) && bool_decide (expected_names ⊆ allowed_names))
        "staged component set is empty or invalid";
  _ ← for_in (λ c : string * bytes, pure (validated "staged" c.1 c.2)) components;
  _ ← begin_stage expected_names;
  _ ← for_in (λ name, _ ← stage_component name (default [] (data !! name)) expected_names; mret tt)
        (sorted_names expected_names);
  _ ← hook "prepare_synced";
  mret (sha256 <$> data).

(** ** Reading *)

Fixpoint read_components (names : list string) : act sworld (gmap string bytes) :=
  match names with
  | [] => mret ∅
  | name :: names =>
      data ← read_regular Root name;
      _ ← pure (validated "committed" name data);
      rest ← read_components names;
      mret (<[name := data]> rest)
  end.
Definition read_root_components : act sworld (gmap string bytes) := read_components (sorted_names allowed_names).

Definition read_committed_components : act sworld (gmap string bytes) :=
  prepare ← lexists_dir Prepare;
  commit ← (if prepare : bool then mret true else lexists_dir Commit);
  _ ← require (negb (prepare || commit)) "Catacomb transaction is incomplete; recovery is required";
  read_root_components.

(** [sha256(data) != expected[name]] and [validate_component], for a name of
    [expected]. *)
Definition check_component (what : string) (expected : gmap string string) (name : string) (data : bytes)
    : act sworld unit :=
  _ ← require (bool_decide (expected !! name = Some (sha256 data))) (what +:+ " hash mismatch for " +:+ name);
  pure (validate_component name data).

Definition read_committed_components_during_prepare (expected_names : gset string)
    (expected_hashes : gmap string string) : act sworld (gmap string bytes) :=
  _ ← require (negb (bool_decide (expected_names = ∅)) && bool_decide (expected_names ⊆ allowed_names)
               && negb (bool_decide (expected_hashes = ∅)) && bool_decide (dom expected_hashes ⊂ expected_names))
        "prepared root read expectation is invalid";
  commit ← lexists_dir Commit;
  _ ← require (negb commit) "prepared root read expectation is invalid";
  names ← directory_entries Prepare;
  _ ← require (bool_decide (names = dom expected_hashes)) "prepared root read differs from journal";
  _ ← for_in (λ name, data ← read_regular Prepare name; check_component "prepare" expected_hashes name data)
        (sorted_names names);
  read_root_components.

(** ** Committing and recovering *)

Definition validate_prepare (expected : gmap string string) : act sworld unit :=
  names ← directory_entries Prepare;
  _ ← require (bool_decide (dom expected ⊆ allowed_names) && bool_decide (names = dom expected))
        "prepare component set does not match journal";
  for_in (λ name, data ← read_regular Prepare name; check_component "prepare" expected name data) (sorted_names names).

Definition validate_commit (expected : gmap string string) : act sworld (gset string) :=
  remaining ← directory_entries Commit;
  _ ← require (bool_decide (remaining ⊆ dom expected) && bool_decide (dom expected ⊆ allowed_names))
        "commit component set does not match journal";
  _ ← for_in (λ name,
        data ← read_regular (if bool_decide (name ∈ remaining) then Commit else Root) name;
        check_component "committed" expected name data) (sorted_names (dom expected));
  mret remaining.

Definition discard_prepare (expected_names : gset string) (expected_hashes : gmap string string) : act sworld unit :=
  _ ← require (negb (bool_decide (expected_names = ∅)) && bool_decide (expected_names ⊆ allowed_names)
               && bool_decide (dom expected_hashes ⊆ expected_names)) "prepare recovery expectation is invalid";
  names ← directory_entries Prepare;
  _ ← require (bool_decide (names ⊆ expected_names)) "prepare component set does not match journal";
  _ ← for_in (λ name,
        data ← read_regular Prepare name;
        _ ← require (match expected_hashes !! name with
                     | Some h => String.eqb (sha256 data) h | None => true end)
              ("prepare hash mismatch for " +:+ name);
        pure (validated "prepared" name data)) (sorted_names names);
  _ ← for_in (λ name, _ ← unlink Prepare name; hook ("prepare_unlinked:" +:+ name)) (sorted_names names);
  _ ← sync_directory;
  _ ← rmdir Prepare;
  sync_directory.

(** One turn of the loop of [_roll_forward]. *)
Definition promote_component (name : string) : act sworld unit :=
  present ← lexists (λ s, has (st_root s !! name));
  _ ← (if present : bool then
         old ← read_regular Root name;
         _ ← pure (validate_component name old);
         _ ← unlink Root name;
         hook ("root_unlinked:" +:+ name)
       else mret tt);
  _ ← promote name;
  _ ← sync_directory;
  _ ← sync_directory;
  hook ("component_promoted:" +:+ name).

Definition roll_forward (expected : gmap string string) : act sworld unit :=
  remaining ← validate_commit expected;
  _ ← for_in promote_component (sorted_names remaining);
  _ ← rmdir Commit;
  _ ← sync_directory;
  hook "root_synced".

Definition cross_commit_boundary (expected : gmap string string) : act sworld unit :=
  _ ← validate_prepare expected;
  _ ← rename_prepare_to_commit;
  _ ← sync_directory;
  _ ← hook "prepare_renamed_to_commit";
  roll_forward expected.

Definition recover (expected : gmap string string) : act sworld string :=
  prepare ← lexists_dir Prepare;
  action ← (if prepare : bool then _ ← discard_prepare (dom expected) expected; mret "prepare-discarded"
            else mret "clean");
  commit ← lexists_dir Commit;
  if commit : bool then _ ← roll_forward expected; mret "commit-rolled-forward" else mret action.
End calls.
End store.
