(* ===== verification/StoreRecovery.v ===== *)
(** * Crash recovery of the component store

    Whatever call of a transaction fails or is never made, the store is in one
    of the states below, from which a recovery that is not itself interrupted
    reaches a clean store: with the old components when the commit boundary
    was not crossed, with the new ones when it was. *)
From S2P Require Import Prelude PyValue Sha256 Effect Bytes KeyedArchive CatacombOracle CatacombCodec UserMapping CatacombStore.
From stdpp Require Import gmap.

#[local] Open Scope Z_scope.

(** ** Reasoning about interrupted runs

    [swp f m Q P s]: from the store [s], [m] returns with [Q] or stops with
    [P], whatever the number of calls made before. *)
Section swp.
Context (f : faults).

Definition interrupted : Prop := ∃ n, fa_fails f n = true ∨ fa_written f n <= 0.
Definition swp {A} (m : act sworld A) (Q : A → store → Prop) (P : store → Prop) (s : store) : Prop :=
  ∀ n, wp m (λ a w, Q a (sw_store w)) (λ _ w, P (sw_store w)) (SWorld s n).

Lemma swp_bind {A B} (m : act sworld A) (k : A → act sworld B) Q P s :
  swp m (λ a s', swp (k a) Q P s') P s → swp (m ≫= k) Q P s.
Proof.
  intros H n. apply wp_bind. eapply wp_weaken; [apply H| |done]. cbv beta. intros a [s' n'] Ha. apply Ha.
Qed.

Lemma swp_weaken {A} (m : act sworld A) (Q Q' : A → store → Prop) (P P' : store → Prop) s :
  swp m Q P s → (∀ a s, Q a s → Q' a s) → (∀ s, P s → P' s) → swp m Q' P' s.
Proof. intros H HQ HP n. eapply wp_weaken; [apply H| |]; cbv beta; auto. Qed.

Lemma swp_ret {A} (a : A) (Q : A → store → Prop) P s : Q a s → swp (mret a) Q P s.
Proof. by intros H n. Qed.

Lemma swp_throw {A} c msg (Q : A → store → Prop) (P : store → Prop) s : P s → swp (throw c msg) Q P s.
Proof. by intros H n. Qed.

Lemma swp_pure {A} (m : result A) a (Q : A → store → Prop) P s : m = Ok a → Q a s → swp (pure m) Q P s.
Proof. intros -> H n. exact H. Qed.

Lemma swp_require (b : bool) msg (Q : unit → store → Prop) P s : b = true → Q tt s → swp (require b msg) Q P s.
Proof. intros -> H n. exact H. Qed.

Lemma swp_syscall {A} (e : store → result (A * store)) a s' (Q : A → store → Prop) (P : store → Prop) s :
  (interrupted → P s) → e s = Ok (a, s') → Q a s' → swp (syscall f e) Q P s.
Proof.
  intros HP He HQ n. unfold wp, syscall. cbn [sw_calls sw_store]. destruct (fa_fails f n) eqn:Hf.
  - apply HP. exists n. by left.
  - by rewrite He.
Qed.

Lemma swp_look {A} (q : store → result A) a (Q : A → store → Prop) (P : store → Prop) s :
  (interrupted → P s) → q s = Ok a → Q a s → swp (look f q) Q P s.
Proof. intros HP Hq HQ. eapply swp_syscall; [done| |exact HQ]. by rewrite Hq. Qed.

(** A failing [os.path.lexists] says no. *)
Lemma swp_lexists (q : store → bool) (Q : bool → store → Prop) (P : store → Prop) s :
  (interrupted → Q false s) → Q (q s) s → swp (lexists f q) Q P s.
Proof.
  intros HP HQ n. apply wp_catch. unfold wp, look, syscall. cbn [sw_calls sw_store].
  destruct (fa_fails f n) eqn:Hf; cbn; [|done]. apply HP. exists n. by left.
Qed.

Lemma swp_lexists_absent (q : store → bool) (Q : bool → store → Prop) (P : store → Prop) s :
  q s = false → Q false s → swp (lexists f q) Q P s.
Proof. intros Hq HQ. by apply swp_lexists; [|rewrite Hq]. Qed.

Lemma swp_change (g : store → result store) s' (Q : unit → store → Prop) (P : store → Prop) s :
  (interrupted → P s) → g s = Ok s' → Q tt s' → swp (change f g) Q P s.
Proof. intros HP Hg HQ. eapply swp_syscall; [done| |exact HQ]. by rewrite Hg. Qed.

Lemma swp_sync (Q : unit → store → Prop) (P : store → Prop) s :
  (interrupted → P s) → Q tt s → swp (sync_directory f) Q P s.
Proof. intros HP HQ. by eapply swp_change. Qed.

Lemma swp_hook msg (Q : unit → store → Prop) (P : store → Prop) s :
  (interrupted → P s) → Q tt s → swp (hook f msg) Q P s.
Proof. intros HP HQ. by eapply swp_change. Qed.

(** The invariant of a loop is indexed by what is left of the list. *)
Lemma swp_for {A} (body : A → act sworld unit) (I : list A → store → Prop) (P : store → Prop) l s :
  (∀ x l s, I (x :: l) s → swp (body x) (λ _ s', I l s') P s) → I l s → swp (for_in body l) (λ _ s', I [] s') P s.
Proof.
  intros Hb. revert s. induction l as [|x l IH]; intros s HI; [by apply swp_ret|].
  cbn [for_in]. apply swp_bind. eapply swp_weaken; [by apply Hb|cbv beta|done]. intros _ s'. apply IH.
Qed.

(** A loop that only looks. *)
Lemma swp_for_look {A} (body : A → act sworld unit) (Q : unit → store → Prop) (P : store → Prop) l s :
  (∀ x, x ∈ l → swp (body x) (λ _ s', s' = s) P s) → Q tt s → swp (for_in body l) Q P s.
Proof.
  intros Hb HQ. eapply swp_weaken; [apply (swp_for body (λ l' s', l' ⊆ l ∧ s' = s))| |done].
  - intros x l' s' [Hl ->]. eapply swp_weaken; [apply Hb, Hl, list_elem_of_here| |done].
    cbv beta. intros _ s' ->. split; [|done]. intros y Hy. by apply Hl, list_elem_of_further.
  - by split.
  - cbv beta. by intros [] s' [_ ->].
Qed.

(** Reading off a run. *)
Lemma swp_run {A} (m : act sworld A) Q P s n : swp m Q P s →
  match m (SWorld s n) with (Ok a, w) => Q a (sw_store w) | (Raise _, w) => P (sw_store w) end.
Proof. intros H. specialize (H n). exact H. Qed.
End swp.

(** ** Names *)

Lemma elem_of_sorted_names x (names : gset string) : x ∈ sorted_names names ↔ x ∈ names.
Proof. unfold sorted_names, sorted_strings. by rewrite merge_sort_Permutation, elem_of_elements. Qed.

Lemma sorted_names_NoDup (names : gset string) : NoDup (sorted_names names).
Proof. unfold sorted_names, sorted_strings. rewrite merge_sort_Permutation. apply NoDup_elements. Qed.

Lemma hex_width_32 z : 0 <= z <= 0xFFFFFFFF → hex_width z = 8%nat.
Proof.
  intros Hz. unfold hex_width. destruct (decide (z = 0)) as [->|Hne]; [done|].
  assert (Z.log2 z < 32) as Hl by (apply Z.log2_lt_pow2; lia). pose proof (Z.log2_nonneg z).
  assert (Z.log2 z / 4 < 8) by (apply Z.div_lt_upper_bound; lia). lia.
Qed.

Lemma user_component_name z : 0 <= z <= 0xFFFFFFFF → transaction_name (user_component z) = true.
Proof.
  intros Hz. unfold transaction_name, user_component, hex08. rewrite (hex_width_32 _ Hz).
  pose proof (hex_fixed_length 8 z "") as Hl. pose proof (hex_fixed_lower 8 z "" eq_refl) as Hc.
  set (h := hex_fixed 8 z "") in *. clearbody h. apply orb_true_iff. right.
  do 8 (destruct h as [|? h]; [discriminate Hl|]). destruct h; [|discriminate Hl].
  apply andb_true_iff. split; [|reflexivity]. apply andb_true_iff. split; [reflexivity|exact Hc].
Qed.

Lemma component_names_Ok z allowed : component_names z = Ok allowed →
  allowed = {["master.cat"; "biolockout.cat"; user_component z]} ∧ ∀ n, n ∈ allowed → transaction_name n = true.
Proof.
  unfold component_names. destruct (negb _) eqn:Hz; [done|]. apply negb_false_iff in Hz. intros [= <-].
  split; [done|]. intros n Hn. apply andb_true_iff in Hz as [?%Z.leb_le ?%Z.leb_le].
  assert (n = "master.cat" ∨ n = "biolockout.cat" ∨ n = user_component z) as [->|[->| ->]] by set_solver;
    [reflexivity|reflexivity|by apply user_component_name].
Qed.

(** ** The states of a transaction *)

Section transaction.
Context (plist_loads : bytes → result plist) (apple_uid : Z) (allowed : gset string).
Context (expected : gmap string string) (old : gmap string dfile).

(** A file that reads back as a valid component. *)
Record sound_file (name : string) (file : dfile) : Prop := {
  sf_safe : df_safe file = true;
  sf_size : Z.of_nat (length (df_content file)) <= 1024 * 1024;
  sf_valid : validate_component plist_loads apple_uid name (df_content file) = Ok tt;
}.
(** The component that the transaction is to install. *)
Record new_file (name : string) (file : dfile) : Prop := {
  nf_sound : sound_file name file;
  nf_hash : expected !! name = Some (sha256 (df_content file));
}.

(** What the transaction starts from: its components are named by the store,
    and what they replace is sound. *)
Record transaction_ok : Prop := {
  ok_names : component_names apple_uid = Ok allowed;
  ok_expected : dom expected ⊆ allowed;
  ok_some : expected ≠ ∅;
  ok_old : ∀ n file, n ∈ dom expected → old !! n = Some file → sound_file n file;
}.

(** Before the boundary: the root is the old one, and [prepare/] holds some of
    the new components. *)
Definition preparing (names : gset string) (s : store) : Prop :=
  st_root s = old ∧ st_commit s = None ∧ ∃ d, st_prepare s = Some d ∧ d_private d = true
  ∧ dom (d_files d) = names ∧ map_Forall new_file (d_files d).
(** The root while the components [names] are still to be promoted. *)
Definition root_with (names : gset string) (root : gmap string dfile) : Prop :=
  (∀ n, n ∉ dom expected → root !! n = old !! n)
  ∧ (∀ n, n ∈ names → root !! n = old !! n ∨ root !! n = None)
  ∧ (∀ n, n ∈ dom expected → n ∉ names → ∃ file, root !! n = Some file ∧ new_file n file).
(** After it: what is not in the root yet is in [commit/]. *)
Definition committing (names : gset string) (s : store) : Prop :=
  st_prepare s = None ∧ names ⊆ dom expected ∧ root_with names (st_root s)
  ∧ ∃ d, st_commit s = Some d ∧ d_private d = true ∧ dom (d_files d) = names ∧ map_Forall new_file (d_files d).
Definition clean_old (s : store) : Prop := st_root s = old ∧ st_prepare s = None ∧ st_commit s = None.
Definition clean_new (s : store) : Prop := root_with ∅ (st_root s) ∧ st_prepare s = None ∧ st_commit s = None.

(** The boundary was not crossed, or it was. *)
Definition rolls_back (s : store) : Prop := clean_old s ∨ ∃ names, names ⊆ dom expected ∧ preparing names s.
Definition rolls_forward (s : store) : Prop := clean_new s ∨ ∃ names, committing names s.

Context (Hok : transaction_ok).

Lemma expected_name n : n ∈ dom expected → transaction_name n = true.
Proof. intros Hn. by eapply component_names_Ok; [apply Hok|apply Hok]. Qed.

Lemma names_fine names : names ⊆ dom expected → forallb transaction_name (elements names) = true.
Proof.
  intros Hn. apply forallb_forall. intros x Hx. apply list_elem_of_In, elem_of_elements in Hx. by apply expected_name, Hn.
Qed.

Section looks.
Context (f : faults).

Lemma read_sound p n file (Q : bytes → store → Prop) (P : store → Prop) s :
  (interrupted f → P s) → files_at s p !! n = Some file → sound_file n file → Q (df_content file) s →
  swp (read_regular f p n) Q P s.
Proof.
  intros HP Hf [Hs Hl _] HQ. eapply swp_look; [done| |exact HQ]. rewrite Hf, Hs.
  by rewrite (proj2 (Z.leb_le _ _) Hl).
Qed.

Lemma check_new what n file (Q : unit → store → Prop) P s : new_file n file → Q tt s →
  swp (check_component plist_loads apple_uid what expected n (df_content file)) Q P s.
Proof.
  intros [[_ _ Hv] Hh] HQ. unfold check_component. apply swp_bind, swp_require; [by apply bool_decide_eq_true_2|].
  by eapply swp_pure.
Qed.

Lemma entries_prepare names s (Q : gset string → store → Prop) (P : store → Prop) : names ⊆ dom expected →
  preparing names s → (interrupted f → P s) → Q names s → swp (directory_entries f Prepare) Q P s.
Proof.
  intros Hn (_ & _ & d & Hd & Hp & Hdom & _) HP HQ. unfold directory_entries, require_private_directory.
  apply swp_bind. eapply swp_look; [done|by rewrite Hd, Hp|].
  eapply swp_look; [done| |exact HQ]. unfold files_at. rewrite Hd. cbn [from_option]. rewrite Hdom.
  by rewrite (names_fine _ Hn).
Qed.

Lemma entries_commit names s (Q : gset string → store → Prop) (P : store → Prop) :
  committing names s → (interrupted f → P s) → Q names s → swp (directory_entries f Commit) Q P s.
Proof.
  intros (_ & Hn & _ & d & Hd & Hp & Hdom & _) HP HQ. unfold directory_entries, require_private_directory.
  apply swp_bind. eapply swp_look; [done|by rewrite Hd, Hp|].
  eapply swp_look; [done| |exact HQ]. unfold files_at. rewrite Hd. cbn [from_option]. rewrite Hdom.
  by rewrite (names_fine _ Hn).
Qed.

Lemma validate_prepare_swp s (Q : unit → store → Prop) (P : store → Prop) : preparing (dom expected) s →
  (interrupted f → P s) → Q tt s → swp (validate_prepare plist_loads apple_uid allowed f expected) Q P s.
Proof.
  intros Hs HP HQ. unfold validate_prepare. apply swp_bind. eapply entries_prepare; [done|exact Hs|done|].
  apply swp_bind, swp_require; [by rewrite !bool_decide_eq_true_2 by (try done; apply Hok)|].
  destruct Hs as (_ & _ & d & Hd & _ & Hdom & Hall).
  apply swp_for_look; [|done]. intros n Hn%elem_of_sorted_names. rewrite <-Hdom in Hn.
  apply elem_of_dom in Hn as [file Hfile]. pose proof (Hall _ _ Hfile) as Hnew. apply swp_bind.
  eapply read_sound; [done| |apply Hnew|]; [by unfold files_at; rewrite Hd|]. by apply check_new.
Qed.

Lemma validate_commit_swp names s (Q : gset string → store → Prop) (P : store → Prop) : committing names s →
  (interrupted f → P s) → Q names s → swp (validate_commit plist_loads apple_uid allowed f expected) Q P s.
Proof.
  intros Hs HP HQ. unfold validate_commit. apply swp_bind. eapply entries_commit; [exact Hs|done|].
  destruct Hs as (_ & Hn & (_ & _ & Hroot) & d & Hd & _ & Hdom & Hall).
  apply swp_bind, swp_require; [rewrite !bool_decide_eq_true_2; [done|apply Hok|done]|].
  apply swp_bind, swp_for_look; [|by apply swp_ret]. intros n Hin%elem_of_sorted_names. apply swp_bind.
  case_bool_decide as Hc.
  - rewrite <-Hdom in Hc. apply elem_of_dom in Hc as [file Hfile]. pose proof (Hall _ _ Hfile) as Hnew.
    eapply read_sound; [done| |apply Hnew|]; [by unfold files_at; rewrite Hd|]. by apply check_new.
  - destruct (Hroot _ Hin Hc) as (file & Hfile & Hnew). eapply read_sound; [done|exact Hfile|apply Hnew|]. by apply check_new.
Qed.

(** ** The boundary is not crossed *)

Definition stopped_before (s : store) : Prop := interrupted f ∧ rolls_back s.
Definition stopped_after (s : store) : Prop := interrupted f ∧ rolls_forward s.

Lemma preparing_back names s : names ⊆ dom expected → preparing names s → interrupted f → stopped_before s.
Proof. intros Hn Hs Hi. split; [done|]. right. by exists names. Qed.

Lemma unlink_prepare n names s : n ∉ names → preparing ({[n]} ∪ names) s → ∃ s',
  (match files_at s Prepare !! n with
   | None => raise OSError "No such file or directory"
   | Some _ => Ok (s <| st_prepare := (λ d, d <| d_files := delete n (d_files d) |>) <$> st_prepare s |>)
   end = Ok s') ∧ preparing names s'.
Proof.
  intros Hn (Hr & Hc & d & Hd & Hp & Hdom & Hall).
  assert (n ∈ dom (d_files d)) as [file Hfile]%elem_of_dom by (rewrite Hdom; set_solver).
  unfold files_at. rewrite Hd. cbn [from_option]. rewrite Hfile. eexists. split; [reflexivity|].
  split; [exact Hr|]. split; [exact Hc|]. eexists. split; [reflexivity|]. split; [exact Hp|]. cbn [d_files set_field].
  split; [rewrite dom_delete_L, Hdom; set_solver|]. by apply map_Forall_delete.
Qed.

Lemma discard_prepare_swp names s (Q : unit → store → Prop) : names ⊆ dom expected → preparing names s →
  (∀ s', clean_old s' → Q tt s') →
  swp (discard_prepare plist_loads apple_uid allowed f (dom expected) expected) Q stopped_before s.
Proof.
  intros Hn Hs HQ. unfold discard_prepare. apply swp_bind, swp_require.
  { rewrite (bool_decide_eq_false_2 (dom expected = ∅)) by (intros H%dom_empty_inv_L; by apply (ok_some Hok)).
    by rewrite !bool_decide_eq_true_2 by (try done; apply Hok). }
  assert (∀ X s, X ⊆ dom expected → preparing X s → interrupted f → stopped_before s) as HP
    by (intros; by eapply preparing_back).
  apply swp_bind. eapply entries_prepare; [done|exact Hs|by apply HP with names|].
  apply swp_bind, swp_require; [by apply bool_decide_eq_true_2|].
  apply swp_bind, swp_for_look.
  { destruct Hs as (Hr & Hc & d & Hd & Hp & Hdom & Hall). intros n Hin%elem_of_sorted_names. rewrite <-Hdom in Hin.
    apply elem_of_dom in Hin as [file Hfile]. pose proof (Hall _ _ Hfile) as Hnew. apply swp_bind.
    eapply read_sound; [| |apply Hnew|].
    - apply HP with names; [done|]. split; [done|]. split; [done|]. by exists d.
    - unfold files_at. by rewrite Hd.
    - destruct Hnew as [[_ _ Hv] Hh]. rewrite Hh. apply swp_bind, swp_require; [apply String.eqb_refl|].
      eapply swp_pure; [|done]. unfold validated. by rewrite Hv. }
  apply swp_bind. eapply swp_weaken; [apply (swp_for _ (λ l s', NoDup l ∧ list_to_set l ⊆ dom expected
      ∧ preparing (list_to_set l) s'))| |done]; cbv beta.
  - intros n l s1 ([Hnl Hnd]%NoDup_cons & Hsub & H1). apply swp_bind.
    destruct (unlink_prepare n (list_to_set l) s1) as (s2 & He & H2); [by rewrite elem_of_list_to_set|done|].
    eapply swp_change; [by eapply HP|exact He|].
    assert (list_to_set l ⊆ dom expected) as Hsub2 by set_solver.
    apply swp_hook; [by eapply HP|done].
  - split; [apply sorted_names_NoDup|].
    assert (list_to_set (sorted_names names) = names) as ->; [|done].
    apply set_eq. intros x. by rewrite elem_of_list_to_set, elem_of_sorted_names.
  - intros _ s1 (_ & Hsub & H1). apply swp_bind, swp_sync; [by eapply HP|].
    assert (∃ s2, (if bool_decide (files_at s1 Prepare = ∅) then Ok (s1 <| st_prepare := None |>)
      else raise OSError "Directory not empty") = Ok s2 ∧ clean_old s2) as (s2 & He & H2).
    { destruct H1 as (Hr & Hc & d & Hd & _ & Hdom & _). unfold files_at. rewrite Hd. cbn [from_option].
      apply dom_empty_inv_L in Hdom. rewrite Hdom, bool_decide_eq_true_2 by done. by eexists. }
    apply swp_bind. eapply swp_change; [by eapply HP|exact He|].
    apply swp_sync; [|by apply HQ]. intros Hi. split; [done|by left].
Qed.

(** ** The boundary is crossed *)

Lemma committing_forward names s : committing names s → interrupted f → stopped_after s.
Proof. intros Hs Hi. split; [done|]. right. by exists names. Qed.

Lemma unlink_root n names s : n ∈ names → committing names s → committing names (s <| st_root := delete n (st_root s) |>).
Proof.
  intros Hn (Hp & Hsub & (H1 & H2 & H3) & Hc). split; [done|]. split; [done|]. split; [|done]. cbn [st_root set_field].
  split_and!.
  - intros x Hx. rewrite lookup_delete_ne; [by apply H1|]. intros ->. by apply Hx, Hsub.
  - intros x Hx. destruct (decide (x = n)) as [->|Hne]; [right; apply lookup_delete_eq|].
    rewrite lookup_delete_ne by done. by apply H2.
  - intros x Hx Hxn. rewrite lookup_delete_ne; [by apply H3|]. by intros ->.
Qed.

Lemma promote_root n names s : n ∉ names → committing ({[n]} ∪ names) s → ∃ s',
  (match st_commit s with
   | Some c =>
       match d_files c !! n with
       | Some file => Ok (s <| st_root := <[n := file]> (st_root s) |>
                            <| st_commit := Some (c <| d_files := delete n (d_files c) |>) |>)
       | None => raise OSError "No such file or directory"
       end
   | None => raise OSError "No such file or directory"
   end = Ok s') ∧ committing names s'.
Proof.
  intros Hn (Hp & Hsub & (H1 & H2 & H3) & d & Hd & Hpr & Hdom & Hall).
  assert (n ∈ dom (d_files d)) as [file Hfile]%elem_of_dom by (rewrite Hdom; set_solver).
  rewrite Hd, Hfile. eexists. split; [reflexivity|]. split; [exact Hp|]. split; [set_solver|]. split; [split_and!|].
  - intros x Hx. cbn. rewrite lookup_insert_ne; [by apply H1|]. intros ->. set_solver.
  - intros x Hx. cbn. rewrite lookup_insert_ne by (by intros ->). apply H2. set_solver.
  - intros x Hx Hxn. cbn. destruct (decide (x = n)) as [->|Hne].
    + exists file. split; [apply lookup_insert_eq|]. by apply Hall.
    + rewrite lookup_insert_ne by done. apply H3; [done|set_solver].
  - eexists. split; [reflexivity|]. split; [exact Hpr|]. cbn. split; [rewrite dom_delete_L, Hdom; set_solver|].
    by apply map_Forall_delete.
Qed.

Lemma promote_swp n names s (Q : unit → store → Prop) : n ∉ names → committing ({[n]} ∪ names) s →
  (∀ s', committing names s' → Q tt s') → swp (promote_component plist_loads apple_uid f n) Q stopped_after s.
Proof.
  intros Hn Hs HQ. unfold promote_component.
  assert (∀ X s, committing X s → interrupted f → stopped_after s) as HP by (intros; by eapply committing_forward).
  assert (∀ s, committing ({[n]} ∪ names) s → swp (_ ← promote f n; _ ← sync_directory f; _ ← sync_directory f;
    hook f ("component_promoted:" +:+ n)) Q stopped_after s) as Hrest.
  { intros s1 H1. destruct (promote_root n names s1 Hn H1) as (s2 & He & H2).
    apply swp_bind. eapply swp_change; [by eapply HP|exact He|].
    apply swp_bind, swp_sync; [by eapply HP|]. apply swp_bind, swp_sync; [by eapply HP|].
    apply swp_hook; [by eapply HP|]. by apply HQ. }
  apply swp_bind. apply swp_lexists; [intros _; by apply swp_bind, swp_ret, Hrest|].
  destruct (st_root s !! n) as [file|] eqn:Hfile; cbn [has].
  2:{ apply swp_bind, swp_ret. by apply Hrest. }
  assert (n ∈ dom expected) as Hin by (destruct Hs as (_ & Hsub & _); set_solver).
  assert (sound_file n file) as Hsound.
  { destruct Hs as (_ & _ & (_ & H2 & _) & _). destruct (H2 n) as [E|E]; [set_solver| |congruence].
    apply (ok_old Hok _ _ Hin). congruence. }
  apply swp_bind, swp_bind. eapply read_sound; [by eapply HP|exact Hfile|done|].
  apply swp_bind. eapply swp_pure; [by apply Hsound|]. apply swp_bind.
  assert (committing ({[n]} ∪ names) (s <| st_root := delete n (st_root s) |>)) as H1 by (apply unlink_root; [set_solver|done]).
  unfold unlink. eapply swp_change; [by eapply HP|cbn [files_at]; by rewrite Hfile|].
  apply swp_hook; [by eapply HP|]. by apply Hrest.
Qed.

Lemma roll_forward_swp names s (Q : unit → store → Prop) : committing names s →
  (∀ s', clean_new s' → Q tt s') →
  swp (roll_forward plist_loads apple_uid allowed f expected) Q stopped_after s.
Proof.
  intros Hs HQ. unfold roll_forward.
  assert (∀ X s, committing X s → interrupted f → stopped_after s) as HP by (intros; by eapply committing_forward).
  apply swp_bind. eapply validate_commit_swp; [exact Hs|by eapply HP|].
  apply swp_bind. eapply swp_weaken; [apply (swp_for _ (λ l s', NoDup l ∧ committing (list_to_set l) s'))| |done]; cbv beta.
  - intros n l s1 [[Hnl Hnd]%NoDup_cons H1]. eapply promote_swp; [|exact H1|done]. by rewrite elem_of_list_to_set.
  - split; [apply sorted_names_NoDup|].
    assert (list_to_set (sorted_names names) = names) as ->; [|done].
    apply set_eq. intros x. by rewrite elem_of_list_to_set, elem_of_sorted_names.
  - intros _ s1 [_ H1]. apply swp_bind.
    assert (∃ s2, (if bool_decide (files_at s1 Commit = ∅) then Ok (s1 <| st_commit := None |>)
      else raise OSError "Directory not empty") = Ok s2 ∧ clean_new s2) as (s2 & He & H2).
    { destruct H1 as (Hp & _ & Hr & d & Hd & _ & Hdom & _). unfold files_at. rewrite Hd. cbn [from_option].
      apply dom_empty_inv_L in Hdom. rewrite Hdom, bool_decide_eq_true_2 by done. eexists. split; [reflexivity|].
      split; [exact Hr|]. by split. }
    eapply swp_change; [by eapply HP|exact He|].
    assert (interrupted f → stopped_after s2) as HP2 by (intros Hi; split; [done|by left]).
    apply swp_bind, swp_sync; [done|]. apply swp_hook; [done|]. by apply HQ.
Qed.

(** ** Whole operations *)

Lemma rename_crosses s : preparing (dom expected) s → ∃ s',
  (match st_prepare s, st_commit s with
   | None, _ => raise OSError "No such file or directory"
   | Some d, None => Ok (s <| st_prepare := None |> <| st_commit := Some d |>)
   | Some d, Some c => if bool_decide (d_files c = ∅) then Ok (s <| st_prepare := None |> <| st_commit := Some d |>)
                       else raise OSError "Directory not empty"
   end = Ok s') ∧ committing (dom expected) s'.
Proof.
  intros (Hr & Hc & d & Hd & Hp & Hdom & Hall). rewrite Hd, Hc. eexists. split; [reflexivity|].
  split; [done|]. split; [done|]. split; [|by exists d]. cbn. rewrite Hr. split_and!; [done|by left|done].
Qed.

Definition stopped (s : store) : Prop := interrupted f ∧ (rolls_back s ∨ rolls_forward s).

Lemma cross_commit_swp s : preparing (dom expected) s →
  swp (cross_commit_boundary plist_loads apple_uid allowed f expected) (λ _, clean_new) stopped s.
Proof.
  intros Hs. unfold cross_commit_boundary.
  assert (interrupted f → stopped s) as HP by (intros Hi; split; [done|left; right; by exists (dom expected)]).
  apply swp_bind, validate_prepare_swp; [done..|].
  destruct (rename_crosses s Hs) as (s1 & He & H1). apply swp_bind. eapply swp_change; [done|exact He|].
  assert (interrupted f → stopped s1) as HP1 by (intros Hi; split; [done|right; right; by exists (dom expected)]).
  apply swp_bind, swp_sync; [done|]. apply swp_bind, swp_hook; [done|].
  eapply swp_weaken; [by eapply roll_forward_swp with (Q := λ _, clean_new)|done|].
  intros s2 [Hi H2]. split; [done|by right].
Qed.

(** A recovery goes where the boundary says, or stops on its side of it - or
    passes over what a failing call hid from it. *)
Lemma recover_swp s :
  (rolls_back s → swp (recover plist_loads apple_uid allowed f expected) (λ _ s', clean_old s' ∨ stopped_before s') stopped_before s)
  ∧ (rolls_forward s → swp (recover plist_loads apple_uid allowed f expected) (λ _ s', clean_new s' ∨ stopped_after s') stopped_after s).
Proof.
  assert (∀ s (Q : string → store → Prop) P, (∀ a, Q a s) → st_prepare s = None → st_commit s = None →
    swp (recover plist_loads apple_uid allowed f expected) Q P s) as Hclean.
  { intros s1 Q P HQ Hp Hc. unfold recover. apply swp_bind, swp_lexists_absent; [by rewrite Hp|].
    apply swp_bind, swp_ret, swp_bind, swp_lexists_absent; [by rewrite Hc|]. by apply swp_ret. }
  split; [intros Hs|intros Hs]; destruct Hs as [(Hr & Hp & Hc)|(names & Hs)].
  - apply Hclean; [|done|done]. intros _. by left.
  - destruct Hs as [Hn Hs]. assert (interrupted f → stopped_before s) as HP by (by apply (preparing_back names)).
    unfold recover. apply swp_bind. pose proof Hs as (_ & Hc & d & Hd & _). apply swp_lexists.
    { intros Hi. apply swp_bind, swp_ret, swp_bind, swp_lexists_absent; [by rewrite Hc|]. apply swp_ret. right. by apply HP. }
    rewrite Hd. cbn [has]. apply swp_bind, swp_bind. eapply discard_prepare_swp; [exact Hn|exact Hs|]. intros s1 H1.
    apply swp_ret, swp_bind. pose proof H1 as (_ & _ & Hc1).
    apply swp_lexists_absent; [by rewrite Hc1|]. apply swp_ret. by left.
  - apply Hclean; [|done|done]. intros _. by left.
  - assert (interrupted f → stopped_after s) as HP by (by apply (committing_forward names)).
    pose proof Hs as (Hp & _ & _ & d & Hd & _).
    assert (∀ action, swp (commit ← lexists_dir f Commit;
      if commit : bool then _ ← roll_forward plist_loads apple_uid allowed f expected; mret "commit-rolled-forward" else mret action)
      (λ _ s', clean_new s' ∨ stopped_after s') stopped_after s) as Hrest.
    { intros action. apply swp_bind. apply swp_lexists; [intros Hi; apply swp_ret; right; by apply HP|]. rewrite Hd. cbn [has].
      apply swp_bind. eapply roll_forward_swp; [exact Hs|]. intros s1 H1. apply swp_ret. by left. }
    unfold recover. apply swp_bind, swp_lexists_absent; [by rewrite Hp|]. by apply swp_bind, swp_ret, Hrest.
Qed.
End looks.

(** The stores that any number of recoveries, each with its own faults, lead
    through. *)
Inductive recoveries : store → store → Prop :=
  | recoveries_none s : recoveries s s
  | recoveries_more f n s s' :
      recoveries (sw_store (recover plist_loads apple_uid allowed f expected (SWorld s n)).2) s' → recoveries s s'.

Lemma recoveries_keep_side s s' : recoveries s s' →
  (rolls_back s → rolls_back s') ∧ (rolls_forward s → rolls_forward s').
Proof.
  induction 1 as [s|f n s s' _ [IH1 IH2]]; [done|]. destruct (recover_swp f s) as [H1 H2].
  split; intros Hs.
  - apply IH1. specialize (H1 Hs n). unfold wp in H1. destruct (recover _ _ _ _ _ _) as [[a|e] w]; [destruct H1 as [?|[_ ?]]; [by left|done]|by apply H1].
  - apply IH2. specialize (H2 Hs n). unfold wp in H2. destruct (recover _ _ _ _ _ _) as [[a|e] w]; [destruct H2 as [?|[_ ?]]; [by left|done]|by apply H2].
Qed.

Lemma recovery_concludes g m s : ¬ interrupted g → rolls_back s ∨ rolls_forward s → ∃ a w,
  recover plist_loads apple_uid allowed g expected (SWorld s m) = (Ok a, w)
  ∧ (rolls_back s → clean_old (sw_store w)) ∧ (rolls_forward s → clean_new (sw_store w)).
Proof.
  intros Hg Hs. destruct (recover_swp g s) as [H1 H2].
  destruct (recover plist_loads apple_uid allowed g expected (SWorld s m)) as [[a|e] w] eqn:E.
  - exists a, w. split; [done|]. split; intros H.
    + specialize (H1 H m). unfold wp in H1. rewrite E in H1. by destruct H1 as [?|[? _]].
    + specialize (H2 H m). unfold wp in H2. rewrite E in H2. by destruct H2 as [?|[? _]].
  - exfalso. destruct Hs as [H|H].
    + specialize (H1 H m). unfold wp in H1. rewrite E in H1. by apply Hg, H1.
    + specialize (H2 H m). unfold wp in H2. rewrite E in H2. by apply Hg, H2.
Qed.
End transaction.

(** C19: A transaction is atomic.  Wherever [cross_commit_boundary] is cut off,
    it has or has not crossed the boundary; and however often the recoveries
    after it are cut off, the next one that is not succeeds and leaves a clean
    store: with every new component in the root when the boundary was crossed
    (in particular when the commit returned), with the old root when it was
    not.  Nothing else in the root changes. *)
Theorem transaction_atomic plist_loads apple_uid allowed expected old s f n :
  transaction_ok plist_loads apple_uid allowed expected old →
  preparing plist_loads apple_uid expected old (dom expected) s →
  let run := cross_commit_boundary plist_loads apple_uid allowed f expected (SWorld s n) in
  let crossed := rolls_forward plist_loads apple_uid expected old (sw_store run.2) in
  let kept := rolls_back plist_loads apple_uid expected old (sw_store run.2) in
  (kept ∨ crossed) ∧ (is_ok run.1 = true → clean_new plist_loads apple_uid expected old (sw_store run.2))
  ∧ ∀ s', recoveries plist_loads apple_uid allowed expected (sw_store run.2) s' → ∀ g m, ¬ interrupted g →
    ∃ action w, recover plist_loads apple_uid allowed g expected (SWorld s' m) = (Ok action, w)
      ∧ (kept → clean_old old (sw_store w)) ∧ (crossed → clean_new plist_loads apple_uid expected old (sw_store w)).
Proof.
  intros Hok Hs. cbv zeta. pose proof (cross_commit_swp plist_loads apple_uid allowed expected old Hok f s Hs n) as H.
  unfold wp in H. destruct (cross_commit_boundary _ _ _ _ _ _) as [r w]. cbn [fst snd] in *.
  assert (rolls_back plist_loads apple_uid expected old (sw_store w)
    ∨ rolls_forward plist_loads apple_uid expected old (sw_store w)) as Hside
    by (destruct r; [right; by left|by destruct H]).
  split; [done|]. split; [by destruct r|]. intros s' Hr g m Hg.
  destruct (recoveries_keep_side _ _ _ _ _ Hok _ _ Hr) as [K1 K2].
  destruct (recovery_concludes _ _ _ _ _ Hok g m s' Hg) as (a & w' & Hrun & Ho & Hn).
  { destruct Hside as [Hb|Hf]; [left|right]; auto. }
  exists a, w'. split; [done|]. split; auto.
Qed.

(** ** Staging *)

Section staging.
Context (plist_loads : bytes → result plist) (apple_uid : Z) (allowed : gset string).
Context (old : gmap string dfile) (data : gmap string bytes) (components : list (string * bytes)).

Definition staged_hashes : gmap string string := sha256 <$> data.

(** The components of a transaction: valid ones, under names of the store. *)
Record components_ok : Prop := {
  co_names : component_names apple_uid = Ok allowed;
  co_items : data = list_to_map components;
  co_unique : NoDup components.*1;
  co_allowed : dom data ⊆ allowed;
  co_some : data ≠ ∅;
  co_valid : ∀ n d, data !! n = Some d → sound_file plist_loads apple_uid n (DFile true d);
}.
Context (Hok : components_ok) (f : faults).

#[local] Abbreviation preparing_here names := (preparing plist_loads apple_uid staged_hashes old names).

(** Whatever happens, the root is the old one. *)
Definition untouched (s : store) : Prop := interrupted f ∧ st_root s = old ∧ st_commit s = None.

Lemma staged_names : dom staged_hashes = dom data.
Proof. unfold staged_hashes. by rewrite dom_fmap_L. Qed.

Lemma staged_new n d : data !! n = Some d → new_file plist_loads apple_uid staged_hashes n (DFile true d).
Proof. intros Hd. split; [by apply (co_valid Hok)|]. unfold staged_hashes. by rewrite lookup_fmap, Hd. Qed.

(** [prepare/] holds the staged [names], and [written] in the file [name]. *)
Definition writing (names : gset string) (name : string) (written : bytes) (s : store) : Prop :=
  st_root s = old ∧ st_commit s = None ∧ ∃ files, st_prepare s = Some (Dir true (<[name := DFile true written]> files))
  ∧ dom files = names ∧ map_Forall (new_file plist_loads apple_uid staged_hashes) files.

Lemma writing_step names name a b s : writing names name a s → ∃ s',
  put_prepare name (DFile true b) s = Ok s' ∧ writing names name b s'.
Proof.
  intros (Hr & Hc & files & Hp & Hd & Ha). unfold put_prepare. rewrite Hp. eexists. split; [reflexivity|].
  split; [done|]. split; [done|]. exists files. cbn. by rewrite insert_insert_eq.
Qed.

Lemma write_blocks_swp names name fuel : ∀ written rest s, (length rest ≤ fuel)%nat → writing names name written s →
  swp (write_blocks f fuel name written rest) (λ _, writing names name (written ++ rest)) untouched s.
Proof.
  induction fuel as [|fuel IH]; intros written rest s Hl Hs.
  { destruct rest; [|cbn in Hl; lia]. cbn. apply swp_ret. by rewrite app_nil_r. }
  destruct rest as [|c rest]; [cbn; apply swp_ret; by rewrite app_nil_r|]. cbn [write_blocks].
  intros n. apply wp_bind, wp_self. cbn [sw_calls]. apply wp_bind, wp_throw_if; intros Hz.
  { split; [exists n; right; by apply Z.leb_le|]. destruct Hs as (? & ? & _). by split. }
  apply Z.leb_gt in Hz. set (k := Z.to_nat (fa_written f n)).
  destruct (writing_step names name written (written ++ take k (c :: rest)) s Hs) as (s1 & He & H1).
  revert n Hz k He H1. intros n Hz k He H1.
  assert (swp (_ ← change f (put_prepare name (DFile true (written ++ take k (c :: rest))));
    write_blocks f fuel name (written ++ take k (c :: rest)) (drop k (c :: rest)))
    (λ _, writing names name (written ++ c :: rest)) untouched s) as H; [|apply H].
  apply swp_bind. eapply swp_change; [|exact He|].
  - intros Hi. destruct Hs as (? & ? & _). by split.
  - eapply swp_weaken; [apply IH; [|exact H1]| |done].
    + rewrite length_drop. cbn [length] in *. subst k. lia.
    + cbv beta. intros _ s2. by rewrite <-app_assoc, take_drop.
Qed.

Lemma preparing_untouched names s : preparing_here names s → interrupted f → untouched s.
Proof. intros (? & ? & _) Hi. by split. Qed.
Lemma writing_untouched names name written s : writing names name written s → interrupted f → untouched s.
Proof. intros (? & ? & _) Hi. by split. Qed.

Lemma stage_component_swp names n d s (Q : string → store → Prop) : data !! n = Some d → n ∉ names → names ⊆ dom data →
  preparing_here names s → (∀ h s', preparing_here ({[n]} ∪ names) s' → Q h s') →
  swp (stage_component plist_loads apple_uid allowed f n d (dom data)) Q untouched s.
Proof.
  intros Hd Hn Hsub Hs HQ. unfold stage_component.
  apply swp_bind, swp_require.
  { rewrite !bool_decide_eq_true_2; [done|apply Hok|]. by apply elem_of_dom_2 in Hd. }
  pose proof (preparing_untouched names s Hs) as HP. apply swp_bind.
  pose proof Hs as (Hr & Hc & dr & Hp & Hpriv & Hdom & Hall).
  unfold directory_entries, require_private_directory. apply swp_bind. eapply swp_look; [done|by rewrite Hp, Hpriv|].
  eapply swp_look; [done| |].
  { unfold files_at. rewrite Hp. cbn [from_option]. rewrite Hdom.
    rewrite (proj2 (forallb_forall _ _)); [reflexivity|]. intros x Hx. apply list_elem_of_In, elem_of_elements in Hx.
    eapply component_names_Ok; [apply Hok|]. by apply (co_allowed Hok), Hsub. }
  apply swp_bind, swp_require; [by rewrite bool_decide_eq_true_2, bool_decide_eq_false_2 by done|].
  pose proof (staged_new _ _ Hd) as Hnew.
  apply swp_bind. eapply swp_pure.
  { unfold validated. change d with (df_content (DFile true d)). by rewrite (sf_valid _ _ _ _ (nf_sound _ _ _ _ _ Hnew)). }
  assert (d_files dr !! n = None) as Hnone by (apply not_elem_of_dom; by rewrite Hdom).
  apply swp_bind. unfold write_exclusive. apply swp_bind. eapply swp_change; [done| |].
  { unfold files_at. rewrite Hp. cbn [from_option]. rewrite Hnone. unfold put_prepare. rewrite Hp. reflexivity. }
  assert (writing names n [] (s <| st_prepare := Some (dr <| d_files := <[n:=DFile true []]> (d_files dr) |>) |>)) as H1.
  { split; [done|]. split; [done|]. exists (d_files dr). cbn. by rewrite Hpriv. }
  revert H1. generalize (s <| st_prepare := Some (dr <| d_files := <[n:=DFile true []]> (d_files dr) |>) |>). intros s1 H1.
  apply swp_bind. eapply swp_weaken; [by apply (write_blocks_swp names n (length d) [] d)|cbv beta|done].
  intros _ s2 H2. pose proof (writing_untouched _ _ _ _ H2) as HP2. cbn [app] in H2.
  apply swp_sync; [done|]. apply swp_bind, swp_sync; [done|]. apply swp_bind, swp_hook; [done|]. apply swp_ret, HQ.
  destruct H2 as (H2r & H2c & files & H2p & H2d & H2a). split; [done|]. split; [done|]. eexists. split; [exact H2p|].
  split; [done|]. cbn [d_files]. split; [by rewrite dom_insert_L, H2d|].
  apply map_Forall_insert_2; [done|done].
Qed.

Lemma stage_swp s : clean_old old s →
  swp (stage plist_loads apple_uid allowed f components) (λ h s', h = staged_hashes ∧ preparing_here (dom data) s') untouched s.
Proof.
  intros (Hr & Hp & Hc). unfold stage. rewrite <-(co_items Hok). cbv zeta.
  assert (interrupted f → untouched s) as HP by done.
  assert (negb (bool_decide (dom data = ∅)) && bool_decide (dom data ⊆ allowed) = true) as Hgate.
  { rewrite bool_decide_eq_false_2, bool_decide_eq_true_2; [done|apply Hok|].
    intros H%dom_empty_inv_L. by apply (co_some Hok). }
  apply swp_bind, swp_require; [done|].
  apply swp_bind, swp_for_look.
  { intros [n d] Hin. eapply swp_pure; [|done]. cbn [fst snd]. unfold validated.
    assert (data !! n = Some d) as Hd by (rewrite (co_items Hok); apply elem_of_list_to_map; [apply Hok|done]).
    change d with (df_content (DFile true d)). by rewrite (sf_valid _ _ _ _ (co_valid Hok _ _ Hd)). }
  apply swp_bind. unfold begin_stage. apply swp_bind, swp_require; [done|].
  apply swp_bind, swp_lexists_absent; [by rewrite Hp|].
  apply swp_bind, swp_lexists_absent; [by rewrite Hc|]. cbn [orb negb].
  apply swp_bind, swp_require; [done|].
  apply swp_bind. eapply swp_change; [done|by rewrite Hp|].
  assert (preparing_here ∅ (s <| st_prepare := Some (Dir true ∅) |>)) as H1.
  { split; [done|]. split; [done|]. eexists. split; [reflexivity|]. cbn. split; [done|]. split; [apply dom_empty_L|apply map_Forall_empty]. }
  revert H1. generalize (s <| st_prepare := Some (Dir true ∅) |>). intros s1 H1.
  pose proof (preparing_untouched _ _ H1) as HP1.
  apply swp_bind, swp_sync; [done|]. apply swp_hook; [done|].
  apply swp_bind. eapply swp_weaken; [apply (swp_for _ (λ l s', NoDup l ∧ list_to_set l ⊆ dom data
      ∧ preparing_here (dom data ∖ list_to_set l) s'))| |done]; cbv beta.
  - intros n l s2 ([Hnl Hnd]%NoDup_cons & Hsub & H2).
    assert (n ∈ dom data) as [d Hd]%elem_of_dom by set_solver.
    assert (n ∉ (list_to_set l : gset string)) as Hnl' by (by rewrite elem_of_list_to_set).
    apply swp_bind. rewrite Hd. cbn [default from_option]. eapply stage_component_swp; [exact Hd| | |exact H2|]; [set_solver..|].
    intros h s3 H3. apply swp_ret. split; [done|]. split; [set_solver|].
    replace (dom data ∖ list_to_set l) with ({[n]} ∪ dom data ∖ list_to_set (n :: l)); [done|].
    assert (n ∈ dom data) by (by apply elem_of_dom_2 in Hd). apply set_eq. intros x. cbn [list_to_set].
    destruct (decide (x = n)) as [->|]; set_solver.
  - assert (list_to_set (sorted_names (dom data)) = dom data) as ->.
    { apply set_eq. intros x. by rewrite elem_of_list_to_set, elem_of_sorted_names. }
    split; [apply sorted_names_NoDup|]. split; [done|]. by rewrite difference_diag_L.
  - intros _ s2 (_ & _ & H2). cbn [list_to_set] in H2. rewrite difference_empty_L in H2.
    pose proof (preparing_untouched _ _ H2) as HP2. apply swp_bind, swp_hook; [done|]. by apply swp_ret.
Qed.
End staging.

(** C20: A staged transaction installs its components.  Staging never touches
    the root, wherever it is cut off; and when nothing goes wrong it returns
    the digests of the components, with which the commit succeeds and puts a
    file of that digest under every name into the root - and changes no
    other. *)
Theorem staging_installs plist_loads apple_uid allowed old data components s n f :
  components_ok plist_loads apple_uid allowed data components → clean_old old s →
  (∀ name file, name ∈ dom data → old !! name = Some file → sound_file plist_loads apple_uid name file) →
  st_root (sw_store (stage plist_loads apple_uid allowed f components (SWorld s n)).2) = old
  ∧ (¬ interrupted f → ∃ w w',
      stage plist_loads apple_uid allowed f components (SWorld s n) = (Ok (sha256 <$> data), w)
      ∧ cross_commit_boundary plist_loads apple_uid allowed f (sha256 <$> data) w = (Ok tt, w')
      ∧ st_prepare (sw_store w') = None ∧ st_commit (sw_store w') = None
      ∧ (∀ name d, data !! name = Some d → ∃ file, st_root (sw_store w') !! name = Some file
           ∧ df_safe file = true ∧ sha256 (df_content file) = sha256 d)
      ∧ ∀ name, data !! name = None → st_root (sw_store w') !! name = old !! name).
Proof.
  intros Hok Hs Hold. pose proof (stage_swp plist_loads apple_uid allowed old data components Hok f s Hs n) as H.
  unfold wp in H. destruct (stage _ _ _ _ _ _) as [[h|e] w]; cbn [snd].
  2:{ split; [apply H|]. intros Hf. by destruct (Hf (proj1 H)). }
  destruct H as [-> Hprep]. split; [apply Hprep|]. intros Hf.
  assert (transaction_ok plist_loads apple_uid allowed (staged_hashes data) old) as Ht.
  { split; [apply Hok|rewrite staged_names; apply Hok| |by rewrite staged_names].
    intros E. apply (co_some _ _ _ _ _ Hok). apply dom_empty_inv_L. rewrite <-staged_names, E. apply dom_empty_L. }
  destruct w as [s1 m]. cbn [sw_store] in Hprep. rewrite <-staged_names in Hprep.
  pose proof (cross_commit_swp _ _ _ _ _ Ht f s1 Hprep m) as H. unfold wp in H.
  destruct (cross_commit_boundary plist_loads apple_uid allowed f (staged_hashes data) (SWorld s1 m)) as [[[]|e] w'] eqn:E;
    [|by destruct (Hf (proj1 H))].
  exists (SWorld s1 m), w'. destruct H as ((H1 & _ & H3) & Hp & Hc). rewrite staged_names in *.
  split; [done|]. split; [exact E|]. split; [done|]. split; [done|]. split.
  - intros name d Hd. destruct (H3 name) as (file & Hfile & [[Hsafe _ _] Hhash]); [by apply elem_of_dom_2 in Hd|set_solver|].
    exists file. split; [done|]. split; [done|]. unfold staged_hashes in Hhash. rewrite lookup_fmap, Hd in Hhash. by injection Hhash.
  - intros name Hn. apply H1. by apply not_elem_of_dom.
Qed.

(** ** A torn component *)

Lemma empty_component_invalid plist_loads apple_uid name : is_ok (validate_component plist_loads apple_uid name []) = false.
Proof.
  unfold validate_component. repeat (match goal with |- context [if ?b then _ else _] => destruct b end); reflexivity.
Qed.

Section torn.
Context (plist_loads : bytes → result plist) (apple_uid : Z) (allowed : gset string) (f : faults).

(** A step that only looks, whatever it finds. *)
Lemma look_only {A} (q : store → result A) (Q : A → store → Prop) s : (∀ a, q s = Ok a → Q a s) →
  swp (look f q) Q (λ s', s' = s) s.
Proof.
  intros HQ n. unfold wp, look, syscall. cbn [sw_calls sw_store]. destruct (fa_fails f n); [done|].
  destruct (q s) as [a|e]; [by apply HQ|done].
Qed.
Lemma require_only b msg (Q : unit → store → Prop) s : (b = true → Q tt s) → swp (require b msg) Q (λ s', s' = s) s.
Proof. intros HQ n. unfold require. apply wp_throw_if; [done|]. intros H%negb_false_iff. by apply HQ. Qed.
Lemma pure_only {A} (m : result A) (Q : A → store → Prop) s : (∀ a, m = Ok a → Q a s) → swp (pure m) Q (λ s', s' = s) s.
Proof. intros HQ n. apply wp_pure; [exact HQ|done]. Qed.

Lemma entries_only d (Q : gset string → store → Prop) s : st_prepare s = Some d → Q (dom (d_files d)) s →
  swp (directory_entries f Prepare) Q (λ s', s' = s) s.
Proof.
  intros Hd HQ. unfold directory_entries. apply swp_bind, look_only. intros [] _. apply look_only. intros names.
  unfold files_at. rewrite Hd. cbn [from_option]. destruct (negb _); [done|]. by intros [= <-].
Qed.

(** A loop one turn of which cannot complete. *)
Lemma for_blocked {A} (body : A → act sworld unit) l x s : x ∈ l →
  (∀ y, y ∈ l → swp (body y) (λ _ s', s' = s ∧ y ≠ x) (λ s', s' = s) s) →
  swp (for_in body l) (λ _ _, False) (λ s', s' = s) s.
Proof.
  intros Hx Hb. induction l as [|y l IH]; [by apply elem_of_nil in Hx|]. cbn [for_in]. apply swp_bind.
  eapply swp_weaken; [apply Hb, list_elem_of_here| |done]. cbv beta. intros _ s' [-> Hne]. apply IH.
  - by apply elem_of_cons in Hx as [?|?].
  - intros z Hz. by apply Hb, list_elem_of_further.
Qed.

Lemma discard_torn d name names expected s : st_prepare s = Some d → d_files d !! name = Some (DFile true []) →
  swp (discard_prepare plist_loads apple_uid allowed f names expected) (λ _ _, False) (λ s', s' = s) s.
Proof.
  intros Hd Hname. unfold discard_prepare. apply swp_bind, require_only. intros _.
  apply swp_bind, (entries_only d); [done|]. apply swp_bind, require_only. intros _.
  apply swp_bind. eapply swp_weaken; [apply (for_blocked _ _ name)| |done]; cbv beta; [| |done].
  - apply elem_of_sorted_names. by apply elem_of_dom_2 in Hname.
  - intros y _. apply swp_bind, look_only. intros data Hdata. apply swp_bind, require_only. intros _. apply pure_only.
    intros u Hu. split; [done|]. intros ->. unfold files_at in Hdata. rewrite Hd in Hdata. cbn [from_option] in Hdata.
    rewrite Hname in Hdata. injection Hdata as <-. unfold validated in Hu. apply except_Ok in Hu.
    pose proof (empty_component_invalid plist_loads apple_uid name) as He. by rewrite Hu in He.
Qed.

(** When the process stops between the creation of a staged file and its first
    write, the file does not validate, and from then on every recovery that
    sees [prepare/] is refused, and so is every new transaction. *)
Theorem torn_component_blocks expected names n s d name : fa_fails f n = false →
  st_prepare s = Some d → d_files d !! name = Some (DFile true []) →
  let stuck {A} (m : act sworld A) := ∃ e k, m (SWorld s n) = (Raise e, SWorld s k) in
  stuck (recover plist_loads apple_uid allowed f expected)
  ∧ stuck (discard_prepare plist_loads apple_uid allowed f names expected)
  ∧ stuck (begin_stage allowed f names).
Proof.
  intros Hf Hd Hname. cbv zeta.
  assert (∀ (A : Type) (m : act sworld A), wp m (λ _ _, False) (λ _ w, sw_store w = s) (SWorld s n) →
    ∃ e k, m (SWorld s n) = (Raise e, SWorld s k)) as Hrun.
  { intros A m H. unfold wp in H. destruct (m (SWorld s n)) as [[a|e] [s' k]]; [done|]. cbn in H. subst. by eexists _, _. }
  split; [|split]; apply Hrun.
  - unfold recover. apply wp_bind, wp_catch. unfold wp at 1, look, syscall. cbn [sw_calls sw_store]. rewrite Hf, Hd. cbn -[discard_prepare].
    apply wp_bind, wp_bind. eapply wp_weaken; [by apply (discard_torn d name (dom expected) expected s)|done|done].
  - by apply (discard_torn d name names expected s).
  - assert (swp (begin_stage allowed f names) (λ _ _, False) (λ s', s' = s) s) as H; [|apply H].
    unfold begin_stage. apply swp_bind, require_only. intros _. apply swp_bind, swp_lexists; [intros _|].
    + apply swp_bind, swp_lexists; [intros _|]; apply swp_bind, require_only; intros _; apply swp_bind; intros k;
        unfold wp, change, syscall; cbn [sw_calls sw_store]; rewrite Hd; by destruct (fa_fails f k).
    + rewrite Hd. cbn [has]. apply swp_bind, swp_ret, swp_bind, require_only. done.
Qed.

(** A recovery that cannot look at [prepare/] and [commit/] takes the store for
    clean, whatever is in it. *)
Theorem unseen_transaction_reported_clean expected n s : fa_fails f n = true → fa_fails f (S n) = true →
  recover plist_loads apple_uid allowed f expected (SWorld s n) = (Ok "clean", SWorld s (S (S n))).
Proof.
  intros H0 H1. unfold recover, lexists_dir, lexists, catch, look, syscall, mbind, act_bind. cbn. rewrite H0. cbn.
  rewrite bool_decide_eq_true_2 by done. cbn. by rewrite H1.
Qed.
End torn.
