(* ===== verification/CatacombProtocol.v ===== *)
(** * The Catacomb save protocol ([src/src/t2_catacomb_protocol.py],
    [src/src/t2_biolockout_protocol.py])

    The component descriptors, the two state listings, the plan of the
    components an enrolment saves, and the prepare, complete and confirm
    commands.  Arguments have their annotated types. *)
From S2P Require Import Prelude PyValue Effect Bytes.

#[local] Open Scope Z_scope.
#[local] Abbreviation refuse b msg := (fail_if b CatacombProtocolError msg).

Definition COMMAND_PREPARE_SAVE_CATACOMB : Z := 0x3D.
Definition COMMAND_COMPLETE_SAVE_CATACOMB : Z := 0x3E.
Definition COMMAND_CONFIRM_SAVE_CATACOMB : Z := 0x3F.
Definition PREPARE_REPLY : format := [I_].
Definition MAX_SECURE_BLOB_SIZE : Z := 1024 * 1024.
Definition UINT32_MAX : Z := 0xFFFFFFFF.
Definition ZERO_UUID : bytes := zeros 16.
Definition COMPONENT_DESCRIPTOR : format := [I_; I_; FRaw 16].
Definition USER_STATE_RECORD : format := [I_; I_].
Definition GROUP_STATE_RECORD : format := [I_; I_; FRaw 16; I_].
Definition CATACOMB_STATE_NEEDS_SAVE : Z := 0x04.

(** ** Components *)

Inductive ComponentKind := MASTER | USER | GROUP.
#[export] Instance ComponentKind_eq_dec : EqDecision ComponentKind.
Proof. solve_decision. Defined.

Record CatacombComponent := Component { cp_user_id : Z; cp_group_type : Z; cp_group_uuid : bytes }.
#[export] Instance CatacombComponent_eq_dec : EqDecision CatacombComponent.
Proof. solve_decision. Defined.

Definition in_uint32 (z : Z) : bool := (0 <=? z) && (z <=? UINT32_MAX).

(** The constructor with [CatacombComponent.__post_init__]. *)
Definition new_component (user_id group_type : Z) (group_uuid : bytes) : result CatacombComponent :=
  _ ← refuse (negb (in_uint32 user_id)) "component user ID is outside uint32";
  _ ← refuse (negb (in_uint32 group_type)) "component group type is outside uint32";
  _ ← refuse (negb (length group_uuid =? 16)%nat) "component group UUID must be exactly 16 bytes";
  _ ← (if group_type =? 0
       then refuse (negb (bool_decide (group_uuid = ZERO_UUID))) "user/master component has a nonzero group UUID"
       else refuse (user_id =? UINT32_MAX) "group component identity is not canonical");
  Ok (Component user_id group_type group_uuid).

Definition component_user (user_id : Z) : result CatacombComponent :=
  _ ← refuse (negb ((0 <=? user_id) && (user_id <? UINT32_MAX))) "user component ID is outside canonical range";
  new_component user_id 0 ZERO_UUID.

Definition component_master : result CatacombComponent := new_component UINT32_MAX 0 ZERO_UUID.

Definition component_group (user_id group_type : Z) (group_uuid : bytes) : result CatacombComponent :=
  _ ← refuse (negb ((0 <? group_type) && (group_type <=? UINT32_MAX))) "group component type must be nonzero";
  new_component user_id group_type group_uuid.

Definition component_parse (descriptor : bytes) : result CatacombComponent :=
  _ ← refuse (negb (length descriptor =? calcsize COMPONENT_DESCRIPTOR)%nat)
        "component descriptor must be exactly 24 bytes";
  '(user_id, (group_type, (group_uuid, _))) ← unpack COMPONENT_DESCRIPTOR descriptor;
  new_component user_id group_type group_uuid.

(** The fields of a component the constructor accepted always pack
    ([descriptor_packs]). *)
Definition component_tuple (c : CatacombComponent) : tuple COMPONENT_DESCRIPTOR :=
  (cp_user_id c, (cp_group_type c, (cp_group_uuid c, tt))).
Definition component_descriptor (c : CatacombComponent) : bytes := packed COMPONENT_DESCRIPTOR (component_tuple c).

Definition component_kind (c : CatacombComponent) : ComponentKind :=
  if cp_user_id c =? UINT32_MAX then MASTER else if cp_group_type c =? 0 then USER else GROUP.

(** ** The state of the components *)

Record CatacombState := State { cs_component : CatacombComponent; cs_state : Z }.
#[export] Instance CatacombState_eq_dec : EqDecision CatacombState.
Proof. solve_decision. Defined.

(** The constructor with [CatacombState.__post_init__]. *)
Definition new_state (component : CatacombComponent) (state : Z) : result CatacombState :=
  _ ← refuse (negb (in_uint32 state)) "Catacomb state is outside uint32"; Ok (State component state).

Definition needs_save (s : CatacombState) : bool := negb (Z.land (cs_state s) CATACOMB_STATE_NEEDS_SAVE =? 0).

Definition unique_states (states : list CatacombState) : result (list CatacombState) :=
  _ ← refuse (negb (bool_decide (NoDup ((λ s, component_descriptor (cs_component s)) <$> states))))
        "Catacomb state contains a duplicate component";
  Ok states.

(** The loops over the offsets of the records. *)
Definition parse_records {A} (f : format) (record : tuple f → result A) (output : bytes) : result (list A) :=
  mapM (λ k, v ← unpack_from f output (k * calcsize f); record v) (seq 0 (length output / calcsize f)).

Definition user_state (v : tuple USER_STATE_RECORD) : result CatacombState :=
  let '(user_id, (state, _)) := v in
  component ← (if user_id =? UINT32_MAX then component_master else component_user user_id);
  new_state component state.

Definition parse_user_states (output : bytes) : result (list CatacombState) :=
  _ ← refuse (bool_decide (output = []) || negb (length output mod calcsize USER_STATE_RECORD =? 0)%nat)
        "user Catacomb state bytes are malformed";
  states ← parse_records USER_STATE_RECORD user_state output;
  unique_states states.

Definition group_state (v : tuple GROUP_STATE_RECORD) : result CatacombState :=
  let '(user_id, (group_type, (group_uuid, (state, _)))) := v in
  component ← new_component user_id group_type group_uuid;
  _ ← refuse (negb (bool_decide (component_kind component = GROUP)))
        "group Catacomb state contains a non-group component";
  new_state component state.

Definition parse_group_states (output : bytes) : result (list CatacombState) :=
  _ ← refuse (negb (length output mod calcsize GROUP_STATE_RECORD =? 0)%nat)
        "group Catacomb state bytes are malformed";
  states ← parse_records GROUP_STATE_RECORD group_state output;
  unique_states states.

(** ** The plan of a built-in enrolment *)

Definition plan_builtin_enrollment_save (user_states : list CatacombState) (apple_user_id : Z)
    (group_states : list CatacombState) : result (CatacombComponent * CatacombComponent) :=
  _ ← refuse (negb ((0 <=? apple_user_id) && (apple_user_id <? UINT32_MAX))) "selected Apple user ID is invalid";
  let combined := user_states ++ group_states in
  _ ← refuse (bool_decide (combined = [])) "Catacomb save planning has invalid state";
  _ ← refuse (negb (bool_decide (NoDup ((λ s, component_descriptor (cs_component s)) <$> combined))))
        "Catacomb state repeats a component";
  master ← component_master;
  selected ← component_user apple_user_id;
  _ ← refuse (negb (length (filter (λ s, cs_component s = master) user_states) =? 1)%nat)
        "Catacomb state has no unique master component";
  _ ← refuse (match filter (λ s, cs_component s = selected) user_states with
              | [record] => negb (needs_save record)
              | _ => true
              end) "selected user component is not marked for save";
  let dirty_non_master :=
    cs_component <$> filter (λ s, needs_save s = true ∧ component_kind (cs_component s) ≠ MASTER) combined in
  _ ← refuse (negb (bool_decide (dirty_non_master = [selected])))
        "built-in enrollment dirtied an unexpected Catacomb component";
  Ok (selected, master).

(** ** The commands *)

Record CatacombRequest := Request {
  rq_command : Z;
  rq_protocol_version : Z;
  rq_descriptor : bytes;
  rq_output_capacity : Z;
}.

Definition validate_descriptor (protocol_version : Z) (descriptor : bytes) : result unit :=
  _ ← refuse (negb (bool_decide (protocol_version ∈ [1; 2]))) "Catacomb protocol must be version 1 or 2";
  let expected : nat := if protocol_version =? 1 then 4%nat else 24%nat in
  refuse (negb (length descriptor =? expected)%nat)
    (if protocol_version =? 1 then "protocol-1 descriptor must be exactly 4 bytes"
     else "protocol-2 descriptor must be exactly 24 bytes").

(** The constructor with [CatacombRequest.__post_init__]. *)
Definition new_request (command protocol_version : Z) (descriptor : bytes) (output_capacity : Z)
    : result CatacombRequest :=
  _ ← validate_descriptor protocol_version descriptor;
  _ ← refuse (negb (bool_decide (command ∈ [COMMAND_PREPARE_SAVE_CATACOMB; COMMAND_COMPLETE_SAVE_CATACOMB;
                                             COMMAND_CONFIRM_SAVE_CATACOMB])))
        "unsupported Catacomb persistence command";
  _ ← refuse (negb ((0 <=? output_capacity) && (output_capacity <=? MAX_SECURE_BLOB_SIZE)))
        "output capacity is invalid or unbounded";
  _ ← refuse ((command =? COMMAND_PREPARE_SAVE_CATACOMB)
              && negb (output_capacity =? Z.of_nat (calcsize PREPARE_REPLY)))
        "Catacomb prepare output capacity must be 4";
  _ ← refuse ((command =? COMMAND_COMPLETE_SAVE_CATACOMB) && (output_capacity =? 0))
        "Catacomb complete output capacity is empty";
  _ ← refuse ((command =? COMMAND_CONFIRM_SAVE_CATACOMB) && negb (output_capacity =? 0))
        "Catacomb confirm output capacity must be zero";
  Ok (Request command protocol_version descriptor output_capacity).

Definition require_success (status : Z) (operation : string) : result unit :=
  refuse (negb (status =? 0)) (operation +:+ " returned nonzero status").

Definition build_prepare_request (protocol_version : Z) (descriptor : bytes) : result CatacombRequest :=
  new_request COMMAND_PREPARE_SAVE_CATACOMB protocol_version descriptor (Z.of_nat (calcsize PREPARE_REPLY)).

Definition valid_blob_length (n : Z) : bool := (0 <? n) && (n <=? MAX_SECURE_BLOB_SIZE).

Definition parse_prepare_reply (status : Z) (output : bytes) : result Z :=
  _ ← require_success status "Catacomb prepare";
  _ ← refuse (negb (length output =? calcsize PREPARE_REPLY)%nat) "Catacomb prepare output must be exactly 4 bytes";
  '(expected_length, _) ← unpack PREPARE_REPLY output;
  _ ← refuse (negb (valid_blob_length expected_length)) "prepared secure-blob length is invalid or unbounded";
  Ok expected_length.

Definition build_complete_request (protocol_version : Z) (descriptor : bytes) (expected_length : Z)
    : result CatacombRequest :=
  _ ← refuse (negb (valid_blob_length expected_length)) "expected secure-blob length is invalid or unbounded";
  new_request COMMAND_COMPLETE_SAVE_CATACOMB protocol_version descriptor expected_length.

Definition parse_complete_reply (status : Z) (output : bytes) (expected_length : Z) : result bytes :=
  _ ← require_success status "Catacomb complete";
  _ ← refuse (negb (valid_blob_length expected_length)) "expected secure-blob length is invalid or unbounded";
  _ ← refuse (negb (Z.of_nat (length output) =? expected_length))
        "Catacomb complete output differs from the prepared length";
  Ok output.

Definition build_confirm_request (protocol_version : Z) (descriptor : bytes) : result CatacombRequest :=
  new_request COMMAND_CONFIRM_SAVE_CATACOMB protocol_version descriptor 0.

Definition parse_confirm_reply (status : Z) (output : bytes) : result unit :=
  _ ← require_success status "Catacomb confirm";
  refuse (negb (bool_decide (output = []))) "Catacomb confirm must not return output".

(** ** The bio-lockout record ([t2_biolockout_protocol.py]) *)
Module BioLockout.
Definition SAVE_COMMAND : Z := 0x4A.
Definition COMMAND_VERSION : Z := 1.
Definition OUTPUT_CAPACITY : Z := 0x1000.
Definition MIN_SECURE_BLOB_LENGTH : Z := 16.
Definition SECURE_BLOB_MAGIC : bytes := text "HRLB".
Definition PERSISTENCE_DESCRIPTOR : bytes :=
  packed [FRaw 4; I_; I_; FRaw 12] (SECURE_BLOB_MAGIC, (SAVE_COMMAND, (COMMAND_VERSION, (zeros 12, tt)))).

Record SaveRequest := MkSaveRequest {
  sr_command : Z;
  sr_version : Z;
  sr_value : Z;
  sr_data : bytes;
  sr_output_capacity : Z;
}.

Definition build_save_request : SaveRequest := MkSaveRequest SAVE_COMMAND COMMAND_VERSION 0 [] OUTPUT_CAPACITY.

(** The status and the output are what the connection delivered, of any
    type. *)
Definition parse_save_reply (status output : value) : result bytes :=
  _ ← fail_if (negb (is_int status) || negb (int_value status =? 0)) BioLockoutProtocolError
        "bio-lockout save status is not successful";
  match output with
  | VBytes s =>
      let output := text s in
      _ ← fail_if (negb ((MIN_SECURE_BLOB_LENGTH <=? Z.of_nat (length output))
                         && (Z.of_nat (length output) <=? OUTPUT_CAPACITY))) BioLockoutProtocolError
            "bio-lockout save output length is invalid";
      _ ← fail_if (negb (bool_decide (take 4 output = SECURE_BLOB_MAGIC))) BioLockoutProtocolError
            "bio-lockout save output envelope is invalid";
      Ok output
  | _ => raise BioLockoutProtocolError "bio-lockout save output is not byte data"
  end.
End BioLockout.

(** ** Descriptors *)

Record component_ok (c : CatacombComponent) : Prop := {
  cok_user : 0 ≤ cp_user_id c ≤ UINT32_MAX;
  cok_type : 0 ≤ cp_group_type c ≤ UINT32_MAX;
  cok_uuid : length (cp_group_uuid c) = 16%nat;
  cok_kind : if cp_group_type c =? 0 then cp_group_uuid c = ZERO_UUID else cp_user_id c ≠ UINT32_MAX;
}.

Lemma in_uint32_iff z : in_uint32 z = true ↔ 0 ≤ z ≤ UINT32_MAX.
Proof. unfold in_uint32. rewrite andb_true_iff, !Z.leb_le. done. Qed.

Lemma new_component_Ok u t g c : new_component u t g = Ok c ↔ c = Component u t g ∧ component_ok c.
Proof.
  unfold new_component. split.
  - intros H. apply bind_Ok in H as (? & Hu%fail_if_Ok%negb_false_iff & H).
    apply bind_Ok in H as (? & Ht%fail_if_Ok%negb_false_iff & H).
    apply bind_Ok in H as (? & Hg%fail_if_Ok%negb_false_iff & H). apply bind_Ok in H as (? & Hk & H).
    apply Ok_inj in H as <-. apply in_uint32_iff in Hu, Ht. apply Nat.eqb_eq in Hg.
    split; [done|]. split; try done. simpl. destruct (t =? 0).
    + by apply fail_if_Ok, negb_false_iff, bool_decide_eq_true in Hk.
    + by apply fail_if_Ok, Z.eqb_neq in Hk.
  - intros [-> [Hu Ht Hg Hk]]. simpl in *. apply in_uint32_iff in Hu, Ht. rewrite Hu, Ht, Hg. simpl.
    destruct (t =? 0).
    + by rewrite bool_decide_eq_true_2.
    + by rewrite (proj2 (Z.eqb_neq _ _) Hk).
Qed.

Lemma component_exact c : component_ok c → exact_tuple COMPONENT_DESCRIPTOR (component_tuple c).
Proof.
  intros [Hu Ht Hg _]. unfold UINT32_MAX in *.
  split; [|split; [|split; [done|exact I]]]; simpl; change (width 4) with 4294967296; lia.
Qed.

Lemma descriptor_packs c : component_ok c → pack COMPONENT_DESCRIPTOR (component_tuple c) = Ok (component_descriptor c).
Proof. intros Hc. by apply pack_packed, component_exact. Qed.

(** The descriptor of a component is its wire form. *)
#[export] Instance component_wire : Wire component_ok component_descriptor component_parse.
Proof.
  split.
  - intros c Hc. pose proof (component_exact c Hc) as He. unfold component_parse.
    change (length (component_descriptor c)) with (length (packed COMPONENT_DESCRIPTOR (component_tuple c))).
    rewrite (proj2 (Nat.eqb_eq _ _) (length_packed _ _ He)). cbn [negb fail_if mbind result_bind].
    rewrite (proj2 (unpack_Ok _ _ (component_tuple c))).
    + apply new_component_Ok. by destruct c.
    + split; [by apply length_packed|]. rewrite <-(app_nil_r (component_descriptor c)). symmetry. by apply fields_packed.
  - intros bs c. unfold component_parse. intros (? & Hl%fail_if_Ok%negb_false_iff & H)%bind_Ok.
    apply Nat.eqb_eq in Hl. apply bind_Ok in H as (v & Hf & H).
    apply (proj1 (unpack_Ok COMPONENT_DESCRIPTOR bs v)) in Hf as [_ Hf]. destruct v as [u [t [g []]]].
    apply new_component_Ok in H as [-> Hc]. split; [done|]. unfold component_descriptor, component_tuple. cbn [cp_user_id cp_group_type cp_group_uuid].
    rewrite Hf, packed_fields by (try rewrite Hl; done). by rewrite <-Hl, firstn_all.
Qed.

Lemma descriptor_inj c d : component_ok c → component_ok d → component_descriptor c = component_descriptor d → c = d.
Proof. apply wire_injective. Qed.

Lemma component_master_Ok : component_master = Ok (Component UINT32_MAX 0 ZERO_UUID).
Proof. reflexivity. Qed.

Lemma component_user_Ok u c : component_user u = Ok c ↔ c = Component u 0 ZERO_UUID ∧ 0 ≤ u < UINT32_MAX.
Proof.
  unfold component_user. destruct ((0 <=? u) && (u <? UINT32_MAX)) eqn:Hu; simpl.
  - rewrite new_component_Ok. split; [intros [-> _]; split; [done|lia]|intros [-> ?]; split; [done|]].
    split; simpl; try done; lia.
  - split; [done|]. intros [_ ?]. lia.
Qed.

Lemma user_component_ok u : 0 ≤ u < UINT32_MAX → component_ok (Component u 0 ZERO_UUID).
Proof. intros Hu. split; simpl; [lia|unfold UINT32_MAX; lia|done|done]. Qed.

(** Duplicate descriptors are duplicate components. *)
Lemma descriptors_NoDup l : Forall (λ s, component_ok (cs_component s)) l →
  NoDup ((λ s, component_descriptor (cs_component s)) <$> l) ↔ NoDup (cs_component <$> l).
Proof.
  intros Hl. replace ((λ s, component_descriptor (cs_component s)) <$> l) with (component_descriptor <$> (cs_component <$> l))
    by by rewrite <-list_fmap_compose.
  split; [apply NoDup_fmap_1|]. intros Hn. apply NoDup_fmap_2_strong; [|done].
  intros c d Hc Hd. apply list_elem_of_fmap in Hc as (s & -> & Hs), Hd as (r & -> & Hr).
  rewrite Forall_forall in Hl. apply descriptor_inj; auto.
Qed.

(** ** State lists *)

Section records.
Context {A : Type} (f : format) (record : tuple f → result A).
Hypothesis no_padding : ∀ bs, zero_padding f bs.
Hypothesis nonempty : calcsize f ≠ 0%nat.

Lemma unpack_from_drop bs k : (calcsize f ≤ length bs)%nat →
  unpack_from f bs (S k * calcsize f) = unpack_from f (drop (calcsize f) bs) (k * calcsize f).
Proof.
  intros Hl. unfold unpack_from. rewrite length_drop, drop_drop.
  replace (length bs <? S k * calcsize f + calcsize f)%nat
    with (length bs - calcsize f <? k * calcsize f + calcsize f)%nat.
  - by replace (calcsize f + k * calcsize f)%nat with (S k * calcsize f)%nat by lia.
  - destruct (Nat.ltb_spec (length bs - calcsize f) (k * calcsize f + calcsize f)),
      (Nat.ltb_spec (length bs) (S k * calcsize f + calcsize f)); lia.
Qed.

(** The parser of a sequence of records accepts exactly the concatenated
    records, each of which is accepted. *)
Lemma parse_records_Ok (n : nat) : ∀ output l, length output = (n * calcsize f)%nat →
  parse_records f record output = Ok l ↔
    ∃ vs, output = mjoin (packed f <$> vs) ∧ Forall (exact_tuple f) vs ∧ Forall2 (λ v a, record v = Ok a) vs l.
Proof.
  induction n as [|n IH]; intros output l Hl.
  - destruct output; [|done]. unfold parse_records. simpl length. rewrite Nat.Div0.div_0_l. simpl.
    split; [intros [= <-]; exists []; by repeat constructor|].
    intros (vs & Hj & Hex & H2). destruct vs as [|v vs]; [by inversion H2|].
    apply Forall_cons in Hex as [Hv _]. apply (f_equal length) in Hj. simpl in Hj.
    rewrite length_app, length_packed in Hj by done. lia.
  - assert (Hc : (calcsize f ≤ length output)%nat) by lia.
    assert (Hd : length (drop (calcsize f) output) = (n * calcsize f)%nat) by (rewrite length_drop; lia).
    unfold parse_records. rewrite Hl, Nat.div_mul by done. cbn [seq]. rewrite <-fmap_S_seq.
    cbn [mapM]. rewrite Nat.mul_0_l. 
    assert (Hrest : mapM (λ k, v ← unpack_from f output (k * calcsize f); record v) (S <$> seq 0 n)
                    = parse_records f record (drop (calcsize f) output)).
    { unfold parse_records. rewrite Hd, Nat.div_mul by done. generalize (seq 0 n). intros ks.
      induction ks as [|k ks IHk]; [done|]. cbn [fmap list_fmap mapM]. fold (S <$> ks).
      rewrite unpack_from_drop by done. by rewrite IHk. }
    rewrite Hrest. clear Hrest. split.
    + intros (a & Ha & (l' & Hl' & Hret)%bind_Ok)%bind_Ok. apply Ok_inj in Hret as <-. apply bind_Ok in Ha as (v & Hv & Ha).
      apply unpack_from_Ok in Hv as [_ ->]. apply IH in Hl' as (vs & Hj & Hex & H2); [|done].
      exists (fields f output :: vs). split; [|split].
      * change (output = packed f (fields f output) ++ mjoin (packed f <$> vs)).
        rewrite <-Hj, packed_fields by done. by rewrite take_drop.
      * constructor; [by apply fields_exact|done].
      * rewrite drop_0 in Ha. by constructor.
    + intros (vs & Hj & Hex & H2). destruct vs as [|v vs].
      { simpl in Hj. subst output. simpl in Hc. lia. }
      inversion H2 as [|? a ? l' Ha H2']; subst. apply Forall_cons in Hex as [Hv Hex].
      change (mjoin (packed f <$> v :: vs)) with (packed f v ++ mjoin (packed f <$> vs)) in *. apply bind_Ok. exists a. split.
      * apply bind_Ok. exists v. split; [|done]. apply unpack_from_Ok. split; [lia|].
        rewrite drop_0. symmetry. by apply fields_packed.
      * apply bind_Ok. exists l'. split; [|done]. apply IH; [done|]. exists vs. split; [|done].
        by rewrite drop_app_length' by (symmetry; by apply length_packed).
Qed.

(** Records that stand for the valid values of a type. *)
Context (valid : A → Prop) (fields_of : A → tuple f).
Hypothesis valid_exact : ∀ a, valid a → exact_tuple f (fields_of a).
Hypothesis record_Ok : ∀ v a, record v = Ok a ↔ valid a ∧ v = fields_of a.

Lemma length_join (l : list A) : Forall valid l →
  length (mjoin ((λ a, packed f (fields_of a)) <$> l)) = (length l * calcsize f)%nat.
Proof.
  induction 1 as [|a l Ha _ IH]; [done|]. cbn [fmap list_fmap mjoin list_join]. rewrite length_app, length_packed by auto.
  simpl. f_equal. exact IH.
Qed.

Lemma parse_list_Ok output l :
  (length output mod calcsize f =? 0)%nat = true ∧ parse_records f record output = Ok l
  ↔ Forall valid l ∧ output = mjoin ((λ a, packed f (fields_of a)) <$> l).
Proof.
  split.
  - intros [Hm%Nat.eqb_eq H]. apply Nat.Lcm0.mod_divide in Hm as [n Hn].
    apply (parse_records_Ok n) in H as (vs & -> & _ & H2); [|done]. clear Hn.
    induction H2 as [|v a vs l Hv _ [IH1 IH2]]; [by split|]. apply record_Ok in Hv as [Ha ->].
    split; [by constructor|]. cbn [fmap list_fmap mjoin list_join]. f_equal. exact IH2.
  - intros [Hl ->]. pose proof (length_join l Hl) as Hlen. split.
    + rewrite Hlen. by rewrite Nat.Div0.mod_mul.
    + apply (parse_records_Ok (length l)); [done|]. exists (fields_of <$> l). split; [by rewrite <-list_fmap_compose|].
      split.
      * apply Forall_fmap. eapply Forall_impl; [exact Hl|auto].
      * clear Hlen. induction Hl as [|a l Ha _ IH]; constructor; [|done]. by apply record_Ok.
Qed.
End records.

Record state_ok (s : CatacombState) : Prop := {
  sok_component : component_ok (cs_component s);
  sok_state : 0 ≤ cs_state s ≤ UINT32_MAX;
}.
Definition user_state_ok (s : CatacombState) : Prop := state_ok s ∧ component_kind (cs_component s) ≠ GROUP.
Definition group_state_ok (s : CatacombState) : Prop := state_ok s ∧ component_kind (cs_component s) = GROUP.

Definition user_record (s : CatacombState) : tuple USER_STATE_RECORD := (cp_user_id (cs_component s), (cs_state s, tt)).
Definition group_record (s : CatacombState) : tuple GROUP_STATE_RECORD :=
  (cp_user_id (cs_component s),
   (cp_group_type (cs_component s), (cp_group_uuid (cs_component s), (cs_state s, tt)))).
(** The listings the device sends. *)
Definition user_states_wire (l : list CatacombState) : bytes := mjoin ((λ s, packed USER_STATE_RECORD (user_record s)) <$> l).
Definition group_states_wire (l : list CatacombState) : bytes := mjoin ((λ s, packed GROUP_STATE_RECORD (group_record s)) <$> l).

Lemma user_record_exact s : user_state_ok s → exact_tuple USER_STATE_RECORD (user_record s).
Proof.
  intros [[[Hu _ _ _] Hs] _]. unfold UINT32_MAX in *.
  split; [|split; [|exact I]]; simpl; change (width 4) with 4294967296; lia.
Qed.
Lemma group_record_exact s : group_state_ok s → exact_tuple GROUP_STATE_RECORD (group_record s).
Proof.
  intros [[[Hu Ht Hg _] Hs] _]. unfold UINT32_MAX in *.
  split; [|split; [|split; [done|split; [|exact I]]]]; simpl; change (width 4) with 4294967296; lia.
Qed.

Lemma new_state_Ok c z s : new_state c z = Ok s ↔ s = State c z ∧ 0 ≤ z ≤ UINT32_MAX.
Proof.
  unfold new_state. rewrite bind_Ok. setoid_rewrite fail_if_Ok. setoid_rewrite negb_false_iff.
  rewrite <-in_uint32_iff. split; [by intros (? & ? & <-%Ok_inj)|intros [-> ?]; by exists tt].
Qed.

(** A component that is not of a group is a user or the master. *)
Lemma component_no_group c : component_ok c → component_kind c ≠ GROUP → c = Component (cp_user_id c) 0 ZERO_UUID.
Proof.
  destruct c as [u t g]. intros [Hu Ht Hg Hk]. unfold component_kind. simpl in *.
  destruct (Z.eqb_spec t 0) as [->|]; [by intros _; subst|]. by rewrite (proj2 (Z.eqb_neq u _)).
Qed.

Lemma user_state_Ok v s : user_state v = Ok s ↔ user_state_ok s ∧ v = user_record s.
Proof.
  destruct v as [u [z []]]. unfold user_state. split.
  - intros (c & Hc & [-> Hz]%new_state_Ok)%bind_Ok.
    assert (c = Component u 0 ZERO_UUID ∧ component_ok c) as [-> Hok].
    { destruct (Z.eqb_spec u UINT32_MAX) as [->|].
      - rewrite component_master_Ok in Hc. apply Ok_inj in Hc as <-. split; [done|]. by split.
      - apply component_user_Ok in Hc as [-> Hu]. split; [done|]. by apply user_component_ok. }
    split; [|done]. split; [by split|]. unfold component_kind. simpl. by destruct (u =? UINT32_MAX).
  - intros [[[Hc Hz] Hk] Hv]. apply component_no_group in Hk as Heq; [|done].
    unfold user_record in Hv. injection Hv as -> ->. apply bind_Ok. exists (cs_component s). split.
    + destruct (Z.eqb_spec (cp_user_id (cs_component s)) UINT32_MAX) as [He|He].
      * rewrite component_master_Ok. rewrite He in Heq. by rewrite Heq.
      * apply component_user_Ok. split; [done|]. destruct Hc. lia.
    + apply new_state_Ok. by destruct s.
Qed.

Lemma group_state_Ok v s : group_state v = Ok s ↔ group_state_ok s ∧ v = group_record s.
Proof.
  destruct v as [u [t [g [z []]]]]. unfold group_state. split.
  - intros (c & [-> Hc]%new_component_Ok & (? & Hk%fail_if_Ok%negb_false_iff%bool_decide_eq_true & [-> Hz]%new_state_Ok)%bind_Ok)%bind_Ok.
    split; [|done]. by split.
  - intros [[[Hc Hz] Hk] Hv]. unfold group_record in Hv. injection Hv as -> -> -> ->.
    apply bind_Ok. exists (cs_component s). split; [apply new_component_Ok; by destruct (cs_component s)|].
    rewrite bool_decide_eq_true_2 by done. cbn [negb fail_if mbind result_bind]. apply new_state_Ok. by destruct s.
Qed.

Lemma unique_states_Ok states l : Forall state_ok states →
  unique_states states = Ok l ↔ l = states ∧ NoDup (cs_component <$> states).
Proof.
  intros Hs. unfold unique_states. rewrite <-descriptors_NoDup by (eapply Forall_impl; [exact Hs|by intros ? []]).
  destruct (bool_decide _) eqn:E; cbn [negb fail_if mbind result_bind].
  - apply bool_decide_eq_true in E. by split; [intros <-%Ok_inj|intros [-> _]].
  - apply bool_decide_eq_false in E. by split; [|intros [_ ?]].
Qed.

(** The two listings of the device decode exactly: the parsers accept the
    concatenated records of distinct components, users and the master in one
    (which is not empty), groups in the other, and return what the records say;
    any other bytes are refused. *)
Theorem state_lists_decode output l :
  (parse_user_states output = Ok l ↔
     l ≠ [] ∧ Forall user_state_ok l ∧ NoDup (cs_component <$> l) ∧ output = user_states_wire l)
  ∧ (parse_group_states output = Ok l ↔
     Forall group_state_ok l ∧ NoDup (cs_component <$> l) ∧ output = group_states_wire l).
Proof.
  assert (Hu : ∀ l, Forall user_state_ok l → Forall state_ok l) by (intros ? H; eapply Forall_impl; [exact H|by intros ? []]).
  assert (Hg : ∀ l, Forall group_state_ok l → Forall state_ok l) by (intros ? H; eapply Forall_impl; [exact H|by intros ? []]).
  pose proof (λ (o : bytes) (l : list CatacombState), parse_list_Ok USER_STATE_RECORD user_state (λ _, I) ltac:(done) user_state_ok user_record
    user_record_exact user_state_Ok o l) as Hul.
  pose proof (λ (o : bytes) (l : list CatacombState), parse_list_Ok GROUP_STATE_RECORD group_state (λ _, I) ltac:(done) group_state_ok group_record
    group_record_exact group_state_Ok o l) as Hgl.
  split; split.
  - unfold parse_user_states. intros (? & [He Hm]%fail_if_Ok%orb_false_iff & (states & Hp & H)%bind_Ok)%bind_Ok.
    apply negb_false_iff in Hm. destruct (proj1 (Hul _ _) (conj Hm Hp)) as [Hf ->].
    apply unique_states_Ok in H as [-> Hn]; [|by apply Hu]. split; [|done]. intros ->. by apply bool_decide_eq_false in He.
  - intros (Hne & Hf & Hn & Ho). destruct (proj2 (Hul output l) (conj Hf Ho)) as [Hm Hp]. unfold parse_user_states.
    rewrite Hm, bool_decide_eq_false_2.
    + cbn [negb orb fail_if mbind result_bind]. rewrite Hp. cbn [mbind result_bind]. apply unique_states_Ok; [by apply Hu|done].
    + subst output. intros He%(f_equal length). unfold user_states_wire in He.
      rewrite (length_join _ user_state_ok) in He by (try apply user_record_exact; done). destruct l; [done|]. simpl in He. lia.
  - unfold parse_group_states. intros (? & Hm%fail_if_Ok%negb_false_iff & (states & Hp & H)%bind_Ok)%bind_Ok.
    destruct (proj1 (Hgl _ _) (conj Hm Hp)) as [Hf ->].
    apply unique_states_Ok in H as [-> Hn]; [|by apply Hg]. done.
  - intros (Hf & Hn & Ho). destruct (proj2 (Hgl output l) (conj Hf Ho)) as [Hm Hp]. unfold parse_group_states.
    rewrite Hm. cbn [negb orb fail_if mbind result_bind]. rewrite Hp. cbn [mbind result_bind].
    apply unique_states_Ok; [by apply Hg|done].
Qed.

(** ** The save plan *)

Lemma needs_save_bit s : needs_save s = Z.testbit (cs_state s) 2.
Proof.
  unfold needs_save. change CATACOMB_STATE_NEEDS_SAVE with (2 ^ 2).
  replace (Z.land (cs_state s) (2 ^ 2)) with (Z.b2z (Z.testbit (cs_state s) 2) * 2 ^ 2).
  - by destruct (Z.testbit (cs_state s) 2).
  - apply Z.bits_inj'. intros n Hn. rewrite Z.land_spec, Z.pow2_bits_eqb by lia.
    destruct (Z.eqb_spec 2 n) as [<-|Hne].
    + rewrite andb_true_r, Z.mul_pow2_bits by lia. by rewrite Z.b2z_bit0.
    + rewrite andb_false_r. destruct (Z.testbit (cs_state s) 2); [|by rewrite Z.bits_0].
      change (Z.b2z true * 2 ^ 2) with (2 ^ 2). rewrite Z.pow2_bits_eqb by lia. by apply Z.eqb_neq.
Qed.

(** Among states of distinct components one component occurs at most once. *)
Lemma filter_component (P : CatacombState → Prop) `{!∀ s, Decision (P s)} l s :
  NoDup (cs_component <$> l) → s ∈ l → (∀ r, r ∈ l → P r ↔ cs_component r = cs_component s) → filter P l = [s].
Proof.
  intros Hn. revert s. induction l as [|r l IH]; intros s Hs HP; [by apply not_elem_of_nil in Hs|].
  rewrite fmap_cons in Hn. apply NoDup_cons in Hn as [Hr Hn].
  assert (Hout : ∀ q, q ∈ l → cs_component q ≠ cs_component r).
  { intros q Hq He. apply Hr. rewrite <-He. by apply list_elem_of_fmap_2. }
  apply elem_of_cons in Hs as [->|Hs].
  - rewrite filter_cons_True by (apply HP; [apply list_elem_of_here|done]). f_equal.
    assert (Hnone : ∀ q, q ∈ l → ¬ P q).
    { intros q Hq Hp. apply (Hout q Hq). apply HP; [by apply list_elem_of_further|done]. }
    clear -Hnone. induction l as [|q l IHl]; [done|].
    rewrite filter_cons_False by (apply Hnone, list_elem_of_here). apply IHl. intros x Hx.
    by apply Hnone, list_elem_of_further.
  - rewrite filter_cons_False.
    + apply IH; [done|done|]. intros q Hq. by apply HP, list_elem_of_further.
    + rewrite HP by apply list_elem_of_here. intros He. by apply (Hout s Hs).
Qed.

Lemma filter_one_elem (P : CatacombState → Prop) `{!∀ s, Decision (P s)} l s : filter P l = [s] →
  s ∈ l ∧ P s ∧ ∀ r, r ∈ l → P r → r = s.
Proof.
  intros Hf. assert (Hs : s ∈ filter P l) by (rewrite Hf; apply list_elem_of_here).
  apply list_elem_of_filter in Hs as [Hp Hs]. split; [done|split; [done|]]. intros r Hr Hpr.
  assert (Hin : r ∈ filter P l) by by apply list_elem_of_filter. rewrite Hf in Hin. by apply list_elem_of_singleton in Hin.
Qed.

Definition component_of_user (user : Z) : CatacombComponent := Component user 0 ZERO_UUID.

(** An enrolment saves the selected user's component and then the master,
    and only when the device listed distinct components, the master and the
    user among the user states, and marked exactly the user's component, the
    master apart, as changed; every other listing is refused. *)
Theorem save_plan_exact user_states apple group_states plan : Forall state_ok (user_states ++ group_states) →
  plan_builtin_enrollment_save user_states apple group_states = Ok plan ↔
    plan = (component_of_user apple, component_of_user UINT32_MAX) ∧ 0 ≤ apple < UINT32_MAX
    ∧ NoDup (cs_component <$> user_states ++ group_states)
    ∧ component_of_user UINT32_MAX ∈ cs_component <$> user_states ∧ component_of_user apple ∈ cs_component <$> user_states
    ∧ ∀ s, s ∈ user_states ++ group_states → component_kind (cs_component s) ≠ MASTER →
        Z.testbit (cs_state s) 2 = true ↔ cs_component s = component_of_user apple.
Proof.
  intros Hok. unfold plan_builtin_enrollment_save, component_of_user.
  assert (Hd := descriptors_NoDup (user_states ++ group_states)
    ltac:(eapply Forall_impl; [exact Hok|by intros ? []])).
  split.
  - intros (? & Ha%fail_if_Ok%negb_false_iff & (? & He%fail_if_Ok & (? & Hn%fail_if_Ok%negb_false_iff & H)%bind_Ok)%bind_Ok)%bind_Ok.
    apply bool_decide_eq_true, Hd in Hn. rewrite component_master_Ok in H. cbn [mbind result_bind] in H.
    apply bind_Ok in H as (selected & [-> Hr]%component_user_Ok & (? & Hm%fail_if_Ok%negb_false_iff & H)%bind_Ok).
    apply bind_Ok in H as (? & Hs%fail_if_Ok & (? & Hdirty%fail_if_Ok%negb_false_iff%bool_decide_eq_true & <-%Ok_inj)%bind_Ok).
    destruct (filter (λ s, cs_component s = {| cp_user_id := UINT32_MAX; cp_group_type := 0; cp_group_uuid := ZERO_UUID |}) user_states)
      as [|m [|]] eqn:Hf; try done. clear Hm.
    apply filter_one_elem in Hf as (Hm & Hmc & _).
    destruct (filter (λ s, cs_component s = {| cp_user_id := apple; cp_group_type := 0; cp_group_uuid := ZERO_UUID |}) user_states)
      as [|r [|]] eqn:Hfs; try done. apply negb_false_iff in Hs. apply filter_one_elem in Hfs as (Hru & Hrc & _).
    repeat (split; [first [done|rewrite <-Hmc; by apply list_elem_of_fmap_2|rewrite <-Hrc; by apply list_elem_of_fmap_2]|]).
    intros s Hs1 Hk. rewrite <-needs_save_bit. split.
    + intros Hns. assert (Hin : cs_component s ∈ [{| cp_user_id := apple; cp_group_type := 0; cp_group_uuid := ZERO_UUID |}]).
      { rewrite <-Hdirty. apply list_elem_of_fmap_2, list_elem_of_filter. done. }
      by apply list_elem_of_singleton in Hin.
    + intros Hc. assert (Hin : cs_component s ∈ [{| cp_user_id := apple; cp_group_type := 0; cp_group_uuid := ZERO_UUID |}])
        by (rewrite Hc; apply list_elem_of_here).
      rewrite <-Hdirty in Hin. apply list_elem_of_fmap in Hin as (q & Hq & [[Hqn _] Hqin]%list_elem_of_filter).
      assert (s = q) as ->; [|done].
      apply list_elem_of_lookup in Hs1 as [i Hi], Hqin as [j Hj].
      assert (i = j) as ->; [|by simplify_eq].
      eapply (NoDup_lookup _ i j _ Hn); rewrite list_lookup_fmap; [rewrite Hi|rewrite Hj]; simpl; by f_equal.
  - intros (-> & Ha & Hn & Hm & Hs & Hdirty).
    apply list_elem_of_fmap in Hm as (m & Hmc & Hm), Hs as (r & Hrc & Hr).
    replace ((0 <=? apple) && (apple <? UINT32_MAX)) with true by lia. cbn [negb fail_if mbind result_bind].
    rewrite (bool_decide_eq_false_2 (user_states ++ group_states = [])).
    2: { intros He. apply app_eq_nil in He as [-> _]. by apply not_elem_of_nil in Hm. }
    cbn [fail_if mbind result_bind]. rewrite (bool_decide_eq_true_2 (NoDup _)) by by apply Hd. cbn [negb fail_if mbind result_bind].
    rewrite component_master_Ok. cbn [mbind result_bind].
    rewrite (proj2 (component_user_Ok apple _) (conj eq_refl Ha)). cbn [mbind result_bind].
    assert (Hnu : NoDup (cs_component <$> user_states)) by (rewrite fmap_app in Hn; by apply NoDup_app in Hn as [? _]).
    rewrite (filter_component (λ s, cs_component s = Component UINT32_MAX 0 ZERO_UUID) _ m Hnu Hm) by (intros; by rewrite <-Hmc).
    rewrite (filter_component (λ s, cs_component s = Component apple 0 ZERO_UUID) _ r Hnu Hr) by (intros; by rewrite <-Hrc).
    assert (Hk : component_kind (cs_component r) ≠ MASTER).
    { rewrite <-Hrc. unfold component_kind. simpl. by rewrite (proj2 (Z.eqb_neq apple _)) by lia. }
    assert (Hrin : r ∈ user_states ++ group_states) by (apply elem_of_app; by left).
    rewrite needs_save_bit, (proj2 (Hdirty r Hrin Hk)) by done. cbn [length Nat.eqb negb fail_if mbind result_bind].
    rewrite (filter_component (λ s, needs_save s = true ∧ component_kind (cs_component s) ≠ MASTER) _ r Hn Hrin).
    + cbn [fmap list_fmap]. rewrite <-Hrc. rewrite bool_decide_eq_true_2 by done. done.
    + intros q Hq. rewrite needs_save_bit, <-Hrc. split; [intros [? ?]; by apply Hdirty|].
      intros Hc. assert (component_kind (cs_component q) ≠ MASTER) by (by rewrite Hc, Hrc). split; [|done]. by apply Hdirty.
Qed.

(** ** The commands *)

(** What the device may return for each command. *)
Definition capacity_ok (command capacity : Z) : Prop :=
  command = COMMAND_PREPARE_SAVE_CATACOMB ∧ capacity = 4
  ∨ command = COMMAND_COMPLETE_SAVE_CATACOMB ∧ 0 < capacity ≤ MAX_SECURE_BLOB_SIZE
  ∨ command = COMMAND_CONFIRM_SAVE_CATACOMB ∧ capacity = 0.

Definition descriptor_ok (version : Z) (descriptor : bytes) : Prop :=
  version = 1 ∧ length descriptor = 4%nat ∨ version = 2 ∧ length descriptor = 24%nat.

Lemma validate_descriptor_Ok v d : validate_descriptor v d = Ok tt ↔ descriptor_ok v d.
Proof.
  unfold validate_descriptor, descriptor_ok. destruct (decide (v = 1)) as [->|H1].
  { rewrite bool_decide_eq_true_2 by (apply elem_of_cons; by left). simpl.
    destruct (Nat.eqb_spec (length d) 4); simpl; split; (done || naive_solver lia). }
  destruct (decide (v = 2)) as [->|H2].
  { rewrite bool_decide_eq_true_2 by (apply elem_of_cons; right; apply elem_of_cons; by left). simpl.
    destruct (Nat.eqb_spec (length d) 24); simpl; split; (done || naive_solver lia). }
  rewrite bool_decide_eq_false_2 by (rewrite !elem_of_cons, elem_of_nil; naive_solver). simpl.
  split; [done|]. naive_solver.
Qed.

Lemma new_request_Ok command v d capacity r : new_request command v d capacity = Ok r ↔
  r = Request command v d capacity ∧ descriptor_ok v d ∧ capacity_ok command capacity.
Proof.
  rewrite <-validate_descriptor_Ok. unfold new_request, capacity_ok.
  change (Z.of_nat (calcsize PREPARE_REPLY)) with 4.
  unfold MAX_SECURE_BLOB_SIZE, COMMAND_PREPARE_SAVE_CATACOMB, COMMAND_COMPLETE_SAVE_CATACOMB, COMMAND_CONFIRM_SAVE_CATACOMB.
  split.
  - intros (u & Hd & (? & Hc%fail_if_Ok%negb_false_iff & (? & Hr%fail_if_Ok%negb_false_iff & H)%bind_Ok)%bind_Ok)%bind_Ok.
    destruct u. apply bind_Ok in H as (? & H1%fail_if_Ok & (? & H2%fail_if_Ok & (? & H3%fail_if_Ok & <-%Ok_inj)%bind_Ok)%bind_Ok).
    apply bool_decide_eq_true in Hc. rewrite !elem_of_cons, elem_of_nil in Hc. split; [done|split; [done|]]. lia.
  - intros (-> & -> & Hc). cbn [mbind result_bind]. rewrite bool_decide_eq_true_2 by (rewrite !elem_of_cons; lia).
    destruct Hc as [[-> ->]|[[-> Hc]|[-> ->]]]; [reflexivity| |reflexivity].
    replace ((0 <=? capacity) && (capacity <=? 1024 * 1024)) with true by lia. cbn [negb fail_if mbind result_bind Z.eqb andb Pos.eqb].
    by rewrite (proj2 (Z.eqb_neq capacity 0)) by lia.
Qed.

(** The length a prepare reply announces is the one the complete command
    asks for and the only one its reply may have. *)
Lemma prepared_length_bound status output n : parse_prepare_reply status output = Ok n →
  status = 0 ∧ output = le_pack 4 n ∧ 0 < n ≤ MAX_SECURE_BLOB_SIZE.
Proof.
  unfold parse_prepare_reply, require_success.
  intros (? & Hs%fail_if_Ok%negb_false_iff%Z.eqb_eq & (? & Hl%fail_if_Ok%negb_false_iff%Nat.eqb_eq & (v & Hv & H)%bind_Ok)%bind_Ok)%bind_Ok.
  apply (proj1 (unpack_Ok PREPARE_REPLY output v)) in Hv as [_ ->]. cbn [fields PREPARE_REPLY I_] in H.
  apply bind_Ok in H as (? & Hn%fail_if_Ok%negb_false_iff & <-%Ok_inj). unfold valid_blob_length in Hn.
  split; [done|]. change (calcsize PREPARE_REPLY) with 4%nat in Hl. rewrite (firstn_all2 output) in * by lia.
  split; [|lia]. rewrite <-Hl. by rewrite le_pack_unpack.
Qed.

(** The exchange of one component: the three requests are accepted, and the
    replies are read exactly. *)
Lemma save_exchange v d n blob : descriptor_ok v d → 0 < n ≤ MAX_SECURE_BLOB_SIZE → Z.of_nat (length blob) = n →
  build_prepare_request v d = Ok (Request COMMAND_PREPARE_SAVE_CATACOMB v d 4)
  ∧ parse_prepare_reply 0 (le_pack 4 n) = Ok n
  ∧ build_complete_request v d n = Ok (Request COMMAND_COMPLETE_SAVE_CATACOMB v d n)
  ∧ parse_complete_reply 0 blob n = Ok blob
  ∧ build_confirm_request v d = Ok (Request COMMAND_CONFIRM_SAVE_CATACOMB v d 0)
  ∧ parse_confirm_reply 0 [] = Ok tt.
Proof.
  intros Hd Hn Hb. assert (Hv : valid_blob_length n = true) by (unfold valid_blob_length; lia). split_and!.
  - apply new_request_Ok. split; [done|split; [done|by left]].
  - unfold parse_prepare_reply, unpack. rewrite length_le_pack. cbn [require_success Z.eqb negb fail_if mbind result_bind Nat.eqb calcsize PREPARE_REPLY I_ Nat.add fields].
    rewrite firstn_all2 by (by rewrite length_le_pack). rewrite le_unpack_pack.
    + by rewrite Hv.
    + unfold MAX_SECURE_BLOB_SIZE in Hn. change (width 4) with 4294967296. lia.
  - unfold build_complete_request. rewrite Hv. apply new_request_Ok. split; [done|split; [done|]]. right. by left.
  - unfold parse_complete_reply. rewrite Hv, Hb, Z.eqb_refl. done.
  - apply new_request_Ok. split; [done|split; [done|]]. right. by right.
  - done.
Qed.
