(* ===== verification/SaveWorld.v ===== *)
(** * The world of a Catacomb save

    What the operations that save Catacomb components through a device share
    ([src/src/t2_enrollment_persistence_operation.py],
    [src/src/t2_identity_rename_operation.py],
    [src/src/t2_identity_delete_persistence.py]): the transport, whose answers
    may depend on every call made so far; the host store, an interface
    [HostStore] over a state of its own; the buffers, a [bytearray] being a
    reference into the heap of the world; and the calls, each recorded with
    the journal file as it was. *)
From S2P Require Import Prelude PyValue MutationJournal Effect OperationWorld Bytes.

#[local] Open Scope Z_scope.

(** The calls an operation makes. *)
Inductive save_event :=
  | EvBegin (names : gset string)
  | EvPrepare (descriptor : bytes)
  | EvComplete (descriptor : bytes)
  | EvEncode (name : string) (blob : bytes)
  | EvStage (name : string) (data : bytes) (names : gset string)
  | EvConfirm (descriptor : bytes)
  | EvCommit (staged : gmap string value)
  | EvReadback.

(** A Python object that is a [bytearray], by reference, or is not. *)
Inductive object := Buffer (r : nat) | NoBuffer.
Abbreviation heap := (gmap nat bytes).

(** [PersistenceTransport]. *)
Record PersistenceTransport := Transport {
  pt_prepare : list save_event → bytes → result (value * value);
  pt_complete : list save_event → bytes → act heap (value * object);
  pt_confirm : list save_event → bytes → result value;
}.
(** [HostStore]: the three methods, on the state [T] of the store. *)
Class HostStore (T : Type) := {
  hs_begin_stage : gset string → act T unit;
  hs_stage_component : string → bytes → gset string → act T value;
  hs_cross_commit_boundary : gmap string value → act T unit;
}.

(** The journal, the calls made, each with the journal file as it was, the
    buffers, the two local variables that hold buffers, and the store. *)
Record save_world (T : Type) := SaveWorld {
  sv_fs : fs;
  sv_accesses : nat;
  sv_trace : list (save_event * fs);
  sv_heap : heap;
  sv_secure_blob : object;
  sv_encoded : object;
  sv_store : T;
}.
Arguments SaveWorld {T} _ _ _ _ _ _ _.
Arguments sv_fs {T} _.
Arguments sv_accesses {T} _.
Arguments sv_trace {T} _.
Arguments sv_heap {T} _.
Arguments sv_secure_blob {T} _.
Arguments sv_encoded {T} _.
Arguments sv_store {T} _.
#[export] Instance save_world_settable T : Settable (save_world T) := λ w,
  SaveWorld (sv_fs w) (sv_accesses w) (sv_trace w) (sv_heap w) (sv_secure_blob w) (sv_encoded w) (sv_store w).
#[export] Instance save_world_journalled T : Journalled (save_world T) := {
  journal_of := sv_fs;
  accesses_of := sv_accesses;
  with_journal s n w := w <| sv_fs := s |> <| sv_accesses := n |>;
}.
#[export] Instance save_world_journalled_laws T : JournalledLaws (save_world T).
Proof. by split. Qed.

(** [_wipe] *)
Definition wiped (b : bytes) : bytes := zeros (length b).
Definition wipe (o : object) (h : heap) : heap := match o with Buffer r => alter wiped r h | NoBuffer => h end.

(** The fields of a reference to a component. *)
Definition reference_fields : Type := list (string * value).
Definition component_reference (generation : value) (b c : nat) (name digest : string) : reference_fields :=
  [("connection_generation", generation); ("batch_index", VInt (Z.of_nat b)); ("component_index", VInt (Z.of_nat c));
   ("name", VStr name); ("descriptor_sha256", VStr digest)].

Section calls.
Context {T : Type} `{HostStore T}.
#[local] Abbreviation action := (act (save_world T)).

(** A call is recorded, with the journal file as it is, and answered. *)
Definition record_call (e : save_event) : action (list save_event) := λ w,
  (Ok (map fst (sv_trace w)), w <| sv_trace := sv_trace w ++ [(e, sv_fs w)] |>).
Definition call {A} (e : save_event) (answer : list save_event → result A) : action A :=
  past ← record_call e; pure (answer past).
Definition on_heap {A} (m : act heap A) : action A := λ w,
  let '(r, h) := m (sv_heap w) in (r, w <| sv_heap := h |>).
Definition heap_call {A} (e : save_event) (answer : list save_event → act heap A) : action A :=
  past ← record_call e; on_heap (answer past).
Definition on_store {A} (m : act T A) : action A := λ w,
  let '(r, s) := m (sv_store w) in (r, w <| sv_store := s |>).
Definition store_call {A} (e : save_event) (m : act T A) : action A := _ ← record_call e; on_store m.

(** The content of a buffer that is not empty. *)
Definition content (o : object) : action (option (nat * bytes)) := λ w,
  (Ok (match o with
       | Buffer r => match default [] (sv_heap w !! r) with [] => None | b => Some (r, b) end
       | NoBuffer => None
       end), w).

(** [type(status) is not int or status != 0] *)
Definition accepted (status : value) : bool := match status with VInt z => z =? 0 | _ => false end.
Definition blob_length_ok (length : value) : bool :=
  match length with VInt n => (0 <? n) && (n <=? 1024 * 1024) | _ => false end.
End calls.
