(* ===== verification/SaveFacts.v ===== *)
(** * Facts on Catacomb saves

    The part of the theory of a save that its operations share, whatever the
    journal they write ([SaveJournal]), the device and the store: what the last
    record of a journal announces about the next call, the calls still to be
    made, and the buffers that may hold a secret. *)
From S2P Require Import Prelude PyValue Sha256 Json MutationJournal Evidence TypedJournal PersistenceJournal.
From S2P Require Import Effect OperationWorld Bytes CatacombOracle SaveWorld.

#[local] Open Scope Z_scope.

(** ** What a save record says *)

(** The last record of a journal is this milestone of the save, accepted with
    this evidence. *)
Definition last_save (p : PersistenceHistory) (m : string) (ev : value) : Prop :=
  ∃ t t' allow, consume t (VStr m) ev allow = Ok (true, t') ∧ p = snapshot t'.

Lemma consume_consumes t m v allow b t' : startswith (VStr m) "CATACOMB_" = true →
  consume t (VStr m) v allow = Ok (b, t') → b = true.
Proof. unfold consume. intros ->. cbn [negb]. cbv zeta. by intros (? & _ & [= <- _])%bind_Ok. Qed.

(** The component the journal points at. *)
Definition current_component (p : PersistenceHistory) : option component :=
  b ← ph_batch_index p; c ← ph_component_index p; batch ← ph_batches p !! b; batch !! c.

Lemma points_at_current t b c batch x : points_at t b c batch x → current_component (snapshot t) = Some x.
Proof.
  unfold points_at, current_component. cbn. intros (-> & -> & Hb & Hc). cbn. rewrite Hb. exact Hc.
Qed.

Lemma component_named t v m extra e (name digest : string) : component_evidence t v m extra = Ok e →
  v@["name"] = VStr name → v@["descriptor_sha256"] = VStr digest →
  current_component (snapshot t) = Some (name, digest).
Proof.
  intros (_ & _ & _ & b & c & batch & [n d] & Hp & Hn & Hd)%component_evidence_Ok Hname Hdigest.
  rewrite (points_at_current _ _ _ _ _ Hp). rewrite Hname in Hn. rewrite Hdigest in Hd. cbn [fst snd] in *.
  injection Hn as ->. injection Hd as ->. reflexivity.
Qed.

(** The record that a call follows. *)
Definition follows (m : string) (e : save_event) : Prop :=
  match e with
  | EvBegin _ => m = "CATACOMB_PERSISTENCE_PLAN" ∨ m = "CATACOMB_FINAL_CONFIRMED"
  | EvPrepare _ => m = "CATACOMB_PREPARE_INTENT"
  | EvComplete _ => m = "CATACOMB_COMPLETE_INTENT"
  | EvEncode _ _ | EvStage _ _ _ => m = "CATACOMB_SECURE_BLOB_CAPTURED"
  | EvConfirm _ => m = "CATACOMB_CONFIRM_INTENT" ∨ m = "CATACOMB_FINAL_CONFIRM_INTENT"
  | EvCommit _ => m = "CATACOMB_HOST_BATCH_COMMIT_INTENT"
  | EvReadback => m = "CATACOMB_FINAL_CONFIRMED"
  end.

(** What the journal said of a call: its last record, of milestone [m], leaves
    the save in [p] and carries the evidence [ev]. *)
Definition announced (p : PersistenceHistory) (m : string) (ev : value) (e : save_event) : Prop :=
  follows m e ∧
  match e with
  | EvBegin _ | EvReadback => ph_phase p = COMPONENT_READY ∨ ph_phase p = ATTESTATION_READY
  | EvPrepare d => ph_phase p = PREPARE_INTENT ∧ snd <$> current_component p = Some (secure_digest d)
  | EvComplete d => ph_phase p = COMPLETE_INTENT ∧ snd <$> current_component p = Some (secure_digest d)
  | EvEncode name blob => ph_phase p = SECURE_BLOB_CAPTURED ∧ fst <$> current_component p = Some name
      ∧ ev@["secure_blob_sha256"] = VStr (secure_digest blob)
  | EvStage name _ _ => ph_phase p = SECURE_BLOB_CAPTURED ∧ fst <$> current_component p = Some name
  | EvConfirm d => (ph_phase p = CONFIRM_INTENT ∨ ph_phase p = FINAL_CONFIRM_INTENT)
      ∧ snd <$> current_component p = Some (secure_digest d)
  | EvCommit staged => ph_phase p = BATCH_COMMIT_INTENT
      ∧ ∃ batch entries text journalled, staged_entries staged batch = Ok entries ∧ dumps (VList entries) = Some text
          ∧ (b ← ph_batch_index p; ph_batches p !! b) = Some journalled
          ∧ ∃ entries' text', staged_entries (ph_staged_files p) journalled = Ok entries'
              ∧ dumps (VList entries') = Some text' ∧ sha256_hex text' = sha256_hex text
  end.

(** The evidence of a record about the component [name] with descriptor [d]. *)
Definition about_component (name : string) (d : bytes) (ev : value) : Prop :=
  ev@["name"] = VStr name ∧ ev@["descriptor_sha256"] = VStr (secure_digest d).

Lemma about_reference g b c name d extra :
  about_component name d (dict (component_reference g b c name (secure_digest d) ++ extra)).
Proof.
  unfold about_component. rewrite !get_dict. unfold component_reference. cbn [app list_to_map foldr uncurry fst snd].
  by split; rewrite ?lookup_insert_ne, lookup_insert_eq by done.
Qed.

Lemma about_reference_only g b c name d :
  about_component name d (dict (component_reference g b c name (secure_digest d))).
Proof. rewrite <-(app_nil_r (component_reference _ _ _ _ _)). apply about_reference. Qed.

Lemma reference_field g b c name digest extra (k : string) v : k ∉ (component_reference g b c name digest).*1 →
  default VNone (list_to_map (M := gmap string value) extra !! k) = v →
  (dict (component_reference g b c name digest ++ extra))@[k] = v.
Proof.
  intros Hk <-. rewrite get_dict. unfold component_reference in *. cbn [fmap list_fmap fst] in Hk.
  cbn [app list_to_map foldr uncurry fst snd]. rewrite !not_elem_of_cons in Hk. destruct Hk as (? & ? & ? & ? & ? & _).
  by rewrite !lookup_insert_ne by done.
Qed.

(** Opens the handler behind an accepted milestone. *)
Ltac save_inv :=
  match goal with H : last_save _ ?m _ |- _ =>
    let t := fresh "t" in let t' := fresh "t'" in let Hc := fresh "Hc" in
    destruct H as (t & t' & allow & Hc & ->);
    apply consume_own in Hc; [|done|done|done]; unfold consume_planned in Hc;
    apply bind_Ok in Hc as (? & _ & Hc); cbn [String.eqb Ascii.eqb Bool.eqb] in Hc
  end.

Section announcing.
Context (p : PersistenceHistory) (name : string) (d : bytes) (ev : value) (about : about_component name d ev).

Lemma component_current t m extra e : component_evidence t ev m extra = Ok e →
  current_component (snapshot t) = Some (name, secure_digest d).
Proof. intros H. by apply (component_named _ _ _ _ _ _ _ H); apply about. Qed.

(** Closes a goal about the phase and the component of a component record. *)
Ltac announce :=
  unfold announced; split; [by cbn; auto|];
  match goal with H : component_evidence ?t ev _ _ = Ok _ |- _ =>
    apply component_current in H;
    repeat match goal with |- context [current_component (snapshot ?u)] =>
      lazymatch u with t => fail | _ => change (current_component (snapshot u)) with (current_component (snapshot t)) end
    end; rewrite H
  end.

Lemma prepare_announced : last_save p "CATACOMB_PREPARE_INTENT" ev → announced p "CATACOMB_PREPARE_INTENT" ev (EvPrepare d).
Proof. intros H. save_inv. unfold on_prepare_intent in Hc. ok_inv. announce. done. Qed.

Lemma complete_announced : last_save p "CATACOMB_COMPLETE_INTENT" ev → announced p "CATACOMB_COMPLETE_INTENT" ev (EvComplete d).
Proof. intros H. save_inv. unfold on_complete_intent in Hc. ok_inv. announce. done. Qed.

Lemma encode_announced b : last_save p "CATACOMB_SECURE_BLOB_CAPTURED" ev →
  ev@["secure_blob_sha256"] = VStr (secure_digest b) → announced p "CATACOMB_SECURE_BLOB_CAPTURED" ev (EvEncode name b).
Proof. intros H. save_inv. unfold on_secure_blob_captured, preject in Hc. ok_inv. announce. done. Qed.

Lemma stage_announced data names : last_save p "CATACOMB_SECURE_BLOB_CAPTURED" ev →
  announced p "CATACOMB_SECURE_BLOB_CAPTURED" ev (EvStage name data names).
Proof. intros H. save_inv. unfold on_secure_blob_captured, preject in Hc. ok_inv. announce. done. Qed.

Lemma confirm_announced : last_save p "CATACOMB_CONFIRM_INTENT" ev → announced p "CATACOMB_CONFIRM_INTENT" ev (EvConfirm d).
Proof.
  intros H. save_inv. apply bind_Ok in Hc as (final & _ & Hc). unfold on_confirm_intent, preject in Hc. ok_inv. announce.
  split; [by left|done].
Qed.

Lemma final_confirm_announced : last_save p "CATACOMB_FINAL_CONFIRM_INTENT" ev →
  announced p "CATACOMB_FINAL_CONFIRM_INTENT" ev (EvConfirm d).
Proof.
  intros H. save_inv. apply bind_Ok in Hc as (final & _ & Hc). unfold on_final_confirm_intent in Hc. ok_inv. announce.
  split; [by right|done].
Qed.
End announcing.

(** A final confirmation needs the reference of a component. *)
Lemma final_confirm_needs_reference p : last_save p "CATACOMB_FINAL_CONFIRM_INTENT" VNone → False.
Proof.
  intros H. save_inv. apply bind_Ok in Hc as (final & _ & Hc). unfold on_final_confirm_intent in Hc. ok_inv.
  match goal with H : component_evidence _ _ _ _ = Ok _ |- _ => apply component_evidence_Ok in H as (_ & H & _) end.
  discriminate.
Qed.

Lemma begin_announced p ev names : last_save p "CATACOMB_PERSISTENCE_PLAN" ev → announced p "CATACOMB_PERSISTENCE_PLAN" ev (EvBegin names).
Proof.
  intros (t & t' & allow & Hc & ->). unfold consume in Hc. cbn [startswith negb] in Hc. cbv zeta in Hc.
  apply bind_Ok in Hc as (t1 & Hc & Heq). injection Heq as ->. cbn [str_value String.eqb Ascii.eqb Bool.eqb] in Hc.
  unfold announced. split; [by left|]. left. unfold on_plan, preject in Hc. ok_inv.
  repeat match goal with p : (_ * plan_acc)%type |- _ => destruct p end. ok_inv. done.
Qed.

Lemma confirmed_announced p ev e : last_save p "CATACOMB_FINAL_CONFIRMED" ev →
  e = EvReadback ∨ (∃ names, e = EvBegin names) → announced p "CATACOMB_FINAL_CONFIRMED" ev e.
Proof.
  intros H He. save_inv. apply bind_Ok in Hc as (final & _ & Hc). unfold on_final_confirmed in Hc. cbv zeta in Hc. ok_inv.
  assert (pt_phase t' = COMPONENT_READY ∨ pt_phase t' = ATTESTATION_READY).
  { match goal with H : context [if ?b then _ else _] |- _ => destruct b end; ok_inv; auto. }
  destruct He as [->|[? ->]]; (split; [cbn; auto|done]).
Qed.

Lemma commit_announced p ev staged batch entries text : last_save p "CATACOMB_HOST_BATCH_COMMIT_INTENT" ev →
  staged_entries staged batch = Ok entries → dumps (VList entries) = Some text →
  ev@["staged_snapshot_sha256"] = VStr (sha256_hex text) →
  announced p "CATACOMB_HOST_BATCH_COMMIT_INTENT" ev (EvCommit staged).
Proof.
  intros H Hent Htext Hev. save_inv. apply bind_Ok in Hc as (final & _ & Hc). unfold on_batch_commit_intent, preject in Hc.
  ok_inv. unfold announced. split; [done|]. split; [done|].
  match goal with H : batch_evidence _ _ _ = Ok _ |- _ =>
    apply batch_evidence_Ok in H as (b & journalled & entries' & text' & Hb & Hj & He' & Ht' & Hv) end.
  exists batch, entries, text, journalled. split; [done|]. split; [done|]. cbn [snapshot ph_batch_index ph_batches ph_staged_files].
  change (pt_batch_index (set_phase _ t)) with (pt_batch_index t). change (pt_batches (set_phase _ t)) with (pt_batches t).
  change (pt_staged (set_phase _ t)) with (pt_staged t). rewrite Hb. split; [exact Hj|]. exists entries', text'.
  split; [done|]. split; [done|]. rewrite Hv in Hev. by injection Hev.
Qed.

Lemma attested_complete p ev : last_save p "CATACOMB_PERSISTENCE_ATTESTED" ev → ph_phase p = COMPLETE.
Proof.
  intros H. save_inv. apply bind_Ok in Hc as (final & _ & Hc). unfold on_attested, preject in Hc. ok_inv. done.
Qed.

(** ** The order of the calls *)

Inductive save_call :=
  | CallBegin (names : gset string)
  | CallPrepare (descriptor : bytes)
  | CallComplete (descriptor : bytes)
  | CallEncode (name : string)
  | CallStage (name : string)
  | CallConfirm (descriptor : bytes)
  | CallCommit
  | CallReadback.

Definition call_of (e : save_event) : save_call :=
  match e with
  | EvBegin names => CallBegin names
  | EvPrepare d => CallPrepare d
  | EvComplete d => CallComplete d
  | EvEncode name _ => CallEncode name
  | EvStage name _ _ => CallStage name
  | EvConfirm d => CallConfirm d
  | EvCommit _ => CallCommit
  | EvReadback => CallReadback
  end.

(** ** Buffers *)

(** Apart from the buffers [kept], everything in the heap is wiped. *)
Definition secret_free (h : heap) (kept : list object) : Prop :=
  ∀ r b, h !! r = Some b → Buffer r ∈ kept ∨ b = wiped b.

(** A callable that leaves the buffers alone apart from the one it returns; if
    it raises, it may also leave new ones that it wiped. *)
Definition tidy {A} (pick : A → object) (m : act heap A) : Prop := ∀ h,
  match m h with
  | (Ok a, h') => ∀ r, Buffer r ≠ pick a → h' !! r = h !! r
  | (Raise _, h') => ∀ r b, h' !! r = Some b → h !! r = Some b ∨ b = wiped b
  end.

Lemma secret_free_answer {A} (pick : A → object) (m : act heap A) h kept a h' : tidy pick m → secret_free h kept →
  m h = (Ok a, h') → secret_free h' (pick a :: kept).
Proof.
  intros Ht Hs Hm r b Hr. specialize (Ht h). rewrite Hm in Ht.
  assert (Buffer r = pick a ∨ Buffer r ≠ pick a) as [He|Hne].
  { destruct (pick a) as [k|]; [|by right]. destruct (decide (r = k)) as [->|]; [by left|]. right. congruence. }
  - left. rewrite He. apply list_elem_of_here.
  - rewrite (Ht r Hne) in Hr. destruct (Hs r b Hr); [left; by apply list_elem_of_further|by right].
Qed.

Lemma wiped_wiped b : wiped (wiped b) = wiped b.
Proof. unfold wiped, zeros. by rewrite length_replicate. Qed.

Lemma secret_free_wipe h o kept : secret_free h (o :: kept) → secret_free (wipe o h) kept.
Proof.
  intros Hs r b. destruct o as [k|]; cbn [wipe].
  - destruct (decide (r = k)) as [->|Hne].
    + rewrite lookup_alter_eq. destruct (h !! k) as [b0|] eqn:Hk; [|done]. intros [= <-]. right. by rewrite wiped_wiped.
    + rewrite lookup_alter_ne by done. intros Hr. destruct (Hs r b Hr) as [Hin|]; [|by right].
      apply elem_of_cons in Hin as [[= ->]|]; [done|by left].
  - intros Hr. destruct (Hs r b Hr) as [Hin|]; [|by right]. apply elem_of_cons in Hin as [[=]|]. by left.
Qed.

Lemma secret_free_weaken h kept kept' : (∀ r, Buffer r ∈ kept → Buffer r ∈ kept') → secret_free h kept → secret_free h kept'.
Proof. intros Hk Hs r b Hr. destruct (Hs r b Hr); auto. Qed.

(** ** Journals of a save *)

(** A typed journal that carries a save. *)
Class SaveJournal (S H : Type) `{TypedJournal S H} := { save_history : H → PersistenceHistory }.
Class SaveJournalLaws (S H : Type) `{SaveJournal S H} := {
  save_journal_laws :: TypedJournalLaws S H;
  save_last euid s (h : H) op m ev : ends_with euid s h op m ev → String.prefix "CATACOMB_" m = true →
    last_save (save_history h) m ev;
}.

(** ** Runs *)

Section runs.
Context {T St Hi : Type} `{Hstore : HostStore T} `{JT : TypedJournal St Hi} `{JS : !SaveJournal St Hi} `{JL : !SaveJournalLaws St Hi}
  (env : surroundings) (operation_id : string).
(** Whether the callables leave the buffers of others alone. *)
Context (tidy_calls : Prop).
#[local] Abbreviation world := (save_world T).
#[local] Abbreviation ends := (ends_with (su_euid env)).

(** When the call was made, the journal announced it. *)
Definition event_announced (e : save_event * fs) : Prop :=
  ∃ h m ev, ends e.2 h operation_id m ev ∧ announced (save_history h) m ev e.1.

Definition calls (w : world) : list save_call := map (λ e, call_of e.1) (sv_trace w).

Context (full : list save_call).

(** The buffers that may hold secrets: inside the [try] of a component, those
    of the two local variables. *)
Definition kept (inside : bool) (w : world) : list object := if inside then [sv_secure_blob w; sv_encoded w] else [].

(** Of the calls [full], those in [rest] are still to be made. *)
Record at_save (inside : bool) (rest : list save_call) (w : world) : Prop := {
  at_clean : tidy_calls → secret_free (sv_heap w) (kept inside w);
  at_announced : Forall event_announced (sv_trace w);
  at_calls : calls w ++ rest = full;
}.
Definition failed (inside : bool) (w : world) : Prop := ∃ rest, at_save inside rest w.

(** The journal on disk ends with this record of the save. *)
Record posted (w : world) (h : Hi) (m : string) (ev : value) : Prop := {
  po_whole : whole (sv_fs w);
  po_ends : ends (sv_fs w) h operation_id m ev;
  po_last : last_save (save_history h) m ev;
}.

Lemma at_failed i rest w : at_save i rest w → failed i w.
Proof. by exists rest. Qed.
#[local] Hint Resolve at_failed : core.

Lemma at_journal i rest w s n : at_save i rest w → at_save i rest (with_journal s n w).
Proof. by intros [? ? ?]. Qed.

Lemma failed_journal i w s n : failed i w → failed i (with_journal s n w).
Proof. intros [rest ?]. exists rest. by apply at_journal. Qed.

(** *** Failures *)

Lemma append_failed_wp i m ev w : failed i w →
  wp (append_call env operation_id m ev) (λ (_ : Hi) w', failed i w') (λ _ w', failed i w') w.
Proof.
  intros Hf. unfold wp, append_call. cbv zeta.
  destruct (append_checked _ _ _ _ _ _ _ _) as [s [h|e]]; by apply failed_journal.
Qed.

(** A handler that never completes: it journals the end, if it can, and raises. *)
Lemma attempt_wp {A} i m ev (k : act world A) (Q : A → world → Prop) w : failed i w →
  (∀ w', failed i w' → wp k Q (λ _ w', failed i w') w') →
  wp (_ ← catch any_class (_ ← (append_call env operation_id m ev : act world Hi); mret tt) (λ _, mret tt); k) Q
    (λ _ w', failed i w') w.
Proof.
  intros Hf Hk. apply wp_bind, wp_catch. cbn [any_class]. apply wp_bind.
  eapply wp_weaken; [by apply append_failed_wp| |]; cbv beta; intros; by apply wp_ret, Hk.
Qed.

(** *** The calls *)

Lemma record_wp {A} i e rest w h m ev (f : list save_event → act world A) Q E :
  at_save i (call_of e :: rest) w → posted w h m ev → announced (save_history h) m ev e →
  (∀ past w', at_save i rest w' → sv_fs w' = sv_fs w → sv_heap w' = sv_heap w → sv_secure_blob w' = sv_secure_blob w →
     sv_encoded w' = sv_encoded w → wp (f past) Q E w') →
  wp (record_call e ≫= f) Q E w.
Proof.
  intros [Hc Ha Hl] [Hw He Hp] Hann Hf. apply wp_bind. unfold wp at 1, record_call. apply Hf; try done. split.
  - exact Hc.
  - apply Forall_app. split; [exact Ha|]. constructor; [|constructor]. exists h, m, ev. split; [exact He|exact Hann].
  - unfold calls. cbn [sv_trace set_field]. rewrite map_app, <-app_assoc. exact Hl.
Qed.

Lemma save_call_wp {A} i e rest w h m ev (answer : list save_event → result A) :
  at_save i (call_of e :: rest) w → posted w h m ev → announced (save_history h) m ev e →
  wp (call e answer) (λ _ w', at_save i rest w' ∧ whole (sv_fs w')) (λ _ w', failed i w') w.
Proof.
  intros Hat Hp Ha. unfold call. eapply record_wp; [done..|]. intros past w1 H1 Hfs _ _ _. apply wp_pure.
  - intros a _. split; [done|]. rewrite Hfs. apply Hp.
  - intros e1 _. eauto.
Qed.

Lemma store_call_wp {A} i e rest w h m ev (s : act T A) :
  at_save i (call_of e :: rest) w → posted w h m ev → announced (save_history h) m ev e →
  wp (store_call e s) (λ _ w', at_save i rest w' ∧ whole (sv_fs w')) (λ _ w', failed i w') w.
Proof.
  intros Hat Hp Ha. unfold store_call. eapply record_wp; [done..|]. intros past w1 H1 Hfs _ _ _.
  assert (∀ t, at_save i rest (w1 <| sv_store := t |>)) as Ht by (intros t; by destruct H1).
  unfold wp, on_store. destruct (s (sv_store w1)) as [[a|e1] t]; [|eauto].
  split; [apply Ht|]. cbn [sv_fs set_field]. rewrite Hfs. apply Hp.
Qed.

Lemma content_wp o (Q : option (nat * bytes) → world → Prop) E w :
  (∀ r d, o = Buffer r → sv_heap w !! r = Some d → d ≠ [] → Q (Some (r, d)) w) → Q None w → wp (content o) Q E w.
Proof.
  intros HS HN. unfold wp, content. destruct o as [r|]; [|exact HN].
  destruct (sv_heap w !! r) as [[|y d]|] eqn:Hr; cbn [default]; [exact HN| |exact HN]. by apply HS.
Qed.

Lemma content_known {A} r d (f : option (nat * bytes) → act world A) Q E w : sv_heap w !! r = Some d → d ≠ [] →
  wp (f (Some (r, d))) Q E w → wp (content (Buffer r) ≫= f) Q E w.
Proof.
  intros Hr Hd Hf. apply wp_bind. unfold wp at 1, content. rewrite Hr. cbn [default from_option id].
  by destruct d.
Qed.

Lemma heap_call_wp {A} (pick : A → object) e rest w h m ev (answer : list save_event → act heap A)
    (store : object → world → world) (Q : A → world → Prop) :
  at_save true (call_of e :: rest) w → posted w h m ev → announced (save_history h) m ev e →
  (tidy_calls → ∀ past, tidy pick (answer past)) →
  (∀ o, store o = (λ w, w <| sv_secure_blob := o |>) ∧ sv_secure_blob w = NoBuffer
        ∨ store o = (λ w, w <| sv_encoded := o |>) ∧ sv_encoded w = NoBuffer) →
  (∀ a past hp, at_save true rest (store (pick a) (w <| sv_trace := past |> <| sv_heap := hp |>)) →
     Q a (store (pick a) (w <| sv_trace := past |> <| sv_heap := hp |>))) →
  wp (a ← heap_call e answer; _ ← assign (store (pick a)); mret a) Q (λ _ w', failed true w') w.
Proof.
  intros Hat Hp Ha Ht Hst HQ. apply wp_bind. unfold heap_call, wp at 1, mbind, act_bind, record_call, on_heap.
  destruct Hat as [Hc Hann Hl]. cbn [sv_heap set_field].
  assert (Forall event_announced (sv_trace w ++ [(e, sv_fs w)])) as Hann'.
  { apply Forall_app. split; [exact Hann|]. constructor; [|constructor]. exists h, m, ev. split; [apply Hp|exact Ha]. }
  assert (map (λ e, call_of e.1) (sv_trace w ++ [(e, sv_fs w)]) ++ rest = full) as Hl'
    by (by rewrite map_app, <-app_assoc).
  destruct (answer (map fst (sv_trace w)) (sv_heap w)) as [[a|ex] hp] eqn:Hans.
  - change (wp (_ ← assign (store (pick a)); mret a) Q (λ _ w', failed true w')
      (w <| sv_trace := sv_trace w ++ [(e, sv_fs w)] |> <| sv_heap := hp |>)).
    apply wp_bind, wp_assign, wp_ret, HQ.
    destruct (Hst (pick a)) as [[-> Hn]|[-> Hn]]; (split; [|exact Hann'|exact Hl']); intros Hti; cbn [kept sv_heap sv_secure_blob sv_encoded set_field];
      pose proof (secret_free_answer pick _ _ _ _ _ (Ht Hti _) (Hc Hti) Hans) as Hs;
      (eapply secret_free_weaken; [|exact Hs]); cbn [kept]; rewrite Hn; set_solver.
  - exists rest. split; [|exact Hann'|exact Hl']. intros Hti. specialize (Ht Hti (map fst (sv_trace w)) (sv_heap w)).
    rewrite Hans in Ht. cbn [sv_heap set_field]. intros r b Hr. destruct (Ht r b Hr) as [Hr'|Hr']; [|by right].
    exact (Hc Hti r b Hr').
Qed.

Lemma at_wiped rest w : at_save true rest w →
  at_save false rest (w <| sv_heap := wipe (sv_secure_blob w) (wipe (sv_encoded w) (sv_heap w)) |>).
Proof.
  intros [Hc Ha Hl]. split; [|exact Ha|exact Hl]. intros Ht. specialize (Hc Ht). cbn [kept sv_heap set_field] in *.
  apply secret_free_wipe, secret_free_wipe. eapply secret_free_weaken; [|exact Hc]. set_solver.
Qed.

Context (lines : orderly env).

(** *** The journal *)

Lemma append_wp i rest m ev w : at_save i rest w → whole (sv_fs w) → String.prefix "CATACOMB_" m = true →
  wp (append_call env operation_id m ev) (λ h w', at_save i rest w' ∧ posted w' h m ev
      ∧ sv_heap w' = sv_heap w ∧ sv_secure_blob w' = sv_secure_blob w ∧ sv_encoded w' = sv_encoded w)
    (λ _ w', failed i w') w.
Proof.
  intros Hat Hw Hm. eapply wp_weaken; [by apply append_call_wp| |]; cbv beta.
  - intros h w' (s & n & -> & Hs & He). split; [by apply at_journal|]. split; [|done].
    split; [exact Hs|exact He|]. by eapply save_last.
  - intros _ w' (s & n & ->). eapply failed_journal, at_failed, Hat.
Qed.

(** A record that is not followed by a call: that of another family, or the
    last attempt of a run that has failed. *)
Lemma append_other_wp i rest m ev w : at_save i rest w → whole (sv_fs w) →
  wp (append_call env operation_id m ev) (λ (h : Hi) w', at_save i rest w' ∧ whole (sv_fs w') ∧ ends (sv_fs w') h operation_id m ev)
    (λ _ w', failed i w') w.
Proof.
  intros Hat Hw. eapply wp_weaken; [by apply append_call_wp| |]; cbv beta.
  - intros h w' (s & n & -> & Hs & He). split; [by apply at_journal|]. by split.
  - intros _ w' (s & n & ->). eapply failed_journal, at_failed, Hat.
Qed.

End runs.
