(* ===== verification/PersistenceOperation.v ===== *)
(** * The Catacomb persistence operation
    ([src/src/t2_enrollment_persistence_operation.py])

    The operation between the terminal identity of an enrolment (E2) and its
    reconciliation (E3): for every component of every batch it asks the
    device to prepare, complete and confirm a save, encodes the secure blob,
    stages the file, commits each batch on the host and finally reads back,
    with a journal record before and after each step.  Every failure after an
    intent freezes the journal.

    The transport, the encoder and the read-back are parameters whose answers
    may depend on every call made so far. *)
From S2P Require Import Prelude PyValue Sha256 Json MutationJournal Evidence TypedJournal PersistenceJournal.
From S2P Require Import EnrollmentJournal Effect OperationWorld Bytes CatacombOracle CatacombProtocol SaveWorld.

#[local] Open Scope Z_scope.

(** ** Data *)

Record ComponentSpec := Spec { sp_name : string; sp_descriptor : bytes }.
Definition descriptor_sha256 (x : ComponentSpec) : string := secure_digest (sp_descriptor x).
(** The pair that the journal plans for a component. *)
Definition planned_pair (x : ComponentSpec) : component := (sp_name x, descriptor_sha256 x).

Record ReadbackAttestation := Attestation {
  ra_reconciliation_snapshot_sha256 : value;
  ra_sep_host_generation_equal : value;
  ra_independent_archive_readback : value;
}.

Definition Encoder : Type := list save_event → string → nat → act heap object.
Definition Readback : Type := list save_event → result (option ReadbackAttestation).

(** ** Which components may be saved *)

#[local] Abbreviation perr msg := (throw PersistenceOperationError msg).
#[local] Abbreviation refuse b msg := (fail_if b PersistenceOperationError msg).

Definition validate_component (apple_user_id : value) (x : ComponentSpec) : result unit :=
  let expected_user_name := user_cat apple_user_id in
  _ ← refuse (negb (length (sp_descriptor x) =? 24)%nat) "persistence component descriptor is invalid";
  if bool_decide (sp_name x ∈ [expected_user_name; "master.cat"]) then
    parsed ← except (λ c, bool_decide (c = CatacombProtocolError))
               (λ _, Exn PersistenceOperationError "persistence component descriptor is invalid")
               (component_parse (sp_descriptor x));
    expected ← (if String.eqb (sp_name x) expected_user_name then component_user (int_value apple_user_id)
                else component_master);
    refuse (negb (bool_decide (parsed = expected))) "persistence component descriptor is bound to another target"
  else if String.eqb (sp_name x) "biolockout.cat" then
    refuse (negb (bool_decide (sp_descriptor x = BioLockout.PERSISTENCE_DESCRIPTOR))) "bio-lockout persistence descriptor is invalid"
  else raise PersistenceOperationError "persistence component name is invalid".

Definition validate_components (history : EnrollmentHistory) (batches : list (list ComponentSpec)) : result unit :=
  let identity_persistence := bool_decide (eh_phase history = E_TERMINAL_IDENTITY) in
  let failure_biolockout_persistence :=
    bool_decide (eh_phase history = E_TERMINAL_FAILURE)
    && match batches with [[x]] => String.eqb (sp_name x) "biolockout.cat" | _ => false end in
  _ ← refuse (negb identity_persistence && negb failure_biolockout_persistence)
        "persistence requires an identity or a terminal bio-lockout sync";
  _ ← refuse (bool_decide (batches = [])) "persistence has no component batches";
  for_each (λ batch,
    _ ← refuse (bool_decide (batch = [])) "persistence has an empty batch";
    for_each (validate_component ((eh_baseline history)@["apple_uid"])) batch) batches.

(** ** One run *)

(** [_reference] *)
Definition reference (history : EnrollmentHistory) (b c : nat) (x : ComponentSpec) : reference_fields :=
  component_reference (eh_persistence_connection_generation history) b c (sp_name x) (descriptor_sha256 x).

Section operation.
Context {T : Type} `{HostStore T} (env : surroundings) (operation_id : string)
  (transport : PersistenceTransport) (encoder : Encoder) (readback : Readback).

#[local] Abbreviation action := (act (save_world T)).
#[local] Abbreviation append := (append_call (W := save_world T) (H := EnrollmentHistory) env operation_id).

(** [_freeze]; [{**None}] raises inside its [try]. *)
Definition freeze {A} (reference : option reference_fields) (stage reason : string) (host_commit_possible : bool) : action A :=
  _ ← catch any_class
        (match reference with
         | Some fields =>
             _ ← append "CATACOMB_PERSISTENCE_OUTCOME_UNKNOWN"
                   (dict (fields ++ [("stage", VStr stage); ("reason", VStr reason); ("sep_mutation_possible", VBool true);
                                     ("host_commit_possible", VBool host_commit_possible)]));
             mret tt
         | None => throw TypeError "'NoneType' object is not a mapping"
         end)
        (λ _, mret tt);
  perr ("Catacomb persistence stopped at " +:+ stage +:+ "; reconciliation is required").

Section stages.
Context (reference : option reference_fields).

(** [try: m / except Exception as error: _freeze(...)] *)
Definition guarded {A} (m : action A) (stage reason : string) (host_commit_possible : bool) : action A :=
  catch any_class m (λ _, freeze reference stage reason host_commit_possible).

(** [{**reference, ...}] *)
Definition extended (fields : list (string * value)) : action value :=
  match reference with
  | Some base => mret (dict (base ++ fields))
  | None => throw TypeError "'NoneType' object is not a mapping"
  end.

(** A record that follows an intent. *)
Definition observe (milestone : string) (fields : list (string * value)) (stage : string) (host_commit_possible : bool)
    : action unit :=
  guarded (ev ← extended fields; _ ← append milestone ev; mret tt) stage "journal-error" host_commit_possible.

Definition prepare (x : ComponentSpec) : action Z :=
  ref ← extended [];
  _ ← append "CATACOMB_PREPARE_INTENT" ref;
  '(status, expected_blob_length) ←
    guarded (call (EvPrepare (sp_descriptor x)) (λ past, pt_prepare transport past (sp_descriptor x)))
      "prepare" "transport-error" false;
  _ ← (if negb (accepted status) || negb (blob_length_ok expected_blob_length)
       then freeze reference "prepare" "transport-error" false else mret tt);
  _ ← observe "CATACOMB_PREPARED" [("status", status); ("expected_blob_length", expected_blob_length)] "prepare" false;
  mret (int_value expected_blob_length).

Definition complete (x : ComponentSpec) (expected_blob_length : Z) : action (nat * bytes) :=
  '(status, secure_blob) ←
    guarded (answer ← heap_call (EvComplete (sp_descriptor x)) (λ past, pt_complete transport past (sp_descriptor x));
             _ ← assign (λ w, w <| sv_secure_blob := snd answer |>);
             mret answer)
      "complete" "transport-error" false;
  blob ← content secure_blob;
  match blob with
  | Some (r, b) =>
      let n := Z.of_nat (length b) in
      if negb (accepted status)
         || (if String.eqb (sp_name x) "biolockout.cat" then expected_blob_length <? n
             else negb (n =? expected_blob_length))
      then freeze reference "complete" "transport-error" false
      else
        _ ← observe "CATACOMB_SECURE_BLOB_CAPTURED"
              [("status", status); ("blob_length", VInt n); ("secure_blob_sha256", VStr (secure_digest b))] "complete" false;
        mret (r, b)
  | None => freeze reference "complete" "transport-error" false
  end.

Definition encode (x : ComponentSpec) (r : nat) : action bytes :=
  encoded ← guarded (blob ← content (Buffer r);
                     o ← heap_call (EvEncode (sp_name x) (default [] (snd <$> blob))) (λ past, encoder past (sp_name x) r);
                     _ ← assign (λ w, w <| sv_encoded := o |>);
                     mret o)
              "encode" "codec-error" false;
  data ← content encoded;
  match data with
  | Some (_, data) => mret data
  | None => freeze reference "encode" "codec-error" false
  end.

Definition stage (x : ComponentSpec) (names : gset string) (blob data : bytes) (staged : gmap string value)
    : action (gmap string value) :=
  final_file_sha256 ←
    guarded (store_call (EvStage (sp_name x) data names) (hs_stage_component (sp_name x) data names))
      "host-stage" "host-store-error" false;
  _ ← (if final_file_sha256 !=? VStr (secure_digest data)
       then freeze reference "host-stage" "host-store-error" false else mret tt);
  _ ← observe "CATACOMB_HOST_STAGED"
        [("secure_blob_sha256", VStr (secure_digest blob)); ("final_file_sha256", final_file_sha256)] "host-stage" false;
  mret (<[sp_name x := final_file_sha256]> staged).

(** The body of the component loop up to its [finally]. *)
Definition save_component (x : ComponentSpec) (names : gset string) (staged : gmap string value)
    : action (gmap string value) :=
  expected_blob_length ← prepare x;
  ref ← extended [];
  _ ← append "CATACOMB_COMPLETE_INTENT" ref;
  _ ← assign (λ w, w <| sv_secure_blob := NoBuffer |> <| sv_encoded := NoBuffer |>);
  finally
    ('(r, blob) ← complete x expected_blob_length;
     data ← encode x r;
     stage x names blob data staged)
    (λ w, w <| sv_heap := wipe (sv_secure_blob w) (wipe (sv_encoded w) (sv_heap w)) |>).

(** A confirmation: the early one of a component, or the last one of a batch. *)
Definition confirm (intent observed : string) (descriptor : bytes) (stage : string) (host_commit_possible : bool) : action unit :=
  ref ← (match reference with Some fields => mret (dict fields) | None => mret VNone end);
  _ ← append intent ref;
  status ← guarded (call (EvConfirm descriptor) (λ past, pt_confirm transport past descriptor))
             stage "transport-error" host_commit_possible;
  _ ← (if negb (accepted status) then freeze reference stage "transport-error" host_commit_possible else mret tt);
  observe observed [("status", status)] stage host_commit_possible.
End stages.

Section loops.
Context (history : EnrollmentHistory).

(** The component loop from index [c], with [final_reference]. *)
Fixpoint save_components (b c : nat) (names : gset string) (rest : list ComponentSpec) (staged : gmap string value)
    (final_reference : option reference_fields) : action (gmap string value * option reference_fields) :=
  match rest with
  | [] => mret (staged, final_reference)
  | x :: rest =>
      let ref := Some (reference history b c x) in
      staged ← save_component ref x names staged;
      _ ← (match rest with
           | [] => mret tt
           | _ => confirm ref "CATACOMB_CONFIRM_INTENT" "CATACOMB_CONFIRMED" (sp_descriptor x) "early-confirm" false
           end);
      save_components b (S c) names rest staged ref
  end.

(** The host commit and the last confirmation of a batch. *)
Definition commit_batch (b : nat) (batch : list ComponentSpec) (staged : gmap string value)
    (final_reference : option reference_fields) : action unit :=
  entries ← pure (staged_entries staged (map planned_pair batch));
  text ← pure (canonical (VList entries));
  let batch_evidence :=
    dict [("connection_generation", eh_persistence_connection_generation history); ("batch_index", VInt (Z.of_nat b));
          ("staged_snapshot_sha256", VStr (sha256_hex text))] in
  _ ← append "CATACOMB_HOST_BATCH_COMMIT_INTENT" batch_evidence;
  _ ← guarded final_reference (store_call (EvCommit staged) (hs_cross_commit_boundary staged))
        "host-commit" "host-store-error" true;
  _ ← guarded final_reference (_ ← append "CATACOMB_HOST_BATCH_COMMITTED" batch_evidence; mret tt)
        "host-commit" "journal-error" true;
  confirm final_reference "CATACOMB_FINAL_CONFIRM_INTENT" "CATACOMB_FINAL_CONFIRMED"
    (default [] (sp_descriptor <$> last batch)) "final-confirm" true.

(** One batch, of which the first [c] components are staged already. *)
Definition save_batch (b c : nat) (batch : list ComponentSpec) (initial_staged : gmap string value)
    (final_reference : option reference_fields) : action (option reference_fields) :=
  let names : gset string := list_to_set (map sp_name batch) in
  staged ← (if (0 <? c)%nat then mret initial_staged
            else _ ← store_call (EvBegin names) (hs_begin_stage names); mret ∅);
  '(staged, final_reference) ← save_components b c names (drop c batch) staged final_reference;
  _ ← commit_batch b batch staged final_reference;
  mret final_reference.

Fixpoint save_batches (b c : nat) (batches : list (list ComponentSpec)) (initial_staged : gmap string value)
    (final_reference : option reference_fields) : action (option reference_fields) :=
  match batches with
  | [] => mret final_reference
  | batch :: batches =>
      final_reference ← save_batch b c batch initial_staged final_reference;
      save_batches (S b) 0 batches ∅ final_reference
  end.

(** The plan record, or where a run resumes. *)
Definition plan_evidence (batches : list (list ComponentSpec)) : value :=
  dict [("connection_generation", eh_persistence_connection_generation history);
        ("batches", VList (map (λ batch, VList (map (λ x, dict [("name", VStr (sp_name x));
           ("descriptor_sha256", VStr (descriptor_sha256 x))]) batch)) batches))].

Definition start (batches : list (list ComponentSpec)) : action (nat * nat * gmap string value) :=
  let p := eh_persistence history in
  if bool_decide (ph_phase p = NOT_STARTED) then
    _ ← append "CATACOMB_PERSISTENCE_PLAN" (plan_evidence batches);
    mret (O, O, ∅)
  else
    match ph_phase p, ph_batch_index p, ph_component_index p with
    | COMPONENT_READY, Some b, Some c =>
        if bool_decide (ph_batches p = map (map planned_pair) batches) then
          _ ← throw_if ((c =? 0)%nat || bool_decide (ph_staged_files p = ∅)) PersistenceOperationError
                "persistence resume has no confirmed staged component";
          mret (b, c, ph_staged_files p)
        else perr "persistence journal is not startable"
    | _, _, _ => perr "persistence journal is not startable"
    end.

Definition attest (batches : list (list ComponentSpec)) (final_reference : option reference_fields)
    : action EnrollmentHistory :=
  attestation ← guarded final_reference (call EvReadback readback) "readback" "readback-error" true;
  match attestation with
  | Some a =>
      if is_true (ra_sep_host_generation_equal a) && is_true (ra_independent_archive_readback a) then
        append "CATACOMB_PERSISTENCE_ATTESTED"
          (dict [("connection_generation", eh_persistence_connection_generation history);
                 ("batch_count", VInt (Z.of_nat (length batches)));
                 ("reconciliation_snapshot_sha256", ra_reconciliation_snapshot_sha256 a);
                 ("sep_host_generation_equal", VBool true); ("independent_archive_readback", VBool true)])
      else freeze final_reference "readback" "readback-error" true
  | None => freeze final_reference "readback" "readback-error" true
  end.
End loops.

Definition run (batches : list (list ComponentSpec)) : action EnrollmentHistory :=
  history ← read_call env;
  _ ← throw_if (eh_operation_id history !=? VStr operation_id) PersistenceOperationError
        "operation ID differs from journal";
  _ ← pure (validate_components history batches);
  '(b, c, staged) ← start history batches;
  final_reference ← save_batches history b c (drop b batches) staged None;
  attest history batches final_reference.
End operation.
