(* ===== verification/PersistenceRuns.v ===== *)
(** * Theorems on the Catacomb persistence operation

    Invariants of a run of [PersistenceOperation.run], whatever the device,
    the encoder, the store, the other processes and the system calls do: what
    the journal on disk said when a call was made, in which order the calls
    come, and what is left of the secret buffers. *)
From S2P Require Import Prelude PyValue Sha256 Json MutationJournal Evidence TypedJournal PersistenceJournal.
From S2P Require Import EnrollmentJournal Effect OperationWorld Bytes CatacombOracle CatacombProtocol SaveWorld SaveFacts.
From S2P Require Import PersistenceOperation.

#[local] Open Scope Z_scope.

(** ** The save of an enrolment journal *)

Lemma on_catacomb_save s v m s' : on_catacomb s v (VStr m) = Ok s' →
  ∃ allow b, consume (e_persistence s) (VStr m) v allow = Ok (b, e_persistence s')
    ∧ (pt_phase (e_persistence s') = COMPLETE → e_phase s' = E_PERSISTENCE_READY).
Proof.
  unfold on_catacomb. cbv zeta. intros H. apply bind_Ok in H as (u & _ & H). apply bind_Ok in H as ([b t] & Ht & H).
  injection H as <-. apply except_Ok in Ht. eexists _, b. split; [exact Ht|]. cbn [e_persistence e_phase set_field].
  intros Hp. by rewrite bool_decide_eq_true_2.
Qed.

(** The handler behind the last record. *)
Lemma enroll_last_catacomb euid s h op m ev : ends_with euid s h op m ev → String.prefix "CATACOMB_" m = true →
  ∃ s0 s1, on_catacomb s0 ev (VStr m) = Ok s1 ∧ eh_persistence h = snapshot (e_persistence s1) ∧ eh_phase h = e_phase s1.
Proof.
  intros (record & l0 & l & n & d & Hs & -> & Hm & He)%ends_with_step Hp.
  cbn [tj_step enrollment_journal] in Hs. unfold enroll_step in Hs.
  apply bind_Ok in Hs as (u & _ & Hs). apply bind_Ok in Hs as (s1 & Hd & Hs). apply Ok_inj in Hs as <-.
  rewrite Hm, He in Hd. exists (el_state l0), s1. split; [|done].
  apply enroll_dispatch_handled in Hd. remember (VStr m) as k eqn:Hk.
  destruct Hd as [m' hd Hin _|m' _ Hc]; [|by subst]. injection Hk as ->. exfalso.
  unfold enroll_handlers in Hin. list_cases Hin; injection Hin as -> _; discriminate Hp.
Qed.

#[export] Instance enroll_save_journal : SaveJournal enroll_loop EnrollmentHistory := { save_history := eh_persistence }.
#[export] Instance enroll_save_laws : SaveJournalLaws enroll_loop EnrollmentHistory.
Proof.
  split; [exact _|]. intros euid s h op m ev He Hp.
  destruct (enroll_last_catacomb _ _ _ _ _ _ He Hp) as (s0 & s1 & (allow & b & Hc & _)%on_catacomb_save & Hh & _).
  pose proof (consume_consumes _ _ _ _ _ _ Hp Hc) as ->. by exists (e_persistence s0), (e_persistence s1), allow.
Qed.

Lemma enroll_attested euid s h op ev : ends_with euid s h op "CATACOMB_PERSISTENCE_ATTESTED" ev →
  ph_phase (eh_persistence h) = COMPLETE ∧ eh_phase h = E_PERSISTENCE_READY.
Proof.
  intros He. assert (ph_phase (eh_persistence h) = COMPLETE) as Hc.
  { apply attested_complete with ev. exact (save_last (S := enroll_loop) _ _ _ _ _ _ He eq_refl). }
  split; [done|]. destruct (enroll_last_catacomb _ _ _ _ _ _ He eq_refl) as (s0 & s1 & (allow & b & _ & Hp)%on_catacomb_save & Hh & ->).
  apply Hp. by rewrite Hh in Hc.
Qed.

(** ** The tracker of an accepted history is well formed *)

Definition ph_position (p : PersistenceHistory) : position :=
  Pos (ph_phase p) (ph_batches p) (ph_batch_index p) (ph_component_index p).

Lemma enroll_step_wf l r l' : position_wf (position_of (e_persistence (el_state l))) → enroll_step l r = Ok l' →
  position_wf (position_of (e_persistence (el_state l'))).
Proof.
  intros Hwf H. unfold enroll_step in H. apply bind_Ok in H as (u & _ & H). apply bind_Ok in H as (s' & H & Hl).
  apply Ok_inj in Hl as <-. cbn [el_state].
  apply enroll_dispatch_handled in H as [m hd Hin H|m _ H].
  - unfold enroll_handlers in Hin.
    list_cases Hin; injection Hin as -> ->;
      match type of H with ?f _ _ _ _ = _ => unfold f in H | ?f _ _ _ = _ => unfold f in H end;
      enroll_inv; try exact Hwf;
      try match goal with H : except _ _ _ = Ok _ |- _ => apply except_Ok in H end;
      match goal with H : use_recovery_generation _ _ = Ok _ |- _ => exact (use_recovery_generation_wf _ _ _ Hwf H) end.
  - apply on_catacomb_save in H as (allow & b & H & _). by eapply consume_wf.
Qed.

Lemma enroll_tracker_wf rs h : validate_history rs = Ok h → position_wf (ph_position (eh_persistence h)).
Proof.
  intros Hv. destruct rs as [|first rest]; [by apply validate_history_Ok in Hv as (? & ? & ? & ? & [=] & _)|].
  apply enroll_history_fold in Hv as (b & l & Hl & ->). change (position_wf (position_of (e_persistence (el_state l)))).
  apply (fold_result_inv enroll_step (λ l, position_wf (position_of (e_persistence (el_state l)))) _ _ _) in Hl; [done| |].
  - intros l0 r l1 Hwf Hs. by eapply enroll_step_wf.
  - apply new_tracker_wf.
Qed.

(** ** The order of the calls *)

Definition component_calls (x : ComponentSpec) : list save_call :=
  [CallPrepare (sp_descriptor x); CallComplete (sp_descriptor x); CallEncode (sp_name x); CallStage (sp_name x)].
Fixpoint components_calls (rest : list ComponentSpec) : list save_call :=
  match rest with
  | [] => []
  | x :: rest =>
      component_calls x ++ (match rest with [] => [] | _ => [CallConfirm (sp_descriptor x)] end) ++ components_calls rest
  end.
Definition names_set (batch : list ComponentSpec) : gset string := list_to_set (map sp_name batch).
Definition commit_calls (batch : list ComponentSpec) : list save_call :=
  [CallCommit; CallConfirm (default [] (sp_descriptor <$> last batch))].
Definition batch_calls (c : nat) (batch : list ComponentSpec) : list save_call :=
  (if (0 <? c)%nat then [] else [CallBegin (names_set batch)]) ++ components_calls (drop c batch) ++ commit_calls batch.
Fixpoint batches_calls (c : nat) (batches : list (list ComponentSpec)) : list save_call :=
  match batches with
  | [] => []
  | batch :: batches => batch_calls c batch ++ batches_calls 0 batches
  end.

(** The calls of a run that starts with component [c] of batch [b]. *)
Definition run_calls (b c : nat) (batches : list (list ComponentSpec)) : list save_call :=
  batches_calls c (drop b batches) ++ [CallReadback].

(** Where a run starts, if it does. *)
Definition start_position (h : EnrollmentHistory) (batches : list (list ComponentSpec)) : option (nat * nat) :=
  let p := eh_persistence h in
  match ph_phase p, ph_batch_index p, ph_component_index p with
  | NOT_STARTED, _, _ => Some (O, O)
  | COMPONENT_READY, Some b, Some (S c) =>
      if bool_decide (ph_batches p = map (map planned_pair) batches) && negb (bool_decide (ph_staged_files p = ∅))
      then Some (b, S c) else None
  | _, _, _ => None
  end.

(** ** Runs *)

Section runs.
Context {T : Type} `{HostStore T} (env : surroundings) (operation_id : string)
  (transport : PersistenceTransport) (encoder : Encoder) (readback : Readback).
#[local] Abbreviation world := (save_world T).

(** The transport and the encoder leave other buffers alone. *)
Definition tidy_calls : Prop :=
  (∀ past d, tidy snd (pt_complete transport past d)) ∧ (∀ past name r, tidy id (encoder past name r)).

Context (full : list save_call) (lines : orderly env).
#[local] Abbreviation at_save := (at_save (T := T) (Hi := EnrollmentHistory) env operation_id tidy_calls full).
#[local] Abbreviation failed := (failed (T := T) (Hi := EnrollmentHistory) env operation_id tidy_calls full).
#[local] Abbreviation posted := (posted (T := T) (Hi := EnrollmentHistory) env operation_id).
#[local] Hint Resolve at_failed : core.

(** *** Failures *)

Lemma freeze_wp {A} i reference stage reason host (Q : A → world → Prop) w : failed i w →
  wp (freeze env operation_id reference stage reason host) Q (λ _ w', failed i w') w.
Proof.
  intros Hf. unfold freeze. destruct reference as [fields|].
  - apply attempt_wp; [exact Hf|]. intros w' H'. by apply wp_throw.
  - apply wp_bind, wp_catch. cbn [any_class]. by apply wp_ret, wp_throw.
Qed.

Lemma guarded_wp {A} i reference (m : act world A) stage reason host (Q : A → world → Prop) w :
  wp m Q (λ _ w', failed i w') w →
  wp (guarded env operation_id reference m stage reason host) Q (λ _ w', failed i w') w.
Proof.
  intros Hm. unfold guarded. apply wp_catch. cbn [any_class]. eapply wp_weaken; [exact Hm|done|]. cbv beta.
  intros e w1 H1. by apply freeze_wp.
Qed.

(** A refused answer. *)
Lemma refusal_wp i (b : bool) reference stage reason host (Q : unit → world → Prop) w :
  failed i w → (b = false → Q tt w) →
  wp (if b then freeze env operation_id reference stage reason host else mret tt) Q (λ _ w', failed i w') w.
Proof. intros Hf HQ. apply wp_if; intros Hb; [by apply freeze_wp|by apply wp_ret, HQ]. Qed.

(** A record after an intent. *)
Lemma record_observed_wp i fields extra rest m stage host w : at_save i rest w → whole (sv_fs w) →
  String.prefix "CATACOMB_" m = true →
  wp (observe env operation_id (Some fields) m extra stage host)
    (λ _ w', at_save i rest w' ∧ (∃ h, posted w' h m (dict (fields ++ extra)))
      ∧ sv_heap w' = sv_heap w ∧ sv_secure_blob w' = sv_secure_blob w ∧ sv_encoded w' = sv_encoded w)
    (λ _ w', failed i w') w.
Proof.
  intros Hat Hw Hm. unfold observe. apply guarded_wp. apply wp_bind, wp_ret, wp_bind.
  eapply wp_weaken; [by eapply append_wp| |done]. cbv beta. intros h w1 (Hat1 & Hp & Hl). apply wp_ret. eauto.
Qed.

(** *** One component *)

Section component.
Context (history : EnrollmentHistory) (b c : nat) (x : ComponentSpec) (names : gset string).
#[local] Abbreviation fields := (reference history b c x).
#[local] Abbreviation about := (about_component (sp_name x) (sp_descriptor x)).

Lemma extended_wp extra (Q : value → world → Prop) E w :
  Q (dict (fields ++ extra)) w → wp (extended (Some fields) extra) Q E w.
Proof. intros HQ. by apply wp_ret. Qed.

Lemma prepare_wp rest w : at_save false (CallPrepare (sp_descriptor x) :: rest) w → whole (sv_fs w) →
  wp (prepare env operation_id transport (Some fields) x)
    (λ _ w', at_save false rest w' ∧ whole (sv_fs w')) (λ _ w', failed false w') w.
Proof.
  intros Hat Hw. unfold prepare. apply wp_bind, extended_wp, wp_bind.
  eapply wp_weaken; [by eapply append_wp| |done]. cbv beta. intros h w1 (H1 & Hp & _).
  apply wp_bind. apply guarded_wp. eapply wp_weaken;
    [eapply save_call_wp with (e := (EvPrepare (sp_descriptor x))); [exact H1|exact Hp|]| |done].
  { eapply prepare_announced; [apply about_reference|apply Hp]. }
  cbv beta. intros [st n] w2 [H2 Hw2]. apply wp_bind, refusal_wp; [eauto|]. intros _. apply wp_bind.
  eapply wp_weaken; [by eapply record_observed_wp| |done]. cbv beta. intros _ w3 (H3 & (h3 & Hp3) & _). apply wp_ret.
  split; [done|]. apply Hp3.
Qed.

(** What is known once the secure blob is captured in buffer [r]. *)
Record captured (w : world) (r : nat) (blob : bytes) : Prop := {
  ca_posted : ∃ h ev, posted w h "CATACOMB_SECURE_BLOB_CAPTURED" ev ∧ about ev
                ∧ ev@["secure_blob_sha256"] = VStr (secure_digest blob);
  ca_local : sv_secure_blob w = Buffer r;
  ca_content : sv_heap w !! r = Some blob;
  ca_encoded : sv_encoded w = NoBuffer;
  ca_nonempty : blob ≠ [];
}.

Lemma complete_wp n rest w h ev : at_save true (CallComplete (sp_descriptor x) :: rest) w →
  posted w h "CATACOMB_COMPLETE_INTENT" ev → about ev →
  sv_secure_blob w = NoBuffer → sv_encoded w = NoBuffer →
  wp (complete env operation_id transport (Some fields) x n)
    (λ '(r, blob) w', at_save true rest w' ∧ captured w' r blob) (λ _ w', failed true w') w.
Proof.
  intros Hat Hp Ha Hsec Henc. unfold complete. apply wp_bind. apply guarded_wp.
  eapply heap_call_wp with (pick := snd) (e := EvComplete (sp_descriptor x)) (store := λ o w, w <| sv_secure_blob := o |>);
    [exact Hat|exact Hp| | | |].
  - eapply complete_announced; [exact Ha|apply Hp].
  - intros [Ht _] past. apply Ht.
  - intros o. by left.
  - intros [st o] past hp H1. cbn [snd] in *. apply wp_bind, content_wp.
    + intros r d -> Hr Hne. cbn [sv_heap set_field] in Hr. apply wp_if; intros _; [apply freeze_wp; eauto|].
      apply wp_bind. eapply wp_weaken; [eapply record_observed_wp; [exact H1|apply Hp|done]| |done]. cbv beta.
      intros _ w2 (H2 & (h2 & Hp2) & Hh & Hs & He). apply wp_ret. split; [exact H2|]. split.
      * eexists h2, _. split; [exact Hp2|]. split; [apply about_reference|]. unfold reference; apply reference_field; [apply (bool_decide_unpack _); vm_compute; exact I|exact eq_refl].
      * rewrite Hs. reflexivity.
      * rewrite Hh. exact Hr.
      * rewrite He. exact Henc.
      * exact Hne.
    + apply freeze_wp. eauto.
Qed.

Lemma encode_wp rest r blob w : at_save true (CallEncode (sp_name x) :: rest) w → captured w r blob →
  wp (encode env operation_id encoder (Some fields) x r)
    (λ _ w', at_save true rest w' ∧ whole (sv_fs w')
       ∧ ∃ h ev, posted w' h "CATACOMB_SECURE_BLOB_CAPTURED" ev ∧ about ev)
    (λ _ w', failed true w') w.
Proof.
  intros Hat [(h & ev & Hp & Ha & Hev) Hl Hc He Hne]. unfold encode. apply wp_bind. apply guarded_wp.
  apply content_known with (r := r) (d := blob); [exact Hc|exact Hne|]. cbn [fmap option_fmap option_map snd default].
  eapply heap_call_wp with (pick := id) (e := EvEncode (sp_name x) blob) (store := λ o w, w <| sv_encoded := o |>);
    [exact Hat|exact Hp| | | |].
  - eapply encode_announced; [exact Ha|apply Hp|exact Hev].
  - intros [_ Ht] past. apply Ht.
  - intros o. by right.
  - intros o past hp H1. cbn [id] in *. apply wp_bind, content_wp.
    + intros r' d _ _ _. apply wp_ret. split; [exact H1|]. split; [apply Hp|]. exists h, ev. split; [|exact Ha].
      destruct Hp as [? ? ?]. by split.
    + apply freeze_wp. eauto.
Qed.

Lemma stage_wp rest w blob data staged : at_save true (CallStage (sp_name x) :: rest) w →
  (∃ h ev, posted w h "CATACOMB_SECURE_BLOB_CAPTURED" ev ∧ about ev) →
  wp (stage env operation_id (Some fields) x names blob data staged)
    (λ _ w', at_save true rest w' ∧ whole (sv_fs w')) (λ _ w', failed true w') w.
Proof.
  intros Hat (h & ev & Hp & Ha). unfold stage. apply wp_bind, guarded_wp.
  eapply wp_weaken; [eapply store_call_wp with (e := (EvStage (sp_name x) data names)); [exact Hat|exact Hp|]| |done].
  { eapply stage_announced; [exact Ha|apply Hp]. }
  cbv beta. intros v w1 [H1 Hw1]. apply wp_bind, refusal_wp; [eauto|]. intros _. apply wp_bind.
  eapply wp_weaken; [eapply record_observed_wp; [exact H1|exact Hw1|done]| |done]. cbv beta.
  intros _ w2 (H2 & (h2 & Hp2) & _). apply wp_ret. split; [done|apply Hp2].
Qed.

Lemma save_component_wp rest w staged : at_save false (component_calls x ++ rest) w → whole (sv_fs w) →
  wp (save_component env operation_id transport encoder (Some fields) x names staged)
    (λ _ w', at_save false rest w' ∧ whole (sv_fs w')) (λ _ w', failed false w') w.
Proof.
  intros Hat Hw. unfold save_component. apply wp_bind.
  eapply wp_weaken; [apply prepare_wp; [exact Hat|exact Hw]| |done]. cbv beta. intros n w1 [H1 Hw1].
  apply wp_bind, extended_wp, wp_bind. eapply wp_weaken; [by eapply append_wp| |done]. cbv beta.
  intros h w2 (H2 & Hp2 & _). apply wp_bind, wp_assign, wp_finally.
  set (w3 := w2 <| sv_secure_blob := NoBuffer |> <| sv_encoded := NoBuffer |>).
  assert (at_save true (CallComplete (sp_descriptor x) :: CallEncode (sp_name x) :: CallStage (sp_name x) :: rest) w3) as H3.
  { destruct H2 as [Hc Ha Hl]. split; [|exact Ha|exact Hl]. intros Ht. eapply secret_free_weaken; [|exact (Hc Ht)]. set_solver. }
  assert (posted w3 h "CATACOMB_COMPLETE_INTENT" (dict (fields ++ []))) as Hp3 by (by destruct Hp2; split).
  eapply (wp_weaken _ (λ _ w', at_save true rest w' ∧ whole (sv_fs w')) _ (λ _ w', failed true w')).
  - apply wp_bind. eapply wp_weaken; [eapply complete_wp; [exact H3|exact Hp3|apply about_reference|done|done]| |done].
    cbv beta. intros [r blob] w4 [H4 Hc4]. apply wp_bind.
    eapply wp_weaken; [eapply encode_wp; [exact H4|exact Hc4]| |done]. cbv beta. intros data w5 (H5 & _ & Hp5).
    by eapply stage_wp.
  - intros st w4 [H4 Hw4]. split; [by apply at_wiped|done].
  - intros _ w4 [rest' H4]. exists rest'. by apply at_wiped.
Qed.
End component.

(** *** The loops *)

Definition reference_value (reference : option reference_fields) : value :=
  match reference with Some fields => dict fields | None => VNone end.

Lemma confirm_wp reference intent observed d st host rest w :
  at_save false (CallConfirm d :: rest) w → whole (sv_fs w) →
  String.prefix "CATACOMB_" intent = true → String.prefix "CATACOMB_" observed = true →
  (∀ h, last_save (eh_persistence h) intent (reference_value reference) → announced (eh_persistence h) intent (reference_value reference) (EvConfirm d)) →
  wp (confirm env operation_id transport reference intent observed d st host)
    (λ _ w', at_save false rest w' ∧ ∃ h ev, posted w' h observed ev) (λ _ w', failed false w') w.
Proof.
  intros Hat Hw Hi Ho Ha. unfold confirm.
  assert (∀ (f : value → act world unit) Q E w, wp (f (reference_value reference)) Q E w →
    wp ((match reference with Some fields => mret (dict fields) | None => mret VNone end) ≫= f) Q E w) as Href
    by (intros f Q E w' Hf; apply wp_bind; destruct reference; exact Hf).
  apply Href, wp_bind. eapply wp_weaken; [by eapply append_wp| |done]. cbv beta. intros h w1 (H1 & Hp & _).
  apply wp_bind, guarded_wp. eapply wp_weaken; [eapply save_call_wp with (e := (EvConfirm d)); [exact H1|exact Hp|apply Ha, Hp]| |done].
  cbv beta. intros v w2 [H2 Hw2]. apply wp_bind, refusal_wp; [eauto|]. intros _.
  destruct reference as [fields|].
  - eapply wp_weaken; [eapply record_observed_wp; [exact H2|exact Hw2|exact Ho]| |done]. cbv beta.
    intros _ w3 (H3 & (h3 & Hp3) & _). eauto.
  - unfold observe. apply guarded_wp, wp_bind, wp_throw. eauto.
Qed.

Section loops.
Context (history : EnrollmentHistory).

Lemma save_components_cons b c names x rest staged fr :
  save_components env operation_id transport encoder history b c names (x :: rest) staged fr =
  (staged ← save_component env operation_id transport encoder (Some (reference history b c x)) x names staged;
   _ ← (match rest with
        | [] => mret tt
        | _ => confirm env operation_id transport (Some (reference history b c x)) "CATACOMB_CONFIRM_INTENT"
                 "CATACOMB_CONFIRMED" (sp_descriptor x) "early-confirm" false
        end);
   save_components env operation_id transport encoder history b (S c) names rest staged (Some (reference history b c x))).
Proof. done. Qed.

Lemma save_components_wp b names rest : rest ≠ [] → ∀ c after w staged fr,
  at_save false (components_calls rest ++ after) w → whole (sv_fs w) →
  wp (save_components env operation_id transport encoder history b c names rest staged fr)
    (λ '(_, fr') w', at_save false after w' ∧ whole (sv_fs w')
       ∧ ∃ c' x, last rest = Some x ∧ fr' = Some (reference history b c' x))
    (λ _ w', failed false w') w.
Proof.
  induction rest as [|x rest IH]; [done|]. intros _ c after w staged fr Hat Hw. rewrite save_components_cons.
  destruct rest as [|y rest].
  - cbn [components_calls] in Hat. rewrite !app_nil_r in Hat. apply wp_bind.
    eapply wp_weaken; [eapply save_component_wp; [exact Hat|exact Hw]| |done]. cbv beta. intros st w1 [H1 Hw1].
    apply wp_bind, wp_ret, wp_ret. split; [done|]. split; [done|]. by exists c, x.
  - change (components_calls (x :: y :: rest)) with
      (component_calls x ++ [CallConfirm (sp_descriptor x)] ++ components_calls (y :: rest)) in Hat.
    rewrite <-!app_assoc in Hat. apply wp_bind.
    eapply wp_weaken; [eapply save_component_wp; [exact Hat|exact Hw]| |done]. cbv beta. intros st w1 [H1 Hw1].
    apply wp_bind. eapply wp_weaken; [eapply confirm_wp; [exact H1|exact Hw1|done|done|]| |done].
    { intros h. eapply confirm_announced, about_reference_only. }
    cbv beta. intros _ w2 [H2 (h2 & ev2 & Hp2)].
    eapply wp_weaken; [eapply IH; [done|exact H2|apply Hp2]| |done]. cbv beta. intros [st' fr'] w3 H3. exact H3.
Qed.

Lemma commit_batch_wp b batch staged c' x after w : at_save false (commit_calls batch ++ after) w → whole (sv_fs w) →
  last batch = Some x →
  wp (commit_batch env operation_id transport history b batch staged (Some (reference history b c' x)))
    (λ _ w', at_save false after w' ∧ ∃ h ev, posted w' h "CATACOMB_FINAL_CONFIRMED" ev) (λ _ w', failed false w') w.
Proof.
  intros Hat Hw Hx. unfold commit_batch, commit_calls in *. rewrite Hx in *. cbn [fmap option_fmap option_map default from_option id app] in *.
  apply wp_bind, wp_pure; [|eauto]. intros entries Hent. apply wp_bind, wp_pure; [|eauto]. intros text Htext%canonical_Ok.
  cbv zeta. set (ev := dict _). apply wp_bind. eapply wp_weaken; [by eapply append_wp| |done]. cbv beta.
  intros h w1 (H1 & Hp & _). apply wp_bind, guarded_wp.
  eapply wp_weaken; [eapply store_call_wp with (e := (EvCommit staged)); [exact H1|exact Hp|]| |done].
  { eapply commit_announced; [apply Hp|exact Hent|exact Htext|exact eq_refl]. }
  cbv beta. intros _ w2 [H2 Hw2]. apply wp_bind, guarded_wp, wp_bind.
  eapply wp_weaken; [by eapply append_wp| |done]. cbv beta. intros h3 w3 (H3 & Hp3 & _). apply wp_ret.
  eapply confirm_wp; [exact H3|apply Hp3|done|done|]. intros h4. eapply final_confirm_announced, about_reference_only.
Qed.

(** A batch may begin after the plan and after the previous batch. *)
Definition may_begin (w : world) : Prop := ∃ h m ev, posted w h m ev
  ∧ (m = "CATACOMB_PERSISTENCE_PLAN" ∨ m = "CATACOMB_FINAL_CONFIRMED").

Lemma begin_call_announced h m ev w names : posted w h m ev →
  m = "CATACOMB_PERSISTENCE_PLAN" ∨ m = "CATACOMB_FINAL_CONFIRMED" → announced (eh_persistence h) m ev (EvBegin names).
Proof.
  intros [_ _ Hl] [->| ->]; [by apply begin_announced|]. apply confirmed_announced; [done|]. right. by exists names.
Qed.

Lemma save_batch_wp b c batch staged fr after w : at_save false (batch_calls c batch ++ after) w → whole (sv_fs w) →
  (c < length batch)%nat → (c = 0%nat → may_begin w) →
  wp (save_batch env operation_id transport encoder history b c batch staged fr)
    (λ fr' w', at_save false after w' ∧ (∃ h ev, posted w' h "CATACOMB_FINAL_CONFIRMED" ev) ∧ fr' ≠ None)
    (λ _ w', failed false w') w.
Proof.
  intros Hat Hw Hlen Hbegin. unfold save_batch, batch_calls in *. cbv zeta. rewrite <-!app_assoc in Hat.
  assert (drop c batch ≠ []) as Hne by (intros Hd%(f_equal length); rewrite length_drop in Hd; cbn in Hd; lia).
  apply wp_bind.
  apply (wp_weaken _ (λ _ w', at_save false (components_calls (drop c batch) ++ commit_calls batch ++ after) w' ∧ whole (sv_fs w'))
    _ (λ _ w', failed false w')); [| |done].
  { apply wp_if; intros Hc; rewrite Hc in Hat; [by apply wp_ret|]. apply Nat.ltb_ge in Hc.
    destruct Hbegin as (h & m & ev & Hp & Hm); [lia|]. apply wp_bind.
    eapply wp_weaken; [eapply store_call_wp with (e := (EvBegin (names_set batch)));
      [exact Hat|exact Hp|by eapply begin_call_announced]| |done].
    cbv beta. intros _ w1 H1. by apply wp_ret. }
  cbv beta. intros st w1 [H1 Hw1]. apply wp_bind.
  eapply wp_weaken; [eapply save_components_wp; [exact Hne|exact H1|exact Hw1]| |done]. cbv beta.
  intros [st' fr'] w2 (H2 & Hw2 & c' & x & Hx & ->). apply wp_bind.
  eapply wp_weaken; [eapply commit_batch_wp; [exact H2|exact Hw2|]| |done].
  { rewrite <-(take_drop c batch), last_app. by rewrite Hx. }
  cbv beta. intros _ w3 [H3 Hp3]. by apply wp_ret.
Qed.

Lemma save_batches_wp batches : ∀ b c staged fr after w,
  at_save false (batches_calls c batches ++ after) w → whole (sv_fs w) → Forall (λ batch, batch ≠ []) batches →
  (∀ batch, head batches = Some batch → c < length batch)%nat → batches ≠ [] → (c = 0%nat → may_begin w) →
  wp (save_batches env operation_id transport encoder history b c batches staged fr)
    (λ _ w', at_save false after w' ∧ (∃ h ev, posted w' h "CATACOMB_FINAL_CONFIRMED" ev))
    (λ _ w', failed false w') w.
Proof.
  induction batches as [|batch batches IH]; [done|]. intros b c staged fr after w Hat Hw Hne Hlen _ Hbegin.
  cbn [save_batches batches_calls] in *. rewrite <-app_assoc in Hat. apply Forall_cons in Hne as [_ Hne]. apply wp_bind.
  eapply wp_weaken; [eapply save_batch_wp; [exact Hat|exact Hw|by apply Hlen|exact Hbegin]| |done]. cbv beta.
  intros fr' w1 (H1 & (h & ev & Hp) & _). destruct batches as [|batch' batches]; [apply wp_ret; eauto|].
  apply IH; [exact H1|apply Hp|exact Hne| |done|].
  - intros ? [= <-]. apply Forall_cons in Hne as [Hne _]. destruct batch'; [done|]. cbn. lia.
  - intros _. exists h, "CATACOMB_FINAL_CONFIRMED", ev. split; [exact Hp|by right].
Qed.
End loops.

(** What a completed save proves. *)
Definition save_attested (w : world) (h : EnrollmentHistory) (batches : list (list ComponentSpec)) : Prop :=
  ph_phase (eh_persistence h) = COMPLETE ∧ eh_phase h = E_PERSISTENCE_READY
  ∧ ∃ ev, posted w h "CATACOMB_PERSISTENCE_ATTESTED" ev ∧ ev@["batch_count"] = VInt (Z.of_nat (length batches)).

Lemma attest_wp history batches fr w : at_save false [CallReadback] w →
  (∃ h ev, posted w h "CATACOMB_FINAL_CONFIRMED" ev) →
  wp (attest env operation_id readback history batches fr)
    (λ h w', at_save false [] w' ∧ save_attested w' h batches) (λ _ w', failed false w') w.
Proof.
  intros Hat (h & ev & Hp). unfold attest. apply wp_bind, guarded_wp.
  eapply wp_weaken; [eapply save_call_wp with (e := EvReadback); [exact Hat|exact Hp|]| |done].
  { apply confirmed_announced; [apply Hp|by left]. }
  cbv beta. intros [a|] w1 [H1 Hw1]; [|apply freeze_wp; eauto]. apply wp_if; intros _; [|apply freeze_wp; eauto].
  eapply wp_weaken; [by eapply append_wp| |done]. cbv beta. intros h2 w2 (H2 & Hp2 & _). split; [done|].
  destruct (enroll_attested _ _ _ _ _ (po_ends _ _ _ _ _ _ Hp2)) as [? ?]. split; [done|]. split; [done|].
  eexists. split; [exact Hp2|exact eq_refl].
Qed.
End runs.

Section run.
Context {T : Type} `{HostStore T} (env : surroundings) (lines : orderly env) (operation_id : string)
  (transport : PersistenceTransport) (encoder : Encoder) (readback : Readback)
  (batches : list (list ComponentSpec)).
#[local] Abbreviation world := (save_world T).
#[local] Abbreviation at_save full := (at_save (T := T) (Hi := EnrollmentHistory) env operation_id (tidy_calls transport encoder) full).
#[local] Abbreviation posted := (posted (T := T) (Hi := EnrollmentHistory) env operation_id).

Lemma validated_batches h : validate_components h batches = Ok tt → batches ≠ [] ∧ Forall (λ batch, batch ≠ []) batches.
Proof.
  unfold validate_components. cbv zeta. intros Hv. apply bind_Ok in Hv as (u & _ & Hv).
  apply bind_Ok in Hv as (u2 & Hne%fail_if_Ok & Hv). apply bool_decide_eq_false in Hne. split; [exact Hne|].
  rewrite for_each_Ok in Hv. eapply Forall_impl; [exact Hv|]. cbv beta. intros batch Hb.
  apply bind_Ok in Hb as (u3 & Hb%fail_if_Ok & _). by apply bool_decide_eq_false in Hb.
Qed.

Lemma resume_inside h b c : position_wf (ph_position (eh_persistence h)) → start_position h batches = Some (b, S c) →
  ∃ batch rest, drop b batches = batch :: rest ∧ (S c < length batch)%nat.
Proof.
  unfold start_position, position_wf. cbn [ph_position po_batch po_component po_phase po_batches].
  destruct (ph_phase _); try done. destruct (ph_batch_index _) as [b'|]; [|done].
  destruct (ph_component_index _) as [[|c']|]; try done. intros (_ & _ & pairs & Hb & Hc & _).
  destruct (bool_decide _ && _) eqn:Hd; [|done]. apply andb_true_iff in Hd as [Hd%bool_decide_eq_true _].
  intros [= -> ->]. rewrite Hd, list_lookup_fmap in Hb. destruct (batches !! b) as [batch|] eqn:Hbatch; [|done].
  injection Hb as <-. rewrite length_map in Hc. exists batch, (drop (S b) batches). split; [|done].
  by apply drop_S.
Qed.

Lemma start_wp h (w : world) : sv_trace w = [] → sv_heap w = ∅ → whole (sv_fs w) → position_wf (ph_position (eh_persistence h)) → batches ≠ [] →
  Forall (λ batch, batch ≠ []) batches →
  wp (start env operation_id h batches)
    (λ '(b, c, _) w', start_position h batches = Some (b, c)
       ∧ at_save (run_calls b c batches) false (run_calls b c batches) w' ∧ whole (sv_fs w')
       ∧ (∀ batch, head (drop b batches) = Some batch → c < length batch)%nat ∧ drop b batches ≠ []
       ∧ (c = 0%nat → may_begin env operation_id w'))
    (λ _ w', sv_trace w' = [] ∧ sv_heap w' = ∅) w.
Proof.
  intros Ht Hh Hw Hwf Hne Hall. unfold start. cbv zeta.
  assert (∀ full (w' : world), sv_trace w' = [] → sv_heap w' = ∅ → at_save full false full w') as Hat.
  { intros f w' Ht' Hh'. split.
    - intros _ r b. rewrite Hh', lookup_empty. discriminate.
    - rewrite Ht'. constructor.
    - unfold calls. by rewrite Ht'. }
  apply wp_if; intros Hs.
  - apply bool_decide_eq_true in Hs. apply wp_bind. eapply wp_weaken; [by apply append_call_wp| |]; cbv beta.
    + intros h' w' (s & n & -> & Hs' & He). apply wp_ret. split; [|split; [by apply Hat|]].
      { unfold start_position. by rewrite Hs. }
      split; [exact Hs'|]. split; [|split].
      * destruct batches as [|batch ?]; [done|]. intros ? [= <-]. apply Forall_cons in Hall as [? _].
        destruct batch; [done|]. cbn. lia.
      * by destruct batches.
      * intros _. exists h', "CATACOMB_PERSISTENCE_PLAN", (plan_evidence h batches). split; [|by left].
        split; [exact Hs'|exact He|]. exact (save_last (S := enroll_loop) _ _ _ _ _ _ He eq_refl).
    + intros _ w' (s & n & ->). done.
  - pose proof (resume_inside h) as Hin. unfold start_position in Hin |- *.
    destruct (ph_phase (eh_persistence h)); try (by apply wp_throw).
    destruct (ph_batch_index _) as [b|]; [|by apply wp_throw].
    destruct (ph_component_index _) as [c|]; [|by apply wp_throw].
    apply wp_if; intros Hb; [|by apply wp_throw].
    apply wp_bind, wp_throw_if; [done|]. intros [Hc Hst]%orb_false_iff. apply wp_ret.
    destruct c as [|c]; [done|]. rewrite Hb, Hst in Hin |- *. cbn [negb andb] in *.
    destruct (Hin b c Hwf eq_refl) as (batch & rest & Hdrop & Hlen).
    split; [done|]. split; [by apply Hat|]. split; [exact Hw|]. rewrite Hdrop. split; [|done].
    intros ? [= <-]. exact Hlen.
Qed.

(** Before a run nothing was called and no buffer exists. *)
Record fresh (w : world) : Prop := {
  fr_trace : sv_trace w = [];
  fr_heap : sv_heap w = ∅;
  fr_whole : whole (sv_fs w);
}.

(** The history that a run starts from, and where it starts. *)
Definition starts (w : world) (h : EnrollmentHistory) (b c : nat) : Prop :=
  enroll_read (su_euid env) (fs_entry (seen env w)) = Ok h ∧ eh_operation_id h = VStr operation_id
  ∧ validate_components h batches = Ok tt ∧ start_position h batches = Some (b, c).

#[local] Abbreviation failed full := (failed (T := T) (Hi := EnrollmentHistory) env operation_id (tidy_calls transport encoder) full).

Lemma save_run_wp w : fresh w →
  wp (run env operation_id transport encoder readback batches)
    (λ h' w', ∃ h b c, starts w h b c ∧ at_save (run_calls b c batches) false [] w' ∧ save_attested env operation_id w' h' batches)
    (λ _ w', sv_trace w' = [] ∧ sv_heap w' = ∅ ∨ ∃ h b c, starts w h b c ∧ failed (run_calls b c batches) false w') w.
Proof.
  intros [Ht Hh Hw]. unfold run. apply wp_bind. unfold wp at 1, read_call. cbv zeta.
  destruct (read_history _ _) as [h|e] eqn:Hread; [|by left].
  set (w1 := with_journal _ _ w). assert (whole (sv_fs w1)) as Hw1 by (by apply lines).
  assert (position_wf (ph_position (eh_persistence h))) as Hwf.
  { unfold read_history in Hread. apply bind_Ok in Hread as (rs & _ & Hv). by eapply enroll_tracker_wf. }
  apply wp_bind, wp_throw_if; [by left|]. intros Hop%negb_false_iff. rewrite py_eq_sym in Hop.
  assert (eh_operation_id h = VStr operation_id) as Hop' by (apply py_eq_str_l; by rewrite py_eq_sym).
  apply wp_bind, wp_pure; [|by left]. intros [] Hv. destruct (validated_batches h Hv) as [Hne Hall]. apply wp_bind.
  eapply wp_weaken; [eapply (start_wp h w1); done| |by left]. cbv beta. intros [[b c] staged] w2 (Hs & H2 & Hw2 & Hlen & Hd & Hbegin).
  assert (starts w h b c) as Hst by done.
  apply wp_bind. apply (wp_weaken _ (λ _ w', at_save (run_calls b c batches) false [CallReadback] w'
    ∧ ∃ h ev, posted w' h "CATACOMB_FINAL_CONFIRMED" ev) _ (λ _ w', failed (run_calls b c batches) false w')).
  - eapply wp_weaken; [eapply save_batches_wp; [exact lines|exact H2|exact Hw2| |exact Hlen|exact Hd|exact Hbegin]| |done].
    + by apply Forall_drop.
    + done.
  - cbv beta. intros fr w3 [H3 Hp3]. eapply wp_weaken; [by eapply attest_wp| |]; cbv beta.
    + intros h' w4 [H4 Hs4]. by exists h, b, c.
    + intros _ w4 H4. right. by exists h, b, c.
  - intros _ w3 H3. right. by exists h, b, c.
Qed.

(** C11: no call of a save without its record.  The device, the encoder, the store
    and the calls of the operating system may do anything; other processes may
    change the journal before and inside every access, as long as they start
    from and leave whole lines and do not come between an append and the reading
    back that follows it.  Then, when a run makes a call, the journal as the
    operation last read it back ends with the record this call follows: the
    intent of this very command, for the component whose descriptor is sent; the
    capture of a secure blob of this component, for its staging, and with the
    digest of the very bytes that are encoded, for its encoding; the intent to
    commit, under the digest of the map that is committed; the plan or the final
    confirmation of a batch for the beginning of a batch; and the final
    confirmation of a batch for the read-back. *)
Theorem save_calls_announced (w : world) r (w' : world) : fresh w →
  run env operation_id transport encoder readback batches w = (r, w') →
  Forall (event_announced (Hi := EnrollmentHistory) env operation_id) (sv_trace w').
Proof.
  intros Hf Hr. pose proof (save_run_wp w Hf) as H1. unfold wp in H1. rewrite Hr in H1. destruct r as [h'|e].
  - destruct H1 as (h & b & c & _ & [_ Ha _] & _). exact Ha.
  - destruct H1 as [[-> _]|(h & b & c & _ & rest & [_ Ha _])]; [constructor|exact Ha].
Qed.

(** C12: a run makes exactly the calls of its plan, in order: every component
    is prepared, completed, encoded and staged, confirmed early unless it is
    the last of its batch, each batch is committed before its last
    confirmation, and the read-back comes last.  A run that fails has made a
    prefix of them; a run that returns has made them all, and left the journal
    with the save attested.  It starts at the first component, or after the
    confirmed components of the same plan.  (Other processes are as orderly as
    for the announced calls.) *)
Theorem save_run_script (w : world) r (w' : world) : fresh w →
  run env operation_id transport encoder readback batches w = (r, w') →
  match r with
  | Ok h' => ∃ h b c, starts w h b c ∧ calls w' = run_calls b c batches ∧ save_attested env operation_id w' h' batches
  | Raise _ => calls w' = [] ∨ ∃ h b c, starts w h b c ∧ calls w' `prefix_of` run_calls b c batches
  end.
Proof.
  intros Hf Hr. pose proof (save_run_wp w Hf) as H1. unfold wp in H1. rewrite Hr in H1. destruct r as [h'|e].
  - destruct H1 as (h & b & c & Hs & [_ _ Hc] & Hsaved). rewrite app_nil_r in Hc. by exists h, b, c.
  - destruct H1 as [[Ht _]|(h & b & c & Hs & rest & [_ _ Hc])]; [left; unfold calls; by rewrite Ht|].
    right. exists h, b, c. split; [done|]. by exists rest.
Qed.

(** no secret survives a run, however it ends: every buffer that the
    transport or the encoder handed out is zero afterwards, provided that they
    do not write to buffers they handed out earlier. *)
Theorem save_wipes_buffers (w : world) r (w' : world) : fresh w → tidy_calls transport encoder →
  run env operation_id transport encoder readback batches w = (r, w') →
  ∀ k b, sv_heap w' !! k = Some b → b = zeros (length b).
Proof.
  intros Hf Hti Hr k b Hk. pose proof (save_run_wp w Hf) as H1. unfold wp in H1. rewrite Hr in H1.
  assert (secret_free (sv_heap w') [] ∨ sv_heap w' = ∅) as [Hs|He].
  { destruct r as [h'|e].
    - destruct H1 as (h & b' & c & _ & [Hc _ _] & _). left. exact (Hc Hti).
    - destruct H1 as [[_ He]|(h & b' & c & _ & rest & [Hc _ _])]; [by right|]. left. exact (Hc Hti). }
  - destruct (Hs k b Hk) as [Hin|Hw]; [by apply elem_of_nil in Hin|exact Hw].
  - by rewrite He, lookup_empty in Hk.
Qed.
End run.
