(* ===== verification/SingleSave.v ===== *)
(** * The save of one component
    ([src/src/t2_identity_rename_operation.py],
    [src/src/t2_identity_delete_persistence.py])

    The two operations that write a planned user archive repeat the same
    transaction over their own journals: plan, stage directory, prepare,
    complete, binding of the fresh secure data, staging, host commit and
    confirmation.  Here it is one definition, with what the two differ in as
    its parameters: the journal, how a failure is frozen, what a store that
    cannot begin leads to, and the binding. *)
From S2P Require Import Prelude PyValue Sha256 Json MutationJournal Evidence TypedJournal PersistenceJournal.
From S2P Require Import Effect OperationWorld Bytes CatacombOracle SaveWorld.

#[local] Open Scope Z_scope.

Section single.
Context {T St Hi : Type} `{Hstore : HostStore T} `{JT : TypedJournal St Hi} (env : surroundings) (operation_id : string)
  (transport : PersistenceTransport).
#[local] Abbreviation action := (act (save_world T)).

(** [_freeze(stage, reason, host_commit_possible)], and the handler of a
    failed [begin_stage]. *)
Context (freeze : ∀ A, string → string → bool → action A) (unstaged : ∀ A, action A).
Arguments freeze {A}.
Arguments unstaged {A}.
(** [bind_secure_blob(plan, ...)] and the exception its handler names. *)
Context (bind_secure_blob : bytes → result bytes) (bind_error : exn_class).
Context (generation : value) (user_name : string) (descriptor : bytes).

Definition append (milestone : string) (evidence : value) : action unit :=
  _ ← (append_call env operation_id milestone evidence : action Hi); mret tt.

(** [try: m / except BaseException as error: _freeze(...)] *)
Definition attempt {A} (m : action A) (stage reason : string) (host_commit_possible : bool) : action A :=
  catch any_class m (λ _, freeze stage reason host_commit_possible).

Definition single_reference : reference_fields :=
  component_reference generation 0 0 user_name (secure_digest descriptor).
Definition with_reference (fields : list (string * value)) : value := dict (single_reference ++ fields).
Definition single_name : gset string := {[user_name]}.

Definition begin : action unit :=
  _ ← append "CATACOMB_PERSISTENCE_PLAN"
        (dict [("connection_generation", generation);
               ("batches", VList [VList [dict [("name", VStr user_name);
                  ("descriptor_sha256", VStr (secure_digest descriptor))]]])]);
  catch any_class (store_call (EvBegin single_name) (hs_begin_stage single_name)) (λ _, unstaged).

Definition single_prepare : action Z :=
  _ ← append "CATACOMB_PREPARE_INTENT" (with_reference []);
  '(status, expected_length) ←
    attempt (call (EvPrepare descriptor) (λ past, pt_prepare transport past descriptor)) "prepare" "transport-error" false;
  _ ← (if negb (accepted status) || negb (blob_length_ok expected_length)
       then freeze "prepare" "transport-error" false else mret tt);
  _ ← append "CATACOMB_PREPARED" (with_reference [("status", VInt 0); ("expected_blob_length", expected_length)]);
  mret (int_value expected_length).

(** An empty buffer is not of the expected length, which is positive. *)
Definition single_complete (expected_length : Z) : action bytes :=
  '(status, secure_blob) ←
    attempt (answer ← heap_call (EvComplete descriptor) (λ past, pt_complete transport past descriptor);
             _ ← assign (λ w, w <| sv_secure_blob := snd answer |>);
             mret answer)
      "complete" "transport-error" false;
  blob ← content secure_blob;
  match blob with
  | Some (_, b) =>
      if negb (accepted status) || negb (Z.of_nat (length b) =? expected_length)
      then freeze "complete" "transport-error" false
      else
        _ ← append "CATACOMB_SECURE_BLOB_CAPTURED"
              (with_reference [("status", VInt 0); ("blob_length", VInt (Z.of_nat (length b)));
                               ("secure_blob_sha256", VStr (secure_digest b))]);
        mret b
  | None => freeze "complete" "transport-error" false
  end.

(** [encoded = bind_secure_blob(plan, secure_blob)]: a new [bytearray]. *)
Definition bind_encoded (blob : bytes) : action bytes :=
  data ← catch (λ c, bool_decide (c = bind_error)) (pure (bind_secure_blob blob))
           (λ _, freeze "encode" "codec-error" false);
  _ ← assign (λ w, let r := fresh (dom (sv_heap w)) in
              w <| sv_heap := <[r := data]> (sv_heap w) |> <| sv_encoded := Buffer r |>);
  mret data.

Definition single_stage (blob data : bytes) : action value :=
  file_hash ←
    attempt (store_call (EvStage user_name data single_name) (hs_stage_component user_name data single_name))
      "host-stage" "host-store-error" false;
  _ ← (if file_hash !=? VStr (secure_digest data) then freeze "host-stage" "host-store-error" false else mret tt);
  _ ← append "CATACOMB_HOST_STAGED"
        (with_reference [("secure_blob_sha256", VStr (secure_digest blob)); ("final_file_sha256", file_hash)]);
  mret file_hash.

Definition capture (expected_length : Z) : action value :=
  _ ← append "CATACOMB_COMPLETE_INTENT" (with_reference []);
  _ ← assign (λ w, w <| sv_secure_blob := NoBuffer |> <| sv_encoded := NoBuffer |>);
  finally
    (blob ← single_complete expected_length;
     data ← bind_encoded blob;
     single_stage blob data)
    (λ w, w <| sv_heap := wipe (sv_secure_blob w) (wipe (sv_encoded w) (sv_heap w)) |>).

Definition single_commit (file_hash : value) : action unit :=
  text ← pure (canonical (VList [dict [("name", VStr user_name); ("final_file_sha256", file_hash)]]));
  let batch := dict [("connection_generation", generation); ("batch_index", VInt 0);
                     ("staged_snapshot_sha256", VStr (sha256_hex text))] in
  let staged : gmap string value := {[user_name := file_hash]} in
  _ ← append "CATACOMB_HOST_BATCH_COMMIT_INTENT" batch;
  _ ← attempt (store_call (EvCommit staged) (hs_cross_commit_boundary staged)) "host-commit" "host-store-error" true;
  append "CATACOMB_HOST_BATCH_COMMITTED" batch.

Definition single_confirm : action unit :=
  _ ← append "CATACOMB_FINAL_CONFIRM_INTENT" (with_reference []);
  status ← attempt (call (EvConfirm descriptor) (λ past, pt_confirm transport past descriptor))
             "final-confirm" "transport-error" true;
  _ ← (if negb (accepted status) then freeze "final-confirm" "transport-error" true else mret tt);
  append "CATACOMB_FINAL_CONFIRMED" (with_reference [("status", VInt 0)]).

(** The transaction up to the confirmation. *)
Definition single_save : action unit :=
  _ ← begin;
  expected_length ← single_prepare;
  file_hash ← capture expected_length;
  _ ← single_commit file_hash;
  single_confirm.

(** The attestation of a save with one batch. *)
Definition attest_single (snapshot_sha256 : value) : action unit :=
  append "CATACOMB_PERSISTENCE_ATTESTED"
    (dict [("connection_generation", generation); ("batch_count", VInt 1);
           ("reconciliation_snapshot_sha256", snapshot_sha256);
           ("sep_host_generation_equal", VBool true); ("independent_archive_readback", VBool true)]).
End single.
