(* ===== verification/SingleSaveRuns.v ===== *)
(** * Theorems on the save of one component

    The invariants of [SaveFacts] hold throughout [SingleSave.single_save],
    over any journal of a save, whatever the device, the store and the other
    processes do. *)
From S2P Require Import Prelude PyValue Sha256 Json MutationJournal Evidence TypedJournal PersistenceJournal.
From S2P Require Import Effect OperationWorld Bytes CatacombOracle SaveWorld SaveFacts SingleSave.

#[local] Open Scope Z_scope.

(** The transport leaves the buffers of others alone. *)
Definition tidy_transport (transport : PersistenceTransport) : Prop :=
  ∀ past d, tidy snd (pt_complete transport past d).

(** The calls of the transaction, in their order. *)
Definition single_calls (user_name : string) (descriptor : bytes) : list save_call :=
  [CallBegin {[user_name]}; CallPrepare descriptor; CallComplete descriptor; CallStage user_name; CallCommit;
   CallConfirm descriptor].

Lemma single_begin_announced p m ev names : last_save p m ev →
  m = "CATACOMB_PERSISTENCE_PLAN" ∨ m = "CATACOMB_FINAL_CONFIRMED" → announced p m ev (EvBegin names).
Proof.
  intros Hl [->| ->]; [by apply begin_announced|]. apply confirmed_announced; [done|]. right. by exists names.
Qed.

(** A new buffer for the encoded archive. *)
Lemma secret_free_alloc h s data : secret_free h [s; NoBuffer] →
  secret_free (<[fresh (dom h) := data]> h) [s; Buffer (fresh (dom h))].
Proof.
  intros Hs r b. destruct (decide (r = fresh (dom h))) as [->|Hne]; [left; set_solver|].
  rewrite lookup_insert_ne by done. intros Hr. destruct (Hs r b Hr) as [Hin|]; [left|by right]. set_solver.
Qed.

Section single.
Context {T St Hi : Type} `{Hstore : HostStore T} `{JT : TypedJournal St Hi} `{JS : !SaveJournal St Hi} `{JL : !SaveJournalLaws St Hi}
  (env : surroundings) (operation_id : string) (transport : PersistenceTransport) (full : list save_call).
#[local] Abbreviation world := (save_world T).
#[local] Abbreviation action := (act (save_world T)).
#[local] Abbreviation at_save := (at_save (T := T) (Hi := Hi) env operation_id (tidy_transport transport) full).
#[local] Abbreviation failed := (failed (T := T) (Hi := Hi) env operation_id (tidy_transport transport) full).
#[local] Abbreviation posted := (posted (T := T) (Hi := Hi) env operation_id).
#[local] Hint Resolve at_failed : core.

Context (freeze : ∀ A, string → string → bool → action A) (unstaged : ∀ A, action A)
  (bind_secure_blob : bytes → result bytes) (bind_error : exn_class) (generation : value) (user_name : string) (descriptor : bytes).
Context (freeze_wp : ∀ A i stage reason host (Q : A → world → Prop) w, failed i w →
    wp (freeze A stage reason host) Q (λ _ w', failed i w') w)
  (unstaged_wp : ∀ A (Q : A → world → Prop) w, failed false w → wp (unstaged A) Q (λ _ w', failed false w') w).
Context (lines : orderly env).

#[local] Abbreviation about := (about_component user_name descriptor).
#[local] Abbreviation with_ref := (with_reference generation user_name descriptor).
#[local] Abbreviation append m ev := (append (Hi := Hi) env operation_id m ev : action unit).

Lemma about_with_reference extra : about (with_ref extra).
Proof. apply about_reference. Qed.

Lemma post_wp i rest m ev w : at_save i rest w → whole (sv_fs w) → String.prefix "CATACOMB_" m = true →
  wp (append m ev) (λ _ w', at_save i rest w' ∧ (∃ h, posted w' h m ev)
      ∧ sv_heap w' = sv_heap w ∧ sv_secure_blob w' = sv_secure_blob w ∧ sv_encoded w' = sv_encoded w)
    (λ _ w', failed i w') w.
Proof.
  intros Hat Hw Hm. unfold SingleSave.append. apply wp_bind. eapply wp_weaken; [by eapply append_wp| |done]. cbv beta.
  intros h w1 (H1 & Hp & Hl). apply wp_ret. eauto.
Qed.

Lemma attempt_save_wp {A} i (m : action A) stage reason host (Q : A → world → Prop) w :
  wp m Q (λ _ w', failed i w') w → wp (attempt freeze m stage reason host) Q (λ _ w', failed i w') w.
Proof.
  intros Hm. unfold attempt. apply wp_catch. cbn [any_class]. eapply wp_weaken; [exact Hm|done|]. cbv beta.
  intros e w1 H1. by apply freeze_wp.
Qed.

Lemma frozen_wp i (b : bool) stage reason host (Q : unit → world → Prop) w : failed i w → (b = false → Q tt w) →
  wp (if b then freeze unit stage reason host else mret tt) Q (λ _ w', failed i w') w.
Proof. intros Hf HQ. apply wp_if; intros Hb; [by apply freeze_wp|by apply wp_ret, HQ]. Qed.

Lemma begin_wp rest w : at_save false (CallBegin {[user_name]} :: rest) w → whole (sv_fs w) →
  wp (begin (Hi := Hi) env operation_id unstaged generation user_name descriptor)
    (λ _ w', at_save false rest w' ∧ whole (sv_fs w')) (λ _ w', failed false w') w.
Proof.
  intros Hat Hw. unfold begin. apply wp_bind. eapply wp_weaken; [by eapply post_wp| |done]. cbv beta.
  intros _ w1 (H1 & (h & Hp) & _). apply wp_catch. cbn [any_class].
  eapply wp_weaken; [eapply store_call_wp with (e := EvBegin (single_name user_name)); [exact H1|exact Hp|]| |].
  - eapply single_begin_announced; [apply Hp|by left].
  - cbv beta. intros _ w2 H2. exact H2.
  - cbv beta. intros _ w2 H2. by apply unstaged_wp.
Qed.

Lemma single_prepare_wp rest w : at_save false (CallPrepare descriptor :: rest) w → whole (sv_fs w) →
  wp (single_prepare (Hi := Hi) env operation_id transport freeze generation user_name descriptor)
    (λ _ w', at_save false rest w' ∧ whole (sv_fs w')) (λ _ w', failed false w') w.
Proof.
  intros Hat Hw. unfold single_prepare. apply wp_bind. eapply wp_weaken; [by eapply post_wp| |done]. cbv beta.
  intros _ w1 (H1 & (h & Hp) & _). apply wp_bind, attempt_save_wp.
  eapply wp_weaken; [eapply save_call_wp with (e := EvPrepare descriptor); [exact H1|exact Hp|]| |done].
  { eapply prepare_announced; [apply about_with_reference|apply Hp]. }
  cbv beta. intros [st n] w2 [H2 Hw2]. apply wp_bind, frozen_wp; [eauto|]. intros _. apply wp_bind.
  eapply wp_weaken; [by eapply post_wp| |done]. cbv beta. intros _ w3 (H3 & (h3 & Hp3) & _). apply wp_ret.
  split; [done|apply Hp3].
Qed.

Lemma single_complete_wp n rest w h : at_save true (CallComplete descriptor :: rest) w →
  posted w h "CATACOMB_COMPLETE_INTENT" (with_ref []) → sv_secure_blob w = NoBuffer → sv_encoded w = NoBuffer →
  wp (single_complete (Hi := Hi) env operation_id transport freeze generation user_name descriptor n)
    (λ _ w', at_save true rest w' ∧ sv_encoded w' = NoBuffer
       ∧ ∃ h ev, posted w' h "CATACOMB_SECURE_BLOB_CAPTURED" ev ∧ about ev) (λ _ w', failed true w') w.
Proof.
  intros Hat Hp Hsec Henc. unfold single_complete. apply wp_bind, attempt_save_wp.
  eapply heap_call_wp with (pick := snd) (e := EvComplete descriptor) (store := λ o w, w <| sv_secure_blob := o |>);
    [exact Hat|exact Hp| | | |].
  - eapply complete_announced; [apply about_with_reference|apply Hp].
  - intros Ht past. apply Ht.
  - intros o. by left.
  - intros [st o] past hp H1. cbn [snd] in *. apply wp_bind, content_wp; [|by apply freeze_wp; eauto].
    intros r d -> Hr Hne. apply wp_if; intros _; [apply freeze_wp; eauto|].
    apply wp_bind. eapply wp_weaken; [eapply post_wp; [exact H1|apply Hp|done]| |done]. cbv beta.
    intros _ w2 (H2 & (h2 & Hp2) & _ & _ & He). apply wp_ret. split; [exact H2|]. split; [by rewrite He|].
    eexists h2, _. split; [exact Hp2|apply about_with_reference].
Qed.

Lemma bind_encoded_wp blob rest w h ev : at_save true rest w → sv_encoded w = NoBuffer →
  posted w h "CATACOMB_SECURE_BLOB_CAPTURED" ev →
  wp (bind_encoded freeze bind_secure_blob bind_error blob)
    (λ _ w', at_save true rest w' ∧ posted w' h "CATACOMB_SECURE_BLOB_CAPTURED" ev) (λ _ w', failed true w') w.
Proof.
  intros Hat He Hp. unfold bind_encoded. apply wp_bind, wp_catch, wp_pure.
  - intros data _. apply wp_bind, wp_assign, wp_ret. split; [|by destruct Hp; split].
    destruct Hat as [Hc Ha Hl]. split; [|exact Ha|exact Hl]. intros Ht. specialize (Hc Ht). cbn [kept] in Hc.
    rewrite He in Hc. by apply secret_free_alloc.
  - intros e _. destruct (bool_decide _); [apply freeze_wp; eauto|eauto].
Qed.

Lemma single_stage_wp blob data rest w h ev : at_save true (CallStage user_name :: rest) w →
  posted w h "CATACOMB_SECURE_BLOB_CAPTURED" ev → about ev →
  wp (single_stage (Hi := Hi) env operation_id freeze generation user_name descriptor blob data)
    (λ _ w', at_save true rest w' ∧ whole (sv_fs w')) (λ _ w', failed true w') w.
Proof.
  intros Hat Hp Ha. unfold single_stage. apply wp_bind, attempt_save_wp.
  eapply wp_weaken; [eapply store_call_wp with (e := EvStage user_name data (single_name user_name)); [exact Hat|exact Hp|]| |done].
  { eapply stage_announced; [exact Ha|apply Hp]. }
  cbv beta. intros v w1 [H1 Hw1]. apply wp_bind, frozen_wp; [eauto|]. intros _. apply wp_bind.
  eapply wp_weaken; [by eapply post_wp| |done]. cbv beta. intros _ w2 (H2 & (h2 & Hp2) & _). apply wp_ret.
  split; [done|apply Hp2].
Qed.

Lemma capture_wp n rest w : at_save false (CallComplete descriptor :: CallStage user_name :: rest) w → whole (sv_fs w) →
  wp (capture (Hi := Hi) env operation_id transport freeze bind_secure_blob bind_error generation user_name descriptor n)
    (λ _ w', at_save false rest w' ∧ whole (sv_fs w')) (λ _ w', failed false w') w.
Proof.
  intros Hat Hw. unfold capture. apply wp_bind. eapply wp_weaken; [by eapply post_wp| |done]. cbv beta.
  intros _ w1 (H1 & (h & Hp) & _). apply wp_bind, wp_assign, wp_finally.
  set (w2 := w1 <| sv_secure_blob := NoBuffer |> <| sv_encoded := NoBuffer |>).
  assert (at_save true (CallComplete descriptor :: CallStage user_name :: rest) w2) as H2.
  { destruct H1 as [Hc Ha Hl]. split; [|exact Ha|exact Hl]. intros Ht. eapply secret_free_weaken; [|exact (Hc Ht)]. set_solver. }
  assert (posted w2 h "CATACOMB_COMPLETE_INTENT" (with_ref [])) as Hp2 by (by destruct Hp; split).
  eapply (wp_weaken _ (λ _ w', at_save true rest w' ∧ whole (sv_fs w')) _ (λ _ w', failed true w')).
  - apply wp_bind. eapply wp_weaken; [by eapply single_complete_wp| |done]. cbv beta.
    intros blob w3 (H3 & He3 & h3 & ev3 & Hp3 & Ha3). apply wp_bind.
    eapply wp_weaken; [by eapply bind_encoded_wp| |done]. cbv beta. intros data w4 [H4 Hp4]. by eapply single_stage_wp.
  - intros st w4 [H4 Hw4]. split; [by apply at_wiped|done].
  - intros _ w4 [rest' H4]. exists rest'. by apply at_wiped.
Qed.

Lemma single_commit_wp hash rest w : at_save false (CallCommit :: rest) w → whole (sv_fs w) →
  wp (single_commit (Hi := Hi) env operation_id freeze generation user_name hash)
    (λ _ w', at_save false rest w' ∧ whole (sv_fs w')) (λ _ w', failed false w') w.
Proof.
  intros Hat Hw. unfold single_commit. apply wp_bind, wp_pure; [|eauto]. intros text Htext%canonical_Ok. cbv zeta.
  apply wp_bind. eapply wp_weaken; [by eapply post_wp| |done]. cbv beta. intros _ w1 (H1 & (h & Hp) & _).
  apply wp_bind, attempt_save_wp.
  eapply wp_weaken; [eapply store_call_wp with (e := EvCommit {[user_name := hash]}); [exact H1|exact Hp|]| |done].
  { eapply commit_announced with (batch := [(user_name, secure_digest descriptor)]);
      [apply Hp| |exact Htext|exact eq_refl]. cbn [staged_entries]. by rewrite lookup_singleton_eq. }
  cbv beta. intros _ w2 [H2 Hw2]. eapply wp_weaken; [by eapply post_wp| |done]. cbv beta.
  intros _ w3 (H3 & (h3 & Hp3) & _). split; [done|apply Hp3].
Qed.

Lemma single_confirm_wp rest w : at_save false (CallConfirm descriptor :: rest) w → whole (sv_fs w) →
  wp (single_confirm (Hi := Hi) env operation_id transport freeze generation user_name descriptor)
    (λ _ w', at_save false rest w' ∧ ∃ h ev, posted w' h "CATACOMB_FINAL_CONFIRMED" ev) (λ _ w', failed false w') w.
Proof.
  intros Hat Hw. unfold single_confirm. apply wp_bind. eapply wp_weaken; [by eapply post_wp| |done]. cbv beta.
  intros _ w1 (H1 & (h & Hp) & _). apply wp_bind, attempt_save_wp.
  eapply wp_weaken; [eapply save_call_wp with (e := EvConfirm descriptor); [exact H1|exact Hp|]| |done].
  { eapply final_confirm_announced; [apply about_with_reference|apply Hp]. }
  cbv beta. intros st w2 [H2 Hw2]. apply wp_bind, frozen_wp; [eauto|]. intros _.
  eapply wp_weaken; [by eapply post_wp| |done]. cbv beta. intros _ w3 (H3 & (h3 & Hp3) & _). eauto.
Qed.

Lemma single_save_wp rest w : at_save false (single_calls user_name descriptor ++ rest) w → whole (sv_fs w) →
  wp (single_save (Hi := Hi) env operation_id transport freeze unstaged bind_secure_blob bind_error generation user_name descriptor)
    (λ _ w', at_save false rest w' ∧ ∃ h ev, posted w' h "CATACOMB_FINAL_CONFIRMED" ev) (λ _ w', failed false w') w.
Proof.
  intros Hat Hw. unfold single_save, single_calls in *. cbn [app] in Hat.
  apply wp_bind. eapply wp_weaken; [by eapply begin_wp| |done]. cbv beta. intros _ w1 [H1 Hw1].
  apply wp_bind. eapply wp_weaken; [by eapply single_prepare_wp| |done]. cbv beta. intros n w2 [H2 Hw2].
  apply wp_bind. eapply wp_weaken; [by eapply capture_wp| |done]. cbv beta. intros hash w3 [H3 Hw3].
  apply wp_bind. eapply wp_weaken; [by eapply single_commit_wp| |done]. cbv beta. intros _ w4 [H4 Hw4].
  by eapply single_confirm_wp.
Qed.
End single.
