(* ===== verification/BridgeLease.v ===== *)
(** * Leases of the Bridge connection, and the delete adapter
    ([src/src/t2_identity_delete_bridge.py])

    What the adapters between the operations and the connection to the
    coprocessor share, and the simplest of them.  Each is pinned to one
    connection generation, sends its commands over a lease of the connection
    and is poisoned by anything it cannot trust.  The lease is an interface
    ([Lease]) over a state of its own: every reading and every command may
    raise and may change it, the generation included. *)
From Stdlib Require Import QArith_base.
From S2P Require Import Prelude PyValue Effect OperationWorld Bytes BridgeWire SaveWorld.

#[local] Open Scope Z_scope.

(** ** Leases *)

(** The arguments of [biometric_command], and what it returns: a tuple or
    another object. *)
Record biometric_call := Biometric {
  bc_command : Z;
  bc_version : Z;
  bc_value : Z;
  bc_data : bytes;
  bc_output_capacity : Z;
}.
Inductive command_result := Tuple (items : list value) | Object (v : value).

Class Lease (L : Type) := {
  connection_generation : act L value;
  biometric_command : biometric_call → act L command_result;
  wait_service_event : Q → act L value;
  invalidate : act L unit;
}.

(** An adapter with its lease, the commands it sent, and the heap of its
    buffers. *)
Record adapter (S L : Type) := Adapter {
  ad_self : S;
  ad_lease : L;
  ad_sent : list biometric_call;
  ad_heap : heap;
}.
Arguments Adapter {S L} _ _ _ _.
Arguments ad_self {S L} _.
Arguments ad_lease {S L} _.
Arguments ad_sent {S L} _.
Arguments ad_heap {S L} _.
#[export] Instance adapter_settable S L : Settable (adapter S L) := λ w,
  Adapter (ad_self w) (ad_lease w) (ad_sent w) (ad_heap w).

(** The arguments of the constructors: [uuid.UUID] raises [AttributeError],
    [TypeError] or [ValueError] on anything but the text of a UUID. *)
Definition canonical_generation (c : exn_class) (invalid changed : string) (generation : value) : result string :=
  match generation with
  | VStr s =>
      match uuid_UUID s with
      | Some parsed => _ ← fail_if (negb (String.eqb (uuid_str parsed) s)) c changed; Ok s
      | None => raise c invalid
      end
  | _ => raise c invalid
  end.
Definition leased {L} `{Lease L} (c : exn_class) (changed : string) (generation : string) : act L unit :=
  current ← connection_generation;
  throw_if (current !=? VStr generation) c changed.

(** [value[:] = b"\x00" * len(value)] and [bytearray(b)]. *)
Definition wipe_buffer {S L} (r : nat) : act (adapter S L) unit := assign (λ w, w <| ad_heap := wipe (Buffer r) (ad_heap w) |>).
Definition bytearray {S L} (b : bytes) : act (adapter S L) nat := λ w,
  let r := fresh (dom (ad_heap w)) in (Ok r, w <| ad_heap := <[r := b]> (ad_heap w) |>).

Definition reraise {S A} (e : exn) : act S A := λ s, (Raise e, s).

Section adapter.
Context {S L : Type} `{Lease L}.
#[local] Abbreviation action := (act (adapter S L)).

Definition on_lease {A} (m : act L A) : action A := λ w,
  let '(r, l) := m (ad_lease w) in (r, w <| ad_lease := l |>).
Definition send (q : biometric_call) : action command_result :=
  _ ← assign (λ w, w <| ad_sent := ad_sent w ++ [q] |>);
  on_lease (biometric_command q).

(** The handler that ends an adapter's exchange: an error of its own goes on
    as it is, any other becomes one. *)
Definition poisoning {A} (own : exn_class) (poison : action unit) (message : string) (m : action A) : action A :=
  catch any_class m (λ e,
    _ ← poison;
    if bool_decide (exn_cls e = own) then reraise e else throw own message).
End adapter.

Definition empty_list (v : value) : bool := match v with VList [] => true | _ => false end.
Definition status_range (z : Z) : bool := (- 2 ^ 31 <=? z) && (z <? 2 ^ 32).
Definition nil_output (v : value) : value := if is_biometric_nil_output v then VBytes "" else v.

(** [a, b = result] *)
Definition unpack_pair (r : command_result) : result (value * value) :=
  match r with
  | Tuple [a; b] | Object (VList [a; b]) => Ok (a, b)
  | Tuple _ | Object (VList _) => raise ValueError "wrong number of values to unpack"
  | Object _ => raise TypeError "cannot unpack"
  end.

(** ** Deleting an identity *)
Module DeleteBridge.
Inductive DeleteBridgeState := READY | DISPATCHED | POISONED.
#[export] Instance DeleteBridgeState_eq_dec : EqDecision DeleteBridgeState.
Proof. solve_decision. Defined.

Record IdentityDeleteCommandResult := CommandResult { cr_status : Z; cr_output_length : Z; cr_service_event_count : Z }.
Record IdentityDeleteBridge := Bridge { db_connection_generation : string; db_state : DeleteBridgeState }.

Section bridge.
Context {L : Type} `{Lease L}.
#[local] Abbreviation action := (act (adapter IdentityDeleteBridge L)).

(** [__init__] *)
Definition new_delete_bridge (generation : value) : act L IdentityDeleteBridge :=
  g ← pure (canonical_generation IdentityDeleteBridgeError "connection generation is invalid"
              "delete Bridge generation changed" generation);
  _ ← leased IdentityDeleteBridgeError "delete Bridge generation changed" g;
  mret (Bridge g READY).

Definition set_state (s : DeleteBridgeState) : action unit :=
  assign (λ w, w <| ad_self := Bridge (db_connection_generation (ad_self w)) s |>).
Definition poison : action unit :=
  _ ← set_state POISONED;
  catch any_class (on_lease invalidate) (λ _, mret tt).

(** The reply is a list of a status and an output. *)
Definition reply_status (reply : value) : option Z :=
  match reply with
  | VList [VInt status; _] => if status_range status then Some status else None
  | _ => None
  end.

Definition delete (request : bytes) : action IdentityDeleteCommandResult :=
  w ← self;
  let bridge := ad_self w in
  _ ← throw_if (negb (bool_decide (db_state bridge = READY))) IdentityDeleteBridgeError
        "identity delete Bridge is not reusable";
  _ ← throw_if (negb (length request =? 20)%nat) IdentityDeleteBridgeError "identity delete request must be 20 bytes";
  poisoning IdentityDeleteBridgeError poison "identity delete transport is ambiguous"
    (answer ← send (Biometric 0x0D 0 0 request 0);
     '(reply, events) ← pure (unpack_pair answer);
     _ ← set_state DISPATCHED;
     current ← on_lease connection_generation;
     match reply_status reply with
     | Some status =>
         _ ← throw_if ((current !=? VStr (db_connection_generation bridge)) || negb (empty_list events))
               IdentityDeleteBridgeError "identity delete reply is malformed";
         _ ← throw_if (negb (bool_decide (nil_output (nth 1 (list_value reply) VNone) = VBytes "")))
               IdentityDeleteBridgeError "identity delete returned unexpected data";
         mret (CommandResult status 0 0)
     | None => throw IdentityDeleteBridgeError "identity delete reply is malformed"
     end).
End bridge.
End DeleteBridge.

(** ** Facts *)

(** What an exchange can change besides the lease. *)
Definition adapter_at {S L} (s : S) (sent : list biometric_call) (h : heap) (w : adapter S L) : Prop :=
  ad_self w = s ∧ ad_sent w = sent ∧ ad_heap w = h.

Section facts.
Context {S L : Type} `{Hlease : Lease L}.
#[local] Abbreviation action := (act (adapter S L)).
Implicit Types (s : S) (sent : list biometric_call) (h : heap) (w : adapter S L).

Lemma on_lease_wp {A} s sent h (m : act L A) (Q : A → adapter S L → Prop) E w : adapter_at s sent h w →
  (∀ a w', adapter_at s sent h w' → Q a w') → (∀ e w', adapter_at s sent h w' → E e w') → wp (on_lease m) Q E w.
Proof. intros Hw HQ HE. unfold wp, on_lease. destruct (m (ad_lease w)) as [[a|e] l]; [apply HQ|apply HE]; exact Hw. Qed.

Lemma send_wp s sent h q (Q : command_result → adapter S L → Prop) E w : adapter_at s sent h w →
  (∀ a w', adapter_at s (sent ++ [q]) h w' → Q a w') → (∀ e w', adapter_at s (sent ++ [q]) h w' → E e w') →
  wp (send q) Q E w.
Proof.
  intros (? & Hs & ?) HQ HE. unfold send. apply wp_bind, wp_assign. eapply on_lease_wp; [|exact HQ|exact HE].
  split; [done|]. split; [|done]. cbn [ad_sent set_field]. by rewrite Hs.
Qed.

Lemma poisoning_wp {A} own (poison : action unit) msg (m : action A) (Q : A → adapter S L → Prop) (E : exn → adapter S L → Prop) w :
  wp m Q (λ _ w', wp poison (λ _ w', ∀ e, E e w') E w') w → wp (poisoning own poison msg m) Q E w.
Proof.
  intros Hm. apply wp_catch. cbn [any_class]. eapply wp_weaken; [exact Hm|done|]. cbv beta. intros e w1 Hp.
  apply wp_bind. eapply wp_weaken; [exact Hp| |done]. cbv beta. intros _ w2 HE. destruct (bool_decide _); apply HE.
Qed.

Lemma bytearray_wp s sent h b (Q : nat → adapter S L → Prop) E w : adapter_at s sent h w →
  (∀ r w', r ∉ dom h → adapter_at s sent (<[r := b]> h) w' → Q r w') → wp (bytearray b) Q E w.
Proof.
  intros (Hself & Hs & <-) HQ. unfold wp, bytearray. apply HQ; [apply is_fresh|]. done.
Qed.
End facts.

Lemma canonical_generation_Ok c m1 m2 v s : canonical_generation c m1 m2 v = Ok s → v = VStr s ∧ ∃ z, uuid_UUID s = Some z ∧ uuid_str z = s.
Proof.
  unfold canonical_generation. destruct v as [| | |t| | |]; try discriminate.
  destruct (uuid_UUID t) as [z|] eqn:Hz; [|discriminate]. intros (u & Hf & Hs)%bind_Ok. apply Ok_inj in Hs as <-.
  apply fail_if_Ok in Hf. apply negb_false_iff, String.eqb_eq in Hf. eauto.
Qed.

Lemma unpack_pair_Ok r a b : unpack_pair r = Ok (a, b) → r = Tuple [a; b] ∨ r = Object (VList [a; b]).
Proof.
  destruct r as [l|v]; cbn [unpack_pair].
  - destruct l as [|x [|y [|]]]; try discriminate. intros [=<- <-]. by left.
  - destruct v as [| | | | |l|]; try discriminate. destruct l as [|x [|y [|]]]; try discriminate. intros [=<- <-]. by right.
Qed.

(** ** One deletion *)
Module DeleteBridgeFacts.
Import DeleteBridge.

Section delete.
Context {L : Type} `{Hlease : Lease L}.
#[local] Abbreviation bridge := (adapter IdentityDeleteBridge L).
#[local] Abbreviation delete_call request := (Biometric 0x0D 0 0 request 0).

Lemma poison_wp g st sent h (Q : unit → bridge → Prop) E w : adapter_at (Bridge g st) sent h w →
  (∀ w', adapter_at (Bridge g POISONED) sent h w' → Q tt w') → wp poison Q E w.
Proof.
  intros (Hs & Hsent & Hh) HQ. unfold poison, set_state. apply wp_bind, wp_assign, wp_catch. cbn [any_class].
  eapply on_lease_wp with (s := Bridge g POISONED); [split; [by cbn; rewrite Hs|done]| |]; intros ? w' H'.
  - destruct a. by apply HQ.
  - by apply wp_ret, HQ.
Qed.

(** What a call of [delete] can do: nothing, if it is refused; otherwise the
    command is sent and the bridge is used up. *)
Lemma delete_wp g st sent h request w : adapter_at (Bridge g st) sent h w →
  wp (delete request)
    (λ r w', st = READY ∧ length request = 20%nat ∧ status_range (cr_status r) = true
       ∧ cr_output_length r = 0 ∧ cr_service_event_count r = 0
       ∧ adapter_at (Bridge g DISPATCHED) (sent ++ [delete_call request]) h w')
    (λ e w', (st ≠ READY ∨ length request ≠ 20%nat) ∧ w' = w
       ∨ st = READY ∧ length request = 20%nat ∧ adapter_at (Bridge g POISONED) (sent ++ [delete_call request]) h w') w.
Proof.
  intros Hat. unfold delete. apply wp_bind, wp_self. destruct Hat as (Hs & Hat). rewrite Hs. cbn [db_state db_connection_generation].
  apply wp_bind, wp_throw_if.
  { intros Hr%negb_true_iff%bool_decide_eq_false. left. split; [by left|done]. }
  intros Hr%negb_false_iff%bool_decide_eq_true. subst st. apply wp_bind, wp_throw_if.
  { intros Hl%negb_true_iff%Nat.eqb_neq. left. split; [by right|done]. }
  intros Hl%negb_false_iff%Nat.eqb_eq. apply poisoning_wp.
  assert (∀ st e w', adapter_at (Bridge g st) (sent ++ [delete_call request]) h w' →
    wp poison (λ _ w', ∀ e : exn, (READY ≠ READY ∨ length request ≠ 20%nat) ∧ w' = w
       ∨ READY = READY ∧ length request = 20%nat ∧ adapter_at (Bridge g POISONED) (sent ++ [delete_call request]) h w') e w') as Hp.
  { intros st e w' H'. eapply poison_wp; [exact H'|]. intros w2 H2 _. right. by split. }
  apply wp_bind. eapply send_wp; [split; [exact Hs|exact Hat]| |]; [|intros e w1 H1; by eapply Hp].
  intros answer w1 H1. apply wp_bind, wp_pure; [|intros e _; by eapply Hp]. intros [reply events] _.
  apply wp_bind. unfold set_state. apply wp_assign. apply wp_bind.
  assert (adapter_at (Bridge g DISPATCHED) (sent ++ [delete_call request]) h
    (w1 <| ad_self := Bridge (db_connection_generation (ad_self w1)) DISPATCHED |>)) as H2.
  { destruct H1 as (Hs1 & H1). split; [by cbn; rewrite Hs1|exact H1]. }
  eapply on_lease_wp; [exact H2| |intros e w3 H3; by eapply Hp]. intros current w3 H3.
  destruct (reply_status reply) as [status|] eqn:Hst; [|by apply wp_throw; eapply Hp].
  apply wp_bind, wp_throw_if; [intros _; by eapply Hp|]. intros _.
  apply wp_bind, wp_throw_if; [intros _; by eapply Hp|]. intros _. apply wp_ret. cbn.
  repeat (split; [done|]). split; [|by split].
  unfold reply_status in Hst. destruct reply as [| | | | |[|[| |z| | | |] [|x [|]]]|]; try discriminate.
  destruct (status_range z) eqn:Hz; [|discriminate]. by injection Hst as <-.
Qed.

(** Whatever is asked of a fresh bridge, it sends at most one command. *)
Definition deletions (requests : list bytes) (w : bridge) : bridge := foldl (λ w r, (delete r w).2) w requests.

Lemma deletions_used g st sent h w requests : adapter_at (Bridge g st) sent h w → st ≠ READY →
  adapter_at (Bridge g st) sent h (deletions requests w).
Proof.
  intros Hat Hst. revert w Hat. induction requests as [|r rs IH]; intros w Hat; [exact Hat|].
  apply IH. pose proof (delete_wp g st sent h r w Hat) as Hwp. unfold wp in Hwp.
  destruct (delete r w) as [[a|e] w1]; cbn [snd].
  - by destruct Hwp as [-> _].
  - by destruct Hwp as [[_ ->]|(-> & _)].
Qed.

(** C18: The adapter is one-shot. From a fresh bridge, whatever is asked of it
    and whatever the lease answers - errors included -, the commands sent are
    exactly the one of the first request of 20 bytes: a request of another
    length is refused unsent, and nothing is sent after the first dispatch. *)
Theorem delete_bridge_one_shot g sent h (w : bridge) requests : adapter_at (Bridge g READY) sent h w →
  ad_sent (deletions requests w) =
    sent ++ ((λ r, delete_call r) <$> take 1 (filter (λ r, length r = 20%nat) requests)).
Proof.
  revert w. induction requests as [|r rs IH]; intros w Hat; [rewrite app_nil_r; apply Hat|].
  change (deletions (r :: rs) w) with (deletions rs (delete r w).2).
  pose proof (delete_wp g READY sent h r w Hat) as Hwp. unfold wp in Hwp. rewrite filter_cons.
  destruct (delete r w) as [[a|e] w1]; cbn [snd].
  - destruct Hwp as (_ & Hl & _ & _ & _ & H1). rewrite decide_True by done. cbn [take fmap list_fmap].
    apply (deletions_used _ _ _ _ _ rs) in H1 as (_ & -> & _); [done|discriminate].
  - destruct Hwp as [[[[]|Hl] ->]|(_ & Hl & H1)]; [done| |].
    + rewrite decide_False by done. by apply IH.
    + rewrite decide_True by done. apply (deletions_used _ _ _ _ _ rs) in H1 as (_ & -> & _); [done|discriminate].
Qed.
End delete.
End DeleteBridgeFacts.
