(* ===== verification/CatacombBridge.v ===== *)
(** * Catacomb adapters
    ([src/src/t2_catacomb_bridge.py], [src/src/t2_biolockout_bridge.py],
    [src/src/t2_enrollment_persistence_bridge.py])

    The transports of a save: the Catacomb commands in their order, the single
    capture of the bio-lockout record, and the router that sends each component
    of an enrolment to one of them over the same lease. *)
From S2P Require Import Prelude PyValue Effect OperationWorld Bytes BridgeWire CatacombProtocol SaveWorld BridgeLease.

#[local] Open Scope Z_scope.

(** ** Catacomb components ([t2_catacomb_bridge.py]) *)

Inductive TransactionState := IDLE | PREPARED | COMPLETED | POISONED.
#[export] Instance TransactionState_eq_dec : EqDecision TransactionState.
Proof. solve_decision. Defined.

Record CatacombBridgeTransport := CatacombBridge {
  cb_protocol_version : Z;
  cb_connection_generation : string;
  cb_state : TransactionState;
  cb_descriptor : option bytes;
  cb_expected_length : option Z;
}.
#[export] Instance CatacombBridgeTransport_settable : Settable CatacombBridgeTransport := λ t,
  CatacombBridge (cb_protocol_version t) (cb_connection_generation t) (cb_state t) (cb_descriptor t) (cb_expected_length t).

Section collect.
Context {L : Type} `{Lease L}.
#[local] Abbreviation action := (act (adapter unit L)).
#[local] Abbreviation cerr_if b msg := (throw_if b CatacombBridgeError msg : action unit).

(** One of the two readings of the save state. *)
Definition query_save_state (generation : string) : action bytes :=
  answer ← send (Biometric 0x3C 1 0 [] 4096);
  '(reply, events) ← pure (unpack_pair answer);
  _ ← (current ← on_lease connection_generation;
       cerr_if (current !=? VStr generation) "Bridge connection generation changed");
  _ ← cerr_if (negb (empty_list events)) "Catacomb save-state query emitted an unexpected event";
  match reply with
  | VList [VInt 0; VBytes output] =>
      _ ← cerr_if (4096 <? Z.of_nat (length (text output))) "Catacomb save-state reply is malformed";
      mret (text output)
  | _ => throw CatacombBridgeError "Catacomb save-state reply is malformed"
  end.

(** Every exception of the [try] comes after [dispatched = True]. *)
Definition collect_builtin_save_components (apple_user_id : Z) (generation : value)
    : action (CatacombComponent * CatacombComponent) :=
  g ← catch (λ c, bool_decide (c ∈ [AttributeError; TypeError; ValueError; CatacombProtocolError]))
        (g ← pure (canonical_generation CatacombBridgeError "Catacomb save-state request is invalid"
                     "connection generation is not canonical" generation);
         _ ← on_lease (leased CatacombBridgeError "Bridge lease belongs to another generation" g);
         _ ← pure (component_user apple_user_id);
         mret g)
        (λ _, throw CatacombBridgeError "Catacomb save-state request is invalid");
  catch any_class
    (first ← query_save_state g;
     second ← query_save_state g;
     _ ← cerr_if (negb (bool_decide (first = second))) "Catacomb save state changed between reads";
     states ← pure (parse_user_states first);
     pure (plan_builtin_enrollment_save states apple_user_id []))
    (λ e,
      _ ← catch any_class (on_lease invalidate) (λ _, mret tt);
      if bool_decide (exn_cls e = CatacombBridgeError) then reraise e
      else if bool_decide (exn_cls e = CatacombProtocolError) then throw CatacombBridgeError "Catacomb save state is unsafe"
      else throw CatacombBridgeError "Catacomb save-state collection failed; reconciliation is required").
End collect.

Section catacomb.
Context {L : Type} `{Lease L}.
#[local] Abbreviation action := (act (adapter CatacombBridgeTransport L)).
#[local] Abbreviation cerr_if b msg := (throw_if b CatacombBridgeError msg).

(** [__init__] *)
Definition new_catacomb_bridge (protocol_version generation : value) : act L CatacombBridgeTransport :=
  _ ← cerr_if (negb (is_int protocol_version && bool_decide (int_value protocol_version ∈ [1; 2])))
        "Catacomb protocol must be version 1 or 2";
  g ← pure (canonical_generation CatacombBridgeError "connection generation must be a UUID"
              "connection generation is not canonical" generation);
  _ ← leased CatacombBridgeError "Bridge lease belongs to another generation" g;
  mret (CatacombBridge (int_value protocol_version) g IDLE None None).

Definition require_state (expected : TransactionState) (operation : string) : action unit :=
  w ← self;
  let state := cb_state (ad_self w) in
  _ ← cerr_if (bool_decide (state = POISONED)) "Catacomb Bridge generation is poisoned; reconciliation is required";
  cerr_if (negb (bool_decide (state = expected))) ("Catacomb " +:+ operation +:+ " is out of order").

Definition require_descriptor (descriptor : bytes) : action unit :=
  w ← self;
  cerr_if (negb (bool_decide (cb_descriptor (ad_self w) = Some descriptor)))
    "Catacomb component changed during the persistence transaction".

Definition update (f : CatacombBridgeTransport → CatacombBridgeTransport) : action unit :=
  assign (λ w, w <| ad_self := f (ad_self w) |>).
Definition poison : action unit := update (λ t, t <| cb_state := POISONED |>).

Definition same_generation : action unit :=
  w ← self;
  current ← on_lease connection_generation;
  cerr_if (current !=? VStr (cb_connection_generation (ad_self w))) "Bridge connection generation changed".

Definition dispatch (request : CatacombRequest) : action (Z * bytes) :=
  poisoning CatacombBridgeError poison "Catacomb Bridge dispatch failed; reconciliation is required"
    (_ ← same_generation;
     result ← send (Biometric (rq_command request) (rq_protocol_version request) 0 (rq_descriptor request)
                      (rq_output_capacity request));
     _ ← same_generation;
     match result with
     | Tuple [reply; events] =>
         _ ← cerr_if (negb (empty_list events)) "Catacomb command emitted an unexpected service event";
         match reply with
         | VList [VInt status; output] =>
             _ ← cerr_if (negb (status_range status)) "Bridge command status is malformed";
             match (if rq_output_capacity request =? 0 then nil_output output else output) with
             | VBytes output =>
                 _ ← cerr_if (rq_output_capacity request <? Z.of_nat (length (text output)))
                       "Bridge command exceeded its output capacity";
                 mret (status, text output)
             | _ => throw CatacombBridgeError "Bridge command output is not byte data"
             end
         | VList [_; _] => throw CatacombBridgeError "Bridge command status is malformed"
         | _ => throw CatacombBridgeError "Bridge command reply is malformed"
         end
     | _ => throw CatacombBridgeError "Bridge command result is malformed"
     end).

(** [except protocol.CatacombProtocolError: ...; raise CatacombBridgeError(message)] *)
Definition protocol_checked {A} (m : result A) (cleanup : action unit) (message : string) : action A :=
  catch (λ c, bool_decide (c = CatacombProtocolError)) (pure m) (λ _, _ ← cleanup; throw CatacombBridgeError message).

Definition cb_prepare (descriptor : bytes) : action (Z * Z) :=
  _ ← require_state IDLE "prepare";
  w ← self;
  request ← protocol_checked (build_prepare_request (cb_protocol_version (ad_self w)) descriptor) (mret tt)
              "Catacomb prepare descriptor is invalid";
  '(status, output) ← dispatch request;
  expected_length ← protocol_checked (parse_prepare_reply status output) poison "Catacomb prepare reply is invalid";
  _ ← update (λ t, t <| cb_descriptor := Some descriptor |> <| cb_expected_length := Some expected_length |>
                     <| cb_state := PREPARED |>);
  mret (0, expected_length).

(** [protocol.parse_complete_reply] returns the buffer it is given. *)
Definition cb_complete (descriptor : bytes) : action (Z * nat) :=
  _ ← require_state PREPARED "complete";
  _ ← require_descriptor descriptor;
  w ← self;
  match cb_expected_length (ad_self w) with
  | Some expected_length =>
      request ← pure (build_complete_request (cb_protocol_version (ad_self w)) descriptor expected_length);
      '(status, immutable_output) ← dispatch request;
      output ← bytearray immutable_output;
      _ ← protocol_checked (parse_complete_reply status immutable_output expected_length)
            (_ ← wipe_buffer output; poison) "Catacomb complete reply is invalid";
      _ ← update (λ t, t <| cb_state := COMPLETED |>);
      mret (0, output)
  | None => throw AssertionError ""
  end.

Definition cb_confirm (descriptor : bytes) : action Z :=
  _ ← require_state COMPLETED "confirm";
  _ ← require_descriptor descriptor;
  w ← self;
  request ← pure (build_confirm_request (cb_protocol_version (ad_self w)) descriptor);
  '(status, output) ← dispatch request;
  _ ← protocol_checked (parse_confirm_reply status output) poison "Catacomb confirm reply is invalid";
  _ ← update (λ t, t <| cb_descriptor := None |> <| cb_expected_length := None |> <| cb_state := IDLE |>);
  mret 0.
End catacomb.

(** ** The bio-lockout record ([t2_biolockout_bridge.py]) *)

Inductive BioLockoutBridgeState := READY | CAPTURED | BIOLOCKOUT_POISONED.
#[export] Instance BioLockoutBridgeState_eq_dec : EqDecision BioLockoutBridgeState.
Proof. solve_decision. Defined.
Record BioLockoutBridgeTransport := BioLockoutBridge { bb_connection_generation : string; bb_state : BioLockoutBridgeState }.

Section biolockout.
Context {L : Type} `{Lease L}.
#[local] Abbreviation action := (act (adapter BioLockoutBridgeTransport L)).
#[local] Abbreviation berr_if b msg := (throw_if b BioLockoutBridgeError msg).

(** [__init__] *)
Definition new_biolockout_bridge (generation : value) : act L BioLockoutBridgeTransport :=
  g ← pure (canonical_generation BioLockoutBridgeError "connection generation must be a UUID"
              "connection generation is not canonical" generation);
  _ ← leased BioLockoutBridgeError "Bridge lease belongs to another generation" g;
  mret (BioLockoutBridge g READY).

Definition bb_set_state (s : BioLockoutBridgeState) : action unit :=
  assign (λ w, w <| ad_self := BioLockoutBridge (bb_connection_generation (ad_self w)) s |>).
Definition bb_poison : action unit :=
  _ ← bb_set_state BIOLOCKOUT_POISONED;
  catch any_class (on_lease invalidate) (λ _, mret tt).
Definition bb_same_generation : action unit :=
  w ← self;
  on_lease (leased BioLockoutBridgeError "Bridge connection generation changed" (bb_connection_generation (ad_self w))).

(** The handler of [capture]: a malformed reply has a message of its own. *)
Definition bb_handler (poison : action unit) (e : exn) : action nat :=
  _ ← poison;
  if bool_decide (exn_cls e = BioLockoutBridgeError) then reraise e
  else if bool_decide (exn_cls e = BioLockoutProtocolError)
  then throw BioLockoutBridgeError "bio-lockout save reply is invalid; reconciliation is required"
  else throw BioLockoutBridgeError "bio-lockout save failed; reconciliation is required".

(** Nothing that may raise follows the parsing of the reply, so the handler
    finds no record to wipe.  Before the dispatch it does not poison. *)
Definition capture : action nat :=
  w ← self;
  _ ← berr_if (bool_decide (bb_state (ad_self w) = BIOLOCKOUT_POISONED))
        "bio-lockout Bridge generation is poisoned; reconciliation is required";
  _ ← berr_if (negb (bool_decide (bb_state (ad_self w) = READY))) "bio-lockout record was already captured";
  let request := BioLockout.build_save_request in
  _ ← catch any_class bb_same_generation (λ e, _ ← bb_handler (mret tt) e; mret tt);
  catch any_class
    (result ← send (Biometric (BioLockout.sr_command request) (BioLockout.sr_version request) (BioLockout.sr_value request)
                      (BioLockout.sr_data request) (BioLockout.sr_output_capacity request));
     _ ← bb_same_generation;
     match result with
     | Tuple [reply; events] =>
         _ ← berr_if (negb (empty_list events)) "bio-lockout save emitted an unexpected service event";
         match reply with
         | VList [status; output] =>
             record ← pure (BioLockout.parse_save_reply status output);
             output ← bytearray record;
             _ ← bb_set_state CAPTURED;
             mret output
         | _ => throw BioLockoutBridgeError "bio-lockout save reply is malformed"
         end
     | _ => throw BioLockoutBridgeError "bio-lockout Bridge result is malformed"
     end)
    (bb_handler bb_poison).
End biolockout.

(** ** One enrolment ([t2_enrollment_persistence_bridge.py]) *)

Inductive RouteState := ROUTE_IDLE | ROUTE_CATACOMB | BIOLOCKOUT_PREPARED | BIOLOCKOUT_CAPTURED.
#[export] Instance RouteState_eq_dec : EqDecision RouteState.
Proof. solve_decision. Defined.
Record EnrollmentPersistenceBridgeTransport := Router {
  rt_catacomb : CatacombBridgeTransport;
  rt_biolockout : BioLockoutBridgeTransport;
  rt_state : RouteState;
}.
#[export] Instance router_settable : Settable EnrollmentPersistenceBridgeTransport := λ t,
  Router (rt_catacomb t) (rt_biolockout t) (rt_state t).

Section router.
Context {L : Type} `{Lease L}.
#[local] Abbreviation action := (act (adapter EnrollmentPersistenceBridgeTransport L)).
#[local] Abbreviation rerr_if b msg := (throw_if b EnrollmentPersistenceBridgeError msg).

(** [__init__] *)
Definition new_router (protocol_version generation : value) : act L EnrollmentPersistenceBridgeTransport :=
  catacomb ← new_catacomb_bridge protocol_version generation;
  biolockout ← new_biolockout_bridge generation;
  mret (Router catacomb biolockout ROUTE_IDLE).

Definition is_biolockout (descriptor : bytes) : bool := bool_decide (descriptor = BioLockout.PERSISTENCE_DESCRIPTOR).

(** A call of one of the two transports. *)
Definition on_catacomb {A} (m : act (adapter CatacombBridgeTransport L) A) : action A := λ w,
  let '(r, c) := m (Adapter (rt_catacomb (ad_self w)) (ad_lease w) (ad_sent w) (ad_heap w)) in
  (r, Adapter ((ad_self w) <| rt_catacomb := ad_self c |>) (ad_lease c) (ad_sent c) (ad_heap c)).
Definition on_biolockout {A} (m : act (adapter BioLockoutBridgeTransport L) A) : action A := λ w,
  let '(r, c) := m (Adapter (rt_biolockout (ad_self w)) (ad_lease w) (ad_sent w) (ad_heap w)) in
  (r, Adapter ((ad_self w) <| rt_biolockout := ad_self c |>) (ad_lease c) (ad_sent c) (ad_heap c)).

Definition route (s : RouteState) : action unit := assign (λ w, w <| ad_self := (ad_self w) <| rt_state := s |> |>).
Definition require_route (s : RouteState) (message : string) : action unit :=
  w ← self; rerr_if (negb (bool_decide (rt_state (ad_self w) = s))) message.

Definition prepare (descriptor : bytes) : action (Z * Z) :=
  _ ← require_route ROUTE_IDLE "enrollment persistence prepare is out of order";
  if is_biolockout descriptor then
    _ ← route BIOLOCKOUT_PREPARED;
    mret (0, BioLockout.OUTPUT_CAPACITY)
  else
    _ ← route ROUTE_CATACOMB;
    catch any_class (on_catacomb (cb_prepare descriptor)) (λ e, _ ← route ROUTE_IDLE; reraise e).

Definition complete (descriptor : bytes) : action (Z * nat) :=
  if is_biolockout descriptor then
    _ ← require_route BIOLOCKOUT_PREPARED "bio-lockout capture is out of order";
    output ← on_biolockout capture;
    _ ← route BIOLOCKOUT_CAPTURED;
    mret (0, output)
  else
    _ ← require_route ROUTE_CATACOMB "Catacomb complete is out of order";
    on_catacomb (cb_complete descriptor).

Definition confirm (descriptor : bytes) : action Z :=
  if is_biolockout descriptor then
    _ ← require_route BIOLOCKOUT_CAPTURED "bio-lockout host confirmation is out of order";
    _ ← route ROUTE_IDLE;
    mret 0
  else
    _ ← require_route ROUTE_CATACOMB "Catacomb confirm is out of order";
    status ← on_catacomb (cb_confirm descriptor);
    _ ← route ROUTE_IDLE;
    mret status.
End router.
