(* ===== verification/CatacombBridgeRuns.v ===== *)
(** * Theorems on the Catacomb adapters

    What the router of an enrolment sends over its lease, and what its answers
    mean to the operations that use it as their transport. *)
From S2P Require Import Prelude PyValue Effect OperationWorld Bytes BridgeWire CatacombProtocol SaveWorld SaveFacts SingleSaveRuns.
From S2P Require Import BridgeLease CatacombBridge.

#[local] Open Scope Z_scope.

(** ** The commands of a transaction *)

Definition prepare_call (v : Z) (d : bytes) : biometric_call := Biometric COMMAND_PREPARE_SAVE_CATACOMB v 0 d 4.
Definition complete_call (v : Z) (d : bytes) (n : Z) : biometric_call := Biometric COMMAND_COMPLETE_SAVE_CATACOMB v 0 d n.
Definition confirm_call (v : Z) (d : bytes) : biometric_call := Biometric COMMAND_CONFIRM_SAVE_CATACOMB v 0 d 0.
Definition capture_call : biometric_call := Biometric BioLockout.SAVE_COMMAND 1 0 [] BioLockout.OUTPUT_CAPACITY.

(** A component saved: its descriptor and the length of its secure data. *)
Definition saved : Type := bytes * Z.
Definition saved_ok (v : Z) (x : saved) : Prop := descriptor_ok v x.1 ∧ 0 < x.2 ≤ MAX_SECURE_BLOB_SIZE.
Definition transaction (v : Z) (x : saved) : list biometric_call :=
  [prepare_call v x.1; complete_call v x.1 x.2; confirm_call v x.1].

(** The last transaction, as far as the state says it got. *)
Definition in_progress (t : CatacombBridgeTransport) (part : list biometric_call) : Prop :=
  let v := cb_protocol_version t in
  match cb_state t with
  | IDLE => part = []
  | PREPARED => ∃ x, cb_descriptor t = Some x.1 ∧ cb_expected_length t = Some x.2 ∧ saved_ok v x ∧ part = [prepare_call v x.1]
  | COMPLETED => ∃ x, cb_descriptor t = Some x.1 ∧ saved_ok v x ∧ part = [prepare_call v x.1; complete_call v x.1 x.2]
  | POISONED => ∃ x, saved_ok v x ∧ part `prefix_of` transaction v x
  end.

(** The Catacomb commands sent: finished transactions and the last one. *)
Definition transactions (t : CatacombBridgeTransport) (sent : list biometric_call) : Prop :=
  ∃ xs part, sent = (xs ≫= transaction (cb_protocol_version t)) ++ part
    ∧ Forall (saved_ok (cb_protocol_version t)) xs ∧ in_progress t part.

Definition is_capture (q : biometric_call) : Prop := bc_command q = BioLockout.SAVE_COMMAND.
#[export] Instance is_capture_dec q : Decision (is_capture q) := decide_rel _ _ _.

Section catacomb.
Context {L : Type} `{Hlease : Lease L}.
#[local] Abbreviation world := (adapter CatacombBridgeTransport L).
Implicit Types (t : CatacombBridgeTransport) (sent : list biometric_call) (h : heap).

Lemma require_state_wp t sent h expected op (Q : unit → world → Prop) E w : adapter_at t sent h w →
  (cb_state t = expected → Q tt w) → (∀ e, E e w) → wp (require_state expected op) Q E w.
Proof.
  intros (Hs & _) HQ HE. unfold require_state. apply wp_bind, wp_self. rewrite Hs. cbv zeta.
  apply wp_bind, wp_throw_if; [done|]. intros _. apply wp_throw_if; [done|].
  intros Hx%negb_false_iff%bool_decide_eq_true. by apply HQ.
Qed.

Lemma require_descriptor_wp t sent h d (Q : unit → world → Prop) E w : adapter_at t sent h w →
  (cb_descriptor t = Some d → Q tt w) → (∀ e, E e w) → wp (require_descriptor d) Q E w.
Proof.
  intros (Hs & _) HQ HE. unfold require_descriptor. apply wp_bind, wp_self. rewrite Hs.
  apply wp_throw_if; [done|]. intros Hx%negb_false_iff%bool_decide_eq_true. by apply HQ.
Qed.

Lemma update_wp t sent h f (Q : unit → world → Prop) E w : adapter_at t sent h w →
  (∀ w', adapter_at (f t) sent h w' → Q tt w') → wp (update f) Q E w.
Proof. intros (Hs & Hr) HQ. apply wp_assign, HQ. split; [by cbn; rewrite Hs|exact Hr]. Qed.

Lemma same_generation_wp t sent h (Q : unit → world → Prop) E w : adapter_at t sent h w →
  (∀ w', adapter_at t sent h w' → Q tt w') → (∀ e w', adapter_at t sent h w' → E e w') → wp same_generation Q E w.
Proof.
  intros Hat HQ HE. unfold same_generation. apply wp_bind, wp_self, wp_bind.
  eapply on_lease_wp; [exact Hat| |exact HE]. intros c w' H'. apply wp_throw_if; intros _; [by apply HE|by apply HQ].
Qed.

#[local] Abbreviation poisoned t := (t <| cb_state := POISONED |>).

(** An exchange sends its command at most once, and is terminal if it fails. *)
Lemma dispatch_wp t sent h request w : adapter_at t sent h w →
  let q := Biometric (rq_command request) (rq_protocol_version request) 0 (rq_descriptor request) (rq_output_capacity request) in
  wp (dispatch request) (λ _ w', adapter_at t (sent ++ [q]) h w')
    (λ _ w', adapter_at (L := L) (poisoned t) sent h w' ∨ adapter_at (L := L) (poisoned t) (sent ++ [q]) h w') w.
Proof.
  intros Hat q. unfold dispatch. apply poisoning_wp. unfold poison.
  assert (∀ sent' e w', adapter_at t sent' h w' → sent' = sent ∨ sent' = sent ++ [q] →
    wp (update (λ t, poisoned t)) (λ _ w', ∀ e : exn, adapter_at (L := L) (poisoned t) sent h w' ∨ adapter_at (L := L) (poisoned t) (sent ++ [q]) h w')
      e w') as Hp.
  { intros sent' e w' H' Hor. eapply update_wp; [exact H'|]. intros w2 H2 _. destruct Hor as [->| ->]; [by left|by right]. }
  apply wp_bind. eapply same_generation_wp; [exact Hat| |intros e w1 H1; eapply Hp; [exact H1|by left]].
  intros w1 H1. apply wp_bind. eapply send_wp; [exact H1| |intros e w2 H2; eapply Hp; [exact H2|by right]].
  intros answer w2 H2. apply wp_bind.
  eapply same_generation_wp; [exact H2| |intros e w3 H3; eapply Hp; [exact H3|by right]]. intros w3 H3.
  assert (∀ e, wp (update (λ t, poisoned t)) (λ _ w', ∀ e : exn, adapter_at (L := L) (poisoned t) sent h w' ∨ adapter_at (L := L) (poisoned t) (sent ++ [q]) h w')
      e w3) as Hp3 by (intros e; eapply Hp; [exact H3|by right]).
  destruct answer as [[|reply [|events [|]]]|]; try (apply wp_throw; by apply Hp3).
  apply wp_bind, wp_throw_if; [intros _; by apply Hp3|]. intros _.
  destruct reply as [| | | | |[|x [|output [|]]]|]; try (apply wp_throw; by apply Hp3);
    destruct x; try (apply wp_throw; by apply Hp3).
  apply wp_bind, wp_throw_if; [intros _; by apply Hp3|]. intros _.
  destruct (if rq_output_capacity request =? 0 then nil_output output else output); try (apply wp_throw; by apply Hp3).
  apply wp_bind, wp_throw_if; [intros _; by apply Hp3|]. intros _. apply wp_ret. exact H3.
Qed.

Lemma protocol_checked_wp {A} (m : result A) (cleanup : act (adapter CatacombBridgeTransport L) unit) msg (Q : A → world → Prop) E w :
  (∀ a, m = Ok a → Q a w) → raises (λ c, c = CatacombProtocolError) m →
  (∀ x, m = Raise x → wp cleanup (λ _ w', ∀ e, E e w') E w) → wp (protocol_checked m cleanup msg) Q E w.
Proof.
  intros HQ HR HE. apply wp_catch, wp_pure; [exact HQ|]. intros x Hx. rewrite (HR x Hx), bool_decide_eq_true_2 by done.
  apply wp_bind. eapply wp_weaken; [by eapply HE| |done]. cbv beta. intros _ w' He. apply wp_throw, He.
Qed.
End catacomb.

(** ** How a call advances the transaction *)

Definition catacomb_calls (sent : list biometric_call) : list biometric_call := filter (λ q, ¬ is_capture q) sent.
Definition captures (sent : list biometric_call) : list biometric_call := filter is_capture sent.

Lemma catacomb_calls_snoc sent q : ¬ is_capture q → catacomb_calls (sent ++ [q]) = catacomb_calls sent ++ [q].
Proof. intros Hq. unfold catacomb_calls. by rewrite filter_app, filter_cons_True. Qed.
Lemma captures_snoc sent q : ¬ is_capture q → captures (sent ++ [q]) = captures sent.
Proof. intros Hq. unfold captures. by rewrite filter_app, filter_cons_False, app_nil_r. Qed.

#[local] Abbreviation poisoned t := (t <| cb_state := POISONED |>).
#[local] Abbreviation version := cb_protocol_version.

Lemma transactions_idle t s d : cb_state t = IDLE → descriptor_ok (version t) d → transactions t s →
  transactions (poisoned t) s ∧ transactions (poisoned t) (s ++ [prepare_call (version t) d])
  ∧ ∀ n, 0 < n ≤ MAX_SECURE_BLOB_SIZE →
      transactions (t <| cb_descriptor := Some d |> <| cb_expected_length := Some n |> <| cb_state := PREPARED |>)
        (s ++ [prepare_call (version t) d]).
Proof.
  intros Hst Hd (xs & part & -> & Hxs & Hin). unfold in_progress in Hin. rewrite Hst in Hin. subst part.
  rewrite app_nil_r. assert (saved_ok (version t) (d, 1)) as H1 by (split; [exact Hd|unfold MAX_SECURE_BLOB_SIZE; cbn; lia]).
  split; [|split].
  - exists xs, []. split; [by rewrite app_nil_r|]. split; [done|]. exists (d, 1). split; [done|apply prefix_nil].
  - exists xs, [prepare_call (version t) d]. split; [done|]. split; [done|]. exists (d, 1). split; [done|].
    by eexists.
  - intros n Hn. exists xs, [prepare_call (version t) d]. split; [done|]. split; [done|]. by exists (d, n).
Qed.

Lemma transactions_prepared t s d n : cb_state t = PREPARED → cb_descriptor t = Some d → cb_expected_length t = Some n →
  transactions t s → saved_ok (version t) (d, n) ∧
  transactions (poisoned t) s ∧ transactions (poisoned t) (s ++ [complete_call (version t) d n])
  ∧ transactions (t <| cb_state := COMPLETED |>) (s ++ [complete_call (version t) d n]).
Proof.
  intros Hst Hd Hn (xs & part & -> & Hxs & Hin). unfold in_progress in Hin. rewrite Hst in Hin.
  destruct Hin as ([d' n'] & Hd' & Hn' & Hok & ->). rewrite Hd in Hd'. rewrite Hn in Hn'. cbn [fst snd] in Hd', Hn'.
  injection Hd' as <-. injection Hn' as <-. split; [exact Hok|]. rewrite <-app_assoc. cbn [app fst]. split; [|split].
  - eexists xs, _. split; [done|]. split; [done|]. exists (d, n). split; [done|]. by eexists.
  - eexists xs, _. split; [done|]. split; [done|]. exists (d, n). split; [done|]. by eexists.
  - eexists xs, _. split; [done|]. split; [done|]. exists (d, n). done.
Qed.

Lemma transactions_completed t s d : cb_state t = COMPLETED → cb_descriptor t = Some d → transactions t s →
  descriptor_ok (version t) d ∧
  transactions (poisoned t) s ∧ transactions (poisoned t) (s ++ [confirm_call (version t) d])
  ∧ transactions (t <| cb_descriptor := None |> <| cb_expected_length := None |> <| cb_state := IDLE |>)
      (s ++ [confirm_call (version t) d]).
Proof.
  intros Hst Hd (xs & part & -> & Hxs & Hin). unfold in_progress in Hin. rewrite Hst in Hin.
  destruct Hin as ([d' n] & Hd' & Hok & ->). rewrite Hd in Hd'. cbn [fst snd] in Hd'. injection Hd' as <-.
  split; [apply Hok|]. rewrite <-app_assoc. cbn [app fst snd]. split; [|split].
  - eexists xs, _. split; [done|]. split; [done|]. exists (d, n). split; [done|]. by eexists.
  - eexists xs, _. split; [done|]. split; [done|]. exists (d, n). done.
  - exists (xs ++ [(d, n)]), []. split.
    + by rewrite bind_app, app_nil_r.
    + split; [|done]. apply Forall_app. split; [done|]. by constructor.
Qed.

(** What a call of the Catacomb transport leaves: the same version, a
    transaction that is where the state says, and no other command. *)
Record advanced (t : CatacombBridgeTransport) (sent : list biometric_call) (t' : CatacombBridgeTransport)
    (sent' : list biometric_call) : Prop := {
  av_version : version t' = version t;
  av_transactions : transactions t' (catacomb_calls sent');
  av_captures : captures sent' = captures sent;
}.

Lemma advanced_same t sent t' : version t' = version t → transactions t' (catacomb_calls sent) → advanced t sent t' sent.
Proof. by split. Qed.

Lemma advanced_snoc t sent t' q : version t' = version t → ¬ is_capture q → transactions t' (catacomb_calls sent ++ [q]) →
  advanced t sent t' (sent ++ [q]).
Proof. intros Hv Hq Ht. split; [exact Hv|by rewrite catacomb_calls_snoc|by apply captures_snoc]. Qed.

(** ** The three calls *)

Lemma request_raises c v d n : raises (λ c, c = CatacombProtocolError) (new_request c v d n).
Proof. unfold new_request, validate_descriptor. raises_run; done. Qed.

Lemma prepare_reply_raises status output : raises (λ c, c = CatacombProtocolError) (parse_prepare_reply status output).
Proof.
  unfold parse_prepare_reply, require_success. apply raises_bind; [raises_run; done|]. intros _ _.
  apply raises_bind; [raises_run; done|]. intros _ Hl%fail_if_Ok%negb_false_iff%Nat.eqb_eq.
  apply raises_bind; [exact (unpack_raises _ PREPARE_REPLY output Hl)|]. intros [n u] _. raises_run; done.
Qed.

Lemma complete_reply_raises status output n : raises (λ c, c = CatacombProtocolError) (parse_complete_reply status output n).
Proof. unfold parse_complete_reply, require_success. raises_run; done. Qed.

Lemma confirm_reply_raises status output : raises (λ c, c = CatacombProtocolError) (parse_confirm_reply status output).
Proof. unfold parse_confirm_reply, require_success. raises_run; done. Qed.

Section calls.
Context {L : Type} `{Hlease : Lease L}.
#[local] Abbreviation world := (adapter CatacombBridgeTransport L).
Implicit Types (t : CatacombBridgeTransport) (sent : list biometric_call) (h : heap).

(** Where a failed call leaves the transport; [h'] may hold more wiped buffers. *)
Definition stopped t sent (h : heap) (w : world) : Prop :=
  ∃ t' sent' h', adapter_at t' sent' h' w ∧ advanced t sent t' sent' ∧ ∀ r b, h' !! r = Some b → h !! r = Some b ∨ b = wiped b.

Lemma stopped_at t sent h t' sent' w : adapter_at t' sent' h w → advanced t sent t' sent' → stopped t sent h w.
Proof. intros Hat Hadv. exists t', sent', h. split; [done|]. split; [done|]. by left. Qed.

(** [dispatch] of a request made in a state that allows it. *)
Lemma dispatch_stopped t sent h request q w : adapter_at t sent h w →
  q = Biometric (rq_command request) (rq_protocol_version request) 0 (rq_descriptor request) (rq_output_capacity request) →
  ¬ is_capture q → transactions (poisoned t) (catacomb_calls sent) → transactions (poisoned t) (catacomb_calls sent ++ [q]) →
  wp (dispatch request) (λ _ w', adapter_at t (sent ++ [q]) h w') (λ _ w', stopped t sent h w') w.
Proof.
  intros Hat -> Hq H1 H2. eapply wp_weaken; [by eapply dispatch_wp|done|]. cbv beta. intros _ w' [H'|H'].
  - eapply stopped_at; [exact H'|]. by apply advanced_same.
  - eapply stopped_at; [exact H'|]. by apply advanced_snoc.
Qed.

Lemma cb_prepare_wp t sent h d w : adapter_at t sent h w → transactions t (catacomb_calls sent) →
  wp (cb_prepare d)
    (λ a w', ∃ t' sent', adapter_at t' sent' h w' ∧ advanced t sent t' sent' ∧ a.1 = 0 ∧ 0 < a.2 ≤ MAX_SECURE_BLOB_SIZE
       ∧ cb_state t' = PREPARED ∧ cb_descriptor t' = Some d ∧ cb_expected_length t' = Some a.2)
    (λ _ w', stopped t sent h w') w.
Proof.
  intros Hat Ht. assert (stopped t sent h w) as Hst by (eapply stopped_at; [exact Hat|by apply advanced_same]).
  unfold cb_prepare. apply wp_bind. eapply require_state_wp; [exact Hat| |done]. intros Hidle.
  apply wp_bind, wp_self. destruct Hat as (Hs & Hat). rewrite Hs. apply wp_bind, protocol_checked_wp; [|apply request_raises|].
  2:{ intros _ _. by apply wp_ret. }
  intros request (-> & Hd & _)%new_request_Ok. destruct (transactions_idle t _ d Hidle Hd Ht) as (H1 & H2 & H3).
  apply wp_bind. eapply wp_weaken; [eapply (dispatch_stopped t sent h _ (prepare_call (version t) d)); [by split|done|done|done|done]| |done].
  cbv beta. intros [status output] w1 Hat1. apply wp_bind, protocol_checked_wp; [|apply prepare_reply_raises|].
  - intros n (_ & _ & Hn)%prepared_length_bound. apply wp_bind. eapply update_wp; [exact Hat1|]. intros w2 H4.
    apply wp_ret. eexists _, _. split; [exact H4|]. split; [|done]. apply advanced_snoc; [done|done|by apply H3].
  - intros _ _. eapply update_wp; [exact Hat1|]. intros w2 H4 _. eapply stopped_at; [exact H4|]. by apply advanced_snoc.
Qed.

Lemma cb_complete_wp t sent h d w : adapter_at t sent h w → transactions t (catacomb_calls sent) →
  wp (cb_complete d)
    (λ a w', ∃ t' sent' b, adapter_at t' sent' (<[a.2 := b]> h) w' ∧ advanced t sent t' sent' ∧ a.1 = 0 ∧ (a.2 ∉ dom h)
       ∧ cb_expected_length t = Some (Z.of_nat (length b)) ∧ 0 < Z.of_nat (length b) ≤ MAX_SECURE_BLOB_SIZE)
    (λ _ w', stopped t sent h w') w.
Proof.
  intros Hat Ht. assert (stopped t sent h w) as Hst by (eapply stopped_at; [exact Hat|by apply advanced_same]).
  unfold cb_complete. apply wp_bind. eapply require_state_wp; [exact Hat| |done]. intros Hprep.
  apply wp_bind. eapply require_descriptor_wp; [exact Hat| |done]. intros Hdesc.
  apply wp_bind, wp_self. destruct Hat as (Hs & Hat). rewrite Hs. destruct (cb_expected_length t) as [n|] eqn:Hn; [|done].
  destruct (transactions_prepared t _ d n Hprep Hdesc Hn Ht) as (Hok & H1 & H2 & H3).
  apply wp_bind, wp_pure; [|done]. intros request (u & _ & (-> & _ & _)%new_request_Ok)%bind_Ok. apply wp_bind.
  eapply wp_weaken; [eapply (dispatch_stopped t sent h _ (complete_call (version t) d n)); [by split|done|done|done|done]| |done].
  cbv beta. intros [status output] w1 Hat1. apply wp_bind. eapply bytearray_wp; [exact Hat1|]. intros r w2 Hr Hat2.
  apply wp_bind, protocol_checked_wp; [|apply complete_reply_raises|].
  - intros b Hb. unfold parse_complete_reply in Hb.
    apply bind_Ok in Hb as (? & _ & (? & _ & (? & Hl%fail_if_Ok%negb_false_iff%Z.eqb_eq & _)%bind_Ok)%bind_Ok).
    apply wp_bind. eapply update_wp; [exact Hat2|]. intros w3 H4. apply wp_ret. eexists _, _, output. split; [exact H4|].
    split; [by apply advanced_snoc|]. split; [done|]. split; [done|]. cbn [fst snd]. rewrite Hl. split; [done|apply Hok].
  - intros _ _. apply wp_bind. unfold wipe_buffer. apply wp_assign. destruct Hat2 as (Hs2 & Hsent2 & Hh2).
    eapply update_wp with (t := t) (sent := sent ++ [complete_call (version t) d n]) (h := wipe (Buffer r) (<[r := output]> h));
      [split; [exact Hs2|]; split; [exact Hsent2|by cbn; rewrite Hh2]|].
    intros w3 H4 _. eexists _, _, _. split; [exact H4|]. split; [by apply advanced_snoc|]. intros k b. cbn [wipe].
    destruct (decide (k = r)) as [->|Hne].
    + rewrite lookup_alter_eq, lookup_insert_eq. intros [= <-]. right. by rewrite wiped_wiped.
    + rewrite lookup_alter_ne, lookup_insert_ne by done. by left.
Qed.

Lemma cb_confirm_wp t sent h d w : adapter_at t sent h w → transactions t (catacomb_calls sent) →
  wp (cb_confirm d)
    (λ a w', ∃ t' sent', adapter_at t' sent' h w' ∧ advanced t sent t' sent' ∧ a = 0)
    (λ _ w', stopped t sent h w') w.
Proof.
  intros Hat Ht. assert (stopped t sent h w) as Hst by (eapply stopped_at; [exact Hat|by apply advanced_same]).
  unfold cb_confirm. apply wp_bind. eapply require_state_wp; [exact Hat| |done]. intros Hcomp.
  apply wp_bind. eapply require_descriptor_wp; [exact Hat| |done]. intros Hdesc.
  apply wp_bind, wp_self. destruct Hat as (Hs & Hat). rewrite Hs.
  destruct (transactions_completed t _ d Hcomp Hdesc Ht) as (Hok & H1 & H2 & H3).
  apply wp_bind, wp_pure; [|done]. intros request (-> & _ & _)%new_request_Ok. apply wp_bind.
  eapply wp_weaken; [eapply (dispatch_stopped t sent h _ (confirm_call (version t) d)); [by split|done|done|done|done]| |done].
  cbv beta. intros [status output] w1 Hat1. apply wp_bind, protocol_checked_wp; [|apply confirm_reply_raises|].
  - intros _ _. apply wp_bind. eapply update_wp; [exact Hat1|]. intros w2 H4. apply wp_ret. eexists _, _.
    split; [exact H4|]. split; [by apply advanced_snoc|done].
  - intros _ _. eapply update_wp; [exact Hat1|]. intros w2 H4 _. eapply stopped_at; [exact H4|]. by apply advanced_snoc.
Qed.
End calls.

(** ** The single capture *)

Section capture.
Context {L : Type} `{Hlease : Lease L}.
#[local] Abbreviation world := (adapter BioLockoutBridgeTransport L).

Lemma bb_same_generation_wp t sent h (Q : unit → world → Prop) E w : adapter_at t sent h w →
  (∀ w', adapter_at t sent h w' → Q tt w') → (∀ e w', adapter_at t sent h w' → E e w') → wp bb_same_generation Q E w.
Proof.
  intros Hat HQ HE. unfold bb_same_generation. apply wp_bind, wp_self.
  eapply on_lease_wp; [exact Hat| |exact HE]. intros []. exact (HQ).
Qed.

Lemma bb_handler_wp poison e (Q : nat → world → Prop) E w : wp poison (λ _ w', ∀ e, E e w') E w →
  wp (bb_handler poison e) Q E w.
Proof.
  intros Hp. unfold bb_handler. apply wp_bind. eapply wp_weaken; [exact Hp| |done]. cbv beta. intros _ w' HE.
  destruct (bool_decide _); [apply HE|]. destruct (bool_decide _); apply HE.
Qed.

Lemma bb_poison_wp g st sent h (Q : unit → world → Prop) E w : adapter_at (BioLockoutBridge g st) sent h w →
  (∀ w', adapter_at (BioLockoutBridge g BIOLOCKOUT_POISONED) sent h w' → Q tt w') → wp bb_poison Q E w.
Proof.
  intros (Hs & Hrest) HQ. unfold bb_poison, bb_set_state. apply wp_bind, wp_assign, wp_catch. cbn [any_class].
  eapply on_lease_wp with (s := BioLockoutBridge g BIOLOCKOUT_POISONED); [split; [by cbn; rewrite Hs|exact Hrest]| |];
    intros ? w' H'; [destruct a; by apply HQ|by apply wp_ret, HQ].
Qed.

Lemma parse_save_reply_Ok status output b : BioLockout.parse_save_reply status output = Ok b →
  BioLockout.MIN_SECURE_BLOB_LENGTH ≤ Z.of_nat (length b) ≤ BioLockout.OUTPUT_CAPACITY.
Proof.
  unfold BioLockout.parse_save_reply. intros (? & _ & H)%bind_Ok. destruct output; try discriminate.
  apply bind_Ok in H as (? & Hl%fail_if_Ok & (? & _ & <-%Ok_inj)%bind_Ok). lia.
Qed.

Lemma bb_capture_wp g st sent h w : adapter_at (BioLockoutBridge g st) sent h w →
  wp capture
    (λ r w', st = READY ∧ (r ∉ dom h) ∧ ∃ b, adapter_at (BioLockoutBridge g CAPTURED) (sent ++ [capture_call]) (<[r := b]> h) w'
       ∧ BioLockout.MIN_SECURE_BLOB_LENGTH ≤ Z.of_nat (length b) ≤ BioLockout.OUTPUT_CAPACITY)
    (λ _ w', adapter_at (BioLockoutBridge g st) sent h w'
       ∨ st = READY ∧ adapter_at (BioLockoutBridge g BIOLOCKOUT_POISONED) (sent ++ [capture_call]) h w') w.
Proof.
  intros Hat. unfold capture. apply wp_bind, wp_self. destruct Hat as (Hs & Hrest). rewrite Hs. cbn [bb_state].
  assert (adapter_at (BioLockoutBridge g st) sent h w) as Hat by (by split).
  apply wp_bind, wp_throw_if; [by left|]. intros _. apply wp_bind, wp_throw_if; [by left|].
  intros Hr%negb_false_iff%bool_decide_eq_true. subst st. cbv zeta. apply wp_bind, wp_catch. cbn [any_class].
  eapply bb_same_generation_wp; [exact Hat| |].
  2:{ intros e w1 H1. apply wp_bind, bb_handler_wp. apply wp_ret. by left. }
  intros w1 H1. apply wp_catch. cbn [any_class]. set (q := Biometric _ _ _ _ _). change q with capture_call. clear q.
  assert (∀ st e w', adapter_at (BioLockoutBridge g st) (sent ++ [capture_call]) h w' →
    wp (bb_handler bb_poison e)
      (λ r w', READY = READY ∧ (r ∉ dom h) ∧ ∃ b, adapter_at (L := L) (BioLockoutBridge g CAPTURED) (sent ++ [capture_call]) (<[r := b]> h) w'
         ∧ BioLockout.MIN_SECURE_BLOB_LENGTH ≤ Z.of_nat (length b) ≤ BioLockout.OUTPUT_CAPACITY)
      (λ _ w', adapter_at (BioLockoutBridge g READY) sent h w'
         ∨ READY = READY ∧ adapter_at (BioLockoutBridge g BIOLOCKOUT_POISONED) (sent ++ [capture_call]) h w') w') as Hp.
  { intros st e w' H'. apply bb_handler_wp. eapply bb_poison_wp; [exact H'|]. intros w2 H2 _. by right. }
  apply wp_bind. eapply send_wp; [exact H1| |intros e w2 H2; by eapply Hp]. intros answer w2 H2.
  apply wp_bind. eapply bb_same_generation_wp; [exact H2| |intros e w3 H3; by eapply Hp]. intros w3 H3.
  destruct answer as [[|reply [|events [|]]]|]; try (apply wp_throw; by eapply Hp).
  apply wp_bind, wp_throw_if; [intros _; by eapply Hp|]. intros _.
  destruct reply as [| | | | |[|x [|output [|]]]|]; try (apply wp_throw; by eapply Hp).
  apply wp_bind, wp_pure; [|intros e _; by eapply Hp]. intros b Hb%parse_save_reply_Ok.
  apply wp_bind. eapply bytearray_wp; [exact H3|]. intros r w4 Hr H4. apply wp_bind. unfold bb_set_state.
  apply wp_assign, wp_ret. split; [done|]. split; [done|]. exists b. split; [|exact Hb].
  destruct H4 as (Hs4 & H4). split; [by cbn; rewrite Hs4|exact H4].
Qed.
End capture.

(** ** The router *)

Section router.
Context {L : Type} `{Hlease : Lease L}.
#[local] Abbreviation router := EnrollmentPersistenceBridgeTransport.
#[local] Abbreviation world := (adapter router L).
Implicit Types (t : router) (sent : list biometric_call) (h : heap).

(** The commands sent are those of the two transports, as far as they are. *)
Record routed (v : Z) t sent : Prop := {
  ro_version : version (rt_catacomb t) = v;
  ro_catacomb : transactions (rt_catacomb t) (catacomb_calls sent);
  ro_capture : captures sent = match bb_state (rt_biolockout t) with READY => [] | _ => [capture_call] end;
}.

(** The state between the calls: the Catacomb transaction of the component that
    is routed to it. *)
Definition router_inv (v : Z) (w : world) : Prop := routed v (ad_self w) (ad_sent w).

Lemma routed_catacomb v t sent c sent' : routed v t sent → advanced (rt_catacomb t) sent c sent' →
  routed v (t <| rt_catacomb := c |>) sent'.
Proof. intros [Hv Hc Hb] [Hv' Ht Hcap]. split; cbn; [by rewrite Hv'|done|by rewrite Hcap]. Qed.

Lemma on_catacomb_wp {A} (m : act (adapter CatacombBridgeTransport L) A) t sent h (Q : A → world → Prop) E w :
  adapter_at t sent h w →
  wp m (λ a w', ∃ c sent' h', adapter_at c sent' h' w' ∧ ∀ w2, adapter_at (t <| rt_catacomb := c |>) sent' h' w2 → Q a w2)
    (λ e w', ∃ c sent' h', adapter_at c sent' h' w' ∧ ∀ w2, adapter_at (t <| rt_catacomb := c |>) sent' h' w2 → E e w2)
    (Adapter (rt_catacomb t) (ad_lease w) sent h) →
  wp (on_catacomb m) Q E w.
Proof.
  intros (Hs & Hsent & Hh) Hm. unfold wp, on_catacomb in *. rewrite Hs, Hsent, Hh.
  destruct (m _) as [[a|e] c]; destruct Hm as (c' & sent' & h' & (Hc & Hs' & Hh') & HQ); apply HQ;
    (split; [cbn; by rewrite Hc|by split]).
Qed.

Lemma on_biolockout_wp {A} (m : act (adapter BioLockoutBridgeTransport L) A) t sent h (Q : A → world → Prop) E w :
  adapter_at t sent h w →
  wp m (λ a w', ∃ c sent' h', adapter_at c sent' h' w' ∧ ∀ w2, adapter_at (t <| rt_biolockout := c |>) sent' h' w2 → Q a w2)
    (λ e w', ∃ c sent' h', adapter_at c sent' h' w' ∧ ∀ w2, adapter_at (t <| rt_biolockout := c |>) sent' h' w2 → E e w2)
    (Adapter (rt_biolockout t) (ad_lease w) sent h) →
  wp (on_biolockout m) Q E w.
Proof.
  intros (Hs & Hsent & Hh) Hm. unfold wp, on_biolockout in *. rewrite Hs, Hsent, Hh.
  destruct (m _) as [[a|e] c]; destruct Hm as (c' & sent' & h' & (Hc & Hs' & Hh') & HQ); apply HQ;
    (split; [cbn; by rewrite Hc|by split]).
Qed.

Lemma require_route_wp t sent h s msg (Q : unit → world → Prop) E w : adapter_at t sent h w →
  (rt_state t = s → Q tt w) → (∀ e, E e w) → wp (require_route s msg) Q E w.
Proof.
  intros (Hs & _) HQ HE. unfold require_route. apply wp_bind, wp_self. rewrite Hs.
  apply wp_throw_if; [done|]. intros Hx%negb_false_iff%bool_decide_eq_true. by apply HQ.
Qed.

Lemma route_wp t sent h s (Q : unit → world → Prop) E w : adapter_at t sent h w →
  (∀ w', adapter_at (t <| rt_state := s |>) sent h w' → Q tt w') → wp (route s) Q E w.
Proof. intros (Hs & Hr) HQ. apply wp_assign, HQ. split; [by cbn; rewrite Hs|exact Hr]. Qed.

(** What a failed call leaves. *)
Definition router_stopped v h (w : world) : Prop :=
  router_inv v w ∧ ∀ r b, ad_heap w !! r = Some b → h !! r = Some b ∨ b = wiped b.

Lemma router_stopped_at v t sent h w : adapter_at t sent h w → routed v t sent → router_stopped v h w.
Proof.
  intros (Hs & Hsent & Hh) Hr. split; [unfold router_inv; by rewrite Hs, Hsent|]. rewrite Hh. by left.
Qed.

(** The expectation of the length that [prepare] answered. *)
Definition expects t d n : Prop :=
  if is_biolockout d then n = BioLockout.OUTPUT_CAPACITY else cb_expected_length (rt_catacomb t) = Some n.

Lemma router_prepare_wp v t sent h d w : adapter_at t sent h w → routed v t sent →
  wp (prepare d)
    (λ a w', router_inv v w' ∧ ad_heap w' = h ∧ a.1 = 0 ∧ 0 < a.2 ≤ MAX_SECURE_BLOB_SIZE ∧ expects (ad_self w') d a.2)
    (λ _ w', router_stopped v h w') w.
Proof.
  intros Hat Hr. unfold prepare. apply wp_bind. eapply require_route_wp; [exact Hat| |intros e; by eapply router_stopped_at].
  intros Hidle. unfold expects. apply wp_if; intros Hd.
  - apply wp_bind. eapply route_wp; [exact Hat|]. intros w1 (Hs & Hsent & Hh). apply wp_ret. rewrite Hd.
    split; [unfold router_inv; rewrite Hs, Hsent; by destruct Hr; split|]. split; [exact Hh|]. split; [done|]. split; [|done].
    unfold BioLockout.OUTPUT_CAPACITY, MAX_SECURE_BLOB_SIZE. cbn [snd]. lia.
  - rewrite Hd. apply wp_bind. eapply route_wp; [exact Hat|]. intros w1 H1. apply wp_catch. cbn [any_class].
    assert (routed v (t <| rt_state := ROUTE_CATACOMB |>) sent) as Hr' by (by destruct Hr; split).
    eapply on_catacomb_wp; [exact H1|].
    eapply wp_weaken; [apply cb_prepare_wp; [by split|exact (ro_catacomb _ _ _ Hr)]| |]; cbv beta.
    + intros [st n] w2 (c & sent' & H2 & Hadv & Hst & Hn & _ & _ & He). exists c, sent', h. split; [exact H2|].
      intros w3 (Hs & Hsent & Hh). split.
      { unfold router_inv. rewrite Hs, Hsent. exact (routed_catacomb _ (t <| rt_state := ROUTE_CATACOMB |>) _ _ _ Hr' Hadv). }
      split; [exact Hh|]. split; [done|]. split; [done|]. by rewrite Hs.
    + intros e w2 (c & sent' & h' & H2 & Hadv & Hh'). exists c, sent', h'. split; [exact H2|]. intros w3 H3.
      apply wp_bind. eapply route_wp; [exact H3|]. intros w4 (Hs & Hsent & Hh). split.
      * unfold router_inv. rewrite Hs, Hsent. apply (routed_catacomb v t sent) in Hadv; [|exact Hr]. by destruct Hadv; split.
      * by rewrite Hh.
Qed.

Lemma router_complete_wp v t sent h d w : adapter_at t sent h w → routed v t sent →
  wp (complete d)
    (λ a w', router_inv v w' ∧ a.1 = 0 ∧ (a.2 ∉ dom h) ∧ ∃ b, ad_heap w' = <[a.2 := b]> h ∧ b ≠ []
       ∧ ∀ n, expects t d n → if is_biolockout d then Z.of_nat (length b) ≤ n else Z.of_nat (length b) = n)
    (λ _ w', router_stopped v h w') w.
Proof.
  intros Hat Hr. unfold complete, expects. apply wp_if; intros Hd; rewrite Hd.
  - apply wp_bind. eapply require_route_wp; [exact Hat| |intros e; by eapply router_stopped_at]. intros _.
    apply wp_bind. eapply on_biolockout_wp; [exact Hat|]. destruct (rt_biolockout t) as [g st] eqn:Hb.
    eapply wp_weaken; [apply (bb_capture_wp g st sent h); by split| |]; cbv beta.
    + intros r w1 (-> & Hfresh & b & H1 & Hlen). eexists _, _, _. split; [exact H1|]. intros w2 H2.
      apply wp_bind. eapply route_wp; [exact H2|]. intros w3 (Hs & Hsent & Hh). apply wp_ret. split.
      { unfold router_inv. rewrite Hs, Hsent. destruct Hr as [Hv Ht Hc]. rewrite Hb in Hc. cbn [bb_state] in Hc. split; cbn.
        - exact Hv.
        - unfold catacomb_calls. by rewrite filter_app, filter_cons_False, app_nil_r by (by intros []).
        - unfold captures in *. by rewrite filter_app, filter_cons_True, Hc by done. }
      split; [done|]. split; [exact Hfresh|]. exists b. split; [exact Hh|]. split.
      { intros ->. unfold BioLockout.MIN_SECURE_BLOB_LENGTH in Hlen. cbn in Hlen. lia. }
      intros n ->. apply Hlen.
    + intros e w1 [H1|[-> H1]]; (eexists _, _, _; split; [exact H1|]); intros w2 H2; (eapply router_stopped_at; [exact H2|]);
        destruct Hr as [Hv Ht Hc]; rewrite Hb in Hc; split; cbn; try done.
      * unfold catacomb_calls. by rewrite filter_app, filter_cons_False, app_nil_r by (by intros []).
      * cbn [bb_state] in Hc. unfold captures in *. by rewrite filter_app, filter_cons_True, Hc by done.
  - apply wp_bind. eapply require_route_wp; [exact Hat| |intros e; by eapply router_stopped_at]. intros _.
    eapply on_catacomb_wp; [exact Hat|].
    eapply wp_weaken; [apply cb_complete_wp; [by split|exact (ro_catacomb _ _ _ Hr)]| |]; cbv beta.
    + intros [st r] w1 (c & sent' & b & H1 & Hadv & Hst & Hfresh & He & Hlen). eexists _, _, _. split; [exact H1|].
      intros w2 (Hs & Hsent & Hh). split; [unfold router_inv; rewrite Hs, Hsent; exact (routed_catacomb _ _ _ _ _ Hr Hadv)|].
      split; [done|]. split; [done|]. exists b. split; [exact Hh|]. split; [intros ->; cbn in Hlen; lia|].
      cbn [ad_self] in He. intros n. rewrite He. by intros [=].
    + intros e w1 (c & sent' & h' & H1 & Hadv & Hh'). exists c, sent', h'. split; [exact H1|]. intros w2 (Hs & Hsent & Hh).
      split; [unfold router_inv; rewrite Hs, Hsent; exact (routed_catacomb _ _ _ _ _ Hr Hadv)|]. by rewrite Hh.
Qed.

Lemma router_confirm_wp v t sent h d w : adapter_at t sent h w → routed v t sent →
  wp (confirm d) (λ a w', router_inv v w' ∧ ad_heap w' = h ∧ a = 0) (λ _ w', router_stopped v h w') w.
Proof.
  intros Hat Hr. unfold confirm. apply wp_if; intros _.
  - apply wp_bind. eapply require_route_wp; [exact Hat| |intros e; by eapply router_stopped_at]. intros _.
    apply wp_bind. eapply route_wp; [exact Hat|]. intros w1 (Hs & Hsent & Hh). apply wp_ret. split; [|done].
    unfold router_inv. rewrite Hs, Hsent. by destruct Hr; split.
  - apply wp_bind. eapply require_route_wp; [exact Hat| |intros e; by eapply router_stopped_at]. intros _.
    apply wp_bind. eapply on_catacomb_wp; [exact Hat|].
    eapply wp_weaken; [apply cb_confirm_wp; [by split|exact (ro_catacomb _ _ _ Hr)]| |]; cbv beta.
    + intros a w1 (c & sent' & H1 & Hadv & ->). eexists _, _, _. split; [exact H1|]. intros w2 H2.
      apply wp_bind. eapply route_wp; [exact H2|]. intros w3 (Hs & Hsent & Hh). apply wp_ret. split; [|done].
      unfold router_inv. rewrite Hs, Hsent. apply (routed_catacomb v t sent) in Hadv; [|exact Hr]. by destruct Hadv; split.
    + intros e w1 (c & sent' & h' & H1 & Hadv & Hh'). exists c, sent', h'. split; [exact H1|]. intros w2 (Hs & Hsent & Hh).
      split; [unfold router_inv; rewrite Hs, Hsent; exact (routed_catacomb _ _ _ _ _ Hr Hadv)|]. by rewrite Hh.
Qed.

(** *** Sequences of calls *)

Inductive transport_call := TPrepare (d : bytes) | TComplete (d : bytes) | TConfirm (d : bytes).
Definition after_call (c : transport_call) (w : world) : world :=
  match c with TPrepare d => (prepare d w).2 | TComplete d => (complete d w).2 | TConfirm d => (confirm d w).2 end.
Definition after_calls (calls : list transport_call) (w : world) : world := foldl (λ w c, after_call c w) w calls.

Lemma inv_at v w : router_inv v w → adapter_at (ad_self w) (ad_sent w) (ad_heap w) w ∧ routed v (ad_self w) (ad_sent w).
Proof. by split. Qed.

Lemma after_call_inv v c w : router_inv v w → router_inv v (after_call c w).
Proof.
  intros [Hat Hr]%inv_at. destruct c as [d|d|d]; cbn [after_call].
  - pose proof (router_prepare_wp v _ _ _ d w Hat Hr) as H. unfold wp in H. by destruct (prepare d w) as [[]]; destruct H.
  - pose proof (router_complete_wp v _ _ _ d w Hat Hr) as H. unfold wp in H. by destruct (complete d w) as [[]]; destruct H.
  - pose proof (router_confirm_wp v _ _ _ d w Hat Hr) as H. unfold wp in H. by destruct (confirm d w) as [[]]; destruct H.
Qed.

Lemma after_calls_inv v calls w : router_inv v w → router_inv v (after_calls calls w).
Proof. revert w. induction calls as [|c cs IH]; intros w Hw; [done|]. by apply IH, after_call_inv. Qed.

(** A poisoned transport sends nothing. *)
Definition cb_dead (w : world) : Prop := cb_state (rt_catacomb (ad_self w)) = POISONED.

Definition still_dead (sent : list biometric_call) (w : world) : Prop :=
  cb_dead w ∧ catacomb_calls (ad_sent w) = catacomb_calls sent.

Lemma dead_catacomb_wp {A} s op (k : unit → act (adapter CatacombBridgeTransport L) A) (Q : A → world → Prop) E w :
  cb_dead w → (∀ e, E e w) → wp (on_catacomb (require_state s op ≫= k)) Q E w.
Proof.
  unfold cb_dead. intros Hdead HE. unfold wp, on_catacomb, require_state, mbind, act_bind, self. cbn [ad_self]. rewrite Hdead.
  rewrite bool_decide_eq_true_2 by done. cbn [throw_if throw]. destruct w as [[] ? ? ?]. apply HE.
Qed.

Lemma dead_capture_wp (Q : nat → world → Prop) sent w : still_dead sent w →
  (∀ r w', still_dead sent w' → Q r w') → wp (on_biolockout capture) Q (λ _ w', still_dead sent w') w.
Proof.
  intros [Hd Hc] HQ. eapply on_biolockout_wp; [by split|]. destruct (rt_biolockout (ad_self w)) as [g st] eqn:Hb.
  assert (∀ c sent' h' w2, catacomb_calls sent' = catacomb_calls (ad_sent w) →
    adapter_at ((ad_self w) <| rt_biolockout := c |>) sent' h' w2 → still_dead sent w2) as Hat.
  { intros c sent' h' w2 Hs (Hs2 & Hsent2 & _). split; [unfold cb_dead; by rewrite Hs2|by rewrite Hsent2, Hs]. }
  assert (catacomb_calls (ad_sent w ++ [capture_call]) = catacomb_calls (ad_sent w)) as Hcap.
  { unfold catacomb_calls. by rewrite filter_app, filter_cons_False, app_nil_r by (by intros []). }
  eapply wp_weaken; [apply (bb_capture_wp g st (ad_sent w) (ad_heap w)); by split| |]; cbv beta.
  - intros r w1 (-> & _ & b & H1 & _). eexists _, _, _. split; [exact H1|]. intros w2 H2. apply HQ. exact (Hat _ _ _ _ Hcap H2).
  - intros e w1 [H1|[-> H1]]; (eexists _, _, _; split; [exact H1|]); intros w2 H2;
      [exact (Hat _ _ _ _ eq_refl H2)|exact (Hat _ _ _ _ Hcap H2)].
Qed.

Lemma dead_call c w : cb_dead w → still_dead (ad_sent w) (after_call c w).
Proof.
  intros Hd. assert (still_dead (ad_sent w) w) as Hw by (by split).
  assert (∀ s w', still_dead (ad_sent w) w' → still_dead (ad_sent w) (w' <| ad_self := (ad_self w') <| rt_state := s |> |>)) as Hroute
    by (intros s w' [? ?]; by split).
  assert (∀ A (m : act world A), wp m (λ _ w', still_dead (ad_sent w) w') (λ _ w', still_dead (ad_sent w) w') w →
    still_dead (ad_sent w) (m w).2) as Hrun by (intros A m; unfold wp; by destruct (m w) as [[]]).
  assert (∀ A s msg (k : unit → act world A), wp (k tt) (λ _ w', still_dead (ad_sent w) w') (λ _ w', still_dead (ad_sent w) w') w →
    wp (require_route s msg ≫= k) (λ _ w', still_dead (ad_sent w) w') (λ _ w', still_dead (ad_sent w) w') w) as Hreq.
  { intros A s msg k Hk. apply wp_bind. eapply require_route_wp; [by split| |done]. intros _. exact Hk. }
  destruct c as [d|d|d]; cbn [after_call]; apply Hrun.
  - unfold prepare. apply Hreq. apply wp_if; intros _; apply wp_bind, wp_assign.
    + by apply wp_ret, Hroute.
    + apply wp_catch. apply dead_catacomb_wp; [by apply Hroute|]. intros e. cbn [any_class]. apply wp_bind, wp_assign.
      by apply Hroute, Hroute.
  - unfold complete. apply wp_if; intros _; apply Hreq.
    + apply wp_bind, dead_capture_wp; [done|]. intros r w' Hw'. apply wp_bind, wp_assign. by apply wp_ret, Hroute.
    + by apply dead_catacomb_wp.
  - unfold confirm. apply wp_if; intros _; apply Hreq.
    + apply wp_bind, wp_assign. by apply wp_ret, Hroute.
    + apply wp_bind. by apply dead_catacomb_wp.
Qed.

Lemma dead_calls calls w : cb_dead w → catacomb_calls (ad_sent (after_calls calls w)) = catacomb_calls (ad_sent w).
Proof.
  revert w. induction calls as [|c cs IH]; intros w Hw; [done|]. destruct (dead_call c w Hw) as [H1 H2].
  unfold after_calls in *. cbn [foldl]. by rewrite IH, H2.
Qed.

Lemma new_router_Ok (pv gen : value) (l l' : L) t : new_router pv gen l = (Ok t, l') → ∃ v, pv = VInt v ∧ v ∈ [1; 2]
  ∧ version (rt_catacomb t) = v ∧ cb_state (rt_catacomb t) = IDLE ∧ bb_state (rt_biolockout t) = READY ∧ rt_state t = ROUTE_IDLE.
Proof.
  unfold new_router. intros (c & l1 & Hc & H)%act_bind_Ok. apply act_bind_Ok in H as (b & l2 & Hb & [= <- _]).
  unfold new_catacomb_bridge in Hc. apply act_bind_Ok in Hc as (? & ? & (Hv & _)%throw_if_Ok & H).
  apply act_bind_Ok in H as (g & ? & _ & (? & ? & _ & [= <- _])%act_bind_Ok).
  unfold new_biolockout_bridge in Hb. apply act_bind_Ok in Hb as (g' & ? & _ & (? & ? & _ & [= <- _])%act_bind_Ok).
  apply negb_false_iff, andb_prop in Hv as [Hi Hv%bool_decide_eq_true]. destruct pv as [| |v| | | |]; try discriminate.
  by exists v.
Qed.

Lemma new_router_inv (v : Z) gen (l l' : L) t h : new_router (VInt v) gen l = (Ok t, l') → router_inv v (Adapter t l' [] h).
Proof.
  intros (v' & [= <-] & _ & Hv & Hi & Hb & _)%new_router_Ok. split; cbn.
  - exact Hv.
  - exists [], []. split; [done|]. split; [done|]. unfold in_progress. by rewrite Hi.
  - by rewrite Hb.
Qed.

(** C14: Whatever the operation asks, in whatever order, and whatever the lease
    answers: the Catacomb commands that a fresh router sends are complete
    transactions - prepare, complete with the length that was prepared, confirm,
    of one descriptor - followed by the beginning of at most one more; the
    bio-lockout record is captured at most once; and once the Catacomb
    transport is poisoned, it sends nothing more. *)
Theorem router_sends_transactions (v : Z) gen (l l' : L) t h calls more :
  new_router (VInt v) gen l = (Ok t, l') →
  let w := after_calls calls (Adapter t l' [] h) in
  (∃ xs part, catacomb_calls (ad_sent w) = (xs ≫= transaction v) ++ part ∧ Forall (saved_ok v) xs
     ∧ (part = [] ∨ ∃ x, saved_ok v x ∧ part `prefix_of` transaction v x))
  ∧ captures (ad_sent w) `prefix_of` [capture_call]
  ∧ (cb_state (rt_catacomb (ad_self w)) = POISONED →
     catacomb_calls (ad_sent (after_calls more w)) = catacomb_calls (ad_sent w)).
Proof.
  intros Hnew w. pose proof (after_calls_inv v calls _ (new_router_inv v gen l l' t h Hnew)) as [Hv Ht Hc]. fold w in Hv, Ht, Hc.
  split; [|split; [|by apply dead_calls]].
  - destruct Ht as (xs & part & Hs & Hxs & Hin). rewrite Hv in *. exists xs, part. split; [exact Hs|]. split; [exact Hxs|].
    unfold in_progress in Hin. rewrite Hv in Hin. destruct (cb_state _).
    + by left.
    + destruct Hin as (x & _ & _ & Hx & ->). right. exists x. split; [exact Hx|]. by eexists.
    + destruct Hin as (x & _ & Hx & ->). right. exists x. split; [exact Hx|]. by eexists.
    + by right.
  - rewrite Hc. destruct (bb_state _); [apply prefix_nil|done..].
Qed.

(** *** The router as the transport of an operation *)

(** The state that the calls of an operation leave. *)
Definition replayed (w0 : world) (past : list save_event) : world :=
  after_calls (omap (λ e, match e with
                          | EvPrepare d => Some (TPrepare d) | EvComplete d => Some (TComplete d)
                          | EvConfirm d => Some (TConfirm d) | _ => None
                          end) past) w0.

Definition router_transport (w0 : world) : PersistenceTransport := {|
  pt_prepare past d := (λ a, (VInt a.1, VInt a.2)) <$> (prepare d (replayed w0 past)).1;
  pt_complete past d h :=
    let '(r, w) := complete d ((replayed w0 past) <| ad_heap := h |>) in ((λ a, (VInt a.1, Buffer a.2)) <$> r, ad_heap w);
  pt_confirm past d := VInt <$> (confirm d (replayed w0 past)).1;
|}.
End router.

(** What the operations expect of a transport: every answer passes their
    checks, a completed record has the length that was prepared, and the
    buffers of others are left alone. *)
Record transport_contract (transport : PersistenceTransport) : Prop := {
  tc_tidy : tidy_transport transport;
  tc_prepare past d st n : pt_prepare transport past d = Ok (st, n) → accepted st = true ∧ blob_length_ok n = true;
  tc_complete past d h st o h' : pt_complete transport past d h = (Ok (st, o), h') →
    accepted st = true ∧ ∃ r b, o = Buffer r ∧ h !! r = None ∧ h' = <[r := b]> h ∧ b ≠ [];
  tc_length past d h st n st' r h' b : pt_prepare transport past d = Ok (st, VInt n) →
    pt_complete transport (past ++ [EvPrepare d]) d h = (Ok (st', Buffer r), h') → h' !! r = Some b →
    if is_biolockout d then Z.of_nat (length b) ≤ n else Z.of_nat (length b) = n;
  tc_confirm past d st : pt_confirm transport past d = Ok st → accepted st = true;
}.

Section contract.
Context {L : Type} `{Hlease : Lease L}.
#[local] Abbreviation world := (adapter EnrollmentPersistenceBridgeTransport L).

Lemma replayed_snoc (w0 : world) past d : replayed w0 (past ++ [EvPrepare d]) = (prepare d (replayed w0 past)).2.
Proof. unfold replayed, after_calls. by rewrite omap_app, foldl_app. Qed.

(** Any call of [complete], over any heap. *)
Lemma router_complete v (w : world) d h : router_inv v w →
  match complete d (w <| ad_heap := h |>) with
  | (Ok a, w') => a.1 = 0 ∧ h !! a.2 = None ∧ ∃ b, ad_heap w' = <[a.2 := b]> h ∧ b ≠ []
      ∧ ∀ n, expects (ad_self w) d n → if is_biolockout d then Z.of_nat (length b) ≤ n else Z.of_nat (length b) = n
  | (Raise _, w') => ∀ r b, ad_heap w' !! r = Some b → h !! r = Some b ∨ b = wiped b
  end.
Proof.
  intros Hinv. pose proof (router_complete_wp v (ad_self w) (ad_sent w) h d (w <| ad_heap := h |>) ltac:(by split) Hinv) as H.
  unfold wp in H. destruct (complete d _) as [[a|e] w']; [|apply H].
  destruct H as (_ & Ha & Hr%not_elem_of_dom & Hb). by split.
Qed.

(** C13: The router of an enrolment is a transport that the operations may rely
    on, over any lease and after any calls: every answer it gives passes the
    checks of the operations, the record it completes has the length that it
    prepared (at most that length for the bio-lockout record), and it touches
    no buffer but the one it returns - one that it has to give up is wiped. *)
Theorem router_keeps_contract (v : Z) gen (l l' : L) t h :
  new_router (VInt v) gen l = (Ok t, l') → transport_contract (router_transport (Adapter t l' [] h)).
Proof.
  intros Hnew. set (w0 := Adapter t l' [] h).
  assert (∀ past, router_inv v (replayed w0 past)) as Hinv by (intros past; by eapply after_calls_inv, new_router_inv).
  split.
  - intros past d hp. cbn [pt_complete router_transport]. pose proof (router_complete v _ d hp (Hinv past)) as H.
    destruct (complete d _) as [[a|e] w']; cbn [fmap result_fmap snd]; [|exact H].
    destruct H as (_ & _ & b & -> & _). intros r Hr. rewrite lookup_insert_ne; [done|]. intros <-. by apply Hr.
  - intros past d st n. cbn [pt_prepare router_transport].
    pose proof (router_prepare_wp v _ _ _ d (replayed w0 past) (proj1 (inv_at _ _ (Hinv past))) (Hinv past)) as H. unfold wp in H.
    destruct (prepare d _) as [[[a1 a2]|e] w']; [|discriminate]. destruct H as (_ & _ & H1 & H2 & _). cbn [fst snd] in *.
    intros [=<- <-]. rewrite H1. split; [done|]. unfold blob_length_ok. unfold MAX_SECURE_BLOB_SIZE in H2. lia.
  - intros past d hp st o h'. cbn [pt_complete router_transport]. pose proof (router_complete v _ d hp (Hinv past)) as H.
    destruct (complete d _) as [[a|e] w']; [|discriminate]. destruct H as (Ha & Hr & b & Hh & Hb & _). intros [=<- <- <-].
    rewrite Ha. split; [done|]. by exists a.2, b.
  - intros past d hp st n st' r h' b Hprep. cbn [pt_complete pt_prepare router_transport] in *.
    pose proof (router_prepare_wp v _ _ _ d (replayed w0 past) (proj1 (inv_at _ _ (Hinv past))) (Hinv past)) as H. unfold wp in H.
    pose proof (router_complete v _ d hp (Hinv (past ++ [EvPrepare d]))) as Hc. rewrite replayed_snoc in *.
    destruct (prepare d _) as [[[a1 a2]|e] w1]; [|discriminate]. destruct H as (_ & _ & _ & _ & Hexp). cbn [fst snd] in *.
    injection Hprep as _ <-. destruct (complete d _) as [[a|e] w']; [|discriminate]. destruct Hc as (_ & _ & b' & Hh & _ & Hlen).
    intros [=_ <- <-]. rewrite Hh, lookup_insert_eq. intros [=<-]. by apply Hlen.
  - intros past d st. cbn [pt_confirm router_transport].
    pose proof (router_confirm_wp v _ _ _ d (replayed w0 past) (proj1 (inv_at _ _ (Hinv past))) (Hinv past)) as H. unfold wp in H.
    destruct (confirm d _) as [[a|e] w']; [|discriminate]. destruct H as (_ & _ & ->). by intros [=<-].
Qed.
End contract.
