(* ===== verification/EnrollmentBridge.v ===== *)
(** * The enrolment adapter ([src/src/t2_enrollment_bridge.py])

    The transport of one enrolment over a lease of the connection: a start, the
    continuations and at most one cancellation, and the queue of the service
    events that came with the replies. *)
From Stdlib Require Import QArith_base.
From S2P Require Import Prelude PyValue Effect OperationWorld Bytes BridgeWire SaveWorld BridgeLease EnrollmentProtocol.

#[local] Open Scope Z_scope.

Definition COMMAND_CANCEL : Z := 0x0C.
Definition PAYLOADLESS_COMMAND_VERSION : Z := 1.
Definition BRIDGE_SERVICE_STATUS : Z := 0xE3FF8000.

Inductive EnrollmentBridgeState := EB_IDLE | EB_ACTIVE | EB_CANCEL_REQUESTED | EB_START_REJECTED | EB_POISONED.
#[export] Instance EnrollmentBridgeState_eq_dec : EqDecision EnrollmentBridgeState.
Proof. solve_decision. Defined.

Record EnrollmentBridgeTransport := EnrollmentBridge {
  eb_protocol_version : Z;
  eb_connection_generation : string;
  eb_state : EnrollmentBridgeState;
  eb_events : list bytes;
}.
#[export] Instance EnrollmentBridgeTransport_settable : Settable EnrollmentBridgeTransport := λ t,
  EnrollmentBridge (eb_protocol_version t) (eb_connection_generation t) (eb_state t) (eb_events t).

(** A [memoryview]. *)
Record memoryview := View { vw_ndim : Z; vw_itemsize : Z; vw_readonly : bool; vw_bytes : bytes }.

Section bridge.
Context {L : Type} `{Lease L}.
#[local] Abbreviation action := (act (adapter EnrollmentBridgeTransport L)).
#[local] Abbreviation eerr msg := (throw EnrollmentBridgeError msg).
#[local] Abbreviation eerr_if b msg := (throw_if b EnrollmentBridgeError msg).

(** [__init__] *)
Definition new_enrollment_bridge (protocol_version generation : value) : act L EnrollmentBridgeTransport :=
  _ ← eerr_if (negb (is_int protocol_version && bool_decide (int_value protocol_version ∈ [1; 2])))
        "enrollment protocol must be version 1 or 2";
  g ← pure (canonical_generation EnrollmentBridgeError "connection generation must be a UUID"
              "connection generation is not canonical" generation);
  _ ← leased EnrollmentBridgeError "Bridge lease belongs to another generation" g;
  mret (EnrollmentBridge (int_value protocol_version) g EB_IDLE []).

Definition update (f : EnrollmentBridgeTransport → EnrollmentBridgeTransport) : action unit :=
  assign (λ w, w <| ad_self := f (ad_self w) |>).
Definition poison : action unit := update (λ t, t <| eb_state := EB_POISONED |> <| eb_events := [] |>).

Definition require_state (allowed : list EnrollmentBridgeState) (operation : string) : action unit :=
  w ← self;
  let state := eb_state (ad_self w) in
  _ ← eerr_if (bool_decide (state = EB_POISONED)) "enrollment Bridge generation is poisoned; reconciliation is required";
  eerr_if (negb (bool_decide (state ∈ allowed))) ("enrollment " +:+ operation +:+ " is out of order").

Definition event_data (v : value) : result bytes :=
  match v with
  | VList [a; b; VBytes data; _; _] =>
      let size := Z.of_nat (calcsize SERVICE_HEADER) in
      let n := Z.of_nat (length (text data)) in
      _ ← fail_if ((a !=? VInt 9) || (b !=? VInt BRIDGE_SERVICE_STATUS) || negb ((size <=? n) && (n <=? size + MAX_EVENT_PAYLOAD)))
            EnrollmentBridgeError "Bridge service event is malformed";
      Ok (text data)
  | _ => raise EnrollmentBridgeError "Bridge service event is malformed"
  end.

Definition check_generation : action unit :=
  w ← self;
  on_lease (leased EnrollmentBridgeError "Bridge connection generation changed" (eb_connection_generation (ad_self w))).

(** [None], empty data and the sentinel stand for no output. *)
Definition empty_output (output : value) : bool :=
  is_none output || bool_decide (output = VBytes "") || is_biometric_nil_output output.

Definition reply_parts (reply : value) : result (Z * value) :=
  match reply with
  | VList (status :: ([] | [_]) as rest) =>
      match status with
      | VInt z =>
          _ ← fail_if (negb (status_range z)) EnrollmentBridgeError "Bridge command status is malformed";
          Ok (z, nth 1 rest VNone)
      | _ => raise EnrollmentBridgeError "Bridge command status is malformed"
      end
  | _ => raise EnrollmentBridgeError "Bridge command reply is malformed"
  end.

Definition dispatch (command : Z) (data : bytes) (poison_nonzero status_authoritative : bool) (wire_version : option Z)
    : action Z :=
  w ← self;
  let selected_version := default (eb_protocol_version (ad_self w)) wire_version in
  _ ← eerr_if (negb (bool_decide (selected_version ∈ [1; 2]))) "enrollment command wire version is invalid";
  poisoning EnrollmentBridgeError poison "enrollment Bridge dispatch failed; reconciliation is required"
    (_ ← check_generation;
     result ← send (Biometric command selected_version 0 data 0);
     _ ← check_generation;
     match result with
     | Tuple [reply; events] =>
         '(status, output) ← pure (reply_parts reply);
         _ ← eerr_if (negb (empty_output output)) "enrollment command returned unexpected data";
         match events with
         | VList events =>
             staged_events ← pure (mapM event_data events);
             _ ← eerr_if (status_authoritative && negb (status =? 0) && negb (bool_decide (staged_events = [])))
                   "rejected enrollment command also emitted service events";
             _ ← update (λ t, t <| eb_events := eb_events t ++ staged_events |>);
             _ ← (if status_authoritative && negb (status =? 0) && poison_nonzero then poison else mret tt);
             mret status
         | _ => eerr "Bridge command events are malformed"
         end
     | _ => eerr "Bridge command result is malformed"
     end).

(** [payload] is [None] for an object that is not a [memoryview]. *)
Definition start (payload : option memoryview) : action Z :=
  _ ← require_state [EB_IDLE] "start";
  w ← self;
  let expected_length : nat := if eb_protocol_version (ad_self w) =? 1 then 48%nat else 68%nat in
  match payload with
  | Some view =>
      _ ← eerr_if (negb (vw_ndim view =? 1) || negb (vw_itemsize view =? 1)
                   || negb (length (vw_bytes view) =? expected_length)%nat || negb (vw_readonly view))
            "enrollment start payload is invalid";
      status ← dispatch COMMAND_ENROLL_START (vw_bytes view) false true None;
      _ ← update (λ t, t <| eb_state := if status =? 0 then EB_ACTIVE else EB_START_REJECTED |>);
      mret status
  | None => eerr "enrollment start payload is invalid"
  end.

Definition continue_enrollment : action Z :=
  _ ← require_state [EB_ACTIVE] "continue";
  dispatch COMMAND_ENROLL_CONTINUE build_continue_payload false false (Some PAYLOADLESS_COMMAND_VERSION).

Definition cancel : action Z :=
  _ ← require_state [EB_ACTIVE] "cancel";
  status ← dispatch COMMAND_CANCEL [] true true (Some PAYLOADLESS_COMMAND_VERSION);
  _ ← (if status =? 0 then update (λ t, t <| eb_state := EB_CANCEL_REQUESTED |>) else mret tt);
  mret status.

(** [timeout] is [None] for what is not a number. *)
Definition next_event (timeout : option Q) : action (option bytes) :=
  _ ← require_state [EB_ACTIVE; EB_CANCEL_REQUESTED] "event receive";
  match timeout with
  | Some t =>
      _ ← eerr_if (Qle_bool t 0 || negb (Qle_bool t (5 # 1))) "enrollment event poll timeout is invalid";
      w ← self;
      match eb_events (ad_self w) with
      | event :: rest => _ ← update (λ t, t <| eb_events := rest |>); mret (Some event)
      | [] =>
          poisoning EnrollmentBridgeError poison
            "enrollment service-event receive failed; reconciliation is required"
            (_ ← check_generation;
             value ← on_lease (wait_service_event t);
             _ ← check_generation;
             if is_none value then mret None else (data ← pure (event_data value); mret (Some data)))
      end
  | None => eerr "enrollment event poll timeout is invalid"
  end.
End bridge.

(** ** The commands of one enrolment *)

Definition start_call (v : Z) (payload : bytes) : biometric_call := Biometric COMMAND_ENROLL_START v 0 payload 0.
Definition continue_call : biometric_call := Biometric COMMAND_ENROLL_CONTINUE 1 0 [] 0.
Definition cancel_call : biometric_call := Biometric COMMAND_CANCEL 1 0 [] 0.
Definition enrollment_script (v : Z) (payload : bytes) (k : nat) : list biometric_call :=
  start_call v payload :: replicate k continue_call ++ [cancel_call].

(** The commands sent, by the state of the adapter. *)
Definition commanded (t : EnrollmentBridgeTransport) (sent : list biometric_call) : Prop :=
  let v := eb_protocol_version t in
  match eb_state t with
  | EB_IDLE => sent = []
  | EB_ACTIVE => ∃ p k, length p = (if v =? 1 then 48%nat else 68%nat) ∧ sent = start_call v p :: replicate k continue_call
  | EB_CANCEL_REQUESTED | EB_START_REJECTED | EB_POISONED =>
      sent = [] ∨ ∃ p k, length p = (if v =? 1 then 48%nat else 68%nat) ∧ sent `prefix_of` enrollment_script v p k
  end.

Inductive enrollment_call := EStart (payload : option memoryview) | EContinue | ECancel | ENext (timeout : option Q).

Section facts.
Context {L : Type} `{Hlease : Lease L}.
#[local] Abbreviation world := (adapter EnrollmentBridgeTransport L).
Implicit Types (t : EnrollmentBridgeTransport) (sent : list biometric_call) (h : heap).

Definition after_call (c : enrollment_call) (w : world) : world :=
  match c with
  | EStart p => (start p w).2 | EContinue => (continue_enrollment w).2 | ECancel => (cancel w).2 | ENext q => (next_event q w).2
  end.
Definition after_calls (calls : list enrollment_call) (w : world) : world := foldl (λ w c, after_call c w) w calls.

#[local] Abbreviation with_state t s := (t <| eb_state := s |>).
#[local] Abbreviation dead t := (t <| eb_state := EB_POISONED |> <| eb_events := [] |>).

Lemma eb_update_wp t sent h f (Q : unit → world → Prop) E w : adapter_at t sent h w →
  (∀ w', adapter_at (f t) sent h w' → Q tt w') → wp (update f) Q E w.
Proof. intros (Hs & Hr) HQ. apply wp_assign, HQ. split; [by cbn; rewrite Hs|exact Hr]. Qed.

Lemma eb_require_state_wp t sent h allowed op (Q : unit → world → Prop) E w : adapter_at t sent h w →
  (eb_state t ∈ allowed → Q tt w) → (∀ e, E e w) → wp (require_state allowed op) Q E w.
Proof.
  intros (Hs & _) HQ HE. unfold require_state. apply wp_bind, wp_self. rewrite Hs. cbv zeta.
  apply wp_bind, wp_throw_if; [done|]. intros _. apply wp_throw_if; [done|].
  intros Hx%negb_false_iff%bool_decide_eq_true. by apply HQ.
Qed.

Lemma check_generation_wp t sent h (Q : unit → world → Prop) E w : adapter_at t sent h w →
  (∀ w', adapter_at t sent h w' → Q tt w') → (∀ e w', adapter_at t sent h w' → E e w') → wp check_generation Q E w.
Proof.
  intros Hat HQ HE. unfold check_generation. apply wp_bind, wp_self.
  eapply on_lease_wp; [exact Hat| |exact HE]. intros []. exact HQ.
Qed.

(** The state of the adapter may have more events, or is poisoned. *)
Definition dispatched (t : EnrollmentBridgeTransport) sent h (w : world) : Prop :=
  ∃ events, adapter_at (t <| eb_events := events |>) sent h w.

(** An exchange sends its command unless it is refused before; a refused or
    failed one leaves the adapter as it was or poisoned. *)
Lemma eb_dispatch_wp t sent h command data pn sa wv w : adapter_at t sent h w →
  let q := Biometric command (default (eb_protocol_version t) wv) 0 data 0 in
  wp (dispatch command data pn sa wv)
    (λ status w', if sa && negb (status =? 0) && pn then adapter_at (dead t) (sent ++ [q]) h w'
                  else dispatched t (sent ++ [q]) h w')
    (λ _ w', adapter_at t sent h w' ∨ adapter_at (dead t) sent h w' ∨ adapter_at (dead t) (sent ++ [q]) h w') w.
Proof.
  intros Hat q. unfold dispatch. apply wp_bind, wp_self. cbv zeta. apply wp_bind, wp_throw_if; [by left|]. intros _.
  apply poisoning_wp. unfold poison.
  assert (∀ t' sent' e w', adapter_at t' sent' h w' → dead t' = dead t → sent' = sent ∨ sent' = sent ++ [q] →
    wp (update (λ t, dead t)) (λ _ w', ∀ e : exn, adapter_at (L := L) t sent h w' ∨ adapter_at (dead t) sent h w'
      ∨ adapter_at (dead t) (sent ++ [q]) h w') e w') as Hp.
  { intros t' sent' e w' H' Ht Hor. eapply eb_update_wp; [exact H'|]. rewrite Ht. intros w2 H2 _.
    destruct Hor as [->| ->]; [right; by left|right; by right]. }
  apply wp_bind. eapply check_generation_wp; [exact Hat| |intros e w1 H1; eapply Hp; [exact H1|done|by left]].
  intros w1 H1. apply wp_bind. destruct Hat as (Hs & _). rewrite Hs. fold q.
  eapply send_wp; [exact H1| |intros e w2 H2; eapply Hp; [exact H2|done|by right]].
  intros answer w2 H2. apply wp_bind.
  eapply check_generation_wp; [exact H2| |intros e w3 H3; eapply Hp; [exact H3|done|by right]]. intros w3 H3.
  assert (∀ e, wp (update (λ t, dead t)) (λ _ w', ∀ e : exn, adapter_at (L := L) t sent h w' ∨ adapter_at (dead t) sent h w'
      ∨ adapter_at (dead t) (sent ++ [q]) h w') e w3) as Hp3 by (intros e; eapply Hp; [exact H3|done|by right]).
  destruct answer as [[|reply [|events [|]]]|]; try (apply wp_throw; by apply Hp3).
  apply wp_bind, wp_pure; [|intros e _; by apply Hp3]. intros [status output] _.
  apply wp_bind, wp_throw_if; [intros _; by apply Hp3|]. intros _.
  destruct events as [| | | | |events|]; try (apply wp_throw; by apply Hp3).
  apply wp_bind, wp_pure; [|intros e _; by apply Hp3]. intros staged _.
  apply wp_bind, wp_throw_if; [intros _; by apply Hp3|]. intros _.
  apply wp_bind. eapply eb_update_wp; [exact H3|]. intros w4 H4. apply wp_bind, wp_if; intros Hc.
  - eapply eb_update_wp; [exact H4|]. intros w5 H5. apply wp_ret. rewrite Hc. exact H5.
  - apply wp_ret, wp_ret. rewrite Hc. by eexists.
Qed.

(** The version never changes, and the commands are where the state says. *)
Definition bridge_inv (v : Z) (w : world) : Prop :=
  eb_protocol_version (ad_self w) = v ∧ commanded (ad_self w) (ad_sent w).

Lemma inv_of v t sent h w : adapter_at t sent h w → eb_protocol_version t = v → commanded t sent → bridge_inv v w.
Proof. intros (Hs & Hsent & _) Hv Hc. split; by rewrite Hs, ?Hsent. Qed.

Lemma commanded_events t sent events : commanded t sent → commanded (t <| eb_events := events |>) sent.
Proof. done. Qed.

(** Any further use of an adapter that has stopped. *)
Lemma commanded_dead t sent : commanded t sent → commanded (dead t) sent.
Proof.
  unfold commanded. cbn. destruct (eb_state t); try done; [by left|].
  intros (p & k & Hp & ->). right. exists p, k. split; [exact Hp|]. unfold enrollment_script.
  eexists [cancel_call]. done.
Qed.

(** A command sent while the adapter is active. *)
Lemma commanded_snoc t sent q : eb_state t = EB_ACTIVE → commanded t sent → q ∈ [continue_call; cancel_call] →
  commanded (dead t) (sent ++ [q]) ∧ (q = continue_call → commanded t (sent ++ [q]))
  ∧ (q = cancel_call → commanded (with_state t EB_CANCEL_REQUESTED) (sent ++ [q])).
Proof.
  unfold commanded. cbn. intros -> (p & k & Hp & ->) Hq. split; [|split].
  - right. rewrite !elem_of_cons, elem_of_nil in Hq. destruct Hq as [->|[->|[]]].
    + exists p, (S k). split; [exact Hp|]. exists [cancel_call]. unfold enrollment_script.
      rewrite replicate_S_end. by rewrite <-!app_assoc, <-app_comm_cons.
    + exists p, k. split; [exact Hp|]. exists []. by rewrite app_nil_r.
  - intros ->. exists p, (S k). split; [exact Hp|]. by rewrite replicate_S_end.
  - intros ->. right. exists p, k. split; [exact Hp|]. exists []. by rewrite app_nil_r.
Qed.

Lemma eb_start_wp v t sent h payload w : adapter_at t sent h w → eb_protocol_version t = v → commanded t sent →
  wp (start payload) (λ _ w', bridge_inv v w') (λ _ w', bridge_inv v w') w.
Proof.
  intros Hat Hv Hc. assert (bridge_inv v w) as Hw by (by eapply inv_of). unfold start.
  apply wp_bind. eapply eb_require_state_wp; [exact Hat| |done]. rewrite list_elem_of_singleton. intros Hidle.
  apply wp_bind, wp_self. destruct Hat as (Hs & Hat). rewrite Hs. cbv zeta.
  destruct payload as [view|]; [|by apply wp_throw]. apply wp_bind, wp_throw_if; [done|]. intros Hlen.
  rewrite !orb_false_iff in Hlen. destruct Hlen as ((_ & Hlen%negb_false_iff%Nat.eqb_eq) & _).
  unfold commanded in Hc. rewrite Hidle in Hc. subst sent.
  assert (∃ p k, length p = (if eb_protocol_version t =? 1 then 48%nat else 68%nat)
    ∧ [start_call (eb_protocol_version t) (vw_bytes view)] `prefix_of` enrollment_script (eb_protocol_version t) p k) as Hone.
  { exists (vw_bytes view), 0%nat. split; [exact Hlen|]. by exists [cancel_call]. }
  apply wp_bind. eapply wp_weaken; [eapply (eb_dispatch_wp t [] h); by split| |]; cbv beta.
  - intros status w1. rewrite andb_false_r. intros [events H1]. apply wp_bind. eapply eb_update_wp; [exact H1|]. intros w2 H2. apply wp_ret.
    eapply inv_of; [exact H2|exact Hv|]. unfold commanded. cbn. destruct (status =? 0); [|by right].
    exists (vw_bytes view), 0%nat. by split.
  - intros _ w1 [H1|[H1|H1]]; (eapply inv_of; [exact H1|exact Hv|]); unfold commanded; cbn; [by rewrite Hidle|by left|by right].
Qed.

Lemma continue_wp v t sent h w : adapter_at t sent h w → eb_protocol_version t = v → commanded t sent →
  wp continue_enrollment (λ _ w', bridge_inv v w') (λ _ w', bridge_inv v w') w.
Proof.
  intros Hat Hv Hc. assert (bridge_inv v w) as Hw by (by eapply inv_of). unfold continue_enrollment.
  apply wp_bind. eapply eb_require_state_wp; [exact Hat| |done]. rewrite list_elem_of_singleton. intros Hactive.
  destruct (commanded_snoc t sent continue_call Hactive Hc ltac:(by left)) as (H1 & H2 & _).
  eapply wp_weaken; [by eapply (eb_dispatch_wp t sent h)| |]; cbv beta.
  - intros status w1 [events H3]. eapply inv_of; [exact H3|exact Hv|]. by apply commanded_events, H2.
  - intros _ w1 [H3|[H3|H3]]; (eapply inv_of; [exact H3|exact Hv|]); [done|by apply commanded_dead|done].
Qed.

Lemma eb_cancel_wp v t sent h w : adapter_at t sent h w → eb_protocol_version t = v → commanded t sent →
  wp cancel (λ _ w', bridge_inv v w') (λ _ w', bridge_inv v w') w.
Proof.
  intros Hat Hv Hc. assert (bridge_inv v w) as Hw by (by eapply inv_of). unfold cancel.
  apply wp_bind. eapply eb_require_state_wp; [exact Hat| |done]. rewrite list_elem_of_singleton. intros Hactive.
  destruct (commanded_snoc t sent cancel_call Hactive Hc ltac:(right; by left)) as (H1 & _ & H2).
  specialize (H2 eq_refl). apply wp_bind. eapply wp_weaken; [by eapply (eb_dispatch_wp t sent h)| |]; cbv beta.
  - intros status w1. cbn [andb]. rewrite andb_true_r. destruct (status =? 0); cbn [negb]; intros Hat1.
    + destruct Hat1 as [events H3]. apply wp_bind. eapply eb_update_wp; [exact H3|]. intros w2 H4. apply wp_ret.
      eapply inv_of; [exact H4|exact Hv|exact H2].
    + apply wp_bind, wp_ret, wp_ret. eapply inv_of; [exact Hat1|exact Hv|exact H1].
  - intros _ w1 [H3|[H3|H3]]; (eapply inv_of; [exact H3|exact Hv|]); [done|by apply commanded_dead|done].
Qed.

Lemma next_event_wp v t sent h q w : adapter_at t sent h w → eb_protocol_version t = v → commanded t sent →
  wp (next_event q) (λ _ w', bridge_inv v w') (λ _ w', bridge_inv v w') w.
Proof.
  intros Hat Hv Hc. assert (∀ events w', adapter_at (t <| eb_events := events |>) sent h w' → bridge_inv v w') as Hev
    by (intros events w' H'; by eapply inv_of).
  assert (∀ w', adapter_at t sent h w' → bridge_inv v w') as Hw by (intros w' H'; by eapply inv_of).
  unfold next_event. apply wp_bind. eapply eb_require_state_wp; [exact Hat| |intros _; by apply Hw]. intros _.
  destruct q as [q|]; [|by apply wp_throw, Hw]. apply wp_bind, wp_throw_if; [intros _; by apply Hw|]. intros _.
  apply wp_bind, wp_self. destruct Hat as (Hs & Hat). rewrite Hs.
  assert (adapter_at t sent h w) as Hat' by (by split). destruct (eb_events t) as [|event rest].
  - apply poisoning_wp. unfold poison.
    assert (∀ w', adapter_at t sent h w' → wp (update (λ t, dead t)) (λ _ w', exn → bridge_inv v w') (λ _ w', bridge_inv v w') w') as Hp.
    { intros w' H'. eapply eb_update_wp; [exact H'|]. intros w2 H2 _. eapply inv_of; [exact H2|exact Hv|by apply commanded_dead]. }
    apply wp_bind. eapply check_generation_wp; [exact Hat'| |intros e w1 H1; by apply Hp]. intros w1 H1.
    apply wp_bind. eapply on_lease_wp; [exact H1| |intros e w2 H2; by apply Hp]. intros x w2 H2.
    apply wp_bind. eapply check_generation_wp; [exact H2| |intros e w3 H3; by apply Hp]. intros w3 H3.
    apply wp_if; intros _; [by apply wp_ret, Hw|]. apply wp_bind, wp_pure; [|intros e _; by apply Hp].
    intros data _. by apply wp_ret, Hw.
  - apply wp_bind. eapply eb_update_wp; [exact Hat'|]. intros w1 H1. apply wp_ret. by eapply Hev.
Qed.

Lemma eb_after_call_inv v c w : bridge_inv v w → bridge_inv v (after_call c w).
Proof.
  intros [Hv Hc]. assert (adapter_at (ad_self w) (ad_sent w) (ad_heap w) w) as Hat by done.
  assert (∀ A (m : act world A), wp m (λ _ w', bridge_inv v w') (λ _ w', bridge_inv v w') w → bridge_inv v (m w).2) as Hrun
    by (intros A m; unfold wp; by destruct (m w) as [[]]).
  destruct c; cbn [after_call]; apply Hrun; [by eapply eb_start_wp|by eapply continue_wp|by eapply eb_cancel_wp|by eapply next_event_wp].
Qed.

Lemma eb_after_calls_inv v calls w : bridge_inv v w → bridge_inv v (after_calls calls w).
Proof. revert w. induction calls as [|c cs IH]; intros w Hw; [done|]. by apply IH, eb_after_call_inv. Qed.

(** C17: Whatever is called on a fresh adapter, in whatever order, and whatever
    the lease answers, the commands it sends are an initial part of one
    enrolment: a start with a payload of the length of its protocol version,
    then continuations, then at most one cancellation, after which nothing
    follows. *)
Theorem enrollment_bridge_script (v : Z) gen (l l' : L) t h calls :
  new_enrollment_bridge (VInt v) gen l = (Ok t, l') →
  let sent := ad_sent (after_calls calls (Adapter t l' [] h)) in
  sent = [] ∨ ∃ payload k, length payload = (if v =? 1 then 48%nat else 68%nat)
    ∧ sent `prefix_of` enrollment_script v payload k.
Proof.
  intros Hnew sent. unfold new_enrollment_bridge in Hnew.
  apply act_bind_Ok in Hnew as (? & ? & _ & (g & ? & _ & (? & ? & _ & [= <- _])%act_bind_Ok)%act_bind_Ok).
  assert (bridge_inv v (Adapter (EnrollmentBridge v g EB_IDLE []) l' [] h)) as Hinv by done.
  apply (eb_after_calls_inv v calls) in Hinv as [Hv Hc]. change (int_value (VInt v)) with v in sent. fold sent in Hc.
  unfold commanded in Hc. rewrite Hv in Hc. destruct (eb_state _); [by left| |exact Hc..].
  destruct Hc as (p & k & Hp & ->). right. exists p, k. split; [exact Hp|]. by exists [cancel_call].
Qed.

(** The queue is first in, first out, and is served before the lease. *)
Lemma next_event_queued q (w : world) event rest : eb_state (ad_self w) ∈ [EB_ACTIVE; EB_CANCEL_REQUESTED] →
  0 < Qnum q → Qle_bool q (5 # 1) = true → eb_events (ad_self w) = event :: rest →
  next_event (Some q) w = (Ok (Some event), w <| ad_self := (ad_self w) <| eb_events := rest |> |>).
Proof.
  intros Hs Hq0 Hq5 He. unfold next_event, require_state, mbind, act_bind, self.
  rewrite bool_decide_eq_false_2. 2:{ intros Hp. rewrite Hp, !elem_of_cons, elem_of_nil in Hs. naive_solver. }
  cbn [throw_if mret act_ret]. rewrite bool_decide_eq_true_2 by exact Hs. cbn [negb throw_if mret act_ret].
  rewrite Hq5, orb_false_r. replace (Qle_bool q 0) with false. 2:{ symmetry. unfold Qle_bool. cbn. lia. }
  cbn [throw_if mret act_ret]. by rewrite He.
Qed.
End facts.
