(* ===== verification/EnrollmentOperation.v ===== *)
(** * The enrolment operation ([src/src/t2_enrollment_operation.py])

    The loop that drives one enrolment: every command is journalled before it
    is sent, the events go through the state machine of [EnrollmentProtocol],
    and whatever cannot be trusted freezes the journal.  The transport is an
    interface ([EnrollmentTransport]) over a state of its own, which the
    callbacks of the caller share; a callback returns a value or an awaitable,
    which the operation refuses.  The transport may time out any number of
    times: [polls] bounds the turns of the loop, and a run that used them up
    is still waiting ([None]). *)
From S2P Require Import Prelude PyValue Sha256 Json MutationJournal Evidence TypedJournal PersistenceJournal.
From S2P Require Import EnrollmentJournal Effect OperationWorld Bytes EnrollmentProtocol SaveWorld BridgeLease EnrollmentBridge.

#[local] Open Scope Z_scope.

(** The commands of an operation. *)
Inductive enroll_event := EvStart (payload : bytes) | EvContinue | EvCancel.

(** [EnrollmentTransport]: two attributes and four methods. *)
Class EnrollmentTransport (T : Type) := {
  et_connection_generation : T → string;
  et_protocol_version : T → Z;
  et_start : memoryview → act T value;
  et_continue : act T value;
  et_cancel : act T value;
  et_next_event : act T (option bytes);
}.

Inductive answer := Returned (v : value) | Awaitable.
Record Callbacks (T : Type) := MkCallbacks {
  dispatch_allowed : act T answer;
  cancel_requested : act T value;
  on_feedback : EnrollmentTransition → act T answer;
}.
Arguments MkCallbacks {T} _ _ _.
Arguments dispatch_allowed {T} _.
Arguments cancel_requested {T} _.
Arguments on_feedback {T} _ _.

Record EnrollmentOperationResult := OperationResult {
  or_outcome : string;
  or_transition : option EnrollmentTransition;
  or_reconciliation_required : bool;
}.

(** The journal, the commands sent, each with the journal file as it was, the
    transport, and the objects of the operation. *)
Record enroll_world (T : Type) := EnrollWorld {
  ew_fs : fs;
  ew_accesses : nat;
  ew_trace : list (enroll_event * fs);
  ew_transport : T;
  ew_history : option EnrollmentHistory;
  ew_machine : option machine;
  ew_request : option SensitiveEnrollmentRequest;
}.
Arguments EnrollWorld {T} _ _ _ _ _ _ _.
Arguments ew_fs {T} _.
Arguments ew_accesses {T} _.
Arguments ew_trace {T} _.
Arguments ew_transport {T} _.
Arguments ew_history {T} _.
Arguments ew_machine {T} _.
Arguments ew_request {T} _.
#[export] Instance enroll_world_settable T : Settable (enroll_world T) := λ w,
  EnrollWorld (ew_fs w) (ew_accesses w) (ew_trace w) (ew_transport w) (ew_history w) (ew_machine w) (ew_request w).
#[export] Instance enroll_world_journalled T : Journalled (enroll_world T) := {
  journal_of := ew_fs;
  accesses_of := ew_accesses;
  with_journal s n w := w <| ew_fs := s |> <| ew_accesses := n |>;
}.
#[export] Instance enroll_world_journalled_laws T : JournalledLaws (enroll_world T).
Proof. by split. Qed.

(** [issubclass(c, EnrollmentOperationError)] *)
Definition is_operation_error (c : exn_class) : bool :=
  bool_decide (c ∈ [EnrollmentOperationError; EnrollmentPreDispatchCancelled]).

(** [_transport_status] *)
Definition transport_status (v : value) (operation : string) : result Z :=
  match v with
  | VInt z =>
      _ ← fail_if (negb (status_range z)) EnrollmentOperationError (operation +:+ " transport returned an invalid status");
      Ok z
  | _ => raise EnrollmentOperationError (operation +:+ " transport returned an invalid status")
  end.

Definition silent_actions : list EnrollmentAction :=
  [IGNORE_TELEMETRY; IGNORE_AUXILIARY; IGNORE_PHASE; RESULT_WITNESSED; IDENTITY_OBSERVED; ACT_CANCELLED; ACT_FAILED; ACT_TIMED_OUT].
(** The status of a terminal failure, with the name of its action. *)
Definition terminal_status (a : EnrollmentAction) : option (Z * string) :=
  match a with
  | ACT_CANCELLED => Some (66, "cancelled")
  | ACT_FAILED => Some (67, "failed")
  | ACT_TIMED_OUT => Some (68, "timed-out")
  | _ => None
  end.

Section operation.
Context {T : Type} `{EnrollmentTransport T} (env : surroundings) (operation_id : string) (callbacks : Callbacks T).
#[local] Abbreviation action := (act (enroll_world T)).
#[local] Abbreviation operr msg := (throw EnrollmentOperationError msg).

Definition on_transport {A} (m : act T A) : action A := λ w,
  let '(r, t) := m (ew_transport w) in (r, w <| ew_transport := t |>).
Definition on_machine {A} (m : act machine A) : action A := λ w,
  match ew_machine w with
  | Some s => let '(r, s) := m s in (r, w <| ew_machine := Some s |>)
  | None => (raise AttributeError "machine", w)
  end.
(** A command is recorded, with the journal file as it is, and sent. *)
Definition command {A} (e : enroll_event) (m : act T A) : action A :=
  _ ← assign (λ w, w <| ew_trace := ew_trace w ++ [(e, ew_fs w)] |>); on_transport m.
(** [self.transport.connection_generation] *)
Definition generation : action value := λ w, (Ok (VStr (et_connection_generation (ew_transport w))), w).

(** [__init__] *)
Definition new_operation (linux_boot_uuid mapping_generation : string) (caller_linux_uid target_linux_uid : Z) : action unit :=
  history ← read_call env;
  w ← self;
  _ ← pure (require_start_ready history linux_boot_uuid (et_connection_generation (ew_transport w)) mapping_generation
              caller_linux_uid target_linux_uid (et_protocol_version (ew_transport w)));
  _ ← throw_if (VStr operation_id !=? eh_operation_id history) EnrollmentOperationError
        "operation ID does not match E0 journal";
  assign (λ w, w <| ew_history := Some history |>).

(** [_append] *)
Definition append (milestone : string) (evidence : value) : action unit :=
  history ← catch (λ c, bool_decide (c = EnrollmentJournalError)) (append_call env operation_id milestone evidence)
              (λ _, operr ("durable enrollment milestone " +:+ milestone +:+ " failed"));
  assign (λ w, w <| ew_history := Some history |>).

(** [_outcome_unknown] *)
Definition outcome_unknown {A} (stage reason : string) : action A :=
  _ ← catch is_operation_error
        (g ← generation;
         append "ENROLL_OUTCOME_UNKNOWN"
           (dict [("connection_generation", g); ("stage", VStr stage); ("reason", VStr reason); ("mutation_possible", VBool true)]))
        (λ _, operr "enrollment outcome is unknown and could not be journaled");
  operr "enrollment outcome is unknown; reconciliation is required".

(** [_append_during_active_operation] *)
Definition append_active (milestone : string) (evidence : value) (stage : string) : action unit :=
  catch is_operation_error (append milestone evidence) (λ _, outcome_unknown stage "journal-error").

(** [try: status = self._transport_status(...) except BaseException: self._outcome_unknown(...)] *)
Definition status_of (e : enroll_event) (m : act T value) (operation : string) : action Z :=
  catch any_class (v ← command e m; pure (transport_status v operation)) (λ _, outcome_unknown operation "transport-error").

(** The guard of the caller, asked before anything is dispatched. *)
Definition guard : action unit :=
  allowed ← catch any_class
              (a ← on_transport (dispatch_allowed callbacks);
               mret (match a with Returned v => is_true v | Awaitable => false end))
              (λ _, mret false);
  if allowed : bool then mret tt
  else
    g ← generation;
    _ ← append "ENROLL_ABORTED_BEFORE_START"
          (dict [("connection_generation", g); ("reason", VStr "safety-guard-unavailable"); ("mutation_possible", VBool false)]);
    throw EnrollmentPreDispatchCancelled "enrollment cancelled before start dispatch".

(** The [with] block: [Some] is the result of a rejected start. *)
Definition start_enrollment (apple_user_id : Z) (acm_external_form : bytes) : action (option EnrollmentOperationResult) :=
  w ← self;
  request ← pure (new_request (et_protocol_version (ew_transport w)) apple_user_id acm_external_form);
  _ ← assign (λ w, w <| ew_request := Some request |>);
  finally
    (request_bytes ← pure (request_buffer request);
     g ← generation;
     _ ← append "ENROLL_START_INTENT"
           (dict [("apple_uid", VInt apple_user_id); ("protocol_version", VInt (et_protocol_version (ew_transport w)));
                  ("connection_generation", g); ("request_length", VInt (Z.of_nat (length request_bytes)));
                  ("request_sha256", VStr (sha256_hex (String.string_of_list_ascii request_bytes)))]);
     start_status ← status_of (EvStart request_bytes) (et_start (View 1 1 true request_bytes)) "start";
     if negb (start_status =? 0) then
       _ ← append_active "ENROLL_START_REJECTED" (dict [("status", VInt start_status)]) "start";
       mret (Some (OperationResult "start-rejected" None true))
     else
       _ ← append_active "ENROLL_START_OBSERVED" (dict [("status", VInt 0)]) "start";
       mret None)
    (λ w, w <| ew_request := EnrollmentProtocol.wipe <$> ew_request w |>).
End operation.

Section loop.
Context {T : Type} `{EnrollmentTransport T} (env : surroundings) (operation_id : string) (callbacks : Callbacks T).
#[local] Abbreviation action := (act (enroll_world T)).
#[local] Abbreviation operr msg := (throw EnrollmentOperationError msg).
#[local] Abbreviation outcome_unknown := (outcome_unknown env operation_id).
#[local] Abbreviation append_active := (append_active env operation_id).
#[local] Abbreviation status_of := (status_of env operation_id).

(** The cancellation, if the caller asks for one and none was sent; whether
    one is sent now or was before. *)
Definition cancel_step (cancel_sent : bool) : action bool :=
  should_cancel ← (if cancel_sent then mret false
                   else catch any_class (v ← on_transport (cancel_requested callbacks); mret (truthy v))
                          (λ _, outcome_unknown "active" "protocol-error"));
  if should_cancel : bool then
    g ← generation;
    _ ← append_active "ENROLL_CANCEL_INTENT" (dict [("connection_generation", g); ("reason", VStr "caller-requested")]) "cancel";
    _ ← on_machine request_cancel;
    cancel_status ← status_of EvCancel et_cancel "cancel";
    _ ← (if negb (cancel_status =? 0) then outcome_unknown "cancel" "transport-error" else mret tt);
    _ ← append_active "ENROLL_CANCEL_DISPATCH_OBSERVED" (dict [("status", VInt 0)]) "cancel";
    mret true
  else mret cancel_sent.

(** The event is parsed and accepted by the machine. *)
Definition accept_raw (raw_event : bytes) : action (ServiceEvent * EnrollmentTransition) :=
  catch (λ c, bool_decide (c ∈ [EnrollmentProtocolError; TypeError]))
    (event ← pure (parse_service_event raw_event);
     w ← self;
     transition ← on_machine (accept event (et_connection_generation (ew_transport w)) operation_id);
     mret (event, transition))
    (λ _, outcome_unknown "terminal" "protocol-error").

Definition feedback (transition : EnrollmentTransition) : action unit :=
  if bool_decide (tr_action transition ∈ silent_actions) then mret tt
  else catch any_class
         (result ← on_transport (on_feedback callbacks transition);
          match result with
          | Awaitable => operr "enrollment feedback callback must be synchronous"
          | Returned v => throw_if (negb (is_none v)) EnrollmentOperationError "enrollment feedback callback must return None"
          end)
         (λ _, outcome_unknown "active" "protocol-error").

Definition continue_step (raw_event : bytes) (event : ServiceEvent) : action unit :=
  g ← generation;
  _ ← append_active "ENROLL_CONTINUE_INTENT"
        (dict [("connection_generation", g); ("event_sequence", VInt (se_sequence event));
               ("event_ordinal", VInt (se_ordinal event));
               ("event_sha256", VStr (sha256_hex (String.string_of_list_ascii raw_event)))]) "continue";
  continue_status ← status_of EvContinue et_continue "continue";
  append_active "ENROLL_CONTINUE_OBSERVED"
    (dict [("event_sequence", VInt (se_sequence event)); ("status", VInt continue_status);
           ("return_status_authoritative", VBool false)]) "continue".

(** What ends the operation; [None] if the transition does not. *)
Definition finish_step (raw_event : bytes) (event : ServiceEvent) (transition : EnrollmentTransition)
    : action (option EnrollmentOperationResult) :=
  g ← generation;
  if bool_decide (tr_action transition = IDENTITY_OBSERVED) then
    match tr_identity transition with
    | Some identity =>
        _ ← append_active "E2_TERMINAL_IDENTITY_OBSERVED"
              (dict [("connection_generation", g); ("event_sequence", VInt (se_sequence event));
                     ("envelope_type", VInt (se_envelope_type event)); ("event_version", VInt (se_version event));
                     ("user_id", VInt (ei_user_id identity));
                     ("identity_uuid", VStr (uuid_str (be_unpack (ei_identity_uuid identity))))]) "terminal";
        mret (Some (OperationResult "identity-observed" (Some transition) true))
    | None => throw AssertionError ""
    end
  else if bool_decide (tr_action transition = RESULT_WITNESSED) then
    _ ← append_active "E2_TERMINAL_RESULT_WITNESSED"
          (dict [("connection_generation", g); ("event_sequence", VInt (se_sequence event));
                 ("envelope_type", VInt (se_envelope_type event)); ("event_version", VInt (se_version event));
                 ("payload_length", VInt (Z.of_nat (length (se_payload event))));
                 ("event_sha256", VStr (sha256_hex (String.string_of_list_ascii raw_event)));
                 ("embedded_user_matches", VBool false)]) "terminal";
    mret (Some (OperationResult "result-witnessed" (Some transition) true))
  else
    match terminal_status (tr_action transition) with
    | Some (status, outcome) =>
        _ ← append_active "ENROLL_TERMINAL_FAILURE_OBSERVED"
              (dict [("connection_generation", g); ("event_sequence", VInt (se_sequence event));
                     ("envelope_type", VInt (se_envelope_type event)); ("status", VInt status)]) "terminal";
        mret (Some (OperationResult outcome (Some transition) true))
    | None => mret None
    end.

(** One event that arrived. *)
Definition handle_event (raw_event : bytes) : action (option EnrollmentOperationResult) :=
  '(event, transition) ← accept_raw raw_event;
  _ ← feedback transition;
  if tr_continue_required transition then _ ← continue_step raw_event event; mret None
  else finish_step raw_event event transition.

(** The loop; [remaining] is [event_limit - event_count]. *)
Fixpoint event_loop (polls remaining : nat) (cancel_sent : bool) : action (option EnrollmentOperationResult) :=
  match remaining with
  | O => outcome_unknown "active" "protocol-error"
  | S fewer =>
      match polls with
      | O => mret None
      | S polls =>
          cancel_sent ← cancel_step cancel_sent;
          raw_event ← catch any_class (on_transport et_next_event) (λ _, outcome_unknown "active" "connection-lost");
          match raw_event with
          | None => event_loop polls remaining cancel_sent
          | Some raw_event =>
              result ← handle_event raw_event;
              match result with
              | Some r => mret (Some r)
              | None => event_loop polls fewer cancel_sent
              end
          end
      end
  end.

(** [run] *)
Definition run (apple_user_id : Z) (acm_external_form : bytes) (event_limit : Z) (polls : nat)
    : action (option EnrollmentOperationResult) :=
  _ ← throw_if (negb ((1 <=? event_limit) && (event_limit <=? 1024))) EnrollmentOperationError
        "event limit is outside policy";
  w ← self;
  machine ← pure (new_machine apple_user_id (et_connection_generation (ew_transport w)) operation_id);
  _ ← assign (λ w, w <| ew_machine := Some machine |>);
  catch (λ c, negb (is_operation_error c))
    (_ ← guard env operation_id callbacks;
     rejected ← start_enrollment env operation_id apple_user_id acm_external_form;
     match rejected with
     | Some r => mret (Some r)
     | None => event_loop polls (Z.to_nat event_limit) false
     end)
    (λ _, w ← self;
       if match ew_history w with
          | Some history => bool_decide (eh_phase history ∈ [E_ACTIVE; E_CONTINUE_INTENT; E_CANCEL_INTENT; E_CANCEL_REQUESTED])
          | None => false
          end
       then outcome_unknown "active" "protocol-error"
       else operr "enrollment operation failed locally").

(** The constructor and [run], with the user of the journal. *)
Definition enroll (linux_boot_uuid mapping_generation : string) (caller_linux_uid target_linux_uid : Z)
    (acm_external_form : bytes) (event_limit : Z) (polls : nat) : action (option EnrollmentOperationResult) :=
  _ ← new_operation env operation_id linux_boot_uuid mapping_generation caller_linux_uid target_linux_uid;
  w ← self;
  let apple_user_id := match ew_history w with Some h => int_value ((eh_baseline h)@["apple_uid"]) | None => 0 end in
  run apple_user_id acm_external_form event_limit polls.
End loop.
