(* ===== verification/EnrollmentRuns.v ===== *)
(** * Theorems on the enrolment operation

    What a run of [EnrollmentOperation] sends and when, and what the journal
    holds when it ends, whatever the transport, the callbacks and the calls of
    the operating system do, and whatever orderly other processes do. *)
From S2P Require Import Prelude PyValue Sha256 Json MutationJournal Evidence TypedJournal PersistenceJournal.
From S2P Require Import EnrollmentJournal Effect OperationWorld Bytes EnrollmentProtocol SaveWorld BridgeLease EnrollmentBridge.
From S2P Require Import EnrollmentOperation.

#[local] Open Scope Z_scope.

Definition UNKNOWN : string := "enrollment outcome is unknown; reconciliation is required".
Definition UNJOURNALED : string := "enrollment outcome is unknown and could not be journaled".

(** The commands of one enrolment, in their order. *)
Definition commands_of (payload : bytes) (k : nat) (cancelled : bool) : list enroll_event :=
  EvStart payload :: replicate k EvContinue ++ (if cancelled then [EvCancel] else []).
Definition scripted (sent : list enroll_event) : Prop := sent = [] ∨ ∃ p k cancelled, sent = commands_of p k cancelled.

Lemma wp_conj {S A} (m : act S A) (Q Q' : A → S → Prop) (E E' : exn → S → Prop) s : wp m Q E s → wp m Q' E' s →
  wp m (λ a s, Q a s ∧ Q' a s) (λ e s, E e s ∧ E' e s) s.
Proof. unfold wp. destruct (m s) as [[a|e] s']; auto. Qed.

Section runs.
Context {T : Type} `{Htrans : EnrollmentTransport T} (env : surroundings) (lines : orderly env) (operation_id : string)
  (callbacks : Callbacks T).
(** Whether writes always complete. *)
Context (V : Prop) (HV : V → whole_writes env).
#[local] Abbreviation world := (enroll_world T).
#[local] Abbreviation action := (act (enroll_world T)).
#[local] Abbreviation ends s h m ev := (ends_with (S := enroll_loop) (H := EnrollmentHistory) (su_euid env) s h operation_id m ev).

(** When a command was sent, the journal said so. *)
Definition intent_of (e : enroll_event) (m : string) (ev : value) : Prop :=
  match e with
  | EvStart p => m = "ENROLL_START_INTENT" ∧ ev@["request_length"] = VInt (Z.of_nat (length p))
      ∧ ev@["request_sha256"] = VStr (sha256_hex (String.string_of_list_ascii p))
  | EvContinue => m = "ENROLL_CONTINUE_INTENT"
  | EvCancel => m = "ENROLL_CANCEL_INTENT"
  end.
Definition command_announced (e : enroll_event * fs) : Prop := ∃ h m ev, ends e.2 h m ev ∧ intent_of e.1 m ev.

(** The commands sent so far and the objects of the operation. *)
Record held (sent : list enroll_event) (history : option EnrollmentHistory) (machine : option machine)
    (request : option SensitiveEnrollmentRequest) (w : world) : Prop := {
  hd_announced : Forall command_announced (ew_trace w);
  hd_sent : map fst (ew_trace w) = sent;
  hd_history : ew_history w = history;
  hd_machine : ew_machine w = machine;
  hd_request : ew_request w = request;
  hd_whole : V → whole (ew_fs w);
}.
(** Nothing has gone wrong with the journal. *)
Definition steady sent hi m q (w : world) : Prop := held sent hi m q w ∧ whole (ew_fs w).

(** The last access to the journal was the append of this milestone, which
    raised; nothing was sent since. *)
Definition append_failed (m : string) (e : exn) (w : world) : Prop := ∃ ev (w0 w1 : world),
  append_call (H := EnrollmentHistory) env operation_id m ev w0 = (Raise e, w1)
  ∧ ew_fs w1 = ew_fs w ∧ ew_accesses w1 = ew_accesses w ∧ ew_trace w1 = ew_trace w.

Lemma held_journal sent hi m q w s n : held sent hi m q w → (V → whole s) → held sent hi m q (with_journal s n w).
Proof. intros [? ? ? ? ? ?] Hs. by split. Qed.

(** What [_append] raises: the error of the operation for an
    [EnrollmentJournalError], anything else as it is. *)
Definition append_raised (m : string) (e : exn) (w : world) : Prop :=
  (∃ e', append_failed m e' w)
  ∧ (is_operation_error (exn_cls e) = false → append_failed m e w).

Lemma append_held_wp sent hi mc q m ev (w : world) : held sent hi mc q w →
  wp (append env operation_id m ev) (λ _ w', ∃ h, held sent (Some h) mc q w' ∧ (V → ends (ew_fs w') h m ev))
    (λ e w', held sent hi mc q w' ∧ append_raised m e w') w.
Proof.
  intros Hw. unfold append. apply wp_bind, wp_catch.
  pose proof (append_call_any_wp (H := EnrollmentHistory) env lines V operation_id m ev w HV (hd_whole _ _ _ _ _ Hw)) as Ha.
  unfold wp in Ha |- *. destruct (append_call env operation_id m ev w) as [[h|e] w1] eqn:Hcall.
  - destruct Ha as (s & n & -> & Hs). exists h. split; [|intros HVV; by apply Hs].
    pose proof (held_journal _ _ _ _ _ s n Hw (λ v, proj1 (Hs v))) as [? ? ? ? ? ?]. by split.
  - destruct Ha as (s & n & -> & Hs). pose proof (held_journal _ _ _ _ _ s n Hw Hs) as Hw'.
    assert (append_failed m e (with_journal s n w)) as Hf by (by exists ev, w, (with_journal s n w)).
    destruct (bool_decide _); (split; [exact Hw'|]); (split; [by exists e|by intros]).
Qed.

Lemma append_steady_wp sent hi mc q m ev (w : world) : steady sent hi mc q w →
  wp (append env operation_id m ev) (λ _ w', ∃ h, steady sent (Some h) mc q w' ∧ ends (ew_fs w') h m ev)
    (λ e w', held sent hi mc q w' ∧ append_raised m e w') w.
Proof.
  intros [Hw Hl].
  assert (wp (append env operation_id m ev) (λ _ w', whole (ew_fs w') ∧ ∃ h, ew_history w' = Some h ∧ ends (ew_fs w') h m ev)
    (λ _ _, True) w) as Hs.
  { unfold append. apply wp_bind, wp_catch.
    eapply wp_weaken; [by apply (append_call_wp (H := EnrollmentHistory) env lines operation_id m ev w)| |]; cbv beta.
    - intros h w' (s & n & -> & Hs & He). split; [exact Hs|]. by exists h.
    - intros e w' _. by destruct (bool_decide _). }
  eapply wp_weaken; [exact (wp_conj _ _ _ _ _ _ (append_held_wp _ _ _ _ m ev w Hw) Hs)| |]; cbv beta.
  - intros _ w' [(h & H1 & _) (H2 & h' & H3 & H4)]. exists h. split; [by split|].
    rewrite (hd_history _ _ _ _ _ H1) in H3. by injection H3 as ->.
  - intros e w' [H1 _]. exact H1.
Qed.

(** The journal as the operation last read it says that a command may be under
    way. *)
Definition in_flight (hi : option EnrollmentHistory) : Prop := ∃ h, hi = Some h
  ∧ eh_phase h ∈ [E_ACTIVE; E_CONTINUE_INTENT; E_CANCEL_INTENT; E_CANCEL_REQUESTED].

Lemma in_flight_after s h m ev : ends s h m ev →
  m ∈ ["ENROLL_START_OBSERVED"; "ENROLL_CONTINUE_INTENT"; "ENROLL_CONTINUE_OBSERVED"; "ENROLL_CANCEL_INTENT";
       "ENROLL_CANCEL_DISPATCH_OBSERVED"] → in_flight (Some h).
Proof.
  intros (record & l0 & l & n & d & Hs & -> & Hm & _)%ends_with_step Hin. eexists. split; [done|].
  apply enroll_step_edge in Hs. unfold milestone_of in Hs. rewrite Hm in Hs. cbn [str_value] in Hs.
  change (eh_phase _) with (e_phase (el_state l)). revert Hs. generalize (e_phase (el_state l0)) (e_phase (el_state l)).
  intros p q Hs. inversion Hs as [? ? ? Hmove|? ? ? Hpre|]; subst; list_cases Hin; subst; try discriminate;
    unfold enroll_moves in Hmove; cbn [map app] in Hmove; list_cases Hmove; try discriminate;
    injection Hmove as -> ->; by apply (bool_decide_unpack _).
Qed.

(** Something was sent, in order; only the start may be unknown to the journal
    as it was last read. *)
Definition underway (sent : list enroll_event) (hi : option EnrollmentHistory) : Prop :=
  scripted sent ∧ ((∃ p, sent = [EvStart p]) ∨ in_flight hi).

(** ** Exits *)

(** Why a run ends with an exception: [before] is the journal as it was when
    the operation was made. *)
Inductive explained (before : fs) (e : exn) (sent : list enroll_event) (w : world) : Prop :=
  | ended_early : sent = [] → ew_fs w = before → explained before e sent w
  | ended_refused h ev : sent = [] → e = Exn EnrollmentPreDispatchCancelled "enrollment cancelled before start dispatch" →
      ends (ew_fs w) h "ENROLL_ABORTED_BEFORE_START" ev → explained before e sent w
  | ended_unwritten m e' : sent = [] → m ∈ ["ENROLL_ABORTED_BEFORE_START"; "ENROLL_START_INTENT"] → append_failed m e' w →
      explained before e sent w
  | ended_unknown : e = Exn EnrollmentOperationError UNKNOWN →
      (V → ∃ h ev, ends (ew_fs w) h "ENROLL_OUTCOME_UNKNOWN" ev) → explained before e sent w
  | ended_unjournaled e' : e = Exn EnrollmentOperationError UNJOURNALED → append_failed "ENROLL_OUTCOME_UNKNOWN" e' w →
      explained before e sent w.

(** An append raised something that the operation does not catch there. *)
Definition interrupted (e : exn) (sent : list enroll_event) (hi : option EnrollmentHistory) (w : world) : Prop :=
  is_operation_error (exn_cls e) = false ∧ underway sent hi ∧ ∃ m, append_failed m e w.

Definition stopped (before : fs) (q : option SensitiveEnrollmentRequest) (e : exn) (w : world) : Prop :=
  ∃ sent hi mc, scripted sent ∧ held sent hi mc q w ∧ (explained before e sent w ∨ interrupted e sent hi w).

Context (before : fs).

(** The two ends of [_outcome_unknown] and the exceptions it lets through. *)
Lemma outcome_unknown_strong_wp {A} sent hi mc q stage reason (Q : A → world → Prop) w : held sent hi mc q w →
  wp (outcome_unknown env operation_id stage reason) Q (λ e w', ∃ hi', held sent hi' mc q w'
    ∧ (explained before e sent w' ∨ hi' = hi ∧ is_operation_error (exn_cls e) = false ∧ append_failed "ENROLL_OUTCOME_UNKNOWN" e w')) w.
Proof.
  intros Hw. unfold outcome_unknown. apply wp_bind, wp_catch, wp_bind. unfold wp at 1, generation.
  eapply wp_weaken; [by apply append_held_wp| |]; cbv beta.
  - intros _ w' (h & H1 & He). apply wp_throw. exists (Some h). split; [exact H1|]. left. apply ended_unknown; [done|].
    intros HVV. by eexists h, _; apply He.
  - intros e w' [H1 [[e' He'] He]]. destruct (is_operation_error (exn_cls e)) eqn:Hop.
    + apply wp_throw. exists hi. split; [exact H1|]. left. by eapply ended_unjournaled.
    + exists hi. split; [exact H1|]. right. split; [done|]. split; [done|]. by apply He.
Qed.

Lemma outcome_unknown_wp {A} sent hi mc q stage reason (Q : A → world → Prop) w : underway sent hi → held sent hi mc q w →
  wp (outcome_unknown env operation_id stage reason) Q (stopped before q) w.
Proof.
  intros Hu Hw. eapply wp_weaken; [by eapply outcome_unknown_strong_wp|done|]. cbv beta.
  intros e w' (hi' & H1 & [He|(-> & Hop & He)]); [exists sent, hi', mc|exists sent, hi, mc];
    (split; [apply Hu|]; split; [exact H1|]); [by left|right]. split; [done|]. split; [exact Hu|]. by eexists.
Qed.

Lemma append_active_wp sent hi mc q m ev stage w : underway sent hi → steady sent hi mc q w →
  wp (append_active env operation_id m ev stage) (λ _ w', ∃ h, steady sent (Some h) mc q w' ∧ ends (ew_fs w') h m ev)
    (stopped before q) w.
Proof.
  intros Hu Hw. unfold append_active. apply wp_catch. eapply wp_weaken; [by apply append_steady_wp|done|]. cbv beta.
  intros e w' [H1 [_ He]]. destruct (is_operation_error (exn_cls e)) eqn:Hop; [by eapply outcome_unknown_wp|].
  exists sent, hi, mc. split; [apply Hu|]. split; [exact H1|]. right. split; [done|]. split; [exact Hu|]. exists m. by apply He.
Qed.

(** A call of the transport or of a callback changes nothing else. *)
Lemma on_transport_wp {A} (m : act T A) (Q : A → world → Prop) E sent hi mc q w : steady sent hi mc q w →
  (∀ a w', steady sent hi mc q w' → ew_fs w' = ew_fs w → Q a w') →
  (∀ e w', steady sent hi mc q w' → ew_fs w' = ew_fs w → E e w') → wp (on_transport m) Q E w.
Proof.
  intros [[? ? ? ? ? ?] Hl] HQ HE. unfold wp, on_transport. destruct (m (ew_transport w)) as [[a|e] t];
    [apply HQ; [|done]|apply HE; [|done]]; by split; [split|].
Qed.

Lemma status_of_wp sent hi mc q e (m : act T value) op w h mi ev : underway (sent ++ [e]) hi →
  steady sent hi mc q w → ends (ew_fs w) h mi ev → intent_of e mi ev →
  wp (status_of env operation_id e m op) (λ z w', steady (sent ++ [e]) hi mc q w') (stopped before q) w.
Proof.
  intros Hsc' [[Ha Hs Hhi Hm Hq Hv] Hl] He Hi. unfold status_of. apply wp_catch. cbn [any_class]. apply wp_bind.
  unfold command. apply wp_bind, wp_assign.
  assert (steady (sent ++ [e]) hi mc q (w <| ew_trace := ew_trace w ++ [(e, ew_fs w)] |>)) as H1.
  { split; [|exact Hl]. split; cbn; [|by rewrite map_app, Hs|done..]. apply Forall_app. split; [exact Ha|].
    constructor; [|constructor]. by exists h, mi, ev. }
  eapply on_transport_wp; [exact H1| |intros x w2 [H2 _] _; by eapply outcome_unknown_wp].
  intros v w2 H2 _. apply wp_pure; [by intros z _|]. intros x _. destruct H2 as [H2 _]. by eapply outcome_unknown_wp.
Qed.

Lemma underway_start p hi : underway [EvStart p] hi.
Proof. split; [right; by exists p, 0%nat, false|]. left. by exists p. Qed.
#[local] Hint Resolve underway_start : core.

Lemma guard_wp hi mc q w : steady [] hi mc q w → ew_fs w = before →
  wp (guard env operation_id callbacks) (λ _ w', steady [] hi mc q w' ∧ ew_fs w' = before) (stopped before q) w.
Proof.
  intros Hw Hb. unfold guard. apply wp_bind.
  apply (wp_weaken _ (λ _ w', steady [] hi mc q w' ∧ ew_fs w' = before) _ (λ _ _, False)).
  - apply wp_catch. cbn [any_class]. apply wp_bind. eapply on_transport_wp; [exact Hw| |].
    + intros a w' H' Hf. apply wp_ret. split; [exact H'|congruence].
    + intros e w' H' Hf. apply wp_ret. split; [exact H'|congruence].
  - intros allowed w1 [H1 Hf]. destruct allowed; [by apply wp_ret|]. apply wp_bind. unfold wp at 1, generation.
    apply wp_bind. eapply wp_weaken; [by apply append_steady_wp| |]; cbv beta.
    + intros _ w2 (h & [H2 _] & Hh). apply wp_throw. exists [], (Some h), mc. split; [by left|]. split; [exact H2|].
      left. by eapply ended_refused.
    + intros e w2 [H2 [[e' He] _]]. exists [], hi, mc. split; [by left|]. split; [exact H2|]. left.
      eapply ended_unwritten; [done| |exact He]. by left.
  - done.
Qed.

(** ** The start *)

Definition request_wiped (q : option SensitiveEnrollmentRequest) : Prop :=
  ∀ r, q = Some r → rq_wiped r = true ∧ rq_buffer r = zeros (length (rq_buffer r)).
Definition ended (e : exn) (w : world) : Prop := ∃ q, request_wiped q ∧ stopped before q e w.

Lemma wiped_request r : request_wiped (Some (EnrollmentProtocol.wipe r)).
Proof.
  intros ? [=<-]. split; [done|]. cbn. unfold zeros. rewrite length_map.
  induction (rq_buffer r) as [|c bs IH]; cbn; [done|by f_equal].
Qed.

(** What the journal holds when a run returns: the record of its outcome. *)
Definition recorded (apple_user_id : Z) (res : EnrollmentOperationResult) (w : world) : Prop :=
  or_reconciliation_required res = true ∧ ∃ h m ev, ends (ew_fs w) h m ev
  ∧ (or_outcome res = "start-rejected" ∧ m = "ENROLL_START_REJECTED" ∧ (∃ z, z ≠ 0 ∧ ev@["status"] = VInt z)
     ∨ or_outcome res = "identity-observed" ∧ m = "E2_TERMINAL_IDENTITY_OBSERVED"
       ∧ (∃ t i, or_transition res = Some t ∧ tr_action t = IDENTITY_OBSERVED ∧ tr_identity t = Some i
            ∧ ei_user_id i = apple_user_id ∧ ev@["identity_uuid"] = VStr (uuid_str (be_unpack (ei_identity_uuid i))))
     ∨ or_outcome res = "result-witnessed" ∧ m = "E2_TERMINAL_RESULT_WITNESSED"
       ∧ (∃ t, or_transition res = Some t ∧ tr_action t = RESULT_WITNESSED)
     ∨ m = "ENROLL_TERMINAL_FAILURE_OBSERVED"
       ∧ (∃ t status, or_transition res = Some t ∧ terminal_status (tr_action t) = Some (status, or_outcome res)
            ∧ ev@["status"] = VInt status)).

Definition after_start (apple_user_id : Z) (mc : option machine) (r : option EnrollmentOperationResult) (w : world) : Prop :=
  ∃ payload q hi, request_wiped q ∧ steady [EvStart payload] hi mc q w
    ∧ match r with Some res => recorded apple_user_id res w | None => in_flight hi end.

Lemma start_enrollment_wp apple form hi mc q w : request_wiped q → steady [] hi mc q w → ew_fs w = before →
  wp (start_enrollment env operation_id apple form) (after_start apple mc) ended w.
Proof.
  intros Hq Hw Hb. unfold start_enrollment. apply wp_bind, wp_self, wp_bind, wp_pure.
  2:{ intros e _. exists q. split; [exact Hq|]. exists [], hi, mc. split; [by left|]. split; [apply Hw|]. left. by apply ended_early. }
  intros request _. apply wp_bind, wp_assign, wp_finally.
  assert (steady [] hi mc (Some request) (w <| ew_request := Some request |>)) as H1
    by (by destruct Hw as [[? ? ? ? ? ?] ?]; split; [split|]).
  apply (wp_weaken _ (λ r w', ∃ payload hi', steady [EvStart payload] hi' mc (Some request) w'
      ∧ match r with Some res => recorded apple res w' | None => in_flight hi' end) _ (stopped before (Some request))).
  - apply wp_bind, wp_pure.
    2:{ intros e _. exists [], hi, mc. split; [by left|]. split; [apply H1|]. left. by apply ended_early. }
    intros payload _. apply wp_bind. unfold wp at 1, generation. apply wp_bind.
    eapply wp_weaken; [by apply append_steady_wp| |]; cbv beta.
    2:{ intros e w2 [H2 [[e' He] _]]. exists [], hi, mc. split; [by left|]. split; [exact H2|]. left.
        eapply ended_unwritten; [done| |exact He]. right. by left. }
    intros _ w2 (h & H2 & Hh). apply wp_bind.
    eapply wp_weaken; [eapply (status_of_wp []); [apply underway_start|exact H2|exact Hh|by split]| |done].
    cbv beta. intros z w3 H3. apply wp_if; intros Hz; apply wp_bind; (eapply wp_weaken; [by eapply append_active_wp| |done]);
      cbv beta; intros _ w4 (h4 & H4 & Hh4); apply wp_ret; exists payload, (Some h4); (split; [exact H4|]).
    + split; [done|]. eexists h4, _, _. split; [exact Hh4|]. left. split; [done|]. split; [done|]. exists z.
      split; [by apply negb_true_iff, Z.eqb_neq in Hz|exact eq_refl].
    + eapply in_flight_after; [exact Hh4|]. by left.
  - intros r w' (payload & hi' & [[? ? ? ? Hreq ?] Hl] & Hr). exists payload, (Some (EnrollmentProtocol.wipe request)), hi'.
    split; [apply wiped_request|]. split; [|by destruct r]. split; [|exact Hl]. split; try done. cbn. by rewrite Hreq.
  - intros e w' (sent & hi' & mc' & Hsc & [? ? ? ? Hreq ?] & He). exists (Some (EnrollmentProtocol.wipe request)).
    split; [apply wiped_request|]. exists sent, hi', mc'. split; [exact Hsc|].
    split; [|destruct He as [He|He]; [left; by destruct He; [eapply ended_early|eapply ended_refused|eapply ended_unwritten|
      eapply ended_unknown|eapply ended_unjournaled]|right; exact He]].
    split; try done. cbn. by rewrite Hreq.
Qed.

(** ** The loop *)

(** Before each turn: a machine that follows this enrolment, and the commands
    so far. *)
Definition looping (apple_user_id : Z) (q : option SensitiveEnrollmentRequest) (cancel_sent : bool) (w : world) : Prop :=
  ∃ payload k m hi, em_state m = (if cancel_sent then CANCEL_REQUESTED else ACTIVE) ∧ em_expected_user_id m = apple_user_id
    ∧ in_flight hi ∧ steady (commands_of payload k cancel_sent) hi (Some m) q w.

Lemma scripted_commands payload k b : scripted (commands_of payload k b).
Proof. right. by exists payload, k, b. Qed.
Lemma underway_commands payload k b hi : in_flight hi → underway (commands_of payload k b) hi.
Proof. intros H. split; [apply scripted_commands|]. by right. Qed.
#[local] Hint Resolve scripted_commands underway_commands : core.

Lemma commands_cancel payload k : commands_of payload k false ++ [EvCancel] = commands_of payload k true.
Proof. unfold commands_of. by rewrite app_nil_r. Qed.
Lemma commands_continue payload k : commands_of payload k false ++ [EvContinue] = commands_of payload (S k) false.
Proof. unfold commands_of. rewrite !app_nil_r, replicate_S_end. done. Qed.

Lemma on_machine_wp {A} (m : act machine A) (Q : A → world → Prop) E sent hi mc q w : steady sent hi (Some mc) q w →
  wp m (λ a mc', ∀ w', steady sent hi (Some mc') q w' → ew_fs w' = ew_fs w → Q a w')
    (λ e mc', ∀ w', steady sent hi (Some mc') q w' → E e w') mc →
  wp (on_machine m) Q E w.
Proof.
  intros [[? ? ? Hm ? ?] Hl] Hwp. unfold wp, on_machine in *. rewrite Hm. destruct (m mc) as [[a|e] mc'];
    apply Hwp; try done; by split; [split|].
Qed.

Lemma cancel_step_wp apple q b w : looping apple q b w →
  wp (cancel_step env operation_id callbacks b) (λ b' w', looping apple q b' w') (stopped before q) w.
Proof.
  intros (payload & k & m & hi & Hst & Hu & Hfl & Hw). unfold cancel_step. apply wp_bind.
  apply (wp_weaken _ (λ should w', steady (commands_of payload k b) hi (Some m) q w' ∧ (should = true → b = false)) _ (stopped before q)).
  - apply wp_if; intros Hb; [by apply wp_ret|]. subst b. apply wp_catch. cbn [any_class]. apply wp_bind.
    eapply on_transport_wp; [exact Hw|intros v w1 H1 _; by apply wp_ret|].
    intros e w1 [H1 _] _. eapply outcome_unknown_wp; [by apply underway_commands|exact H1].
  - intros should w1 [H1 Hb]. destruct should; [|apply wp_ret; by exists payload, k, m, hi].
    rewrite (Hb eq_refl) in *. clear Hb. apply wp_bind. unfold wp at 1, generation. apply wp_bind.
    eapply wp_weaken; [eapply append_active_wp; [by apply underway_commands|exact H1]| |done]. cbv beta.
    intros _ w2 (h & H2 & Hh). apply wp_bind.
    assert (in_flight (Some h)) as Hfl2 by (eapply in_flight_after; [exact Hh|by apply (bool_decide_unpack _)]).
    eapply on_machine_wp; [exact H2|]. unfold request_cancel. apply wp_bind, wp_self, wp_bind.
    rewrite Hst, bool_decide_eq_true_2 by done. cbn [negb freeze_if]. apply wp_ret. unfold set_state. apply wp_assign.
    intros w3 H3 Hfs. apply wp_bind.
    eapply wp_weaken; [eapply status_of_wp; [rewrite commands_cancel; by apply underway_commands
      |exact H3|by rewrite Hfs|done]| |done].
    cbv beta. rewrite commands_cancel. intros z w4 H4. apply wp_bind, wp_if; intros _.
    { destruct H4 as [H4 _]. eapply outcome_unknown_wp; [by apply underway_commands|exact H4]. }
    apply wp_ret, wp_bind. eapply wp_weaken; [eapply append_active_wp; [by apply underway_commands|exact H4]| |done].
    cbv beta. intros _ w5 (h5 & H5 & Hh5).
    apply wp_ret. eexists payload, k, _, _. split; [|split; [|split; [|exact H5]]]; [done|exact Hu|].
    eapply in_flight_after; [exact Hh5|by apply (bool_decide_unpack _)].
  - done.
Qed.

(** *** One event *)

(** What a transition of the machine carries. *)
Definition transition_shape (t : EnrollmentTransition) : Prop :=
  (tr_action t = IDENTITY_OBSERVED → tr_identity t ≠ None)
  ∧ (tr_continue_required t = true → terminal_action (tr_action t) = false).

Lemma accept_shape e g o m : wp (accept e g o) (λ t _, transition_shape t) (λ _ _, True) m.
Proof.
  unfold accept. apply wp_bind. apply (wp_weaken _ (λ _ _, True) _ (λ _ _, True)); [|intros _ m1 _|done].
  { unfold wp. by destruct (admit_event e g o m) as [[]]. }
  unfold accept_event, accept_result, accept_status, freezing.
  machine_run; try (by match goal with |- context [if ?b then wp _ _ _ else _] => destruct b end; machine_run); unfold transition_shape, transition; cbn; try done.
Qed.

Definition accepted_event (apple_user_id : Z) (q : option SensitiveEnrollmentRequest) (b : bool) (t : EnrollmentTransition) (w : world) : Prop :=
  transition_shape t ∧ (tr_continue_required t = true → b = false) ∧ (∀ i, tr_identity t = Some i → ei_user_id i = apple_user_id)
  ∧ ∃ payload k m hi, em_expected_user_id m = apple_user_id ∧ in_flight hi ∧ steady (commands_of payload k b) hi (Some m) q w
      ∧ (terminal_action (tr_action t) = false → em_state m = (if b then CANCEL_REQUESTED else ACTIVE)).

Lemma parse_event_wf raw e : parse_service_event raw = Ok e → event_wf e.
Proof.
  unfold parse_service_event. intros (? & _ & H)%bind_Ok. apply bind_Ok in H as ([? [? [? [? ?]]]] & _ & H).
  cbv zeta in H. apply bind_Ok in H as (? & _ & (o & _ & H)%bind_Ok). unfold event_wf.
  by pose proof H as [-> _]%new_event_Ok.
Qed.

Lemma parse_event_raises raw : raises (λ c, c = EnrollmentProtocolError) (parse_service_event raw).
Proof.
  unfold parse_service_event. apply raises_bind; [raises_run; done|]. intros _ Hlen%fail_if_Ok%negb_false_iff%andb_prop.
  destruct Hlen as [Hlen%Z.leb_le _]. apply raises_bind.
  { apply (unpack_from_raises _ SERVICE_HEADER raw 0). lia. }
  intros [? [ty [? [? ?]]]] _. cbv zeta. apply raises_bind; [raises_run; done|]. intros _ _. apply raises_bind.
  - apply raises_if; [|raises_run; done]. intros _. apply raises_bind; [raises_run; done|].
    intros _ Hp%fail_if_Ok%Nat.ltb_ge. apply raises_bind; [|intros [? ?] _; raises_run; done].
    apply (unpack_from_raises _ STATUS_PAYLOAD_HEADER _ 0). lia.
  - intros o _. unfold new_event. raises_run; done.
Qed.

Lemma accept_raw_wp apple q b raw w : looping apple q b w →
  wp (accept_raw env operation_id raw) (λ et w', accepted_event apple q b et.2 w') (stopped before q) w.
Proof.
  intros (payload & k & m & hi & Hst & Hu & Hfl & Hw). unfold accept_raw. apply wp_catch.
  assert (∀ e w' mc, steady (commands_of payload k b) hi mc q w' → exn_cls e = EnrollmentProtocolError →
    (if bool_decide (exn_cls e ∈ [EnrollmentProtocolError; TypeError])
    then wp (outcome_unknown env operation_id "terminal" "protocol-error" : action (ServiceEvent * EnrollmentTransition))
           (λ et w', accepted_event apple q b et.2 w') (stopped before q)
    else stopped before q e) w') as Hfail.
  { intros e w' mc [H' _] ->. rewrite bool_decide_eq_true_2 by (by left). eapply outcome_unknown_wp; [by apply underway_commands|exact H']. }
  apply wp_bind, wp_pure; [|intros e He; eapply Hfail; [exact Hw|exact (parse_event_raises raw e He)]].
  intros event Hev%parse_event_wf. apply wp_bind, wp_self, wp_bind. eapply on_machine_wp; [exact Hw|].
  eapply wp_weaken; [exact (wp_conj _ _ _ _ _ _ (accept_wp event _ operation_id m Hev) (accept_shape event _ operation_id m))| |]; cbv beta.
  - intros t m' [(m1 & Hadm & Hok) Hshape] w1 H1 _. apply wp_ret. cbn [snd].
    destruct Hadm as (_ & _ & _ & _ & d & _ & _ & ->). destruct Hok as (Hu' & _ & _ & _ & _ & _ & Hkeep & _ & Hid & _ & Hcont).
    cbn in *. split; [exact Hshape|]. split; [|split].
    + intros Hc. destruct b; [|done]. by rewrite (Hcont Hst) in Hc.
    + intros i Hi. by rewrite (Hid i Hi).
    + exists payload, k, m', hi. split; [by rewrite Hu'|]. split; [exact Hfl|]. split; [exact H1|]. intros Ht. by rewrite (Hkeep Ht).
  - intros e m' [(Hcls & _ & _) _] w1 H1. eapply Hfail; [exact H1|exact Hcls].
Qed.

(** What a run that returns leaves. *)
Definition finished (apple_user_id : Z) (q : option SensitiveEnrollmentRequest) (res : EnrollmentOperationResult) (w : world) : Prop :=
  recorded apple_user_id res w ∧ ∃ sent hi mc, scripted sent ∧ steady sent hi mc q w.

Lemma feedback_wp apple q b t w : accepted_event apple q b t w →
  wp (feedback env operation_id callbacks t) (λ _ w', accepted_event apple q b t w') (stopped before q) w.
Proof.
  intros Hw. unfold feedback. apply wp_if; intros _; [by apply wp_ret|]. apply wp_catch. cbn [any_class]. apply wp_bind.
  destruct Hw as (Hshape & Hc & Hid & payload & k & m & hi & Hu & Hfl & Hw & Hst).
  assert (∀ w', steady (commands_of payload k b) hi (Some m) q w' → accepted_event apple q b t w') as Hacc
    by (intros w' H'; do 3 (split; [done|]); by exists payload, k, m, hi).
  assert (∀ w', steady (commands_of payload k b) hi (Some m) q w' →
    wp (outcome_unknown env operation_id "active" "protocol-error" : action unit) (λ _ w', accepted_event apple q b t w') (stopped before q) w')
    as Hfail by (intros w' [H' _]; eapply outcome_unknown_wp; [by apply underway_commands|exact H']).
  eapply on_transport_wp; [exact Hw| |intros e w1 H1 _; by apply Hfail].
  intros [v|] w1 H1 _; [|apply wp_throw; by apply Hfail].
  apply wp_throw_if; intros _; [by apply Hfail|by apply Hacc].
Qed.

Lemma continue_step_wp apple q t raw event w : accepted_event apple q false t w → tr_continue_required t = true →
  wp (continue_step env operation_id raw event) (λ _ w', looping apple q false w') (stopped before q) w.
Proof.
  intros (Hshape & _ & _ & payload & k & m & hi & Hu & Hfl & Hw & Hst) Hc. unfold continue_step.
  apply wp_bind. unfold wp at 1, generation. apply wp_bind.
  eapply wp_weaken; [eapply append_active_wp; [by apply underway_commands|exact Hw]| |done]. cbv beta.
  intros _ w2 (h & H2 & Hh). apply wp_bind.
  assert (in_flight (Some h)) as Hfl2 by (eapply in_flight_after; [exact Hh|by apply (bool_decide_unpack _)]).
  eapply wp_weaken; [eapply status_of_wp; [rewrite commands_continue; by apply underway_commands
    |exact H2|exact Hh|done]| |done].
  cbv beta. rewrite commands_continue. intros z w3 H3.
  eapply wp_weaken; [eapply append_active_wp; [by apply underway_commands|exact H3]| |done]. cbv beta. intros _ w4 (h4 & H4 & Hh4).
  exists payload, (S k), m, (Some h4). split; [exact (Hst (proj2 Hshape Hc))|]. split; [exact Hu|]. split; [|exact H4].
  eapply in_flight_after; [exact Hh4|by apply (bool_decide_unpack _)].
Qed.

Lemma finish_step_wp apple q b t raw event w : accepted_event apple q b t w → tr_continue_required t = false →
  wp (finish_step env operation_id raw event t)
    (λ r w', match r with Some res => finished apple q res w' | None => looping apple q b w' end) (stopped before q) w.
Proof.
  intros (Hshape & _ & Hid & payload & k & m & hi & Hu & Hfl & Hw & Hst) _. unfold finish_step.
  assert (underway (commands_of payload k b) hi) as Hun by (by apply underway_commands).
  apply wp_bind. unfold wp at 1, generation.
  assert (∀ ms ev w', (∃ h, steady (commands_of payload k b) (Some h) (Some m) q w' ∧ ends (ew_fs w') h ms ev) →
    ∀ res, or_reconciliation_required res = true → (∀ h, ends (ew_fs w') h ms ev → recorded apple res w') → finished apple q res w') as Hfin.
  { intros ms ev w' (h & H' & Hh) res Hr Hrec. split; [by eapply Hrec|]. exists (commands_of payload k b), (Some h), (Some m). by split. }
  apply wp_if; intros Hact.
  { apply bool_decide_eq_true in Hact. destruct (tr_identity t) as [i|] eqn:Hi; [|by destruct (proj1 Hshape Hact)].
    apply wp_bind. eapply wp_weaken; [by eapply append_active_wp| |done]. cbv beta. intros _ w1 Hh. apply wp_ret.
    eapply Hfin; [exact Hh|done|]. intros h He. split; [done|]. eexists h, _, _. split; [exact He|].
    right. left. split; [done|]. split; [done|]. exists t, i. repeat (split; [done|]). split; [by apply Hid|exact eq_refl]. }
  apply wp_if; intros Hwit.
  { apply bool_decide_eq_true in Hwit. apply wp_bind. eapply wp_weaken; [by eapply append_active_wp| |done]. cbv beta.
    intros _ w1 Hh. apply wp_ret. eapply Hfin; [exact Hh|done|]. intros h He. split; [done|].
    eexists h, _, _. split; [exact He|]. right. right. left. split; [done|]. split; [done|]. by exists t. }
  destruct (terminal_status (tr_action t)) as [[status outcome]|] eqn:Hterm.
  - apply wp_bind. eapply wp_weaken; [by eapply append_active_wp| |done]. cbv beta.
    intros _ w1 Hh. apply wp_ret. eapply Hfin; [exact Hh|done|]. intros h He. split; [done|].
    eexists h, _, _. split; [exact He|]. right. right. right. split; [done|]. exists t, status.
    split; [done|]. split; [exact Hterm|exact eq_refl].
  - apply wp_ret. exists payload, k, m, hi. split; [|by split]. apply Hst.
    apply bool_decide_eq_false in Hact, Hwit. by destruct (tr_action t).
Qed.

Lemma handle_event_wp apple q b raw w : looping apple q b w →
  wp (handle_event env operation_id callbacks raw)
    (λ r w', match r with Some res => finished apple q res w' | None => looping apple q b w' end) (stopped before q) w.
Proof.
  intros Hw. unfold handle_event. apply wp_bind. eapply wp_weaken; [by apply accept_raw_wp| |done]. cbv beta.
  intros [event t] w1 H1. cbn [snd] in H1. apply wp_bind. eapply wp_weaken; [by apply feedback_wp| |done]. cbv beta.
  intros _ w2 H2. apply wp_if; intros Hc; [|by apply finish_step_wp].
  assert (b = false) as -> by (by apply H2). apply wp_bind.
  eapply wp_weaken; [by eapply continue_step_wp| |done]. cbv beta. intros _ w3 H3. by apply wp_ret.
Qed.

(** A run that has not returned yet is between two turns. *)
Definition running (apple_user_id : Z) (q : option SensitiveEnrollmentRequest) (r : option EnrollmentOperationResult) (w : world) : Prop :=
  match r with Some res => finished apple_user_id q res w | None => ∃ b, looping apple_user_id q b w end.

Lemma event_loop_wp apple q polls : ∀ remaining b w, looping apple q b w →
  wp (event_loop env operation_id callbacks polls remaining b) (running apple q) (stopped before q) w.
Proof.
  induction polls as [|polls IH]; intros [|remaining] b w Hw; cbn [event_loop].
  1,3: destruct Hw as (payload & k & m & hi & _ & _ & Hfl & Hw & _); (eapply outcome_unknown_wp; [by apply underway_commands|exact Hw]).
  { apply wp_ret. by exists b. }
  apply wp_bind. eapply wp_weaken; [by apply cancel_step_wp| |done]. cbv beta. intros b' w1 H1. apply wp_bind.
  apply (wp_weaken _ (λ _ w', looping apple q b' w') _ (stopped before q)); [| |done].
  - apply wp_catch. cbn [any_class]. destruct H1 as (payload & k & m & hi & Hst & Hu & Hfl & H1).
    eapply on_transport_wp; [exact H1| |intros e w2 [H2 _] _; eapply outcome_unknown_wp; [by apply underway_commands|exact H2]].
    intros a w2 H2 _. by exists payload, k, m, hi.
  - intros [raw|] w2 H2; [|by apply IH]. apply wp_bind. eapply wp_weaken; [by apply handle_event_wp| |done]. cbv beta.
    intros [res|] w3 H3; [by apply wp_ret|by apply IH].
Qed.

(** ** A whole run *)

(** How a run ends with an exception. *)
Definition exited (e : exn) (w : world) : Prop :=
  ∃ q sent hi mc, request_wiped q ∧ scripted sent ∧ held sent hi mc q w
  ∧ (explained before e sent w
     ∨ append_failed "ENROLL_OUTCOME_UNKNOWN" e w
     ∨ e = Exn EnrollmentOperationError "enrollment operation failed locally" ∧ (∃ p, sent = [EvStart p])
       ∧ ∃ m e', append_failed m e' w ∧ is_operation_error (exn_cls e') = false).

Definition settled (apple_user_id : Z) (r : option EnrollmentOperationResult) (w : world) : Prop :=
  ∃ q, request_wiped q ∧ running apple_user_id q r w.

Lemma new_machine_Ok u g o m : new_machine u g o = Ok m → em_state m = ACTIVE ∧ em_expected_user_id m = u.
Proof. unfold new_machine. intros (? & _ & (? & _ & <-%Ok_inj)%bind_Ok)%bind_Ok. done. Qed.

Lemma body_wp apple form polls limit m hi q w : em_state m = ACTIVE → em_expected_user_id m = apple → request_wiped q →
  steady [] hi (Some m) q w → ew_fs w = before →
  wp (_ ← guard env operation_id callbacks;
      rejected ← start_enrollment env operation_id apple form;
      match rejected with Some r => mret (Some r) | None => event_loop env operation_id callbacks polls limit false end)
    (settled apple) ended w.
Proof.
  intros Hst Hu Hq Hw Hb. apply wp_bind. eapply wp_weaken; [by eapply guard_wp| |]; cbv beta.
  2:{ intros e w1 H1. by exists q. }
  intros _ w1 [H1 Hb1]. apply wp_bind. eapply wp_weaken; [by eapply start_enrollment_wp| |done]. cbv beta.
  intros rejected w2 (payload & q' & hi' & Hq' & H2 & Hr). destruct rejected as [res|].
  - apply wp_ret. exists q'. split; [exact Hq'|]. split; [exact Hr|]. exists [EvStart payload], hi', (Some m).
    split; [|exact H2]. by apply (scripted_commands payload 0 false).
  - eapply wp_weaken; [apply (event_loop_wp apple q')| |]; cbv beta.
    + by exists payload, 0%nat, m, hi'.
    + intros r w3 H3. by exists q'.
    + intros e w3 H3. by exists q'.
Qed.

(** The last handler of [run]. *)
Lemma handler_wp e w1 : is_operation_error (exn_cls e) = false → ended e w1 →
  wp (w ← self;
      if match ew_history w with
         | Some history => bool_decide (eh_phase history ∈ [E_ACTIVE; E_CONTINUE_INTENT; E_CANCEL_INTENT; E_CANCEL_REQUESTED])
         | None => false
         end
      then outcome_unknown env operation_id "active" "protocol-error"
      else throw EnrollmentOperationError "enrollment operation failed locally" : action (option EnrollmentOperationResult))
    (λ _ _, False) exited w1.
Proof.
  intros Hop (q & Hq & sent & hi & mc & Hs & Hh & He). apply wp_bind, wp_self. apply wp_if; intros Hphase.
  - eapply wp_weaken; [by eapply outcome_unknown_strong_wp with (Q := λ _ _, False)|done|]. cbv beta. intros e2 w2 (hi' & H2 & He2).
    exists q, sent, hi', mc. repeat (split; [done|]). destruct He2 as [He2|(_ & _ & He2)]; [by left|right; by left].
  - apply wp_throw. exists q, sent, hi, mc. repeat (split; [done|]).
    assert (∀ x : exn, explained before e sent w1 → explained before x sent w1) as Hearly.
    { intros x [? | ? ? ? -> _ | ? ? ? ? ? | -> _ | ? -> _]; try done; [by eapply ended_early|by eapply ended_unwritten]. }
    destruct He as [He|(_ & [_ Hun] & m & Hm)]; [left; by apply Hearly|].
    destruct Hun as [Hp|(h & -> & Hin)]; [right; right; split; [done|]; split; [exact Hp|]; by exists m, e|].
    exfalso. by rewrite (hd_history _ _ _ _ _ Hh), bool_decide_eq_true_2 in Hphase.
Qed.

Lemma enroll_run_wp apple form limit polls hi mc q w : request_wiped q → steady [] hi mc q w → ew_fs w = before →
  wp (run env operation_id callbacks apple form limit polls) (settled apple) exited w.
Proof.
  intros Hq Hw Hb.
  assert (∀ e, exited e w) as Hearly.
  { intros e. exists q, [], hi, mc. split; [exact Hq|]. split; [by left|]. split; [apply Hw|]. left. by apply ended_early. }
  unfold run. apply wp_bind, wp_throw_if; [intros _; apply Hearly|]. intros _. apply wp_bind, wp_self, wp_bind, wp_pure.
  2:{ intros e _. apply Hearly. }
  intros m [Hst Hu]%new_machine_Ok. apply wp_bind, wp_assign, wp_catch.
  eapply wp_weaken; [apply (body_wp apple form polls _ m hi q); [exact Hst|exact Hu|exact Hq| |exact Hb]|done|]; cbv beta.
  { destruct Hw as [[? ? ? ? ? ?] Hl]. by split; [split|]. }
  intros e w1 H1. destruct (is_operation_error (exn_cls e)) eqn:Hop; cbn [negb].
  - destruct H1 as (q1 & Hq1 & sent & hi1 & mc1 & Hs & Hh & [He|(Hx & _)]); [|congruence].
    exists q1, sent, hi1, mc1. repeat (split; [done|]). by left.
  - eapply wp_weaken; [by apply (handler_wp e)|done|]. cbv beta. by intros e2 w2.
Qed.

(** Before the constructor nothing was sent. *)
Definition unstarted (w : world) : Prop := ew_trace w = [] ∧ ew_request w = None ∧ whole (ew_fs w).

End runs.

Section whole_runs.
Context {T : Type} `{Htrans : EnrollmentTransport T} (env : surroundings) (lines : orderly env) (operation_id : string)
  (callbacks : Callbacks T) (V : Prop) (HV : V → whole_writes env).
#[local] Abbreviation world := (enroll_world T).

Lemma enroll_wp boot mapping caller target form limit polls (w : world) : unstarted w →
  wp (enroll env operation_id callbacks boot mapping caller target form limit polls)
    (λ r w', ∃ h, read_history (S := enroll_loop) (su_euid env) (fs_entry (seen env w)) = Ok h ∧ eh_phase h = E_BASELINE
       ∧ settled env operation_id V (int_value ((eh_baseline h)@["apple_uid"])) r w')
    (exited env operation_id V (seen env w)) w.
Proof.
  intros (Ht & Hq & Hl). unfold enroll. apply wp_bind. unfold new_operation. apply wp_bind. unfold wp at 1, read_call. cbv zeta.
  assert (steady env operation_id V [] (ew_history w) (ew_machine w) None (with_journal (seen env w) (S (accesses_of w)) w)) as Hw.
  { assert (whole (seen env w)) as Hs by (by apply lines). split; [|exact Hs]. split; cbn; [by rewrite Ht|by rewrite Ht|done|done|done|done]. }
  assert (∀ e, exited env operation_id V (seen env w) e (with_journal (seen env w) (S (accesses_of w)) w)) as Hearly.
  { intros e. exists None, [], (ew_history w), (ew_machine w). split; [by intros ? [=]|]. split; [by left|]. split; [apply Hw|].
    left. by apply ended_early. }
  destruct (read_history _ _) as [h|e] eqn:Hread; [|apply Hearly]. set (w1 := with_journal _ _ w) in *.
  assert (ew_fs w1 = seen env w) as Hfs by done.
  apply wp_bind, wp_self, wp_bind, wp_pure; [|intros e _; apply Hearly]. intros [] Hready.
  apply wp_bind, wp_throw_if; [intros _; apply Hearly|]. intros _. apply wp_assign, wp_bind, wp_self. cbv zeta. cbn [ew_history set_field].
  eapply wp_weaken; [apply (enroll_run_wp env lines operation_id callbacks V HV (seen env w) _ form limit polls (Some h) (ew_machine w) None)| |]; cbv beta.
  - by intros ? [=].
  - destruct Hw as [[? ? ? ? ? ?] Hl']. by split; [split|].
  - exact Hfs.
  - intros r w2 H2. exists h. split; [exact eq_refl|]. split; [|exact H2].
    unfold require_start_ready in Hready. apply bind_Ok in Hready as (? & Hph & _).
    by apply fail_if_Ok, negb_false_iff, bool_decide_eq_true in Hph.
  - done.
Qed.
End whole_runs.

Section theorems.
Context {T : Type} `{Htrans : EnrollmentTransport T} (env : surroundings) (lines : orderly env) (operation_id : string)
  (callbacks : Callbacks T).
#[local] Abbreviation world := (enroll_world T).
#[local] Abbreviation enroll := (enroll env operation_id callbacks).

(** What a run leaves, however it ends. *)
Definition traced (w : world) : Prop :=
  Forall (command_announced env operation_id) (ew_trace w) ∧ scripted (map fst (ew_trace w)) ∧ request_wiped (ew_request w).

Lemma held_traced V sent hi mc q w : scripted sent → request_wiped q → held env operation_id V sent hi mc q w → traced w.
Proof. intros Hs Hq [Ha He _ _ Hr _]. split; [exact Ha|]. by rewrite He, Hr. Qed.

Lemma settled_traced V apple r w : settled env operation_id V apple r w → traced w.
Proof.
  intros (q & Hq & Hr). destruct r as [res|].
  - destruct Hr as (_ & sent & hi & mc & Hs & Hh & _). by eapply held_traced.
  - destruct Hr as (b & payload & k & m & hi & _ & _ & _ & Hh & _). eapply held_traced; [apply scripted_commands|exact Hq|exact Hh].
Qed.

Lemma enroll_traced boot mapping caller target form limit polls w r w' : unstarted w →
  enroll boot mapping caller target form limit polls w = (r, w') → traced w'.
Proof.
  intros Hw Hr.
  pose proof (enroll_wp env lines operation_id callbacks False ltac:(by intros []) boot mapping caller target form limit polls w Hw) as H.
  unfold wp in H. rewrite Hr in H. destruct r as [r|e].
  - destruct H as (h & _ & _ & H). by eapply settled_traced.
  - destruct H as (q & sent & hi & mc & Hq & Hs & Hh & _). by eapply held_traced.
Qed.

(** C6: No command without its record.  The journal starts as whole lines;
    other processes may change it before and inside every access, as long as
    they leave whole lines and do not come between an append and the reading
    back that follows it; the transport, the callbacks and the calls of the
    operating system may do anything, for as long as they like.  Then the run
    sends a start, then continuations, then at most one cancellation, and
    nothing after it; when a command is sent, the journal as the operation last
    read it back ends with the record of its intent - for the start with the
    length and the digest of the very bytes that are sent; and the request that
    holds the credential is wiped, however the run ends. *)
Theorem enrollment_commands_journalled boot mapping caller target form limit polls w r w' : unstarted w →
  enroll boot mapping caller target form limit polls w = (r, w') → traced w'.
Proof. apply enroll_traced. Qed.

End theorems.

(** ** What the transport keeps through a run *)

Create HintDb keeps.

Section keeps.
Context {T : Type} `{Htrans : EnrollmentTransport T} (env : surroundings) (operation_id : string) (callbacks : Callbacks T).
#[local] Abbreviation world := (enroll_world T).
#[local] Abbreviation action := (act (enroll_world T)).

(** A property of the commands recorded and of the transport: every method and
    every callback keeps it, whatever its outcome. *)
Context (I : list (enroll_event * fs) → T → Prop).
Definition unheard {A} (m : act T A) : Prop := ∀ s t, I s t → I s (m t).2.
Definition heard {A} (e : enroll_event) (m : act T A) : Prop := ∀ s f t, I s t → I (s ++ [(e, f)]) (m t).2.
Record transport_keeps : Prop := {
  tk_start v : heard (EvStart (vw_bytes v)) (et_start v);
  tk_continue : heard EvContinue et_continue;
  tk_cancel : heard EvCancel et_cancel;
  tk_next : unheard et_next_event;
  tk_allowed : unheard (dispatch_allowed callbacks);
  tk_requested : unheard (cancel_requested callbacks);
  tk_feedback tr : unheard (on_feedback callbacks tr);
}.
Context (tk : transport_keeps).

Definition kept (w : world) : Prop := I (ew_trace w) (ew_transport w).
Definition keeps {A} (m : action A) : Prop := ∀ w, kept w → kept (m w).2.

Lemma keeps_bind {A B} (m : action A) (f : A → action B) : keeps m → (∀ a, keeps (f a)) → keeps (m ≫= f).
Proof.
  intros Hm Hf w Hw. unfold mbind, act_bind. specialize (Hm w Hw). destruct (m w) as [[a|e] w1]; [by apply Hf|done].
Qed.
Lemma keeps_catch {A} c (m : action A) h : keeps m → (∀ e, keeps (h e)) → keeps (catch c m h).
Proof.
  intros Hm Hh w Hw. unfold catch. specialize (Hm w Hw). destruct (m w) as [[a|e] w1]; [done|].
  destruct (c _); [by apply Hh|done].
Qed.
Lemma keeps_finally {A} (m : action A) f : keeps m →
  (∀ w, ew_trace (f w) = ew_trace w ∧ ew_transport (f w) = ew_transport w) → keeps (finally m f).
Proof.
  intros Hm Hf w Hw. unfold finally. specialize (Hm w Hw). destruct (m w) as [r w1]. cbn [snd] in *.
  unfold kept. by destruct (Hf w1) as [-> ->].
Qed.
Lemma keeps_ret {A} (a : A) : keeps (mret a).
Proof. by intros w Hw. Qed.
Lemma keeps_throw {A} c msg : keeps (throw c msg : action A).
Proof. by intros w Hw. Qed.
Lemma keeps_throw_if b c msg : keeps (throw_if b c msg : action unit).
Proof. destruct b; [apply keeps_throw|apply keeps_ret]. Qed.
Lemma keeps_pure {A} (m : result A) : keeps (pure m).
Proof. by intros w Hw. Qed.
Lemma keeps_self : keeps self.
Proof. by intros w Hw. Qed.
Lemma keeps_assign f : (∀ w, ew_trace (f w) = ew_trace w ∧ ew_transport (f w) = ew_transport w) → keeps (assign f).
Proof. intros Hf w Hw. unfold kept. cbn. by destruct (Hf w) as [-> ->]. Qed.
Lemma keeps_if {A} (b : bool) (m m' : action A) : keeps m → keeps m' → keeps (if b then m else m').
Proof. by destruct b. Qed.
Lemma keeps_generation : keeps generation.
Proof. by intros w Hw. Qed.
Lemma keeps_transport {A} (m : act T A) : unheard m → keeps (on_transport m).
Proof. intros Hm w Hw. specialize (Hm _ _ Hw). unfold on_transport. by destruct (m _) as [r t]. Qed.
Lemma keeps_command {A} e (m : act T A) : heard e m → keeps (command e m).
Proof.
  intros Hm w Hw. specialize (Hm _ (ew_fs w) _ Hw). unfold command, on_transport, mbind, act_bind, assign. cbn [ew_transport set_field].
  by destruct (m _) as [r t].
Qed.
Lemma keeps_machine {A} (m : act machine A) : keeps (on_machine m).
Proof. intros w Hw. unfold on_machine. destruct (ew_machine w) as [s|]; [|done]. by destruct (m s). Qed.
Lemma keeps_append_call m ev : keeps (append_call env operation_id m ev : action EnrollmentHistory).
Proof. intros w Hw. unfold append_call. cbv zeta. by destruct (append_checked _ _ _ _ _ _ _ _). Qed.
Lemma keeps_read_call : keeps (read_call env : action EnrollmentHistory).
Proof. by intros w Hw. Qed.

#[local] Hint Resolve keeps_bind keeps_catch keeps_finally keeps_ret keeps_throw keeps_throw_if keeps_pure keeps_self
  keeps_assign keeps_if keeps_generation keeps_transport keeps_command keeps_machine keeps_append_call keeps_read_call : keeps.
#[local] Hint Resolve tk_start tk_continue tk_cancel tk_next tk_allowed tk_requested tk_feedback : keeps.
#[local] Hint Extern 1 (heard (EvStart ?b) (et_start (View ?n ?i ?r ?b))) => exact (tk_start tk (View n i r b)) : keeps.

Ltac keep := repeat first
  [ match goal with |- ∀ _, _ => intro end | apply keeps_command; auto with keeps; fail | apply keeps_bind | apply keeps_catch | apply keeps_if
  | apply keeps_assign; done | apply keeps_finally; [|done]
  | match goal with
    | |- keeps (match ?x with _ => _ end) => destruct x
    | |- keeps (let '(_, _) := ?x in _) => destruct x
    end
  | solve [auto with keeps] ].

Lemma keeps_new_operation boot mapping caller target : keeps (new_operation env operation_id boot mapping caller target).
Proof. unfold new_operation. keep. Qed.
Lemma keeps_append m ev : keeps (append env operation_id m ev).
Proof. unfold append. keep. Qed.
Lemma keeps_unknown {A} stage reason : keeps (outcome_unknown env operation_id stage reason : action A).
Proof. unfold outcome_unknown. keep; apply keeps_append. Qed.
Lemma keeps_append_active m ev stage : keeps (append_active env operation_id m ev stage).
Proof. unfold append_active. keep; first [apply keeps_append|apply keeps_unknown]. Qed.
Lemma keeps_status e m op : heard e m → keeps (status_of env operation_id e m op).
Proof. intros Hm. unfold status_of. keep; apply keeps_unknown. Qed.
#[local] Hint Resolve keeps_append keeps_unknown keeps_append_active keeps_status : keeps.

Lemma keeps_guard : keeps (guard env operation_id callbacks).
Proof. unfold guard. keep. Qed.
Lemma keeps_start u form : keeps (start_enrollment env operation_id u form).
Proof. unfold start_enrollment. keep. Qed.
Lemma keeps_cancel_step b : keeps (cancel_step env operation_id callbacks b).
Proof. unfold cancel_step. keep. Qed.
Lemma keeps_accept raw : keeps (accept_raw env operation_id raw).
Proof. unfold accept_raw. keep. Qed.
Lemma keeps_on_feedback t : keeps (feedback env operation_id callbacks t).
Proof. unfold feedback. keep. Qed.
Lemma keeps_continue raw e : keeps (continue_step env operation_id raw e).
Proof. unfold continue_step. keep. Qed.
Lemma keeps_finish raw e t : keeps (finish_step env operation_id raw e t).
Proof. unfold finish_step. keep. Qed.
#[local] Hint Resolve keeps_guard keeps_start keeps_cancel_step keeps_accept keeps_on_feedback keeps_continue keeps_finish : keeps.
Lemma keeps_handle raw : keeps (handle_event env operation_id callbacks raw).
Proof. unfold handle_event. keep. Qed.
#[local] Hint Resolve keeps_handle : keeps.
Lemma keeps_loop polls : ∀ remaining b, keeps (event_loop env operation_id callbacks polls remaining b).
Proof. induction polls as [|polls IH]; intros [|remaining] b; cbn [event_loop]; keep. Qed.
#[local] Hint Resolve keeps_new_operation keeps_loop : keeps.
Lemma keeps_enroll boot mapping caller target form limit polls :
  keeps (enroll env operation_id callbacks boot mapping caller target form limit polls).
Proof. unfold enroll, run. keep. Qed.
End keeps.

(** ** Termination *)

Section termination.
Context {T : Type} `{Htrans : EnrollmentTransport T} (env : surroundings) (operation_id : string) (callbacks : Callbacks T).
#[local] Abbreviation world := (enroll_world T).
#[local] Abbreviation action := (act (enroll_world T)).

(** How many more times the transport may time out: no call adds to it, and
    every time-out takes from it. *)
Definition spends (quiet : T → nat) {A} (m : act T A) : Prop := ∀ t, (quiet (m t).2 ≤ quiet t)%nat.
Record bounded_silence (quiet : T → nat) : Prop := {
  bs_start v : spends quiet (et_start v);
  bs_continue : spends quiet et_continue;
  bs_cancel : spends quiet et_cancel;
  bs_next : spends quiet et_next_event;
  bs_timeout t : (et_next_event t).1 = Ok None → (quiet (et_next_event t).2 < quiet t)%nat;
  bs_allowed : spends quiet (dispatch_allowed callbacks);
  bs_requested : spends quiet (cancel_requested callbacks);
  bs_feedback tr : spends quiet (on_feedback callbacks tr);
}.

Context (quiet : T → nat) (bounded : bounded_silence quiet).

(** At most [n] time-outs are left. *)
Definition calm (n : nat) (_ : list (enroll_event * fs)) (t : T) : Prop := (quiet t ≤ n)%nat.
Lemma transport_calm n : transport_keeps callbacks (calm n).
Proof. destruct bounded. split; repeat intro; unfold calm, spends in *; etransitivity; eauto. Qed.
Lemma calms {A} (m : action A) w : (∀ n, keeps (calm n) m) → (quiet (ew_transport (m w).2) ≤ quiet (ew_transport w))%nat.
Proof. intros Hm. apply (Hm _ w), le_n. Qed.

Lemma unknown_never_returns {A} stage reason (w : world) a w' :
  (outcome_unknown env operation_id stage reason : action A) w ≠ (Ok a, w').
Proof. unfold outcome_unknown. by intros (? & ? & _ & [=])%act_bind_Ok. Qed.

(** Enough turns of the loop end it. *)
Lemma event_loop_ends polls : ∀ remaining b (w w' : world), (remaining + quiet (ew_transport w) ≤ polls)%nat →
  event_loop env operation_id callbacks polls remaining b w ≠ (Ok None, w').
Proof.
  induction polls as [|polls IH]; intros [|remaining] b w w' Hp; cbn [event_loop]; try apply unknown_never_returns; [lia|].
  intros (b' & w1 & Hc & H)%act_bind_Ok.
  pose proof (calms (cancel_step env operation_id callbacks b) w (λ n, keeps_cancel_step _ _ _ _ (transport_calm n) b)) as Hq.
  rewrite Hc in Hq. cbn [snd] in Hq. apply act_bind_Ok in H as (raw & w2 & Hn & H).
  unfold catch in Hn. destruct (on_transport et_next_event w1) as [[raw'|e] w2'] eqn:Ht.
  2:{ cbn [any_class] in Hn. by apply unknown_never_returns in Hn. }
  injection Hn as -> ->. unfold on_transport in Ht. destruct (et_next_event (ew_transport w1)) as [r t] eqn:He.
  injection Ht as -> <-. destruct raw as [raw|].
  - apply act_bind_Ok in H as (res & w3 & Hh & H). destruct res as [res|]; [discriminate|]. apply IH in H; [done|].
    pose proof (bs_next _ bounded (ew_transport w1)) as Hs. rewrite He in Hs. cbn [snd] in Hs.
    match type of Hh with handle_event _ _ _ _ ?x = _ =>
      pose proof (calms (handle_event env operation_id callbacks raw) x (λ n, keeps_handle _ _ _ _ (transport_calm n) raw)) as Hq2 end.
    rewrite Hh in Hq2.
    cbn [snd ew_transport set_field] in *. lia.
  - apply IH in H; [done|]. pose proof (bs_timeout _ bounded (ew_transport w1)) as Hs. rewrite He in Hs. specialize (Hs eq_refl).
    cbn [snd ew_transport set_field] in *. lia.
Qed.

(** C8: An enrolment ends. If the transport times out only finitely often - no
    call adds to a measure of its remaining silence and every time-out takes
    from it -, then [event_limit] turns of the loop and one more for every
    time-out are enough: the run has returned a result or raised. *)
Theorem enrollment_terminates boot mapping caller target form limit polls (w : world) :
  (Z.to_nat limit + quiet (ew_transport w) ≤ polls)%nat →
  (enroll env operation_id callbacks boot mapping caller target form limit polls w).1 ≠ Ok None.
Proof.
  intros Hp Hr. destruct (enroll _ _ _ _ _ _ _ _ _ _ w) as [r w'] eqn:He. cbn [fst] in Hr. subst r. unfold enroll in He.
  apply act_bind_Ok in He as (u & w1 & Hnew & (w1' & ? & [= -> <-] & H)%act_bind_Ok). cbv zeta in H.
  pose proof (calms (new_operation env operation_id boot mapping caller target) w
    (λ n, keeps_new_operation _ _ _ boot mapping caller target)) as Hcalm.
  rewrite Hnew in Hcalm. cbn [snd] in Hcalm.
  unfold run in H. apply act_bind_Ok in H as (? & ? & (_ & ->)%throw_if_Ok & H).
  apply act_bind_Ok in H as (? & ? & [= -> ->] & H). apply act_bind_Ok in H as (m & w2 & Hm & H).
  unfold pure in Hm. injection Hm as _ <-. apply act_bind_Ok in H as (? & w3 & Hset & H). unfold assign in Hset.
  assert (quiet (ew_transport w3) = quiet (ew_transport x1)) as Hq3 by (by injection Hset as _ <-). clear Hset.
  unfold catch in H. match type of H with (let (_, _) := ?b in _) = _ => destruct b as [[res|e] w4] eqn:Hbody end.
  - injection H as -> ->. apply act_bind_Ok in Hbody as (? & w5 & Hg & Hbody).
    apply act_bind_Ok in Hbody as (rejected & w6 & Hs & Hbody). destruct rejected as [res|]; [discriminate|].
    apply event_loop_ends in Hbody; [done|]. pose proof (calms (guard env operation_id callbacks) w3 (λ n, keeps_guard _ _ _ _ (transport_calm n))) as H5. rewrite Hg in H5.
    match type of Hs with start_enrollment _ _ ?u _ _ = _ => 
      pose proof (calms (start_enrollment env operation_id u form) w5 (λ n, keeps_start _ _ _ _ (transport_calm n) u form)) as H6 end.
    rewrite Hs in H6. cbn [snd] in H5, H6.
    lia.
  - destruct (negb _); [|discriminate]. apply act_bind_Ok in H as (? & ? & _ & H).
    match type of H with (if ?b then _ else _) _ = _ => destruct b end; [by apply unknown_never_returns in H|discriminate].
Qed.
End termination.
