(* ===== verification/EnrollmentStack.v ===== *)
(** * The enrolment operation over its adapter

    The composition of [EnrollmentOperation] and [EnrollmentBridge], as the
    coordinator puts them together: the adapter is the transport of the
    operation, over a lease of the connection. *)
From Stdlib Require Import QArith_base.
From S2P Require Import Prelude PyValue Sha256 Json MutationJournal Evidence TypedJournal PersistenceJournal.
From S2P Require Import EnrollmentJournal Effect OperationWorld Bytes EnrollmentProtocol SaveWorld BridgeLease EnrollmentBridge.
From S2P Require Import EnrollmentOperation EnrollmentRuns.

#[local] Open Scope Z_scope.

#[local] Abbreviation EventTimeout := (1 # 1)%Q.

(** The adapter as a transport. *)
#[export] Instance bridge_transport {L} `{Lease L} : EnrollmentTransport (adapter EnrollmentBridgeTransport L) := {
  et_connection_generation w := eb_connection_generation (ad_self w);
  et_protocol_version w := eb_protocol_version (ad_self w);
  et_start view := z ← start (Some view); mret (VInt z);
  et_continue := z ← continue_enrollment; mret (VInt z);
  et_cancel := z ← cancel; mret (VInt z);
  et_next_event := next_event (Some EventTimeout);
}.

Lemma Forall_sublist {A} (P : A → Prop) l k : l `sublist_of` k → Forall P k → Forall P l.
Proof. induction 1; inversion 1; subst; auto. Qed.

Section stack.
Context {L : Type} `{Hlease : Lease L}.
#[local] Abbreviation bridge := (adapter EnrollmentBridgeTransport L).

(** The command of the connection for a command of the operation. *)
Definition wire (v : Z) (e : enroll_event) : biometric_call :=
  match e with EvStart p => start_call v p | EvContinue => continue_call | EvCancel => cancel_call end.

(** An exchange keeps the version, and sends [q] or nothing. *)
Definition left_with (v : Z) (sent : list biometric_call) (w : bridge) : Prop :=
  eb_protocol_version (ad_self w) = v ∧ ad_sent w = sent.
Definition sends (v : Z) (q : list biometric_call) {A} (m : act bridge A) : Prop :=
  ∀ sent w, left_with v sent w → left_with v sent (m w).2 ∨ left_with v (sent ++ q) (m w).2.

Lemma sends_wp v q {A} (m : act bridge A) :
  (∀ t sent h w, adapter_at t sent h w → eb_protocol_version t = v →
     let ok w' := left_with v sent w' ∨ left_with v (sent ++ q) w' in wp m (λ _ w', ok w') (λ _ w', ok w') w) → sends v q m.
Proof.
  intros Hm sent w [Hv Hs]. specialize (Hm (ad_self w) sent (ad_heap w) w ltac:(by split) Hv). cbv zeta in Hm. unfold wp in Hm.
  by destruct (m w) as [[a|e] w'].
Qed.

Lemma sends_result v q {A B} (m : act bridge A) (f : A → B) : sends v q m → sends v q (a ← m; mret (f a)).
Proof. intros Hm sent w Hw. specialize (Hm sent w Hw). unfold mbind, act_bind. by destruct (m w) as [[a|e] w']. Qed.

Lemma at_left t sent h w : adapter_at t sent h w → left_with (eb_protocol_version t) sent w.
Proof. intros (<- & <- & _). by split. Qed.

Lemma dispatch_sends v t sent h command data pn sa wv (w : bridge) : adapter_at t sent h w → eb_protocol_version t = v →
  let q := [Biometric command (default v wv) 0 data 0] in
  wp (dispatch command data pn sa wv)
    (λ _ w', ∃ t', eb_protocol_version t' = v ∧ adapter_at t' (sent ++ q) h w')
    (λ _ w', left_with v sent w' ∨ left_with v (sent ++ q) w') w.
Proof.
  intros Hat <- q. eapply wp_weaken; [by eapply eb_dispatch_wp| |]; cbv beta.
  - intros status w'. destruct (_ && _); [intros H'|intros [events H']]; (eexists; split; [|exact H']); done.
  - intros e w' [H'|[H'|H']]; [left|left|right]; exact (at_left _ _ _ _ H').
Qed.

Lemma start_sends v view : sends v [start_call v (vw_bytes view)] (start (Some view)).
Proof.
  apply sends_wp. intros t sent h w Hat Hv. cbv zeta. unfold start. pose proof (at_left _ _ _ _ Hat) as Hw. rewrite Hv in Hw.
  apply wp_bind. eapply eb_require_state_wp; [exact Hat| |by left]. intros _. apply wp_bind, wp_self.
  apply wp_bind, wp_throw_if; [by left|]. intros _. apply wp_bind. eapply wp_weaken; [by eapply dispatch_sends| |done].
  cbv beta. intros status w1 (t1 & Hv1 & H1). apply wp_bind. eapply eb_update_wp; [exact H1|]. intros w2 H2. apply wp_ret. right.
  rewrite <-Hv1 at 1. exact (at_left _ _ _ _ H2).
Qed.

Lemma continue_sends v : sends v [continue_call] continue_enrollment.
Proof.
  apply sends_wp. intros t sent h w Hat Hv. cbv zeta. unfold continue_enrollment. pose proof (at_left _ _ _ _ Hat) as Hw. rewrite Hv in Hw.
  apply wp_bind. eapply eb_require_state_wp; [exact Hat| |by left]. intros _.
  eapply wp_weaken; [by eapply dispatch_sends| |done]. cbv beta. intros status w1 (t1 & Hv1 & H1). right.
  rewrite <-Hv1. exact (at_left _ _ _ _ H1).
Qed.

Lemma cancel_sends v : sends v [cancel_call] cancel.
Proof.
  apply sends_wp. intros t sent h w Hat Hv. cbv zeta. unfold cancel. pose proof (at_left _ _ _ _ Hat) as Hw. rewrite Hv in Hw.
  apply wp_bind. eapply eb_require_state_wp; [exact Hat| |by left]. intros _.
  apply wp_bind. eapply wp_weaken; [by eapply dispatch_sends| |done]. cbv beta.
  intros status w1 (t1 & Hv1 & H1). apply wp_bind, wp_if; intros _.
  - eapply eb_update_wp; [exact H1|]. intros w2 H2. apply wp_ret. right. rewrite <-Hv1. exact (at_left _ _ _ _ H2).
  - apply wp_ret, wp_ret. right. rewrite <-Hv1. exact (at_left _ _ _ _ H1).
Qed.

Lemma next_event_sends v q : sends v [] (next_event q).
Proof.
  apply sends_wp. intros t sent h w Hat Hv. cbv zeta. unfold next_event. rewrite app_nil_r.
  assert (∀ t' w', adapter_at t' sent h w' → eb_protocol_version t' = v → left_with v sent w' ∨ left_with v sent w') as Hl.
  { intros t' w' H' <-. left. exact (at_left _ _ _ _ H'). }
  apply wp_bind. eapply eb_require_state_wp; [exact Hat| |by eauto]. intros _. destruct q as [q|]; [|apply wp_throw; by eauto].
  apply wp_bind, wp_throw_if; [by eauto|]. intros _. apply wp_bind, wp_self. destruct (eb_events (ad_self w)).
  - apply poisoning_wp.
    assert (∀ e w', adapter_at t sent h w' → wp poison (λ _ w2, ∀ _ : exn, left_with v sent w2 ∨ left_with v sent w2) e w') as Hp.
    { intros e w' H'. eapply eb_update_wp; [exact H'|]. intros w2 H2 _. by eapply Hl. }
    apply wp_bind. eapply check_generation_wp; [exact Hat| |by intros e w1; apply Hp]. intros w1 H1.
    apply wp_bind. eapply on_lease_wp; [exact H1| |by intros e w2; apply Hp]. intros x w2 H2.
    apply wp_bind. eapply check_generation_wp; [exact H2| |by intros e w3; apply Hp]. intros w3 H3.
    apply wp_if; intros _; [apply wp_ret; by eapply Hl|].
    apply wp_bind, wp_pure; [|intros e _; by apply Hp]. intros data _. apply wp_ret. by eapply Hl.
  - apply wp_bind. eapply eb_update_wp; [exact Hat|]. intros w1 H1. apply wp_ret. by eapply Hl.
Qed.

(** ** The run *)

Context (env : surroundings) (lines : orderly env) (operation_id : string) (callbacks : Callbacks bridge) (v : Z).

(** The callbacks of the caller do not use the adapter. *)
Record aside : Prop := {
  as_allowed : sends v [] (dispatch_allowed callbacks);
  as_requested : sends v [] (cancel_requested callbacks);
  as_feedback tr : sends v [] (on_feedback callbacks tr);
}.

(** What was sent over the lease is part of what the operation recorded. *)
Definition mirrored (trace : list (enroll_event * fs)) (w : bridge) : Prop :=
  ∃ announced, announced `sublist_of` trace ∧ left_with v (map (λ e, wire v e.1) announced) w.

Lemma mirrored_heard {A} e (m : act bridge A) : sends v [wire v e] m → heard mirrored e m.
Proof.
  intros Hm s f t (l & Hl & Ht). apply Hm in Ht as [Ht|Ht].
  - exists l. split; [by apply sublist_inserts_r|exact Ht].
  - exists (l ++ [(e, f)]). split; [by apply sublist_app|]. by rewrite map_app.
Qed.
Lemma mirrored_unheard {A} (m : act bridge A) : sends v [] m → unheard mirrored m.
Proof. intros Hm s t (l & Hl & Ht). exists l. split; [exact Hl|]. apply Hm in Ht as [Ht|Ht]; [exact Ht|]. by rewrite app_nil_r in Ht. Qed.

Lemma adapter_keeps : aside → transport_keeps callbacks mirrored.
Proof.
  intros [Ha Hr Hf]. split.
  - intros view. apply mirrored_heard, sends_result, start_sends.
  - apply mirrored_heard, sends_result, continue_sends.
  - apply mirrored_heard, sends_result, cancel_sends.
  - apply mirrored_unheard, next_event_sends.
  - by apply mirrored_unheard.
  - by apply mirrored_unheard.
  - intros tr. by apply mirrored_unheard.
Qed.

(** C9: Down to the connection, nothing is sent that was not announced.  Take an
    enrolment over a fresh adapter, with callbacks that leave the adapter alone
    and a journal that starts as whole lines.  Other processes may change the
    journal before and inside every access, as long as they leave whole lines
    and do not come between an append and the reading back that follows it; the
    lease and the operating system may do anything.  Then, however the run ends,
    the commands that went over the lease are, in their order, commands that the
    operation recorded, each sent while the journal, as the operation last read
    it back, ended with the record of its intent; they are at most one start,
    then continuations, then at most one cancellation. *)
Theorem enrollment_stack_announced generation l l' t h boot mapping caller target form limit polls (w : enroll_world bridge) r w' :
  new_enrollment_bridge (VInt v) generation l = (Ok t, l') → aside →
  unstarted w → ew_transport w = Adapter t l' [] h →
  enroll env operation_id callbacks boot mapping caller target form limit polls w = (r, w') →
  ∃ announced, announced `sublist_of` ew_trace w' ∧ scripted (map fst (ew_trace w'))
    ∧ ad_sent (ew_transport w') = map (λ e, wire v e.1) announced
    ∧ Forall (command_announced env operation_id) announced.
Proof.
  intros Hnew Haside Hw Ht Hr. assert (kept mirrored w) as Hk.
  { exists []. rewrite Ht. split; [apply sublist_nil_l|]. split; [|done]. unfold new_enrollment_bridge in Hnew.
    by apply act_bind_Ok in Hnew as (? & ? & _ & (g & ? & _ & (? & ? & _ & [= <- _])%act_bind_Ok)%act_bind_Ok). }
  pose proof (keeps_enroll env operation_id callbacks mirrored (adapter_keeps Haside) boot mapping caller target form limit polls w Hk) as Hk'.
  pose proof (enroll_traced env lines operation_id callbacks boot mapping caller target form limit polls w r w' Hw Hr) as (Ha & Hs & _).
  rewrite Hr in Hk'. destruct Hk' as (announced & Hl & _ & Hsent). exists announced. split; [exact Hl|]. split; [exact Hs|].
  split; [exact Hsent|]. by eapply Forall_sublist.
Qed.
End stack.
