(* ===== verification/IdentityInventory.v ===== *)
(** * The inventory of identities ([src/src/t2_identity_inventory.py],
    [src/src/t2_user_broker_inventory.py], [src/src/t2_fprint_projection.py],
    [src/src/t2_fprint_match_selection.py])

    The reconciliation of a decoded user archive with the live inventory of
    the coprocessor, the redacted summary, its consumer in the broker, the
    projection onto fprint's finger names and the selection of one identity
    by finger name.  The archive is one the codec decoded; the live inventory
    and the public inventory are values of any shape. *)
From S2P Require Import Prelude PyValue Sha256 UuidFacts Json Effect Bytes KeyedArchive CatacombOracle CatacombCodec.
From S2P Require Import CatacombDecode.

#[local] Open Scope Z_scope.

(** ** Reconciliation *)

#[local] Abbreviation refuse b msg := (fail_if b IdentityInventoryError msg).

Record ResolvedIdentity := Resolved {
  ri_apple_user_id : Z;
  ri_identity_uuid : string;
  ri_entity : Z;
  ri_name : string;
}.

(** [_canonical_uuid]: [uuid.UUID] of a value that is not text raises an
    [AttributeError] or a [TypeError]. *)
Definition canonical_uuid (v : value) (field : string) : result string :=
  match v with
  | VStr s =>
      match uuid_UUID s with
      | None => raise IdentityInventoryError (field +:+ " is not a UUID")
      | Some z => _ ← refuse (negb (String.eqb (uuid_str z) s)) (field +:+ " is not canonical"); Ok s
      end
  | _ => raise IdentityInventoryError (field +:+ " is not a UUID")
  end.

(** A pair is added only when its user ID equals the selected one, so the
    sets hold the selected ID itself. *)
Definition live_pair (apple_user_id : Z) (pairs : gset (Z * string)) (record : value) : result (gset (Z * string)) :=
  _ ← refuse (negb (has_keys record ["user_id"; "identity_uuid"])) "live identity inventory is malformed";
  uuid ← canonical_uuid record@["identity_uuid"] "live identity UUID";
  _ ← refuse (record@["user_id"] !=? VInt apple_user_id || bool_decide ((apple_user_id, uuid) ∈ pairs))
        "live identity inventory is ambiguous";
  Ok ({[(apple_user_id, uuid)]} ∪ pairs).

Definition live_pairs (records : value) (apple_user_id : Z) : result (gset (Z * string)) :=
  match records with
  | VList l => fold_result (live_pair apple_user_id) ∅ l
  | _ => raise IdentityInventoryError "live identity inventory is absent"
  end.

Definition global_pair (apple_user_id : Z) (pairs : gset (Z * string)) (record : value) : result (gset (Z * string)) :=
  _ ← refuse (negb (has_keys record ["user_id"; "identity_uuid"; "group_type"; "group_uuid"]))
        "global identity inventory is malformed";
  if record@["user_id"] !=? VInt apple_user_id then Ok pairs else
  _ ← refuse (negb (record@["group_type"] ==? VInt 0 || record@["group_type"] ==? VInt 1)
              || record@["group_uuid"] !=? VStr "00000000-0000-0000-0000-000000000000")
        "configured identity is not built-in";
  uuid ← canonical_uuid record@["identity_uuid"] "global identity UUID";
  _ ← refuse (bool_decide ((apple_user_id, uuid) ∈ pairs)) "global identity inventory is ambiguous";
  Ok ({[(apple_user_id, uuid)]} ∪ pairs).

Definition configured_global_pairs (records : value) (apple_user_id : Z) : result (gset (Z * string)) :=
  match records with
  | VList l => fold_result (global_pair apple_user_id) ∅ l
  | _ => raise IdentityInventoryError "global identity inventory is absent"
  end.

(** [sorted(identities, key=lambda identity: identity.entity)]; the entities
    of an archive are distinct. *)
Definition entity_le (i j : Identity) : Prop := id_entity i ≤ id_entity j.
#[export] Instance entity_le_dec i j : Decision (entity_le i j).
Proof. unfold entity_le. apply _. Defined.
Definition by_entity (identities : list Identity) : list Identity := merge_sort entity_le identities.

Definition local_pairs (local : UserCatacomb) : gset (Z * string) :=
  list_to_set ((λ i, (id_user_id i, id_uuid i)) <$> uc_identities local).

Definition slot_entry (position : nat) (i : Identity) : value :=
  dict [("slot", VInt (Z.of_nat (S position))); ("name", VStr (id_name i)); ("live", VBool true)].

(** The dictionary [summarize] returns for identities in slot order. *)
Definition summary (ordered : list Identity) : value :=
  dict [("schema_version", VInt 1); ("identity_count", VInt (Z.of_nat (length ordered)));
        ("identities", VList (imap slot_entry ordered)); ("local_live_reconciled", VBool true);
        ("selection_scope", VStr "current-reconciled-list");
        ("fprintd_listing_is_compatibility_alias", VBool true); ("identifiers_redacted", VBool true)].

Definition summarize (local : UserCatacomb) (live : value) : result value :=
  _ ← refuse (negb (is_dict live)) "live identity inventory is not a mapping";
  let apple_user_id := uc_expected_user_id local in
  _ ← refuse (negb (is_true live@["double_collection_equal"])
              || live@["apple_uid"] !=? VInt apple_user_id
              || live@["biometric_protocol_version"] !=? VInt 2
              || negb (is_dict live@["catacomb"])
              || negb (is_true (live@["catacomb"])@["present"]))
        "live identity inventory is stale or unstable";
  per_user_pairs ← live_pairs live@["per_user_identity_records"] apple_user_id;
  global_pairs ← configured_global_pairs live@["global_identity_records"] apple_user_id;
  _ ← refuse (negb (bool_decide (local_pairs local = per_user_pairs))
              || negb (bool_decide (per_user_pairs = global_pairs)))
        "local and live identity inventories disagree";
  Ok (summary (by_entity (uc_identities local))).

Definition resolve_slot (local : UserCatacomb) (live : value) (slot : Z) : result ResolvedIdentity :=
  summary ← summarize local live;
  _ ← refuse (negb ((1 <=? slot) && (slot <=? int_value summary@["identity_count"])))
        "identity slot is outside the current list";
  match by_entity (uc_identities local) !! Z.to_nat (slot - 1) with
  | Some identity => Ok (Resolved (id_user_id identity) (id_uuid identity) (id_entity identity) (id_name identity))
  | None => raise IndexError "list index out of range"
  end.

(** ** The public inventory *)

Definition SUMMARY_KEYS : list string :=
  ["schema_version"; "identity_count"; "identities"; "local_live_reconciled"; "selection_scope";
   "fprintd_listing_is_compatibility_alias"; "identifiers_redacted"].
Definition PUBLIC_IDENTITY_KEYS : list string := ["slot"; "name"; "live"].

Record PublicIdentity := MkPublicIdentity { pi_slot : Z; pi_name : string; pi_live : bool }.
Record PublicIdentityInventory := MkPublicInventory {
  pv_identities : list PublicIdentity;
  pv_local_live_reconciled : bool;
  pv_selection_scope : string;
  pv_fprintd_listing_is_compatibility_alias : bool;
  pv_identifiers_redacted : bool;
}.

Definition identity_public (i : PublicIdentity) : value :=
  dict [("slot", VInt (pi_slot i)); ("name", VStr (pi_name i)); ("live", VBool (pi_live i))].
Definition identity_count (p : PublicIdentityInventory) : nat := length (pv_identities p).
Definition inventory_public (p : PublicIdentityInventory) : value :=
  dict [("schema_version", VInt 1); ("identity_count", VInt (Z.of_nat (identity_count p)));
        ("identities", VList (identity_public <$> pv_identities p));
        ("local_live_reconciled", VBool (pv_local_live_reconciled p));
        ("selection_scope", VStr (pv_selection_scope p));
        ("fprintd_listing_is_compatibility_alias", VBool (pv_fprintd_listing_is_compatibility_alias p));
        ("identifiers_redacted", VBool (pv_identifiers_redacted p))].

Definition has_nul (s : string) : bool := negb (all_chars (λ c, negb (code c =? 0)) s).

#[local] Abbreviation reject b msg := (fail_if b UserBrokerInventoryError msg).

(** The loop body; [name.encode] cannot fail on the characters of the model. *)
Definition parse_public_identity (position : nat) (record : value) : result PublicIdentity :=
  let expected_slot := Z.of_nat (S position) in
  _ ← reject (negb (has_keys record PUBLIC_IDENTITY_KEYS)) "public identity record is malformed";
  let name := record@["name"] in
  let name_length := match name with VStr s => Z.of_nat (utf8_length s) | _ => 0 end in
  _ ← reject (negb (is_int record@["slot"])
              || negb (int_value record@["slot"] =? expected_slot)
              || negb (is_str name)
              || String.eqb (str_value name) ""
              || has_nul (str_value name)
              || negb ((1 <=? name_length) && (name_length <=? MAX_STRING_BYTES))
              || negb (is_true record@["live"])) "public identity record is invalid";
  Ok (MkPublicIdentity expected_slot (str_value name) true).

Definition parse_public_inventory (v : value) : result PublicIdentityInventory :=
  _ ← reject (negb (has_keys v SUMMARY_KEYS)) "public identity inventory is malformed";
  let count := v@["identity_count"] in
  let records := v@["identities"] in
  _ ← reject (negb (is_int v@["schema_version"])
              || negb (int_value v@["schema_version"] =? 1)
              || negb (is_int count)
              || negb ((0 <=? int_value count) && (int_value count <=? Z.of_nat MAX_IDENTITIES))
              || negb (is_list records)
              || negb (Z.of_nat (length (list_value records)) =? int_value count)
              || negb (is_true v@["local_live_reconciled"])
              || v@["selection_scope"] !=? VStr "current-reconciled-list"
              || negb (is_true v@["fprintd_listing_is_compatibility_alias"])
              || negb (is_true v@["identifiers_redacted"])) "public identity inventory is invalid";
  identities ← mapM (λ p, parse_public_identity p.1 p.2) (imap pair (list_value records));
  let inventory := MkPublicInventory identities true "current-reconciled-list" true true in
  _ ← reject (inventory_public inventory !=? v) "public identity inventory is not canonical";
  Ok inventory.

(** ** Finger names *)

Definition FINGER_NAMES : list string :=
  ["left-thumb"; "left-index-finger"; "left-middle-finger"; "left-ring-finger"; "left-little-finger";
   "right-thumb"; "right-index-finger"; "right-middle-finger"; "right-ring-finger"; "right-little-finger"].

Record FprintProjection := Projection {
  fp_finger_names : list string;
  fp_reconciled_identity_count : Z;
  fp_unassigned_identity_count : Z;
  fp_duplicate_finger_name_count : Z;
  fp_complete : bool;
}.

Definition projection_public (p : FprintProjection) : value :=
  dict [("schema_version", VInt 1); ("finger_names", VList (VStr <$> fp_finger_names p));
        ("reconciled_identity_count", VInt (fp_reconciled_identity_count p));
        ("unassigned_identity_count", VInt (fp_unassigned_identity_count p));
        ("duplicate_finger_name_count", VInt (fp_duplicate_finger_name_count p));
        ("complete", VBool (fp_complete p)); ("compatibility_alias_required", VBool (negb (fp_complete p)));
        ("finger_names_are_presentation_metadata", VBool true); ("identifiers_redacted", VBool true)].

Definition project (v : value) : result FprintProjection :=
  inventory ← except (λ c, bool_decide (c = UserBrokerInventoryError))
                (λ _, Exn FprintProjectionError "fprint projection requires exact reconciled inventory")
                (parse_public_inventory v);
  let names := pi_name <$> pv_identities inventory in
  let recognized := filter (λ name, name ∈ FINGER_NAMES) names in
  let unassigned := Z.of_nat (identity_count inventory) - Z.of_nat (length recognized) in
  let duplicates := Z.of_nat (length recognized) - Z.of_nat (size (list_to_set (C := gset string) recognized)) in
  let complete := (unassigned =? 0) && (duplicates =? 0) in
  let ordered := if complete then filter (λ name, name ∈ recognized) FINGER_NAMES else [] in
  _ ← fail_if (complete && negb (length ordered =? identity_count inventory)%nat) FprintProjectionError
        "fprint projection is internally inconsistent";
  Ok (Projection ordered (Z.of_nat (identity_count inventory)) unassigned duplicates complete).

(** ** Selecting an identity by finger name *)

Record SelectedMatchIdentity := Selected { sm_finger_name : string; sm_identity_record : bytes }.

#[local] Abbreviation deny b msg := (fail_if b FprintMatchSelectionError msg).

(** [_record] *)
Definition match_record (v : value) (expected_user_id : Z) : result (string * bytes) :=
  match v with
  | VBytes s =>
      let raw := text s in
      _ ← deny (negb (length raw =? 20)%nat) "T2 identity record is malformed";
      '(user_id, _) ← unpack_from [I_] raw 0;
      let identity_uuid := be_unpack (slice 4 20 raw) in
      _ ← deny (negb (user_id =? expected_user_id) || (identity_uuid =? 0))
            "T2 identity record has the wrong authority";
      Ok (uuid_str identity_uuid, raw)
  | _ => raise FprintMatchSelectionError "T2 identity record is malformed"
  end.

(** The loop body over the records. *)
Definition add_record (expected_user_id : Z) (parsed : gmap string bytes) (raw : value) : result (gmap string bytes) :=
  '(identity_uuid, record) ← match_record raw expected_user_id;
  _ ← deny (bool_decide (identity_uuid ∈ dom parsed)) "T2 identity inventory is duplicated";
  Ok (<[identity_uuid := record]> parsed).

(** [records] are the elements of the tuple of the per-user identity records. *)
Definition select (local : UserCatacomb) (records : list value) (finger_name : value) : result SelectedMatchIdentity :=
  unknown ← not_in_names finger_name FINGER_NAMES;
  _ ← deny unknown "fprint finger name is invalid";
  let identities := uc_identities local in
  let names := id_name <$> identities in
  _ ← deny (bool_decide (identities = []) || negb (bool_decide (Forall (λ name, name ∈ FINGER_NAMES) names))
            || negb (bool_decide (NoDup names))) "local identities do not have complete unique fprint names";
  match filter (λ i, VStr (id_name i) = finger_name) identities with
  | [selected] =>
      _ ← deny (negb (length records =? length identities)%nat) "local and T2 identity inventories disagree";
      parsed ← fold_result (add_record (uc_expected_user_id local)) ∅ records;
      _ ← deny (negb (bool_decide (dom parsed = list_to_set (id_uuid <$> identities))))
            "local and T2 identity inventories disagree";
      match parsed !! id_uuid selected with
      | Some record => Ok (Selected (str_value finger_name) record)
      | None => raise KeyError "identity"
      end
  | _ => raise FprintMatchSelectionError "requested fprint identity is not uniquely enrolled"
  end.

(** ** Loops that collect distinct keys *)

Section collect.
(** What a turn of the loop does to the set. *)
Definition adds {K} `{Countable K} (o : option K) (s s' : gset K) : Prop :=
  match o with Some k => (k ∉ s) ∧ s' = {[k]} ∪ s | None => s' = s end.

Context {A K : Type} `{Countable K} (step : gset K → A → result (gset K)) (reads : A → option K → Prop).
Hypothesis step_Ok : ∀ s x s', step s x = Ok s' ↔
  ∃ o, reads x o ∧ adds o s s'.

Lemma collect_Ok l : ∀ s s', fold_result step s l = Ok s' ↔
  ∃ os, Forall2 reads l os ∧ NoDup (omap id os) ∧ (∀ k, k ∈ omap id os → k ∉ s)
      ∧ s' = list_to_set (omap id os) ∪ s.
Proof.
  induction l as [|x l IH]; intros s s'; simpl.
  - split.
    + intros [= <-]. exists []. simpl. split; [constructor|split; [constructor|]].
      split; [intros k Hk; by apply not_elem_of_nil in Hk|set_solver].
    + intros (os & Hr & _ & _ & ->). inversion Hr; subst. simpl. f_equal. set_solver.
  - rewrite bind_Ok. split.
    + intros (t & Ht & Hl). apply step_Ok in Ht as (o & Ho & Hs). apply IH in Hl as (os & Hr & Hn & Hd & ->).
      exists (o :: os). split; [by constructor|]. destruct o as [k|]; simpl.
      * destruct Hs as [Hk ->]. split; [|split].
        -- constructor; [|done]. intros Hin. apply Hd in Hin. set_solver.
        -- intros j [->|Hj]%elem_of_cons; [done|]. apply Hd in Hj. set_solver.
        -- set_solver.
      * cbn in Hs. subst t. split; [done|split; [done|done]].
    + intros (os & Hr & Hn & Hd & ->). inversion Hr as [|? o ? os' Ho Hr']; subst. destruct o as [k|]; simpl in *.
      * apply NoDup_cons in Hn as [Hk Hn]. exists ({[k]} ∪ s). split.
        -- apply step_Ok. exists (Some k). split; [done|]. split; [|done]. apply Hd, list_elem_of_here.
        -- apply IH. exists os'. split; [done|split; [done|]]. split; [|set_solver].
           intros j Hj. assert (j ∉ s) by by apply Hd, list_elem_of_further. set_solver.
      * exists s. split; [apply step_Ok; by exists None|]. apply IH. by exists os'.
Qed.
End collect.

(** ** The live inventory *)

(** Neither side of an equivalence can hold. *)
#[local] Ltac impossible := split; [intros [=]|first [intros [[=] _]|intros (? & ? & [=] & _)]].

Lemma uuid_UUID_range s z : uuid_UUID s = Some z → 0 ≤ z < 2 ^ 128.
Proof.
  unfold uuid_UUID. generalize (str_remove "-" (strip (λ c, Ascii.eqb c "{" || Ascii.eqb c "}")
    (str_remove "uuid:" (str_remove "urn:" s)))). intros h. cbv zeta.
  destruct (negb _); [intros [=]|]. destruct (int16 h) as [w|]; [|intros [=]].
  destruct ((0 <=? w) && (w <? 2 ^ 128)) eqn:Hw; [|intros [=]]. intros [= <-].
  apply andb_true_iff in Hw as [H1%Z.leb_le H2%Z.ltb_lt]. done.
Qed.

Lemma live_uuid_Ok v field s : canonical_uuid v field = Ok s ↔ v = VStr s ∧ uuid_text s.
Proof.
  destruct v as [| | |t| | |]; cbn [canonical_uuid];
    [impossible|impossible|impossible| |impossible|impossible|impossible].
  split.
  - destruct (uuid_UUID t) as [z|] eqn:Hz; [|intros [=]].
    intros (? & He%fail_if_Ok%negb_false_iff%String.eqb_eq & Hs%Ok_inj)%bind_Ok. subst s. split; [reflexivity|].
    exists z. split; [exact (eq_sym He)|]. exact (uuid_UUID_range _ _ Hz).
  - intros [Hs (z & Ht & Hz)]. injection Hs as ->. subst s. rewrite uuid_round_trip by exact Hz.
    rewrite String.eqb_refl. reflexivity.
Qed.

(** A per-user record of the identity [u]. *)
Definition lists_identity (apple : Z) (record : value) (u : string) : Prop :=
  has_keys record ["user_id"; "identity_uuid"] = true ∧ record@["user_id"] ==? VInt apple = true
  ∧ record@["identity_uuid"] = VStr u ∧ uuid_text u.

(** A global record: of the identity [u] of the selected user, which is built
    in, or of another user. *)
Definition lists_global (apple : Z) (record : value) (o : option string) : Prop :=
  has_keys record ["user_id"; "identity_uuid"; "group_type"; "group_uuid"] = true
  ∧ match o with
    | Some u =>
        record@["user_id"] ==? VInt apple = true
        ∧ (record@["group_type"] ==? VInt 0 = true ∨ record@["group_type"] ==? VInt 1 = true)
        ∧ record@["group_uuid"] = VStr "00000000-0000-0000-0000-000000000000"
        ∧ record@["identity_uuid"] = VStr u ∧ uuid_text u
    | None => record@["user_id"] ==? VInt apple = false
    end.

Lemma live_pair_Ok apple s x s' : live_pair apple s x = Ok s' ↔
  ∃ o, (∃ u, lists_identity apple x u ∧ o = Some (apple, u))
       ∧ adds o s s'.
Proof.
  unfold live_pair, lists_identity. split.
  - intros (? & Hk%fail_if_Ok%negb_false_iff & (u & [Hu Ht]%live_uuid_Ok & (? & [He Hn]%fail_if_Ok%orb_false_iff & <-%Ok_inj)%bind_Ok)%bind_Ok)%bind_Ok.
    apply negb_false_iff in He. apply bool_decide_eq_false in Hn. exists (Some (apple, u)). split; [|done].
    by exists u.
  - intros (o & (u & (Hk & He & Hu & Ht) & ->) & Hn & ->). rewrite Hk. cbn [negb fail_if mbind result_bind].
    rewrite (proj2 (live_uuid_Ok _ _ u)) by done. cbn [mbind result_bind].
    by rewrite He, bool_decide_eq_false_2.
Qed.

Lemma global_pair_Ok apple s x s' : global_pair apple s x = Ok s' ↔
  ∃ o, (∃ v, lists_global apple x v ∧ o = pair apple <$> v)
       ∧ adds o s s'.
Proof.
  unfold global_pair, lists_global. split.
  - intros (? & Hk%fail_if_Ok%negb_false_iff & H)%bind_Ok. destruct (x@["user_id"] ==? VInt apple) eqn:Hu.
    + cbn [negb] in H. apply bind_Ok in H as (? & [Hg Hz]%fail_if_Ok%orb_false_iff & H).
      apply bind_Ok in H as (u & [Huu Ht]%live_uuid_Ok & (? & Hn%fail_if_Ok%bool_decide_eq_false & <-%Ok_inj)%bind_Ok).
      apply negb_false_iff in Hg, Hz. apply orb_true_iff in Hg. apply py_eq_str_l in Hz.
      exists (Some (apple, u)). split; [|done]. by exists (Some u).
    + cbn [negb] in H. apply Ok_inj in H as <-. exists None. split; [|done]. by exists None.
  - intros (o & (v & (Hk & Hv) & ->) & Hs). rewrite Hk. cbn [negb fail_if mbind result_bind].
    destruct v as [u|].
    + destruct Hv as (Hu & Hg & Hz & Huu & Ht). destruct Hs as [Hn ->]. rewrite Hu. cbn [negb].
      rewrite (proj2 (orb_true_iff _ _) Hg), (proj2 (py_eq_str_l _ _) Hz). cbn [negb orb fail_if mbind result_bind].
      rewrite (proj2 (live_uuid_Ok _ _ u)) by done. cbn [mbind result_bind]. by rewrite bool_decide_eq_false_2.
    + simpl in Hs. subst s'. by rewrite Hv.
Qed.

Definition user_pairs (apple : Z) (us : list string) : gset (Z * string) := list_to_set (pair apple <$> us).

Lemma pairs_NoDup (apple : Z) (us : list string) : NoDup (pair apple <$> us) ↔ NoDup us.
Proof. split; [apply NoDup_fmap_1|]. intros H. apply NoDup_fmap; [|done]. by intros ? ? [= ->]. Qed.

Lemma live_pairs_Ok records apple s : live_pairs records apple = Ok s ↔
  ∃ l us, records = VList l ∧ Forall2 (lists_identity apple) l us ∧ NoDup us ∧ s = user_pairs apple us.
Proof.
  destruct records as [| | | | |l|]; cbn [live_pairs];
    [impossible|impossible|impossible|impossible|impossible| |impossible].
  rewrite (collect_Ok _ _ (live_pair_Ok apple)). split.
  - intros (os & Hr & Hn & _ & ->). assert (∃ us, Forall2 (lists_identity apple) l us ∧ os = Some ∘ pair apple <$> us) as (us & Hl & ->).
    { clear Hn. induction Hr as [|x o l os (u & Hu & ->) _ (us & Hl & ->)]; [by exists []|]. exists (u :: us). split; [by constructor|done]. }
    assert (He : omap id (Some ∘ pair apple <$> us) = pair apple <$> us).
    { clear. induction us as [|u us IH]; [done|]. simpl. by f_equal. }
    rewrite He in *. exists l, us. split; [done|split; [done|]]. rewrite pairs_NoDup in Hn. split; [done|].
    unfold user_pairs. set_solver.
  - intros (l' & us & [= <-] & Hl & Hn & ->). exists (Some ∘ pair apple <$> us).
    assert (He : omap id (Some ∘ pair apple <$> us) = pair apple <$> us).
    { clear. induction us as [|u us IH]; [done|]. simpl. by f_equal. }
    rewrite He, pairs_NoDup. split; [|split; [done|split; [set_solver|unfold user_pairs; set_solver]]].
    apply Forall2_fmap_r. eapply Forall2_impl; [exact Hl|]. intros x u Hu. by exists u.
Qed.

Lemma global_pairs_Ok records apple s : configured_global_pairs records apple = Ok s ↔
  ∃ l vs, records = VList l ∧ Forall2 (lists_global apple) l vs ∧ NoDup (omap id vs) ∧ s = user_pairs apple (omap id vs).
Proof.
  assert (He : ∀ vs : list (option string), omap id ((λ v : option string, pair apple <$> v) <$> vs) = pair apple <$> omap id vs).
  { induction vs as [|[v|] vs IH]; [done| |done]. simpl. by f_equal. }
  destruct records as [| | | | |l|]; cbn [configured_global_pairs];
    [impossible|impossible|impossible|impossible|impossible| |impossible].
  rewrite (collect_Ok _ _ (global_pair_Ok apple)). split.
  - intros (os & Hr & Hn & _ & ->). assert (∃ vs, Forall2 (lists_global apple) l vs ∧ os = (λ v : option string, pair apple <$> v) <$> vs) as (vs & Hl & ->).
    { clear Hn. induction Hr as [|x o l os (u & Hu & ->) _ (us & Hl & ->)]; [by exists []|]. exists (u :: us). split; [by constructor|done]. }
    rewrite He, pairs_NoDup in *. exists l, vs. split; [done|split; [done|split; [done|]]]. unfold user_pairs. set_solver.
  - intros (l' & vs & [= <-] & Hl & Hn & ->). exists ((λ v : option string, pair apple <$> v) <$> vs).
    rewrite He, pairs_NoDup. split; [|split; [done|split; [set_solver|unfold user_pairs; set_solver]]].
    apply Forall2_fmap_r. eapply Forall2_impl; [exact Hl|]. intros x u Hu. by exists u.
Qed.

(** The live inventory agrees with the archive: two stable collections of the
    same user, whose per-user and built-in global records are those of the
    archive's identities. *)
Record reconciled (local : UserCatacomb) (live : value) : Prop := {
  rec_dict : is_dict live = true;
  rec_stable : live@["double_collection_equal"] = VBool true;
  rec_user : live@["apple_uid"] ==? VInt (uc_expected_user_id local) = true;
  rec_version : live@["biometric_protocol_version"] ==? VInt 2 = true;
  rec_catacomb : is_dict live@["catacomb"] = true;
  rec_present : (live@["catacomb"])@["present"] = VBool true;
  rec_per_user : ∃ l us, live@["per_user_identity_records"] = VList l
    ∧ Forall2 (lists_identity (uc_expected_user_id local)) l us ∧ us ≡ₚ id_uuid <$> uc_identities local;
  rec_global : ∃ l vs, live@["global_identity_records"] = VList l
    ∧ Forall2 (lists_global (uc_expected_user_id local)) l vs ∧ omap id vs ≡ₚ id_uuid <$> uc_identities local;
}.

Lemma local_pairs_uuids local : archive_ok local →
  local_pairs local = user_pairs (uc_expected_user_id local) (id_uuid <$> uc_identities local).
Proof.
  intros Hok. destruct (aok_identities _ Hok) as [Hf _]. unfold local_pairs, user_pairs. f_equal.
  rewrite <-list_fmap_compose. apply list_fmap_ext. intros k i Hi. rewrite Forall_lookup in Hf.
  simpl. by rewrite (iok_user _ _ (Hf k i Hi)).
Qed.

Lemma user_pairs_inj apple us vs : NoDup us → NoDup vs → user_pairs apple us = user_pairs apple vs ↔ us ≡ₚ vs.
Proof.
  intros Hu Hv. split; [|intros Hp; unfold user_pairs; by rewrite Hp].
  intros He. apply NoDup_Permutation; [done|done|]. intros u.
  assert (Hin : ∀ ws, (apple, u) ∈ user_pairs apple ws ↔ u ∈ ws).
  { intros ws. unfold user_pairs. rewrite elem_of_list_to_set, list_elem_of_fmap. naive_solver. }
  by rewrite <-!Hin, He.
Qed.

(** [summarize] succeeds exactly on a reconciled inventory. *)
Lemma summarize_Ok local live v : archive_ok local →
  summarize local live = Ok v ↔ reconciled local live ∧ v = summary (by_entity (uc_identities local)).
Proof.
  intros Hok. destruct (aok_identities _ Hok) as (_ & Hn & _ & _). unfold summarize. rewrite (local_pairs_uuids _ Hok).
  split.
  - intros (? & Hd%fail_if_Ok%negb_false_iff & (? & Hs%fail_if_Ok & (s & (l & us & Hl & Hu & Hnu & ->)%live_pairs_Ok &
      (t & (m & vs & Hm & Hv & Hnv & ->)%global_pairs_Ok & (? & Hp%fail_if_Ok & <-%Ok_inj)%bind_Ok)%bind_Ok)%bind_Ok)%bind_Ok)%bind_Ok.
    rewrite !orb_false_iff, !negb_false_iff, !bool_decide_eq_true, !is_true_eq in *.
    destruct Hs as [[[[H1 H2] H3] H4] H5], Hp as [Hp1 Hp2]. rewrite user_pairs_inj in Hp1, Hp2 by done.
    split; [|done]. split; try done; [by exists l, us|]. exists m, vs. split; [done|split; [done|]]. by rewrite Hp1, Hp2.
  - intros [[Hd H1 H2 H3 H4 H5 (l & us & Hl & Hu & Hp1) (m & vs & Hm & Hv & Hp2)] ->].
    assert (Hnu : NoDup us) by by rewrite Hp1. assert (Hnv : NoDup (omap id vs)) by by rewrite Hp2.
    rewrite Hd, H1, H2, H3, H4, H5. cbn [is_true negb orb fail_if mbind result_bind].
    rewrite (proj2 (live_pairs_Ok _ _ _)) by (exists l, us; eauto). cbn [mbind result_bind].
    rewrite (proj2 (global_pairs_Ok _ _ _)) by (exists m, vs; eauto). cbn [mbind result_bind].
    rewrite (bool_decide_eq_true_2 (_ = user_pairs _ us)) by (apply user_pairs_inj; done).
    rewrite (bool_decide_eq_true_2 (user_pairs _ us = _)) by (apply user_pairs_inj; try done; by rewrite Hp1, Hp2).
    done.
Qed.

(** ** Slots *)

Definition earlier (i j : Identity) : Prop := id_entity i < id_entity j.
#[export] Instance earlier_dec i j : Decision (earlier i j).
Proof. unfold earlier. apply _. Defined.

#[export] Instance entity_le_trans : Transitive entity_le.
Proof. intros i j k. unfold entity_le. lia. Qed.
#[export] Instance entity_le_total : Total entity_le.
Proof. intros i j. unfold entity_le. lia. Qed.

Lemma by_entity_perm l : by_entity l ≡ₚ l.
Proof. apply merge_sort_Permutation. Qed.

Lemma by_entity_length l : length (by_entity l) = length l.
Proof. by rewrite by_entity_perm. Qed.

Lemma by_entity_sorted l : NoDup (id_entity <$> l) → StronglySorted earlier (by_entity l).
Proof.
  intros Hn. rewrite <-(by_entity_perm l) in Hn.
  assert (Hs : StronglySorted entity_le (by_entity l)) by apply (StronglySorted_merge_sort entity_le).
  induction Hs as [|i m _ IH Hf]; [constructor|]. rewrite fmap_cons in Hn. apply NoDup_cons in Hn as [Hi Hn].
  constructor; [by apply IH|]. rewrite Forall_forall in *. intros j Hj. specialize (Hf j Hj).
  unfold entity_le, earlier in *. assert (id_entity i ≠ id_entity j); [|lia].
  intros He. apply Hi. rewrite He. by apply list_elem_of_fmap_2.
Qed.

(** In a strictly sorted list the position of an element is the number of
    earlier ones. *)
Lemma sorted_position l k i : StronglySorted earlier l → l !! k = Some i → length (filter (λ j, earlier j i) l) = k.
Proof.
  intros Hs. revert k. induction Hs as [|x l Hs IH Hf]; intros k Hk; [done|]. rewrite Forall_forall in Hf.
  destruct k as [|k]; simpl in Hk.
  - injection Hk as ->. rewrite filter_cons_False by (unfold earlier; lia).
    assert (Hnone : ∀ j, j ∈ l → ¬ earlier j i) by (intros j Hj; specialize (Hf j Hj); unfold earlier in *; lia).
    clear -Hnone. induction l as [|y l IH]; [done|].
    rewrite filter_cons_False by (apply Hnone, list_elem_of_here). apply IH. intros j Hj.
    by apply Hnone, list_elem_of_further.
  - rewrite filter_cons_True by (apply Hf; by eapply list_elem_of_lookup_2). simpl. f_equal. by apply IH.
Qed.

(** The slot of an identity: its rank among the entities. *)
Definition slot_of (local : UserCatacomb) (i : Identity) : Z :=
  1 + Z.of_nat (length (filter (λ j, earlier j i) (uc_identities local))).

Lemma slot_lookup local k i : archive_ok local →
  by_entity (uc_identities local) !! k = Some i ↔ i ∈ uc_identities local ∧ slot_of local i = 1 + Z.of_nat k.
Proof.
  intros Hok. destruct (aok_identities _ Hok) as (_ & _ & Hn & _). pose proof (by_entity_sorted _ Hn) as Hs.
  assert (Hrank : ∀ j m, by_entity (uc_identities local) !! j = Some m → slot_of local m = 1 + Z.of_nat j).
  { intros j m Hj. apply (sorted_position _ _ _ Hs) in Hj. unfold slot_of.
    rewrite <-(by_entity_perm (uc_identities local)). by rewrite Hj. }
  split.
  - intros Hk. split; [|by apply Hrank]. rewrite <-(by_entity_perm (uc_identities local)). by eapply list_elem_of_lookup_2.
  - intros [Hi Hslot]. rewrite <-(by_entity_perm (uc_identities local)) in Hi.
    apply list_elem_of_lookup in Hi as [j Hj]. pose proof (Hrank _ _ Hj) as He.
    assert (j = k) as <- by lia. done.
Qed.

Definition resolved_as (i : Identity) : ResolvedIdentity := Resolved (id_user_id i) (id_uuid i) (id_entity i) (id_name i).

Definition resolves (local : UserCatacomb) (live : value) (slot : Z) (r : ResolvedIdentity) : Prop :=
  reconciled local live ∧ ∃ i, i ∈ uc_identities local ∧ slot_of local i = slot ∧ r = resolved_as i.

Lemma resolve_slot_sound local live slot r : archive_ok local → resolve_slot local live slot = Ok r → resolves local live slot r.
Proof.
  intros Hok. unfold resolve_slot, resolves.
  intros (v & [Hrec ->]%summarize_Ok & (? & Hs%fail_if_Ok%negb_false_iff & H)%bind_Ok)%bind_Ok; [|done].
  destruct (by_entity _ !! _) as [i|] eqn:Hi; [|done]. apply slot_lookup in Hi as [Hin Hslot]; [|done].
  apply Ok_inj in H as <-. split; [done|]. exists i. split; [done|split; [lia|done]].
Qed.

Lemma resolve_slot_complete local live slot r : archive_ok local → resolves local live slot r → resolve_slot local live slot = Ok r.
Proof.
  intros Hok (Hrec & i & Hi & <- & ->). unfold resolve_slot. rewrite (proj2 (summarize_Ok _ _ _ Hok)) by done. cbn [mbind result_bind].
  assert (Hin : i ∈ by_entity (uc_identities local)) by by rewrite by_entity_perm.
  apply list_elem_of_lookup in Hin as [k Hk]. pose proof (lookup_lt_Some _ _ _ Hk) as Hl. rewrite by_entity_length in Hl.
  pose proof (proj2 (proj1 (slot_lookup _ _ _ Hok) Hk)) as He. rewrite He.
  change (int_value (summary _)@["identity_count"]) with (Z.of_nat (length (by_entity (uc_identities local)))).
  rewrite by_entity_length, !(proj2 (Z.leb_le _ _)) by lia. cbn [andb negb fail_if mbind result_bind].
  replace (Z.to_nat (1 + Z.of_nat k - 1)) with k by lia. by rewrite Hk.
Qed.

(** A slot is resolved only in a reconciled inventory, and then to the
    identity whose rank by entity number it is: the list the summary shows,
    numbered from one.  Exactly the slots from one to the number of identities
    resolve; every other slot, and every inventory that is not reconciled, is
    refused. *)
Theorem resolve_slot_exact local live : archive_ok local →
  (∀ slot r, resolve_slot local live slot = Ok r ↔ resolves local live slot r)
  ∧ (∀ slot, reconciled local live →
       is_ok (resolve_slot local live slot) = true ↔ 1 ≤ slot ≤ Z.of_nat (length (uc_identities local))).
Proof.
  intros Hok. split; [split; [by apply resolve_slot_sound|by apply resolve_slot_complete]|].
  intros slot Hrec. rewrite is_ok_true. split.
  - intros [r Hr]. apply resolve_slot_sound in Hr as (_ & i & Hi & <- & _); [|done].
    rewrite <-(by_entity_perm (uc_identities local)) in Hi. apply list_elem_of_lookup in Hi as [k Hk].
    pose proof (lookup_lt_Some _ _ _ Hk) as Hl. rewrite by_entity_length in Hl.
    apply slot_lookup in Hk as [_ ->]; [|done]. lia.
  - intros Hs. destruct (lookup_lt_is_Some_2 (by_entity (uc_identities local)) (Z.to_nat (slot - 1))) as [i Hi];
      [rewrite by_entity_length; lia|]. apply slot_lookup in Hi as [Hin Hslot]; [|done].
    exists (resolved_as i). apply resolve_slot_complete; [done|]. split; [done|]. exists i.
    split; [done|split; [lia|done]].
Qed.

(** ** The summary in the broker *)

Lemma has_keys_dict (kvs : list (string * value)) keys :
  bool_decide (list_to_set (C := gset string) kvs.*1 = list_to_set keys) = true → has_keys (dict kvs) keys = true.
Proof.
  intros H%bool_decide_eq_true. apply bool_decide_eq_true. by rewrite dom_list_to_map_L.
Qed.

(** The names the broker shows. *)
Definition public_name (name : string) : Prop :=
  name ≠ "" ∧ has_nul name = false ∧ Z.of_nat (utf8_length name) ≤ MAX_STRING_BYTES.
#[export] Instance public_name_dec name : Decision (public_name name).
Proof. unfold public_name. apply _. Defined.

Definition public_entry (position : nat) (i : Identity) : PublicIdentity :=
  MkPublicIdentity (Z.of_nat (S position)) (id_name i) true.
Definition public_inventory (ordered : list Identity) : PublicIdentityInventory :=
  MkPublicInventory (imap public_entry ordered) true "current-reconciled-list" true true.

Lemma utf8_length_pos name : name ≠ "" → (1 ≤ utf8_length name)%nat.
Proof. destruct name as [|c s]; [done|]. intros _. simpl. destruct (code c <? 128); lia. Qed.

Lemma parse_public_entry k i p : parse_public_identity k (slot_entry k i) = Ok p ↔
  public_name (id_name i) ∧ p = public_entry k i.
Proof.
  unfold parse_public_identity.
  assert (has_keys (slot_entry k i) PUBLIC_IDENTITY_KEYS = true) as -> by (apply has_keys_dict; vm_compute; reflexivity).
  cbn [negb fail_if mbind result_bind].
  change ((slot_entry k i)@["slot"]) with (VInt (Z.of_nat (S k))). change ((slot_entry k i)@["name"]) with (VStr (id_name i)).
  change ((slot_entry k i)@["live"]) with (VBool true). cbn [is_int int_value is_str str_value is_true].
  rewrite Z.eqb_refl. cbn [negb orb]. rewrite orb_false_r. unfold public_name, public_entry. split.
  - intros (? & [[Hn Hz]%orb_false_iff Hl%negb_false_iff]%fail_if_Ok%orb_false_iff & <-%Ok_inj)%bind_Ok.
    apply String.eqb_neq in Hn. split; [split; [done|split; [done|lia]]|done].
  - intros [(Hn & Hz & Hl) ->]. pose proof (utf8_length_pos _ Hn). apply String.eqb_neq in Hn. rewrite Hn, Hz.
    by rewrite !(proj2 (Z.leb_le _ _)) by lia.
Qed.

Lemma summary_entries l : list_value (summary l)@["identities"] = imap slot_entry l.
Proof. done. Qed.

Lemma parse_entries l : ∀ ps,
  mapM (λ p, parse_public_identity p.1 p.2) (imap pair (imap slot_entry l)) = Ok ps ↔
    Forall (λ i, public_name (id_name i)) l ∧ ps = imap public_entry l.
Proof.
  intros ps. rewrite mapM_Ok, Forall2_lookup, Forall_lookup. split.
  - intros H. assert (He : ∀ k i, l !! k = Some i → ∃ p, ps !! k = Some p ∧ public_name (id_name i) ∧ p = public_entry k i).
    { intros k i Hi. specialize (H k). rewrite !list_lookup_imap, Hi in H. simpl in H.
      inversion H as [x p Hp Hx Hps|]; subst. exists p. split; [done|]. by apply parse_public_entry. }
    split; [intros k i Hi; destruct (He k i Hi) as (p & _ & ? & _); done|].
    apply list_eq. intros k. rewrite list_lookup_imap. destruct (l !! k) as [i|] eqn:Hi; simpl.
    + destruct (He k i Hi) as (p & -> & _ & ->). done.
    + specialize (H k). rewrite !list_lookup_imap, Hi in H. simpl in H. by inversion H.
  - intros [Hf ->] k. rewrite !list_lookup_imap. destruct (l !! k) as [i|] eqn:Hi; simpl; constructor.
    apply parse_public_entry. split; [by eapply Hf|done].
Qed.

(** The broker reads back what the reconciliation summarised, if it can show
    the names. *)
Lemma summary_parses l p : (length l ≤ MAX_IDENTITIES)%nat →
  parse_public_inventory (summary l) = Ok p ↔ Forall (λ i, public_name (id_name i)) l ∧ p = public_inventory l.
Proof.
  intros Hl. unfold MAX_IDENTITIES in Hl. unfold parse_public_inventory.
  assert (has_keys (summary l) SUMMARY_KEYS = true) as -> by (apply has_keys_dict; vm_compute; reflexivity).
  cbn [negb fail_if mbind result_bind].
  change ((summary l)@["identity_count"]) with (VInt (Z.of_nat (length l))).
  change ((summary l)@["schema_version"]) with (VInt 1). change ((summary l)@["local_live_reconciled"]) with (VBool true).
  change ((summary l)@["selection_scope"]) with (VStr "current-reconciled-list").
  change ((summary l)@["fprintd_listing_is_compatibility_alias"]) with (VBool true).
  change ((summary l)@["identifiers_redacted"]) with (VBool true).
  change ((summary l)@["identities"]) with (VList (imap slot_entry l)). cbn [is_int int_value is_list list_value is_true].
  rewrite length_imap, !Z.eqb_refl, py_eq_refl. unfold MAX_IDENTITIES. rewrite !(proj2 (Z.leb_le _ _)) by lia.
  cbn [Z.eqb Pos.eqb negb orb andb fail_if mbind result_bind].
  assert (Hpub : inventory_public (public_inventory l) = summary l).
  { unfold inventory_public, public_inventory, summary, identity_count. simpl. rewrite length_imap. do 4 f_equal.
    rewrite fmap_imap. f_equal. }
  split.
  - intros (ps & [Hf ->]%parse_entries & (? & _ & <-%Ok_inj)%bind_Ok)%bind_Ok. done.
  - intros [Hf ->]. rewrite (proj2 (parse_entries l _)) by done. cbn [mbind result_bind].
    fold (public_inventory l). rewrite Hpub, py_eq_refl. done.
Qed.

(** ** The projection *)

Lemma distinct_size (l : list string) : size (list_to_set (C := gset string) l) = length l ↔ NoDup l.
Proof.
  split; [|by apply size_list_to_set]. induction l as [|x l IH]; [constructor|]. simpl. intros H.
  destruct (decide (x ∈ l)) as [Hx|Hx].
  - rewrite subseteq_union_1_L in H by set_solver.
    assert (size (list_to_set (C := gset string) l) ≤ length l)%nat; [|lia].
    clear. induction l as [|y l IH]; [done|]. simpl.
    pose proof (size_union_alt (C := gset string) {[y]} (list_to_set l)) as Hs. rewrite size_singleton in Hs.
    assert (size (list_to_set (C := gset string) l ∖ {[y]}) ≤ size (list_to_set (C := gset string) l))%nat
      by (apply subseteq_size; set_solver). lia.
  - rewrite size_union, size_singleton in H by set_solver. constructor; [done|]. apply IH. lia.
Qed.

Lemma filter_length_all (P : string → Prop) `{!∀ x, Decision (P x)} (l : list string) :
  length (filter P l) = length l ↔ Forall P l.
Proof.
  split.
  - intros Heq. assert (Hl : ∀ m, (length (filter P m) ≤ length m)%nat).
    { induction m as [|y m IHm]; [done|]. rewrite filter_cons. destruct (decide (P y)); simpl; lia. }
    induction l as [|x l IH]; [constructor|]. rewrite filter_cons in Heq. specialize (Hl l).
    destruct (decide (P x)); simpl in Heq; [constructor; [done|apply IH; lia]|lia].
  - induction 1 as [|x l Hx _ IH]; [done|]. rewrite filter_cons_True by done. simpl. by f_equal.
Qed.

Lemma filter_all {A} (P : A → Prop) `{!∀ x, Decision (P x)} l : Forall P l → filter P l = l.
Proof. induction 1 as [|x l Hx _ IH]; [done|]. rewrite filter_cons_True by done. by f_equal. Qed.

Lemma imap_const {A B} (f : A → B) l : imap (λ _, f) l = f <$> l.
Proof. induction l as [|x l IH]; [done|]. simpl. by f_equal. Qed.

(** Every identity has a finger's name, and no two the same. *)
Definition fully_named (names : list string) : Prop := Forall (λ name, name ∈ FINGER_NAMES) names ∧ NoDup names.

(** What [project] counts in a list of names. *)
Lemma projection_counts (l names : list string) : l ≡ₚ names →
  let recognized := filter (λ name, name ∈ FINGER_NAMES) l in
  let complete := (Z.of_nat (length names) - Z.of_nat (length recognized) =? 0)
    && (Z.of_nat (length recognized) - Z.of_nat (size (list_to_set (C := gset string) recognized)) =? 0) in
  (complete = true ↔ fully_named names)
  ∧ (complete = true → filter (λ f, f ∈ recognized) FINGER_NAMES = filter (λ f, f ∈ names) FINGER_NAMES
       ∧ filter (λ f, f ∈ recognized) FINGER_NAMES ≡ₚ names).
Proof.
  intros Hp recognized complete. assert (Hc : complete = true ↔ fully_named names).
  { unfold complete, fully_named. rewrite andb_true_iff, !Z.eqb_eq. rewrite <-Hp.
    rewrite <-(filter_length_all (λ name, name ∈ FINGER_NAMES) l). fold recognized. split.
    - intros [H1 H2]. split; [lia|]. assert (Hn : NoDup recognized) by (apply distinct_size; lia).
      assert (Hall : Forall (λ name, name ∈ FINGER_NAMES) l) by (apply (proj1 (filter_length_all (λ name, name ∈ FINGER_NAMES) l)); fold recognized; lia).
      unfold recognized in Hn. by rewrite filter_all in Hn.
    - intros [H1 H2]. assert (Hr : recognized = l) by (unfold recognized; apply filter_all; by apply (proj1 (filter_length_all (λ name, name ∈ FINGER_NAMES) l))).
      rewrite Hr. split; [lia|]. apply distinct_size in H2. lia. }
  split; [done|]. intros [Hf Hn]%Hc. rewrite <-Hp in Hf. assert (Hr : recognized = l) by by apply filter_all.
  rewrite Hr. split.
  - apply list_filter_iff. intros f. by rewrite Hp.
  - apply NoDup_Permutation.
    + apply NoDup_filter. apply (bool_decide_unpack _). vm_compute. exact I.
    + done.
    + intros f. rewrite list_elem_of_filter, Hp. rewrite Hp in Hf. rewrite Forall_forall in Hf. naive_solver.
Qed.

Lemma raises_mapM {A B} (C : exn_class → Prop) (f : A → result B) l : (∀ x, raises C (f x)) → raises C (mapM f l).
Proof. intros Hf. induction l as [|x l IH]; simpl; raises_run; auto; by intros ?. Qed.

Lemma parse_public_raises v e : parse_public_inventory v = Raise e → exn_cls e = UserBrokerInventoryError.
Proof.
  assert (H : raises (λ c, c = UserBrokerInventoryError) (parse_public_inventory v)); [|intros He; by apply H].
  unfold parse_public_inventory. raises_run; try done.
  apply raises_mapM. intros [k r]. unfold parse_public_identity. by raises_run.
Qed.

(** The summary of a reconciled archive projects onto fprint's fingers: the
    projection counts the identities, is complete exactly when every identity
    has a finger's name of its own, and then lists the enrolled fingers in
    fprint's order; otherwise it lists none.  A label the broker cannot show
    refuses the projection. *)
Theorem summary_projects local live v : archive_ok local → summarize local live = Ok v →
  let names := id_name <$> uc_identities local in
  (Forall public_name names → ∃ p, project v = Ok p ∧ fp_reconciled_identity_count p = Z.of_nat (length names)
     ∧ (fp_complete p = true ↔ fully_named names)
     ∧ (fp_complete p = true → fp_finger_names p = filter (λ f, f ∈ names) FINGER_NAMES ∧ fp_finger_names p ≡ₚ names)
     ∧ (fp_complete p = false → fp_finger_names p = []))
  ∧ (¬ Forall public_name names → ∃ msg, project v = raise FprintProjectionError msg).
Proof.
  intros Hok [_ ->]%summarize_Ok names; [|done]. destruct (aok_identities _ Hok) as (_ & _ & _ & Hlen).
  set (l := by_entity (uc_identities local)).
  assert (Hl : (length l ≤ MAX_IDENTITIES)%nat) by (unfold l; by rewrite by_entity_length).
  assert (Hp : id_name <$> l ≡ₚ names) by (unfold l, names; by rewrite by_entity_perm).
  assert (Hf : Forall (λ i, public_name (id_name i)) l ↔ Forall public_name names) by (by rewrite <-Hp, Forall_fmap).
  split.
  - intros Hn. unfold project.
    rewrite (proj2 (summary_parses l _ Hl)) by (split; [by apply Hf|done]). cbn [except mbind result_bind].
    assert (Hnames : pi_name <$> pv_identities (public_inventory l) = id_name <$> l).
    { unfold public_inventory, public_entry. simpl. rewrite fmap_imap. exact (imap_const id_name l). }
    rewrite Hnames. assert (Hcount : identity_count (public_inventory l) = length names).
    { unfold identity_count, public_inventory. simpl. rewrite length_imap, <-Hp. by rewrite length_fmap. }
    rewrite Hcount. set (recognized := filter (λ name, name ∈ FINGER_NAMES) (id_name <$> l)).
    destruct (projection_counts (id_name <$> l) names Hp) as (Hc & Ho). fold recognized in Hc, Ho.
    set (complete := _ && _) in *. 
    assert (Hlen' : complete && negb (length (if complete then filter (λ name, name ∈ recognized) FINGER_NAMES else []) =? length names)%nat = false).
    { destruct complete; [|done]. rewrite (Permutation_length (proj2 (Ho eq_refl))). by rewrite Nat.eqb_refl. }
    rewrite Hlen'. cbn [fail_if mbind result_bind]. eexists. split; [reflexivity|]. simpl.
    split; [done|split; [exact Hc|split]].
    + intros He. rewrite He in *. exact (Ho eq_refl).
    + intros He. by rewrite He.
  - intros Hn. unfold project. destruct (parse_public_inventory (summary l)) as [p|e] eqn:Hparse.
    + apply summary_parses in Hparse as [Hpub _]; [|done]. by apply Hf in Hpub.
    + assert (He : exn_cls e = UserBrokerInventoryError) by exact (parse_public_raises _ _ Hparse).
      exists "fprint projection requires exact reconciled inventory". cbn [except]. rewrite He. done.
Qed.

(** ** Selection *)

Definition bytes_value (bs : bytes) : value := VBytes (String.string_of_list_ascii bs).
(** The coprocessor's record of an identity: user ID and UUID. *)
Definition match_wire (user : Z) (u : string) : bytes := le_pack 4 user ++ be_pack 16 (default 0 (uuid_UUID u)).
Definition nonzero_uuid (u : string) : Prop := ∃ z, u = uuid_str z ∧ 0 < z < 2 ^ 128.

Lemma text_bytes bs : text (String.string_of_list_ascii bs) = bs.
Proof. apply String.list_ascii_of_string_of_list_ascii. Qed.

Lemma VBytes_inj a b : VBytes a = VBytes b → a = b.
Proof. by intros [= ->]. Qed.

Lemma match_wire_uuid user z : 0 ≤ z < 2 ^ 128 → match_wire user (uuid_str z) = le_pack 4 user ++ be_pack 16 z.
Proof. intros Hz. unfold match_wire. rewrite uuid_round_trip by done. reflexivity. Qed.

Lemma match_record_Ok v user u raw : uint32 user → match_record v user = Ok (u, raw) ↔
  nonzero_uuid u ∧ raw = match_wire user u ∧ v = bytes_value raw.
Proof.
  intros Hu. destruct v as [| | | |s| |]; cbn [match_record];
    [split; [intros [=]|intros (_ & _ & [=])]..| |split; [intros [=]|intros (_ & _ & [=])]|split; [intros [=]|intros (_ & _ & [=])]].
  split.
  - intros (? & Hl%fail_if_Ok%negb_false_iff%Nat.eqb_eq & ([w []] & Hw & H)%bind_Ok)%bind_Ok.
    apply (proj1 (unpack_from_Ok [I_] (text s) 0 _)) in Hw as [_ Hw]. cbn [fields I_] in Hw. rewrite drop_0 in Hw. injection Hw as ->.
    apply bind_Ok in H as (? & [He%negb_false_iff%Z.eqb_eq Hz%Z.eqb_neq]%fail_if_Ok%orb_false_iff & Hr%Ok_inj).
    injection Hr as <- <-. assert (Hs : slice 4 20 (text s) = drop 4 (text s)).
    { unfold slice. apply firstn_all2. rewrite length_drop. lia. }
    rewrite Hs in *. clear Hs. pose proof (be_unpack_bounds (drop 4 (text s))) as Hb.
    assert (Hd : length (drop 4 (text s)) = 16%nat) by (rewrite length_drop; lia). rewrite Hd in Hb.
    change (width 16) with (2 ^ 128) in Hb. split; [exists (be_unpack (drop 4 (text s))); split; [exact eq_refl|lia]|]. split.
    + rewrite match_wire_uuid by lia. rewrite <-He, <-Hd, be_pack_unpack.
      rewrite <-(take_drop 4 (text s)) at 1. f_equal. symmetry.
      rewrite <-(le_pack_unpack (take 4 (text s))) at 2. rewrite length_take, Hl. reflexivity.
    + unfold bytes_value, text. by rewrite String.string_of_list_ascii_of_string.
  - intros ((z & -> & Hz) & -> & Hv). apply VBytes_inj in Hv. subst s. rewrite text_bytes. rewrite match_wire_uuid by lia.
    assert (Hl : length (le_pack 4 user ++ be_pack 16 z) = 20%nat) by (rewrite length_app, length_le_pack, length_be_pack; done).
    rewrite Hl. cbn [Nat.eqb negb fail_if mbind result_bind].
    assert (Hx : unpack_from [I_] (le_pack 4 user ++ be_pack 16 z) 0 = Ok (user, tt)).
    { apply unpack_from_Ok. split; [rewrite Hl; simpl; lia|]. rewrite drop_0. cbn [fields I_].
      rewrite take_app_length' by by rewrite length_le_pack. rewrite le_unpack_pack; [done|].
      destruct Hu. change (width 4) with 4294967296. lia. }
    rewrite Hx. cbn [mbind result_bind]. unfold slice.
    rewrite drop_app_length' by by rewrite length_le_pack. rewrite firstn_all2 by (rewrite length_be_pack; lia).
    rewrite be_unpack_pack by (change (width 16) with (2 ^ 128); lia).
    rewrite Z.eqb_refl, (proj2 (Z.eqb_neq z 0)) by lia. reflexivity.
Qed.

Lemma add_records_Ok user l : ∀ m m', fold_result (add_record user) m l = Ok m' ↔
  ∃ prs, Forall2 (λ v p, match_record v user = Ok p) l prs ∧ NoDup prs.*1 ∧ (∀ k, k ∈ prs.*1 → k ∉ dom m)
    ∧ m' = list_to_map prs ∪ m.
Proof.
  induction l as [|x l IH]; intros m m'; cbn [fold_result].
  - split.
    + intros <-%Ok_inj. exists []. split; [constructor|split; [constructor|]].
      split; [intros k Hk; by apply not_elem_of_nil in Hk|]. by rewrite list_to_map_nil, map_empty_union.
    + intros (prs & Hr & _ & _ & ->). inversion Hr; subst. by rewrite list_to_map_nil, map_empty_union.
  - rewrite bind_Ok. unfold add_record at 1. split.
    + intros (t & ([u raw] & Hx & (? & Hn%fail_if_Ok%bool_decide_eq_false & <-%Ok_inj)%bind_Ok)%bind_Ok & Hl).
      apply IH in Hl as (prs & Hr & Hnd & Hd & ->). exists ((u, raw) :: prs). split; [by constructor|].
      assert (Hd' : ∀ k, k ∈ prs.*1 → k ≠ u ∧ (k ∉ dom m)).
      { intros k Hk. specialize (Hd k Hk). rewrite dom_insert in Hd. set_solver. }
      split; [|split].
      * simpl. constructor; [|done]. intros Hin. by destruct (Hd' u Hin).
      * simpl. intros k [->|Hk]%elem_of_cons; [done|]. by apply Hd'.
      * rewrite list_to_map_cons, <-insert_union_l. symmetry. apply insert_union_r.
        apply not_elem_of_list_to_map_1. intros Hin. by destruct (Hd' u Hin).
    + intros (prs & Hr & Hnd & Hd & ->). inversion Hr as [|? [u raw] ? prs' Hx Hr']; subst. simpl in Hnd, Hd.
      apply NoDup_cons in Hnd as [Hu Hnd]. exists (<[u:=raw]> m). split.
      * apply bind_Ok. exists (u, raw). split; [done|]. rewrite bool_decide_eq_false_2; [done|]. apply Hd, list_elem_of_here.
      * apply IH. exists prs'. split; [done|split; [done|]]. split.
        -- intros k Hk. rewrite dom_insert. apply not_elem_of_union. split; [set_solver|].
           by apply Hd, list_elem_of_further.
        -- rewrite list_to_map_cons, <-insert_union_l. apply insert_union_r. by apply not_elem_of_list_to_map_1.
Qed.

(** What selecting the finger [f] needs: every identity has a finger's name of
    its own, the records are those of the archive's identities in any order,
    and one of them has that name. *)
Definition selectable (local : UserCatacomb) (records : list value) (f : string) (i : Identity) : Prop :=
  fully_named (id_name <$> uc_identities local) ∧ i ∈ uc_identities local ∧ id_name i = f
  ∧ records ≡ₚ (λ i, bytes_value (match_wire (uc_expected_user_id local) (id_uuid i))) <$> uc_identities local
  ∧ Forall (λ i, nonzero_uuid (id_uuid i)) (uc_identities local).

Lemma filter_name f (l : list Identity) i : NoDup (id_name <$> l) → i ∈ l → id_name i = f →
  filter (λ j, VStr (id_name j) = VStr f) l = [i].
Proof.
  intros Hn Hi <-. induction l as [|x l IH]; [by apply not_elem_of_nil in Hi|].
  rewrite fmap_cons in Hn. apply NoDup_cons in Hn as [Hx Hn]. apply elem_of_cons in Hi as [->|Hi].
  - rewrite filter_cons_True by done. f_equal. clear IH Hn. induction l as [|y l IH]; [done|].
    rewrite fmap_cons in Hx. apply not_elem_of_cons in Hx as [Hxy Hx].
    rewrite filter_cons_False by (intros [= He]; done). by apply IH.
  - rewrite filter_cons_False; [by apply IH|]. intros [= He]. apply Hx. rewrite He. by apply list_elem_of_fmap_2.
Qed.

(** C39: Selecting a finger yields the coprocessor's own record of the identity
    that carries its name, and only when the labels are complete and distinct
    and the coprocessor listed exactly the archive's identities; anything else
    is refused. *)
Theorem select_exact local records f s : archive_ok local →
  select local records (VStr f) = Ok s ↔
    ∃ i, selectable local records f i ∧ s = Selected f (match_wire (uc_expected_user_id local) (id_uuid i)).
Proof.
  intros Hok. destruct (aok_identities _ Hok) as (_ & Hnu & _ & _). pose proof (aok_user _ Hok) as Huser.
  set (user := uc_expected_user_id local) in *. set (ids := uc_identities local) in *.
  unfold select. fold ids user. cbn [not_in_names in_names fmap result_fmap mbind result_bind]. split.
  - intros (? & Hf%fail_if_Ok%negb_false_iff%bool_decide_eq_true & (? & [[He Ha]%orb_false_iff Hn]%fail_if_Ok%orb_false_iff & H)%bind_Ok)%bind_Ok.
    apply negb_false_iff, bool_decide_eq_true in Ha, Hn.
    destruct (filter _ ids) as [|i [|]] eqn:Hi; try done.
    apply bind_Ok in H as (? & Hl%fail_if_Ok%negb_false_iff%Nat.eqb_eq & (m & Hm & (? & Hd%fail_if_Ok%negb_false_iff%bool_decide_eq_true & H)%bind_Ok)%bind_Ok).
    assert (Hin : i ∈ filter (λ j, VStr (id_name j) = VStr f) ids) by (rewrite Hi; apply list_elem_of_here).
    apply list_elem_of_filter in Hin as [[= Hif] Hii].
    apply add_records_Ok in Hm as (prs & Hr & Hnd & _ & ->). rewrite map_union_empty in *.
    rewrite dom_list_to_map_L in Hd.
    assert (Hp : prs.*1 ≡ₚ id_uuid <$> ids).
    { apply NoDup_Permutation; [done|done|]. intros u. rewrite <-!(elem_of_list_to_set (C := gset string)). by rewrite Hd. }
    assert (Hwire : records = (λ u, bytes_value (match_wire user u)) <$> prs.*1 ∧ Forall nonzero_uuid prs.*1
                    ∧ Forall (λ p, p.2 = match_wire user p.1) prs).
    { clear -Hr Huser. induction Hr as [|v [u raw] l prs Hv _ (IH1 & IH2 & IH3)]; [by repeat constructor|].
      apply match_record_Ok in Hv as (Hz & -> & ->); [|done]. split; [exact (f_equal (cons _) IH1)|]. split; by constructor. }
    destruct Hwire as (Hrec & Hz & Hval). exists i. split.
    + split; [by split|split; [done|split; [done|]]]. split.
      * rewrite Hrec, Hp. by rewrite <-list_fmap_compose.
      * rewrite Hp, Forall_fmap in Hz. exact Hz.
    + destruct (list_to_map prs !! id_uuid i) as [raw|] eqn:Hlook; [|done]. apply Ok_inj in H as <-. cbn [str_value].
      apply elem_of_list_to_map_2 in Hlook. rewrite Forall_forall in Hval. f_equal. exact (Hval _ Hlook).
  - intros (i & ((Ha & Hn) & Hi & Hif & Hrec & Hz) & ->). fold user ids in Hi, Ha, Hn, Hrec, Hz.
    rewrite (bool_decide_eq_true_2 (f ∈ FINGER_NAMES)).
    2: { rewrite Forall_forall in Ha. rewrite <-Hif. apply Ha. by apply list_elem_of_fmap_2. }
    cbn [negb fail_if mbind result_bind]. rewrite (bool_decide_eq_false_2 (ids = [])) by (intros ->; by apply not_elem_of_nil in Hi).
    rewrite (bool_decide_eq_true_2 (Forall _ _)) by done. rewrite (bool_decide_eq_true_2 (NoDup _)) by done.
    cbn [negb orb fail_if mbind result_bind]. rewrite (filter_name f ids i) by done.
    assert (Hlen : length records = length ids) by (rewrite Hrec; by rewrite length_fmap).
    rewrite Hlen, Nat.eqb_refl. cbn [negb fail_if mbind result_bind].
    rewrite (list_fmap_compose id_uuid (λ u, bytes_value (match_wire user u))) in Hrec.
    apply Permutation_map_inv in Hrec as (us & -> & Hp).
    change (map _ us) with ((λ u, bytes_value (match_wire user u)) <$> us) in *.
    assert (Hnus : NoDup us) by by rewrite <-Hp.
    assert (Hzus : Forall nonzero_uuid us) by (by rewrite <-Hp, Forall_fmap).
    rewrite (proj2 (add_records_Ok user _ ∅ (list_to_map ((λ u, (u, match_wire user u)) <$> us)))).
    + assert (Hk : ((λ u, (u, match_wire user u)) <$> us).*1 = us) by (rewrite <-list_fmap_compose; apply list_fmap_id).
      cbn [mbind result_bind]. rewrite dom_list_to_map_L, Hk. rewrite bool_decide_eq_true_2 by by rewrite Hp.
      cbn [negb fail_if mbind result_bind].
      rewrite (elem_of_list_to_map_1 _ (id_uuid i) (match_wire user (id_uuid i))); [done|by rewrite Hk|].
      apply (list_elem_of_fmap_2 (λ u, (u, match_wire user u))). rewrite <-Hp. by apply list_elem_of_fmap_2.
    + exists ((λ u, (u, match_wire user u)) <$> us).
      assert (Hk : ((λ u, (u, match_wire user u)) <$> us).*1 = us) by (rewrite <-list_fmap_compose; apply list_fmap_id).
      rewrite Hk. split; [|split; [done|split; [set_solver|by rewrite map_union_empty]]].
      apply Forall2_fmap. clear -Hzus Huser. induction Hzus as [|u us Hu _ IH]; constructor; [|done].
      by apply match_record_Ok.
Qed.
