(* ===== verification/IdentityPlans.v ===== *)
(** * Plans of identity edits ([src/src/t2_identity_rename.py],
    [src/src/t2_identity_delete.py])

    A plan resolves one identity of a reconciled archive, edits a copy of the
    archive, decodes the result again and compares it with the original; it
    dispatches nothing.  Binding puts the fresh secure data of the coprocessor
    into the planned archive.  Arguments have their annotated types, and
    [plistlib] is a parameter, as in [CatacombCodec]. *)
From S2P Require Import Prelude PyValue Sha256 UuidFacts Json JsonFacts MutationJournal Effect Bytes KeyedArchive CatacombOracle.
From S2P Require Import CatacombCodec CatacombDecode CatacombWrite IdentityInventory.

#[local] Open Scope Z_scope.

(** [value.encode("utf-8")] for code points below 256. *)
Fixpoint utf8 (s : string) : string :=
  match s with
  | ""%string => ""%string
  | String c s =>
      if code c <? 128 then String c (utf8 s)
      else String (chr (192 + code c / 64)) (String (chr (128 + code c mod 64)) (utf8 s))
  end.

(** [{identity.uuid: identity for identity in identities}] *)
Definition by_uuid (identities : list Identity) : gmap string Identity :=
  list_to_map (reverse ((λ i, (id_uuid i, i)) <$> identities)).

Definition only (c : exn_class) (e : exn_class) : bool := bool_decide (e = c).

Record IdentityRenamePlan := RenamePlan {
  rp_apple_user_id : Z;
  rp_identity_uuid : string;
  rp_entity : Z;
  rp_previous_name : string;
  rp_new_name : string;
  rp_archive : bytes;
}.

Record IdentityDeletePlan := DeletePlan {
  dp_apple_user_id : Z;
  dp_identity_uuid : string;
  dp_entity : Z;
  dp_name : string;
  dp_request : bytes;
  dp_survivor_snapshot_sha256 : string;
  dp_archive : bytes;
}.

(** [survivor_snapshot_sha256] *)
Definition survivor_record (i : Identity) : value :=
  dict [("user_id", VInt (id_user_id i)); ("identity_uuid", VStr (id_uuid i)); ("entity", VInt (id_entity i));
        ("name_sha256", VStr (sha256_hex (utf8 (id_name i))))].
Definition survivor_snapshot_sha256 (identities : list Identity) : result string :=
  records ← canonical (VList (survivor_record <$> by_entity identities)); Ok (sha256_hex records).

Section plans.
Context (plist_dumps : plist → result bytes) (plist_loads : bytes → result plist).
#[local] Abbreviation decode := (decode_user_catacomb plist_loads).

(** ** Renaming *)

#[local] Abbreviation refuse b msg := (fail_if b IdentityRenameError msg).

Definition valid_label (name : string) : bool :=
  negb (String.eqb name "" || has_nul name || (MAX_STRING_BYTES <? Z.of_nat (utf8_length name))).

(** The loop body over [before.items()]. *)
Definition renamed_only (after : gmap string Identity) (target new_name : string) (entry : string * Identity) : bool :=
  match after !! entry.1 with
  | Some new =>
      identity_eqb new (set_name (if String.eqb entry.1 target then new_name else id_name entry.2) entry.2)
  | None => false
  end.

Definition rename_plan (local : UserCatacomb) (live : value) (slot : Z) (new_name : string)
    : result IdentityRenamePlan :=
  _ ← refuse (negb (valid_label new_name)) "new identity name is invalid";
  selected ← except (only IdentityInventoryError) (λ e, Exn IdentityRenameError (exn_msg e))
               (resolve_slot local live slot);
  _ ← refuse (String.eqb new_name (ri_name selected)) "new identity name is unchanged";
  _ ← refuse (existsb (λ i, negb (String.eqb (id_uuid i) (ri_identity_uuid selected))
                            && String.eqb (id_name i) new_name) (uc_identities local))
        "new identity name is already assigned";
  '(archive, decoded) ←
     except (only CatacombCodecError)
       (λ _, Exn IdentityRenameError "renamed archive did not pass strict decoding")
       (archive ← rename plist_dumps plist_loads local (ri_identity_uuid selected) new_name;
        decoded ← decode archive (ri_apple_user_id selected);
        Ok (archive, decoded));
  let before := by_uuid (uc_identities local) in
  let after := by_uuid (uc_identities decoded) in
  _ ← refuse (negb (bool_decide (dom before = dom after))) "rename changed the identity set";
  _ ← refuse (negb (forallb (renamed_only after (ri_identity_uuid selected) new_name) (map_to_list before)))
        "rename changed non-label identity metadata";
  Ok (RenamePlan (ri_apple_user_id selected) (ri_identity_uuid selected) (ri_entity selected) (ri_name selected)
        new_name archive).

Definition bind_renamed (plan : IdentityRenamePlan) (secure_blob : bytes) : result bytes :=
  '(output, verified) ←
     except (λ c, only CatacombCodecError c || only TypeError c)
       (λ _, Exn IdentityRenameError "fresh secure envelope is invalid")
       (decoded ← decode (rp_archive plan) (rp_apple_user_id plan);
        output ← replace_secure_data plist_dumps plist_loads decoded secure_blob;
        verified ← decode output (rp_apple_user_id plan);
        Ok (output, verified));
  _ ← refuse (match filter (λ i, id_uuid i = rp_identity_uuid plan) (uc_identities verified) with
              | [target] => negb (String.eqb (id_name target) (rp_new_name plan))
              | _ => true
              end) "secure-envelope binding changed the rename target";
  Ok output.

(** ** Deleting *)

#[local] Abbreviation reject b msg := (fail_if b IdentityDeleteError msg).

Definition delete_request (identity_uuid : string) (user_id : Z) : result bytes :=
  raw ← uuid_bytes identity_uuid;
  user ← pack [I_] (user_id, tt);
  Ok (raw ++ user).

Definition plan_target (local : UserCatacomb) (identity_uuid : string) : result IdentityDeletePlan :=
  _ ← reject (length (uc_identities local) <=? 1)%nat
        "single deletion would leave an unverified zero-identity component";
  match filter (λ i, id_uuid i = identity_uuid) (uc_identities local) with
  | [selected] =>
      '(archive, decoded) ←
         except (only CatacombCodecError) (λ e, Exn IdentityDeleteError (exn_msg e))
           (archive ← CatacombCodec.delete plist_dumps plist_loads local (id_uuid selected);
            decoded ← decode archive (id_user_id selected);
            Ok (archive, decoded));
      let before := by_uuid (uc_identities local) in
      let after := by_uuid (uc_identities decoded) in
      _ ← reject (negb (bool_decide (id_uuid selected ∈ dom before)) || bool_decide (id_uuid selected ∈ dom after)
                  || negb (bool_decide (dom after = dom before ∖ {[id_uuid selected]})))
            "delete plan did not remove exactly its target";
      _ ← reject (existsb (λ p, match before !! p.1 with Some old => negb (identity_eqb p.2 old) | None => true end)
                    (map_to_list after))
            "delete plan changed surviving identity metadata";
      request ← delete_request (id_uuid selected) (id_user_id selected);
      _ ← reject (negb (length request =? 20)%nat) "delete request is not the recovered 20-byte form";
      survivors ← survivor_snapshot_sha256 (uc_identities decoded);
      Ok (DeletePlan (id_user_id selected) (id_uuid selected) (id_entity selected) (id_name selected) request
            survivors archive)
  | _ => raise IdentityDeleteError "delete target is not unique in the local archive"
  end.

(** [plan] of the delete module. *)
Definition delete_plan (local : UserCatacomb) (live : value) (slot : Z) : result IdentityDeletePlan :=
  selected ← except (only IdentityInventoryError) (λ e, Exn IdentityDeleteError (exn_msg e))
               (resolve_slot local live slot);
  plan_target local (ri_identity_uuid selected).

Definition plan_named (local : UserCatacomb) (live : value) (finger_name : string) : result IdentityDeletePlan :=
  _ ← reject (negb (bool_decide (finger_name ∈ FINGER_NAMES))) "delete finger name is not canonical";
  _ ← except (only IdentityInventoryError) (λ e, Exn IdentityDeleteError (exn_msg e)) (summarize local live);
  match filter (λ i, id_name i = finger_name) (uc_identities local) with
  | [target] => plan_target local (id_uuid target)
  | _ => raise IdentityDeleteError "delete finger name is not unique in the reconciled inventory"
  end.

Definition recovery_plan (local : UserCatacomb) (identity_uuid : string) (entity : Z)
    (expected_survivor_sha256 : string) : result IdentityDeletePlan :=
  parsed ← match uuid_UUID identity_uuid with
           | Some parsed =>
               except (only JournalError) (λ _, Exn IdentityDeleteError "recovery delete binding is invalid")
                 (_ ← require_sha256 (VStr expected_survivor_sha256) "survivor snapshot"; Ok parsed)
           | None => raise IdentityDeleteError "recovery delete binding is invalid"
           end;
  differs ← or_else (Ok (negb (String.eqb (uuid_str parsed) identity_uuid)
                         || negb ((0 <=? entity) && (entity <=? 0xFFFFFFFF))
                         || bool_decide (uc_identities local = [])
                         || bool_decide (identity_uuid ∈ id_uuid <$> uc_identities local)))
              (survivors ← survivor_snapshot_sha256 (uc_identities local);
               Ok (negb (String.eqb survivors expected_survivor_sha256)));
  _ ← reject differs "recovery survivor set differs from the journal";
  user ← pack [I_] (uc_expected_user_id local, tt);
  let request := be_pack 16 parsed ++ user in
  archive ← replace_secure_data plist_dumps plist_loads local (uc_secure_data local);
  verified ← decode archive (uc_expected_user_id local);
  _ ← reject (negb (identities_eqb (uc_identities verified) (uc_identities local)))
        "recovery archive changed surviving identities";
  Ok (DeletePlan (uc_expected_user_id local) identity_uuid entity "" request expected_survivor_sha256 archive).

Definition bind_survivors (plan : IdentityDeletePlan) (secure_blob : bytes) : result bytes :=
  '(output, verified) ←
     except (λ c, only CatacombCodecError c || only TypeError c)
       (λ _, Exn IdentityDeleteError "fresh secure envelope is invalid")
       (decoded ← decode (dp_archive plan) (dp_apple_user_id plan);
        output ← replace_secure_data plist_dumps plist_loads decoded secure_blob;
        verified ← decode output (dp_apple_user_id plan);
        Ok (output, verified));
  changed ← or_else (Ok (bool_decide (dp_identity_uuid plan ∈ id_uuid <$> uc_identities verified)))
              (survivors ← survivor_snapshot_sha256 (uc_identities verified);
               Ok (negb (String.eqb survivors (dp_survivor_snapshot_sha256 plan))));
  _ ← reject changed "secure-envelope binding changed the deletion survivor set";
  Ok output.
End plans.

(** ** Identities by UUID *)

Lemma by_uuid_lookup (l : list Identity) u i : NoDup (id_uuid <$> l) → by_uuid l !! u = Some i ↔ i ∈ l ∧ id_uuid i = u.
Proof.
  intros Hn. unfold by_uuid. set (prs := reverse ((λ i, (id_uuid i, i)) <$> l)).
  assert (Hp : prs ≡ₚ (λ i, (id_uuid i, i)) <$> l) by apply reverse_Permutation.
  assert (Hk : NoDup prs.*1) by (rewrite Hp, <-list_fmap_compose; exact Hn).
  rewrite <-(elem_of_list_to_map _ _ _ Hk), Hp, list_elem_of_fmap. split.
  - intros (j & [= -> ->] & Hj). done.
  - intros [Hi <-]. by exists i.
Qed.

Lemma by_uuid_dom (l : list Identity) : dom (by_uuid l) = list_to_set (id_uuid <$> l).
Proof.
  unfold by_uuid. rewrite dom_list_to_map_L. apply set_eq. intros u.
  rewrite !elem_of_list_to_set, fmap_reverse, elem_of_reverse, <-list_fmap_compose. done.
Qed.

Lemma identity_eqb_refl user i : identity_ok user i → identity_eqb i i = true.
Proof.
  intros Hi. pose proof (identities_eqb_refl user [i] ltac:(by constructor)) as H.
  cbn [identities_eqb] in H. by rewrite andb_true_r in H.
Qed.

Lemma identity_eqb_uuid i j : identity_eqb i j = true → id_uuid i = id_uuid j.
Proof. unfold identity_eqb. rewrite !andb_true_iff. intros H. decompose [and] H. by apply String.eqb_eq. Qed.

(** What an edited list of identities is: the same UUIDs, apart from the ones
    that [keep] drops, each with the entry that [edit] makes of it. *)
Record edited_set (keep : Identity → Prop) (edit : Identity → Identity) (before after : list Identity) : Prop := {
  es_kept i : i ∈ before → keep i → ∃ j, j ∈ after ∧ identity_eqb j (edit i) = true;
  es_new j : j ∈ after → ∃ i, i ∈ before ∧ keep i ∧ identity_eqb j (edit i) = true;
}.

Lemma uuid_unique (l : list Identity) i j : NoDup (id_uuid <$> l) → i ∈ l → j ∈ l → id_uuid i = id_uuid j → i = j.
Proof.
  intros Hn [a Ha]%list_elem_of_lookup [b Hb]%list_elem_of_lookup He.
  assert (a = b) as <-; [|by simplify_eq].
  eapply (NoDup_lookup _ a b _ Hn); rewrite list_lookup_fmap; [by rewrite Ha|by rewrite Hb, He].
Qed.

(** The entry [set_name] leaves for an identity when [target] is renamed. *)
Definition relabel (target name : string) (i : Identity) : Identity :=
  if String.eqb (id_uuid i) target then set_name name i else i.

Lemma relabel_uuid target name i : id_uuid (relabel target name i) = id_uuid i.
Proof. unfold relabel. by destruct (String.eqb _ _). Qed.

Lemma alter_relabel (l : list Identity) k i name : NoDup (id_uuid <$> l) → l !! k = Some i →
  alter (set_name name) k l = relabel (id_uuid i) name <$> l.
Proof.
  intros Hn Hi. apply list_eq. intros n. rewrite list_lookup_fmap. destruct (decide (n = k)) as [->|Hne].
  - rewrite list_lookup_alter_eq, Hi. simpl. unfold relabel. by rewrite String.eqb_refl.
  - rewrite list_lookup_alter_ne by done. destruct (l !! n) as [j|] eqn:Hj; [|done]. simpl. unfold relabel.
    destruct (String.eqb_spec (id_uuid j) (id_uuid i)) as [He|]; [|done]. exfalso. apply Hne.
    eapply (NoDup_lookup _ n k _ Hn); rewrite list_lookup_fmap; [by rewrite Hj|by rewrite Hi, He].
Qed.

Lemma delete_as_filter (l : list Identity) k i : NoDup (id_uuid <$> l) → l !! k = Some i →
  base.delete k l = filter (λ j, id_uuid j ≠ id_uuid i) l.
Proof.
  revert k. induction l as [|x l IH]; intros k Hn Hi; [done|]. rewrite fmap_cons in Hn. apply NoDup_cons in Hn as [Hx Hn].
  destruct k as [|k]; simpl in Hi.
  - injection Hi as ->. rewrite filter_cons_False by tauto. change (base.delete 0%nat (i :: l)) with l. symmetry.
    clear IH Hn. induction l as [|y l IH]; [done|]. rewrite fmap_cons in Hx. apply not_elem_of_cons in Hx as [Hy Hx].
    rewrite filter_cons_True by done. f_equal. by apply IH.
  - change (base.delete (S k) (x :: l)) with (x :: base.delete k l). rewrite filter_cons_True.
    + f_equal. by apply IH.
    + intros He. apply Hx. rewrite He. apply list_elem_of_fmap_2. by eapply list_elem_of_lookup_2.
Qed.

Lemma filter_uuid (l : list Identity) i : NoDup (id_uuid <$> l) → i ∈ l → filter (λ j, id_uuid j = id_uuid i) l = [i].
Proof.
  intros Hn Hi. apply list_elem_of_lookup in Hi as [k Hk]. revert k Hk. induction l as [|x l IH]; intros k Hk; [done|].
  rewrite fmap_cons in Hn. apply NoDup_cons in Hn as [Hx Hn]. destruct k as [|k]; simpl in Hk.
  - injection Hk as ->. rewrite filter_cons_True by done. f_equal. clear IH Hn.
    induction l as [|y l IH]; [done|]. rewrite fmap_cons in Hx. apply not_elem_of_cons in Hx as [Hy Hx].
    rewrite filter_cons_False by congruence. by apply IH.
  - rewrite filter_cons_False; [by eapply IH|]. intros He. apply Hx. rewrite He. apply list_elem_of_fmap_2.
    by eapply list_elem_of_lookup_2.
Qed.

(** The archive an accepted table describes. *)
Lemma decoded_ok plist_loads data user c : decode_user_catacomb plist_loads data user = Ok c →
  archive_ok c ∧ uc_expected_user_id c = user.
Proof. unfold decode_user_catacomb. intros ([top objects] & _ & H)%bind_Ok. exact (read_table_ok _ _ _ _ H). Qed.

(** ** The rename plan *)
Section rename_proofs.
Context (plist_dumps : plist → result bytes) (plist_loads : bytes → result plist).
#[local] Abbreviation decode := (decode_user_catacomb plist_loads).

Lemma valid_label_name name : valid_label name = true → valid_name name = true.
Proof.
  unfold valid_label, valid_name. intros [[Hn _]%orb_false_iff Hl]%negb_true_iff%orb_false_iff. rewrite Hn. simpl. lia.
Qed.

Lemma set_name_same i : set_name (id_name i) i = i.
Proof. by destruct i. Qed.

Lemma renamed_only_eq after target name i j : after !! id_uuid i = Some j →
  renamed_only after target name (id_uuid i, i) = identity_eqb j (relabel target name i).
Proof.
  intros Hj. unfold renamed_only, relabel. cbn [fst snd]. rewrite Hj.
  destruct (String.eqb (id_uuid i) target); [done|]. by rewrite set_name_same.
Qed.

(** What the checks of the plan establish. *)
Lemma rename_checked (before after : list Identity) target name : NoDup (id_uuid <$> before) → NoDup (id_uuid <$> after) →
  dom (by_uuid before) = dom (by_uuid after) →
  forallb (renamed_only (by_uuid after) target name) (map_to_list (by_uuid before)) = true →
  edited_set (λ _, True) (relabel target name) before after.
Proof.
  intros Hb Ha Hd Hf. rewrite forallb_forall in Hf.
  assert (Hall : ∀ i, i ∈ before → ∃ j, by_uuid after !! id_uuid i = Some j ∧ identity_eqb j (relabel target name i) = true).
  { intros i Hi. assert (Hin : id_uuid i ∈ dom (by_uuid after)).
    { rewrite <-Hd, by_uuid_dom, elem_of_list_to_set. by apply list_elem_of_fmap_2. }
    apply elem_of_dom in Hin as [j Hj]. exists j. split; [done|]. rewrite <-(renamed_only_eq _ _ _ _ _ Hj).
    apply Hf, list_elem_of_In, elem_of_map_to_list. by apply by_uuid_lookup. }
  split.
  - intros i Hi _. destruct (Hall i Hi) as (j & Hj & He). apply by_uuid_lookup in Hj as [Hj _]; [|done]. by exists j.
  - intros j Hj. assert (Hin : id_uuid j ∈ dom (by_uuid before)).
    { rewrite Hd, by_uuid_dom, elem_of_list_to_set. by apply list_elem_of_fmap_2. }
    apply elem_of_dom in Hin as [i Hi]. apply by_uuid_lookup in Hi as [Hi Hu]; [|done].
    destruct (Hall i Hi) as (j' & Hj' & He). rewrite Hu in Hj'. apply by_uuid_lookup in Hj' as [Hj1 Hj2]; [|done].
    assert (j' = j) as -> by by apply (uuid_unique after). by exists i.
Qed.

Definition rename_allowed (local : UserCatacomb) (name : string) : Prop :=
  valid_label name = true ∧ name ∉ id_name <$> uc_identities local.

Definition renamed_as (local : UserCatacomb) (i : Identity) (name : string) (archive : bytes) : IdentityRenamePlan :=
  RenamePlan (uc_expected_user_id local) (id_uuid i) (id_entity i) (id_name i) name archive.

Lemma in_use_false local i name : archive_ok local → i ∈ uc_identities local →
  (String.eqb name (id_name i) = false
   ∧ existsb (λ j, negb (String.eqb (id_uuid j) (id_uuid i)) && String.eqb (id_name j) name) (uc_identities local) = false)
  ↔ name ∉ id_name <$> uc_identities local.
Proof.
  intros Hok Hi. destruct (aok_identities _ Hok) as (_ & Hn & _). split.
  - intros [Hne Hex] (j & -> & Hj)%list_elem_of_fmap. apply String.eqb_neq in Hne.
    assert (existsb (λ k, negb (String.eqb (id_uuid k) (id_uuid i)) && String.eqb (id_name k) (id_name j)) (uc_identities local) = true);
      [|congruence].
    apply existsb_exists. exists j. split; [by apply list_elem_of_In|]. rewrite String.eqb_refl, andb_true_r.
    apply negb_true_iff, String.eqb_neq. intros He. apply Hne. by rewrite (uuid_unique (uc_identities local) j i Hn Hj Hi He).
  - intros Hn'. split.
    + apply String.eqb_neq. intros ->. apply Hn'. by apply list_elem_of_fmap_2.
    + destruct (existsb _ _) eqn:He; [|done]. exfalso. apply existsb_exists in He as (j & Hj & [_ <-%String.eqb_eq]%andb_true_iff).
      apply Hn', list_elem_of_fmap_2. by apply list_elem_of_In.
Qed.

Lemma rename_plan_sound local live slot name p : archive_ok local →
  rename_plan plist_dumps plist_loads local live slot name = Ok p →
  ∃ i, resolves local live slot (resolved_as i) ∧ i ∈ uc_identities local ∧ rename_allowed local name
    ∧ p = renamed_as local i name (rp_archive p)
    ∧ ∃ c, decode (rp_archive p) (uc_expected_user_id local) = Ok c
        ∧ edited_set (λ _, True) (relabel (id_uuid i) name) (uc_identities local) (uc_identities c).
Proof.
  intros Hok. destruct (aok_identities _ Hok) as (Hf & Hn & _). rewrite Forall_forall in Hf. unfold rename_plan.
  intros (? & Hv%fail_if_Ok%negb_false_iff & (r & Hr%except_Ok & (? & Hne%fail_if_Ok & (? & Hex%fail_if_Ok & H)%bind_Ok)%bind_Ok)%bind_Ok)%bind_Ok.
  apply resolve_slot_sound in Hr as Hres; [|done]. destruct Hres as (_ & i & Hi & _ & ->).
  apply bind_Ok in H as ([archive c] & (a & Ha & (c' & Hc & [= -> ->])%bind_Ok)%except_Ok%bind_Ok & H).
  apply bind_Ok in H as (? & Hd%fail_if_Ok%negb_false_iff%bool_decide_eq_true & (? & Hall%fail_if_Ok%negb_false_iff & <-%Ok_inj)%bind_Ok).
  cbn [resolved_as ri_apple_user_id ri_identity_uuid ri_entity ri_name] in *.
  rewrite (iok_user _ _ (Hf i Hi)) in *. exists i. split; [by apply resolve_slot_sound|split; [done|]]. split; [split; [done|]|].
  { by apply (in_use_false local i). }
  split; [done|]. exists c. split; [done|]. destruct (decoded_ok _ _ _ _ Hc) as [Hc' _].
  apply rename_checked; [done|by destruct (aok_identities _ Hc') as (_ & ? & _)|done|done].
Qed.

(** C36: A rename plan is made only for a slot of a reconciled inventory and a
    label that is valid and not in use, and its archive decodes to the same
    identities with nothing but the label of that one changed.  Such a plan is
    made whenever [plistlib] writes and reads back the edited archive. *)
Theorem rename_plan_exact local live slot name : archive_ok local →
  (∀ p, rename_plan plist_dumps plist_loads local live slot name = Ok p →
     ∃ i, resolves local live slot (resolved_as i) ∧ i ∈ uc_identities local ∧ rename_allowed local name
       ∧ p = renamed_as local i name (rp_archive p)
       ∧ ∃ c, decode (rp_archive p) (uc_expected_user_id local) = Ok c
           ∧ edited_set (λ _, True) (relabel (id_uuid i) name) (uc_identities local) (uc_identities c))
  ∧ (∀ i k, resolves local live slot (resolved_as i) → uc_identities local !! k = Some i → rename_allowed local name →
     ∃ root, build_root local (alter (set_name name) k (uc_identities local)) None = Ok root ∧
       ∀ data, plist_encoding plist_dumps plist_loads root data →
         rename_plan plist_dumps plist_loads local live slot name = Ok (renamed_as local i name data)
         ∧ decode data (uc_expected_user_id local)
           = Ok (rewritten local (alter (set_name name) k (uc_identities local)) None)).
Proof.
  intros Hok. destruct (aok_identities _ Hok) as (Hf & Hn & _). rewrite Forall_forall in Hf. split.
  - intros p. by apply rename_plan_sound.
  - intros i k Hres Hi [Hv Hfree]. pose proof (valid_label_name _ Hv) as Hvn.
    assert (Hin : i ∈ uc_identities local) by by eapply list_elem_of_lookup_2.
    set (ids := alter (set_name name) k (uc_identities local)).
    assert (Hids : identities_ok (uc_expected_user_id local) ids) by (apply renamed_ok; [apply Hok|done]).
    assert (Hne : ids ≠ []).
    { intros He%(f_equal length). unfold ids in He. rewrite length_alter in He. apply lookup_lt_Some in Hi. simpl in He. lia. }
    destruct (build_root_Ok local ids None Hok (proj1 Hids)) as (account & keybag & _ & _ & _ & _ & Hb).
    eexists. split; [exact Hb|]. intros data Henc.
    destruct (write_user_Ok _ _ local ids None _ data Hok Hids Hne (aok_secure _ Hok) Hb Henc) as [Hw Hdec].
    split; [|exact Hdec]. unfold rename_plan. rewrite Hv. cbn [negb fail_if mbind result_bind].
    rewrite (resolve_slot_complete _ _ _ _ Hok Hres). cbn [except mbind result_bind resolved_as ri_apple_user_id ri_identity_uuid ri_entity ri_name].
    destruct (proj2 (in_use_false local i name Hok Hin) Hfree) as [-> ->]. cbn [fail_if mbind result_bind].
    rewrite (rename_writes _ _ _ k i) by done. fold ids. rewrite Hw. cbn [mbind result_bind].
    rewrite (iok_user _ _ (Hf i Hin)), Hdec. cbn [except mbind result_bind rewritten uc_identities].
    assert (Hrel : ids = relabel (id_uuid i) name <$> uc_identities local) by by apply alter_relabel.
    rewrite !by_uuid_dom. rewrite bool_decide_eq_true_2.
    2: { rewrite Hrel, <-list_fmap_compose. f_equal. apply list_fmap_ext. intros m j _. simpl. by rewrite relabel_uuid. }
    cbn [negb fail_if mbind result_bind].
    assert (Hall : forallb (renamed_only (by_uuid ids) (id_uuid i) name) (map_to_list (by_uuid (uc_identities local))) = true).
    { apply forallb_forall. intros [u j] Hj%list_elem_of_In%elem_of_map_to_list. apply by_uuid_lookup in Hj as [Hj <-]; [|done].
      rewrite (renamed_only_eq _ _ _ _ (relabel (id_uuid i) name j)).
      - apply (identity_eqb_refl (uc_expected_user_id local)). destruct Hids as [Hfi _]. rewrite Forall_forall in Hfi.
        apply Hfi. rewrite Hrel. by apply list_elem_of_fmap_2.
      - apply by_uuid_lookup; [apply Hids|]. split; [|apply relabel_uuid]. rewrite Hrel. by apply list_elem_of_fmap_2. }
    by rewrite Hall.
Qed.
End rename_proofs.

(** ** The delete plan *)
Section delete_proofs.
Context (plist_dumps : plist → result bytes) (plist_loads : bytes → result plist).
#[local] Abbreviation decode := (decode_user_catacomb plist_loads).

Lemma survivor_snapshot_total l : ∃ s, survivor_snapshot_sha256 l = Ok s.
Proof.
  unfold survivor_snapshot_sha256, canonical.
  destruct (dumps_list_some (survivor_record <$> by_entity l)) as [t ->]; [|by eexists].
  apply Forall_fmap, Forall_true. intros i. apply dumps_dict_list. repeat constructor; by eexists.
Qed.

Lemma pack_user user : uint32 user → pack [I_] (user, tt) = Ok (le_pack 4 user).
Proof.
  intros [H1 H2]. cbn [pack I_ fst snd]. change (width 4) with 4294967296.
  rewrite (proj2 (Z.leb_le _ _)), (proj2 (Z.ltb_lt _ _)) by lia. cbn [andb negb fail_if mbind result_bind fmap result_fmap].
  by rewrite app_nil_r.
Qed.

(** The request of the coprocessor's delete command. *)
Definition delete_wire (user : Z) (i : Identity) : bytes := raw_of i ++ le_pack 4 user.

Lemma delete_request_Ok user i : identity_ok user i → uint32 user →
  delete_request (id_uuid i) user = Ok (delete_wire user i) ∧ length (delete_wire user i) = 20%nat.
Proof.
  intros Hi Hu. unfold delete_request, delete_wire. rewrite (uuid_bytes_raw _ (iok_uuid _ _ Hi)). cbn [mbind result_bind].
  rewrite (pack_user _ Hu). split; [done|]. rewrite length_app, length_le_pack.
  by rewrite (proj1 (raw_of_text _ (iok_uuid _ _ Hi))).
Qed.

Definition deletes (local : UserCatacomb) (i : Identity) (survivors : string) (archive : bytes) : IdentityDeletePlan :=
  DeletePlan (uc_expected_user_id local) (id_uuid i) (id_entity i) (id_name i)
    (delete_wire (uc_expected_user_id local) i) survivors archive.

(** What the checks of the plan establish. *)
Lemma delete_checked (before after : list Identity) target : NoDup (id_uuid <$> before) → NoDup (id_uuid <$> after) →
  dom (by_uuid after) = dom (by_uuid before) ∖ {[target]} →
  existsb (λ p, match by_uuid before !! p.1 with Some old => negb (identity_eqb p.2 old) | None => true end)
    (map_to_list (by_uuid after)) = false →
  edited_set (λ i, id_uuid i ≠ target) id before after.
Proof.
  intros Hb Ha Hd He.
  assert (Hall : ∀ j, j ∈ after → ∃ i, i ∈ before ∧ id_uuid i = id_uuid j ∧ identity_eqb j i = true).
  { intros j Hj. destruct (by_uuid before !! id_uuid j) as [i|] eqn:Hi.
    - exists i. apply by_uuid_lookup in Hi as Hi'; [|done]. destruct Hi' as [Hib Hu]. split; [done|split; [done|]].
      destruct (identity_eqb j i) eqn:Hji; [done|]. exfalso. apply not_true_iff_false in He. apply He.
      apply existsb_exists. exists (id_uuid j, j). split; [|cbn [fst snd]; by rewrite Hi, Hji].
      apply list_elem_of_In, elem_of_map_to_list. by apply by_uuid_lookup.
    - exfalso. apply not_true_iff_false in He. apply He. apply existsb_exists. exists (id_uuid j, j).
      split; [|cbn [fst snd]; by rewrite Hi]. apply list_elem_of_In, elem_of_map_to_list. by apply by_uuid_lookup. }
  split.
  - intros i Hi Hne. assert (Hin : id_uuid i ∈ dom (by_uuid after)).
    { rewrite Hd, elem_of_difference, elem_of_singleton, by_uuid_dom, elem_of_list_to_set. split; [|done].
      by apply list_elem_of_fmap_2. }
    apply elem_of_dom in Hin as [j Hj]. apply by_uuid_lookup in Hj as [Hj Hu]; [|done].
    destruct (Hall j Hj) as (i' & Hi' & Hu' & Heq). assert (i' = i) as -> by (apply (uuid_unique before); congruence).
    by exists j.
  - intros j Hj. destruct (Hall j Hj) as (i & Hi & Hu & Heq). exists i. split; [done|split; [|done]].
    assert (Hin : id_uuid j ∈ dom (by_uuid after)) by (rewrite by_uuid_dom, elem_of_list_to_set; by apply list_elem_of_fmap_2).
    rewrite Hd, elem_of_difference, elem_of_singleton in Hin. rewrite Hu. by destruct Hin.
Qed.

(** A plan for a target that is one of several identities. *)
Definition deletion_planned (local : UserCatacomb) (i : Identity) (p : IdentityDeletePlan) : Prop :=
  (1 < length (uc_identities local))%nat
  ∧ p = deletes local i (dp_survivor_snapshot_sha256 p) (dp_archive p) ∧ length (dp_request p) = 20%nat
  ∧ ∃ c, decode (dp_archive p) (uc_expected_user_id local) = Ok c
      ∧ edited_set (λ j, id_uuid j ≠ id_uuid i) id (uc_identities local) (uc_identities c)
      ∧ survivor_snapshot_sha256 (uc_identities c) = Ok (dp_survivor_snapshot_sha256 p).

Lemma plan_target_sound local i p : archive_ok local → i ∈ uc_identities local →
  plan_target plist_dumps plist_loads local (id_uuid i) = Ok p → deletion_planned local i p.
Proof.
  intros Hok Hi. destruct (aok_identities _ Hok) as (Hf & Hn & _). rewrite Forall_forall in Hf.
  pose proof (Hf i Hi) as Hiok. unfold plan_target, deletion_planned. rewrite filter_uuid by done.
  intros (? & Hl%fail_if_Ok%Nat.leb_gt & H)%bind_Ok. split; [done|]. rewrite (iok_user _ _ Hiok) in *.
  apply bind_Ok in H as ([archive c] & (a & Ha & (c' & Hc & [= -> ->])%bind_Ok)%except_Ok%bind_Ok & H).
  apply bind_Ok in H as (? & [_ Hd]%fail_if_Ok%orb_false_iff & (? & He%fail_if_Ok & H)%bind_Ok).
  apply negb_false_iff, bool_decide_eq_true in Hd.
  destruct (delete_request_Ok _ _ Hiok (aok_user _ Hok)) as [Hreq Hlen]. rewrite Hreq in H. cbn [mbind result_bind] in H.
  rewrite Hlen in H. cbn [Nat.eqb negb fail_if mbind result_bind] in H.
  apply bind_Ok in H as (s & Hs & <-%Ok_inj). cbn [dp_survivor_snapshot_sha256 dp_archive dp_request].
  split; [done|split; [done|]]. exists c. split; [done|]. destruct (decoded_ok _ _ _ _ Hc) as [Hc' _].
  split; [|done]. apply delete_checked; [done|by destruct (aok_identities _ Hc') as (_ & ? & _)|done|done].
Qed.

Lemma plan_target_complete local i k : archive_ok local → uc_identities local !! k = Some i →
  (1 < length (uc_identities local))%nat →
  ∃ root survivors, build_root local (base.delete k (uc_identities local)) None = Ok root
    ∧ survivor_snapshot_sha256 (base.delete k (uc_identities local)) = Ok survivors
    ∧ ∀ data, plist_encoding plist_dumps plist_loads root data →
        plan_target plist_dumps plist_loads local (id_uuid i) = Ok (deletes local i survivors data)
        ∧ decode data (uc_expected_user_id local) = Ok (rewritten local (base.delete k (uc_identities local)) None).
Proof.
  intros Hok Hk Hl. destruct (aok_identities _ Hok) as (Hf & Hn & _). rewrite Forall_forall in Hf.
  assert (Hi : i ∈ uc_identities local) by by eapply list_elem_of_lookup_2.
  pose proof (Hf i Hi) as Hiok. set (ids := base.delete k (uc_identities local)).
  assert (Hids : identities_ok (uc_expected_user_id local) ids) by apply deleted_ok, Hok.
  assert (Hne : ids ≠ []).
  { intros He%(f_equal length). unfold ids in He. rewrite length_delete in He by eauto. simpl in He. lia. }
  destruct (build_root_Ok local ids None Hok (proj1 Hids)) as (account & keybag & _ & _ & _ & _ & Hb).
  destruct (survivor_snapshot_total ids) as [s Hs]. eexists _, s. split; [exact Hb|split; [exact Hs|]]. intros data Henc.
  destruct (write_user_Ok _ _ local ids None _ data Hok Hids Hne (aok_secure _ Hok) Hb Henc) as [Hw Hdec].
  split; [|exact Hdec]. unfold plan_target. rewrite (proj2 (Nat.leb_gt _ _) Hl). cbn [fail_if mbind result_bind].
  rewrite filter_uuid by done. rewrite (delete_writes _ _ _ k i) by done. fold ids. rewrite Hw. cbn [mbind result_bind].
  rewrite (iok_user _ _ Hiok), Hdec. cbn [except mbind result_bind rewritten uc_identities].
  assert (Hfil : ids = filter (λ j, id_uuid j ≠ id_uuid i) (uc_identities local)) by by apply delete_as_filter.
  assert (Hdom : dom (by_uuid ids) = dom (by_uuid (uc_identities local)) ∖ {[id_uuid i]}).
  { rewrite !by_uuid_dom. apply set_eq. intros u. rewrite elem_of_difference, elem_of_singleton, !elem_of_list_to_set, Hfil.
    rewrite !list_elem_of_fmap. setoid_rewrite list_elem_of_filter. naive_solver. }
  rewrite Hdom. rewrite (bool_decide_eq_true_2 (id_uuid i ∈ dom (by_uuid (uc_identities local)))).
  2: { rewrite by_uuid_dom, elem_of_list_to_set. by apply list_elem_of_fmap_2. }
  rewrite bool_decide_eq_false_2 by set_solver. rewrite bool_decide_eq_true_2 by done. cbn [negb orb fail_if mbind result_bind].
  assert (Hex : existsb (λ p, match by_uuid (uc_identities local) !! p.1 with
                              | Some old => negb (identity_eqb p.2 old) | None => true end)
                  (map_to_list (by_uuid ids)) = false).
  { apply not_true_iff_false. intros ([u j] & Hj%list_elem_of_In%elem_of_map_to_list & H)%existsb_exists. cbn [fst snd] in H.
    apply by_uuid_lookup in Hj as [Hj <-]; [|apply Hids].
    assert (Hjl : j ∈ uc_identities local) by (rewrite Hfil in Hj; by apply list_elem_of_filter in Hj as [_ ?]).
    rewrite (proj2 (by_uuid_lookup _ (id_uuid j) j Hn)) in H by done.
    by rewrite (identity_eqb_refl _ _ (Hf j Hjl)) in H. }
  rewrite Hex. cbn [fail_if mbind result_bind].
  destruct (delete_request_Ok _ _ Hiok (aok_user _ Hok)) as [-> Hlen]. cbn [mbind result_bind]. rewrite Hlen.
  cbn [Nat.eqb negb fail_if mbind result_bind]. rewrite Hs. reflexivity.
Qed.

(** C37: A delete plan is made only for a slot of a reconciled inventory with
    several identities; its request is the target's UUID and the user ID, and
    its archive decodes to all the other identities, unchanged, whose digest
    the plan carries.  Such a plan is made whenever [plistlib] writes and reads
    back the edited archive. *)
Theorem delete_plan_exact local live slot : archive_ok local →
  (∀ p, delete_plan plist_dumps plist_loads local live slot = Ok p →
     ∃ i, i ∈ uc_identities local ∧ resolves local live slot (resolved_as i) ∧ deletion_planned local i p)
  ∧ (∀ i k, resolves local live slot (resolved_as i) → uc_identities local !! k = Some i →
     (1 < length (uc_identities local))%nat →
     ∃ root survivors, build_root local (base.delete k (uc_identities local)) None = Ok root
       ∧ survivor_snapshot_sha256 (base.delete k (uc_identities local)) = Ok survivors
       ∧ ∀ data, plist_encoding plist_dumps plist_loads root data →
           delete_plan plist_dumps plist_loads local live slot = Ok (deletes local i survivors data)
           ∧ decode data (uc_expected_user_id local)
             = Ok (rewritten local (base.delete k (uc_identities local)) None)).
Proof.
  intros Hok. split.
  - intros p (r & Hr%except_Ok & Hp)%bind_Ok. apply resolve_slot_sound in Hr as Hres; [|done].
    destruct Hres as (Hrec & i & Hi & Hs & ->). exists i. split; [done|]. split; [split; [done|by exists i]|].
    by apply plan_target_sound.
  - intros i k Hres Hk Hl. destruct (plan_target_complete local i k Hok Hk Hl) as (root & s & Hb & Hs & H).
    exists root, s. split; [done|split; [done|]]. intros data Henc. unfold delete_plan.
    rewrite (resolve_slot_complete _ _ _ _ Hok Hres). cbn [except mbind result_bind resolved_as ri_identity_uuid].
    by apply H.
Qed.
End delete_proofs.

(** ** Binding fresh secure data *)
Section binding.
Context (plist_dumps : plist → result bytes) (plist_loads : bytes → result plist).
#[local] Abbreviation decode := (decode_user_catacomb plist_loads).

(** [output] is the archive [c] with the secure data [secure]. *)
Definition rebound (output : result bytes) (c : UserCatacomb) (secure : bytes) : Prop :=
  ∃ root, build_root c (uc_identities c) (Some secure) = Ok root ∧
    ∀ data, plist_encoding plist_dumps plist_loads root data →
      output = Ok data ∧ decode data (uc_expected_user_id c) = Ok (rewritten c (uc_identities c) (Some secure)).

Lemma envelope_checked secure field : envelope_ok secure → secure_envelope (PBytes secure) (text "LTFC") field = Ok secure.
Proof. apply (envelope_reads "LTFC"). Qed.

Lemma envelope_refused secure field : ¬ envelope_ok secure →
  secure_envelope (PBytes secure) (text "LTFC") field = raise CatacombCodecError (field +:+ " has an invalid secure envelope").
Proof.
  intros Hn. unfold secure_envelope. destruct (fail_if _ _ _) as [u|e] eqn:He.
  - exfalso. apply Hn. apply fail_if_Ok, orb_false_iff in He as [Hl Hm]. apply negb_false_iff in Hl, Hm.
    apply bool_decide_eq_true in Hm. split; [lia|done].
  - apply fail_if_Raise in He as [_ ->]. reflexivity.
Qed.

Lemma identity_eqb_name i j : identity_eqb i j = true → id_name i = id_name j.
Proof. unfold identity_eqb. rewrite !andb_true_iff. intros H. decompose [and] H. by apply String.eqb_eq. Qed.

Lemma another_identity (l : list Identity) i : NoDup (id_uuid <$> l) → i ∈ l → (1 < length l)%nat →
  ∃ j, j ∈ l ∧ id_uuid j ≠ id_uuid i.
Proof.
  intros Hn Hi Hl. destruct l as [|x [|y l]]; simpl in Hl; [lia|lia|].
  destruct (decide (id_uuid x = id_uuid i)) as [He|]; [|exists x; split; [apply list_elem_of_here|done]].
  exists y. split; [apply list_elem_of_further, list_elem_of_here|]. intros He'. rewrite !fmap_cons in Hn.
  apply NoDup_cons in Hn as [Hx _]. apply Hx. rewrite He, <-He'. apply list_elem_of_here.
Qed.

(** A digest of survivors passes the journal's check. *)
Lemma survivor_digest l s : survivor_snapshot_sha256 l = Ok s → require_sha256 (VStr s) "survivor snapshot" = Ok tt.
Proof.
  unfold survivor_snapshot_sha256. intros (t & _ & <-%Ok_inj)%bind_Ok. apply sha256_digest_accepted.
Qed.

Lemma replace_writes c secure : archive_ok c → uc_identities c ≠ [] → envelope_ok secure →
  ∃ root, build_root c (uc_identities c) (Some secure) = Ok root ∧
    ∀ data, plist_encoding plist_dumps plist_loads root data →
      replace_secure_data plist_dumps plist_loads c secure = Ok data
      ∧ decode data (uc_expected_user_id c) = Ok (rewritten c (uc_identities c) (Some secure)).
Proof.
  intros Hc Hne Hs. destruct (build_root_Ok c (uc_identities c) (Some secure) Hc) as (account & keybag & _ & _ & _ & _ & Hb);
    [apply (aok_identities _ Hc)|]. eexists. split; [exact Hb|]. intros data Henc. rewrite replace_secure_writes by done.
  apply (write_user_Ok _ _ c _ (Some secure) _ _ Hc (aok_identities _ Hc) Hne Hs Hb Henc).
Qed.

Lemma bind_renamed_rebound p c secure j : decode (rp_archive p) (rp_apple_user_id p) = Ok c → envelope_ok secure →
  j ∈ uc_identities c → id_uuid j = rp_identity_uuid p → id_name j = rp_new_name p →
  rebound (bind_renamed plist_dumps plist_loads p secure) c secure.
Proof.
  intros Hdec Hs Hj Hu Hname. destruct (decoded_ok _ _ _ _ Hdec) as [Hc Huser].
  assert (Hne : uc_identities c ≠ []) by (intros He; rewrite He in Hj; by apply not_elem_of_nil in Hj).
  destruct (replace_writes c secure Hc Hne Hs) as (root & Hb & H). exists root. split; [done|]. intros data Henc.
  destruct (H data Henc) as [Hr Hd]. split; [|done]. unfold bind_renamed. rewrite Hdec. cbn [mbind result_bind].
  rewrite Hr. cbn [mbind result_bind]. rewrite <-Huser, Hd. cbn [except mbind result_bind rewritten uc_identities].
  destruct (aok_identities _ Hc) as (_ & Hn & _). rewrite <-Hu, filter_uuid by done. by rewrite Hname, String.eqb_refl.
Qed.

Lemma bind_survivors_rebound p c secure : decode (dp_archive p) (dp_apple_user_id p) = Ok c → envelope_ok secure →
  uc_identities c ≠ [] → dp_identity_uuid p ∉ id_uuid <$> uc_identities c →
  survivor_snapshot_sha256 (uc_identities c) = Ok (dp_survivor_snapshot_sha256 p) →
  rebound (bind_survivors plist_dumps plist_loads p secure) c secure.
Proof.
  intros Hdec Hs Hne Hu Hsnap. destruct (decoded_ok _ _ _ _ Hdec) as [Hc Huser].
  destruct (replace_writes c secure Hc Hne Hs) as (root & Hb & H). exists root. split; [done|]. intros data Henc.
  destruct (H data Henc) as [Hr Hd]. split; [|done]. unfold bind_survivors. rewrite Hdec. cbn [mbind result_bind].
  rewrite Hr. cbn [mbind result_bind]. rewrite <-Huser, Hd. cbn [except mbind result_bind rewritten uc_identities].
  rewrite bool_decide_eq_false_2 by done. rewrite Hsnap. cbn [or_else mbind result_bind]. by rewrite String.eqb_refl.
Qed.

(** C38: Binding replaces the secure data of a planned archive and nothing else.
    From a rename or a delete plan and a well-formed envelope the object table
    of the result can be built; whenever [plistlib] encodes it as a binary
    property list of at most 1 MiB and reads it back, binding returns those
    bytes, which decode to the planned identities of the same account with
    exactly that secure data.  Any other envelope is refused. *)
Theorem bound_edits_exact local live slot secure : archive_ok local →
  (∀ name p, rename_plan plist_dumps plist_loads local live slot name = Ok p →
     (envelope_ok secure → ∃ c, decode (rp_archive p) (uc_expected_user_id local) = Ok c
        ∧ rebound (bind_renamed plist_dumps plist_loads p secure) c secure)
     ∧ (¬ envelope_ok secure →
          bind_renamed plist_dumps plist_loads p secure = raise IdentityRenameError "fresh secure envelope is invalid"))
  ∧ (∀ p, delete_plan plist_dumps plist_loads local live slot = Ok p →
     (envelope_ok secure → ∃ c, decode (dp_archive p) (uc_expected_user_id local) = Ok c
        ∧ rebound (bind_survivors plist_dumps plist_loads p secure) c secure)
     ∧ (¬ envelope_ok secure →
          bind_survivors plist_dumps plist_loads p secure = raise IdentityDeleteError "fresh secure envelope is invalid")).
Proof.
  intros Hok. split.
  - intros name p Hp. destruct (rename_plan_sound _ _ _ _ _ _ _ Hok Hp) as (i & _ & Hi & _ & Heq & c & Hc & [Hkept _]).
    assert (Hdec : decode (rp_archive p) (rp_apple_user_id p) = Ok c) by by rewrite Heq. split.
    + intros Hs. exists c. split; [done|]. destruct (Hkept i Hi I) as (j & Hj & He).
      apply (bind_renamed_rebound p c secure j); [done|done|done| |].
      * rewrite Heq. apply identity_eqb_uuid in He. by rewrite He, relabel_uuid.
      * rewrite Heq. cbn [renamed_as rp_new_name]. unfold relabel in He. rewrite String.eqb_refl in He. by apply identity_eqb_name in He.
    + intros Hs. unfold bind_renamed. rewrite Hdec. cbn [mbind result_bind]. unfold replace_secure_data.
      rewrite (envelope_refused _ _ Hs). reflexivity.
  - intros p (r & Hr%except_Ok & Hp)%bind_Ok. apply resolve_slot_sound in Hr as (_ & i & Hi & _ & ->); [|done].
    cbn [resolved_as ri_identity_uuid] in Hp.
    destruct (plan_target_sound _ _ _ _ _ Hok Hi Hp) as (Hl & Heq & _ & c & Hc & [Hkept Hnew] & Hsnap).
    assert (Hdec : decode (dp_archive p) (dp_apple_user_id p) = Ok c) by by rewrite Heq. split.
    + intros Hs. exists c. split; [done|]. apply bind_survivors_rebound; [done|done| | |done].
      * destruct (aok_identities _ Hok) as (_ & Hn & _).
        destruct (another_identity _ i Hn Hi Hl) as (i' & Hi' & Hne). destruct (Hkept i' Hi' Hne) as (j & Hj & _).
        intros He. rewrite He in Hj. by apply not_elem_of_nil in Hj.
      * rewrite Heq. intros (j & Hj & Hin)%list_elem_of_fmap. destruct (Hnew j Hin) as (i' & _ & Hne & He).
        apply Hne. cbn [deletes dp_identity_uuid] in Hj. apply identity_eqb_uuid in He. by rewrite Hj, He.
    + intros Hs. unfold bind_survivors. rewrite Hdec. cbn [mbind result_bind]. unfold replace_secure_data.
      rewrite (envelope_refused _ _ Hs). reflexivity.
Qed.

(** ** Recovery *)

(** Forward confirmation rebuilds the plan from the journal alone: the archive
    holds exactly the survivors the journal recorded and not the target, and
    the plan carries the same request as the original. *)
Lemma recovery_plan_complete local i entity survivors : archive_ok local → uc_identities local ≠ [] →
  uuid_text (id_uuid i) → id_uuid i ∉ id_uuid <$> uc_identities local → uint32 entity →
  survivor_snapshot_sha256 (uc_identities local) = Ok survivors →
  ∃ root, build_root local (uc_identities local) (Some (uc_secure_data local)) = Ok root ∧
    ∀ data, plist_encoding plist_dumps plist_loads root data →
      recovery_plan plist_dumps plist_loads local (id_uuid i) entity survivors
        = Ok (DeletePlan (uc_expected_user_id local) (id_uuid i) entity "" (delete_wire (uc_expected_user_id local) i)
                survivors data).
Proof.
  intros Hok Hne (z & Hz & Hzb) Hu He Hs.
  destruct (replace_writes local _ Hok Hne (aok_secure _ Hok)) as (root & Hb & H). exists root. split; [done|].
  intros data Henc. destruct (H data Henc) as [Hr Hd]. unfold recovery_plan.
  assert (Hparse : uuid_UUID (id_uuid i) = Some z) by (rewrite Hz; by apply uuid_round_trip).
  rewrite Hparse, (survivor_digest _ _ Hs). cbn [except mbind result_bind]. rewrite <-Hz, String.eqb_refl.
  destruct He as [He1 He2]. rewrite !(proj2 (Z.leb_le _ _)) by done. rewrite !bool_decide_eq_false_2 by done.
  cbn [negb andb orb or_else mbind result_bind]. rewrite Hs. cbn [mbind result_bind]. rewrite String.eqb_refl.
  cbn [negb fail_if mbind result_bind]. rewrite (pack_user _ (aok_user _ Hok)). cbn [mbind result_bind]. rewrite Hr.
  cbn [mbind result_bind]. rewrite Hd. cbn [mbind result_bind rewritten uc_identities].
  rewrite (identities_eqb_refl _ _ (proj1 (aok_identities _ Hok))). cbn [negb fail_if mbind result_bind].
  unfold delete_wire, raw_of. by rewrite Hparse.
Qed.
End binding.
