(* ===== verification/DeleteOperation.v ===== *)
(** * The delete operation ([src/src/t2_identity_delete_operation.py])

    The dispatch of a planned deletion over the one-shot bridge and the
    read-back that decides what became of it.  The bridge and the collector of
    the inventory are an interface ([DeleteBridge]) over a state of their own. *)
From S2P Require Import Prelude PyValue Sha256 Json MutationJournal Evidence TypedJournal PersistenceJournal.
From S2P Require Import DeleteJournal Effect OperationWorld Bytes KeyedArchive CatacombOracle CatacombCodec.
From S2P Require Import IdentityInventory IdentityPlans SaveWorld BridgeLease.

#[local] Open Scope Z_scope.

Inductive delete_event := EvDelete (request : bytes) | EvInventory.

Class DeleteTransport (B : Type) := {
  dt_connection_generation : B → string;
  dt_delete : bytes → act B DeleteBridge.IdentityDeleteCommandResult;
  dt_collect_inventory : act B value;
}.

(** The journal, the calls made, each with the journal file as it was, and the
    bridge. *)
Record delete_world (B : Type) := DeleteWorld {
  dw_fs : fs;
  dw_accesses : nat;
  dw_trace : list (delete_event * fs);
  dw_bridge : B;
}.
Arguments DeleteWorld {B} _ _ _ _.
Arguments dw_fs {B} _.
Arguments dw_accesses {B} _.
Arguments dw_trace {B} _.
Arguments dw_bridge {B} _.
#[export] Instance delete_world_settable B : Settable (delete_world B) := λ w,
  DeleteWorld (dw_fs w) (dw_accesses w) (dw_trace w) (dw_bridge w).
#[export] Instance delete_world_journalled B : Journalled (delete_world B) := {
  journal_of := dw_fs;
  accesses_of := dw_accesses;
  with_journal s n w := w <| dw_fs := s |> <| dw_accesses := n |>;
}.
#[export] Instance delete_world_journalled_laws B : JournalledLaws (delete_world B).
Proof. by split. Qed.

Record IdentityDeleteOperationResult := DeleteResult { do_outcome : string; do_command_status : Z }.

Section operation.
Context {B : Type} `{DeleteTransport B} (plist_loads : bytes → result plist) (env : surroundings) (operation_id : string).
#[local] Abbreviation action := (act (delete_world B)).
#[local] Abbreviation append m ev := (append_call (H := IdentityDeleteHistory) env operation_id m ev : action IdentityDeleteHistory).

(** A call is recorded, with the journal file as it is, and answered. *)
Definition bridge_call {A} (e : delete_event) (m : act B A) : action A := λ w,
  let '(r, b) := m (dw_bridge w) in (r, w <| dw_trace := dw_trace w ++ [(e, dw_fs w)] |> <| dw_bridge := b |>).

(** [_freeze] *)
Definition freeze_delete {A} (generation : value) (stage reason : string) : action A :=
  _ ← catch any_class
        (_ ← append "DELETE_OUTCOME_UNKNOWN"
               (dict [("connection_generation", generation); ("stage", VStr stage); ("reason", VStr reason);
                      ("mutation_possible", VBool true)]);
         mret tt)
        (λ _, mret tt);
  throw IdentityDeleteOperationError ("identity deletion stopped at " +:+ stage +:+ "; reconciliation is required").

(** [try: summarize(...) except IdentityInventoryError: None] *)
Definition summary_of (local : UserCatacomb) (live : value) : result (option value) :=
  match summarize local live with
  | Ok s => Ok (Some s)
  | Raise e => if bool_decide (exn_cls e = IdentityInventoryError) then Ok None else Raise e
  end.

(** The read-back still shows the baseline. *)
Definition exact_no_change (baseline : value) (original_summary : option value) (live : value) : bool :=
  match original_summary with
  | Some s =>
      (s@["identity_count"] ==? VInt (Evidence.identity_count baseline))
      && is_dict (live@["catacomb"])
      && ((live@["catacomb"])@["uuid"] ==? (baseline@["sep_catacomb"])@["uuid"])
      && ((live@["catacomb"])@["hash"] ==? (baseline@["sep_catacomb"])@["hash"])
  | None => false
  end.

(** The checks of a plan against the durable intent. *)
Definition dispatchable (history : IdentityDeleteHistory) (plan : IdentityDeletePlan) (local : UserCatacomb) (bridge_generation : string)
    : bool :=
  negb ((dh_operation_id history !=? VStr operation_id)
        || negb (bool_decide (dh_phase history = D_INTENT))
        || (dh_target_identity_uuid history !=? VStr (dp_identity_uuid plan))
        || (dh_target_entity history !=? VInt (dp_entity plan))
        || (dh_request_sha256 history !=? VStr (secure_digest (dp_request plan)))
        || (dh_survivor_snapshot_sha256 history !=? VStr (dp_survivor_snapshot_sha256 plan))
        || ((dh_baseline history)@["apple_uid"] !=? VInt (dp_apple_user_id plan))
        || (VStr bridge_generation !=? (dh_baseline history)@["connection_generation"])
        || negb (uc_expected_user_id local =? dp_apple_user_id plan)).

(** What the read-back shows. *)
Definition decide_outcome (baseline : value) (plan : IdentityDeletePlan) (local : UserCatacomb) (status : Z) (live : value)
    : action IdentityDeleteOperationResult :=
  let generation := baseline@["connection_generation"] in
  planned_local ← pure (decode_user_catacomb plist_loads (dp_archive plan) (dp_apple_user_id plan));
  survivor_summary ← pure (summary_of planned_local live);
  match survivor_summary with
  | Some s =>
      _ ← append "DELETE_SEP_ABSENCE_OBSERVED"
            (dict [("connection_generation", generation); ("identity_uuid", VStr (dp_identity_uuid plan));
                   ("survivor_snapshot_sha256", VStr (dp_survivor_snapshot_sha256 plan));
                   ("survivor_count", s@["identity_count"]); ("stable_double_read", VBool true);
                   ("per_user_global_equal", VBool true); ("target_absent", VBool true)]);
      mret (DeleteResult "sep-deleted" status)
  | None =>
      original_summary ← pure (summary_of local live);
      if negb (status =? 0) && exact_no_change baseline original_summary live then
        _ ← append "DELETE_NOT_PERFORMED"
              (dict [("connection_generation", generation); ("identity_uuid", VStr (dp_identity_uuid plan));
                     ("command_failed", VBool true); ("target_present", VBool true);
                     ("baseline_identity_set_equal", VBool true); ("sep_catacomb_unchanged", VBool true);
                     ("stable_double_read", VBool true)]);
        mret (DeleteResult "not-deleted" status)
      else freeze_delete generation "readback" "readback-error"
  end.

Definition delete_run (plan : IdentityDeletePlan) (local : UserCatacomb) : action IdentityDeleteOperationResult :=
  history ← read_call env;
  w ← self;
  let baseline := dh_baseline history in
  let generation := baseline@["connection_generation"] in
  _ ← throw_if (negb (dispatchable history plan local (dt_connection_generation (dw_bridge w)))) IdentityDeleteOperationError
        "identity delete plan differs from durable intent";
  _ ← append "DELETE_DISPATCH_INTENT"
        (dict [("connection_generation", generation); ("identity_uuid", VStr (dp_identity_uuid plan));
               ("request_sha256", dh_request_sha256 history); ("command", VInt 0x0D); ("protocol_version", VInt 0)]);
  command ← catch any_class (bridge_call (EvDelete (dp_request plan)) (dt_delete (dp_request plan)))
              (λ _, freeze_delete generation "dispatch" "transport-error");
  _ ← append "DELETE_COMMAND_OBSERVED"
        (dict [("connection_generation", generation); ("identity_uuid", VStr (dp_identity_uuid plan));
               ("status", VInt (DeleteBridge.cr_status command)); ("output_length", VInt (DeleteBridge.cr_output_length command));
               ("service_event_count", VInt (DeleteBridge.cr_service_event_count command))]);
  live ← catch any_class (bridge_call EvInventory dt_collect_inventory) (λ _, freeze_delete generation "readback" "inventory-error");
  _ ← throw_if (negb (is_dict live)) AttributeError "get";
  if live@["connection_generation"] !=? generation then freeze_delete generation "readback" "inventory-error"
  else decide_outcome baseline plan local (DeleteBridge.cr_status command) live.
End operation.

(** ** The calls and the outcome *)

Section runs.
Context {B : Type} `{Hbridge : DeleteTransport B} (plist_loads : bytes → result plist) (env : surroundings) (lines : orderly env)
  (operation_id : string) (plan : IdentityDeletePlan) (local : UserCatacomb).
#[local] Abbreviation world := (delete_world B).
#[local] Abbreviation ends s h m ev := (ends_with (S := delete_loop) (H := IdentityDeleteHistory) (su_euid env) s h operation_id m ev).

(** When a call was made, the journal said so. *)
Definition delete_announced (e : delete_event * fs) : Prop := ∃ h m ev, ends e.2 h m ev
  ∧ match e.1 with
    | EvDelete request => m = "DELETE_DISPATCH_INTENT" ∧ ev@["request_sha256"] = VStr (secure_digest request)
        ∧ ev@["identity_uuid"] = VStr (dp_identity_uuid plan)
    | EvInventory => m = "DELETE_COMMAND_OBSERVED"
    end.
Definition delete_script : list delete_event := [EvDelete (dp_request plan); EvInventory].

Record deleting (sent : list delete_event) (w : world) : Prop := {
  dl_announced : Forall delete_announced (dw_trace w);
  dl_sent : map fst (dw_trace w) = sent;
}.
Definition stopped_deleting (w : world) : Prop := ∃ sent, sent `prefix_of` delete_script ∧ deleting sent w.

(** What the outcome rests on: the baseline of the journal, the inventory that
    was read and the record of the decision. *)
Definition decided (baseline live : value) (res : IdentityDeleteOperationResult) (w : world) : Prop :=
  ∃ h ev, (do_outcome res = "sep-deleted" ∧ ends (dw_fs w) h "DELETE_SEP_ABSENCE_OBSERVED" ev
      ∧ ev@["identity_uuid"] = VStr (dp_identity_uuid plan)
      ∧ ∃ planned s, decode_user_catacomb plist_loads (dp_archive plan) (dp_apple_user_id plan) = Ok planned
          ∧ summarize planned live = Ok s ∧ ev@["survivor_count"] = s@["identity_count"])
    ∨ (do_outcome res = "not-deleted" ∧ ends (dw_fs w) h "DELETE_NOT_PERFORMED" ev
      ∧ do_command_status res ≠ 0 ∧ (∃ planned e, decode_user_catacomb plist_loads (dp_archive plan) (dp_apple_user_id plan) = Ok planned
          ∧ summarize planned live = Raise e)
      ∧ ∃ s, summarize local live = Ok s ∧ exact_no_change baseline (Some s) live = true).

(** The two answers of a complete run, the second one collected from the bridge
    as the deletion left it. *)
Definition answered (bridge bridge' : B) (status : Z) (live : value) : Prop := ∃ command b,
  dt_delete (dp_request plan) bridge = (Ok command, b) ∧ DeleteBridge.cr_status command = status
  ∧ dt_collect_inventory b = (Ok live, bridge').

Lemma deleting_journal sent w s n : deleting sent w → deleting sent (with_journal s n w).
Proof. by intros [? ?]. Qed.

Lemma append_delete_wp sent m ev (w : world) : deleting sent w → whole (dw_fs w) →
  wp (append_call env operation_id m ev)
    (λ h w', deleting sent w' ∧ whole (dw_fs w') ∧ ends (dw_fs w') h m ev ∧ dw_bridge w' = dw_bridge w) (λ _ w', deleting sent w') w.
Proof.
  intros Hw Hl. eapply wp_weaken; [by apply append_call_wp| |]; cbv beta.
  - intros h w' (s & n & -> & Hs & He). split; [by apply deleting_journal|]. by split_and!.
  - intros e w' (s & n & ->). by apply deleting_journal.
Qed.

Lemma freeze_delete_wp {A} sent generation stage reason (Q : A → world → Prop) w : deleting sent w →
  wp (freeze_delete env operation_id generation stage reason) Q (λ _ w', deleting sent w') w.
Proof.
  intros Hw. unfold freeze_delete. apply wp_bind, wp_catch. cbn [any_class]. apply wp_bind. unfold wp at 1, append_call. cbv zeta.
  destruct (append_checked _ _ _ _ _ _ _ _) as [s [h|e]]; [apply wp_ret|]; apply wp_throw; by apply deleting_journal.
Qed.

Lemma freeze_stops {A} sent generation stage reason (Q : A → world → Prop) w : deleting sent w → sent `prefix_of` delete_script →
  wp (freeze_delete env operation_id generation stage reason) Q (λ _ w', stopped_deleting w') w.
Proof.
  intros Hw Hp. apply (wp_weaken _ Q _ _ _ _ (freeze_delete_wp sent generation stage reason Q w Hw)); [done|].
  intros e w' H'. by exists sent.
Qed.

Lemma bridge_call_wp {A} sent e (m : act B A) (Q : A → world → Prop) E w : deleting sent w → delete_announced (e, dw_fs w) →
  (∀ a w', deleting (sent ++ [e]) w' → dw_fs w' = dw_fs w → m (dw_bridge w) = (Ok a, dw_bridge w') → Q a w') → (∀ x w', deleting (sent ++ [e]) w' → E x w') →
  wp (bridge_call e m) Q E w.
Proof.
  intros [Ha Hs] He HQ HE. unfold wp, bridge_call. destruct (m (dw_bridge w)) as [[a|x] b]; [apply HQ; [|done|done]|apply HE];
    (split; cbn; [apply Forall_app; split; [exact Ha|by constructor]|by rewrite map_app, Hs]).
Qed.

Lemma summary_of_None l live : summary_of l live = Ok None → ∃ e, summarize l live = Raise e.
Proof. unfold summary_of. destruct (summarize l live) as [x|e]; [done|]. eauto. Qed.

Lemma summary_of_Ok l live r : summary_of l live = Ok r → ∀ s, r = Some s → summarize l live = Ok s.
Proof. unfold summary_of. destruct (summarize l live) as [x|e]; [intros [=<-]; naive_solver|]. by case_bool_decide; intros [=<-]. Qed.

Lemma decide_outcome_wp baseline status live w : deleting delete_script w → whole (dw_fs w) →
  wp (decide_outcome plist_loads env operation_id baseline plan local status live)
    (λ res w', deleting delete_script w' ∧ do_command_status res = status ∧ decided baseline live res w' ∧ dw_bridge w' = dw_bridge w) (λ _ w', stopped_deleting w') w.
Proof.
  intros Hw Hl. assert (∀ w', deleting delete_script w' → stopped_deleting w') as Hstop by (intros w' H'; by exists delete_script).
  unfold decide_outcome. apply wp_bind, wp_pure; [|intros _ _; by apply Hstop]. intros planned Hplanned.
  apply wp_bind, wp_pure; [|intros _ _; by apply Hstop]. intros [s|] Hs.
  - apply wp_bind. eapply wp_weaken; [by apply append_delete_wp| |intros ? w'; apply Hstop]. cbv beta.
    intros h w1 (H1 & _ & He & Hb). apply wp_ret. split; [exact H1|]. split; [done|]. split; [|exact Hb]. eexists h, _. left.
    split; [done|]. split; [exact He|]. split; [exact eq_refl|]. exists planned, s. split; [exact Hplanned|].
    split; [by apply (summary_of_Ok _ _ _ Hs)|exact eq_refl].
  - apply wp_bind, wp_pure; [|intros _ _; by apply Hstop]. intros original Ho. apply wp_if; intros Hc.
    + apply andb_prop in Hc as [Hst%negb_true_iff%Z.eqb_neq Hex]. apply wp_bind.
      eapply wp_weaken; [by apply append_delete_wp| |intros ? w'; apply Hstop]. cbv beta.
      intros h w1 (H1 & _ & He & Hb). apply wp_ret. split; [exact H1|]. split; [done|]. split; [|exact Hb]. eexists h, _. right.
      split; [done|]. split; [exact He|]. split; [exact Hst|]. destruct original as [s|]; [|discriminate].
      apply summary_of_None in Hs as [e Hs]. split; [by exists planned, e|]. exists s. split; [by apply (summary_of_Ok _ _ _ Ho)|exact Hex].
    + by apply (freeze_stops delete_script).
Qed.

(** What a complete run leaves. *)
Definition deleted_as_decided (w w' : world) (res : IdentityDeleteOperationResult) : Prop := ∃ h live,
  read_history (S := delete_loop) (su_euid env) (fs_entry (seen env w)) = Ok h
  ∧ dispatchable operation_id h plan local (dt_connection_generation (dw_bridge w)) = true
  ∧ answered (dw_bridge w) (dw_bridge w') (do_command_status res) live
  ∧ live@["connection_generation"] ==? (dh_baseline h)@["connection_generation"] = true
  ∧ decided (dh_baseline h) live res w'.

Lemma delete_run_wp (w : world) : dw_trace w = [] → whole (dw_fs w) →
  wp (delete_run plist_loads env operation_id plan local)
    (λ res w', deleting delete_script w' ∧ deleted_as_decided w w' res) (λ _ w', stopped_deleting w') w.
Proof.
  intros Ht Hl. unfold delete_run. apply wp_bind. unfold wp at 1, read_call. cbv zeta. set (w0 := with_journal _ _ w).
  assert (deleting [] w0) as H0 by (by split; cbn; rewrite Ht). assert (whole (dw_fs w0)) as Hl0 by (by apply lines).
  assert (∀ sent w', sent `prefix_of` delete_script → deleting sent w' → stopped_deleting w') as Hstop by (intros sent w' Hp H'; by exists sent).
  destruct (read_history _ _) as [history|e] eqn:Hread; [|apply (Hstop []); [apply prefix_nil|exact H0]].
  apply wp_bind, wp_self. cbv zeta. apply wp_bind, wp_throw_if; [intros _; apply (Hstop []); [apply prefix_nil|exact H0]|].
  intros Hd%negb_false_iff. assert (dh_request_sha256 history = VStr (secure_digest (dp_request plan))) as Hreq.
  { unfold dispatchable in Hd. rewrite !negb_orb, !andb_true_iff in Hd. destruct Hd as (((((_ & Hr) & _) & _) & _) & _).
    rewrite negb_involutive in Hr. by apply py_eq_str_l in Hr. }
  apply wp_bind. eapply wp_weaken; [by apply append_delete_wp| |intros ? w' H'; apply (Hstop []); [apply prefix_nil|exact H']].
  cbv beta. intros h1 w1 (H1 & Hl1 & He1 & Hb1).
  assert ([EvDelete (dp_request plan)] `prefix_of` delete_script) as Hp1 by (by exists [EvInventory]).
  apply wp_bind, wp_catch. cbn [any_class]. eapply (bridge_call_wp []); [exact H1| | |].
  { eexists h1, _, _. split; [exact He1|]. split; [done|]. split; [exact Hreq|exact eq_refl]. }
  2:{ intros x w2 H2. by apply (freeze_stops _ _ _ _ _ _ H2). }
  intros command w2 H2 Hfs2 Hcommand. apply wp_bind.
  eapply wp_weaken; [apply append_delete_wp; [exact H2|by rewrite Hfs2]| |intros ? w3; by apply Hstop].
  cbv beta. intros h3 w3 (H3 & Hl3 & He3 & Hb3). apply wp_bind, wp_catch. cbn [any_class]. eapply bridge_call_wp; [exact H3| | |].
  { by eexists h3, _, _. }
  2:{ intros x w4 H4. by apply (freeze_stops _ _ _ _ _ _ H4). }
  intros live w4 H4 Hfs4 Hlive. change ([EvDelete (dp_request plan)] ++ [EvInventory]) with delete_script in H4.
  apply wp_bind, wp_throw_if; [intros _; by apply (Hstop delete_script)|]. intros _. apply wp_if; intros Hg.
  - by apply (freeze_stops delete_script).
  - eapply wp_weaken; [apply decide_outcome_wp; [exact H4|by rewrite Hfs4]| |done]. cbv beta. intros res w5 (H5 & Hst & Hdec & Hb5).
    split; [exact H5|]. exists history, live. split; [exact Hread|]. split; [exact Hd|]. split; [|split; [by apply negb_false_iff in Hg|exact Hdec]].
    exists command, (dw_bridge w2). rewrite Hb1 in Hcommand. rewrite Hb3 in Hlive. rewrite Hb5. by split_and!.
Qed.

(** C10: The deletion and its outcome.  The bridge and the calls of the operating
    system may do anything; other processes may change the journal before and
    inside every access, as long as they start from and leave whole lines and
    do not come between an append and the reading back that follows it.  Then
    the deletion is sent at most once, with the planned request and only while
    the journal, as last read back, ends with the intent to send these very
    bytes for this identity, and the inventory is collected only after the
    answer was recorded.  A run that returns started from a journal whose
    intent is the plan's, had its command answered, then collected an inventory
    of the same connection from the bridge as the deletion left it, and
    reports the status of that answer; the last record it read back is the
    outcome: the identity is gone, because that inventory agrees with the
    archive of the survivors; or it was not deleted, because the command
    failed, the inventory disagrees with the archive of the survivors and
    agrees with the archive the plan was made from, and the count and the SEP
    catacomb are those of the baseline. *)
Theorem delete_run_decides (w : world) r w' : dw_trace w = [] → whole (dw_fs w) →
  delete_run plist_loads env operation_id plan local w = (r, w') →
  Forall delete_announced (dw_trace w')
  ∧ map fst (dw_trace w') `prefix_of` delete_script
  ∧ ∀ res, r = Ok res → map fst (dw_trace w') = delete_script ∧ deleted_as_decided w w' res.
Proof.
  intros Ht Hl Hr. pose proof (delete_run_wp w Ht Hl) as H. unfold wp in H. rewrite Hr in H. destruct r as [res|e].
  - destruct H as ([Ha Hs] & Hd). split; [exact Ha|]. split; [by rewrite Hs|]. intros ? [=<-]. by split.
  - destruct H as (sent & Hp & [Ha Hs]). split; [exact Ha|]. split; [by rewrite Hs|discriminate].
Qed.
End runs.
