(* ===== verification/IdentityOperations.v ===== *)
(** * The rename operation and the delete persistence
    ([src/src/t2_identity_rename_operation.py],
    [src/src/t2_identity_delete_persistence.py])

    The operations that save the archive of a planned edit: the rename saves
    the relabelled archive; the delete persistence saves the archive of the
    survivors, once [DeleteOperation] has recorded that the coprocessor forgot
    the identity.  Both saves are [SingleSave] over their own journals. *)
From S2P Require Import Prelude PyValue Sha256 Json MutationJournal Evidence TypedJournal PersistenceJournal.
From S2P Require Import RenameJournal DeleteJournal Effect OperationWorld Bytes KeyedArchive CatacombOracle CatacombCodec.
From S2P Require Import CatacombProtocol IdentityInventory IdentityPlans SaveWorld SingleSave.

#[local] Open Scope Z_scope.

(** [_name_hash] *)
Definition name_hash (name : string) : string := sha256_hex (utf8 name).

Record RenameReadbackAttestation := RenameAttestation {
  rr_connection_generation : value;
  rr_snapshot_sha256 : value;
  rr_identity_count : value;
  rr_identity_set_unchanged : value;
  rr_label_updated : value;
  rr_local_live_equal : value;
}.

Record DeleteReadbackAttestation := DeleteAttestation {
  dr_connection_generation : value;
  dr_snapshot_sha256 : value;
  dr_identity_count : value;
}.

(** ** Renaming *)

Section rename.
Context {T : Type} `{HostStore T} (plist_dumps : plist → result bytes) (plist_loads : bytes → result plist)
  (env : surroundings) (operation_id : string) (transport : PersistenceTransport)
  (readback : list save_event → result (option RenameReadbackAttestation)).
#[local] Abbreviation action := (act (save_world T)).
#[local] Abbreviation append m ev := (append_call (H := IdentityRenameHistory) env operation_id m ev : action IdentityRenameHistory).
#[local] Abbreviation rerr msg := (throw IdentityRenameOperationError msg).

(** [except BaseException: pass] after one attempt to journal, then the error. *)
Definition rename_freeze (reference : reference_fields) (A : Type) (stage reason : string) (host_commit_possible : bool)
    : action A :=
  _ ← catch any_class
        (_ ← append "CATACOMB_PERSISTENCE_OUTCOME_UNKNOWN"
               (dict (reference ++ [("stage", VStr stage); ("reason", VStr reason); ("sep_mutation_possible", VBool true);
                                    ("host_commit_possible", VBool host_commit_possible)]));
         mret tt)
        (λ _, mret tt);
  rerr ("identity rename stopped at " +:+ stage +:+ "; reconciliation is required").

Definition rename_unstaged (A : Type) : action A :=
  _ ← catch any_class
        (_ ← append "RENAME_ABORTED_BEFORE_PERSISTENCE"
               (dict [("reason", VStr "host-store-unavailable"); ("mutation_possible", VBool false)]);
         mret tt)
        (λ _, mret tt);
  rerr "identity rename could not create a local transaction".

(** The checks of a plan against the durable intent. *)
Definition rename_startable (history : IdentityRenameHistory) (plan : IdentityRenamePlan) (mapping_generation : string)
    : action unit :=
  _ ← throw_if (rh_operation_id history !=? VStr operation_id || negb (bool_decide (rh_phase history = R_INTENT)))
        IdentityRenameOperationError "rename journal is not startable";
  throw_if ((rh_target_identity_uuid history !=? VStr (rp_identity_uuid plan))
            || (rh_target_entity history !=? VInt (rp_entity plan))
            || (rh_previous_name_sha256 history !=? VStr (name_hash (rp_previous_name plan)))
            || (rh_new_name_sha256 history !=? VStr (name_hash (rp_new_name plan)))
            || ((rh_baseline history)@["apple_uid"] !=? VInt (rp_apple_user_id plan))
            || ((rh_baseline history)@["mapping_generation"] !=? VStr mapping_generation))
    IdentityRenameOperationError "rename plan differs from durable intent".

Definition rename_attestation_ok (history : IdentityRenameHistory) (a : RenameReadbackAttestation) : bool :=
  negb ((rr_connection_generation a !=? (rh_baseline history)@["connection_generation"])
        || (rr_identity_count a !=? VInt (Evidence.identity_count (rh_baseline history)))
        || negb (is_true (rr_identity_set_unchanged a))
        || negb (is_true (rr_label_updated a))
        || negb (is_true (rr_local_live_equal a))).

Definition rename_run (plan : IdentityRenamePlan) (mapping_generation : string) : action IdentityRenameHistory :=
  history ← read_call env;
  _ ← rename_startable history plan mapping_generation;
  component ← pure (component_user (rp_apple_user_id plan));
  let generation := (rh_baseline history)@["connection_generation"] in
  let user_name := "user_" +:+ hex08 (rp_apple_user_id plan) +:+ ".cat" in
  let descriptor := component_descriptor component in
  let freeze := rename_freeze (single_reference generation user_name descriptor) in
  _ ← single_save (Hi := IdentityRenameHistory) env operation_id transport freeze rename_unstaged
        (bind_renamed plist_dumps plist_loads plan) IdentityRenameError generation user_name descriptor;
  attestation ← attempt freeze (call EvReadback readback) "readback" "readback-error" true;
  match attestation with
  | Some a =>
      _ ← (if rename_attestation_ok history a then mret tt else freeze _ "readback" "readback-error" true);
      _ ← catch is_journal_error (pure (require_sha256 (rr_snapshot_sha256 a) "rename snapshot SHA-256"))
            (λ _, freeze _ "readback" "readback-error" true);
      _ ← attest_single (Hi := IdentityRenameHistory) env operation_id generation (rr_snapshot_sha256 a);
      append "RENAME_RECONCILED"
        (dict [("connection_generation", generation); ("identity_uuid", VStr (rp_identity_uuid plan));
               ("new_name_sha256", VStr (name_hash (rp_new_name plan))); ("snapshot_sha256", rr_snapshot_sha256 a);
               ("mapping_generation", VStr mapping_generation); ("identity_count", rr_identity_count a);
               ("identity_set_unchanged", VBool true); ("label_updated", VBool true); ("local_live_equal", VBool true)])
  | None => freeze _ "readback" "readback-error" true
  end.
End rename.

(** ** Persisting a deletion *)

Section delete.
Context {T : Type} `{HostStore T} (plist_dumps : plist → result bytes) (plist_loads : bytes → result plist)
  (env : surroundings) (operation_id : string) (transport : PersistenceTransport)
  (readback : list save_event → result (option DeleteReadbackAttestation)).
#[local] Abbreviation action := (act (save_world T)).
#[local] Abbreviation append m ev := (append_call (H := IdentityDeleteHistory) env operation_id m ev : action IdentityDeleteHistory).
#[local] Abbreviation derr msg := (throw IdentityDeletePersistenceError msg).

(** [_freeze]; without a reference the deletion itself becomes unknown. *)
Definition delete_save_freeze (generation : value) (reference : option reference_fields) (A : Type)
    (stage reason : string) (host_commit_possible : bool) : action A :=
  _ ← catch any_class
        (match reference with
         | None =>
             _ ← append "DELETE_OUTCOME_UNKNOWN"
                   (dict [("connection_generation", generation); ("stage", VStr "persistence"); ("reason", VStr reason);
                          ("mutation_possible", VBool true)]);
             mret tt
         | Some fields =>
             _ ← append "CATACOMB_PERSISTENCE_OUTCOME_UNKNOWN"
                   (dict (fields ++ [("stage", VStr stage); ("reason", VStr reason); ("sep_mutation_possible", VBool true);
                                     ("host_commit_possible", VBool host_commit_possible)]));
             mret tt
         end)
        (λ _, mret tt);
  derr ("identity deletion persistence stopped at " +:+ stage +:+ "; recovery is required").

Definition delete_startable (history : IdentityDeleteHistory) (plan : IdentityDeletePlan) (mapping_generation : string)
    : action unit :=
  throw_if (dh_operation_id history !=? VStr operation_id
            || negb (bool_decide (dh_phase history = D_SEP_DELETED))
            || (dh_target_identity_uuid history !=? VStr (dp_identity_uuid plan))
            || (dh_survivor_snapshot_sha256 history !=? VStr (dp_survivor_snapshot_sha256 plan))
            || ((dh_baseline history)@["apple_uid"] !=? VInt (dp_apple_user_id plan))
            || ((dh_baseline history)@["mapping_generation"] !=? VStr mapping_generation))
    IdentityDeletePersistenceError "delete persistence plan differs from journal".

Definition delete_attestation_ok (history : IdentityDeleteHistory) (a : DeleteReadbackAttestation) : bool :=
  negb ((dr_connection_generation a !=? dh_persistence_connection_generation history)
        || (dr_identity_count a !=? VInt (Evidence.identity_count (dh_baseline history) - 1))).

Definition delete_persist_run (plan : IdentityDeletePlan) (mapping_generation : string) : action IdentityDeleteHistory :=
  history ← read_call env;
  _ ← delete_startable history plan mapping_generation;
  component ← pure (component_user (dp_apple_user_id plan));
  let generation := dh_persistence_connection_generation history in
  let user_name := "user_" +:+ hex08 (dp_apple_user_id plan) +:+ ".cat" in
  let descriptor := component_descriptor component in
  let freeze := delete_save_freeze generation (Some (single_reference generation user_name descriptor)) in
  _ ← single_save (Hi := IdentityDeleteHistory) env operation_id transport freeze
        (λ A, delete_save_freeze generation None A "host-stage" "host-store-error" false)
        (bind_survivors plist_dumps plist_loads plan) IdentityDeleteError generation user_name descriptor;
  attestation ← attempt freeze (call EvReadback readback) "readback" "readback-error" true;
  match attestation with
  | Some a =>
      _ ← (if delete_attestation_ok history a then mret tt else freeze _ "readback" "readback-error" true);
      _ ← catch is_journal_error (pure (require_sha256 (dr_snapshot_sha256 a) "delete snapshot"))
            (λ _, freeze _ "readback" "readback-error" true);
      _ ← attest_single (Hi := IdentityDeleteHistory) env operation_id generation (dr_snapshot_sha256 a);
      append "DELETE_RECONCILED"
        (dict [("connection_generation", generation); ("identity_uuid", VStr (dp_identity_uuid plan));
               ("survivor_snapshot_sha256", VStr (dp_survivor_snapshot_sha256 plan));
               ("snapshot_sha256", dr_snapshot_sha256 a); ("mapping_generation", VStr mapping_generation);
               ("identity_count", dr_identity_count a); ("target_absent", VBool true); ("local_live_equal", VBool true);
               ("host_reconciled", VBool true); ("sep_clean", VBool true)])
  | None => freeze _ "readback" "readback-error" true
  end.
End delete.
