(* ===== verification/IdentityOperationRuns.v ===== *)
(** * Theorems on the rename operation and the delete persistence

    Both operations announce every call in their journal, make the calls of
    one save in order, end reconciled when they return, and leave no secret in
    a buffer. *)
From S2P Require Import Prelude PyValue Sha256 Json MutationJournal Evidence TypedJournal PersistenceJournal.
From S2P Require Import RenameJournal DeleteJournal Effect OperationWorld Bytes KeyedArchive CatacombOracle CatacombCodec.
From S2P Require Import CatacombProtocol IdentityInventory IdentityPlans SaveWorld SaveFacts SingleSave SingleSaveRuns.
From S2P Require Import IdentityOperations.

#[local] Open Scope Z_scope.

(** ** The two journals carry a save *)

Lemma rename_last_step euid s h op m ev : ends_with euid s h op m ev →
  ∃ b s0 s1, rename_handled b s0 ev s1 (VStr m) ∧ rh_persistence h = snapshot (r_persistence s1) ∧ rh_phase h = r_phase s1.
Proof.
  intros (record & l0 & l & n & d & Hs & -> & Hm & He)%ends_with_step.
  cbn [tj_step rename_journal] in Hs. unfold rename_step in Hs.
  apply bind_Ok in Hs as (u & _ & Hs). apply bind_Ok in Hs as (s1 & Hd & Hs). apply Ok_inj in Hs as <-.
  rewrite Hm, He in Hd. exists (rl_baseline l0), (rl_state l0), s1. split; [|done]. by apply rename_dispatch_handled.
Qed.

#[export] Instance rename_save_journal : SaveJournal rename_loop IdentityRenameHistory := { save_history := rh_persistence }.
#[export] Instance rename_save_laws : SaveJournalLaws rename_loop IdentityRenameHistory.
Proof.
  split; [exact _|]. intros euid s h op m ev He Hp. apply rename_last_step in He as (b & s0 & s1 & Hd & Hh & _).
  remember (VStr m) as k eqn:Hk. destruct Hd as [m' hd Hin _|m' _ Hc]; injection Hk as ->.
  { exfalso. unfold rename_handlers in Hin. list_cases Hin; injection Hin as -> _; discriminate Hp. }
  unfold on_rename_catacomb in Hc. apply bind_Ok in Hc as (u & _ & Hc). apply bind_Ok in Hc as ([c t] & Ht & Hc).
  apply Ok_inj in Hc as <-. apply except_Ok in Ht. pose proof (consume_consumes _ _ _ _ _ _ Hp Ht) as ->.
  by exists (r_persistence s0), t, false.
Qed.

Lemma rename_reconciled_last euid s h op ev : ends_with euid s h op "RENAME_RECONCILED" ev → rh_phase h = R_RECONCILED.
Proof.
  intros (b & s0 & s1 & Hd & _ & ->)%rename_last_step. remember (VStr _) as k eqn:Hk.
  destruct Hd as [m' hd Hin Hd|m' Hp _]; injection Hk as ->; [|discriminate Hp].
  unfold rename_handlers in Hin. list_cases Hin; try discriminate Hin. injection Hin as ->.
  unfold on_rename_reconciled in Hd. rename_inv. done.
Qed.

Lemma delete_last_step euid s h op m ev : ends_with euid s h op m ev →
  ∃ b s0 s1, delete_handled b s0 ev s1 (VStr m) ∧ dh_persistence h = snapshot (d_persistence s1) ∧ dh_phase h = d_phase s1.
Proof.
  intros (record & l0 & l & n & d & Hs & -> & Hm & He)%ends_with_step.
  cbn [tj_step delete_journal] in Hs. unfold delete_step in Hs.
  apply bind_Ok in Hs as (u & _ & Hs). apply bind_Ok in Hs as (s1 & Hd & Hs). apply Ok_inj in Hs as <-.
  rewrite Hm, He in Hd. exists (dl_baseline l0), (dl_state l0), s1. split; [|done]. by apply delete_dispatch_handled.
Qed.

#[export] Instance delete_save_journal : SaveJournal delete_loop IdentityDeleteHistory := { save_history := dh_persistence }.
#[export] Instance delete_save_laws : SaveJournalLaws delete_loop IdentityDeleteHistory.
Proof.
  split; [exact _|]. intros euid s h op m ev He Hp. apply delete_last_step in He as (b & s0 & s1 & Hd & Hh & _).
  remember (VStr m) as k eqn:Hk. destruct Hd as [m' hd Hin _|m' _ Hc]; injection Hk as ->.
  { exfalso. unfold delete_handlers in Hin. list_cases Hin; injection Hin as -> _; discriminate Hp. }
  unfold on_delete_catacomb in Hc. apply bind_Ok in Hc as (u & _ & Hc). apply bind_Ok in Hc as ([c t] & Ht & Hc).
  apply Ok_inj in Hc. apply except_Ok in Ht. pose proof (consume_consumes _ _ _ _ _ _ Hp Ht) as ->.
  exists (d_persistence s0), t, false. split; [done|].
  change (dh_persistence h = snapshot t). rewrite Hh, <-Hc. by repeat case_match.
Qed.

Lemma delete_reconciled_last euid s h op ev : ends_with euid s h op "DELETE_RECONCILED" ev → dh_phase h = D_RECONCILED.
Proof.
  intros (b & s0 & s1 & Hd & _ & ->)%delete_last_step. remember (VStr _) as k eqn:Hk.
  destruct Hd as [m' hd Hin Hd|m' Hp _]; injection Hk as ->; [|discriminate Hp].
  unfold delete_handlers in Hin. list_cases Hin; try discriminate Hin. injection Hin as ->.
  unfold on_delete_reconciled in Hd. delete_inv. done.
Qed.

(** ** Runs *)

Section operations.
Context {T : Type} `{HostStore T} (plist_dumps : plist → result bytes) (plist_loads : bytes → result plist)
  (env : surroundings) (lines : orderly env) (operation_id : string) (transport : PersistenceTransport).
#[local] Abbreviation world := (save_world T).
#[local] Hint Resolve at_failed : core.

(** Before a run nothing was called and no buffer exists. *)
Definition unused (w : world) : Prop := sv_trace w = [] ∧ sv_heap w = ∅ ∧ whole (sv_fs w).

Lemma unused_at_save {St Hi} `{JT : TypedJournal St Hi} `{JS : !SaveJournal St Hi} tidy_calls full (w : world) :
  sv_trace w = [] → sv_heap w = ∅ → at_save (Hi := Hi) env operation_id tidy_calls full false full w.
Proof.
  intros Ht Hh. split.
  - intros _ r b. rewrite Hh, lookup_empty. discriminate.
  - rewrite Ht. constructor.
  - unfold calls. by rewrite Ht.
Qed.

(** What a run leaves behind: every call announced, the calls [script] in order
    - all of them if it returned - and no secret in a buffer. *)
Record disciplined {Hi St} `{JT : TypedJournal St Hi} `{JS : !SaveJournal St Hi} (script : list save_call) (returned : bool)
    (w : world) : Prop := {
  di_announced : Forall (event_announced (Hi := Hi) env operation_id) (sv_trace w);
  di_calls : calls w `prefix_of` script;
  di_all : returned = true → calls w = script;
  di_wiped : tidy_transport transport → ∀ k b, sv_heap w !! k = Some b → b = zeros (length b);
}.

Lemma at_save_disciplined {St Hi} `{JT : TypedJournal St Hi} `{JS : !SaveJournal St Hi} script rest (w : world) :
  at_save (Hi := Hi) env operation_id (tidy_transport transport) script false rest w →
  disciplined (Hi := Hi) script (bool_decide (rest = [])) w.
Proof.
  intros [Hc Ha Hl]. split; [exact Ha|by exists rest| |].
  - intros ->%bool_decide_eq_true. by rewrite app_nil_r in Hl.
  - intros Ht k b Hk. destruct (Hc Ht k b Hk) as [Hin|Hw]; [by apply elem_of_nil in Hin|exact Hw].
Qed.

Lemma weaken_returned {St Hi} `{JT : TypedJournal St Hi} `{JS : !SaveJournal St Hi} script returned (w : world) :
  disciplined (Hi := Hi) script returned w → disciplined (Hi := Hi) script false w.
Proof. by intros [? ? _ ?]; split. Qed.

(** The calls of a save of one component with its read-back. *)
Definition edit_calls (apple_user_id : Z) : list save_call :=
  single_calls ("user_" +:+ hex08 apple_user_id +:+ ".cat") (component_descriptor (Component apple_user_id 0 ZERO_UUID))
  ++ [CallReadback].

(** The save, its read-back and the attestation, over any journal of a save. *)
Section shared.
Context {St Hi : Type} `{JT : TypedJournal St Hi} `{JS : !SaveJournal St Hi} `{JL : !SaveJournalLaws St Hi} (full : list save_call)
  (freeze : ∀ A, string → string → bool → act world A) (unstaged : ∀ A, act world A)
  (bind_secure_blob : bytes → result bytes) (bind_error : exn_class) (generation : value) (user_name : string) (descriptor : bytes).
#[local] Abbreviation at_save := (at_save (T := T) (Hi := Hi) env operation_id (tidy_transport transport) full false).
#[local] Abbreviation failed := (failed (T := T) (Hi := Hi) env operation_id (tidy_transport transport) full).
Context (freeze_wp : ∀ A i stage reason host (Q : A → world → Prop) w, failed i w →
    wp (freeze A stage reason host) Q (λ _ w', failed i w') w)
  (unstaged_wp : ∀ A (Q : A → world → Prop) w, failed false w → wp (unstaged A) Q (λ _ w', failed false w') w).

Lemma save_read_wp {A R} (readback : list save_event → result A) (k : A → act world R) (Q : R → world → Prop) w :
  at_save (single_calls user_name descriptor ++ [CallReadback]) w → whole (sv_fs w) →
  (∀ a w', at_save [] w' → whole (sv_fs w') → wp (k a) Q (λ _ w', failed false w') w') →
  wp (_ ← single_save (Hi := Hi) env operation_id transport freeze unstaged bind_secure_blob bind_error generation user_name descriptor;
      a ← attempt freeze (call EvReadback readback) "readback" "readback-error" true;
      k a) Q (λ _ w', failed false w') w.
Proof.
  intros Hat Hw Hk. apply wp_bind.
  eapply wp_weaken; [by eapply (single_save_wp (Hi := Hi) _ _ _ full)| |done]. cbv beta.
  intros _ w2 (H2 & h2 & ev2 & Hp2). apply wp_bind. eapply (attempt_save_wp (Hi := Hi) _ _ _ full); [done|].
  eapply wp_weaken; [eapply (save_call_wp (Hi := Hi)) with (e := EvReadback); [exact H2|exact Hp2|]| |done].
  { apply confirmed_announced; [apply Hp2|by left]. }
  cbv beta. intros a w3 [H3 Hw3]. by apply Hk.
Qed.

(** The checks of the read-back, the attestation and the closing record. *)
Lemma attest_close_wp (ok : bool) snapshot what m ev (Q : Hi → world → Prop) w : at_save [] w → whole (sv_fs w) →
  (∀ h w', at_save [] w' → ends_with (su_euid env) (sv_fs w') h operation_id m ev → Q h w') →
  wp (_ ← (if ok then mret tt else freeze _ "readback" "readback-error" true);
      _ ← catch is_journal_error (pure (require_sha256 snapshot what)) (λ _, freeze _ "readback" "readback-error" true);
      _ ← attest_single (Hi := Hi) env operation_id generation snapshot;
      append_call env operation_id m ev) Q (λ _ w', failed false w') w.
Proof.
  intros Hat Hw HQ. apply wp_bind, wp_if; intros _; [apply wp_ret|apply freeze_wp; by eapply at_failed].
  apply wp_bind, wp_catch, wp_pure.
  2:{ intros e _. destruct (is_journal_error _); [apply freeze_wp|]; by eapply at_failed. }
  intros _ _. apply wp_bind. unfold attest_single, SingleSave.append. apply wp_bind.
  eapply wp_weaken; [by eapply (append_other_wp (Hi := Hi))| |done]. cbv beta. intros h4 w4 (H4 & Hw4 & _). apply wp_ret.
  eapply wp_weaken; [by eapply (append_other_wp (Hi := Hi))| |done]. cbv beta. intros h5 w5 (H5 & Hw5 & He5). by apply HQ.
Qed.
End shared.

Section rename.
Context (readback : list save_event → result (option RenameReadbackAttestation)).
#[local] Abbreviation at_save := (at_save (T := T) (Hi := IdentityRenameHistory) env operation_id (tidy_transport transport)).
#[local] Abbreviation failed := (failed (T := T) (Hi := IdentityRenameHistory) env operation_id (tidy_transport transport)).

Lemma rename_freeze_wp full ref A i stage reason host (Q : A → world → Prop) w : failed full i w →
  wp (rename_freeze env operation_id ref A stage reason host) Q (λ _ w', failed full i w') w.
Proof.
  intros Hf. unfold rename_freeze. apply attempt_wp; [exact Hf|]. intros w' H'. by apply wp_throw.
Qed.

Lemma rename_unstaged_wp full A (Q : A → world → Prop) w : failed full false w →
  wp (rename_unstaged env operation_id A) Q (λ _ w', failed full false w') w.
Proof.
  intros Hf. unfold rename_unstaged. apply attempt_wp; [exact Hf|]. intros w' H'. by apply wp_throw.
Qed.

Lemma rename_run_wp plan mapping w : unused w →
  wp (rename_run plist_dumps plist_loads env operation_id transport readback plan mapping)
    (λ h w', rh_phase h = R_RECONCILED ∧ at_save (edit_calls (rp_apple_user_id plan)) false [] w')
    (λ _ w', failed (edit_calls (rp_apple_user_id plan)) false w') w.
Proof.
  intros (Ht & Hh & Hw). set (full := edit_calls (rp_apple_user_id plan)). unfold rename_run.
  apply wp_bind. unfold wp at 1, read_call. cbv zeta. set (w1 := with_journal _ _ w).
  assert (at_save full false full w1) as H1 by (by apply unused_at_save).
  assert (whole (sv_fs w1)) as Hw1 by (by apply lines).
  destruct (read_history _ _) as [h|e]; [|eauto].
  apply wp_bind. unfold rename_startable. apply wp_bind, wp_throw_if; [eauto|]. intros _. apply wp_throw_if; [eauto|]. intros _.
  apply wp_bind, wp_pure; [|eauto]. intros component Hcomp. apply component_user_Ok in Hcomp as [-> _]. cbv zeta.
  eapply (save_read_wp (Hi := IdentityRenameHistory) full);
    [intros; by apply rename_freeze_wp|intros; by apply rename_unstaged_wp|exact H1|exact Hw1|].
  intros [a|] w3 H3 Hw3; [|apply rename_freeze_wp; eauto].
  eapply (attest_close_wp (Hi := IdentityRenameHistory) full); [intros; by apply rename_freeze_wp|exact H3|exact Hw3|].
  intros h5 w5 H5 He5. split; [by eapply rename_reconciled_last|exact H5].
Qed.
End rename.

Section delete.
Context (readback : list save_event → result (option DeleteReadbackAttestation)).
#[local] Abbreviation at_save := (at_save (T := T) (Hi := IdentityDeleteHistory) env operation_id (tidy_transport transport)).
#[local] Abbreviation failed := (failed (T := T) (Hi := IdentityDeleteHistory) env operation_id (tidy_transport transport)).

Lemma delete_save_freeze_wp full generation ref A i stage reason host (Q : A → world → Prop) w : failed full i w →
  wp (delete_save_freeze env operation_id generation ref A stage reason host) Q (λ _ w', failed full i w') w.
Proof.
  intros Hf. unfold delete_save_freeze. destruct ref as [fields|]; (apply attempt_wp; [exact Hf|]);
    intros w' H'; by apply wp_throw.
Qed.

Lemma delete_persist_run_wp plan mapping w : unused w →
  wp (delete_persist_run plist_dumps plist_loads env operation_id transport readback plan mapping)
    (λ h w', dh_phase h = D_RECONCILED ∧ at_save (edit_calls (dp_apple_user_id plan)) false [] w')
    (λ _ w', failed (edit_calls (dp_apple_user_id plan)) false w') w.
Proof.
  intros (Ht & Hh & Hw). set (full := edit_calls (dp_apple_user_id plan)). unfold delete_persist_run.
  apply wp_bind. unfold wp at 1, read_call. cbv zeta. set (w1 := with_journal _ _ w).
  assert (at_save full false full w1) as H1 by (by apply unused_at_save).
  assert (whole (sv_fs w1)) as Hw1 by (by apply lines).
  destruct (read_history _ _) as [h|e]; [|eauto].
  apply wp_bind. unfold delete_startable. apply wp_throw_if; [eauto|]. intros _.
  apply wp_bind, wp_pure; [|eauto]. intros component Hcomp. apply component_user_Ok in Hcomp as [-> _]. cbv zeta.
  eapply (save_read_wp (Hi := IdentityDeleteHistory) full);
    [intros; by apply delete_save_freeze_wp|intros; by apply delete_save_freeze_wp|exact H1|exact Hw1|].
  intros [a|] w3 H3 Hw3; [|apply delete_save_freeze_wp; eauto].
  eapply (attest_close_wp (Hi := IdentityDeleteHistory) full); [intros; by apply delete_save_freeze_wp|exact H3|exact Hw3|].
  intros h5 w5 H5 He5. split; [by eapply delete_reconciled_last|exact H5].
Qed.
End delete.

(** ** The operations as a whole *)


End operations.
