(* ===== verification/ProcessIdentity.v ===== *)
(** * Process identity
    ([src/src/t2_polkit_grant.py], [src/src/t2_dbus_identity.py])

    Which process a pidfd denotes and as whom it runs, read from [/proc]: the
    part of the identity checks that the worker protocols rest on.  The kernel
    is an interface ([Kernel]) over a state of its own, and the process keeps a
    ledger of the descriptors it holds. *)
From stdpp Require Import gmultiset.
From S2P Require Import Prelude PyValue Json Effect MutationJournal IdentityInventory.

#[local] Open Scope Z_scope.

(** ** The kernel *)

(** One item of the ancillary data of a message: its level, its kind and its
    payload. *)
Record ancillary := Ancillary { an_level : Z; an_kind : Z; an_payload : string }.

(** System calls may return anything, raise anything and change the state. *)
Class Kernel (W : Type) := {
  k_getsockopt : Z → act W Z;
  k_recvmsg : Z → Z → act W (string * list ancillary * Z);
  k_send : string → act W Z;
  k_sendmsg : string → Z → act W Z;
  k_close : Z → act W unit;
  k_set_cloexec : Z → act W unit;
  k_readlink : string → act W string;
  k_open : string → act W Z;
  k_read : Z → Z → act W string;
}.

Record process (W : Type) := Process { pr_kernel : W; pr_open : gmultiset Z }.
Arguments Process {W} _ _.
Arguments pr_kernel {W} _.
Arguments pr_open {W} _.

Definition SOL_SOCKET : Z := 1.
Definition SCM_RIGHTS : Z := 1.
Definition is_rights (a : ancillary) : bool := (an_level a =? SOL_SOCKET) && (an_kind a =? SCM_RIGHTS).

(** [array("i").frombytes] of the whole items of the payload. *)
Fixpoint descriptors_of (payload : string) : list Z :=
  match payload with
  | String a (String b (String c (String d rest))) =>
      let n := code a + 256 * code b + 65536 * code c + 16777216 * code d in
      (if 2 ^ 31 <=? n then n - 2 ^ 32 else n) :: descriptors_of rest
  | _ => []
  end.
(** The descriptors the kernel installs with a message. *)
Definition installed (items : list ancillary) : list Z :=
  items ≫= λ a, if is_rights a then descriptors_of (an_payload a) else [].

Section kernel.
Context {W : Type} `{Kernel W}.
#[local] Abbreviation action := (act (process W)).

Definition on_kernel {A} (m : act W A) (track : A → gmultiset Z → gmultiset Z) : action A := λ p,
  match m (pr_kernel p) with
  | (Ok a, k) => (Ok a, Process k (track a (pr_open p)))
  | (Raise e, k) => (Raise e, Process k (pr_open p))
  end.
Definition system {A} (m : act W A) : action A := on_kernel m (λ _ fds, fds).

Definition os_open (path : string) : action Z := on_kernel (k_open path) (λ fd fds, fds ⊎ {[+ fd +]}).
(** A descriptor that [close] fails on is gone as well. *)
Definition os_close (fd : Z) : action unit := λ p,
  let '(r, k) := k_close fd (pr_kernel p) in (r, Process k (pr_open p ∖ {[+ fd +]})).
Definition recvmsg (size space : Z) : action (string * list ancillary * Z) :=
  on_kernel (k_recvmsg size space) (λ answer fds, fds ⊎ list_to_set_disj (installed answer.1.2)).

(** [try: m finally: cleanup] *)
Definition ensure {A} (m : action A) (cleanup : action unit) : action A := λ p,
  let '(r, p) := m p in
  match cleanup p with (Ok _, p) => (r, p) | (Raise e, p) => (Raise e, p) end.

(** ** Records of [/proc] *)

Definition MAX_PROC_RECORD : Z := 64 * 1024.

(** Every turn of the loop reads at least one byte. *)
Fixpoint read_record (fuel : nat) (descriptor : Z) (data : string) : action string :=
  let n := Z.of_nat (String.length data) in
  if MAX_PROC_RECORD <? n then mret data
  else
    match fuel with
    | O => throw AssertionError "out of fuel"
    | S fuel =>
        block ← system (k_read descriptor (Z.min 4096 (MAX_PROC_RECORD + 1 - n)));
        if String.eqb block "" then mret data else read_record fuel descriptor (data +:+ block)
    end.

Definition as_unavailable {A} (m : action A) : action A :=
  catch (λ c, bool_decide (c = OSError)) m (λ _, throw PolkitGrantError "caller process record is unavailable").

(** Reading the open record. *)
Definition read_open (descriptor : Z) : action string :=
  as_unavailable
    (data ← read_record (S (Z.to_nat MAX_PROC_RECORD)) descriptor "";
     _ ← throw_if (String.eqb data "" || (MAX_PROC_RECORD <? Z.of_nat (String.length data)) || has_nul data)
           PolkitGrantError "caller process record is invalid";
     mret data).

Definition read_bounded (path : string) : action string :=
  descriptor ← as_unavailable (os_open path);
  if 0 <=? descriptor then ensure (read_open descriptor) (os_close descriptor) else read_open descriptor.
End kernel.

(** ** Text *)

(** [s.split()] of ASCII text. *)
Fixpoint split_from (word s : string) : list string :=
  match s with
  | "" => if String.eqb word "" then [] else [word]
  | String c s =>
      if is_int_space c then (if String.eqb word "" then split_from "" s else word :: split_from "" s)
      else split_from (word +:+ String c "") s
  end.
Definition split (s : string) : list string := split_from "" s.

(** [s.splitlines()] of ASCII text. *)
Definition line_break (c : ascii) : bool :=
  let z := code c in (10 <=? z) && (z <=? 12) || (28 <=? z) && (z <=? 30).
Fixpoint splitlines_from (line s : string) : list string :=
  match s with
  | "" => if String.eqb line "" then [] else [line]
  | String c s =>
      if code c =? 13 then
        match s with
        | String d s' => line :: (if code d =? 10 then splitlines_from "" s' else splitlines_from "" s)
        | "" => line :: splitlines_from "" s
        end
      else if line_break c then line :: splitlines_from "" s
      else splitlines_from (line +:+ String c "") s
  end.
Definition splitlines (s : string) : list string := splitlines_from "" s.

Fixpoint decimal_go (acc : Z) (s : string) : option Z :=
  match s with
  | "" => Some acc
  | String c s => let z := code c - 48 in if (0 <=? z) && (z <=? 9) then decimal_go (10 * acc + z) s else None
  end.
(** [s.isdecimal()], with the value. *)
Definition decimal (s : string) : option Z := if String.eqb s "" then None else decimal_go 0 s.
(** [int(s, 10)] of such a text: CPython limits the number of digits. *)
Definition int10 (s : string) : result Z :=
  if (4300 <? Z.of_nat (String.length s)) then raise ValueError "Exceeds the limit (4300 digits) for integer string conversion"
  else Ok (default 0 (decimal s)).

(** The text before and after the last occurrence of [c]. *)
Fixpoint rpartition (c : ascii) (s : string) : option (string * string) :=
  match s with
  | "" => None
  | String d s =>
      match rpartition c s with
      | Some (a, b) => Some (String d a, b)
      | None => if Ascii.eqb c d then Some ("", s) else None
      end
  end.

Definition starts (p s : string) : bool := String.prefix p s.
Fixpoint skip (n : nat) (s : string) : string :=
  match n, s with S n, String _ s => skip n s | _, _ => s end.

(** ** The process ([t2_polkit_grant.py]) *)

Definition MAX_PID : Z := 2 ^ 31 - 1.

(** The members that come from a packet have any type. *)
Record ProcessSubject := Subject {
  ps_pid : value;
  ps_uid : value;
  ps_start_time_ticks : value;
  ps_setuid_real_uid : value;
}.
(** The equality of the dataclass. *)
Definition subject_eqb (a b : ProcessSubject) : bool :=
  (ps_pid a ==? ps_pid b) && (ps_uid a ==? ps_uid b) && (ps_start_time_ticks a ==? ps_start_time_ticks b)
  && (ps_setuid_real_uid a ==? ps_setuid_real_uid b).

#[local] Abbreviation refuse b msg := (fail_if b PolkitGrantError msg).

Definition stat_start_time (data : string) (expected_pid : Z) : result Z :=
  _ ← refuse (negb (is_ascii data)) "caller stat record is not ASCII";
  let prefix := dec expected_pid " (" in
  match rpartition ")" data with
  | Some (before, after) =>
      _ ← refuse (negb (starts prefix data) || (String.length before <? String.length prefix)%nat || negb (starts " " after))
            "caller stat record has an invalid envelope";
      let fields := split (skip 1 after) in
      match fields !! 19%nat with
      | Some field =>
          _ ← refuse (negb (String.length (default "" (head fields)) =? 1)%nat
                      || bool_decide (decimal field = None)) "caller stat record is incomplete";
          start_time ← except (λ c, bool_decide (c = ValueError)) (λ _, Exn PolkitGrantError "caller start time is invalid")
                         (int10 field);
          _ ← refuse ((start_time <=? 0) || (2 ^ 64 <=? start_time)) "caller start time is outside the kernel range";
          Ok start_time
      | None => raise PolkitGrantError "caller stat record is incomplete"
      end
  | None => raise PolkitGrantError "caller stat record has an invalid envelope"
  end.

Definition status_uids (data : string) : result (list Z) :=
  _ ← refuse (negb (is_ascii data)) "caller status record is not ASCII";
  match filter (λ line, starts "Uid:" line = true) (splitlines data) with
  | [found] =>
      let values := split (skip 4 found) in
      _ ← refuse (negb (length values =? 4)%nat || existsb (λ v, bool_decide (decimal v = None)) values)
            "caller status UID record is malformed";
      parsed ← mapM int10 values;
      _ ← refuse (existsb (λ v, (v <? 0) || (2 ^ 32 <=? v)) parsed) "caller status UID is outside uint32";
      Ok parsed
  | _ => raise PolkitGrantError "caller status UID record is missing or duplicated"
  end.

Definition proc_path (pid : Z) (record : string) : string := "/proc/" +:+ dec pid ("/" +:+ record).

Section process.
Context {W : Type} `{Kernel W}.
#[local] Abbreviation action := (act (process W)).

Definition read_process_subject (pid peer_uid : value) (allow_root allow_setuid_root : bool) : action ProcessSubject :=
  _ ← throw_if (negb (is_int pid) || negb ((1 <=? int_value pid) && (int_value pid <=? MAX_PID)) || negb (is_int peer_uid)
                || negb (((if allow_root then 0 else 1) <=? int_value peer_uid) && (int_value peer_uid <? 2 ^ 32 - 1)))
        PolkitGrantError "caller process subject is invalid";
  stat ← read_bounded (proc_path (int_value pid) "stat");
  start_time ← pure (stat_start_time stat (int_value pid));
  status ← read_bounded (proc_path (int_value pid) "status");
  uids ← pure (status_uids status);
  if forallb (λ u, u =? int_value peer_uid) uids then mret (Subject pid peer_uid (VInt start_time) VNone)
  else
    match uids with
    | [real_uid; effective_uid; saved_uid; filesystem_uid] =>
        if allow_setuid_root && allow_root && ((1 <=? real_uid) && (real_uid <? 2 ^ 32 - 1))
           && ((int_value peer_uid =? 0) || (int_value peer_uid =? real_uid))
           && ((effective_uid =? saved_uid) && (saved_uid =? filesystem_uid) && (filesystem_uid =? 0))
        then mret (Subject pid peer_uid (VInt start_time) (VInt real_uid))
        else throw PolkitGrantError "caller real/effective/saved/filesystem UIDs are not the peer UID"
    | _ => throw ValueError "wrong number of values to unpack"
    end.

(** ** The process of a pidfd ([t2_dbus_identity.py]) *)

Definition descriptor_path (directory : string) (fd : Z) : string := "/proc/self/" +:+ directory +:+ dec fd "".
Definition strip_text (s : string) : string := strip is_int_space s.

Definition pid_rows (fdinfo : string) : list string :=
  (λ line, strip_text (skip 4 line)) <$> filter (λ line, starts "Pid:" line = true) (splitlines fdinfo).

Definition pidfd_matches (pidfd : Z) (pid : value) : action unit :=
  fdinfo ← catch (λ c, bool_decide (c ∈ [OSError; UnicodeError; PolkitGrantError]))
             (_ ← system (k_set_cloexec pidfd);
              target ← system (k_readlink (descriptor_path "fd/" pidfd));
              _ ← throw_if (negb (String.eqb target "anon_inode:[pidfd]")) DBusIdentityError "D-Bus ProcessFD is not a pidfd";
              record ← read_bounded (descriptor_path "fdinfo/" pidfd);
              _ ← throw_if (negb (is_ascii record)) UnicodeError "ordinal not in range(128)";
              mret record)
             (λ _, throw DBusIdentityError "D-Bus ProcessFD is invalid");
  match pid_rows fdinfo with
  | [row] =>
      _ ← throw_if (bool_decide (decimal row = None)) DBusIdentityError "D-Bus ProcessFD does not match ProcessID";
      n ← pure (int10 row);
      throw_if (VInt n !=? pid) DBusIdentityError "D-Bus ProcessFD does not match ProcessID"
  | _ => throw DBusIdentityError "D-Bus ProcessFD does not match ProcessID"
  end.
End process.

(** * Facts *)

(** What the ledger rests on: a failed [close] raises [OSError], and [open]
    returns a descriptor. *)
Class KernelLaws (W : Type) `{Kernel W} : Prop := {
  close_raises fd k e k' : k_close fd k = (Raise e, k') → exn_cls e = OSError;
  open_descriptor path k fd k' : k_open path k = (Ok fd, k') → 0 <= fd;
}.

Section ledger.
Context {W : Type}.
#[local] Abbreviation action := (act (process W)).

(** Whatever happens, the process holds the descriptors it held before. *)
Definition balanced {A} (m : action A) : Prop := ∀ p,
  wp m (λ _ q, pr_open q = pr_open p) (λ _ q, pr_open q = pr_open p) p.

Lemma balanced_system {A} (m : act W A) : balanced (system m).
Proof. intros p. unfold wp, system, on_kernel. by destruct (m (pr_kernel p)) as [[a|e] k]. Qed.
Lemma balanced_pure {A} (m : result A) : balanced (pure m).
Proof. intros p. by apply wp_pure. Qed.
Lemma balanced_ret {A} (a : A) : balanced (mret a).
Proof. done. Qed.
Lemma balanced_throw {A} c msg : balanced (throw c msg : action A).
Proof. done. Qed.
Lemma balanced_throw_if b c msg : balanced (throw_if b c msg).
Proof. by destruct b. Qed.
Lemma balanced_bind {A B} (m : action A) (f : A → action B) : balanced m → (∀ a, balanced (f a)) → balanced (m ≫= f).
Proof.
  intros Hm Hf p. apply wp_bind. eapply wp_weaken; [apply Hm|intros a q <-; apply Hf|intros e q Hq; exact Hq].
Qed.
Lemma balanced_catch {A} c (m : action A) h : balanced m → (∀ e, balanced (h e)) → balanced (catch c m h).
Proof.
  intros Hm Hh p. apply wp_catch. eapply wp_weaken; [apply Hm|auto|].
  intros e q Hq. cbv beta. destruct (c _); [rewrite <-Hq; apply Hh|done].
Qed.
Lemma balanced_if {A} (b : bool) (m n : action A) : balanced m → balanced n → balanced (if b then m else n).
Proof. by destruct b. Qed.

End ledger.

(** Follows the shape of the program. *)
Ltac ledger_step :=
  match goal with
  | |- balanced (mbind _ _) => apply balanced_bind; [|intros ?]
  | |- balanced (if _ then _ else _) => apply balanced_if
  | |- balanced (catch _ _ _) => apply balanced_catch; [|intros ?]
  | |- balanced (system _) => apply balanced_system
  | |- balanced (pure _) => apply balanced_pure
  | |- balanced (mret _) => apply balanced_ret
  | |- balanced (throw _ _) => apply balanced_throw
  | |- balanced (throw_if _ _ _) => apply balanced_throw_if
  | |- balanced (match ?x with _ => _ end) => destruct x
  | _ => solve [eauto with ledger]
  end.
Create HintDb ledger discriminated.

Section descriptors.
Context {W : Type} `{KernelLaws W}.
#[local] Abbreviation action := (act (process W)).

Lemma balanced_read_record fuel fd data : balanced (read_record fuel fd data).
Proof. revert data. induction fuel as [|fuel IH]; intros data; simpl; repeat ledger_step; apply IH. Qed.

(** Closing a descriptor the process holds. *)
Lemma wp_os_close X fd p : pr_open p = X ⊎ {[+ fd +]} →
  wp (os_close fd) (λ _ q, pr_open q = X) (λ e q, exn_cls e = OSError ∧ pr_open q = X) p.
Proof.
  intros Hp. assert (pr_open p ∖ {[+ fd +]} = X) as HX by (rewrite Hp; multiset_solver).
  unfold wp, os_close. destruct (k_close fd (pr_kernel p)) as [[[]|e] k] eqn:Hk; simpl; [done|].
  split; [exact (close_raises _ _ _ _ Hk)|done].
Qed.

Lemma balanced_read_open fd : balanced (read_open fd).
Proof.
  unfold read_open. apply balanced_catch; [|intros ?; apply balanced_throw].
  apply balanced_bind; [apply balanced_read_record|]. intros data. apply balanced_bind; [apply balanced_throw_if|].
  intros []. apply balanced_ret.
Qed.

(** What was opened in between is closed, however it ends. *)
Lemma balanced_ensure {A} (m : action A) fd p : balanced m →
  wp (ensure m (os_close fd)) (λ _ q, pr_open q = pr_open p) (λ _ q, pr_open q = pr_open p)
    (Process (pr_kernel p) (pr_open p ⊎ {[+ fd +]})).
Proof.
  intros Hm. specialize (Hm (Process (pr_kernel p) (pr_open p ⊎ {[+ fd +]}))). unfold wp, ensure in *.
  destruct (m _) as [r q]. assert (pr_open q = pr_open p ⊎ {[+ fd +]}) as Hq by (destruct r; exact Hm).
  pose proof (wp_os_close (pr_open p) fd q Hq) as Hc. unfold wp in Hc.
  destruct (os_close fd q) as [[[]|e] q']; [destruct r; exact Hc|exact (proj2 Hc)].
Qed.

Lemma balanced_read_bounded path : balanced (read_bounded path).
Proof.
  intros p. unfold read_bounded. apply wp_bind. unfold as_unavailable, os_open. apply wp_catch.
  unfold wp at 1, on_kernel. destruct (k_open path (pr_kernel p)) as [[fd|e] k] eqn:Hk.
  - pose proof (open_descriptor _ _ _ _ Hk) as Hfd. apply Z.leb_le in Hfd. rewrite Hfd.
    exact (balanced_ensure (read_open fd) fd (Process k (pr_open p)) (balanced_read_open fd)).
  - destruct (bool_decide _); reflexivity.
Qed.

Lemma balanced_read_process_subject pid uid root setuid : balanced (read_process_subject pid uid root setuid).
Proof. unfold read_process_subject. repeat first [apply balanced_read_bounded | ledger_step]. Qed.

Lemma balanced_pidfd_matches pidfd pid : balanced (pidfd_matches pidfd pid).
Proof. unfold pidfd_matches. repeat first [apply balanced_read_bounded | ledger_step]. Qed.
End descriptors.
