(* ===== verification/WorkerProtocol.v ===== *)
(** * Worker messages
    ([src/src/t2_fprint_worker_protocol.py],
    [src/src/t2_fprint_delete_worker_protocol.py],
    [src/src/t2_fprint_deletion_runtime.py], [src/src/t2_ipc_session.py])

    The packets that the fingerprint daemon and its credential-scoped workers
    exchange: how they are built, what a decoder accepts, and that every
    decoder accepts exactly the image of its encoder.

    Members that come from a packet are values of any type.  The members of a
    [DeletionCompletion] have passed [new_completion]. *)
From S2P Require Import Prelude PyValue Sha256 Json JsonFacts Effect MutationJournal UserMapping UserPolicy IdentityInventory.
From S2P Require Import ProcessIdentity.

#[local] Open Scope Z_scope.

Definition MAX_PACKET_BYTES : Z := 4096.
Definition START_KEYS : list string := ["schema_version"; "message"; "finger_name"; "caller"; "account"; "session"].
Definition CALLER_KEYS : list string := ["pid"; "uid"; "start_time_ticks"].
Definition ACCOUNT_KEYS : list string :=
  ["linux_uid"; "generation"; "source"; "protected_password_record"; "home_object_bound"].
Definition SESSION_KEYS : list string :=
  ["binding"; "session_id"; "session_type"; "session_class"; "seat_attached"; "session_start_time_usec";
   "active_local_session"].
Definition UPDATE_KEYS : list string :=
  ["schema_version"; "message"; "status"; "done"; "finger_present"; "finger_needed"].
Definition COMPLETION_KEYS : list string :=
  ["schema_version"; "message"; "finger_name"; "deleted"; "reconciled"; "post_reboot_pending"; "mutation_performed"].
Definition TERMINAL_STATUSES : list string :=
  ["enroll-completed"; "enroll-duplicate"; "enroll-failed"; "enroll-data-full"; "enroll-disconnected";
   "enroll-unknown-error"].
Definition ALLOWED_STATUSES : list string :=
  ["enroll-stage-passed"; "enroll-retry-scan"; "enroll-swipe-too-short"; "enroll-finger-not-centered";
   "enroll-remove-and-retry"] ++ TERMINAL_STATUSES.
Definition ALLOWED_SESSION_TYPES : list string := ["wayland"; "x11"; "tty"].
Definition ALLOWED_SESSION_CLASSES : list string := ["user"; "user-early"; "user-light"; "user-early-light"].

(** ** The evidence a request carries *)

Record AccountEvidence := Account {
  ac_linux_uid : value;
  ac_generation : value;
  ac_source : value;
  ac_protected_password_record : value;
  ac_home_object_bound : value;
}.

Record SessionEvidence := Session {
  se_binding : value;
  se_session_id : value;
  se_session_type : value;
  se_session_class : value;
  se_seat_attached : value;
  se_session_start_time_usec : value;
  se_active_local_session : value;
}.

Record StartRequest := Start {
  st_finger_name : string;
  st_caller : ProcessSubject;
  st_account : AccountEvidence;
  st_session : SessionEvidence;
}.

(** The record of a deletion has the same members. *)
Record DeleteRequest := Deletion {
  de_finger_name : string;
  de_caller : ProcessSubject;
  de_account : AccountEvidence;
  de_session : SessionEvidence;
}.

Definition public_caller (c : ProcessSubject) : value :=
  dict [("pid", ps_pid c); ("uid", ps_uid c); ("start_time_ticks", ps_start_time_ticks c)].
Definition public_account (a : AccountEvidence) : value :=
  dict [("linux_uid", ac_linux_uid a); ("generation", ac_generation a); ("source", ac_source a);
        ("protected_password_record", ac_protected_password_record a);
        ("home_object_bound", ac_home_object_bound a)].
Definition public_session (s : SessionEvidence) : value :=
  dict [("binding", se_binding s); ("session_id", se_session_id s); ("session_type", se_session_type s);
        ("session_class", se_session_class s); ("seat_attached", se_seat_attached s);
        ("session_start_time_usec", se_session_start_time_usec s);
        ("active_local_session", se_active_local_session s)].
Definition start_members (r : StartRequest) : list (string * value) :=
  [("schema_version", VInt 1); ("message", VStr "start"); ("finger_name", VStr (st_finger_name r));
   ("caller", public_caller (st_caller r)); ("account", public_account (st_account r));
   ("session", public_session (st_session r))].
(** [StartRequest.public] *)
Definition start_public (r : StartRequest) : value := dict (start_members r).

(** [v[k] = x] on a dictionary. *)
Definition set_item (v : value) (k : string) (x : value) : value :=
  match v with VDict d => VDict (<[k := x]> d) | _ => v end.

Definition as_start (r : DeleteRequest) : StartRequest :=
  Start (de_finger_name r) (de_caller r) (de_account r) (de_session r).
(** [DeleteRequest.public] *)
Definition request_public (r : DeleteRequest) : value :=
  set_item (start_public (as_start r)) "message" (VStr "delete-one").

(** ** Packets *)

#[local] Abbreviation reject b msg := (fail_if b FprintWorkerProtocolError msg).
#[local] Abbreviation reject_delete b msg := (fail_if b FprintDeleteWorkerProtocolError msg).

Definition packet_size (data : string) : bool :=
  (1 <=? Z.of_nat (String.length data)) && (Z.of_nat (String.length data) <=? MAX_PACKET_BYTES).

(** [_encode] *)
Definition encode_packet (v : value) : result string :=
  match dumps v with
  | Some data => _ ← reject (negb (packet_size data)) "worker packet size is invalid"; Ok data
  | None => raise FprintWorkerProtocolError "worker packet cannot be encoded"
  end.

(** [_decode].  A refusal by the parser has one message here: a duplicate key
    and a non-finite number have messages of their own in the source, of the
    same class.  A byte above 127 and a fraction denote values outside the
    model. *)
Definition decode_packet (data : string) : result value :=
  _ ← reject (negb (packet_size data) || has_nul data) "worker packet size is invalid";
  match loads_with object_without_duplicate_keys data with
  | Some v => _ ← reject (negb (is_dict v)) "worker packet is not an object"; Ok v
  | None => raise FprintWorkerProtocolError "worker packet is not strict JSON"
  end.

(** ** Start requests *)

Definition account_error : string := "Linux account collector returned invalid evidence".
(** [t2_ipc_session.validate_account] *)
Definition validate_account (a : AccountEvidence) (uid : value) : result unit :=
  _ ← fail_if (ac_linux_uid a !=? uid || negb (eq_str (ac_source a) "local-files-v2")
               || negb (is_true (ac_protected_password_record a)) || negb (is_true (ac_home_object_bound a)))
        IPCSessionError account_error;
  except (λ c, bool_decide (c = UserPolicyError)) (λ _, Exn IPCSessionError account_error)
    (_ ← policy_digest (ac_generation a) "caller account generation"; Ok tt).

Definition session_char (c : ascii) : bool := is_alnum_char c || bool_decide (c = "_"%char ∨ c = "."%char ∨ c = "-"%char).
(** [SESSION_ID.fullmatch] on a text. *)
Definition session_id (s : string) : bool :=
  all_chars session_char s && (1 <=? Z.of_nat (String.length s)) && (Z.of_nat (String.length s) <=? 64).
Definition match_session_id (v : value) : result bool :=
  match v with VStr s => Ok (session_id s) | _ => raise TypeError "expected string or bytes-like object" end.

Definition between (v : value) (low high : Z) : bool := is_int v && (low <=? int_value v) && (int_value v <=? high).

(** [_validate_request] *)
Definition validate_request (r : StartRequest) : result unit :=
  let caller := st_caller r in
  let account := st_account r in
  let session := st_session r in
  _ ← except (λ c, bool_decide (c = IPCSessionError))
        (λ _, Exn FprintWorkerProtocolError "worker caller/account evidence is invalid")
        (validate_account account (ps_uid caller));
  bad ← Ok (negb (between (ps_pid caller) 1 MAX_PID)
            || negb (between (ps_uid caller) 1 (2 ^ 32 - 2))
            || negb (between (ps_start_time_ticks caller) 1 (2 ^ 64 - 1))
            || negb (bool_decide (st_finger_name r ∈ FINGER_NAMES))
            || ac_linux_uid account !=? ps_uid caller
            || negb (eq_str (ac_source account) "local-files-v2")
            || negb (is_true (ac_protected_password_record account))
            || negb (is_true (ac_home_object_bound account)))
        ||! not_in_names (se_binding session) ["pidfd-session"; "uid-active-session"]
        ||! (negb <$> match_session_id (se_session_id session))
        ||! not_in_names (se_session_type session) ALLOWED_SESSION_TYPES
        ||! not_in_names (se_session_class session) ALLOWED_SESSION_CLASSES
        ||! Ok (negb (is_bool (se_seat_attached session))
                || negb (is_int (se_session_start_time_usec session))
                || (int_value (se_session_start_time_usec session) <=? 0)
                || negb (is_true (se_active_local_session session)));
  reject bad "worker start request evidence is inconsistent".

Definition encode_start (r : StartRequest) : result string :=
  _ ← validate_request r;
  encode_packet (start_public r).

(** [value.get("schema_version") != 1 or type(...) is not int or
    value.get("message") != message] *)
Definition envelope (v : value) (message : string) : bool :=
  eq_str v@["message"] message && between v@["schema_version"] 1 1.

Definition start_of (v : value) : StartRequest :=
  let caller := v@["caller"] in
  let account := v@["account"] in
  let session := v@["session"] in
  Start (str_value v@["finger_name"])
    (Subject caller@["pid"] caller@["uid"] caller@["start_time_ticks"] VNone)
    (Account account@["linux_uid"] account@["generation"] account@["source"]
       account@["protected_password_record"] account@["home_object_bound"])
    (Session session@["binding"] session@["session_id"] session@["session_type"] session@["session_class"]
       session@["seat_attached"] session@["session_start_time_usec"] session@["active_local_session"]).

Definition decode_start (data : string) : result StartRequest :=
  v ← decode_packet data;
  _ ← reject (negb (has_keys v START_KEYS) || negb (envelope v "start") || negb (is_str v@["finger_name"])
              || negb (has_keys v@["caller"] CALLER_KEYS) || negb (has_keys v@["account"] ACCOUNT_KEYS)
              || negb (has_keys v@["session"] SESSION_KEYS)) "worker start request schema is invalid";
  let request := start_of v in
  _ ← validate_request request;
  encoded ← encode_start request;
  _ ← reject (negb (String.eqb encoded data)) "worker start request is not canonical";
  Ok request.

(** ** Updates *)

Definition CANCEL_PACKET : string :=
  String "{" (quoted "message" (":" +:+ quoted "cancel" ("," +:+ quoted "schema_version" ":1}"))).

(** [t2_fprint_enrollment_runtime.EnrollmentUpdate] *)
Record EnrollmentUpdate := Update {
  up_status : value;
  up_done : value;
  up_finger_present : value;
  up_finger_needed : value;
}.

(** [_validate_update]; the comparison with a non-Boolean [done] is not
    reached. *)
Definition validate_update (u : EnrollmentUpdate) : result unit :=
  unknown ← Ok (negb (is_none (up_status u))) &&! not_in_names (up_status u) ALLOWED_STATUSES;
  _ ← reject unknown "worker update status is invalid";
  bad ← Ok (negb (is_bool (up_done u)) || negb (is_bool (up_finger_present u)) || negb (is_bool (up_finger_needed u))
            || is_true (up_finger_present u) && is_true (up_finger_needed u))
        ||! ((λ terminal, negb (Bool.eqb (is_true (up_done u)) terminal)) <$> in_names (up_status u) TERMINAL_STATUSES)
        ||! Ok (is_true (up_done u) && (is_true (up_finger_present u) || is_true (up_finger_needed u)));
  reject bad "worker update state is inconsistent".

Definition update_public (u : EnrollmentUpdate) : value :=
  dict [("schema_version", VInt 1); ("message", VStr "update"); ("status", up_status u); ("done", up_done u);
        ("finger_present", up_finger_present u); ("finger_needed", up_finger_needed u)].

Definition encode_update (u : EnrollmentUpdate) : result string :=
  _ ← validate_update u;
  encode_packet (update_public u).

Definition update_of (v : value) : EnrollmentUpdate :=
  Update v@["status"] v@["done"] v@["finger_present"] v@["finger_needed"].

Definition decode_update (data : string) : result EnrollmentUpdate :=
  v ← decode_packet data;
  _ ← reject (negb (has_keys v UPDATE_KEYS) || negb (envelope v "update")) "worker update schema is invalid";
  let update := update_of v in
  _ ← validate_update update;
  encoded ← encode_update update;
  _ ← reject (negb (String.eqb encoded data)) "worker update is not canonical";
  Ok update.

(** ** Deletion requests *)

Definition protocol_error (c : exn_class) : bool := bool_decide (c = FprintWorkerProtocolError).

Definition encode_request (r : DeleteRequest) : result string :=
  except protocol_error (λ _, Exn FprintDeleteWorkerProtocolError "delete worker request is invalid")
    (_ ← validate_request (as_start r);
     encode_packet (request_public r)).

Definition decode_request (data : string) : result DeleteRequest :=
  '(v, request) ← except protocol_error
       (λ _, Exn FprintDeleteWorkerProtocolError "delete worker request schema is invalid")
       (v ← decode_packet data;
        _ ← reject_delete (negb (eq_str v@["message"] "delete-one")) "delete worker request message is invalid";
        translated ← encode_packet (set_item v "message" (VStr "start"));
        start ← decode_start translated;
        Ok (v, Deletion (st_finger_name start) (st_caller start) (st_account start) (st_session start)));
  _ ← reject_delete (negb (has_keys v START_KEYS)) "delete worker request is not canonical";
  encoded ← encode_request request;
  _ ← reject_delete (negb (String.eqb encoded data)) "delete worker request is not canonical";
  Ok request.

(** ** Completions ([t2_fprint_deletion_runtime.py]) *)

Definition FAILURE_PACKET : string :=
  String "{" (quoted "message" (":" +:+ quoted "delete-failed" ("," +:+ quoted "schema_version" ":1}"))).

Record DeletionCompletion := Completion {
  co_finger_name : value;
  co_deleted : value;
  co_reconciled : value;
  co_post_reboot_pending : value;
  co_mutation_performed : value;
}.

(** The constructor with the checks of [__post_init__]. *)
Definition new_completion (c : DeletionCompletion) : result DeletionCompletion :=
  let flags := [co_deleted c; co_reconciled c; co_post_reboot_pending c; co_mutation_performed c] in
  unknown ← not_in_names (co_finger_name c) FINGER_NAMES;
  _ ← fail_if unknown FprintDeletionRuntimeError "deletion completion finger name is invalid";
  _ ← fail_if (negb (forallb is_bool flags)) FprintDeletionRuntimeError "deletion completion flags must be Boolean";
  _ ← fail_if (negb (forallb is_true flags)) FprintDeletionRuntimeError
        "deletion completion does not prove reconciled mutation";
  Ok c.

Definition completion_public (c : DeletionCompletion) : value :=
  dict [("schema_version", VInt 1); ("message", VStr "delete-completed"); ("finger_name", co_finger_name c);
        ("deleted", co_deleted c); ("reconciled", co_reconciled c);
        ("post_reboot_pending", co_post_reboot_pending c); ("mutation_performed", co_mutation_performed c)].

Definition encode_completion (c : DeletionCompletion) : result string :=
  except protocol_error (λ _, Exn FprintDeleteWorkerProtocolError "delete worker completion cannot be encoded")
    (encode_packet (completion_public c)).

Definition completion_of (v : value) : DeletionCompletion :=
  Completion v@["finger_name"] v@["deleted"] v@["reconciled"] v@["post_reboot_pending"] v@["mutation_performed"].

Definition decode_completion (data : string) : result DeletionCompletion :=
  _ ← fail_if (String.eqb data FAILURE_PACKET) FprintDeleteWorkerFailed "delete worker reported failure";
  completion ← except (λ c, protocol_error c || bool_decide (c = FprintDeletionRuntimeError))
    (λ _, Exn FprintDeleteWorkerProtocolError "delete worker completion is invalid")
    (v ← decode_packet data;
     _ ← reject_delete (negb (has_keys v COMPLETION_KEYS) || negb (envelope v "delete-completed"))
           "delete worker completion schema is invalid";
     new_completion (completion_of v));
  encoded ← encode_completion completion;
  _ ← reject_delete (negb (String.eqb encoded data)) "delete worker completion is not canonical";
  Ok completion.

(** * Facts *)

Lemma dumps_has_nul v t : dumps v = Some t → has_nul t = false.
Proof.
  intros Ht%dumps_printable. unfold has_nul. rewrite (printable_all _ t); [done| |exact Ht].
  unfold printable. intros c Hc. lia.
Qed.

Lemma encode_packet_Ok v data : encode_packet v = Ok data ↔ dumps v = Some data ∧ packet_size data = true.
Proof.
  unfold encode_packet. destruct (dumps v) as [t|]; [|naive_solver].
  split; [intros H; ok_inv; done|intros [[= ->] Hs]]. by rewrite Hs.
Qed.

(** A packet is read back as the dictionary it was built from. *)
Lemma decode_encode_packet d data : encode_packet (VDict d) = Ok data → decode_packet data = Ok (VDict d).
Proof.
  intros [Hd Hs]%encode_packet_Ok. unfold decode_packet.
  rewrite Hs, (dumps_has_nul _ _ Hd). simpl.
  by rewrite (loads_with_dumps_text _ object_without_duplicate_keys_dict _ _ Hd).
Qed.

Lemma encode_packet_inj v w data : encode_packet v = Ok data → encode_packet w = Ok data → v = w.
Proof. intros [Hv _]%encode_packet_Ok [Hw _]%encode_packet_Ok. exact (dumps_inj _ _ _ Hv Hw). Qed.

#[local] Opaque dumps loads_with.

Lemma start_of_public r : ps_setuid_real_uid (st_caller r) = VNone → start_of (start_public r) = r.
Proof. by destruct r as [name [pid uid ticks setuid] account session]; simpl; intros ->; destruct account, session. Qed.

Lemma start_schema r :
  negb (has_keys (start_public r) START_KEYS) || negb (envelope (start_public r) "start")
  || negb (is_str (start_public r)@["finger_name"]) || negb (has_keys (start_public r)@["caller"] CALLER_KEYS)
  || negb (has_keys (start_public r)@["account"] ACCOUNT_KEYS)
  || negb (has_keys (start_public r)@["session"] SESSION_KEYS) = false.
Proof. by destruct r. Qed.

Lemma decode_start_image data r :
  decode_start data = Ok r ↔ encode_start r = Ok data ∧ ps_setuid_real_uid (st_caller r) = VNone.
Proof.
  unfold decode_start. split.
  - intros (v & _ & ([] & _ & ([] & _ & (t & Ht & ([] & Hc & H)%bind_Ok)%bind_Ok)%bind_Ok)%bind_Ok)%bind_Ok.
    apply fail_if_Ok, negb_false_iff, String.eqb_eq in Hc as <-. apply Ok_inj in H as <-. by split.
  - intros [He Hs]. pose proof He as Hc. unfold encode_start in He. apply bind_Ok in He as ([] & Hv & He).
    rewrite (decode_encode_packet _ _ He). cbn [mbind result_bind].
    fold (dict (start_members r)). fold (start_public r). rewrite start_schema, start_of_public by done.
    cbn [fail_if mbind result_bind]. rewrite Hv. cbn [mbind result_bind]. rewrite Hc. cbn [mbind result_bind].
    by rewrite String.eqb_refl.
Qed.

Lemma update_of_public u : update_of (update_public u) = u.
Proof. by destruct u. Qed.
Lemma update_schema u : negb (has_keys (update_public u) UPDATE_KEYS) || negb (envelope (update_public u) "update") = false.
Proof. by destruct u. Qed.

Lemma decode_update_image data u : decode_update data = Ok u ↔ encode_update u = Ok data.
Proof.
  unfold decode_update. split.
  - intros (v & _ & ([] & _ & ([] & _ & (t & Ht & ([] & Hc & H)%bind_Ok)%bind_Ok)%bind_Ok)%bind_Ok)%bind_Ok.
    apply fail_if_Ok, negb_false_iff, String.eqb_eq in Hc as <-. by apply Ok_inj in H as <-.
  - intros He. pose proof He as Hc. unfold encode_update in He. apply bind_Ok in He as ([] & Hv & He).
    rewrite (decode_encode_packet _ _ He). cbn [mbind result_bind].
    fold (dict [("schema_version", VInt 1); ("message", VStr "update"); ("status", up_status u);
      ("done", up_done u); ("finger_present", up_finger_present u); ("finger_needed", up_finger_needed u)]).
    fold (update_public u). rewrite update_schema, update_of_public.
    cbn [fail_if mbind result_bind]. rewrite Hv. cbn [mbind result_bind]. rewrite Hc. cbn [mbind result_bind].
    by rewrite String.eqb_refl.
Qed.

Lemma completion_of_public c : completion_of (completion_public c) = c.
Proof. by destruct c. Qed.
Lemma completion_schema c :
  negb (has_keys (completion_public c) COMPLETION_KEYS) || negb (envelope (completion_public c) "delete-completed") = false.
Proof. by destruct c. Qed.

(** The failure packet is not a completion. *)
Lemma failure_packet_loads : dumps (dict [("message", VStr "delete-failed"); ("schema_version", VInt 1)]) = Some FAILURE_PACKET.
Proof. vm_compute. reflexivity. Qed.
Lemma completion_not_failure c data : encode_packet (completion_public c) = Ok data → String.eqb data FAILURE_PACKET = false.
Proof.
  intros [Hd _]%encode_packet_Ok. apply String.eqb_neq. intros ->.
  pose proof (dumps_inj _ _ _ Hd failure_packet_loads) as H.
  assert ((completion_public c)@["message"] = VStr "delete-failed") as Hm by (rewrite H; reflexivity).
  discriminate Hm.
Qed.

Lemma decode_completion_image data c :
  decode_completion data = Ok c ↔ new_completion c = Ok c ∧ encode_completion c = Ok data.
Proof.
  unfold decode_completion. split.
  - intros ([] & _ & (x & Hx%except_Ok & (t & Ht & ([] & Hc & H)%bind_Ok)%bind_Ok)%bind_Ok)%bind_Ok.
    apply fail_if_Ok, negb_false_iff, String.eqb_eq in Hc as <-. apply Ok_inj in H as <-.
    split; [|exact Ht]. apply bind_Ok in Hx as (v & _ & ([] & _ & Hx)%bind_Ok).
    assert (x = completion_of v) as ->; [|done].
    unfold new_completion in Hx. by repeat apply bind_Ok in Hx as (? & _ & Hx); apply Ok_inj in Hx.
  - intros [Hn Hc]. pose proof Hc as He%except_Ok. rewrite (completion_not_failure _ _ He).
    cbn [fail_if mbind result_bind]. rewrite (decode_encode_packet _ _ He). cbn [mbind result_bind].
    fold (dict [("schema_version", VInt 1); ("message", VStr "delete-completed"); ("finger_name", co_finger_name c);
        ("deleted", co_deleted c); ("reconciled", co_reconciled c);
        ("post_reboot_pending", co_post_reboot_pending c); ("mutation_performed", co_mutation_performed c)]).
    fold (completion_public c). rewrite completion_schema, completion_of_public.
    cbn [fail_if mbind result_bind]. rewrite Hn. cbn [except mbind result_bind]. rewrite Hc. cbn [mbind result_bind].
    by rewrite String.eqb_refl.
Qed.

(** ** The size of a dictionary *)

Definition member_size (kt : string * string) : nat := S (String.length (member_text kt)).

Lemma member_size_le k s t : (String.length s ≤ String.length t)%nat → (member_size (k, s) ≤ member_size (k, t))%nat.
Proof.
  intros H. assert (∀ u, String.length (member_text (k, u)) = (String.length (quoted k "") + S (String.length u))%nat) as E.
  { intros u. unfold member_text. cbn [fst snd]. change (S (String.length u)) with (String.length (String ":" u)).
    by rewrite <-str_length_app, quoted_app. }
  unfold member_size. rewrite !E. lia.
Qed.

Lemma join_length ts :
  (String.length (join "," ts) + 1 = sum_list_with (λ t, S (String.length t)) ts + (if ts is [] then 1 else 0))%nat.
Proof.
  induction ts as [|t [|u ts] IH]; [done|simpl; lia|]. rewrite join_cons, !str_length_app.
  change (sum_list_with _ (t :: u :: ts)) with (S (String.length t) + sum_list_with (λ t, S (String.length t)) (u :: ts))%nat.
  change (String.length ",") with 1%nat. simpl in IH |- *. lia.
Qed.

Lemma sum_member_texts kts :
  sum_list_with (λ t, S (String.length t)) (map member_text kts) = sum_list_with member_size kts.
Proof. induction kts as [|kt kts IH]; [done|]. simpl. by rewrite IH. Qed.

Lemma dict_text_length m : m ≠ ∅ →
  (String.length (dict_text m) = 1 + sum_list_with member_size (map_to_list m))%nat.
Proof.
  intros Hm. unfold dict_text. cbn [String.length]. rewrite str_length_app. change (String.length "}") with 1%nat.
  pose proof (join_length (map member_text (merge_sort key_le (map_to_list m)))) as J.
  rewrite sum_member_texts in J.
  rewrite (sum_list_with_Permutation_proper member_size _ _ (merge_sort_Permutation key_le (map_to_list m))) in J.
  assert (length (merge_sort key_le (map_to_list m)) ≠ 0%nat) as Hl.
  { rewrite (Permutation_length (merge_sort_Permutation key_le (map_to_list m))), length_map_to_list.
    by intros ?%map_size_empty_iff. }
  destruct (merge_sort key_le (map_to_list m)) as [|kt kts]; [done|]. cbn [map] in *. rewrite J, Nat.add_0_r. reflexivity.
Qed.

Lemma insert_size (m : gmap string string) k t :
  sum_list_with member_size (map_to_list (<[k:=t]> m))
  = (member_size (k, t) + sum_list_with member_size (map_to_list (delete k m)))%nat.
Proof.
  rewrite <-insert_delete_eq.
  by rewrite (sum_list_with_Permutation_proper member_size _ _ (map_to_list_insert _ k t (lookup_delete_eq m k))).
Qed.

(** Replacing a member by one whose text is not longer. *)
Lemma dict_text_insert_le (m : gmap string string) k s t : (String.length s ≤ String.length t)%nat →
  (String.length (dict_text (<[k:=s]> m)) ≤ String.length (dict_text (<[k:=t]> m)))%nat.
Proof.
  intros H%(member_size_le k). rewrite !dict_text_length, !insert_size by apply insert_non_empty. lia.
Qed.

Lemma dumps_dict_members (d : gmap string value) t : dumps (VDict d) = Some t ↔
  map_Forall (λ _ x, is_Some (dumps x)) d ∧ t = dict_text (omap dumps d).
Proof.
  cbn [dumps]. unfold all_some.
  assert (omap id (dumps <$> d) = omap dumps d) as E.
  { apply map_eq. intros k. rewrite !lookup_omap, lookup_fmap. by destruct (d !! k). }
  rewrite E. case_bool_decide as H; simpl; split.
  - intros [= <-]. split; [|done]. by rewrite map_Forall_fmap in H.
  - by intros [_ ->].
  - done.
  - intros [Hd _]. destruct H. by rewrite map_Forall_fmap.
Qed.

Lemma dumps_set_shorter (d : gmap string value) k x y s t text :
  dumps y = Some s → dumps x = Some t → (String.length s ≤ String.length t)%nat →
  dumps (VDict (<[k:=x]> d)) = Some text →
  ∃ text', dumps (VDict (<[k:=y]> d)) = Some text' ∧ (String.length text' ≤ String.length text)%nat.
Proof.
  intros Hy Hx Hl [Hd ->]%dumps_dict_members. exists (dict_text (omap dumps (<[k:=y]> d))). split.
  - apply dumps_dict_members. split; [|done]. intros j z Hz. destruct (decide (j = k)) as [->|Hj].
    + rewrite lookup_insert_eq in Hz. by simplify_eq.
    + apply (Hd j z). by rewrite lookup_insert_ne in Hz |- *.
  - rewrite !(omap_insert_Some dumps d k _ _) by done. by apply dict_text_insert_le.
Qed.

(** ** Deletion requests *)

Lemma request_public_start r :
  set_item (request_public r) "message" (VStr "start") = start_public (as_start r).
Proof. by destruct r. Qed.

Lemma request_packet_start r data : encode_packet (request_public r) = Ok data →
  ∃ translated, encode_packet (start_public (as_start r)) = Ok translated.
Proof.
  intros [Hd Hs]%encode_packet_Ok. rewrite <-request_public_start.
  unfold request_public in *. destruct (start_public (as_start r)) as [| | | | | |d] eqn:E; try discriminate E.
  cbn [set_item] in *. rewrite insert_insert_eq.
  destruct (dumps_set_shorter d "message" (VStr "delete-one") (VStr "start") _ _ _ eq_refl eq_refl
    ltac:(apply leb_complete; vm_compute; reflexivity) Hd) as (t & Ht & Hl).
  exists t. apply encode_packet_Ok. split; [exact Ht|]. unfold packet_size in *.
  destruct (dumps_dict_head _ _ Ht) as [t' ->]. cbn [String.length] in *.
  apply andb_true_iff in Hs as [_ Hs%Z.leb_le]. apply andb_true_iff. split; apply Z.leb_le; clear -Hs Hl; lia.
Qed.

Lemma request_schema r :
  eq_str (request_public r)@["message"] "delete-one" = true ∧ has_keys (request_public r) START_KEYS = true
  ∧ is_dict (request_public r) = true.
Proof. by destruct r. Qed.

Lemma decode_request_image data r :
  decode_request data = Ok r ↔ encode_request r = Ok data ∧ ps_setuid_real_uid (de_caller r) = VNone.
Proof.
  unfold decode_request. split.
  - intros ([v q] & Hx%except_Ok & ([] & _ & (t & Ht & ([] & Hc & H)%bind_Ok)%bind_Ok)%bind_Ok)%bind_Ok.
    apply fail_if_Ok, negb_false_iff, String.eqb_eq in Hc as <-. apply Ok_inj in H as <-.
    split; [exact Ht|].
    apply bind_Ok in Hx as (w & _ & ([] & _ & (u & _ & (s & Hs & Hx)%bind_Ok)%bind_Ok)%bind_Ok).
    apply Ok_inj in Hx. injection Hx as _ <-. by apply decode_start_image in Hs as [_ ?].
  - intros [He Hs]. pose proof He as Hp. unfold encode_request in Hp. rewrite except_Ok, bind_Ok in Hp.
    destruct Hp as ([] & Hv & Hp).
    destruct (request_packet_start r data Hp) as [t Ht].
    destruct (request_schema r) as (Hm & Hk & Hd).
    assert (decode_packet data = Ok (request_public r)) as ->.
    { destruct (request_public r); try discriminate Hd. exact (decode_encode_packet _ _ Hp). }
    cbn [mbind result_bind]. rewrite Hm, request_public_start, Ht. cbn [negb fail_if mbind result_bind].
    assert (decode_start t = Ok (as_start r)) as ->.
    { apply decode_start_image. split; [|exact Hs]. unfold encode_start. rewrite Hv. exact Ht. }
    cbn [mbind result_bind except]. rewrite Hk. cbn [negb fail_if mbind result_bind].
    assert (Deletion (st_finger_name (as_start r)) (st_caller (as_start r)) (st_account (as_start r))
      (st_session (as_start r)) = r) as -> by (by destruct r).
    rewrite He. cbn [mbind result_bind]. by rewrite String.eqb_refl.
Qed.

(** ** What a valid message says *)

Lemma between_true v low high : between v low high = true ↔ ∃ z, v = VInt z ∧ low <= z <= high.
Proof.
  unfold between. destruct v; simpl; try naive_solver. split.
  - intros H. exists z. split; [done|lia].
  - intros (? & [= <-] & ?). lia.
Qed.

(** The evidence a request must carry. *)
Record caller_ok (c : ProcessSubject) : Prop := {
  caller_pid : ∃ pid, ps_pid c = VInt pid ∧ 1 <= pid <= MAX_PID;
  caller_uid : ∃ uid, ps_uid c = VInt uid ∧ 1 <= uid <= 2 ^ 32 - 2;
  caller_start_time : ∃ ticks, ps_start_time_ticks c = VInt ticks ∧ 1 <= ticks <= 2 ^ 64 - 1;
}.
Record account_ok (a : AccountEvidence) (uid : value) : Prop := {
  account_uid : ac_linux_uid a ==? uid = true;
  account_generation : ∃ s, ac_generation a = VStr s ∧ sha256_text s;
  account_source : ac_source a = VStr "local-files-v2";
  account_password : ac_protected_password_record a = VBool true;
  account_home : ac_home_object_bound a = VBool true;
}.
Record session_ok (s : SessionEvidence) : Prop := {
  session_binding : ∃ b, se_binding s = VStr b ∧ b ∈ ["pidfd-session"; "uid-active-session"];
  session_name : ∃ n, se_session_id s = VStr n ∧ session_id n = true;
  session_kind : ∃ k, se_session_type s = VStr k ∧ k ∈ ALLOWED_SESSION_TYPES;
  session_sort : ∃ c, se_session_class s = VStr c ∧ c ∈ ALLOWED_SESSION_CLASSES;
  session_seat : ∃ b, se_seat_attached s = VBool b;
  session_start : ∃ z, se_session_start_time_usec s = VInt z ∧ 0 < z;
  session_active : se_active_local_session s = VBool true;
}.
Record start_ok (r : StartRequest) : Prop := {
  start_finger : st_finger_name r ∈ FINGER_NAMES;
  start_caller : caller_ok (st_caller r);
  start_account : account_ok (st_account r) (ps_uid (st_caller r));
  start_session : session_ok (st_session r);
}.

Lemma match_session_id_Ok v b : match_session_id v = Ok b ↔ ∃ s, v = VStr s ∧ b = session_id s.
Proof. destruct v; simpl; naive_solver. Qed.

Lemma validate_account_Ok a uid u : validate_account a uid = Ok u ↔ account_ok a uid.
Proof.
  unfold validate_account. split.
  - intros ([] & Hc & Hg%except_Ok)%bind_Ok. apply bind_Ok in Hg as (s & [Hg Hs]%policy_digest_Ok & _). ok_inv.
    constructor; try (by apply eq_str_true); try (by apply is_true_eq); eauto.
  - intros [H1 (s & H2 & Hs) H3 H4 H5]. rewrite H1, H3, H4, H5, eq_str_same. cbn [negb orb is_true fail_if mbind result_bind].
    assert (policy_digest (ac_generation a) "caller account generation" = Ok s) as -> by (by apply policy_digest_Ok).
    by destruct u.
Qed.

Lemma session_conditions s :
  (Ok false ||! not_in_names (se_binding s) ["pidfd-session"; "uid-active-session"]
   ||! (negb <$> match_session_id (se_session_id s))
   ||! not_in_names (se_session_type s) ALLOWED_SESSION_TYPES
   ||! not_in_names (se_session_class s) ALLOWED_SESSION_CLASSES
   ||! Ok (negb (is_bool (se_seat_attached s)) || negb (is_int (se_session_start_time_usec s))
           || (int_value (se_session_start_time_usec s) <=? 0) || negb (is_true (se_active_local_session s))))%py
  = Ok false ↔ session_ok s.
Proof.
  rewrite !or_else_false, !not_in_names_false. split.
  - intros (((((_ & Hb) & Hi) & Ht) & Hc) & Hf).
    apply fmap_Ok in Hi as (b & (n & En & ->)%match_session_id_Ok & Hn%eq_sym%negb_false_iff).
    apply Ok_inj in Hf. rewrite !orb_false_iff, !negb_false_iff in Hf. destruct Hf as (((H1 & H2) & H3) & H4).
    destruct (se_seat_attached s) eqn:Es; try discriminate. destruct (se_session_start_time_usec s) eqn:Eu; try discriminate.
    constructor; eauto; [|by apply is_true_eq]. rewrite Eu. eexists. split; [done|]. apply Z.leb_gt in H3. exact H3.
  - intros [Hb (n & En & Hn) Ht Hc [b Es] (z & Eu & Hz) Ha].
    rewrite En, Es, Eu, Ha. simpl. rewrite Hn. simpl. repeat split; try done.
    by rewrite (proj2 (Z.leb_gt z 0) Hz).
Qed.

Lemma start_request_Ok r u : validate_request r = Ok u ↔ start_ok r.
Proof.
  unfold validate_request. rewrite bind_Ok. split.
  - intros ([] & Ha & (b & Hb & Hr)%bind_Ok). rewrite except_Ok, validate_account_Ok in Ha.
    apply fail_if_Ok in Hr as ->. rewrite !or_else_false in Hb.
    destruct Hb as (((((Hp & B1) & B2) & B3) & B4) & B5). apply Ok_inj in Hp.
    rewrite !orb_false_iff, !negb_false_iff in Hp. destruct Hp as (((((((P1 & P2) & P3) & P4%bool_decide_eq_true) & _) & _) & _) & _).
    constructor; [done| |done|].
    + constructor; by apply between_true.
    + apply session_conditions. rewrite !or_else_false. by repeat split.
  - intros [Hf [Hp Hu Ht] Ha Hs%session_conditions]. exists tt. split; [by rewrite except_Ok, validate_account_Ok|].
    apply bind_Ok. exists false. split; [|by destruct u]. rewrite <-Hs. do 5 f_equal. f_equal.
    apply between_true in Hp, Hu, Ht. rewrite Hp, Hu, Ht, (bool_decide_eq_true_2 _ Hf).
    destruct Ha as [-> _ -> -> ->]. by rewrite eq_str_same.
Qed.

(** A packet that does not end the enrolment, and one that does. *)
Inductive update_ok : EnrollmentUpdate → Prop :=
  | pending_update status (present needed : bool) :
      (status = VNone ∨ ∃ s, status = VStr s ∧ s ∈ ALLOWED_STATUSES ∧ s ∉ TERMINAL_STATUSES) →
      present && needed = false → update_ok (Update status (VBool false) (VBool present) (VBool needed))
  | final_update s : s ∈ TERMINAL_STATUSES → update_ok (Update (VStr s) (VBool true) (VBool false) (VBool false)).

Lemma terminal_allowed s : s ∈ TERMINAL_STATUSES → s ∈ ALLOWED_STATUSES.
Proof. intros H. unfold ALLOWED_STATUSES. apply elem_of_app. by right. Qed.

Lemma known_status v : (Ok (negb (is_none v)) &&! not_in_names v ALLOWED_STATUSES)%py = Ok false ↔
  v = VNone ∨ ∃ s, v = VStr s ∧ s ∈ ALLOWED_STATUSES.
Proof.
  rewrite <-(not_in_names_false v). destruct v; simpl; naive_solver.
Qed.

Lemma validate_update_Ok x u : validate_update x = Ok u ↔ update_ok x.
Proof.
  destruct x as [status done present needed]. unfold validate_update. cbn [up_status up_done up_finger_present up_finger_needed].
  rewrite bind_Ok. split.
  - intros (b & Hb & ([] & ->%fail_if_Ok & (bad & Hbad & ->%fail_if_Ok)%bind_Ok)%bind_Ok).
    apply known_status in Hb. rewrite !or_else_false in Hbad. destruct Hbad as ((H1%Ok_inj & H2) & H3%Ok_inj).
    rewrite !orb_false_iff, !negb_false_iff in H1. destruct H1 as (((B1 & B2) & B3) & B4).
    destruct done as [|done| | | | |], present as [|present| | | | |], needed as [|needed| | | | |]; try discriminate.
    apply fmap_Ok in H2 as (t & Ht & E%eq_sym%negb_false_iff%eqb_prop). simpl in E. subst t.
    destruct done; simpl in H3.
    + apply in_names_true in Ht as (s & -> & Hs). destruct present, needed; try discriminate. by constructor.
    + constructor; [|exact B4]. destruct Hb as [|(s & -> & Hs)]; [by left|right]. exists s. split_and!; [done..|].
      intros Hn. simpl in Ht. by rewrite bool_decide_eq_true_2 in Ht.
  - intros Hx. exists false. split; [|apply bind_Ok; exists tt; split; [done|]; apply bind_Ok; exists false; split; [|by destruct u]].
    + apply known_status. inversion Hx; subst; naive_solver eauto using terminal_allowed.
    + inversion Hx as [? p n Hs Hpn|s Hs]; subst; simpl.
      * rewrite Hpn. destruct Hs as [->|(s & -> & _ & Hn)]; simpl; [done|]. by rewrite bool_decide_eq_false_2.
      * by rewrite bool_decide_eq_true_2.
Qed.

(** Every valid update fits a packet. *)
Lemma update_encodes u : update_ok u → ∃ data, encode_update u = Ok data.
Proof.
  intros Hu. unfold encode_update. rewrite (proj2 (validate_update_Ok u tt) Hu). cbn [mbind result_bind].
  destruct Hu as [status present needed Hs _|s Hs].
  - destruct Hs as [->|(s & -> & Hs & _)]; [destruct present, needed; eexists; vm_compute; reflexivity|].
    unfold ALLOWED_STATUSES, TERMINAL_STATUSES in Hs. cbn [app] in Hs.
    repeat (apply elem_of_cons in Hs as [->|Hs]; [destruct present, needed; eexists; vm_compute; reflexivity|]).
    by apply not_elem_of_nil in Hs.
  - unfold TERMINAL_STATUSES in Hs. repeat (apply elem_of_cons in Hs as [->|Hs]; [eexists; vm_compute; reflexivity|]).
    by apply not_elem_of_nil in Hs.
Qed.

Lemma new_completion_Ok c x : new_completion c = Ok x ↔ x = c ∧ ∃ name, name ∈ FINGER_NAMES ∧
  c = Completion (VStr name) (VBool true) (VBool true) (VBool true) (VBool true).
Proof.
  destruct c as [name d r p m]. unfold new_completion. cbn [co_finger_name co_deleted co_reconciled co_post_reboot_pending co_mutation_performed].
  rewrite bind_Ok. split.
  - intros (b & Hb & ([] & ->%fail_if_Ok & ([] & _ & ([] & H & Hx)%bind_Ok)%bind_Ok)%bind_Ok).
    apply not_in_names_false in Hb as (s & -> & Hs). apply fail_if_Ok, negb_false_iff in H. simpl in H. ok_inv.
    split; [done|]. exists s. split; [done|].
    repeat match goal with T : is_true ?v = true |- _ => apply is_true_eq in T as -> end. done.
  - intros (-> & s & Hs & E). injection E as -> -> -> -> ->. exists false. split; [|done]. apply not_in_names_false. eauto.
Qed.

Lemma completion_encodes name : name ∈ FINGER_NAMES →
  ∃ data, encode_packet (completion_public (Completion (VStr name) (VBool true) (VBool true) (VBool true) (VBool true))) = Ok data.
Proof.
  intros Hs. unfold FINGER_NAMES in Hs.
  repeat (apply elem_of_cons in Hs as [->|Hs]; [eexists; vm_compute; reflexivity|]). by apply not_elem_of_nil in Hs.
Qed.

(** * Properties *)

(** a start packet is accepted exactly when it is the canonical text, of at
    most 4096 bytes, of a request whose caller, account and session evidence
    is well formed and mutually consistent and that names one of the ten
    fingers; the request returned is that request.  So no two packets start
    the same request, and nothing else is read from the wire. *)
Theorem worker_start_exact data r : decode_start data = Ok r ↔
  start_ok r ∧ ps_setuid_real_uid (st_caller r) = VNone
  ∧ dumps (start_public r) = Some data ∧ packet_size data = true.
Proof.
  rewrite decode_start_image. unfold encode_start. rewrite bind_Ok, <-encode_packet_Ok. split.
  - intros (([] & Hv & Hp) & Hs). apply start_request_Ok in Hv. exact (conj Hv (conj Hs Hp)).
  - intros (Hr & Hs & Hp). split; [|exact Hs]. exists tt. rewrite start_request_Ok. exact (conj Hr Hp).
Qed.

(** the same for the requests of the deletion worker, which are checked by
    rewriting them into start requests: a packet is accepted exactly when it
    is the canonical text of a well-formed deletion request. *)
Theorem delete_request_exact data r : decode_request data = Ok r ↔
  start_ok (as_start r) ∧ ps_setuid_real_uid (de_caller r) = VNone
  ∧ dumps (request_public r) = Some data ∧ packet_size data = true.
Proof.
  rewrite decode_request_image. unfold encode_request. rewrite except_Ok, bind_Ok, <-encode_packet_Ok. split.
  - intros (([] & Hv & Hp) & Hs). apply start_request_Ok in Hv. exact (conj Hv (conj Hs Hp)).
  - intros (Hr & Hs & Hp). split; [|exact Hs]. exists tt. rewrite start_request_Ok. exact (conj Hr Hp).
Qed.

(** an update packet is accepted exactly when it is the canonical text of a
    valid update: one that is not final, has no status or a status that does
    not end the enrolment and does not ask for the finger while it is on the
    sensor, or one that is final, has a terminal status and neither flag.
    Every such update fits a packet. *)
Theorem worker_update_exact data u : decode_update data = Ok u ↔ update_ok u ∧ dumps (update_public u) = Some data.
Proof.
  rewrite decode_update_image. split.
  - unfold encode_update. rewrite bind_Ok. intros ([] & Hv%validate_update_Ok & [Hp _]%encode_packet_Ok). exact (conj Hv Hp).
  - intros [Hu Hd]. destruct (update_encodes u Hu) as [t Ht]. rewrite Ht. f_equal.
    unfold encode_update in Ht. apply bind_Ok in Ht as ([] & _ & [Hp _]%encode_packet_Ok). congruence.
Qed.

(** the daemon accepts a completion exactly when it is one of ten packets:
    for each finger name, the canonical statement that its identity was
    deleted and reconciled, that the check after the next start is pending and
    that the mutation took place.  A failure packet is never a completion. *)
Theorem delete_completion_exact data c : decode_completion data = Ok c ↔
  ∃ name, name ∈ FINGER_NAMES ∧ c = Completion (VStr name) (VBool true) (VBool true) (VBool true) (VBool true)
          ∧ dumps (completion_public c) = Some data.
Proof.
  rewrite decode_completion_image, new_completion_Ok. unfold encode_completion. rewrite except_Ok. split.
  - intros ((_ & name & Hn & Hc) & [Hp _]%encode_packet_Ok). eauto.
  - intros (name & Hn & Hc & Hd). split; [eauto|]. destruct (completion_encodes name Hn) as [t Ht].
    rewrite <-Hc in Ht. rewrite Ht. f_equal. apply encode_packet_Ok in Ht as [Hp _]. congruence.
Qed.
