(* ===== verification/WorkerChannel.v ===== *)
(** * Worker channels
    ([src/src/t2_fprint_worker_protocol.py],
    [src/src/t2_fprint_delete_worker_protocol.py])

    Sending and receiving the packets of [WorkerProtocol] over a Unix
    seqpacket socket, together with the pidfd of the caller.  Both protocols
    receive an identified request the same way: [receive_identified] takes
    what differs, the error classes, the messages and the decoder. *)
From stdpp Require Import gmultiset.
From S2P Require Import Prelude PyValue Json Effect IdentityInventory ProcessIdentity WorkerProtocol.

#[local] Open Scope Z_scope.

Definition SO_DOMAIN : Z := 39.
Definition SO_TYPE : Z := 3.
Definition AF_UNIX : Z := 1.
Definition SOCK_SEQPACKET : Z := 5.
Definition MSG_TRUNC : Z := 0x20.
Definition MSG_CTRUNC : Z := 0x08.
(** [socket.CMSG_SPACE(array.array("i").itemsize * 2)] on a 64-bit system. *)
Definition TWO_DESCRIPTORS : Z := 24.

Definition truncated (flags : Z) : bool := negb (Z.land flags (Z.lor MSG_TRUNC MSG_CTRUNC) =? 0).
Definition is_os_error (c : exn_class) : bool := bool_decide (c = OSError).

(** The loop over the ancillary data: the descriptors collected, and whether
    every item was of a supported kind. *)
Fixpoint collect (items : list ancillary) (descriptors : list Z) : list Z * bool :=
  match items with
  | [] => (descriptors, true)
  | a :: items =>
      if is_rights a then collect items (descriptors ++ descriptors_of (an_payload a)) else (descriptors, false)
  end.

(** The words in which the two protocols differ. *)
Record wording := Wording {
  wd_error : exn_class;
  wd_closed : exn_class;
  wd_unsupported : string;
  wd_failed : string;
  wd_eof : string;
  wd_count : string;
  wd_changed : string;
}.

Section channel.
Context {W : Type} `{Kernel W}.
#[local] Abbreviation action := (act (process W)).

Definition on_os_error {A} (m : action A) (c : exn_class) (msg : string) : action A :=
  catch is_os_error m (λ _, throw c msg).

Definition require_seqpacket : action unit :=
  '(domain, kind) ← on_os_error (domain ← system (k_getsockopt SO_DOMAIN); kind ← system (k_getsockopt SO_TYPE);
                                 mret (domain, kind))
                      FprintWorkerProtocolError "worker socket metadata is unavailable";
  throw_if (negb (domain =? AF_UNIX) || negb (kind =? SOCK_SEQPACKET)) FprintWorkerProtocolError
    "worker connection must be a Unix seqpacket socket".

(** [_require_connection] *)
Definition require_connection : action unit :=
  catch protocol_error require_seqpacket (λ e, throw FprintDeleteWorkerProtocolError (exn_msg e)).

(** [_close_descriptors] *)
Fixpoint close_descriptors (descriptors : list Z) : action unit :=
  match descriptors with
  | [] => mret tt
  | fd :: descriptors => _ ← catch is_os_error (os_close fd) (λ _, mret tt); close_descriptors descriptors
  end.

(** [try: m except BaseException: close(fds); raise] *)
Definition or_close {A} (m : action A) (descriptors : list Z) : action A :=
  catch (λ _, true) m (λ e, _ ← close_descriptors descriptors; pure (Raise e)).

(** [close(fds); raise] *)
Definition close_and_throw {A} (descriptors : list Z) (c : exn_class) (msg : string) : action A :=
  _ ← close_descriptors descriptors; throw c msg.

(** ** Requests with a pidfd *)

(** The calls made once the peer is known to hold [descriptor]. *)
Definition verify_caller {R} (decode : string → result R) (caller : R → ProcessSubject) (words : wording)
    (data : string) (descriptor : Z) : action R :=
  request ← pure (decode data);
  _ ← pidfd_matches descriptor (ps_pid (caller request));
  current ← read_process_subject (ps_pid (caller request)) (ps_uid (caller request)) false false;
  _ ← throw_if (negb (subject_eqb current (caller request))) (wd_error words) (wd_changed words);
  mret request.

Definition receive_identified {R} (decode : string → result R) (caller : R → ProcessSubject) (words : wording)
    : action (R * Z) :=
  '(data, items, flags) ← on_os_error (recvmsg MAX_PACKET_BYTES TWO_DESCRIPTORS) (wd_error words) (wd_failed words);
  let '(descriptors, supported) := collect items [] in
  if negb supported then close_and_throw descriptors (wd_error words) (wd_unsupported words)
  else if String.eqb data "" then close_and_throw descriptors (wd_closed words) (wd_eof words)
  else
    match descriptors with
    | [descriptor] =>
        if truncated flags then close_and_throw descriptors (wd_error words) (wd_count words)
        else request ← or_close (verify_caller decode caller words data descriptor) [descriptor];
             mret (request, descriptor)
    | _ => close_and_throw descriptors (wd_error words) (wd_count words)
    end.

Definition start_wording : wording :=
  Wording FprintWorkerProtocolError FprintWorkerPeerClosed "worker start contains unsupported ancillary data"
    "worker start receive failed" "worker facade closed before start"
    "worker start must contain exactly one complete pidfd" "worker pidfd caller changed before receipt".
Definition request_wording : wording :=
  Wording FprintDeleteWorkerProtocolError FprintDeleteWorkerPeerClosed
    "delete worker request contains unsupported ancillary data" "delete worker request receive failed"
    "delete worker facade closed before request" "delete worker request requires exactly one complete pidfd"
    "delete worker caller changed before receipt".

Definition receive_start : action (StartRequest * Z) :=
  _ ← require_seqpacket; receive_identified decode_start st_caller start_wording.
Definition receive_request : action (DeleteRequest * Z) :=
  _ ← require_connection; receive_identified decode_request de_caller request_wording.

(** [_pidfd_matches] and [sendmsg], whose errors are converted together. *)
Definition send_identified (encoded : string) (pid : value) (pidfd : Z) (c : exn_class) (failed incomplete : string)
    : action unit :=
  sent ← catch (λ c, bool_decide (c ∈ [OSError; DBusIdentityError]))
           (_ ← pidfd_matches pidfd pid; system (k_sendmsg encoded pidfd))
           (λ _, throw c failed);
  throw_if (negb (sent =? Z.of_nat (String.length encoded))) c incomplete.

Definition send_start (request : StartRequest) (pidfd : Z) : action unit :=
  _ ← require_seqpacket;
  encoded ← pure (encode_start request);
  _ ← throw_if (pidfd <? 0) FprintWorkerProtocolError "worker caller pidfd is invalid";
  send_identified encoded (ps_pid (st_caller request)) pidfd FprintWorkerProtocolError "worker start send failed"
    "worker start send was incomplete".
Definition send_request (request : DeleteRequest) (pidfd : Z) : action unit :=
  _ ← require_connection;
  encoded ← pure (encode_request request);
  _ ← throw_if (pidfd <? 0) FprintDeleteWorkerProtocolError "delete worker caller pidfd is invalid";
  send_identified encoded (ps_pid (de_caller request)) pidfd FprintDeleteWorkerProtocolError
    "delete worker request send failed" "delete worker request send was incomplete".

(** ** Plain packets *)

Definition send_plain (data : string) (c : exn_class) (failed incomplete : string) : action unit :=
  sent ← on_os_error (system (k_send data)) c failed;
  throw_if (negb (sent =? Z.of_nat (String.length data))) c incomplete.

Definition receive_plain (c closed : exn_class) (failed eof ancillary_data : string) : action string :=
  '(data, items, flags) ← on_os_error (recvmsg MAX_PACKET_BYTES 0) c failed;
  _ ← throw_if (String.eqb data "") closed eof;
  _ ← throw_if (negb (Nat.eqb (length items) 0) || truncated flags) c ancillary_data;
  mret data.

Definition send_cancel : action unit :=
  _ ← require_seqpacket;
  send_plain CANCEL_PACKET FprintWorkerProtocolError "worker cancellation send failed"
    "worker cancellation send was incomplete".
Definition receive_cancel : action unit :=
  _ ← require_seqpacket;
  data ← receive_plain FprintWorkerProtocolError FprintWorkerPeerClosed "worker cancellation receive failed"
           "worker facade closed during enrollment" "worker cancellation is truncated or contains ancillary data";
  throw_if (negb (String.eqb data CANCEL_PACKET)) FprintWorkerProtocolError "worker cancellation packet is invalid".

Definition send_update (update : EnrollmentUpdate) : action unit :=
  _ ← require_seqpacket;
  data ← pure (encode_update update);
  send_plain data FprintWorkerProtocolError "worker update send failed" "worker update send was incomplete".
Definition receive_update : action EnrollmentUpdate :=
  _ ← require_seqpacket;
  data ← receive_plain FprintWorkerProtocolError FprintWorkerPeerClosed "worker update receive failed"
           "worker closed without terminal update" "worker update is truncated or contains ancillary data";
  pure (decode_update data).

(** [_send_packet] *)
Definition send_packet (data : string) : action unit :=
  _ ← require_connection;
  send_plain data FprintDeleteWorkerProtocolError "delete worker response send failed"
    "delete worker response send was incomplete".
Definition send_completion (c : DeletionCompletion) : action unit :=
  data ← pure (encode_completion c); send_packet data.
Definition send_failure : action unit := send_packet FAILURE_PACKET.
Definition receive_completion : action DeletionCompletion :=
  _ ← require_connection;
  data ← receive_plain FprintDeleteWorkerProtocolError FprintDeleteWorkerPeerClosed
           "delete worker response receive failed" "delete worker closed without a reconciled response"
           "delete worker response is truncated or contains ancillary data";
  pure (decode_completion data).
End channel.

(** * Facts *)

Lemma collect_supported items : ∀ fds, Forall (λ a, is_rights a = true) items →
  collect items fds = (fds ++ installed items, true).
Proof.
  induction items as [|a items IH]; intros fds Hi; cbn [collect]; [by rewrite app_nil_r|].
  apply Forall_cons in Hi as [Ha Hi]. unfold installed. cbn. rewrite Ha, IH by exact Hi. by rewrite <-app_assoc.
Qed.

(** What is collected is part of what was installed. *)
Lemma collect_installed items : ∀ fds, ∃ rest, fds ++ installed items = (collect items fds).1 ++ rest.
Proof.
  induction items as [|a items IH]; intros fds; cbn [collect]; [by eexists|]. unfold installed. cbn.
  destruct (is_rights a); [|by eexists]. rewrite app_assoc. apply IH.
Qed.

Section facts.
Context {W : Type} `{KernelLaws W}.
#[local] Abbreviation action := (act (process W)).

(** Closing what was received restores the ledger. *)
Lemma close_descriptors_wp X fds : ∀ p, pr_open p = X ⊎ list_to_set_disj fds →
  wp (close_descriptors fds) (λ _ q, pr_open q = X) (λ _ _, False) p.
Proof.
  induction fds as [|fd fds IH]; intros p Hp; cbn [close_descriptors].
  { unfold wp. cbn. rewrite Hp. cbn. apply gmultiset_disj_union_right_id. }
  apply wp_bind, wp_catch. eapply wp_weaken.
  - apply (wp_os_close (X ⊎ list_to_set_disj fds) fd p). rewrite Hp, list_to_set_disj_cons. clear. multiset_solver.
  - cbv beta. intros _ q Hq. exact (IH q Hq).
  - cbv beta. intros e q [He Hq]. unfold is_os_error. rewrite bool_decide_eq_true_2 by exact He. exact (IH q Hq).
Qed.

Lemma close_and_throw_wp {A} X fds c msg (Q : A → process W → Prop) p : pr_open p = X ⊎ list_to_set_disj fds →
  wp (close_and_throw fds c msg) Q (λ e q, e = Exn c msg ∧ pr_open q = X) p.
Proof.
  intros Hp. unfold close_and_throw. apply wp_bind.
  eapply wp_weaken; [exact (close_descriptors_wp X fds p Hp)| |by intros e q []]. cbv beta. intros _ q Hq. by split.
Qed.

Lemma balanced_verify_caller {R} decode caller words data descriptor :
  balanced (verify_caller (R := R) decode caller words data descriptor).
Proof.
  unfold verify_caller.
  repeat first [apply balanced_pidfd_matches | apply balanced_read_process_subject | ledger_step].
Qed.

(** What the checks of a caller establish: the request is the one in the
    packet, its process is that of the descriptor, and it is the process that
    the kernel reported after that. *)
Lemma verify_caller_Ok {R} decode caller words data descriptor (r : R) (p q : process W) :
  verify_caller decode caller words data descriptor p = (Ok r, q) →
  decode data = Ok r
  ∧ (∃ p1, pidfd_matches descriptor (ps_pid (caller r)) p = (Ok tt, p1)
     ∧ ∃ current, read_process_subject (ps_pid (caller r)) (ps_uid (caller r)) false false p1 = (Ok current, q)
         ∧ subject_eqb current (caller r) = true).
Proof.
  unfold verify_caller. intros (x & p0 & Hd & H1)%act_bind_Ok. unfold pure in Hd. injection Hd as Hd <-.
  apply act_bind_Ok in H1 as ([] & p1 & Hm & (current & p2 & Hs & H2)%act_bind_Ok).
  apply act_bind_Ok in H2 as ([] & p3 & [He%negb_false_iff ->]%throw_if_Ok & H3).
  injection H3 as -> ->. split; [exact Hd|]. exists p1. split; [exact Hm|]. exists current. by split.
Qed.

(** Receiving a request with the pidfd of its caller, where the kernel delivers
    no other ancillary data than descriptors.  A request that is returned is
    the one in the packet and its caller is the verified process of the
    descriptor returned with it - the only one that stays open; however the
    receipt fails, every descriptor that came is closed. *)
Theorem receive_identified_accounts {R} (decode : string → result R) caller words (p : process W) :
  (∀ k data items flags k', k_recvmsg MAX_PACKET_BYTES TWO_DESCRIPTORS k = (Ok (data, items, flags), k') →
     Forall (λ a, is_rights a = true) items) →
  wp (receive_identified decode caller words)
    (λ x q, pr_open q = pr_open p ⊎ {[+ x.2 +]}
       ∧ (∃ data, decode data = Ok x.1)
       ∧ (∃ p1 p2, pidfd_matches x.2 (ps_pid (caller x.1)) p1 = (Ok tt, p2)
          ∧ ∃ current, read_process_subject (ps_pid (caller x.1)) (ps_uid (caller x.1)) false false p2 = (Ok current, q)
              ∧ subject_eqb current (caller x.1) = true))
    (λ _ q, pr_open q = pr_open p) p.
Proof.
  intros Hk. unfold receive_identified, on_os_error. apply wp_bind, wp_catch. unfold recvmsg. unfold wp at 1, on_kernel.
  destruct (k_recvmsg MAX_PACKET_BYTES TWO_DESCRIPTORS (pr_kernel p)) as [[[[data items] flags]|e] k] eqn:E.
  2:{ destruct (is_os_error _); reflexivity. }
  cbn [fst snd]. rewrite (collect_supported items []) by (by eapply Hk). cbn [app negb].
  set (p1 := Process k (pr_open p ⊎ list_to_set_disj (installed items))).
  match goal with |- wp _ ?post _ _ => assert (∀ c msg,
    wp (close_and_throw (A := R * Z) (installed items) c msg) post (λ _ q, pr_open q = pr_open p) p1) as Hclose end.
  { intros c msg. eapply wp_weaken; [apply (close_and_throw_wp (pr_open p) (installed items) c msg); reflexivity| |].
    - cbv beta. intros x q Hx. exact Hx.
    - cbv beta. intros e q [_ Hq]. exact Hq. }
  destruct (String.eqb data ""); [apply Hclose|].
  destruct (installed items) as [|descriptor [|d2 rest]] eqn:Hin; [apply Hclose| |apply Hclose].
  destruct (truncated flags); [apply Hclose|]. clear Hclose.
  assert (pr_open p1 = pr_open p ⊎ {[+ descriptor +]}) as Hp1 
    by (unfold p1; cbn [pr_open]; rewrite ?Hin, list_to_set_disj_cons, list_to_set_disj_nil; clear; multiset_solver).
  clearbody p1. apply wp_bind. unfold or_close. apply wp_catch.
  pose proof (balanced_verify_caller decode caller words data descriptor p1) as Hb.
  unfold wp at 1 in Hb. unfold wp at 1.
  destruct (verify_caller decode caller words data descriptor p1) as [[r|e] q] eqn:Hv.
  - unfold wp. cbn [fst snd]. cbn. split; [by rewrite Hb|].
    destruct (verify_caller_Ok _ _ _ _ _ _ _ _ Hv) as (Hd & p2 & Hm & Hs). split; [by exists data|]. by exists p1, p2.
  - apply wp_bind. eapply wp_weaken; [apply (close_descriptors_wp (pr_open p) [descriptor])| |by intros ? ? []].
    + rewrite Hb, Hp1, list_to_set_disj_cons, list_to_set_disj_nil. clear. multiset_solver.
    + cbv beta. intros _ q' Hq'. exact Hq'.
Qed.

(** With other ancillary data in front of them the descriptors of a message
    are not closed. *)
Theorem unsupported_data_leaks {R} (decode : string → result R) caller words (p : process W) data other rights flags k :
  k_recvmsg MAX_PACKET_BYTES TWO_DESCRIPTORS (pr_kernel p) = (Ok (data, [other; rights], flags), k) →
  is_rights other = false → is_rights rights = true →
  receive_identified decode caller words p
  = (raise (wd_error words) (wd_unsupported words),
     Process k (pr_open p ⊎ list_to_set_disj (descriptors_of (an_payload rights)))).
Proof.
  intros Hk Ho Hr. unfold receive_identified, on_os_error, recvmsg, catch, on_kernel, mbind, act_bind. rewrite Hk. cbn [fst snd].
  cbn [collect]. rewrite Ho. cbn. unfold installed. cbn. rewrite Ho, Hr. cbn. by rewrite app_nil_r.
Qed.
End facts.
