(* ===== verification/Samples.v ===== *)
(** * Concrete journals

    A valid baseline and the journal files that the model itself writes from
    it; the witnesses of the other files evaluate on them. *)
From S2P Require Import Prelude PyValue Sha256 Json MutationJournal.

#[local] Open Scope Z_scope.

Definition sample_digest : string := "ba7816bf8f01cfea414140de5dae2223b00361a396177a9cb410ff61f20015ad".
Definition sample_boot : string := "11111111-2222-3333-4444-555555555555".
Definition sample_connection : string := "aaaaaaaa-bbbb-cccc-dddd-eeeeeeeeeeee".
Definition sample_connection2 : string := "aaaaaaaa-bbbb-cccc-dddd-ffffffffffff".
Definition sample_identity : string := "01234567-89ab-cdef-0123-456789abcdef".
Definition sample_operation : string := "99999999-8888-7777-6666-555555555555".

(** Apple user 501 with one enrolled finger of five. *)
Definition sample_baseline : value := dict
  [("baseline_version", VInt 1);
   ("caller_linux_uid", VInt 1000); ("target_linux_uid", VInt 1000); ("apple_uid", VInt 501);
   ("account_uuid", VStr "00000000-0000-0000-0000-000000000001");
   ("bag_uuid", VStr "00000000-0000-0000-0000-000000000002");
   ("policy_decision", VStr "authorized");
   ("mapping_generation", VStr sample_digest);
   ("linux_boot_uuid", VStr sample_boot);
   ("bridge_boot_uuid", VNone);
   ("connection_generation", VStr sample_connection);
   ("protocol_version", VInt 1);
   ("identity_records", VList [dict [("user_id", VInt 501); ("uuid", VStr sample_identity); ("entity", VInt 1)]]);
   ("master_enrollment_count", VInt 1);
   ("capacity", dict [("used", VInt 1); ("maximum", VInt 5)]);
   ("sep_catacomb", dict [("present", VBool false); ("uuid", VNone); ("hash", VNone)]);
   ("host_components", VList [dict [("name", VStr "master.cat"); ("sha256", VStr sample_digest);
                                    ("mode", VInt 384); ("uid", VInt 0); ("gid", VInt 0)]]);
   ("backup_references", VList [dict [("reference", VStr "backup-1"); ("sha256", VStr sample_digest)]]);
   ("password_fallback_verified", VBool true);
   ("double_collection_equal", VBool true)].

Example sample_baseline_valid : validate_baseline sample_baseline = Ok tt.
Proof. vm_compute. reflexivity. Qed.

(** A journal after its exclusive creation and after one more append. *)
Definition sample_created : fs * result value :=
  append 0 io_ok (FS None Absent) sample_operation "BASELINE_RECONCILED" (dict []) true None None.
Definition sample_append : fs * result value :=
  append 0 io_ok sample_created.1 sample_operation "PRESENCE_OBSERVED" (dict [("count", VInt 1)]) false None None.

Definition content_of (s : fs) : string := entry_content (fs_entry s).
Definition ok_or {A} (d : A) (r : result A) : A := match r with Ok a => a | Raise _ => d end.

Example sample_created_reads : length (ok_or [] (read 0 (fs_entry sample_created.1))) = 1%nat.
Proof. vm_compute. reflexivity. Qed.

Lemma append_extends_journal_witness :
  (∃ payload, content_of sample_append.1 = content_of sample_created.1 +:+ payload)
  ∧ ∃ rs, validate_records (readlines (content_of sample_created.1)) = Ok rs
    ∧ validate_records (readlines (content_of sample_append.1)) = Ok (rs ++ [ok_or VNone sample_append.2])
    ∧ complete_lines (content_of sample_append.1) = true
    ∧ (ok_or VNone sample_append.2)@["operation_id"] = VStr sample_operation
    ∧ (ok_or VNone sample_append.2)@["milestone"] = VStr "PRESENCE_OBSERVED"
    ∧ (ok_or VNone sample_append.2)@["evidence"] = dict [("count", VInt 1)].
Proof.
  apply (append_extends_journal 0 io_ok sample_created.1 sample_operation "PRESENCE_OBSERVED"
    (dict [("count", VInt 1)]) false None None sample_append.1); vm_compute; reflexivity.
Defined.

Lemma guarded_append_detects_change_witness :
  let r := append 0 io_ok sample_append.1 sample_operation "PRESENCE_OBSERVED" (dict []) false (Some 1) None in
  content_of r.1 = content_of sample_append.1 ∧ is_ok r.2 = false.
Proof.
  apply (guarded_append_detects_change 0 io_ok sample_append.1 sample_operation "PRESENCE_OBSERVED" (dict [])
    false 1 None (ok_or [] (read 0 (fs_entry sample_append.1)))).
  - vm_compute. reflexivity.
  - left. vm_compute. discriminate.
Defined.

Lemma read_yields_chain_witness :
  let rs := ok_or [] (read 0 (fs_entry sample_append.1)) in
  chained rs ∧ (length rs ≤ 4096)%nat ∧ ∃ f, fs_entry sample_append.1 = Present f ∧ f_uid f = 0
    ∧ f_nlink f = 1 ∧ f_regular f = true ∧ Z.land (f_mode f) 63 = 0.
Proof. apply (read_yields_chain 0 (fs_entry sample_append.1)). vm_compute. reflexivity. Defined.

Lemma journal_tamper_evident_witness :
  let rs := ok_or [] (read 0 (fs_entry sample_append.1)) in
  rs = rs ∨ collision rs rs.
Proof.
  apply (journal_tamper_evident (readlines (content_of sample_append.1))
    (readlines (content_of sample_append.1))); vm_compute; reflexivity.
Defined.

(** The journal whose last newline was never written. *)
Definition drop_last (s : string) : string := str_take (String.length s - 1) s.
Definition sample_cut : fs :=
  FS (fs_parent sample_created.1) (Present (File (drop_last (content_of sample_created.1)) true 0 1 384)).
Definition sample_joined : fs * result value :=
  append 0 io_ok sample_cut sample_operation "PRESENCE_OBSERVED" (dict []) false None None.
Definition sample_first : value := ok_or VNone sample_created.2.

Lemma append_after_missing_newline_witness :
  is_ok (validate_records (readlines (content_of sample_cut))) = true
  ∧ is_ok (validate_records (readlines (content_of sample_joined.1))) = false.
Proof.
  apply (append_after_missing_newline 0 io_ok sample_cut sample_operation "PRESENCE_OBSERVED" (dict [])
    false None None sample_joined.1 (ok_or VNone sample_joined.2) "" sample_first
    (drop_last (content_of sample_created.1))); vm_compute; reflexivity.
Defined.
