(* ===== verification/JournalSamples.v ===== *)
(** * Concrete typed histories

    Complete runs of the save, enrolment, rename and delete journals on the
    baseline of [Samples], on which the witnesses of their theorems are
    evaluated. *)
From S2P Require Import Prelude PyValue Sha256 Json MutationJournal Evidence TypedJournal PersistenceJournal.
From S2P Require Import EnrollmentJournal RenameJournal DeleteJournal Samples.

#[local] Open Scope Z_scope.

Definition digest_of (n : Z) : string := hex_fixed 64 n "".
Definition name_digest : string := digest_of 16.
Definition snapshot_digest : string := digest_of 17.

(** ** Save sequences *)

Definition component_ev (b c : nat) (x : component) (extra : list (string * value)) : value :=
  dict ([("connection_generation", VStr sample_connection); ("batch_index", VInt (Z.of_nat b));
         ("component_index", VInt (Z.of_nat c)); ("name", VStr x.1); ("descriptor_sha256", VStr x.2)] ++ extra).
Definition batch_ev (b : nat) (batch : list component) : value :=
  dict [("connection_generation", VStr sample_connection); ("batch_index", VInt (Z.of_nat b));
        ("staged_snapshot_sha256", VStr (sha256_hex (default "" (dumps (VList
           (map (λ x : component, dict [("name", VStr x.1); ("final_file_sha256", VStr x.2)]) batch))))))].

(** The records of one component, staged under its own descriptor digest. *)
Definition staging_events (b c : nat) (x : component) : list (string * value) :=
  [("CATACOMB_PREPARE_INTENT", component_ev b c x []);
   ("CATACOMB_PREPARED", component_ev b c x [("status", VInt 0); ("expected_blob_length", VInt 32)]);
   ("CATACOMB_COMPLETE_INTENT", component_ev b c x []);
   ("CATACOMB_SECURE_BLOB_CAPTURED", component_ev b c x
      [("status", VInt 0); ("blob_length", VInt 32); ("secure_blob_sha256", VStr x.2)]);
   ("CATACOMB_HOST_STAGED", component_ev b c x [("secure_blob_sha256", VStr x.2); ("final_file_sha256", VStr x.2)])].
Definition confirm_events (b c : nat) (x : component) : list (string * value) :=
  [("CATACOMB_CONFIRM_INTENT", component_ev b c x []);
   ("CATACOMB_CONFIRMED", component_ev b c x [("status", VInt 0)])].
Definition commit_events (b c : nat) (x : component) (batch : list component) : list (string * value) :=
  [("CATACOMB_HOST_BATCH_COMMIT_INTENT", batch_ev b batch);
   ("CATACOMB_HOST_BATCH_COMMITTED", batch_ev b batch);
   ("CATACOMB_FINAL_CONFIRM_INTENT", component_ev b c x []);
   ("CATACOMB_FINAL_CONFIRMED", component_ev b c x [("status", VInt 0)])].
Fixpoint batch_events (b c : nat) (batch rest : list component) : list (string * value) :=
  match rest with
  | [] => []
  | [x] => staging_events b c x ++ commit_events b c x batch
  | x :: rest => staging_events b c x ++ confirm_events b c x ++ batch_events b (S c) batch rest
  end.
Definition save_events (batches : list (list component)) : list (string * value) :=
  [("CATACOMB_PERSISTENCE_PLAN", dict [("connection_generation", VStr sample_connection);
      ("batches", VList (map (λ batch, VList (map (λ x : component,
         dict [("name", VStr x.1); ("descriptor_sha256", VStr x.2)]) batch)) batches))])]
  ++ concat (imap (λ b batch, batch_events b 0 batch batch) batches)
  ++ [("CATACOMB_PERSISTENCE_ATTESTED", dict [("connection_generation", VStr sample_connection);
      ("batch_count", VInt (Z.of_nat (length batches)));
      ("reconciliation_snapshot_sha256", VStr snapshot_digest);
      ("sep_host_generation_equal", VBool true); ("independent_archive_readback", VBool true)])].

Definition user_component : component := ("user_000001f5.cat", digest_of 1).
Definition enrollment_plan : list (list component) :=
  [[user_component; ("master.cat", digest_of 2)]; [("biolockout.cat", digest_of 3)]].
Definition user_plan : list (list component) := [[user_component]].

Definition as_events (l : list (string * value)) : list event := map (λ e, (VStr e.1, e.2, false)) l.
Definition saved : tracker :=
  ok_or (new_tracker sample_baseline Plan_enrollment)
    (consume_all (new_tracker sample_baseline Plan_enrollment) (as_events (save_events enrollment_plan))).

Example saved_run :
  consume_all (new_tracker sample_baseline Plan_enrollment) (as_events (save_events enrollment_plan)) = Ok saved.
Proof. vm_compute. reflexivity. Qed.

Example saved_complete : pt_phase saved = COMPLETE.
Proof. vm_compute. reflexivity. Qed.

Lemma complete_save_follows_script_witness :
  own_milestones (as_events (save_events enrollment_plan)) = save_script (pt_batches saved)
  ∧ plan_ok (pt_batches saved).
Proof.
  apply (complete_save_follows_script sample_baseline Plan_enrollment _ saved saved_run saved_complete).
  apply (bool_decide_unpack _). vm_compute. exact I.
Defined.

Lemma tracker_refines_machine_witness :
  psteps (Pos NOT_STARTED [] None None) (own_milestones (as_events (save_events enrollment_plan))) (position_of saved)
  ∧ position_wf (position_of saved).
Proof. exact (tracker_refines_machine sample_baseline Plan_enrollment _ _ saved_run). Defined.

Lemma complete_save_is_final_witness :
  consume saved (VStr "CATACOMB_PREPARE_INTENT") VNone false ≠ Ok (true, saved).
Proof. exact (complete_save_is_final sample_baseline Plan_enrollment _ saved saved_run saved_complete _ _ _ _). Defined.

(** The tracker of a one-component save, just before its host commit. *)
Definition staged_tracker : tracker :=
  ok_or (new_tracker sample_baseline Plan_identity_metadata)
    (consume_all (new_tracker sample_baseline Plan_identity_metadata) (as_events (take 6 (save_events user_plan)))).

Lemma commit_covers_staged_batch_witness :
  ∃ i batch entries text,
    pt_batch_index staged_tracker = Some i ∧ pt_batches staged_tracker !! i = Some batch
    ∧ Forall2 (λ x e, ∃ digest, pt_staged staged_tracker !! x.1 = Some digest
                 ∧ e = dict [("name", VStr x.1); ("final_file_sha256", digest)]) batch entries
    ∧ dumps (VList entries) = Some text
    ∧ (batch_ev 0 [user_component])@["staged_snapshot_sha256"] = VStr (sha256_hex text).
Proof.
  apply (commit_covers_staged_batch staged_tracker "CATACOMB_HOST_BATCH_COMMIT_INTENT" _ false true
    (set_phase BATCH_COMMIT_INTENT staged_tracker)).
  - apply list_elem_of_here.
  - vm_compute. reflexivity.
Defined.

(** ** Typed histories *)

Definition record_of (e : string * value) : value := candidate sample_operation e.1 e.2.
Definition first_record (kind : string) : value :=
  candidate sample_operation "BASELINE_RECONCILED"
    (dict [("operation_kind", VStr kind); ("baseline", sample_baseline)]).
Definition sample_boot2 : string := "11111111-2222-3333-4444-666666666666".
Definition new_identity : string := "01234567-89ab-cdef-0123-456789abcd00".

Definition conn : string * value := ("connection_generation", VStr sample_connection).
Definition mapping : string * value := ("mapping_generation", VStr sample_digest).
Definition yes (k : string) : string * value := (k, VBool true).

(** An enrolment with one continued touch, persisted, reconciled and verified. *)
Definition enrollment_events : list (string * value) :=
  [("ENROLL_START_INTENT", dict [("apple_uid", VInt 501); ("protocol_version", VInt 1); conn;
      ("request_length", VInt 48); ("request_sha256", VStr sample_digest)]);
   ("ENROLL_START_OBSERVED", dict [("status", VInt 0)]);
   ("ENROLL_CONTINUE_INTENT", dict [conn; ("event_sequence", VInt 4); ("event_ordinal", VInt 70);
      ("event_sha256", VStr sample_digest)]);
   ("ENROLL_CONTINUE_OBSERVED", dict [("event_sequence", VInt 4); ("status", VInt 0);
      ("return_status_authoritative", VBool false)]);
   ("E2_TERMINAL_IDENTITY_OBSERVED", dict [conn; ("event_sequence", VInt 9);
      ("envelope_type", VInt SERVICE_ENROLLMENT_RESULT); ("event_version", VInt 2); ("user_id", VInt 501);
      ("identity_uuid", VStr new_identity)])]
  ++ save_events enrollment_plan
  ++ [("E3_RECONCILED", dict [conn; ("snapshot_sha256", VStr snapshot_digest);
        ("identity_uuid", VStr new_identity); yes "identity_present"; yes "host_sep_identity_equal";
        yes "catacomb_reconciled"; yes "bindings_preserved"; mapping; ("capacity_used", VInt 2);
        ("capacity_maximum", VInt 5); ("master_enrollment_count", VInt 2)]);
      ("E4_POST_REBOOT_VERIFIED", dict [("linux_boot_uuid", VStr sample_boot2);
        ("connection_generation", VStr sample_connection2); ("bridge_boot_uuid", VNone);
        ("protocol_version", VInt 1); mapping;
        ("account_uuid", VStr "00000000-0000-0000-0000-000000000001");
        ("bag_uuid", VStr "00000000-0000-0000-0000-000000000002"); ("identity_uuid", VStr new_identity);
        ("snapshot_sha256", VStr snapshot_digest); yes "double_collection_equal";
        yes "host_sep_identity_equal"; yes "bindings_preserved"; yes "keybag_runtime_revalidated"])].

Definition empty_ehistory : EnrollmentHistory :=
  enroll_history (ELoop VNone VNone (enroll_start_state VNone)) 0 VNone.
Definition enrollment_sample : EnrollmentHistory :=
  ok_or empty_ehistory (validate_history (first_record "enroll" :: map record_of enrollment_events)).

Example enrollment_run :
  validate_history (first_record "enroll" :: map record_of enrollment_events) = Ok enrollment_sample.
Proof. vm_compute. reflexivity. Qed.

Example enrollment_sample_verified : eh_phase enrollment_sample = E_POST_REBOOT_VERIFIED.
Proof. vm_compute. reflexivity. Qed.

Lemma enrollment_follows_phase_graph_witness :
  path enroll_edge E_BASELINE (map milestone_of (map record_of enrollment_events)) (eh_phase enrollment_sample)
  ∧ ∀ i, map milestone_of (map record_of enrollment_events) !! i = Some "ENROLL_START_INTENT" → i = O.
Proof. exact (enrollment_follows_phase_graph _ _ _ enrollment_run). Defined.

Lemma no_command_after_outcome_witness : (2 < 4)%nat.
Proof.
  apply (no_command_after_outcome (first_record "enroll") (map record_of enrollment_events) enrollment_sample 4 2
    "E2_TERMINAL_IDENTITY_OBSERVED" "ENROLL_CONTINUE_INTENT" enrollment_run); first [reflexivity|
    apply (bool_decide_unpack _); vm_compute; exact I].
Defined.

Lemma enrollment_events_increase_witness :
  StronglySorted Z.lt (omap event_sequence (map record_of enrollment_events)).
Proof. exact (enrollment_events_increase _ _ _ enrollment_run). Defined.

Lemma verified_enrollment_crossed_reboot_witness :
  ∃ rest' r, map record_of enrollment_events = rest' ++ [r] ∧ r@["milestone"] = VStr "E4_POST_REBOOT_VERIFIED"
    ∧ let ev := r@["evidence"] in let b := eh_baseline enrollment_sample in
      ev@["linux_boot_uuid"] ==? b@["linux_boot_uuid"] = false
      ∧ ev@["connection_generation"] ==? b@["connection_generation"] = false
      ∧ eh_terminal_identity_uuid enrollment_sample ≠ VNone
      ∧ ev@["identity_uuid"] ==? eh_terminal_identity_uuid enrollment_sample = true
      ∧ ev@["snapshot_sha256"] ==? eh_reconciled_snapshot_sha256 enrollment_sample = true
      ∧ Forall (λ k, ev@[k] ==? b@[k] = true)
          ["protocol_version"; "mapping_generation"; "account_uuid"; "bag_uuid"]
      ∧ eh_post_reboot_linux_boot_uuid enrollment_sample = ev@["linux_boot_uuid"].
Proof. exact (verified_enrollment_crossed_reboot _ _ _ enrollment_run enrollment_sample_verified). Defined.

(** A rename, persisted, reconciled and verified. *)
Definition rename_events : list (string * value) :=
  [("RENAME_INTENT", dict [conn; ("user_id", VInt 501); ("identity_uuid", VStr sample_identity);
      ("entity", VInt 1); ("previous_name_sha256", VStr sample_digest); ("new_name_sha256", VStr name_digest);
      mapping])]
  ++ save_events user_plan
  ++ [("RENAME_RECONCILED", dict [conn; ("identity_uuid", VStr sample_identity);
        ("new_name_sha256", VStr name_digest); ("snapshot_sha256", VStr snapshot_digest); mapping;
        ("identity_count", VInt 1); yes "identity_set_unchanged"; yes "label_updated"; yes "local_live_equal"])].

Definition rename_sample : IdentityRenameHistory :=
  ok_or (rename_history (RLoop VNone VNone (rename_start_state VNone)) 0 VNone)
    (validate_history (first_record "rename" :: map record_of rename_events)).

Example rename_sample_run :
  validate_history (first_record "rename" :: map record_of rename_events) = Ok rename_sample.
Proof. vm_compute. reflexivity. Qed.

Lemma rename_follows_phase_graph_witness :
  path rename_edge R_BASELINE (map milestone_of (map record_of rename_events)) (rh_phase rename_sample).
Proof. exact (rename_follows_phase_graph _ _ _ rename_sample_run). Defined.

Lemma rename_settles_label_witness :
  ∃ rest' r, map record_of rename_events = rest' ++ [r] ∧ let ev := r@["evidence"] in
    (rh_phase rename_sample = R_RECONCILED
       ∧ ((milestone_of r = "RENAME_RECONCILED" ∧ ev@["new_name_sha256"] ==? rh_new_name_sha256 rename_sample = true)
          ∨ (milestone_of r = "RENAME_RECOVERY_RECONCILED_COMMITTED"
             ∧ ev@["name_sha256"] ==? rh_new_name_sha256 rename_sample = true)))
    ∨ (rh_phase rename_sample = R_ABORTED
       ∧ ((milestone_of r = "RENAME_ABORTED_BEFORE_PERSISTENCE" ∧ ev@["mutation_possible"] = VBool false)
          ∨ (milestone_of r = "RENAME_RECOVERY_RECONCILED_NO_CHANGE"
             ∧ ev@["name_sha256"] ==? rh_previous_name_sha256 rename_sample = true
             ∧ ev@["connection_generation"] ==? (rh_baseline rename_sample)@["connection_generation"] = false
             ∧ rh_recovery_action rename_sample ≠ VStr "commit-rolled-forward"))).
Proof.
  apply (rename_settles_label _ _ _ rename_sample_run). apply (bool_decide_unpack _). vm_compute. exact I.
Defined.

(** A baseline with two identities, for the deletion of one. *)
Definition two_identities : value :=
  match sample_baseline with
  | VDict d => VDict (<["identity_records" := VList
      [dict [("user_id", VInt 501); ("uuid", VStr sample_identity); ("entity", VInt 1)];
       dict [("user_id", VInt 501); ("uuid", VStr new_identity); ("entity", VInt 2)]]]>
      (<["capacity" := dict [("used", VInt 2); ("maximum", VInt 5)]]> d))
  | v => v
  end.
Definition delete_first : value :=
  candidate sample_operation "BASELINE_RECONCILED"
    (dict [("operation_kind", VStr "delete-one"); ("baseline", two_identities)]).
Definition target : string * value := ("identity_uuid", VStr new_identity).
Definition survivors : string * value := ("survivor_snapshot_sha256", VStr sample_digest).

Definition delete_events : list (string * value) :=
  [("DELETE_INTENT", dict [conn; ("user_id", VInt 501); target; ("entity", VInt 2);
      ("target_name_sha256", VStr name_digest); ("request_sha256", VStr sample_digest);
      ("request_length", VInt 20); survivors; ("survivor_count", VInt 1); mapping]);
   ("DELETE_DISPATCH_INTENT", dict [conn; target; ("request_sha256", VStr sample_digest);
      ("command", VInt 13); ("protocol_version", VInt 0)]);
   ("DELETE_COMMAND_OBSERVED", dict [conn; target; ("status", VInt 0); ("output_length", VInt 0);
      ("service_event_count", VInt 0)]);
   ("DELETE_SEP_ABSENCE_OBSERVED", dict [conn; target; survivors; ("survivor_count", VInt 1);
      yes "stable_double_read"; yes "per_user_global_equal"; yes "target_absent"])]
  ++ save_events user_plan
  ++ [("DELETE_RECONCILED", dict [conn; target; survivors; ("snapshot_sha256", VStr snapshot_digest); mapping;
        ("identity_count", VInt 1); yes "target_absent"; yes "local_live_equal"; yes "host_reconciled";
        yes "sep_clean"]);
      ("DELETE_POST_REBOOT_VERIFIED", dict [("linux_boot_uuid", VStr sample_boot2);
        ("connection_generation", VStr sample_connection2); target; survivors;
        ("snapshot_sha256", VStr snapshot_digest); mapping; yes "target_absent"; yes "local_live_equal";
        yes "sep_clean"])].

Definition delete_sample : IdentityDeleteHistory :=
  ok_or (delete_history (DLoop VNone VNone (delete_start_state VNone)) 0 VNone)
    (validate_history (delete_first :: map record_of delete_events)).

Example delete_sample_run : validate_history (delete_first :: map record_of delete_events) = Ok delete_sample.
Proof. vm_compute. reflexivity. Qed.

Example delete_sample_verified : dh_phase delete_sample = D_POST_REBOOT_VERIFIED.
Proof. vm_compute. reflexivity. Qed.

Lemma delete_dispatched_once_witness :
  path delete_edge D_BASELINE (map milestone_of (map record_of delete_events)) (dh_phase delete_sample)
  ∧ ∀ i, map milestone_of (map record_of delete_events) !! i = Some "DELETE_DISPATCH_INTENT" →
      i = 1%nat ∧ map milestone_of (map record_of delete_events) !! O = Some "DELETE_INTENT".
Proof. exact (delete_dispatched_once _ _ _ delete_sample_run). Defined.

Lemma delete_targets_one_of_many_witness :
  1 < identity_count (dh_baseline delete_sample)
  ∧ length (identities_with (dh_baseline delete_sample) (dh_target_identity_uuid delete_sample)
             (dh_target_entity delete_sample)) = 1%nat.
Proof.
  apply (delete_targets_one_of_many _ _ _ delete_sample_run). rewrite delete_sample_verified. discriminate.
Defined.

Lemma verified_delete_crossed_reboot_witness :
  ∃ rest' r, map record_of delete_events = rest' ++ [r] ∧ r@["milestone"] = VStr "DELETE_POST_REBOOT_VERIFIED"
    ∧ let ev := r@["evidence"] in
      ev@["linux_boot_uuid"] ==? dh_reconciled_linux_boot_uuid delete_sample = false
      ∧ ev@["connection_generation"] ==? dh_reconciled_connection_generation delete_sample = false
      ∧ ev@["identity_uuid"] ==? dh_target_identity_uuid delete_sample = true
      ∧ ev@["survivor_snapshot_sha256"] ==? dh_survivor_snapshot_sha256 delete_sample = true
      ∧ ev@["snapshot_sha256"] ==? dh_reconciled_snapshot_sha256 delete_sample = true
      ∧ ev@["target_absent"] = VBool true.
Proof. exact (verified_delete_crossed_reboot _ _ _ delete_sample_run delete_sample_verified). Defined.
