(* ===== verification/UserSamples.v ===== *)
(** * Concrete users

    A mapping document with two users, evidence about one of them and complete
    activation journals, on which the witnesses of the user files are
    evaluated. *)
From S2P Require Import Prelude PyValue Sha256 Json MutationJournal Evidence TypedJournal UserMapping UserReadiness.
From S2P Require Import ActivationJournal Samples.

#[local] Open Scope Z_scope.

Definition sample_account : string := "00000000-0000-0000-0000-000000000001".
Definition sample_bag : string := "00000000-0000-0000-0000-000000000002".
Definition sample_mapping : UserMapping :=
  Mapping 1000 sample_digest 501 sample_account sample_bag "/var/lib/t2-touchid/users/1000/user.kb" sample_digest
    "password-on-demand" {["verify"; "enroll"]} true.
Definition other_mapping : UserMapping :=
  Mapping 1001 sample_digest 502 "00000000-0000-0000-0000-000000000003" "00000000-0000-0000-0000-000000000004"
    "/var/lib/t2-touchid/users/1001/user.kb" sample_digest "host-encrypted-credential" {["verify"]} false.

Definition sample_document : string := mapping_file [other_mapping; sample_mapping].
Definition sample_set : UserMappingSet := ok_or (MappingSet "" []) (parse sample_document).

Example sample_parsed : parse sample_document = Ok sample_set.
Proof. vm_compute. reflexivity. Qed.
Example sample_parsed_order : ums_mappings sample_set = [sample_mapping; other_mapping].
Proof. vm_compute. reflexivity. Qed.

Lemma resolve_exact_witness :
  resolve sample_set (VInt 1000) "verify" = Ok sample_mapping ↔
    sample_mapping ∈ ums_mappings sample_set ∧ VInt 1000 = VInt (um_linux_uid sample_mapping)
    ∧ um_enabled sample_mapping = true ∧ "verify" ∈ um_capabilities sample_mapping.
Proof. exact (resolve_exact _ _ _ _ _ sample_parsed). Defined.

Lemma serialize_canonical_witness :
  serialize [other_mapping; sample_mapping] = Ok (mapping_file (ums_mappings sample_set))
  ∧ ∃ s', parse (mapping_file (ums_mappings sample_set)) = Ok s' ∧ ums_mappings s' ≡ₚ ums_mappings sample_set
      ∧ Sorted.StronglySorted uid_le (ums_mappings s').
Proof.
  apply (serialize_canonical sample_document); [exact sample_parsed| |].
  - rewrite sample_parsed_order. apply Permutation_swap.
  - rewrite sample_parsed_order. vm_compute. discriminate.
Defined.

(** A file read in two blocks. *)
Definition sample_stat : stat_result :=
  Stat 1 7 33152 0 0 1 (Z.of_nat (String.length sample_document)) 5 5.
Definition sample_calls : descriptor_calls :=
  Descriptor (Some sample_stat) true [Some (str_take 100 sample_document); Some (str_drop 100 sample_document); Some ""]
    (Some sample_stat).

Lemma load_descriptor_stable_witness :
  ∃ before data, dc_before sample_calls = Some before ∧ dc_after sample_calls = Some before
    ∧ secure_file before = true ∧ read_blocks (dc_reads sample_calls) "" = Ok data
    ∧ Z.of_nat (String.length data) = st_size before ∧ parse data = Ok sample_set.
Proof. apply (load_descriptor_stable sample_calls sample_set). vm_compute. reflexivity. Defined.

(** ** Readiness *)

Definition sample_persistent : PersistentEvidence :=
  Persistent (VStr sample_digest) (VStr sample_digest) (VInt 501) (VStr sample_account) (VStr sample_bag) (VBool true).
Definition sample_alias (lock_state : Z) : AliasEvidence :=
  Alias (VBool true) (VInt (-501)) (VStr sample_bag) (VInt lock_state) (VStr sample_account).
Definition absent_alias : AliasEvidence := Alias (VBool false) VNone VNone VNone VNone.
Definition ready_decision : ReadinessDecision := Decide "ready" "none" true true false.

Lemma match_ready_exact_witness :
  (rd_match_ready ready_decision = true ↔
     um_enabled sample_mapping = true ∧ "verify" ∈ um_capabilities sample_mapping
     ∧ persistent_bound sample_mapping sample_persistent
     ∧ ∃ z, alias_bound sample_mapping (sample_alias 40) z ∧ has_bits z (Z.lnot benign_bits) = false)
  ∧ rd_operation_permitted ready_decision = rd_match_ready ready_decision
  ∧ (rd_quarantine ready_decision = true → rd_match_ready ready_decision = false).
Proof.
  apply (match_ready_exact sample_mapping "verify" sample_persistent (sample_alias 40) ready_decision).
  vm_compute. reflexivity.
Defined.

Definition corrupted_decision : ReadinessDecision := unready "catacomb-corrupted" "quarantine" true.
Lemma quarantine_exact_witness :
  rd_quarantine corrupted_decision = true ↔
     um_enabled sample_mapping = true ∧ "verify" ∈ um_capabilities sample_mapping
     ∧ (¬ persistent_bound sample_mapping sample_persistent
        ∨ ae_present (sample_alias 136) = VBool true ∧ ∀ z, alias_bound sample_mapping (sample_alias 136) z →
            has_bits z (Z.lnot KNOWN_LOCK_STATE_BITS) || has_bits z CATACOMB_CORRUPTED = true).
Proof.
  apply (quarantine_exact sample_mapping "verify" sample_persistent (sample_alias 136) corrupted_decision).
  vm_compute. reflexivity.
Defined.

(** ** Activation *)

Definition absent_decision : ReadinessDecision := unready "alias-absent" "activate-and-reconcile-alias" false.
Definition sample_runtime : string := "22222222-3333-4444-5555-666666666666".
Definition later_runtime : string := "22222222-3333-4444-5555-777777777777".
Definition sample_activation_baseline : value :=
  activation_baseline sample_set sample_mapping "verify" absent_decision absent_alias sample_boot sample_runtime.

Lemma activation_plan_exact_witness :
  is_ok (activation_plan sample_set sample_mapping "verify" sample_persistent absent_alias sample_boot sample_runtime
           (Some sample_operation) "")
    = match assess sample_mapping "verify" sample_persistent absent_alias with
      | Ok d => bool_decide (rd_state d ∈ actionable_states) | Raise _ => false end
  ∧ ∀ d, assess sample_mapping "verify" sample_persistent absent_alias = Ok d → rd_state d ∈ actionable_states →
      let b := activation_baseline sample_set sample_mapping "verify" d absent_alias sample_boot sample_runtime in
      activation_plan sample_set sample_mapping "verify" sample_persistent absent_alias sample_boot sample_runtime
        (Some sample_operation) "" = Ok (sample_operation, b) ∧ validate_activation_baseline b = Ok b.
Proof.
  apply (activation_plan_exact sample_document); [exact sample_parsed| |vm_compute; reflexivity..].
  rewrite sample_parsed_order. apply list_elem_of_here.
Defined.

Definition runtime : string * value := ("runtime_generation", VStr sample_runtime).
Definition alias_of : string * value := ("special_alias", VInt (-501)).
Definition affirm (k : string) : string * value := (k, VBool true).
Definition command : list (string * value) := [("command_status", VInt 0); ("command_raised", VBool false)].
Definition activation_record (e : string * value) : value := candidate sample_operation e.1 e.2.
Definition activation_first : value :=
  candidate sample_operation "USER_ACTIVATION_BASELINE"
    (dict [("operation_kind", VStr "user-activation"); ("baseline", sample_activation_baseline)]).

(** Load, bind, unlock. *)
Definition activation_commands : list (string * value) :=
  [("USER_KEYBAG_LOAD_INTENT", dict [runtime; ("keybag_sha256", VStr sample_digest); affirm "mutation_possible"]);
   ("USER_KEYBAG_HANDLE_OBSERVED", dict [runtime; ("handle", VInt 3); affirm "bag_uuid_matches"]);
   ("USER_ALIAS_BIND_INTENT", dict [runtime; ("handle", VInt 3); alias_of; affirm "mutation_possible"]);
   ("USER_ALIAS_OBSERVED", dict ([runtime; alias_of; affirm "bag_uuid_matches"; affirm "account_uuid_matches"] ++ command));
   ("USER_ALIAS_UNLOCK_INTENT", dict [runtime; alias_of; affirm "mutation_possible"])].
Definition activation_events : list (string * value) :=
  activation_commands ++
  [("USER_ACTIVATION_READY", dict ([runtime; alias_of; affirm "bag_uuid_matches"; affirm "account_uuid_matches";
      ("readiness_state", VStr "ready"); ("source", VStr "unlock-readback")] ++ command))].
(** The unlock never returned and a later runtime found the user ready. *)
Definition recovery_events : list (string * value) :=
  activation_commands ++
  [("USER_ACTIVATION_OUTCOME_UNKNOWN", dict [runtime; ("stage", VStr "unlock"); ("reason", VStr "transport-lost");
      affirm "mutation_possible"]);
   ("USER_ACTIVATION_RECOVERY_OBSERVED", dict [("runtime_generation", VStr later_runtime);
      ("resolution", VStr "ready"); ("readiness_state", VStr "ready"); affirm "alias_present";
      affirm "bag_uuid_matches"; affirm "account_uuid_matches"; affirm "match_ready";
      ("mutation_performed", VBool false)])].

Definition activation_sample (events : list (string * value)) : UserActivationHistory :=
  ok_or (activation_history (ALoop VNone VNone activation_start_state) 0 VNone)
    (validate_history (activation_first :: map activation_record events)).
Example activation_run :
  validate_history (activation_first :: map activation_record activation_events) = Ok (activation_sample activation_events).
Proof. vm_compute. reflexivity. Qed.
Example recovery_run :
  validate_history (activation_first :: map activation_record recovery_events) = Ok (activation_sample recovery_events).
Proof. vm_compute. reflexivity. Qed.
Example recovery_sample_ready : ah_phase (activation_sample recovery_events) = U_RECOVERED_READY.
Proof. vm_compute. reflexivity. Qed.

Lemma activation_never_repeats_witness :
  path activation_edge U_BASELINE (map milestone_of (map activation_record recovery_events))
    (ah_phase (activation_sample recovery_events))
  ∧ NoDup (map milestone_of (map activation_record recovery_events))
  ∧ (length (activation_first :: map activation_record recovery_events) ≤ 8)%nat.
Proof. exact (activation_never_repeats _ _ _ recovery_run). Defined.

Lemma activation_runtime_bound_witness :
  let r := activation_record (nth 4 recovery_events ("", VNone)) in
  (r@["evidence"])@["runtime_generation"] ==? (ah_baseline (activation_sample recovery_events))@["runtime_generation"] = true
   ↔ r@["milestone"] ≠ VStr ARECOVERY.
Proof.
  apply (activation_runtime_bound _ _ _ _ recovery_run).
  change (activation_record (nth 4 recovery_events ("", VNone))) with
    (nth 4 (map activation_record recovery_events) (activation_record ("", VNone))).
  apply list_elem_of_In, nth_In. vm_compute. repeat constructor.
Defined.

Lemma activation_ready_proved_witness :
  ∃ rest' r, map activation_record recovery_events = rest' ++ [r] ∧ let ev := r@["evidence"] in
    ev@["bag_uuid_matches"] = VBool true ∧ ev@["account_uuid_matches"] = VBool true
    ∧ ev@["readiness_state"] = VStr "ready"
    ∧ (ah_phase (activation_sample recovery_events) = U_READY → milestone_of r = "USER_ACTIVATION_READY"
         ∧ ev@["special_alias"] ==? (ah_baseline (activation_sample recovery_events))@["special_alias"] = true)
    ∧ (ah_phase (activation_sample recovery_events) = U_RECOVERED_READY → milestone_of r = ARECOVERY
         ∧ ev@["match_ready"] = VBool true ∧ ev@["mutation_performed"] = VBool false).
Proof.
  apply (activation_ready_proved _ _ _ recovery_run). rewrite recovery_sample_ready.
  apply list_elem_of_further, list_elem_of_here.
Defined.
