(* ===== verification/FileSamples.v ===== *)
(** * Concrete journal files

    Journals that the model writes to files, on which the theorems about
    [append_checked], about the journals that append before they validate, and
    about the registry are evaluated. *)
From S2P Require Import Prelude PyValue Sha256 Json MutationJournal Evidence TypedJournal PersistenceJournal.
From S2P Require Import EnrollmentJournal RenameJournal DeleteJournal SyncJournal ExternalDeleteJournal.
From S2P Require Import UserMapping UserReadiness ActivationJournal MutationRegistry Samples JournalSamples UserSamples.

#[local] Open Scope Z_scope.

(** The file of a state, when there is one. *)
Definition file_of (s : fs) : file := match fs_entry s with Present f => f | _ => File "" true 0 1 384 end.
Definition records_of (s : fs) : list value := ok_or [] (read 0 (fs_entry s)).

(** ** The activation journal on a file *)

Definition created_activation : fs :=
  (activation_create 0 io_ok (λ s, s) (FS None Absent) sample_set sample_mapping "verify" sample_persistent absent_alias
     sample_boot sample_runtime (Some sample_operation) "").1.
Definition load_event : string * value := nth 0 activation_events ("", VNone).
Definition created_records : list value := Eval vm_compute in records_of created_activation.
Definition created_text : string := Eval vm_compute in content_of created_activation.
Definition created_file : file := File created_text true 0 1 384.
Definition created_history : UserActivationHistory :=
  Eval vm_compute in ok_or (activation_history (ALoop VNone VNone activation_start_state) 0 VNone)
    (validate_history created_records).

Example created_activation_file : created_activation = FS (Some (Directory true 0 448)) (Present created_file).
Proof. vm_compute. reflexivity. Qed.
Example created_reads : read 0 (Present created_file) = Ok created_records.
Proof. vm_compute. reflexivity. Qed.
Example created_validates : validate_history (J := activation_journal) created_records = Ok created_history.
Proof. vm_compute. reflexivity. Qed.

Definition loaded : fs * result UserActivationHistory :=
  activation_append_checked 0 io_ok (λ s, s) (λ s, s) (FS None (Present created_file)) sample_operation load_event.1 load_event.2.

Lemma append_checked_keeps_history_witness :
  (loaded.1 = FS None (Present created_file) ∧ is_ok loaded.2 = false)
  ∨ ∃ s1, let after := entry_content (fs_entry s1) in
     (loaded.1 = s1 ∧ is_ok loaded.2 = false
      ∨ loaded.1 = s1 ∧ loaded.2 = read_history (J := activation_journal) 0 (fs_entry loaded.1))
     ∧ ((after = created_text ∧ loaded.1 = s1 ∧ is_ok loaded.2 = false)
        ∨ (∃ written rest records, loaded.1 = s1 ∧ is_ok loaded.2 = false ∧ after = created_text +:+ written ∧ rest ≠ ""
            ∧ validate_records (readlines (created_text +:+ (written +:+ rest))) = Ok records)
        ∨ (∃ rs record y, validate_records (readlines created_text) = Ok rs
            ∧ validate_records (readlines after) = Ok (rs ++ [record])
            ∧ validate_history (J := activation_journal) (rs ++ [record]) = Ok y)
        ∨ ∃ rs0 rs, read 0 (Present created_file) = Ok rs0 ∧ validate_records (readlines created_text) = Ok rs
            ∧ collision rs0 rs).
Proof.
  apply (append_checked_keeps_history (J := activation_journal) 0 io_ok (λ s, s) (λ s, s) (FS None (Present created_file))
    sample_operation load_event.1 load_event.2 loaded.1 loaded.2).
  - vm_compute. reflexivity.
  - unfold loaded, activation_append_checked. apply surjective_pairing.
Defined.

Lemma append_checked_completes_witness :
  ∃ s' record z, append_checked (J := activation_journal) 0 io_ok (λ s, s) (λ s, s) (FS None (Present created_file))
      sample_operation load_event.1 load_event.2 = (s', Ok z)
    ∧ validate_history (created_records ++ [record]) = Ok z
    ∧ validate_records (readlines (entry_content (fs_entry s'))) = Ok (created_records ++ [record])
    ∧ tj_record_count z = tj_record_count created_history + 1
    ∧ same_entry record (candidate sample_operation load_event.1 load_event.2).
Proof.
  eapply (append_checked_completes (J := activation_journal) 0 None created_file sample_operation load_event.1
    load_event.2 created_records created_history _ created_reads); [| exact created_validates| | | | | |].
  - vm_compute. reflexivity.
  - vm_compute. reflexivity.
  - vm_compute. reflexivity.
  - vm_compute. reflexivity.
  - vm_compute. reflexivity.
  - vm_compute. reflexivity.
  - intros record payload Hplan.
    assert (match plan_append (f_content created_file) sample_operation load_event.1 load_event.2
        (Some (Z.of_nat (length created_records))) (Some (last_hash created_records)) with
      | Ok (_, p) => Z.of_nat (String.length (f_content created_file +:+ p)) <=? MAX_JOURNAL_BYTES
      | Raise _ => true end = true) as H by (vm_compute; reflexivity).
    rewrite Hplan in H. by apply Z.leb_le.
Defined.

Definition loaded_records : list value := Eval vm_compute in records_of loaded.1.
Definition loaded_text : string := Eval vm_compute in content_of loaded.1.
Example loaded_validates : validate_records (readlines loaded_text) = Ok (created_records ++ [nth 1 loaded_records VNone]).
Proof. vm_compute. reflexivity. Qed.

Lemma history_prefix_closed_witness :
  ∃ x', validate_history (J := activation_journal) created_records = Ok x'.
Proof.
  eapply (history_prefix_closed (readlines loaded_text) created_records [nth 1 loaded_records VNone] _ loaded_validates).
  - discriminate.
  - vm_compute. reflexivity.
Defined.

(** ** Synchronisation *)

Definition hash_field (k : string) : string * value := (k, VStr sample_digest).
Definition connection2 : string * value := ("connection_generation", VStr sample_connection2).
Definition sync_fields : list (string * value) := map hash_field (["mapping_generation"; "descriptor_snapshot_sha256";
  "initial_component_snapshot_sha256"; "initial_sep_catacomb_hash"; "identity_snapshot_sha256"]).
Definition unknown_event (stage : string) : string * value :=
  ("CATACOMB_SYNC_OUTCOME_UNKNOWN", dict [("stage", VStr stage); ("reason", VStr "lost"); yes "mutation_possible";
      yes "host_commit_possible"]).
(** A lost synchronisation, found clean over a fresh connection. *)
Definition sync_events : list (string * value) :=
  [("CATACOMB_SYNC_INTENT", dict (conn :: sync_fields));
   ("CATACOMB_SYNC_HOST_COMMITTED", dict [conn; hash_field "final_component_snapshot_sha256";
      hash_field "secure_blob_snapshot_sha256"]);
   unknown_event "confirm";
   ("CATACOMB_SYNC_RECOVERED_CLEAN", dict [connection2; hash_field "final_component_snapshot_sha256";
      hash_field "identity_snapshot_sha256"; hash_field "final_sep_catacomb_hash"; yes "sep_clean";
      yes "local_live_equal"])].
(** One lost before its host commit. *)
Definition lost_events : list (string * value) := [("CATACOMB_SYNC_INTENT", dict (conn :: sync_fields)); unknown_event "prepare"].

Definition sync_sample (events : list (string * value)) : CatacombSyncHistory :=
  ok_or (sync_history (SLoop VNone VNone 0 sync_start_state) 0 VNone)
    (validate_history (first_record "sync-user-catacomb" :: map record_of events)).
Example sync_run :
  validate_history (first_record "sync-user-catacomb" :: map record_of sync_events) = Ok (sync_sample sync_events).
Proof. vm_compute. reflexivity. Qed.
Example lost_run :
  validate_history (first_record "sync-user-catacomb" :: map record_of lost_events) = Ok (sync_sample lost_events).
Proof. vm_compute. reflexivity. Qed.

Lemma sync_recovers_at_most_once_witness :
  path sync_edge (S_BASELINE, false) (map milestone_of (map record_of sync_events))
    (sh_phase (sync_sample sync_events), sh_recovery_attempted (sync_sample sync_events))
  ∧ ∀ i j mi mj, map milestone_of (map record_of sync_events) !! i = Some mi → mi ∈ sync_recoveries →
      map milestone_of (map record_of sync_events) !! j = Some mj → mj ∈ sync_recoveries → i = j.
Proof. exact (sync_recovers_at_most_once _ _ _ sync_run). Defined.

Lemma sync_unknown_dead_end_witness :
  is_ok (validate_history (J := sync_journal)
    ((first_record "sync-user-catacomb" :: map record_of lost_events) ++ [record_of (nth 3 sync_events ("", VNone))])) = false.
Proof.
  apply (sync_unknown_dead_end _ _ _ lost_run); [vm_compute; reflexivity|]. left. vm_compute. reflexivity.
Defined.

(** ** External deletion *)

Definition no_sep : string * value := ("sep_mutation_performed", VBool false).
Definition external_evidence : value := dict (
  [("operation_kind", VStr "reconcile-external-delete"); ("apple_uid", VInt 501);
   ("linux_boot_uuid", VStr sample_boot); conn; ("local_identity_count", VInt 2); ("live_identity_count", VInt 1);
   ("stale_identity_uuid", VStr new_identity); ("stale_entity", VInt 2); ("backup_reference", VStr sample_operation);
   no_sep] ++ map hash_field (["mapping_generation"; "stale_name_sha256"; "local_snapshot_sha256";
   "live_snapshot_sha256"; "survivor_snapshot_sha256"; "before_user_sha256"; "other_components_snapshot_sha256";
   "backup_snapshot_sha256"])).
Definition external_first : value := candidate sample_operation "EXTERNAL_DELETE_BASELINE" external_evidence.
Definition staged : string * value := hash_field "staged_user_sha256".
Definition external_events : list (string * value) :=
  [("EXTERNAL_DELETE_INTENT", dict [conn; staged; hash_field "survivor_snapshot_sha256"; ("identity_count", VInt 1); no_sep]);
   ("EXTERNAL_DELETE_HOST_COMMITTED", dict [staged; ("recovery_action", VStr "direct"); no_sep]);
   ("EXTERNAL_DELETE_RECONCILED", dict [connection2; staged; ("identity_count", VInt 1); yes "local_live_equal";
      yes "target_absent"; yes "other_components_unchanged"; no_sep])].
(** Committed, then ambiguous. *)
Definition ambiguous_events : list (string * value) :=
  take 2 external_events ++
  [("EXTERNAL_DELETE_OUTCOME_UNKNOWN", dict [("stage", VStr "readback"); yes "host_commit_possible"; no_sep])].
Definition external_abort : string * value :=
  ("EXTERNAL_DELETE_ABORTED", dict [("reason", VStr "prepare-discarded"); ("host_commit_possible", VBool false); no_sep]).

Definition external_sample (events : list (string * value)) : ExternalDeleteHistory :=
  ok_or (external_history (XLoop VNone VNone external_start_state) 0 VNone)
    (validate_history (external_first :: map record_of events)).
Example external_run :
  validate_history (external_first :: map record_of external_events) = Ok (external_sample external_events).
Proof. vm_compute. reflexivity. Qed.
Example ambiguous_run :
  validate_history (external_first :: map record_of ambiguous_events) = Ok (external_sample ambiguous_events).
Proof. vm_compute. reflexivity. Qed.

Lemma external_delete_never_mutates_witness :
  path external_edge X_BASELINE (map milestone_of (map record_of external_events)) (xh_phase (external_sample external_events))
  ∧ (∀ r, r ∈ external_first :: map record_of external_events → (r@["evidence"])@["sep_mutation_performed"] = VBool false)
  ∧ ∃ n, 1 <= n ∧ (xh_baseline (external_sample external_events))@["live_identity_count"] = VInt n
      ∧ (xh_baseline (external_sample external_events))@["local_identity_count"] = VInt (n + 1).
Proof. exact (external_delete_never_mutates _ _ _ external_run). Defined.

Lemma external_delete_proved_witness :
  ∃ rest' r, map record_of external_events = rest' ++ [r] ∧ milestone_of r = "EXTERNAL_DELETE_RECONCILED"
    ∧ let ev := r@["evidence"] in
    ev@["staged_user_sha256"] ==? (xh_intent (external_sample external_events))@["staged_user_sha256"] = true
    ∧ ev@["identity_count"] ==? (xh_baseline (external_sample external_events))@["live_identity_count"] = true
    ∧ Forall (λ k, ev@[k] = VBool true) ["local_live_equal"; "target_absent"; "other_components_unchanged"].
Proof. apply (external_delete_proved _ _ _ external_run). vm_compute. reflexivity. Defined.

Lemma external_abort_always_accepted_witness :
  ∃ h', validate_history (J := external_journal)
      ((external_first :: map record_of ambiguous_events) ++ [record_of external_abort]) = Ok h'
    ∧ xh_phase h' = X_ABORTED.
Proof.
  apply (external_abort_always_accepted _ _ _ ambiguous_run).
  - vm_compute. reflexivity.
  - split; [|split]; vm_compute; reflexivity.
  - vm_compute. discriminate.
Defined.

(** A file with nothing but its baseline, to which a proof is appended out of
    order. *)
Definition created_external : fs := (external_create 0 io_ok (λ s, s) (FS None Absent) sample_operation external_evidence).1.
Definition external_text : string := Eval vm_compute in content_of created_external.
Definition external_file : file := File external_text true 0 1 384.
Definition external_records : list value := Eval vm_compute in records_of created_external.
Example external_reads : read 0 (Present external_file) = Ok external_records.
Proof. vm_compute. reflexivity. Qed.

Lemma external_append_writes_before_validating_witness :
  let '(s', r) := external_append_checked 0 io_ok (λ s, s) (λ s, s) (FS None (Present external_file)) sample_operation
    "EXTERNAL_DELETE_RECONCILED" (dict []) in
  is_ok r = false ∧ is_ok (external_read 0 (fs_entry s')) = false
  ∧ ∃ record, validate_records (readlines (entry_content (fs_entry s'))) = Ok (external_records ++ [record])
      ∧ same_entry record (candidate sample_operation "EXTERNAL_DELETE_RECONCILED" (dict [])).
Proof.
  eapply (external_append_writes_before_validating 0 None external_file sample_operation "EXTERNAL_DELETE_RECONCILED"
    (dict []) external_records _ external_reads); vm_compute; reflexivity.
Defined.

(** ** The registry *)

(** A rename that was rolled forward and awaits its reboot. *)
Definition rolled_forward : list (string * value) :=
  [nth 0 rename_events ("", VNone);
   ("RENAME_RECOVERY_INTENT", dict [("action", VStr "commit-rolled-forward"); mapping; yes "host_commit_possible";
      yes "mutation_possible"]);
   ("RENAME_RECOVERY_RECONCILED_COMMITTED", dict [connection2; ("identity_uuid", VStr sample_identity);
      ("name_sha256", VStr name_digest); ("snapshot_sha256", VStr snapshot_digest); mapping;
      ("identity_count", VInt 1); yes "identity_set_unchanged"; yes "local_live_equal"; yes "sep_clean";
      yes "host_reconciled"; ("recovery_action", VStr "commit-rolled-forward")])].
Definition write_all (s : fs) (events : list (string * value)) : fs :=
  foldl (λ s e, (append 0 io_ok s sample_operation e.1 e.2 false None None).1) s events.
Definition rolled_text : string := Eval vm_compute in content_of (write_all
  (append 0 io_ok (FS None Absent) sample_operation "BASELINE_RECONCILED"
     (dict [("operation_kind", VStr "rename"); ("baseline", sample_baseline)]) true None None).1 rolled_forward).

Definition private_root : directory := Directory true 0 448.
Definition journal_path (op : string) : string := op +:+ ".jsonl".
(** Nothing in flight: an external deletion that has not started. *)
Definition idle_files : list (string * entry) := [(journal_path sample_operation, Present external_file)].
Definition idle_entry : MutationEntry := Entry "reconcile-external-delete" "external-delete-baseline" false false.
(** Next to it, the rename. *)
Definition pending_entry : MutationEntry := Entry "rename" "reconciled" true true.
Definition pending_files : list (string * entry) :=
  (journal_path sample_boot, Present (File rolled_text true 0 1 384)) :: idle_files.

Example idle_scan : scan 0 private_root idle_files = Ok [idle_entry].
Proof. vm_compute. reflexivity. Qed.
Example pending_scan : scan 0 private_root pending_files = Ok [pending_entry; idle_entry].
Proof. vm_compute. reflexivity. Qed.

Lemma registry_order_independent_witness :
  scan 0 private_root pending_files = scan 0 private_root (rev pending_files)
  ∧ blocks_new_mutation 0 private_root pending_files None = blocks_new_mutation 0 private_root (rev pending_files) None.
Proof.
  apply registry_order_independent.
  - apply (bool_decide_unpack _). vm_compute. exact I.
  - apply Permutation_swap.
Defined.

Lemma registry_fails_closed_witness :
  d_isdir private_root = true ∧ d_uid private_root = 0 ∧ group_or_other (d_mode private_root) = false
  ∧ length [pending_entry; idle_entry] = length pending_files
  ∧ ∀ file, file ∈ pending_files → journal_name file.1 = true ∧ secure_regular_file 0 file.2 = true
      ∧ ∃ rs e, read 0 file.2 = Ok rs ∧ e ∈ [pending_entry; idle_entry] ∧ kind_of rs = VStr (me_kind e)
          ∧ (accepted rs = true ∨ me_kind e ∈ ["delete-batch"; "recovery"] ∧ me_blocks_new_mutation e = true).
Proof. exact (registry_fails_closed _ _ _ _ pending_scan). Defined.

Lemma unblocked_registry_settled_witness :
  ∃ rs, read 0 (Present external_file) = Ok rs
    ∧ ((∃ k, None = Some k ∧ kind_of rs = VStr k) ∨ accepted rs = true ∧ settled rs).
Proof.
  apply (unblocked_registry_settled 0 private_root idle_files None) with (file := (journal_path sample_operation, Present external_file)).
  - unfold blocks_new_mutation. rewrite idle_scan. reflexivity.
  - apply list_elem_of_here.
Defined.

Lemma post_reboot_pending_blocks_witness : blocks_new_mutation 0 private_root pending_files None = Ok true.
Proof. apply (post_reboot_pending_blocks _ _ _ _ pending_entry pending_scan); [apply list_elem_of_here|reflexivity]. Defined.
