(* ===== verification/ProtocolSamples.v ===== *)
(** * Concrete protocol runs

    Enrolment runs, policy decisions and a Bridge exchange on which the
    witnesses of the protocol files are evaluated.  [plistlib] is instantiated
    with the JSON codec, which has the behaviour the exchange relies on. *)
From S2P Require Import Prelude PyValue Sha256 Json MutationJournal Effect Bytes.
From S2P Require Import UserMapping UserReadiness UserPolicy EnrollmentProtocol BridgeWire Samples UserSamples.

#[local] Open Scope Z_scope.

(** ** Enrolment *)

Definition touch_event : ServiceEvent := Event 7 SERVICE_STATUS 1 63 [].
Definition scan_event : ServiceEvent := Event 9 SERVICE_STATUS 2 355 [].
Definition cancel_event : ServiceEvent := Event 12 SERVICE_STATUS 1 66 [].
Definition fresh_machine : machine := Machine 501 "connection" "operation" ACTIVE None [].
Definition enrolling (e : ServiceEvent) : call := Accept e "connection" "operation".

Lemma enrollment_status_domain_witness :
  ∃ d, status_row STATUS_TABLE (se_ordinal touch_event) = Some d
     ∧ accept_event touch_event fresh_machine = perform d (se_ordinal touch_event) fresh_machine.
Proof.
  apply enrollment_status_domain; [vm_compute; reflexivity|reflexivity|left; reflexivity|vm_compute; reflexivity].
Defined.

Definition cancelled_calls : list call := [enrolling touch_event; Cancel; enrolling cancel_event; enrolling scan_event].
Definition cancelled_run := run_calls cancelled_calls fresh_machine.

Lemma calls_wf : Forall call_wf cancelled_calls.
Proof. repeat constructor. Qed.

Lemma enrollment_one_outcome_witness :
  ∃ rj, cancelled_run.1 !! 3%nat = Some rj ∧ ∃ msg, rj = Raise (Exn EnrollmentProtocolError msg).
Proof.
  eexists. split; [vm_compute; reflexivity|].
  apply (enrollment_one_outcome cancelled_calls fresh_machine cancelled_run.1 cancelled_run.2 2 3
           (Ok (Some (transition ACT_CANCELLED CANCELLED))) _ calls_wf);
    [apply surjective_pairing|vm_compute; reflexivity..|lia|reflexivity].
Defined.

Definition enrolled_calls : list call := [enrolling touch_event; enrolling scan_event; enrolling cancel_event].
Definition enrolled_run := run_calls enrolled_calls fresh_machine.

Lemma enrollment_run_sound_witness :
  StronglySorted Z.lt (accepted enrolled_calls enrolled_run.1)
  ∧ ∀ t, Ok (Some t) ∈ enrolled_run.1 →
      (∀ i, tr_identity t = Some i → ei_user_id i = 501)
      ∧ (∀ p, tr_progress_percent t = Some p → 0 ≤ p ≤ 100).
Proof.
  apply (enrollment_run_sound 501 "connection" "operation" fresh_machine enrolled_calls enrolled_run.1 enrolled_run.2);
    [vm_compute; reflexivity|repeat constructor|apply surjective_pairing].
Defined.
Example enrolled_sequences : accepted enrolled_calls enrolled_run.1 = [7; 9; 12].
Proof. vm_compute. reflexivity. Qed.

Definition sample_form : bytes := map Ascii.ascii_of_nat (seq 1 16).
Definition sample_request : SensitiveEnrollmentRequest := ok_or (Request [] true 0) (new_request 2 501 sample_form).
Lemma start_request_layout_witness :
  unpack (START_LAYOUT 2) (rq_buffer sample_request)
    = Ok (0, (501, (0, (16, (sample_form, (zeros (start_tail 2), tt))))))
  ∧ request_buffer sample_request = Ok (rq_buffer sample_request)
  ∧ request_buffer (wipe sample_request) = raise EnrollmentProtocolError "enrollment request has been wiped"
  ∧ rq_buffer (wipe sample_request) = zeros (length (rq_buffer sample_request)).
Proof. apply start_request_layout. vm_compute. reflexivity. Defined.

(** ** Policy *)

Definition sample_authorization : string := "12345678-1234-1234-1234-123456789abc".
Definition sample_caller : CallerEvidence := Caller (VInt 1000) (VStr sample_digest) (VBool true) (VBool true).
Definition enroll_request : OperationRequest :=
  OpRequest "enroll" (VInt 1000) (VStr sample_operation) (VStr sample_boot) (VStr sample_runtime) (VInt 500) (VBool true).
Definition grant_for (action : string) : PolicyGrant :=
  Grant (VStr sample_authorization) (VStr action) (VInt 1000) (VStr sample_digest) (VInt 1000)
    (VStr (ums_generation sample_set)) (VStr sample_operation) (VStr sample_boot) (VStr sample_runtime)
    (VInt 400) (VInt 90000) (VBool true).
Definition enroll_grant : PolicyGrant := grant_for "org.t2linux.touchid.enroll".
Definition activate_grant : PolicyGrant := grant_for ACTIVATE_ACTION.
Definition empty_decision : UserPolicyDecision := PolicyDecision "" "" "" false false false None false None None.

(** The alias is absent, so the enrolment is not authorized but its activation
    is. *)
Definition activation_decision : UserPolicyDecision :=
  ok_or empty_decision (authorize sample_set enroll_request sample_caller sample_persistent absent_alias
                          (Some enroll_grant) (Some activate_grant)).
Lemma authorize_exact_witness :
  (pd_operation_permitted activation_decision = true ↔
     ∃ policy m g rd, eligible sample_set enroll_request sample_caller sample_persistent absent_alias
                        (Some enroll_grant) policy m g rd ∧ rd_state rd = "ready")
  ∧ (pd_activation_permitted activation_decision = true ↔
     ∃ policy m g rd g2, eligible sample_set enroll_request sample_caller sample_persistent absent_alias
                           (Some enroll_grant) policy m g rd ∧ rd_state rd ∈ NOT_ACTIVE_STATES
       ∧ Some activate_grant = Some g2
       ∧ granted g2 ACTIVATE_ACTION sample_caller enroll_request (ums_generation sample_set))
  ∧ (pd_operation_permitted activation_decision && pd_activation_permitted activation_decision = false).
Proof. apply authorize_exact. vm_compute. reflexivity. Defined.
Example activation_permitted : pd_activation_permitted activation_decision = true.
Proof. vm_compute. reflexivity. Qed.

Definition ready_policy_decision : UserPolicyDecision :=
  ok_or empty_decision (authorize sample_set enroll_request sample_caller sample_persistent (sample_alias 40)
                          (Some enroll_grant) None).
Lemma authority_consumed_exactly_witness :
  require_bound_authority ready_policy_decision sample_set sample_mapping (VStr "enroll") (VStr sample_boot)
    (VStr sample_runtime) (VInt 600) false = Ok (VStr sample_operation) ↔
  pd_operation_permitted ready_policy_decision = true
  ∧ VStr sample_operation = or_operation_id enroll_request
  ∧ pd_selected_mapping ready_policy_decision = Some sample_mapping ∧ sample_mapping ∈ ums_mappings sample_set
  ∧ ums_generation sample_set = ums_generation sample_set
  ∧ (∃ policy, OPERATION_POLICIES (or_operation enroll_request) = Some policy ∧ op_capability policy = "enroll")
  ∧ or_linux_boot_uuid enroll_request = VStr sample_boot ∧ or_runtime_generation enroll_request = VStr sample_runtime
  ∧ ∃ t, VInt 600 = VInt t ∧ 0 <= t < 2 ^ 63
      ∧ (∀ g, Some enroll_grant = Some g → t <= int_value (pg_expires_monotonic_ns g))
      ∧ (false = true → ∀ g, None = Some g → t <= int_value (pg_expires_monotonic_ns g)).
Proof.
  apply (authority_consumed_exactly sample_set enroll_request sample_caller sample_persistent (sample_alias 40)
           (Some enroll_grant) None ready_policy_decision).
  vm_compute. reflexivity.
Defined.
Example authority_consumed :
  require_bound_authority ready_policy_decision sample_set sample_mapping (VStr "enroll") (VStr sample_boot)
    (VStr sample_runtime) (VInt 600) false = Ok (VStr sample_operation).
Proof. vm_compute. reflexivity. Qed.

(** ** A Bridge exchange with one callback, cut into small segments *)

Definition toy_dumps (v : value) : result bytes :=
  match dumps v with Some s => Ok (String.list_ascii_of_string s) | None => raise ValueError "not serialisable" end.
Definition toy_loads (b : bytes) : result value :=
  match loads (String.string_of_list_ascii b) with Some v => Ok v | None => raise ValueError "invalid" end.
Definition toy_body (v : value) : bytes := ok_or [] (toy_dumps v).

Definition sample_payload : value := VList [VInt 3; VInt 0; VStr "data"; VInt 16].
Definition sample_callback : callback :=
  Callback (toy_body (VList [VInt 1; VBool false; VStr "callback"; VStr "event"])) "callback" (VStr "event")
    (toy_body (VList [VInt 1; VBool true; VStr "callback"; VList [VInt 0]])).
Definition reply_body : bytes := toy_body (VList [VInt 1; VBool true; VStr "request"; VInt 5]).
Definition wire : bytes := frame TYPE_MESSAGE (cb_body sample_callback) ++ frame TYPE_MESSAGE reply_body.
Definition sample_sock : sock := Sock [Some (take 5 wire); Some (drop 5 wire)] [].
Definition sample_request_body : bytes := toy_body (VList [VInt 1; VBool false; VStr "request"; sample_payload]).

Lemma body_valid b : (Z.of_nat (length b) <=? MAX_FRAME_BODY) = true → frame_valid TYPE_MESSAGE b.
Proof. intros ?%Z.leb_le. by split. Qed.

Lemma request_exact_witness :
  ∃ s', request_with_events toy_dumps toy_loads "request" sample_payload sample_sock
          = (Ok (VInt 5, [VStr "event"]), s')
    ∧ stream (sk_in s') = []
    ∧ sk_out s' = frame TYPE_MESSAGE sample_request_body ++ frame TYPE_MESSAGE (cb_ack sample_callback) ++ [].
Proof.
  apply request_exact. exists sample_request_body, [sample_callback], reply_body. split_and!; [..|reflexivity|reflexivity].
  - vm_compute. reflexivity.
  - vm_compute. reflexivity.
  - constructor; [|constructor]. split; [split; [apply body_valid; vm_compute; reflexivity|]|split; [vm_compute; reflexivity|]].
    + exists (VInt 1). split; [vm_compute; reflexivity|reflexivity].
    + vm_compute. reflexivity.
  - split; [apply body_valid; vm_compute; reflexivity|]. exists (VInt 1). split; [vm_compute; reflexivity|reflexivity].
  - vm_compute. reflexivity.
Defined.

(** As long as the reply has not arrived, the request waits. *)
Example silent_peer : exn_cls <$> (match (request_with_events toy_dumps toy_loads "request" sample_payload
    (Sock [Some (frame TYPE_MESSAGE (cb_body sample_callback))] [])).1 with Ok _ => None | Raise e => Some e end) = Some Blocked.
Proof. vm_compute. reflexivity. Qed.
