(* ===== verification/CatacombSamples.v ===== *)
(** * A concrete archive

    A user archive with two fingerprints, on which the witnesses of the archive
    files are evaluated.  [plistlib] is instantiated with a codec that knows
    one value: it writes that value as a fixed text and reads it back. *)
From S2P Require Import Prelude PyValue Sha256 UuidFacts Json MutationJournal Effect Bytes KeyedArchive CatacombOracle CatacombCodec.
From S2P Require Import CatacombDecode CatacombWrite CatacombStore StoreRecovery Samples.
From stdpp Require Import gmap.

#[local] Open Scope Z_scope.

Definition one_dumps (_ : plist) : result bytes := Ok (text "bplist00 the only value").
Definition one_loads (root : plist) (_ : bytes) : result plist := Ok root.
Definition one_data : bytes := text "bplist00 the only value".

Definition half : spec_float := S754_finite false 1 (-1).
Definition finger (uuid entity : Z) (name : string) : Identity :=
  MkIdentity (uuid_str uuid) 501 entity name 1 0 0 3 2 1 half.
Definition index_finger : Identity := finger 0x123 1 "right-index-finger".
Definition thumb : Identity := finger 0x456 2 "left-thumb".
Definition sample_envelope : bytes := text "LTFC" ++ zeros 20.
Definition sample_archive : UserCatacomb :=
  MkUserCatacomb 501 sample_envelope (uuid_str 7) (uuid_str 8) 3 [17; 20]%nat [index_finger; thumb].
Definition root_of (ids : list Identity) (secure : option bytes) : plist := ok_or PNone (build_root sample_archive ids secure).
Definition sample_root : plist := root_of [index_finger; thumb] None.

Lemma encoding_of root : plist_encoding one_dumps (one_loads root) root one_data.
Proof. split; reflexivity. Qed.

Example sample_archive_decodes :
  decode_user_catacomb (one_loads sample_root) one_data 501 = Ok sample_archive.
Proof. vm_compute. reflexivity. Qed.

Lemma decoded_archive_ok_witness : archive_ok sample_archive ∧ uc_expected_user_id sample_archive = 501.
Proof. exact (decoded_archive_ok _ _ _ _ sample_archive_decodes). Defined.

Lemma readers_agree_witness : read_user (one_loads sample_root) one_data 501 = Ok (model_of sample_archive).
Proof. exact (readers_agree _ _ _ _ sample_archive_decodes). Defined.

Lemma sample_archive_ok : archive_ok sample_archive.
Proof.
  pose proof sample_archive_decodes as H. unfold decode_user_catacomb in H. apply bind_Ok in H as ([top objects] & _ & H).
  exact (proj1 (read_table_ok _ _ _ _ H)).
Qed.

Definition fingers : list Identity := [index_finger; thumb].

Lemma written_archive_reads_back_witness :
  write_user one_dumps (one_loads sample_root) sample_archive fingers None = Ok one_data
  ∧ decode_user_catacomb (one_loads sample_root) one_data 501 = Ok (rewritten sample_archive fingers None).
Proof.
  destruct (written_archive_reads_back one_dumps (one_loads sample_root) sample_archive fingers None) as (root & Hb & H).
  - exact sample_archive_ok.
  - exact (aok_identities _ sample_archive_ok).
  - discriminate.
  - exact (aok_secure _ sample_archive_ok).
  - apply H. replace root with sample_root; [apply encoding_of|]. exact (f_equal (ok_or PNone) Hb).
Defined.

(** The first finger renamed, and the first finger deleted. *)
Definition renamed : list Identity := alter (set_name "left-index-finger") 0%nat fingers.
Example renamed_encoding : ∃ root, build_root sample_archive renamed None = Ok root
  ∧ plist_encoding one_dumps (one_loads (root_of renamed None)) root one_data.
Proof. eexists. split; [reflexivity|apply encoding_of]. Qed.

Definition master_sample : plist := master_root sample_envelope 2 half.
Lemma components_read_back_witness :
  master_encode one_dumps (one_loads master_sample) (MkMaster 1 sample_envelope half) (Some sample_envelope) (Some 2) (Some half)
    = Ok one_data
  ∧ decode_master_catacomb (one_loads master_sample) one_data = Ok (MkMaster 2 sample_envelope half).
Proof.
  destruct (components_read_back one_dumps (one_loads master_sample)) as [H _]. apply H.
  - split; [split; apply Z.leb_le; reflexivity|reflexivity].
  - split; apply Z.leb_le; reflexivity.
  - reflexivity.
  - apply encoding_of.
Defined.

(** ** A transaction of the store *)

Definition user_name : string := "user_000001f5.cat".
Definition store_names : gset string := {["master.cat"; "biolockout.cat"; user_component 501]}.
Definition user_loads : bytes → result plist := one_loads sample_root.
Definition next_data : bytes := text "bplist00 the next value".
Definition old_root : gmap string dfile := {[user_name := DFile true one_data]}.
Definition next_data_set : gmap string bytes := {[user_name := next_data]}.
Definition next_hashes : gmap string string := {[user_name := sha256 next_data]}.
Definition prepared_store : store :=
  Store true old_root (Some (Dir true {[user_name := DFile true next_data]})) None.
(** The process stops after the old component was unlinked; the second
    recovery is cut off as well. *)
Definition stops_at (k : nat) : faults := Faults (λ n, (n =? k)%nat) (λ _, 7).
Definition no_faults : faults := Faults (λ _, false) (λ _, 7).
Definition cut_off := cross_commit_boundary user_loads 501 store_names (stops_at 13) next_hashes (SWorld prepared_store 0).
Definition cut_again := recover user_loads 501 store_names (stops_at 3) next_hashes (SWorld (sw_store cut_off.2) 0).

Lemma user_sound data : data = one_data ∨ data = next_data → sound_file user_loads 501 user_name (DFile true data).
Proof. intros [->| ->]; (split; [done|apply Z.leb_le; reflexivity|vm_compute; reflexivity]). Qed.

Lemma sample_transaction_ok : transaction_ok user_loads 501 store_names next_hashes old_root.
Proof.
  split.
  - reflexivity.
  - unfold next_hashes. rewrite dom_singleton_L. apply (bool_decide_unpack _). vm_compute. exact I.
  - unfold next_hashes. apply insert_non_empty.
  - unfold next_hashes, old_root. intros n file. rewrite dom_singleton_L, elem_of_singleton. intros ->.
    rewrite lookup_singleton_eq. intros [= <-]. apply user_sound. by left.
Qed.

Lemma sample_prepared : preparing user_loads 501 next_hashes old_root (dom next_hashes) prepared_store.
Proof.
  split; [done|]. split; [done|]. eexists. split; [reflexivity|]. split; [done|]. cbn [d_files]. unfold next_hashes.
  split; [by rewrite !dom_singleton_L|]. apply map_Forall_singleton. split; [apply user_sound; by right|].
  by rewrite lookup_singleton_eq.
Qed.

Lemma transaction_atomic_witness :
  let crossed := rolls_forward user_loads 501 next_hashes old_root (sw_store cut_off.2) in
  let kept := rolls_back user_loads 501 next_hashes old_root (sw_store cut_off.2) in
  (kept ∨ crossed) ∧ ∃ action w,
    recover user_loads 501 store_names no_faults next_hashes (SWorld (sw_store cut_again.2) 0) = (Ok action, w)
    ∧ (kept → clean_old old_root (sw_store w)) ∧ (crossed → clean_new user_loads 501 next_hashes old_root (sw_store w)).
Proof.
  destruct (transaction_atomic user_loads 501 store_names next_hashes old_root prepared_store (stops_at 13) 0
    sample_transaction_ok sample_prepared) as (Hside & _ & H).
  split; [exact Hside|]. apply H.
  - apply recoveries_more with (f := stops_at 3) (n := 0%nat). apply recoveries_none.
  - intros [n [Hn|Hn]]; [discriminate Hn|]. apply Hn. reflexivity.
Defined.

(** The old component is gone, and the new one still in [commit/]. *)
Example cut_off_between : st_root (sw_store cut_off.2) = ∅ ∧ st_prepare (sw_store cut_off.2) = None.
Proof. vm_compute. split; reflexivity. Qed.

Lemma sample_components_ok : components_ok user_loads 501 store_names next_data_set [(user_name, next_data)].
Proof.
  split.
  - reflexivity.
  - reflexivity.
  - apply (bool_decide_unpack _). vm_compute. exact I.
  - unfold next_data_set. rewrite dom_singleton_L. apply (bool_decide_unpack _). vm_compute. exact I.
  - unfold next_data_set. apply insert_non_empty.
  - unfold next_data_set. intros n d [<- <-]%lookup_singleton_Some. apply user_sound. by right.
Qed.

Definition idle_store : store := Store true old_root None None.
Lemma staging_installs_witness :
  st_root (sw_store (stage user_loads 501 store_names no_faults [(user_name, next_data)] (SWorld idle_store 0)).2) = old_root
  ∧ ∃ w w', stage user_loads 501 store_names no_faults [(user_name, next_data)] (SWorld idle_store 0)
      = (Ok (sha256 <$> next_data_set), w)
    ∧ cross_commit_boundary user_loads 501 store_names no_faults (sha256 <$> next_data_set) w = (Ok tt, w')
    ∧ st_prepare (sw_store w') = None ∧ st_commit (sw_store w') = None
    ∧ (∀ name d, next_data_set !! name = Some d → ∃ file, st_root (sw_store w') !! name = Some file
         ∧ df_safe file = true ∧ sha256 (df_content file) = sha256 d)
    ∧ ∀ name, next_data_set !! name = None → st_root (sw_store w') !! name = old_root !! name.
Proof.
  destruct (staging_installs user_loads 501 store_names old_root next_data_set [(user_name, next_data)] idle_store 0 no_faults)
    as [H1 H2].
  - exact sample_components_ok.
  - split; [reflexivity|]. split; reflexivity.
  - unfold old_root. intros n file _ [<- <-]%lookup_singleton_Some. apply user_sound. by left.
  - split; [exact H1|]. apply H2. intros [n [Hn|Hn]]; [discriminate Hn|]. apply Hn. reflexivity.
Defined.

(** A process that stops before the first write of a component leaves it
    torn. *)
Definition torn_store : store :=
  sw_store (stage user_loads 501 store_names (stops_at 8) [(user_name, next_data)] (SWorld idle_store 0)).2.
Example staging_tears : st_prepare torn_store = Some (Dir true {[user_name := DFile true []]}).
Proof. vm_compute. reflexivity. Qed.
Lemma torn_component_blocks_witness :
  ∃ e k, recover user_loads 501 store_names no_faults next_hashes (SWorld torn_store 0) = (Raise e, SWorld torn_store k).
Proof.
  destruct (torn_component_blocks user_loads 501 store_names no_faults next_hashes (dom next_hashes) 0 torn_store
    (Dir true {[user_name := DFile true []]}) user_name eq_refl staging_tears (lookup_singleton_eq _ _)) as [H _].
  exact H.
Defined.
