(* ===== verification/IdentitySamples.v ===== *)
(** * Concrete inventories and plans

    The archive of [CatacombSamples] with the live inventory of the
    coprocessor that agrees with it, the save listing of an enrolment, and
    the plans made from them. *)
From S2P Require Import Prelude PyValue Sha256 UuidFacts Json MutationJournal Effect Bytes KeyedArchive CatacombOracle CatacombCodec.
From S2P Require Import CatacombDecode CatacombWrite CatacombProtocol IdentityInventory IdentityPlans Samples CatacombSamples.

#[local] Open Scope Z_scope.

(** ** A save listing *)

Definition user_501 : CatacombState := State (component_of_user 501) 0x0C.
Definition master_state : CatacombState := State (component_of_user UINT32_MAX) 0x04.
Definition other_user : CatacombState := State (component_of_user 502) 0x01.
Definition a_group : CatacombState := State (Component 501 1 (zeros 16)) 0x02.

Lemma save_plan_exact_witness :
  plan_builtin_enrollment_save [user_501; master_state; other_user] 501 [a_group]
    = Ok (component_of_user 501, component_of_user UINT32_MAX).
Proof.
  apply (save_plan_exact [user_501; master_state; other_user] 501 [a_group]).
  - repeat constructor; simpl; unfold UINT32_MAX; lia || done.
  - split; [reflexivity|]. split; [unfold UINT32_MAX; lia|]. split; [apply (bool_decide_unpack _); vm_compute; exact I|].
    split; [by right; left|]. split; [by left|]. intros s Hs.
    assert (Hin : s ∈ [user_501; master_state; other_user; a_group]) by exact Hs.
    repeat (apply elem_of_cons in Hin as [->|Hin]; [by vm_compute|]). by apply not_elem_of_nil in Hin.
Defined.

(** ** The live inventory *)

Definition per_user_record (u : string) : value := dict [("user_id", VInt 501); ("identity_uuid", VStr u)].
Definition global_record (user : Z) (u : string) : value :=
  dict [("user_id", VInt user); ("identity_uuid", VStr u); ("group_type", VInt 1);
        ("group_uuid", VStr "00000000-0000-0000-0000-000000000000")].
Definition sample_live : value :=
  dict [("double_collection_equal", VBool true); ("apple_uid", VInt 501); ("biometric_protocol_version", VInt 2);
        ("catacomb", dict [("present", VBool true)]);
        ("per_user_identity_records", VList [per_user_record (uuid_str 0x456); per_user_record (uuid_str 0x123)]);
        ("global_identity_records", VList [global_record 501 (uuid_str 0x123); global_record 502 (uuid_str 0x999);
                                           global_record 501 (uuid_str 0x456)])].

Example sample_summarized : summarize sample_archive sample_live = Ok (summary [index_finger; thumb]).
Proof. vm_compute. reflexivity. Qed.

Lemma sample_reconciled : reconciled sample_archive sample_live.
Proof. exact (proj1 (proj1 (summarize_Ok _ _ _ sample_archive_ok) sample_summarized)). Qed.

Lemma resolve_slot_exact_witness :
  is_ok (resolve_slot sample_archive sample_live 2) = true ∧ is_ok (resolve_slot sample_archive sample_live 3) = false.
Proof.
  destruct (resolve_slot_exact sample_archive sample_live sample_archive_ok) as [_ H]. split.
  - apply (H 2 sample_reconciled). vm_compute. split; discriminate.
  - destruct (is_ok (resolve_slot sample_archive sample_live 3)) eqn:E; [|reflexivity].
    apply (H 3 sample_reconciled) in E as [_ E]. by vm_compute in E.
Defined.

Lemma thumb_resolves : resolves sample_archive sample_live 2 (resolved_as thumb).
Proof. split; [exact sample_reconciled|]. exists thumb. split; [by right; left|]. vm_compute. by split. Qed.
Lemma finger_resolves : resolves sample_archive sample_live 1 (resolved_as index_finger).
Proof. split; [exact sample_reconciled|]. exists index_finger. split; [by left|]. vm_compute. by split. Qed.

Lemma summary_projects_witness : ∃ p, project (summary [index_finger; thumb]) = Ok p ∧ fp_complete p = true
  ∧ fp_finger_names p = ["left-thumb"; "right-index-finger"].
Proof.
  destruct (summary_projects sample_archive sample_live _ sample_archive_ok sample_summarized) as [H _].
  destruct H as (p & Hp & _ & Hc & Hn & _); [apply (bool_decide_unpack _); vm_compute; exact I|].
  exists p. split; [exact Hp|]. assert (Hcomplete : fp_complete p = true).
  { apply Hc. split; [apply (bool_decide_unpack _); vm_compute; exact I|apply (bool_decide_unpack _); vm_compute; exact I]. }
  split; [exact Hcomplete|]. destruct (Hn Hcomplete) as [-> _]. reflexivity.
Defined.

Lemma select_exact_witness :
  select sample_archive [bytes_value (match_wire 501 (uuid_str 0x456)); bytes_value (match_wire 501 (uuid_str 0x123))]
    (VStr "left-thumb") = Ok (Selected "left-thumb" (match_wire 501 (uuid_str 0x456))).
Proof.
  apply (select_exact _ _ _ _ sample_archive_ok). exists thumb. split; [|reflexivity]. split.
  - split; [apply (bool_decide_unpack _); vm_compute; exact I|apply (bool_decide_unpack _); vm_compute; exact I].
  - split; [by right; left|]. split; [reflexivity|]. split; [apply perm_swap|].
    repeat constructor; [exists 0x123|exists 0x456]; (split; [reflexivity|vm_compute; split; reflexivity]).
Defined.

(** ** Plans *)

Definition relabelled : list Identity := alter (set_name "left-index-finger") 0%nat fingers.
Definition rename_loads : bytes → result plist := one_loads (root_of relabelled None).
Lemma rename_plan_exact_witness :
  rename_plan one_dumps rename_loads sample_archive sample_live 1 "left-index-finger"
    = Ok (renamed_as sample_archive index_finger "left-index-finger" one_data).
Proof.
  destruct (rename_plan_exact one_dumps rename_loads sample_archive sample_live 1 "left-index-finger" sample_archive_ok) as [_ H].
  destruct (H index_finger 0%nat finger_resolves eq_refl) as (root & Hb & Hplan).
  - split; [reflexivity|]. apply (bool_decide_unpack _). vm_compute. exact I.
  - apply Hplan. replace root with (root_of relabelled None); [apply encoding_of|]. exact (f_equal (ok_or PNone) Hb).
Defined.

Definition delete_loads : bytes → result plist := one_loads (root_of [index_finger] None).
Lemma delete_plan_exact_witness : ∃ survivors,
  delete_plan one_dumps delete_loads sample_archive sample_live 2 = Ok (deletes sample_archive thumb survivors one_data).
Proof.
  destruct (delete_plan_exact one_dumps delete_loads sample_archive sample_live 2 sample_archive_ok) as [_ H].
  destruct (H thumb 1%nat thumb_resolves eq_refl Nat.lt_1_2) as (root & survivors & Hb & _ & Hplan).
  exists survivors. apply Hplan. replace root with (root_of [index_finger] None); [apply encoding_of|].
  exact (f_equal (ok_or PNone) Hb).
Defined.

(** The fresh envelope, and a codec that tells the bound archive from the
    planned one by the length of its secure data. *)
Definition fresh_envelope : bytes := text "LTFC" ++ zeros 30.
Definition bound_data : bytes := text "bplist00 the bound value".
Definition bound_root : plist := ok_or PNone (build_root (rewritten sample_archive relabelled None) relabelled (Some fresh_envelope)).
Definition secure_of (root : plist) : nat :=
  match root with
  | PDict d =>
      match member d "$objects" with
      | PList (_ :: PDict o :: _) => match member o "NS.data" with PBytes b => length b | _ => 0%nat end
      | _ => 0%nat
      end
  | _ => 0%nat
  end.
Definition bind_dumps (root : plist) : result bytes := Ok (if (secure_of root =? 34)%nat then bound_data else one_data).
Definition bind_loads (data : bytes) : result plist :=
  Ok (if bool_decide (data = bound_data) then bound_root else root_of relabelled None).
Definition sample_rename : IdentityRenamePlan := renamed_as sample_archive index_finger "left-index-finger" one_data.

Example sample_rename_planned :
  rename_plan bind_dumps bind_loads sample_archive sample_live 1 "left-index-finger" = Ok sample_rename.
Proof. vm_compute. reflexivity. Qed.

Lemma bound_edits_exact_witness : ∃ c, decode_user_catacomb bind_loads one_data 501 = Ok c
  ∧ rebound bind_dumps bind_loads (bind_renamed bind_dumps bind_loads sample_rename fresh_envelope) c fresh_envelope.
Proof.
  destruct (bound_edits_exact bind_dumps bind_loads sample_archive sample_live 1 fresh_envelope sample_archive_ok) as [H _].
  destruct (H _ _ sample_rename_planned) as [Hbind _]. apply Hbind.
  split; [split; apply Z.leb_le; reflexivity|reflexivity].
Defined.

Example sample_bound : bind_renamed bind_dumps bind_loads sample_rename fresh_envelope = Ok bound_data.
Proof. vm_compute. reflexivity. Qed.
