(* ===== verification/OperationSamples.v ===== *)
(** * Concrete operations

    A user who is locked and one whose activation was lost, on which the
    theorems about the operations are instantiated. *)
From S2P Require Import Prelude PyValue Sha256 Json MutationJournal Evidence TypedJournal UserMapping UserReadiness.
From S2P Require Import ActivationJournal UserPolicy Effect Bytes OperationWorld UserActivation ActivationRuns.
From S2P Require Import Samples UserSamples ProtocolSamples.

#[local] Open Scope Z_scope.

Definition quiet_surroundings : surroundings := Surroundings 0 (λ _ s, s) (λ _, io_ok).

(** The alias is locked until it is unlocked. *)
Definition sample_transport : transport :=
  Transport (VStr sample_runtime)
    (λ past _, Ok (Returned (Some (sample_alias (if existsb mutating past then 40 else 41)))))
    (λ _ _, Ok Awaitable) (λ _ _, Ok Awaitable) (λ _ _ _, Ok Awaitable)
    (λ _ _ _, Ok (Returned (VInt 0))).
Definition locked_decision : UserPolicyDecision :=
  ok_or empty_decision (authorize sample_set enroll_request sample_caller sample_persistent (sample_alias 41)
                          (Some enroll_grant) (Some activate_grant)).
Definition sample_password : bytes := text "secret".
Definition sample_world : world := World (FS None Absent) 0 [] sample_password.
Definition sample_run : result UserActivationOperationResult * world :=
  run quiet_surroundings sample_transport sample_set sample_mapping "enroll" sample_persistent Wipeable locked_decision
    sample_boot (Ok (VInt 600)) "" sample_world.

Lemma quiet_orderly : orderly quiet_surroundings.
Proof. by split; intros n s. Qed.

Lemma activation_commands_journalled_witness :
  Forall (intended quiet_surroundings sample_mapping sample_runtime) (w_trace sample_run.2)
  ∧ script sample_mapping sample_password (commands sample_run.2)
  ∧ (w_trace sample_run.2 ≠ [] →
       authority sample_mapping sample_runtime sample_set "enroll" locked_decision sample_boot (Ok (VInt 600)))
  ∧ (commands sample_run.2 ≠ [] → pd_state locked_decision = "activation-authorized")
  ∧ (is_wipeable Wipeable = true → w_password sample_run.2 = zeros (length sample_password)).
Proof.
  apply (activation_commands_journalled quiet_surroundings sample_transport sample_set sample_mapping "enroll"
    sample_persistent Wipeable locked_decision sample_boot (Ok (VInt 600)) "" sample_runtime quiet_orderly eq_refl
    sample_world sample_run.1).
  - reflexivity.
  - reflexivity.
  - unfold sample_run. apply surjective_pairing.
Defined.

Example sample_run_ready : sample_run.1 = Ok (OperationResult "ready" true false).
Proof. vm_compute. reflexivity. Qed.

Lemma activation_result_proved_witness :
  (OperationResult "ready" true false = OperationResult "already-ready" false false
     ∧ commands sample_run.2 = [] ∧ w_fs sample_run.2 = FS None Absent
     ∧ ∃ a d, map fst (w_trace sample_run.2) = [CObserve (-501)]
         ∧ tr_observe_alias sample_transport [] (-501) = Ok (Returned (Some a))
         ∧ assess sample_mapping "enroll" sample_persistent a = Ok d ∧ rd_state d = "ready")
  ∨ (OperationResult "ready" true false = OperationResult "ready" true false
     ∧ (∃ h, activation_read 0 (fs_entry (w_fs sample_run.2)) = Ok h ∧ ah_phase h = U_READY)
     ∧ ∃ past c a d, mutating c = true ∧ map fst (w_trace sample_run.2) = past ++ [c; CObserve (-501)]
         ∧ tr_observe_alias sample_transport (past ++ [c]) (-501) = Ok (Returned (Some a))
         ∧ assess sample_mapping "enroll" sample_persistent a = Ok d ∧ rd_state d = "ready").
Proof.
  apply (activation_result_proved quiet_surroundings sample_transport sample_set sample_mapping "enroll"
    sample_persistent Wipeable locked_decision sample_boot (Ok (VInt 600)) "" sample_runtime quiet_orderly eq_refl
    sample_world).
  - reflexivity.
  - reflexivity.
  - rewrite <-sample_run_ready. unfold sample_run. apply surjective_pairing.
Defined.

(** ** Recovery *)

(** The transport is lost with the unlock command. *)
Definition lost_transport : transport :=
  Transport (VStr sample_runtime)
    (λ past _, if existsb mutating past then raise OSError "lost" else Ok (Returned (Some (sample_alias 41))))
    (λ _ _, Ok Awaitable) (λ _ _, Ok Awaitable) (λ _ _ _, Ok Awaitable)
    (λ _ _ _, raise OSError "lost").
Definition lost_text : string := Eval vm_compute in
  entry_content (fs_entry (w_fs (run quiet_surroundings lost_transport sample_set sample_mapping "enroll"
    sample_persistent Wipeable locked_decision sample_boot (Ok (VInt 600)) "" sample_world).2)).
Definition lost_file : file := File lost_text true 0 1 384.
Definition lost_records : list value := Eval vm_compute in ok_or [] (read 0 (Present lost_file)).
Definition lost_history : UserActivationHistory := Eval vm_compute in
  ok_or (activation_history (ALoop VNone VNone activation_start_state) 0 VNone)
    (validate_history (J := activation_journal) lost_records).
Definition lost_world : world := World (FS None (Present lost_file)) 0 [] [].
(** A later runtime, which finds the user ready. *)
Definition sample_observer : transport :=
  Transport (VStr later_runtime) (λ _ _, Ok (Returned (Some (sample_alias 40))))
    (λ _ _, Ok Awaitable) (λ _ _, Ok Awaitable) (λ _ _ _, Ok Awaitable) (λ _ _ _, Ok Awaitable).

Lemma recovery_observes_only_witness :
  let r := recover quiet_surroundings sample_observer sample_set sample_mapping sample_persistent lost_world in
  (calls_are [] r.2 ∨ calls_are [CObserve (-501)] r.2) ∧ commands r.2 = []
  ∧ ∀ x, r.1 = Ok x → ∃ h0, activation_read 0 (Present lost_file) = Ok h0 ∧ ah_phase h0 = U_OUTCOME_UNKNOWN
      ∧ resolved quiet_surroundings h0 r.2 x.
Proof.
  cbv zeta. apply (recovery_observes_only quiet_surroundings sample_observer sample_set sample_mapping sample_persistent
    lost_world).
  - exact quiet_orderly.
  - vm_compute. reflexivity.
  - apply surjective_pairing.
Defined.

Lemma recovery_completes_witness : ∃ r w',
  recover quiet_surroundings sample_observer sample_set sample_mapping sample_persistent lost_world = (Ok r, w')
  ∧ rr_readiness_state r = "ready" ∧ resolved quiet_surroundings lost_history w' r.
Proof.
  apply (recovery_completes quiet_surroundings sample_observer sample_set sample_mapping sample_persistent lost_world
    None lost_file lost_records lost_history (sample_alias 40) ready_decision).
  - by split.
  - reflexivity.
  - vm_compute. reflexivity.
  - vm_compute. reflexivity.
  - vm_compute. reflexivity.
  - reflexivity.
  - vm_compute. reflexivity.
  - vm_compute. reflexivity.
  - vm_compute. reflexivity.
  - reflexivity.
  - vm_compute. reflexivity.
  - reflexivity.
  - vm_compute. reflexivity.
  - intros early record payload Hplan.
    assert (∀ e : bool, match plan_append (f_content lost_file) (str_value (ah_operation_id lost_history))
        "USER_ACTIVATION_RECOVERY_OBSERVED"
        (recovery_evidence (tr_runtime_generation sample_observer) sample_mapping (sample_alias 40)
           (resolution_of e (rd_state ready_decision)) (rd_state ready_decision))
        (Some (Z.of_nat (length lost_records))) (Some (last_hash lost_records)) with
      | Ok (_, p) => Z.of_nat (String.length (f_content lost_file +:+ p)) <=? MAX_JOURNAL_BYTES
      | Raise _ => true end = true) as H by (intros []; vm_compute; reflexivity).
    specialize (H early). rewrite Hplan in H. by apply Z.leb_le.
Defined.
