(* ===== verification/PersistenceSamples.v ===== *)
(** * A concrete save

    The enrolment journal of [JournalSamples] after its terminal failure and
    its terminal identity, a device that accepts everything, and the runs of
    the persistence operation on them. *)
From S2P Require Import Prelude PyValue Sha256 Json MutationJournal Evidence TypedJournal PersistenceJournal.
From S2P Require Import EnrollmentJournal Effect OperationWorld Bytes CatacombOracle CatacombProtocol.
From S2P Require Import SaveWorld SaveFacts PersistenceOperation PersistenceRuns Samples JournalSamples.

#[local] Open Scope Z_scope.

Definition quiet : surroundings := Surroundings 0 (λ _ s, s) (λ _, io_ok).

Lemma quiet_lines : orderly quiet.
Proof. by split; intros n s. Qed.

(** A journal written record by record. *)
Definition written (events : list (string * value)) : fs :=
  foldl (λ s e, (append 0 io_ok s sample_operation e.1 e.2 false None None).1)
    (append 0 io_ok (FS None Absent) sample_operation "BASELINE_RECONCILED"
       (dict [("operation_kind", VStr "enroll"); ("baseline", sample_baseline)]) true None None).1 events.
(** An enrolment that fails: only the bio-lockout state is to be saved. *)
Definition failure_events : list (string * value) :=
  take 2 enrollment_events
  ++ [("ENROLL_TERMINAL_FAILURE_OBSERVED", dict [conn; ("event_sequence", VInt 4);
         ("envelope_type", VInt SERVICE_STATUS); ("status", VInt 66)])].
Definition failure_text : string := Eval vm_compute in content_of (written failure_events).
Definition failure_fs : fs := FS None (Present (File failure_text true 0 1 384)).

(** A host store that keeps the staged files. *)
#[export] Instance toy_host_store : HostStore (gmap string bytes) := {
  hs_begin_stage _ := assign (λ _, ∅);
  hs_stage_component name data _ := _ ← assign (<[name := data]>); mret (VStr (secure_digest data));
  hs_cross_commit_boundary _ := mret tt;
}.

Definition biolockout_spec : ComponentSpec := Spec "biolockout.cat" BioLockout.PERSISTENCE_DESCRIPTOR.
Definition failure_batches : list (list ComponentSpec) := [[biolockout_spec]].

Definition sample_blob : bytes := replicate 16 "b"%char.
(** Every save gets a buffer of its own. *)
Definition sample_device : PersistenceTransport :=
  Transport (λ _ _, Ok (VInt 0, VInt 16))
    (λ past _ h, (Ok (VInt 0, Buffer (length past)), <[length past := sample_blob]> h))
    (λ _ _, Ok (VInt 0)).
Definition sample_encoder : Encoder := λ past name _ h,
  (Ok (Buffer (length past)), <[length past := text name ++ sample_blob]> h).
Definition sample_readback : Readback := λ _, Ok (Some (Attestation (VStr snapshot_digest) (VBool true) (VBool true))).

Definition failure_world : save_world (gmap string bytes) := SaveWorld failure_fs 0 [] ∅ NoBuffer NoBuffer ∅.
#[local] Abbreviation failure_save :=
  (run quiet sample_operation sample_device sample_encoder sample_readback failure_batches failure_world).


Lemma failure_fresh : fresh failure_world.
Proof. split; [done|done|]. vm_compute. reflexivity. Qed.

Lemma save_calls_announced_witness : Forall (event_announced (Hi := EnrollmentHistory) quiet sample_operation) (sv_trace failure_save.2).
Proof.
  exact (save_calls_announced quiet quiet_lines sample_operation sample_device sample_encoder sample_readback
    failure_batches failure_world failure_save.1 failure_save.2 failure_fresh (surjective_pairing _)).
Defined.

Lemma save_run_script_witness : let '(r, w') := failure_save in
  match r with
  | Ok h' => ∃ h b c, starts quiet sample_operation failure_batches failure_world h b c
      ∧ calls w' = run_calls b c failure_batches ∧ save_attested quiet sample_operation w' h' failure_batches
  | Raise _ => calls w' = [] ∨ ∃ h b c, starts quiet sample_operation failure_batches failure_world h b c
      ∧ calls w' `prefix_of` run_calls b c failure_batches
  end.
Proof.
  destruct failure_save as [res final] eqn:Hrun.
  exact (save_run_script quiet quiet_lines sample_operation sample_device sample_encoder sample_readback
    failure_batches failure_world res final failure_fresh Hrun).
Defined.

Lemma sample_tidy : tidy_calls sample_device sample_encoder.
Proof.
  split.
  - intros past d h k Hk. apply lookup_insert_ne. intros Heq. apply Hk. by rewrite <-Heq.
  - intros past name r h k Hk. apply lookup_insert_ne. intros Heq. apply Hk. by rewrite <-Heq.
Qed.

Lemma save_wipes_buffers_witness : tidy_calls sample_device sample_encoder
  ∧ ∀ k b, sv_heap failure_save.2 !! k = Some b → b = zeros (length b).
Proof.
  split; [exact sample_tidy|].
  exact (save_wipes_buffers quiet quiet_lines sample_operation sample_device sample_encoder sample_readback
    failure_batches failure_world failure_save.1 failure_save.2 failure_fresh sample_tidy (surjective_pairing _)).
Defined.
