(* ===== verification/BridgeSamples.v ===== *)
(** * A concrete connection

    A lease with a scripted list of answers, and the adapters over it: the
    witnesses of [BridgeLease], [CatacombBridgeRuns] and [EnrollmentBridge]. *)
From Stdlib Require Import QArith_base.
From S2P Require Import Prelude PyValue Effect OperationWorld Bytes BridgeWire CatacombProtocol SaveWorld SaveFacts BridgeLease.
From S2P Require Import CatacombBridge CatacombBridgeRuns EnrollmentBridge Samples.

#[local] Open Scope Z_scope.

(** The answers that are left: to commands, and events to wait for. *)
Record scripted_lease := Scripted { sl_replies : list command_result; sl_waits : list value }.
#[export] Instance scripted_is_lease : Lease scripted_lease := {
  connection_generation := mret (VStr sample_connection);
  biometric_command _ := λ l,
    match sl_replies l with
    | [] => (raise OSError "connection lost", l)
    | r :: rest => (Ok r, Scripted rest (sl_waits l))
    end;
  wait_service_event _ := λ l,
    match sl_waits l with
    | [] => (raise OSError "connection lost", l)
    | v :: rest => (Ok v, Scripted (sl_replies l) rest)
    end;
  invalidate := assign (λ _, Scripted [] []);
}.

Definition reply (output : bytes) : command_result := Tuple [VList [VInt 0; VBytes (String.string_of_list_ascii output)]; VList []].
Definition generation : value := VStr sample_connection.

(** ** Deletions *)

Definition delete_bytes : bytes := replicate 20 "d"%char.
#[local] Abbreviation fresh_delete := (Adapter (DeleteBridge.Bridge sample_connection DeleteBridge.READY) (Scripted [reply []] []) [] ∅).

Lemma delete_bridge_one_shot_witness :
  ad_sent (DeleteBridgeFacts.deletions [[]; delete_bytes; delete_bytes] fresh_delete) = [Biometric 0x0D 0 0 delete_bytes 0].
Proof.
  rewrite (DeleteBridgeFacts.delete_bridge_one_shot sample_connection [] ∅ fresh_delete) by (by split).
  vm_compute. reflexivity.
Defined.

(** ** One saved component and the bio-lockout record *)

Definition user_descriptor : bytes := packed [I_] (501, tt).
Definition user_blob : bytes := replicate 24 "u"%char.
Definition lockout_blob : bytes := text "HRLB" ++ replicate 28 "b"%char.
Definition save_replies : list command_result :=
  [reply (packed PREPARE_REPLY (24, tt)); reply user_blob; reply []; reply lockout_blob; reply (packed PREPARE_REPLY (7, tt)); reply user_blob].
Definition fresh_lease : scripted_lease := Scripted save_replies [].
Definition sample_router : EnrollmentPersistenceBridgeTransport :=
  Router (CatacombBridge 1 sample_connection IDLE None None) (BioLockoutBridge sample_connection READY) ROUTE_IDLE.
Example sample_router_made : new_router (VInt 1) generation fresh_lease = (Ok sample_router, fresh_lease).
Proof. vm_compute. reflexivity. Qed.

(** A component, the bio-lockout record, and a component whose length is not
    the one that was prepared, which poisons the transport. *)
Definition sample_calls : list transport_call :=
  [TPrepare user_descriptor; TComplete user_descriptor; TConfirm user_descriptor;
   TPrepare BioLockout.PERSISTENCE_DESCRIPTOR; TComplete BioLockout.PERSISTENCE_DESCRIPTOR; TConfirm BioLockout.PERSISTENCE_DESCRIPTOR;
   TPrepare user_descriptor; TComplete user_descriptor].
#[local] Abbreviation after_samples := (CatacombBridgeRuns.after_calls sample_calls (Adapter sample_router fresh_lease [] ∅)).

Example sample_calls_sent : map bc_command (ad_sent after_samples)
    = [COMMAND_PREPARE_SAVE_CATACOMB; COMMAND_COMPLETE_SAVE_CATACOMB; COMMAND_CONFIRM_SAVE_CATACOMB; BioLockout.SAVE_COMMAND;
       COMMAND_PREPARE_SAVE_CATACOMB; COMMAND_COMPLETE_SAVE_CATACOMB]
  ∧ cb_state (rt_catacomb (ad_self after_samples)) = POISONED.
Proof. vm_compute. by split. Qed.

Lemma router_sends_transactions_witness :
  captures (ad_sent after_samples) `prefix_of` [capture_call]
  ∧ catacomb_calls (ad_sent (CatacombBridgeRuns.after_calls sample_calls after_samples)) = catacomb_calls (ad_sent after_samples).
Proof.
  destruct (router_sends_transactions 1 generation fresh_lease fresh_lease sample_router ∅ sample_calls sample_calls
    sample_router_made) as (_ & Hc & Hp).
  split; [exact Hc|]. apply Hp. exact (proj2 sample_calls_sent).
Defined.

Lemma router_keeps_contract_witness : transport_contract (router_transport (Adapter sample_router fresh_lease [] ∅)).
Proof. exact (router_keeps_contract 1 generation fresh_lease fresh_lease sample_router ∅ sample_router_made). Defined.

(** ** An enrolment that is cancelled *)

Definition cancel_lease : scripted_lease := Scripted [reply []; reply []; reply []; reply []] [VNone].
Definition sample_adapter : EnrollmentBridgeTransport := EnrollmentBridge 1 sample_connection EB_IDLE [].
Example sample_adapter_made : new_enrollment_bridge (VInt 1) generation cancel_lease = (Ok sample_adapter, cancel_lease).
Proof. vm_compute. reflexivity. Qed.
Definition cancelled_calls : list enrollment_call :=
  [EStart (Some (View 1 1 true (replicate 48 "p"%char))); EContinue; ENext (Some (1 # 1)%Q); ECancel; EContinue].

Lemma enrollment_bridge_script_witness :
  let sent := ad_sent (EnrollmentBridge.after_calls cancelled_calls (Adapter sample_adapter cancel_lease [] ∅)) in
  length sent = 3%nat
  ∧ (sent = [] ∨ ∃ payload k, length payload = (if 1 =? 1 then 48%nat else 68%nat) ∧ sent `prefix_of` enrollment_script 1 payload k).
Proof.
  split; [vm_compute; reflexivity|].
  exact (enrollment_bridge_script 1 generation cancel_lease cancel_lease sample_adapter ∅ cancelled_calls sample_adapter_made).
Defined.
