(* ===== verification/EnrollmentSamples.v ===== *)
(** * Concrete enrolments

    The operation of [EnrollmentOperation] on the baseline of [Samples]: over a
    transport with a list of events, and over the adapter and the scripted
    lease of [BridgeSamples]. *)
From Stdlib Require Import QArith_base.
From S2P Require Import Prelude PyValue Sha256 Json MutationJournal Evidence TypedJournal PersistenceJournal.
From S2P Require Import EnrollmentJournal Effect OperationWorld Bytes EnrollmentProtocol SaveWorld BridgeLease EnrollmentBridge.
From S2P Require Import EnrollmentOperation EnrollmentRuns EnrollmentStack Samples JournalSamples PersistenceSamples BridgeSamples.

#[local] Open Scope Z_scope.

(** A transport with the events that are left; [None] is a time-out. *)
Record toy_transport := Toy { ty_events : list (option bytes) }.
#[export] Instance toy_is_transport : EnrollmentTransport toy_transport := {
  et_connection_generation _ := sample_connection;
  et_protocol_version _ := 1;
  et_start _ := mret (VInt 0);
  et_continue := mret (VInt 0);
  et_cancel := mret (VInt 0);
  et_next_event := λ t,
    match ty_events t with
    | [] => (raise OSError "connection lost", t)
    | e :: rest => (Ok e, Toy rest)
    end;
}.
Definition calm_callbacks {T} : Callbacks T :=
  MkCallbacks (mret (Returned (VBool true))) (mret (VBool false)) (λ _, mret (Returned VNone)).

(** The status events of an enrolment: a touch, a continued scan, and the
    cancellation by the coprocessor. *)
Definition status_event (time status : Z) : bytes :=
  packed SERVICE_HEADER (0, (SERVICE_STATUS, (1, (time, tt)))) ++ le_pack 4 status ++ zeros 12.
Definition sample_events : list (option bytes) :=
  [None; Some (status_event 5 63); Some (status_event 6 70); None; Some (status_event 9 66)].

Definition enroll_text : string := Eval vm_compute in content_of
  (MutationJournal.append 0 io_ok (FS None Absent) sample_operation "BASELINE_RECONCILED"
     (dict [("operation_kind", VStr "enroll"); ("baseline", sample_baseline)]) true None None).1.
Definition enroll_fs : fs := FS None (Present (File enroll_text true 0 1 384)).
Definition sample_form : bytes := map Ascii.ascii_of_nat (seq 1 16).
Definition enrolling {T} (t : T) : enroll_world T := EnrollWorld enroll_fs 0 [] t None None None.
#[local] Abbreviation sample_enrollment :=
  (enroll quiet sample_operation calm_callbacks sample_boot sample_digest 1000 1000 sample_form 8 20 (enrolling (Toy sample_events))).


Lemma enrolling_unstarted {T} (t : T) : unstarted (enrolling t).
Proof. split; [done|]. split; [done|]. vm_compute. reflexivity. Qed.

Lemma enrollment_commands_journalled_witness :
  traced quiet sample_operation sample_enrollment.2.
Proof.
  exact (enrollment_commands_journalled quiet quiet_lines sample_operation calm_callbacks sample_boot sample_digest 1000 1000
    sample_form 8 20 (enrolling (Toy sample_events)) sample_enrollment.1 sample_enrollment.2 (enrolling_unstarted _)
    (surjective_pairing _)).
Defined.

Lemma quiet_writes : whole_writes quiet.
Proof. intros n [|c p]; reflexivity. Qed.


(** The append after an accepted start fails in the operating system. *)
Definition failing_append : surroundings := Surroundings 0 (λ _ s, s) (λ n, if (n =? 2)%nat then IO [None] true true else io_ok).
#[local] Abbreviation interrupted_enrollment :=
  (enroll failing_append sample_operation calm_callbacks sample_boot sample_digest 1000 1000 sample_form 8 20 (enrolling (Toy sample_events))).

(** The start was sent and accepted, the operation reports a local failure, and
    the journal shows the intent to start as its last record. *)
Lemma start_unrecorded : exists payload,
  map fst (ew_trace interrupted_enrollment.2) = [EvStart payload]
  ∧ interrupted_enrollment.1 = raise EnrollmentOperationError "enrollment operation failed locally"
  ∧ (eh_phase <$> enroll_read 0 (fs_entry (ew_fs interrupted_enrollment.2))) = Ok E_START_INTENT.
Proof. eexists. vm_compute. split_and!; reflexivity. Qed.

(** The time-outs that are left. *)
Definition silences (t : toy_transport) : nat := length (ty_events t).
Lemma toy_silence : bounded_silence calm_callbacks silences.
Proof.
  split; try (by repeat intro; apply le_n).
  - intros [[|e events]]; unfold silences; cbn; lia.
  - intros [[|e events]]; unfold silences; cbn; [discriminate|lia].
Qed.

Lemma enrollment_terminates_witness :
  (enroll quiet sample_operation calm_callbacks sample_boot sample_digest 1000 1000 sample_form 8 13 (enrolling (Toy sample_events))).1 ≠ Ok None.
Proof.
  apply (enrollment_terminates quiet sample_operation calm_callbacks silences toy_silence). apply Nat.leb_le. reflexivity.
Defined.

(** ** Over the adapter *)

Definition service_event (raw : bytes) : value :=
  VList [VInt 9; VInt BRIDGE_SERVICE_STATUS; VBytes (String.string_of_list_ascii raw); VInt 0; VInt 0].
Definition enrolling_lease : scripted_lease :=
  Scripted [reply []] [VNone; service_event (status_event 9 66)].
Example enrolling_adapter_made : new_enrollment_bridge (VInt 1) generation enrolling_lease = (Ok sample_adapter, enrolling_lease).
Proof. vm_compute. reflexivity. Qed.
#[local] Abbreviation over_adapter := (Adapter sample_adapter enrolling_lease [] ∅).
#[local] Abbreviation stacked :=
  (enroll quiet sample_operation calm_callbacks sample_boot sample_digest 1000 1000 sample_form 8 20 (enrolling over_adapter)).

(** The outcome, and the kinds of the commands sent. *)
Definition observed {T} (run : result (option EnrollmentOperationResult) * enroll_world T) : string * list string :=
  (match run.1 with Ok (Some res) => or_outcome res | Ok None => "waiting" | Raise e => exn_msg e end,
   map (λ e, match e.1 with EvStart _ => "start" | EvContinue => "continue" | EvCancel => "cancel" end) (ew_trace run.2)).
Example stacked_enrolled : observed stacked = ("cancelled", ["start"])
  ∧ map bc_command (ad_sent (ew_transport stacked.2)) = [COMMAND_ENROLL_START].
Proof. vm_compute. by split. Qed.

Lemma calm_aside : aside (L := scripted_lease) calm_callbacks 1.
Proof. split; intros; by left. Qed.

Lemma enrollment_stack_announced_witness :
  ∃ announced, announced `sublist_of` ew_trace stacked.2 ∧ scripted (map fst (ew_trace stacked.2))
    ∧ ad_sent (ew_transport stacked.2) = map (λ e, wire 1 e.1) announced
    ∧ Forall (command_announced quiet sample_operation) announced.
Proof.
  exact (enrollment_stack_announced quiet quiet_lines sample_operation calm_callbacks 1 generation enrolling_lease enrolling_lease
    sample_adapter ∅ sample_boot sample_digest 1000 1000 sample_form 8 20 (enrolling over_adapter) stacked.1 stacked.2
    enrolling_adapter_made calm_aside (enrolling_unstarted _) eq_refl (surjective_pairing _)).
Defined.
