(* ===== verification/EditSamples.v ===== *)
(** * Concrete edits

    The rename and the deletion planned in [IdentitySamples], carried out on a
    device that accepts everything: the journal of the rename up to its
    intent, the one of the deletion up to its intent and up to the observed
    absence. *)
From S2P Require Import Prelude PyValue Sha256 Json MutationJournal Evidence TypedJournal PersistenceJournal.
From S2P Require Import RenameJournal DeleteJournal Effect OperationWorld Bytes KeyedArchive CatacombOracle CatacombCodec.
From S2P Require Import CatacombWrite CatacombProtocol IdentityInventory IdentityPlans SaveWorld SaveFacts SingleSave SingleSaveRuns BridgeLease.
From S2P Require Import DeleteOperation IdentityOperations IdentityOperationRuns.
From S2P Require Import Samples JournalSamples CatacombSamples IdentitySamples PersistenceSamples.

#[local] Open Scope Z_scope.

Definition record_of_identity (i : Identity) : value :=
  dict [("user_id", VInt 501); ("uuid", VStr (id_uuid i)); ("entity", VInt (id_entity i))].
(** The baseline of [Samples] with the identities of the archive. *)
Definition edit_baseline : value :=
  match sample_baseline with
  | VDict d => VDict (<["identity_records" := VList (map record_of_identity fingers)]>
      (<["capacity" := dict [("used", VInt 2); ("maximum", VInt 5)]]> d))
  | v => v
  end.
Definition edit_journal (kind : string) (events : list (string * value)) : fs :=
  foldl (λ s e, (MutationJournal.append 0 io_ok s sample_operation e.1 e.2 false None None).1)
    (MutationJournal.append 0 io_ok (FS None Absent) sample_operation "BASELINE_RECONCILED"
       (dict [("operation_kind", VStr kind); ("baseline", edit_baseline)]) true None None).1 events.

(** A device whose secure data is [fresh_envelope]. *)
Definition edit_device : PersistenceTransport :=
  Transport (λ _ _, Ok (VInt 0, VInt 34))
    (λ past _ h, (Ok (VInt 0, Buffer (length past)), <[length past := fresh_envelope]> h))
    (λ _ _, Ok (VInt 0)).
Definition edit_world (s : fs) : save_world (gmap string bytes) := SaveWorld s 0 [] ∅ NoBuffer NoBuffer ∅.

(** ** The rename *)

Definition renaming_fs : fs := edit_journal "rename"
  [("RENAME_INTENT", dict [conn; ("user_id", VInt 501); ("identity_uuid", VStr (id_uuid index_finger));
      ("entity", VInt 1); ("previous_name_sha256", VStr (name_hash "right-index-finger"));
      ("new_name_sha256", VStr (name_hash "left-index-finger")); mapping])].
Definition rename_text : string := Eval vm_compute in content_of renaming_fs.
Definition rename_fs : fs := FS None (Present (File rename_text true 0 1 384)).
Definition rename_readback : list save_event → result (option RenameReadbackAttestation) := λ _,
  Ok (Some (RenameAttestation (VStr sample_connection) (VStr snapshot_digest) (VInt 2) (VBool true) (VBool true) (VBool true))).
#[local] Abbreviation sample_rename_run :=
  (rename_run bind_dumps bind_loads quiet sample_operation edit_device rename_readback sample_rename sample_digest (edit_world rename_fs)).

Lemma edit_unused s : whole s → unused (edit_world s).
Proof. by intros H. Qed.
Lemma rename_whole : whole (sv_fs (edit_world rename_fs)).
Proof. vm_compute. reflexivity. Qed.


(** ** The deletion *)

Definition survivors_root : plist := root_of [index_finger] None.
Definition survivors_bound : plist :=
  ok_or PNone (build_root (rewritten sample_archive [index_finger] None) [index_finger] (Some fresh_envelope)).
Definition survivor_loads (data : bytes) : result plist :=
  Ok (if bool_decide (data = bound_data) then survivors_bound else survivors_root).
Definition sample_delete : IdentityDeletePlan := Eval vm_compute in
  ok_or (DeletePlan 0 "" 0 "" [] "" []) (delete_plan bind_dumps survivor_loads sample_archive sample_live 2).

(** What the coprocessor reports once the thumb is gone. *)
Definition live_survivors : value :=
  dict [("double_collection_equal", VBool true); ("apple_uid", VInt 501); ("biometric_protocol_version", VInt 2);
        ("connection_generation", VStr sample_connection);
        ("catacomb", dict [("present", VBool true)]);
        ("per_user_identity_records", VList [per_user_record (uuid_str 0x123)]);
        ("global_identity_records", VList [global_record 501 (uuid_str 0x123)])].

Definition deleting_fs : fs := edit_journal "delete-one"
  [("DELETE_INTENT", dict [conn; ("user_id", VInt 501); ("identity_uuid", VStr (id_uuid thumb)); ("entity", VInt 2);
      ("target_name_sha256", VStr (name_hash "left-thumb")); ("request_sha256", VStr (secure_digest (dp_request sample_delete)));
      ("request_length", VInt 20); ("survivor_snapshot_sha256", VStr (dp_survivor_snapshot_sha256 sample_delete));
      ("survivor_count", VInt 1); mapping])].
Definition delete_text : string := Eval vm_compute in content_of deleting_fs.
Definition delete_fs : fs := FS None (Present (File delete_text true 0 1 384)).

(** A coprocessor that deletes. *)
#[export] Instance toy_delete : DeleteTransport unit := {
  dt_connection_generation _ := sample_connection;
  dt_delete _ := mret (DeleteBridge.CommandResult 0 0 0);
  dt_collect_inventory := mret live_survivors;
}.
Definition deleting_world : delete_world unit := DeleteWorld delete_fs 0 [] tt.
#[local] Abbreviation sample_delete_run := (delete_run survivor_loads quiet sample_operation sample_delete sample_archive deleting_world).

Lemma delete_whole : whole delete_fs.
Proof. vm_compute. reflexivity. Qed.

Lemma delete_run_decides_witness : let '(r, w') := sample_delete_run in
  Forall (delete_announced quiet sample_operation sample_delete) (dw_trace w')
  ∧ map fst (dw_trace w') `prefix_of` delete_script sample_delete
  ∧ ∀ res, r = Ok res → map fst (dw_trace w') = delete_script sample_delete
      ∧ deleted_as_decided survivor_loads quiet sample_operation sample_delete sample_archive deleting_world w' res.
Proof.
  destruct sample_delete_run as [r w'] eqn:Hrun.
  exact (delete_run_decides survivor_loads quiet quiet_lines sample_operation sample_delete sample_archive deleting_world r w'
    eq_refl delete_whole Hrun).
Defined.

(** The journal once the absence was observed. *)
Definition deleted_text : string := Eval vm_compute in content_of sample_delete_run.2.(dw_fs).
Definition deleted_fs : fs := FS None (Present (File deleted_text true 0 1 384)).
Definition delete_readback : list save_event → result (option DeleteReadbackAttestation) := λ _,
  Ok (Some (DeleteAttestation (VStr sample_connection) (VStr snapshot_digest) (VInt 1))).
#[local] Abbreviation sample_persist_run :=
  (delete_persist_run bind_dumps survivor_loads quiet sample_operation edit_device delete_readback sample_delete sample_digest (edit_world deleted_fs)).

Lemma deleted_whole : whole (sv_fs (edit_world deleted_fs)).
Proof. vm_compute. reflexivity. Qed.

